(* ===== verification/_CoqProject ===== *)
-Q . S2P
Prelude.v
Words.v
Lists.v
ListProofs.v
Bitmap.v
BitmapProofs.v
Bytes.v
Text.v
Machine.v
Mips.v
MipsArith.v
MachineProofs.v
MipsProofs.v
MipsClaims.v
VmProofs.v
VmClaims.v
Sched.v
SchedProofs.v
SchedClaims.v
Synch.v
SynchProofs.v
SynchObjects.v
SynchInv.v
SynchLists.v
SynchClaims.v
Explore.v
SelfTests.v
SelfTestsClaims.v
Interrupt.v
InterruptProofs.v
Devices.v
InterruptClaims.v
Hash.v
HashProofs.v
Disk.v
DiskProofs.v
DiskClaims.v
OpenFile.v
OpenFileProofs.v
FileSys.v
FileSysProofs.v
FileSysInv.v
FileSysOps.v
FileSysClaims.v
Network.v
NetworkProofs.v
NetworkInv.v
NetworkClaims.v
NetworkTest.v
NetworkTestClaims.v
UserProg.v
UserProgProofs.v
UserProgClaims.v
Suspend.v
SuspendProofs.v
SuspendClaims.v
Console.v
ConsoleProofs.v
ConsoleInv.v
ConsoleClaims.v
Switch.v
SwitchProofs.v
SwitchClaims.v
SyncTest.v
SyncTestProofs.v
SyncTestLocks.v
SyncTestClaims.v
Debugger.v
DebuggerClaims.v
CommandLine.v
CommandLineProofs.v
HostSyscalls.v
HostSyscallsClaims.v
MainFiles.v
MainProofs.v
MainClaims.v
LibTest.v
TestPrograms.v
TestProgramsProofs.v
TestProgramsClaims.v
