(* ===== verification/Prelude.v ===== *)
(** * A verification development for MyNachos4.1

    MyNachos is an instructional operating system: a kernel that runs as one UNIX
    process on top of a simulated machine.  The simulated hardware (CPU, memory
    management, clock and interrupts, disk, console, network) is C++ code of the repository
    as well, and is modelled here next to the kernel that uses it.  The build is
    the one of src/code/build.linux/Makefile: [FILESYS_STUB], [SIM_FIX], [TUT] and
    [RDATA] are defined; the switches of the memory system ([USE_TLB], [USE_RPT],
    [FIFO_REPLACE], [LRU_REPLACE] and the byte order of the host) are parameters,
    as is the scheduling policy [typeno].  The file system of the non-stub build
    is modelled too.

    ** How the parts interact

    The interrupt hardware calls back the devices (timer, disk, console, network) when
    their time has come; the handlers call [Semaphore::V] or ask for a context
    switch; [P], [Yield] and [Sleep] go to the scheduler.  A trap of the CPU
    enters the exception handler, which loads pages and serves system calls.  The
    file system uses the synchronous disk, the post office the network devices.
    These meetings are interfaces, classes with laws, that the client's theorems
    are proved against and the implementation discharges:
    - [SchedProofs.Policy]: a scheduling policy; its instances are the four
      policies of scheduler.cc;
    - [Interrupt.Devices]: what the interrupt hardware calls; instances are the
      timer, the network with the post office, and the console.  The laws are
      [InterruptProofs.LawfulDevices] for devices that can always be called, and
      [Devices.preserved] for those whose handlers assert that they were awaited;
    - [Disk.SectorStore] and [DiskProofs.LawfulStore]: what the file system asks
      of a disk; the instance is the synchronous disk;
    - [HostSyscalls.Unix] and [HostSyscallsClaims.Posix]: the calls of UNIX that the
      shell on the host makes, and what POSIX promises for them; the instance is a small
      UNIX;
    - [UserProg.Switching] and [UserProgProofs.Users]: a system that switches
      threads and runs user programs; instances are the kernel, the kernel with
      the machine, and the abstract system with a processor per program.

    ** Conventions

    A routine is a function into [res], which tells a normal return from a failed
    [ASSERT], undefined behaviour and a loop that does not end.  State is passed
    explicitly; an object reached through pointers by several routines is kept in
    one record or map.  [int] and [unsigned int] are integers in [Z] wrapped around
    by [i32] and [u32]; bytes are integers below 256.  A thread that may be
    preempted is the list of the steps it still has to take, or the point at which
    it is, and its interleavings are step relations.

    ** Files

    - [Words], [Bytes], [Text]: bits of 32-bit words; byte arrays, words in memory,
      UNIX files; numbers in text.
    - [Lists], [ListProofs]: lib/list.h, lib/list.cc.  The templates at the level
      of pointers ([LinkedList]) refine operations on lists ([Seq]); the other
      files use [Seq].
    - [Bitmap], [BitmapProofs]: lib/bitmap.cc; words and masks refine a list of
      booleans.
    - [Machine], [MachineProofs], [VmProofs], [VmClaims]: machine/machine.cc,
      machine/translate.cc, userprog/exception.cc; well-formedness, and, for the
      inverted page table, translation, isolation, demand paging, replacement.
    - [Mips], [MipsArith], [MipsProofs], [MipsClaims]: machine/mipssim.cc.
    - [Sched], [SchedProofs], [SchedClaims]: threads/thread.cc and
      threads/scheduler.cc, the kernel half.
    - [Switch], [SwitchProofs], [SwitchClaims]: threads/switch.s and
      threads/switch.h for the x86, instruction by instruction, with
      [Thread::StackAllocate] and [Thread::CheckOverflow]; the host with one processor
      and the specification with a processor per thread.
    - [Synch], [SynchProofs], [SynchObjects], [SynchInv], [SynchLists],
      [SynchClaims]: threads/synch.cc, threads/synchlist.cc, under every
      interleaving.
    - [Interrupt], [InterruptProofs], [InterruptClaims]: machine/interrupt.cc,
      machine/timer.cc, threads/alarm.cc, machine/stats.cc.
    - [Hash], [HashProofs]: lib/hash.cc.
    - [Disk], [DiskProofs], [DiskClaims]: machine/disk.cc, filesys/synchdisk.cc.
    - [OpenFile], [OpenFileProofs]: filesys/filehdr.cc, filesys/openfile.cc.
    - [FileSys], [FileSysProofs], [FileSysInv], [FileSysOps], [FileSysClaims]:
      filesys/pbitmap.cc, filesys/directory.cc, filesys/filesys.cc.
    - [Devices]: devices that are not always ready, for the next two.
    - [Console], [ConsoleProofs], [ConsoleInv], [ConsoleClaims]:
      machine/console.cc, userprog/synchconsole.cc and [Kernel::ConsoleTest].
    - [Network], [NetworkProofs], [NetworkInv], [NetworkClaims]:
      machine/network.cc, network/post.cc.
    - [UserProg], [UserProgProofs], [UserProgClaims]: userprog/addrspace.cc and
      the user half of [Scheduler::Run] and of threads/thread.cc.
    - [SyncTest], [SyncTestProofs], [SyncTestLocks], [SyncTestClaims]: the programs
      of [Kernel::SyncTest] (threads/kernel.cc) under every interleaving, on top of
      what semaphores, locks and conditions promise.
    - [Explore], [SelfTests], [SelfTestsClaims]: [Semaphore::SelfTest] and
      [SynchList::SelfTest] with the constructors they call, with preemption also inside
      [Fork], explored over the kernel of [Synch]; [Explore] is a checked explorer of finite transition systems.
    - [NetworkTest], [NetworkTestClaims]: [Kernel::NetworkTest] on two machines joined
      by the network of [Network].
    - [Debugger], [DebuggerClaims]: [Machine::Debugger], the condition under which
      [Machine::Run] calls it, and [Debug::IsEnabled] of lib/debug.cc.
    - [CommandLine], [CommandLineProofs]: the options of [main] and of
      [Kernel::Kernel]; [MainFiles], [MainProofs], [MainClaims]: the actions of
      threads/main.cc on the file system.
    - [TestPrograms], [TestProgramsProofs], [TestProgramsClaims]: the programs of
      src/code/test and shell/shell.c; [LibTest]: lib/libtest.cc.
    - [HostSyscalls], [HostSyscallsClaims]: shell/nachos_syscall.c, the system calls of
      the shell on the host, over an interface of UNIX calls.
    - [Suspend], [SuspendProofs], [SuspendClaims]: suspending a thread to a file and restoring it
      (threads/thread.cc, threads/scheduler.cc), and the queues of the scheduler under
      the option -dt (machine/mipssim.cc).

    The operations have the names of the source.  Where one C++ routine is several
    definitions (a loop body, a part between two points where it may block) the
    comment of the definition says which.

    ** What the theorems show

    - Data structures: lists, bitmaps and hash tables refine mathematical lists,
      booleans and finite maps, assertion failures included.
    - Processor: multiplication is exact, overflow traps exactly, delay slots and
      unaligned loads behave as the architecture says, and every instruction keeps
      the machine well formed and leaves the program it runs alone.
    - Memory: a store reaches only frames of the running thread, a page fault
      brings in the right page, the page replaced is the oldest, and the frames of
      a thread that ends are freed, no others.
    - Threads: in every reachable state each thread is in one place; with the
      debugging option -dt, whose routines wake, suspend and restore threads between
      instructions, under two of the four policies only.  The operations of the
      scheduler succeed, except the last line of [Fork] under the priority policy:
      [Fork] is two steps, since the caller may be preempted when it restores the
      interrupt level ([Sched.Fork_ready], [Sched.Fork_check]), and the second
      dereferences a null pointer when nobody is ready by then.  The policies dispatch
      in the order they promise.
      The assembly of a context switch is invisible: threads on the host's one
      processor behave as on a processor each, and a new thread runs what it was
      forked with.
    - Synchronisation: no lost wake-ups, mutual exclusion, no lost signals, lists
      that hand out each item once, and no failure of a program that follows the
      rules.
    - Devices: interrupts occur exactly once and in order, time slices are exact,
      the synchronous disk is an array of sectors, the file system a finite map from
      names to contents, mail arrives unchanged and in order, and the console
      loses no character and mixes none up.
    - User programs: starting a program gives it the space its header describes,
      and context switches are invisible to it.  A thread that
      is suspended to a file comes back with the pages it had.
    - The programs that run on the machine: sorting sorts, matrices are multiplied,
      and the shell of the host runs the lines it reads as long as they fit in its buffer.  Its
      system calls on the host create, open, read and write files as they should;
      seeking and appending do not do what their comments say.
    - Command line: both loops over the options read what was meant, and a UNIX file
      that is copied in is printed unchanged by a later run.
    - Synchronisation programs: producers and consumers lose and repeat no item and
      come to an end, nobody passes the barrier early, readers and writers exclude
      each other until the last reader gives back a lock that it does not hold.
    - Tests of the kernel: the semaphore test comes to an end under every policy but
      that of priorities, where it may run into the null pointer of [Fork], the
      test of synchronised lists under the default one, whatever the interrupts do.
      The network test fails at once on the kernel as it is, which constructs no post
      office; with post offices the two machines get each other's messages.
    - Debugger: each line typed does what the help text promises, the empty line, after
      which the stream [cin] stays failed, excepted.
    Some theorems state what the code does where that is not what it means to do:
    the last reader gives back a lock it does not hold, a long file is copied over
    the end of an array, the shell reads over the end of its buffer, [Fork] may find the
    ready list empty, and the network test has no post office to send with.

    ** Bounds and fuel

    Loops bounded on entry are [for_loop]s over their bound.  Fuel is given to the
    loops that walk pointers (the number of elements), to the iterators of hash
    tables (the number of buckets), to the loops that copy and print a file (its
    length) and to [CheckIfDue], whose handlers may schedule
    new interrupts; the theorems prove that the fuel given is enough, so that no
    operation ends in [Diverge].  The self tests are explored with fuel for 32768
    states, which their theorems prove to be all there are; the two that ping-pong do
    so ten times, as in the source.

    ** Not modelled

    - The host interface (lib/sysdep.cc): system calls of UNIX; what they do to
      files is modelled where they are used.
    - Building the kernel's objects (threads/kernel.cc), which is part of the models of
      the components, and most printing (dumps of tables and of threads).
    - The tests [Thread::SelfTest] and [MyThreadTest], and the operations of
      [SynchList] that take a function or an item ([Apply], [RemoveSpecificOne]).
    - The context switches of other processors than the x86, which the build leaves
      out.  The scheduler's own model ([Sched]) takes a switch as a change of the
      running thread; [SwitchClaims] is what justifies that.
    - The functions on threads and [ExecV] of shell/nachos_syscall.c: calls of
      pthreads, and a call that passes an array for a string.
    - test/shell.c: its first system call, [Write], is one that [ExceptionHandler] does
      not know, and fails an assertion.
    - lib/tut*.h, a test library. *)

From stdpp Require Export base tactics list numbers gmap.
From Stdlib Require Export ZArith Lia Bool Sorted.

#[global] Open Scope Z_scope.

(** ** Outcomes of C++ code

    A routine of the repository either returns, fails an [ASSERT] (debug.h:
    print a message and [Abort()]), performs an operation that C++ leaves
    undefined or that traps on the host (a NULL or wild dereference, an index
    outside an array, [INT_MIN / -1]), or never returns (a loop that runs out
    of the fuel its model is given). *)
Inductive res (A : Type) : Type :=
| Ok (a : A)
| AssertFail
| Undef
| Diverge.
Arguments Ok {A} a.
Arguments AssertFail {A}.
Arguments Undef {A}.
Arguments Diverge {A}.

#[global] Instance res_ret : MRet res := fun A a => Ok a.
#[global] Instance res_bind : MBind res := fun A B f m =>
  match m with
  | Ok a => f a
  | AssertFail => AssertFail
  | Undef => Undef
  | Diverge => Diverge
  end.

(** [ASSERT(condition)] of lib/debug.h. *)
Definition ASSERT (b : bool) : res () := if b then Ok () else AssertFail.

(** A C array of known length: reading or writing outside it is undefined. *)
Definition aget {A} (l : list A) (i : Z) : res A :=
  if bool_decide (0 <= i) then
    match l !! Z.to_nat i with Some a => Ok a | None => Undef end
  else Undef.

Definition aset {A} (l : list A) (i : Z) (a : A) : res (list A) :=
  if bool_decide (0 <= i < Z.of_nat (length l)) then Ok (<[Z.to_nat i := a]> l)
  else Undef.

(** [for (i = lo; i < lo + n; i++) body]: the loops with a bound known on
    entry, threading the state [S]. *)
Fixpoint for_loop {S} (n : nat) (lo : Z) (body : Z -> S -> res S) (s : S) : res S :=
  match n with
  | O => Ok s
  | Datatypes.S n' => s' ← body lo s; for_loop n' (lo + 1) body s'
  end.

(** [for (i = 0; i < n; i++) body(p[i])] over the items of an array. *)
Fixpoint foldM {S A} (f : S -> A -> res S) (s : S) (xs : list A) : res S :=
  match xs with
  | [] => Ok s
  | x :: xs' => s' ← f s x; foldM f s' xs'
  end.

(** A computation [c] refines the abstract computation [a] up to [R]: it returns
    a related value when [a] returns, and fails the way [a] fails otherwise. *)
Definition res_rel {C A} (R : C -> A -> Prop) (c : res C) (a : res A) : Prop :=
  match a with
  | Ok x => exists y, c = Ok y /\ R y x
  | AssertFail => c = AssertFail
  | Undef => c = Undef
  | Diverge => c = Diverge
  end.

(** ** Machine integers *)

Definition int_min : Z := -2147483648.
Definition int_max : Z := 2147483647.
(** Conversion to [unsigned int] and to [int] (two's complement). *)
Definition u32 (x : Z) : Z := x mod 4294967296.
Definition i32 (x : Z) : Z := (x + 2147483648) mod 4294967296 - 2147483648.
Definition is_u32 (x : Z) : Prop := 0 <= x < 4294967296.
Definition is_i32 (x : Z) : Prop := int_min <= x <= int_max.

(** [divRoundUp(n,s)] and [divRoundDown(n,s)] of lib/utility.h; C's [/] and
    [%] truncate. *)
Definition divRoundDown (n s : Z) : Z := Z.quot n s.
Definition divRoundUp (n s : Z) : Z :=
  Z.quot n s + (if bool_decide (Z.rem n s > 0) then 1 else 0).

(** ** Tactics *)

Create HintDb nachos discriminated.

(** [lia] after replacing [/], [mod], [Z.quot] and [Z.rem] by their equations. *)
Ltac zlia := intros; Z.to_euclidean_division_equations; lia.

(** Destruct the next [match]/[if] of the goal or of a hypothesis. *)
Ltac case_step :=
  match goal with
  | H : context [match ?x with _ => _ end] |- _ => destruct x eqn:?; simplify_eq/=
  | |- context [match ?x with _ => _ end] => destruct x eqn:?; simplify_eq/=
  end.

(** ** Lemmas on outcomes *)

Lemma bind_Ok {A B} (m : res A) (f : A -> res B) b :
  (m ≫= f) = Ok b <-> exists a, m = Ok a /\ f a = Ok b.
Proof. destruct m; cbn; naive_solver. Qed.

Lemma bind_assoc {A B C} (m : res A) (f : A -> res B) (g : B -> res C) :
  ((m ≫= f) ≫= g) = (m ≫= fun a => f a ≫= g).
Proof. by destruct m. Qed.

Lemma ASSERT_Ok b u : ASSERT b = Ok u <-> b = true.
Proof. destruct b, u; cbn; naive_solver. Qed.

Lemma res_rel_bind {C A D B} (R : C -> A -> Prop) (Q : D -> B -> Prop)
    (c : res C) (a : res A) (f : C -> res D) (g : A -> res B) :
  res_rel R c a -> (forall y x, R y x -> res_rel Q (f y) (g x)) ->
  res_rel Q (c ≫= f) (a ≫= g).
Proof. destruct a; cbn; naive_solver. Qed.

Ltac inv_res :=
  repeat match goal with
  | H : (_ ≫= _) = Ok _ |- _ =>
      let a := fresh "a" in let H1 := fresh "Hm" in
      apply bind_Ok in H as (a & H1 & H)
  | H : ASSERT _ = Ok _ |- _ => apply ASSERT_Ok in H
  | H : Ok _ = Ok _ |- _ => injection H as H; subst
  | H : mret _ = Ok _ |- _ => injection H as H; subst
  | H : AssertFail = Ok _ |- _ => discriminate H
  | H : Undef = Ok _ |- _ => discriminate H
  | H : Diverge = Ok _ |- _ => discriminate H
  end.

(** ** Lemmas on arrays *)

Lemma aget_Ok {A} (l : list A) i a :
  aget l i = Ok a <-> 0 <= i /\ l !! Z.to_nat i = Some a.
Proof.
  unfold aget. case_bool_decide; [|naive_solver].
  destruct (l !! Z.to_nat i); naive_solver.
Qed.

Lemma aget_lookup {A} (l : list A) (i : nat) a :
  l !! i = Some a -> aget l (Z.of_nat i) = Ok a.
Proof. intros H. apply aget_Ok. rewrite Nat2Z.id. split; [lia|done]. Qed.

Lemma aget_in_range {A} (l : list A) i :
  0 <= i < Z.of_nat (length l) -> exists a, aget l i = Ok a.
Proof.
  intros H. destruct (lookup_lt_is_Some_2 l (Z.to_nat i)) as [a Ha]; [lia|].
  exists a. apply aget_Ok. split; [lia|done].
Qed.

Lemma aset_in_range {A} (l : list A) i a :
  0 <= i < Z.of_nat (length l) -> aset l i a = Ok (<[Z.to_nat i := a]> l).
Proof. intros H. unfold aset. by rewrite bool_decide_true. Qed.

Lemma aget_insert {A} (l : list A) (i j : Z) a :
  0 <= i < Z.of_nat (length l) -> 0 <= j ->
  aget (<[Z.to_nat i := a]> l) j = if decide (i = j) then Ok a else aget l j.
Proof.
  intros Hi Hj. unfold aget. rewrite bool_decide_true by lia.
  case_decide as E.
  - subst. rewrite list_lookup_insert_eq; [done|lia].
  - rewrite list_lookup_insert_ne; [done|lia].
Qed.

(** ** Lemmas on loops *)

Lemma for_loop_app {S} (n n' : nat) lo body (s : S) :
  for_loop (n + n') lo body s = for_loop n lo body s ≫= for_loop n' (lo + Z.of_nat n) body.
Proof.
  revert lo s. induction n as [|n IH]; intros lo s; cbn [Nat.add for_loop]; [cbn; by rewrite Z.add_0_r|].
  rewrite bind_assoc. destruct (body lo s) as [s'| | |]; [|done..]. cbn [mbind res_bind]. rewrite IH. by rewrite Nat2Z.inj_succ, <- Z.add_assoc, (Z.add_comm 1).
Qed.

(** A loop invariant [I], indexed by the next value of the counter, that every
    iteration re-establishes: the loop returns and the invariant holds after it. *)
Lemma for_loop_ind {S} (I : Z -> S -> Prop) (n : nat) lo body (s : S) :
  I lo s ->
  (forall i s, lo <= i < lo + Z.of_nat n -> I i s ->
     exists s', body i s = Ok s' /\ I (i + 1) s') ->
  exists s', for_loop n lo body s = Ok s' /\ I (lo + Z.of_nat n) s'.
Proof.
  revert lo s. induction n as [|n IH]; intros lo s HI Hb; cbn -[Z.of_nat].
  - exists s. rewrite Z.add_0_r. done.
  - destruct (Hb lo s) as (s1 & E & H1); [lia|done|]. rewrite E. cbn -[Z.of_nat].
    destruct (IH (lo + 1) s1) as (s2 & E2 & H2); [done| |].
    + intros i s' Hi HI'. apply Hb; [lia|done].
    + exists s2. split; [done|]. by replace (lo + Z.of_nat (Datatypes.S n)) with (lo + 1 + Z.of_nat n) by lia.
Qed.

(** Partial-correctness form: the invariant of a loop that is known to return. *)
Lemma for_loop_inv {S} (I : Z -> S -> Prop) (n : nat) lo body (s s' : S) :
  for_loop n lo body s = Ok s' ->
  I lo s ->
  (forall i s s1, lo <= i < lo + Z.of_nat n -> I i s -> body i s = Ok s1 -> I (i + 1) s1) ->
  I (lo + Z.of_nat n) s'.
Proof.
  revert lo s. induction n as [|n IH]; intros lo s E HI Hb; cbn in E; inv_res.
  - by rewrite Z.add_0_r.
  - replace (lo + Z.of_nat (Datatypes.S n)) with (lo + 1 + Z.of_nat n) by lia.
    eapply IH; [done| |].
    + eapply Hb; [|done|done]. lia.
    + intros i s0 s1 Hi. apply Hb. lia.
Qed.

(** ** Lemmas on machine integers *)

Lemma u32_range x : is_u32 (u32 x).
Proof. unfold is_u32, u32. zlia. Qed.

Lemma i32_range x : is_i32 (i32 x).
Proof. unfold is_i32, i32, int_min, int_max. zlia. Qed.

Lemma u32_id x : is_u32 x -> u32 x = x.
Proof. unfold is_u32, u32. apply Z.mod_small. Qed.

Lemma i32_id x : is_i32 x -> i32 x = x.
Proof. unfold is_i32, i32, int_min, int_max. intros. rewrite Z.mod_small; lia. Qed.

Lemma i32_u32 x : i32 (u32 x) = i32 x.
Proof. unfold i32, u32. rewrite Zplus_mod_idemp_l. done. Qed.

Lemma u32_i32 x : u32 (i32 x) = u32 x.
Proof.
  unfold i32, u32. rewrite Zminus_mod_idemp_l. f_equal. lia.
Qed.

Lemma divRoundUp_spec n s :
  0 <= n -> 0 < s -> (divRoundUp n s - 1) * s < n <= divRoundUp n s * s.
Proof.
  intros Hn Hs. unfold divRoundUp.
  rewrite Z.quot_div_nonneg, Z.rem_mod_nonneg by lia.
  pose proof (Z.div_mod n s ltac:(lia)). pose proof (Z.mod_pos_bound n s Hs).
  case_bool_decide; nia.
Qed.

#[export] Hint Resolve u32_range i32_range : nachos.
