(* ===== verification/Words.v ===== *)
(** * Lemmas on 32-bit words and their bits, shared by the bitmaps, the MIPS
    simulator and the address translation. *)

From S2P Require Import Prelude.

Lemma u32_pow x : u32 x = x mod 2 ^ 32.
Proof. done. Qed.

Lemma u32_bits x j : Z.testbit (u32 x) j = bool_decide (j < 32) && Z.testbit x j.
Proof.
  rewrite u32_pow, Z.testbit_mod_pow2 by lia. f_equal.
  case_bool_decide; [by apply Z.ltb_lt|by apply Z.ltb_ge; lia].
Qed.

Lemma u32_testbit x j : j < 32 -> Z.testbit (u32 x) j = Z.testbit x j.
Proof. intros H. rewrite u32_bits, bool_decide_true by done. done. Qed.

Lemma is_u32_fix x : is_u32 x <-> u32 x = x.
Proof. split; [apply u32_id|]. intros <-. apply u32_range. Qed.

Ltac bitwise :=
  apply Z.bits_inj'; intros ? ?;
  rewrite ?u32_bits, ?Z.lor_spec, ?Z.land_spec, ?Z.lxor_spec, ?u32_bits;
  repeat match goal with |- context [Z.testbit ?x ?n] => destruct (Z.testbit x n) end;
  repeat case_bool_decide; cbn; try done; try lia.

Lemma u32_lor a b : u32 (Z.lor a b) = Z.lor (u32 a) (u32 b).
Proof. bitwise. Qed.
Lemma u32_land a b : u32 (Z.land a b) = Z.land (u32 a) (u32 b).
Proof. bitwise. Qed.
Lemma u32_lxor a b : u32 (Z.lxor a b) = Z.lxor (u32 a) (u32 b).
Proof. bitwise. Qed.

Lemma is_u32_lor a b : is_u32 a -> is_u32 b -> is_u32 (Z.lor a b).
Proof. rewrite !is_u32_fix, u32_lor. congruence. Qed.
Lemma is_u32_land a b : is_u32 a -> is_u32 (Z.land a b).
Proof.
  rewrite !is_u32_fix. intros E. apply Z.bits_inj'. intros n Hn.
  rewrite u32_bits, Z.land_spec, <- E, u32_bits. by destruct (bool_decide (n < 32)).
Qed.
Lemma is_u32_lxor a b : is_u32 a -> is_u32 b -> is_u32 (Z.lxor a b).
Proof. rewrite !is_u32_fix, u32_lxor. congruence. Qed.

(** The bits of a 32-bit signed integer from 31 on are its sign. *)
Lemma i32_high x j : is_i32 x -> 31 <= j -> Z.testbit x j = bool_decide (x < 0).
Proof.
  unfold is_i32, int_min, int_max. intros Hx Hj. case_bool_decide as Hs.
  - apply Z.testbit_true; [lia|]. assert (2 ^ 31 <= 2 ^ j) by (apply Z.pow_le_mono_r; lia).
    replace (x / 2 ^ j) with (-1); [done|].
    apply Z.div_unique with (x + 2 ^ j); lia.
  - apply Z.bits_above_log2; [lia|].
    destruct (decide (x = 0)) as [->|]; [cbn; lia|].
    assert (Z.log2 x < 31) by (apply Z.log2_lt_pow2; lia). lia.
Qed.

Lemma i32_low x j : j < 32 -> Z.testbit (i32 x) j = Z.testbit x j.
Proof. intros Hj. by rewrite <- (u32_testbit (i32 x)), u32_i32, u32_testbit. Qed.

Lemma is_i32_of_bits x : (forall j, 31 <= j -> Z.testbit x j = Z.testbit x 31) -> is_i32 x.
Proof.
  intros H. assert (E : Z.shiftr x 31 = 0 \/ Z.shiftr x 31 = -1).
  { destruct (Z.testbit x 31); [right|left]; apply Z.bits_inj'; intros n Hn;
      rewrite Z.shiftr_spec, H by lia; [by rewrite Z.bits_m1|by rewrite Z.bits_0]. }
  rewrite Z.shiftr_div_pow2 in E by lia. unfold is_i32, int_min, int_max.
  pose proof (Z.div_mod x (2 ^ 31) ltac:(lia)). pose proof (Z.mod_pos_bound x (2 ^ 31) ltac:(lia)).
  destruct E as [E|E]; rewrite E in *; lia.
Qed.

Ltac i32_bits :=
  intros; apply is_i32_of_bits; intros j Hj;
  rewrite ?Z.lor_spec, ?Z.land_spec, ?Z.lxor_spec, ?Z.lnot_spec by lia;
  rewrite ?(i32_high _ j), ?(i32_high _ 31) by (done || lia); done.

Lemma is_i32_lor a b : is_i32 a -> is_i32 b -> is_i32 (Z.lor a b).
Proof. i32_bits. Qed.
Lemma is_i32_land a b : is_i32 a -> is_i32 b -> is_i32 (Z.land a b).
Proof. i32_bits. Qed.
Lemma is_i32_lxor a b : is_i32 a -> is_i32 b -> is_i32 (Z.lxor a b).
Proof. i32_bits. Qed.
Lemma is_i32_lnot a : is_i32 a -> is_i32 (Z.lnot a).
Proof. i32_bits. Qed.

(** [x & (1 << b)] is non-zero exactly when bit [b] of [x] is set. *)
Lemma land_pow2 w b : 0 <= b -> Z.land w (2 ^ b) <> 0 <-> Z.testbit w b = true.
Proof.
  intros Hb. split.
  - intros H. destruct (Z.testbit w b) eqn:E; [done|]. exfalso. apply H.
    apply Z.bits_inj'. intros n Hn. rewrite Z.land_spec, Z.bits_0.
    destruct (decide (n = b)) as [->|Hne]; [by rewrite E|].
    rewrite Z.pow2_bits_false by lia. apply andb_false_r.
  - intros H E. apply (f_equal (fun z => Z.testbit z b)) in E.
    rewrite Z.land_spec, Z.bits_0, H, Z.pow2_bits_true in E by lia. done.
Qed.

(** [x & SIGN_BIT]: the sign of an [int]. *)
Lemma sign_bit x : is_i32 x -> Z.land (u32 x) 2147483648 <> 0 <-> x < 0.
Proof.
  intros Hx. change 2147483648 with (2 ^ 31). rewrite land_pow2 by lia.
  rewrite u32_testbit, (i32_high x) by (done || lia). apply bool_decide_eq_true.
Qed.

Lemma lor_disjoint n lo hi :
  0 <= n -> 0 <= lo < 2 ^ n -> Z.lor lo (Z.shiftl hi n) = lo + hi * 2 ^ n.
Proof.
  intros Hn Hlo. rewrite <- Z.shiftl_mul_pow2 by lia.
  assert (E : Z.land lo (Z.shiftl hi n) = 0).
  { apply Z.bits_inj'. intros j Hj. rewrite Z.land_spec, Z.shiftl_spec, Z.bits_0 by lia.
    destruct (Z.ltb_spec j n); [by rewrite (Z.testbit_neg_r hi), andb_false_r by lia|].
    rewrite <- (Z.mod_small lo (2 ^ n)) by lia.
    by rewrite Z.mod_pow2_bits_high by lia. }
  rewrite <- Z.lxor_lor by done. symmetry. by apply Z.add_nocarry_lxor.
Qed.

(** Extracting the byte that a shift brings to position [p]. *)
Lemma byte_right w s p :
  0 <= s -> 0 <= p ->
  Z.land (Z.shiftr w s) (Z.shiftl (Z.ones 8) p) = Z.shiftl ((w / 2 ^ (s + p)) mod 256) p.
Proof.
  intros Hs Hp. change 256 with (2 ^ 8). rewrite <- Z.land_ones, <- Z.shiftr_div_pow2 by lia.
  apply Z.bits_inj'. intros j Hj. rewrite Z.land_spec, Z.shiftr_spec, !Z.shiftl_spec by lia.
  destruct (Z.ltb_spec j p).
  - rewrite !(Z.testbit_neg_r _ (j - p)) by lia. apply andb_false_r.
  - rewrite Z.land_spec, Z.shiftr_spec by lia. do 2 f_equal. lia.
Qed.

Lemma byte_left w s p :
  0 <= s <= p ->
  Z.land (Z.shiftl w s) (Z.shiftl (Z.ones 8) p) = Z.shiftl ((w / 2 ^ (p - s)) mod 256) p.
Proof.
  intros Hs. change 256 with (2 ^ 8). rewrite <- Z.land_ones, <- Z.shiftr_div_pow2 by lia.
  apply Z.bits_inj'. intros j Hj. rewrite Z.land_spec, !Z.shiftl_spec by lia.
  destruct (Z.ltb_spec j p).
  - rewrite !(Z.testbit_neg_r _ (j - p)) by lia. apply andb_false_r.
  - rewrite Z.land_spec, Z.shiftr_spec by lia. do 2 f_equal. lia.
Qed.

#[export] Hint Resolve is_u32_lor is_u32_land is_u32_lxor
  is_i32_lor is_i32_land is_i32_lxor is_i32_lnot : nachos.
