(* ===== verification/Lists.v ===== *)
(** * lib/list.h, lib/list.cc: singly linked lists

    [Module LinkedList] models the template classes [List<T>] and
    [SortedList<T>] at the level of pointers: a heap of [ListElement]s, the
    fields [first], [last] and [numInList] of the list object, loops that walk
    [next] pointers.  [Module Seq] is the abstract specification: the same
    operations on a Rocq list, with the same assertion failures.  The
    refinement theorems relate the two; the other components of the kernel,
    which only use the interface of [List], are modelled over [Seq]. *)

From S2P Require Import Prelude.

(** ** The abstract specification *)

Module Seq.
Section seq.
Context {T : Type} `{EqDecision T}.

Definition IsInList (x : T) (xs : list T) : bool := bool_decide (x ∈ xs).

(** [Append] and [Prepend] refuse an item that is already in the list. *)
Definition Append (x : T) (xs : list T) : res (list T) :=
  _ ← ASSERT (negb (IsInList x xs)); Ok (xs ++ [x]).

Definition Prepend (x : T) (xs : list T) : res (list T) :=
  _ ← ASSERT (negb (IsInList x xs)); Ok (x :: xs).

Definition RemoveFront (xs : list T) : res (T * list T) :=
  match xs with [] => AssertFail | x :: xs' => Ok (x, xs') end.

(** [first->item] dereferences NULL on an empty list. *)
Definition Front (xs : list T) : res T :=
  match xs with [] => Undef | x :: _ => Ok x end.

Fixpoint remove1 (x : T) (xs : list T) : list T :=
  match xs with
  | [] => []
  | y :: ys => if decide (x = y) then ys else y :: remove1 x ys
  end.

Definition Remove (x : T) (xs : list T) : res (list T) :=
  _ ← ASSERT (IsInList x xs);
  let ys := remove1 x xs in
  _ ← ASSERT (negb (IsInList x ys)); Ok ys.

(** Insertion after every item that compares lower or equal. *)
Fixpoint insert_before (cmp : T -> T -> Z) (x : T) (xs : list T) : list T :=
  match xs with
  | [] => [x]
  | y :: ys => if bool_decide (cmp x y < 0) then x :: y :: ys
               else y :: insert_before cmp x ys
  end.

Definition Insert (cmp : T -> T -> Z) (x : T) (xs : list T) : res (list T) :=
  _ ← ASSERT (negb (IsInList x xs)); Ok (insert_before cmp x xs).

End seq.
#[global] Arguments IsInList : simpl never.
#[global] Arguments Append : simpl never.
#[global] Arguments Prepend : simpl never.
#[global] Arguments Remove : simpl never.
#[global] Arguments Insert : simpl never.
End Seq.

(** ** The implementation *)

Module LinkedList.
Section linked.
Context {T : Type} `{EqDecision T}.

(** A pointer is an address or NULL. *)
Definition ptr : Type := option positive.

Record ListElement : Type := mkElement { next : ptr; item : T }.

Record List : Type := mkList { first : ptr; last : ptr; numInList : Z }.

#[local] Abbreviation heap := (gmap positive ListElement).
Implicit Types (h : heap) (l : List) (p : ptr) (x : T).

(** [new ListElement<T>(itm)]: an address that is not in use. *)
Definition fresh_addr (h : heap) : positive :=
  map_fold (fun k _ acc => Pos.max (Pos.succ k) acc) 1%positive h.

Definition new_element (h : heap) (itm : T) : positive * heap :=
  let a := fresh_addr h in (a, <[a := mkElement None itm]> h).

(** [p->field]: the element [p] points to. *)
Definition deref (h : heap) (p : ptr) : res ListElement :=
  match p with
  | None => Undef
  | Some a => match h !! a with Some e => Ok e | None => Undef end
  end.

(** [p->next = n] *)
Definition set_next (h : heap) (p n : ptr) : res heap :=
  e ← deref h p;
  match p with None => Undef | Some a => Ok (<[a := mkElement n (item e)]> h) end.

Definition newList : List := mkList None None 0.

Definition IsEmpty (l : List) : bool := bool_decide (numInList l = 0).

Definition NumInList (l : List) : Z := numInList l.

Definition Front (h : heap) (l : List) : res T := e ← deref h (first l); Ok (item e).

(** The walks over [next] pointers are given one step per element of the heap
    and one more: more steps than that means that the list is cyclic. *)
Definition walk_fuel (h : heap) : nat := S (size h).

Fixpoint isInList_loop (fuel : nat) (h : heap) (p : ptr) (x : T) : res bool :=
  match fuel with
  | O => Diverge
  | S fuel' =>
      match p with
      | None => Ok false
      | Some _ =>
          e ← deref h p;
          if decide (x = item e) then Ok true else isInList_loop fuel' h (next e) x
      end
  end.

Definition IsInList (h : heap) (l : List) (x : T) : res bool :=
  isInList_loop (walk_fuel h) h (first l) x.

Definition Append (h : heap) (l : List) (x : T) : res (heap * List) :=
  let '(element, h1) := new_element h x in
  b ← IsInList h1 l x; _ ← ASSERT (negb b);
  '(h2, l2) ←
    (if IsEmpty l then
       Ok (h1, mkList (Some element) (Some element) (numInList l))
     else
       h2 ← set_next h1 (last l) (Some element);
       Ok (h2, mkList (first l) (Some element) (numInList l)));
  let l3 := mkList (first l2) (last l2) (numInList l2 + 1) in
  b' ← IsInList h2 l3 x; _ ← ASSERT b';
  Ok (h2, l3).

Definition Prepend (h : heap) (l : List) (x : T) : res (heap * List) :=
  let '(element, h1) := new_element h x in
  b ← IsInList h1 l x; _ ← ASSERT (negb b);
  '(h2, l2) ←
    (if IsEmpty l then
       Ok (h1, mkList (Some element) (Some element) (numInList l))
     else
       h2 ← set_next h1 (Some element) (first l);
       Ok (h2, mkList (Some element) (last l) (numInList l)));
  let l3 := mkList (first l2) (last l2) (numInList l2 + 1) in
  b' ← IsInList h2 l3 x; _ ← ASSERT b';
  Ok (h2, l3).

(** [delete p]: the address is no longer in use. *)
Definition delete_element (h : heap) (p : ptr) : res heap :=
  match p with None => Ok h | Some a => _ ← deref h p; Ok (delete a h) end.

Definition RemoveFront (h : heap) (l : List) : res (T * (heap * List)) :=
  let element := first l in
  _ ← ASSERT (negb (IsEmpty l));
  e ← deref h (first l);
  let thing := item e in
  let l1 :=
    if decide (first l = last l) then mkList None None (numInList l)
    else mkList (next e) (last l) (numInList l) in
  let l2 := mkList (first l1) (last l1) (numInList l1 - 1) in
  h' ← delete_element h element;
  Ok (thing, (h', l2)).

(** The [for] loop of [Remove]: [Some] when it leaves through [break]. *)
Fixpoint remove_loop (fuel : nat) (h : heap) (l : List) (prev p : ptr) (x : T)
    : res (option (heap * List)) :=
  match fuel with
  | O => Diverge
  | S fuel' =>
      match p with
      | None => Ok None
      | Some _ =>
          e ← deref h p;
          if decide (x = item e) then
            h1 ← set_next h prev (next e);
            let last' := if decide (next e = None) then prev else last l in
            h2 ← delete_element h1 p;
            Ok (Some (h2, mkList (first l) last' (numInList l - 1)))
          else remove_loop fuel' h l p (next e) x
      end
  end.

Definition Remove (h : heap) (l : List) (x : T) : res (heap * List) :=
  b ← IsInList h l x; _ ← ASSERT b;
  e ← deref h (first l);
  '(h', l') ←
    (if decide (x = item e) then
       '(removed, hl) ← RemoveFront h l;
       _ ← ASSERT (bool_decide (x = removed));
       Ok hl
     else
       r ← remove_loop (walk_fuel h) h l (first l) (next e) x;
       match r with Some hl => Ok hl | None => AssertFail end);
  b' ← IsInList h' l' x; _ ← ASSERT (negb b');
  Ok (h', l').

(** [Apply]: the items [func] is called on, in order. *)
Fixpoint apply_loop (fuel : nat) (h : heap) (p : ptr) : res (list T) :=
  match fuel with
  | O => Diverge
  | S fuel' =>
      match p with
      | None => Ok []
      | Some _ => e ← deref h p; r ← apply_loop fuel' h (next e); Ok (item e :: r)
      end
  end.

Definition Apply (h : heap) (l : List) : res (list T) :=
  apply_loop (walk_fuel h) h (first l).

(** [SanityCheck]: the loop stops by its own assertion after [numInList] steps. *)
Fixpoint sanity_loop (fuel : nat) (h : heap) (l : List) (p : ptr) (numFound : Z) : res Z :=
  match fuel with
  | O => Diverge
  | S fuel' =>
      if decide (p = last l) then Ok numFound
      else
        _ ← ASSERT (bool_decide (numFound + 1 <= numInList l));
        e ← deref h p;
        sanity_loop fuel' h l (next e) (numFound + 1)
  end.

Definition SanityCheck (h : heap) (l : List) : res () :=
  if decide (first l = None) then
    ASSERT (bool_decide (numInList l = 0) && bool_decide (last l = None))
  else if decide (first l = last l) then
    _ ← ASSERT (bool_decide (numInList l = 1));
    e ← deref h (last l); ASSERT (bool_decide (next e = None))
  else
    numFound ← sanity_loop (S (Z.to_nat (numInList l))) h l (first l) 1;
    _ ← ASSERT (bool_decide (numFound = numInList l));
    e ← deref h (last l); ASSERT (bool_decide (next e = None)).

(** [ListIterator<T>]: the cursor is a pointer into the list. *)
Definition newIterator (l : List) : ptr := first l.
Definition IsDone (current : ptr) : bool := bool_decide (current = None).
Definition Item (h : heap) (current : ptr) : res T :=
  _ ← ASSERT (negb (IsDone current)); e ← deref h current; Ok (item e).
Definition Next (h : heap) (current : ptr) : res ptr := e ← deref h current; Ok (next e).

(** [List<T>::SelfTest]; [append] is the virtual function [Append], which
    [SortedList<T>] overrides with [Insert]. *)
Definition SelfTest (append : heap -> List -> T -> res (heap * List))
    (h : heap) (l : List) (entries : list T) : res (heap * List) :=
  let iterator := newIterator l in
  _ ← SanityCheck h l;
  _ ← ASSERT (IsEmpty l && bool_decide (first l = None));
  _ ← ASSERT (IsDone iterator);
  '(h1, l1) ← foldM (fun '(h, l) x =>
      '(h', l') ← append h l x;
      b ← IsInList h' l' x; _ ← ASSERT b;
      _ ← ASSERT (negb (IsEmpty l')); Ok (h', l')) (h, l) entries;
  _ ← SanityCheck h1 l1;
  '(h2, l2) ← foldM (fun '(h, l) x =>
      '(h', l') ← Remove h l x;
      b ← IsInList h' l' x; _ ← ASSERT (negb b); Ok (h', l')) (h1, l1) entries;
  _ ← ASSERT (IsEmpty l2);
  _ ← SanityCheck h2 l2;
  Ok (h2, l2).

(** *** [SortedList<T>] *)

Context (compare : T -> T -> Z).

(** The [for] loop of [Insert]: [Some] when it returns from inside the loop. *)
Fixpoint insert_loop (fuel : nat) (h : heap) (p : ptr) (element : positive) (x : T)
    : res (option heap) :=
  match fuel with
  | O => Diverge
  | S fuel' =>
      e ← deref h p;
      match next e with
      | None => Ok None
      | Some _ =>
          e' ← deref h (next e);
          if bool_decide (compare x (item e') < 0) then
            h1 ← set_next h (Some element) (next e);
            h2 ← set_next h1 p (Some element);
            Ok (Some h2)
          else insert_loop fuel' h (next e) element x
      end
  end.

Definition Insert (h : heap) (l : List) (x : T) : res (heap * List) :=
  let '(element, h1) := new_element h x in
  b ← IsInList h1 l x; _ ← ASSERT (negb b);
  let finish (h2 : heap) (l2 : List) :=
    let l3 := mkList (first l2) (last l2) (numInList l2 + 1) in
    b' ← IsInList h2 l3 x; _ ← ASSERT b'; Ok (h2, l3) in
  if IsEmpty l then
    finish h1 (mkList (Some element) (Some element) (numInList l))
  else
    e ← deref h1 (first l);
    if bool_decide (compare x (item e) < 0) then
      h2 ← set_next h1 (Some element) (first l);
      finish h2 (mkList (Some element) (last l) (numInList l))
    else
      r ← insert_loop (walk_fuel h1) h1 (first l) element x;
      match r with
      | Some h2 => Ok (h2, mkList (first l) (last l) (numInList l + 1))
      | None =>
          h2 ← set_next h1 (last l) (Some element);
          finish h2 (mkList (first l) (Some element) (numInList l))
      end.

(** [SortedList<T>::SanityCheck] *)
Fixpoint sorted_loop (fuel : nat) (h : heap) (prev p : ptr) : res () :=
  match fuel with
  | O => Diverge
  | S fuel' =>
      match p with
      | None => Ok ()
      | Some _ =>
          ep ← deref h prev; e ← deref h p;
          _ ← ASSERT (bool_decide (compare (item ep) (item e) <= 0));
          sorted_loop fuel' h p (next e)
      end
  end.

Definition SortedSanityCheck (h : heap) (l : List) : res () :=
  _ ← SanityCheck h l;
  if decide (first l = last l) then Ok ()
  else e ← deref h (first l); sorted_loop (walk_fuel h) h (first l) (next e).

(** [SortedList<T>::SelfTest]: the items come out of [RemoveFront] in order. *)
Fixpoint drain (n : nat) (h : heap) (l : List) : res (list T * (heap * List)) :=
  match n with
  | O => Ok ([], (h, l))
  | S n' =>
      '(q, (h', l')) ← RemoveFront h l;
      b ← IsInList h' l' q; _ ← ASSERT (negb b);
      '(qs, hl) ← drain n' h' l'; Ok (q :: qs, hl)
  end.

Fixpoint check_order (qs : list T) : res () :=
  match qs with
  | q :: ((q' :: _) as qs') =>
      _ ← ASSERT (bool_decide (compare q q' <= 0)); check_order qs'
  | _ => Ok ()
  end.

Definition SortedSelfTest (h : heap) (l : List) (entries : list T) : res (heap * List) :=
  '(h0, l0) ← SelfTest Insert h l entries;
  '(h1, l1) ← foldM (fun '(h, l) x =>
      '(h', l') ← Insert h l x; b ← IsInList h' l' x; _ ← ASSERT b; Ok (h', l'))
      (h0, l0) entries;
  _ ← SortedSanityCheck h1 l1;
  '(q, (h2, l2)) ← drain (length entries) h1 l1;
  _ ← ASSERT (IsEmpty l2);
  _ ← check_order q;
  _ ← SortedSanityCheck h2 l2;
  Ok (h2, l2).

End linked.
Arguments ListElement T : clear implicits.
#[global] Arguments IsInList : simpl never.
#[global] Arguments Apply : simpl never.
#[global] Arguments SanityCheck : simpl never.
#[global] Arguments SortedSanityCheck : simpl never.
#[global] Arguments RemoveFront : simpl never.
#[global] Arguments Remove : simpl never.
#[global] Arguments Append : simpl never.
#[global] Arguments Prepend : simpl never.
#[global] Arguments Insert : simpl never.
#[global] Arguments SelfTest : simpl never.
#[global] Arguments set_next : simpl never.
#[global] Arguments walk_fuel : simpl never.
End LinkedList.
