(* ===== verification/ListProofs.v ===== *)
(** * Correctness of the linked lists

    [repr h l xs]: in the heap [h] the list object [l] holds the items [xs].
    Every operation of [LinkedList] refines the operation of [Seq] of the same
    name: related results, the same assertion failures. *)

From S2P Require Import Prelude Lists.
Import LinkedList.

(** ** Chains of elements *)

Section chains.
Context {T : Type} `{EqDecision T}.
#[local] Abbreviation heap := (gmap positive (ListElement T)).
Implicit Types (h : heap) (l : List) (p : ptr) (x : T) (ns : list (positive * T)).

(** [chain h p ns]: following [next] from [p] visits the addresses and items
    of [ns] and then NULL. *)
Fixpoint chain (h : heap) (p : ptr) (ns : list (positive * T)) : Prop :=
  match ns with
  | [] => p = None
  | (a, x) :: ns' => p = Some a /\ exists n, h !! a = Some (mkElement n x) /\ chain h n ns'
  end.

Definition last_addr (ns : list (positive * T)) : ptr := fst <$> list.last ns.

Definition repr (h : heap) (l : List) (xs : list T) : Prop :=
  exists ns, chain h (first l) ns /\ ns.*2 = xs /\
    last l = last_addr ns /\ numInList l = Z.of_nat (length ns).

Lemma fresh_addr_fresh h : h !! fresh_addr h = None.
Proof.
  unfold fresh_addr.
  enough (H : forall k, is_Some (h !! k) ->
    (k < map_fold (fun k (_ : ListElement T) acc => Pos.max (Pos.succ k) acc) 1 h)%positive).
  { destruct (h !! _) eqn:E; [|done]. exfalso.
    pose proof (H _ (ex_intro _ _ E)). lia. }
  apply (map_fold_weak_ind (fun acc (m : heap) => forall k, is_Some (m !! k) -> (k < acc)%positive)).
  - intros k [e He]. rewrite lookup_empty in He. done.
  - intros i e m acc _ IH k [e' He'].
    destruct (decide (i = k)) as [->|Hne]; [lia|].
    rewrite lookup_insert_ne in He' by done.
    specialize (IH k (ex_intro _ _ He')). lia.
Qed.

Lemma chain_unique h p ns ns' : chain h p ns -> chain h p ns' -> ns = ns'.
Proof.
  revert p ns'. induction ns as [|[a x] ns IH]; intros p [|[a' x'] ns']; cbn; try naive_solver.
Qed.

Lemma chain_app h p ns1 a x ns2 :
  chain h p (ns1 ++ (a, x) :: ns2) -> chain h (Some a) ((a, x) :: ns2).
Proof.
  revert p. induction ns1 as [|[b y] ns1 IH]; intros p C; cbn in C.
  - destruct C as (-> & C). by split.
  - destruct C as (_ & n & _ & C). eauto.
Qed.

Lemma chain_NoDup h p ns : chain h p ns -> NoDup ns.*1.
Proof.
  revert p. induction ns as [|[a x] ns IH]; intros p C; cbn; [constructor|].
  pose proof C as (-> & n & E & C'). constructor; [|by eauto].
  intros ([b y] & Hb & Hin)%list_elem_of_fmap. cbn in Hb. subst b.
  apply list_elem_of_split in Hin as (l1 & l2 & ->).
  pose proof (chain_app _ _ _ _ _ _ C') as C2.
  pose proof (chain_unique _ _ _ _ C C2) as E2.
  apply (f_equal length) in E2. cbn in E2. rewrite length_app in E2. cbn in E2. lia.
Qed.

Lemma chain_elem h p ns a x :
  chain h p ns -> (a, x) ∈ ns -> exists n, h !! a = Some (mkElement n x).
Proof.
  revert p. induction ns as [|[b y] ns IH]; intros p; cbn.
  - intros _ H. by apply not_elem_of_nil in H.
  - intros (_ & n & E & C) [H|H]%elem_of_cons; [naive_solver|eauto].
Qed.

(** A chain does not see a change at an address outside it. *)
Lemma chain_insert h p ns a e : a ∉ ns.*1 -> chain h p ns -> chain (<[a := e]> h) p ns.
Proof.
  revert p. induction ns as [|[b y] ns IH]; intros p; cbn; [done|].
  intros Hn (-> & n & E & C). apply not_elem_of_cons in Hn as [Hab Hn].
  split; [done|]. exists n. rewrite lookup_insert_ne by done. eauto.
Qed.

Lemma chain_delete h p ns a : a ∉ ns.*1 -> chain h p ns -> chain (delete a h) p ns.
Proof.
  revert p. induction ns as [|[b y] ns IH]; intros p; cbn; [done|].
  intros Hn (-> & n & E & C). apply not_elem_of_cons in Hn as [Hab Hn].
  split; [done|]. exists n. rewrite lookup_delete_ne by done. eauto.
Qed.

Lemma chain_fresh h p ns : chain h p ns -> fresh_addr h ∉ ns.*1.
Proof.
  intros C ([a x] & Ha & Hin)%list_elem_of_fmap. cbn in Ha.
  destruct (chain_elem _ _ _ _ _ C Hin) as [n E].
  rewrite <- Ha, fresh_addr_fresh in E. done.
Qed.

(** The heap has at least as many cells as the chain: the fuel of the walks. *)
Lemma chain_length_size h p ns : chain h p ns -> (length ns <= size h)%nat.
Proof.
  intros C. pose proof (chain_NoDup _ _ _ C) as ND.
  rewrite <- (length_fmap fst ns), <- (size_list_to_set (C := gset positive)) by done.
  rewrite <- size_dom. apply subseteq_size. intros a Ha.
  apply elem_of_list_to_set, list_elem_of_fmap in Ha as ([b x] & -> & Hin).
  destruct (chain_elem _ _ _ _ _ C Hin) as [n E]. by apply elem_of_dom_2 in E.
Qed.

(** Re-linking a cell of a chain: the part before it ends at the cell. *)
Lemma chain_relink h p ns1 a x ns2 q ns3 :
  chain h p (ns1 ++ (a, x) :: ns2) -> a ∉ ns3.*1 -> chain h q ns3 ->
  chain (<[a := mkElement q x]> h) p (ns1 ++ (a, x) :: ns3).
Proof.
  revert p. induction ns1 as [|[b y] ns1 IH]; intros p C Hn C3; cbn in *.
  - destruct C as (-> & n & E & C). split; [done|]. exists q.
    rewrite lookup_insert_eq. split; [done|]. by apply chain_insert.
  - pose proof (chain_NoDup h p ((b, y) :: ns1 ++ (a, x) :: ns2) C) as ND.
    destruct C as (-> & n & E & C). cbn in ND. apply NoDup_cons in ND as [Hb _].
    rewrite fmap_app in Hb. cbn in Hb.
    split; [done|]. exists n. rewrite lookup_insert_ne by set_solver. eauto.
Qed.

Lemma chain_last h p ns a x :
  chain h p ns -> list.last ns = Some (a, x) -> h !! a = Some (mkElement None x).
Proof.
  intros C (ns' & ->)%last_Some. apply chain_app in C. cbn in C. naive_solver.
Qed.

Lemma last_addr_snoc ns a x : last_addr (ns ++ [(a, x)]) = Some a.
Proof. unfold last_addr. by rewrite last_snoc. Qed.

Lemma last_addr_cons_cons b ns c : last_addr (c :: b :: ns) = last_addr (b :: ns).
Proof. done. Qed.

(** ** The read-only operations *)

Lemma deref_Some h a e : h !! a = Some e -> deref h (Some a) = Ok e.
Proof. cbn. by intros ->. Qed.

Lemma set_next_Some h a e n :
  h !! a = Some e -> set_next h (Some a) n = Ok (<[a := mkElement n (item e)]> h).
Proof. unfold set_next. cbn. by intros ->. Qed.

Lemma seq_in_nil x : Seq.IsInList x [] = false.
Proof. apply bool_decide_eq_false. apply not_elem_of_nil. Qed.

Lemma seq_in_cons x y (ys : list T) :
  Seq.IsInList x (y :: ys) = bool_decide (x = y) || Seq.IsInList x ys.
Proof.
  unfold Seq.IsInList. rewrite <- bool_decide_or. apply bool_decide_ext.
  by rewrite elem_of_cons.
Qed.

Lemma isInList_loop_spec h p ns x fuel :
  chain h p ns -> (length ns < fuel)%nat ->
  isInList_loop fuel h p x = Ok (Seq.IsInList x ns.*2).
Proof.
  revert p fuel. induction ns as [|[a y] ns IH]; intros p [|fuel]; cbn; try lia.
  - intros -> _. by rewrite seq_in_nil.
  - intros (-> & n & E & C) Hf. cbn. rewrite E. cbn. rewrite seq_in_cons.
    case_decide as Hxy; [by rewrite bool_decide_true|].
    rewrite bool_decide_false by done. apply IH; [done|lia].
Qed.

Lemma IsInList_repr h l xs x : repr h l xs -> IsInList h l x = Ok (Seq.IsInList x xs).
Proof.
  intros (ns & C & <- & _). apply isInList_loop_spec; [done|].
  pose proof (chain_length_size _ _ _ C). unfold walk_fuel. lia.
Qed.

Lemma IsEmpty_repr h l xs : repr h l xs -> IsEmpty l = bool_decide (xs = []).
Proof.
  intros (ns & C & <- & _ & E). unfold IsEmpty. rewrite E. apply bool_decide_ext.
  destruct ns; cbn; split; (done || lia).
Qed.

Lemma Front_repr h l xs : repr h l xs -> Front h l = Seq.Front xs.
Proof.
  intros (ns & C & <- & _). unfold Front. destruct ns as [|[a x] ns]; cbn in C.
  - by rewrite C.
  - destruct C as (-> & n & E & _). cbn. by rewrite E.
Qed.

Lemma apply_loop_spec h p ns fuel :
  chain h p ns -> (length ns < fuel)%nat -> apply_loop fuel h p = Ok ns.*2.
Proof.
  revert p fuel. induction ns as [|[a y] ns IH]; intros p [|fuel]; cbn; try lia.
  - by intros ->.
  - intros (-> & n & E & C) Hf. cbn. rewrite E. cbn. by rewrite (IH n) by (done || lia).
Qed.

Lemma Apply_repr h l xs : repr h l xs -> Apply h l = Ok xs.
Proof.
  intros (ns & C & <- & _). apply apply_loop_spec; [done|].
  pose proof (chain_length_size _ _ _ C). unfold walk_fuel. lia.
Qed.

Lemma repr_nil h : repr h newList [].
Proof. by exists []. Qed.

(** ** The updates *)

Definition repr_st (s : heap * List) (xs : list T) : Prop := repr s.1 s.2 xs.

Lemma repr_new h l xs x : repr h l xs -> repr (<[fresh_addr h := mkElement None x]> h) l xs.
Proof.
  intros (ns & C & ? & ?). exists ns. split; [|done].
  apply chain_insert; [by eapply chain_fresh|done].
Qed.

(** The last two statements of the inserting operations. *)
Lemma finish_repr h l xs x :
  repr h l xs -> x ∈ xs ->
  (b ← IsInList h l x; _ ← ASSERT b; Ok (h, l)) = Ok (h, l).
Proof.
  intros R Hin. rewrite (IsInList_repr _ _ _ _ R). cbn.
  unfold Seq.IsInList. by rewrite bool_decide_true.
Qed.

Lemma repr_snoc h l xs x :
  repr h l xs -> IsEmpty l = false ->
  let a := fresh_addr h in
  let h1 := <[a := mkElement None x]> h in
  exists h2, set_next h1 (last l) (Some a) = Ok h2 /\
    repr h2 (mkList (first l) (Some a) (numInList l + 1)) (xs ++ [x]).
Proof.
  intros R HE a h1. pose proof R as (ns & C & <- & EL & EN).
  pose proof (repr_new _ _ _ x R) as (ns' & C1 & _).
  pose proof (chain_fresh _ _ _ C) as Hf.
  assert (C1' : chain h1 (first l) ns) by (by apply chain_insert).
  unfold IsEmpty in HE. apply bool_decide_eq_false in HE.
  destruct ns as [|[b y] ns0 _] using rev_ind; [cbn in EN; lia|].
  rewrite last_addr_snoc in EL. rewrite EL.
  assert (Eb : h1 !! b = Some (mkElement None y)).
  { eapply chain_last; [done|]. by rewrite last_snoc. }
  rewrite (set_next_Some _ _ _ _ Eb). eexists; split; [done|]. cbn [item].
  exists ((ns0 ++ [(b, y)]) ++ [(a, x)]). cbn.
  rewrite <- !app_assoc. cbn. split; [|split; [|split]].
  - eapply chain_relink; [done| |].
    + rewrite fmap_app in Hf. set_solver.
    + cbn. split; [done|]. exists None. split; [|done]. apply lookup_insert_eq.
  - rewrite !fmap_app. cbn. by rewrite <- app_assoc.
  - change ([(b, y); (a, x)]) with ([(b, y)] ++ [(a, x)]). rewrite app_assoc.
    by rewrite last_addr_snoc.
  - rewrite EN, !length_app. cbn. lia.
Qed.

Lemma repr_cons h l xs x :
  repr h l xs ->
  let a := fresh_addr h in
  let h1 := <[a := mkElement None x]> h in
  exists h2, set_next h1 (Some a) (first l) = Ok h2 /\
    forall la, la = (if bool_decide (xs = []) then Some a else last l) ->
    repr h2 (mkList (Some a) la (numInList l + 1)) (x :: xs).
Proof.
  intros (ns & C & <- & EL & EN) a h1.
  pose proof (chain_fresh _ _ _ C) as Hf.
  rewrite (set_next_Some h1 a (mkElement None x)) by apply lookup_insert_eq.
  eexists; split; [done|]. intros la ->. cbn [item].
  exists ((a, x) :: ns). cbn. split; [|split; [|split]].
  - split; [done|]. exists (first l). rewrite lookup_insert_eq. split; [done|].
    apply chain_insert; [done|]. by apply chain_insert.
  - done.
  - destruct ns; [done|]. rewrite bool_decide_false by done. by rewrite EL.
  - rewrite EN. cbn. lia.
Qed.

Lemma repr_single h l x :
  repr h l [] ->
  let a := fresh_addr h in
  repr (<[a := mkElement None x]> h) (mkList (Some a) (Some a) (numInList l + 1)) [x].
Proof.
  intros (ns & _ & E & _ & EN) a. destruct ns; [|done]. exists [(a, x)]. cbn.
  split; [split; [done|exists None; split; [apply lookup_insert_eq|done]]|].
  split; [done|]. split; [done|]. rewrite EN. done.
Qed.

Lemma IsEmpty_true h l xs : repr h l xs -> IsEmpty l = true -> xs = [].
Proof. intros R E. rewrite (IsEmpty_repr _ _ _ R) in E. by apply bool_decide_eq_true in E. Qed.

Lemma IsEmpty_false h l xs : repr h l xs -> IsEmpty l = false -> xs <> [].
Proof. intros R E. rewrite (IsEmpty_repr _ _ _ R) in E. by apply bool_decide_eq_false in E. Qed.

(** Discharge a [res_rel] goal whose implementation has just been rewritten to [Ok]. *)
Ltac res_done := eexists; split; [reflexivity|assumption].

Lemma Append_repr h l xs x :
  repr h l xs -> res_rel repr_st (Append h l x) (Seq.Append x xs).
Proof.
  intros R. unfold Append, Seq.Append. cbn [new_element].
  rewrite (IsInList_repr _ _ _ _ (repr_new _ _ _ x R)). cbn.
  destruct (Seq.IsInList x xs) eqn:EI; cbn; [done|].
  destruct (IsEmpty l) eqn:EE; cbn.
  - pose proof (IsEmpty_true _ _ _ R EE) as ->. pose proof (repr_single _ _ x R) as R'.
    rewrite (finish_repr _ _ _ _ R') by (apply list_elem_of_singleton; done). res_done.
  - destruct (repr_snoc _ _ _ x R EE) as (h2 & -> & R'). cbn.
    rewrite (finish_repr _ _ _ _ R') by (apply elem_of_app; right; apply list_elem_of_singleton; done).
    res_done.
Qed.

Lemma Prepend_repr h l xs x :
  repr h l xs -> res_rel repr_st (Prepend h l x) (Seq.Prepend x xs).
Proof.
  intros R. unfold Prepend, Seq.Prepend. cbn [new_element].
  rewrite (IsInList_repr _ _ _ _ (repr_new _ _ _ x R)). cbn.
  destruct (Seq.IsInList x xs) eqn:EI; cbn; [done|].
  destruct (IsEmpty l) eqn:EE; cbn.
  - pose proof (IsEmpty_true _ _ _ R EE) as ->. pose proof (repr_single _ _ x R) as R'.
    rewrite (finish_repr _ _ _ _ R') by (apply list_elem_of_singleton; done). res_done.
  - destruct (repr_cons _ _ _ x R) as (h2 & -> & R'). cbn.
    pose proof (IsEmpty_false _ _ _ R EE) as HE.
    specialize (R' (last l)). rewrite bool_decide_false in R' by done. specialize (R' eq_refl).
    rewrite (finish_repr _ _ _ _ R') by (apply elem_of_cons; auto). res_done.
Qed.

(** ** Removal *)

Definition repr_pop (r : T * (heap * List)) (r' : T * list T) : Prop :=
  r.1 = r'.1 /\ repr_st r.2 r'.2.

Lemma RemoveFront_repr h l xs :
  repr h l xs -> res_rel repr_pop (RemoveFront h l) (Seq.RemoveFront xs).
Proof.
  intros R. unfold RemoveFront. rewrite (IsEmpty_repr _ _ _ R).
  pose proof R as (ns & C & <- & EL & EN). destruct ns as [|[a x] ns]; cbn.
  { done. }
  pose proof (chain_NoDup _ _ _ C) as ND. cbn in ND. apply NoDup_cons in ND as [Ha ND].
  destruct C as (EF & n & E & C). rewrite EF. cbn. rewrite E. cbn.
  eexists; split; [done|]. split; [done|]. exists ns.
  rewrite EL. case_decide as ED.
  - assert (ns = []) as ->.
    { destruct ns as [|[b y] ns0 _] using rev_ind; [done|]. exfalso.
      rewrite app_comm_cons, last_addr_snoc in ED. injection ED as ->.
      rewrite fmap_app in Ha. set_solver. }
    cbn in *. subst. split; [done|]. split; [done|]. split; [done|]. lia.
  - cbn. split; [by apply chain_delete|]. split; [done|]. split.
    + destruct ns; [done|]. done.
    + cbn in EN. lia.
Qed.

Lemma remove1_notin x (xs : list T) : x ∉ xs -> Seq.remove1 x xs = xs.
Proof.
  induction xs as [|y xs IH]; cbn; [done|]. rewrite not_elem_of_cons. intros [? ?].
  rewrite decide_False by done. f_equal; auto.
Qed.

Lemma remove_loop_spec h l x fuel ns1 a y ns2 :
  chain h (first l) (ns1 ++ (a, y) :: ns2) -> (length ns2 < fuel)%nat ->
  last l = last_addr (ns1 ++ (a, y) :: ns2) ->
  numInList l = Z.of_nat (length (ns1 ++ (a, y) :: ns2)) ->
  x ∈ ns2.*2 ->
  exists n s', h !! a = Some (mkElement n y) /\
    remove_loop fuel h l (Some a) n x = Ok (Some s') /\
    repr_st s' (ns1.*2 ++ y :: Seq.remove1 x ns2.*2).
Proof.
  revert fuel ns1 a y. induction ns2 as [|[b z] ns2 IH];
    intros [|fuel] ns1 a y C Hf EL EN Hin; cbn in Hf; try lia.
  { by apply not_elem_of_nil in Hin. }
  pose proof (chain_NoDup _ _ _ C) as ND. rewrite fmap_app in ND. cbn in ND.
  apply NoDup_app in ND as (_ & ND1 & ND). apply NoDup_cons in ND as [Hab ND].
  apply NoDup_cons in ND as [Hb ND].
  pose proof (chain_app _ _ _ _ _ _ C) as (_ & n & Ea & (-> & nb & Eb & C2)).
  exists (Some b). cbn. rewrite Eb. cbn. destruct (decide (x = z)) as [->|Hxz].
  - rewrite (set_next_Some _ _ _ _ Ea). cbn. rewrite lookup_insert_ne by set_solver.
    rewrite Eb. cbn. eexists; split; [done|]. split; [done|].
    exists (ns1 ++ (a, y) :: ns2). cbn. split; [|split; [|split]].
    + apply chain_delete; [rewrite fmap_app; cbn; set_solver|].
      eapply chain_relink; [done|set_solver|done].
    + rewrite fmap_app. done.
    + destruct ns2 as [|[c w] ns3]; cbn in C2.
      * subst nb. rewrite decide_True by done. by rewrite last_addr_snoc.
      * destruct C2 as (-> & _). rewrite decide_False by done. rewrite EL.
        unfold last_addr. rewrite !last_app. done.
    + rewrite EN, !length_app. cbn. lia.
  - destruct (IH fuel (ns1 ++ [(a, y)]) b z) as (n' & s' & Eb' & E & R);
      rewrite <- ?app_assoc; cbn; try done; [lia|set_solver|].
    rewrite Eb in Eb'. injection Eb' as <-.
    exists s'. split; [done|]. split; [done|].
    rewrite fmap_app, <- app_assoc in R. done.
Qed.

Lemma Remove_repr h l xs x :
  repr h l xs -> res_rel repr_st (Remove h l x) (Seq.Remove x xs).
Proof.
  intros R. unfold Remove, Seq.Remove. rewrite (IsInList_repr _ _ _ _ R). cbn.
  destruct (Seq.IsInList x xs) eqn:EI; cbn; [|done].
  apply bool_decide_eq_true in EI.
  pose proof R as (ns & C & <- & EL & EN). destruct ns as [|[a y] ns].
  { by apply not_elem_of_nil in EI. }
  pose proof C as (EF & n & Ea & C'). rewrite EF. cbn -[fmap]. rewrite Ea. cbn -[fmap].
  match goal with |- res_rel _ (?m ≫= _) _ => enough (exists s', m = Ok s' /\
    repr_st s' (Seq.remove1 x ((a, y) :: ns).*2)) as ([h' l'] & -> & R') end.
  { cbn -[fmap]. rewrite (IsInList_repr _ _ _ _ R'). cbn -[fmap].
    destruct (Seq.IsInList x (Seq.remove1 x _)); cbn -[fmap]; [done|res_done]. }
  cbn. destruct (decide (x = y)) as [->|Hxy].
  - pose proof (RemoveFront_repr _ _ _ R) as ([r hl] & -> & E1 & R1). cbn in *.
    subst r. rewrite bool_decide_true by done. cbn. eauto.
  - destruct (remove_loop_spec h l x (walk_fuel h) [] a y ns) as (n' & s' & Ea' & E & R1);
      try done.
    + pose proof (chain_length_size _ _ _ C). unfold walk_fuel. cbn in *. lia.
    + set_solver.
    + rewrite Ea in Ea'. injection Ea' as <-. rewrite E. cbn. eauto.
Qed.

(** ** [SanityCheck] accepts exactly the well-formed lists *)

Lemma last_addr_in ns a : last_addr ns = Some a -> a ∈ ns.*1.
Proof.
  intros ([b x] & Hl & ->)%fmap_Some. apply last_Some_elem_of in Hl.
  apply list_elem_of_fmap. by exists (b, x).
Qed.

Lemma sanity_loop_complete h l p ns k fuel :
  chain h p ns -> ns <> [] -> last l = last_addr ns ->
  numInList l = k + Z.of_nat (length ns) - 1 -> (length ns <= fuel)%nat ->
  sanity_loop fuel h l p k = Ok (numInList l).
Proof.
  revert p k fuel. induction ns as [|[a x] ns IH]; intros p k [|fuel] C Hne EL EN Hf;
    cbn in Hf; try (done || lia).
  pose proof (chain_NoDup _ _ _ C) as ND. cbn in ND. apply NoDup_cons in ND as [Ha _].
  destruct C as (-> & n & E & C). cbn. rewrite EL.
  destruct ns as [|[b y] ns].
  - rewrite decide_True by done. f_equal. cbn in EN. lia.
  - rewrite decide_False.
    + rewrite bool_decide_true by (cbn in EN; lia). cbn. rewrite E. cbn.
      apply IH; try done; cbn in *; lia.
    + intros ED. symmetry in ED. rewrite last_addr_cons_cons in ED.
      by apply last_addr_in in ED.
Qed.

Lemma sanity_loop_sound h l p k m fuel a x :
  last l = Some a -> h !! a = Some (mkElement None x) ->
  sanity_loop fuel h l p k = Ok m ->
  exists ns, chain h p ns /\ ns <> [] /\ last_addr ns = Some a /\ m = k + Z.of_nat (length ns) - 1.
Proof.
  intros EL Ea. revert p k. induction fuel as [|fuel IH]; intros p k E; cbn in E; [done|].
  rewrite EL in E. destruct (decide (p = Some a)) as [->|Hp].
  - injection E as <-. exists [(a, x)]. cbn.
    split; [eauto|]. split; [done|]. split; [done|lia].
  - inv_res. destruct p as [b|]; [|done]. cbn in Hm0.
    destruct (h !! b) as [[n y]|] eqn:Eb; [|done]. injection Hm0 as <-.
    apply IH in E as (ns & C & Hne & Hl & ->). exists ((b, y) :: ns). cbn in *.
    split; [eauto|]. split; [done|]. split; [by destruct ns|lia].
Qed.

Lemma SanityCheck_complete h l xs : repr h l xs -> SanityCheck h l = Ok ().
Proof.
  intros (ns & C & <- & EL & EN). unfold SanityCheck.
  destruct ns as [|[a x] ns].
  { cbn in C. rewrite C, EN, EL. done. }
  rewrite decide_False by (destruct C as (-> & _); done).
  case_decide as EF.
  - assert (ns = []) as ->.
    { pose proof (chain_NoDup _ _ _ C) as ND. cbn in ND. apply NoDup_cons in ND as [Ha _].
      destruct C as (EF1 & _). destruct ns as [|n ns]; [done|]. exfalso.
      rewrite EF1, EL, last_addr_cons_cons in EF. symmetry in EF. by apply last_addr_in in EF. }
    destruct C as (_ & n & E & ->). rewrite EN, EL. cbn. rewrite E. done.
  - rewrite (sanity_loop_complete _ _ _ ((a, x) :: ns)); [|done|done|done|lia|lia].
    cbn. rewrite bool_decide_true by done. cbn.
    destruct (list.last ((a, x) :: ns)) as [[b y]|] eqn:El.
    + rewrite EL. unfold last_addr. rewrite El. cbn. by rewrite (chain_last _ _ _ _ _ C El).
    + by apply last_None in El.
Qed.

Lemma SanityCheck_sound h l : SanityCheck h l = Ok () -> exists xs, repr h l xs.
Proof.
  unfold SanityCheck. case_decide as EF.
  { intros E. inv_res. apply andb_true_iff in E as [E1 E2].
    apply bool_decide_eq_true in E1, E2. exists [], []. done. }
  assert (Hlast : forall e, deref h (last l) = Ok e -> bool_decide (next e = None) = true ->
    exists c x, last l = Some c /\ h !! c = Some (mkElement None x)).
  { intros [n x] E Hn. apply bool_decide_eq_true in Hn. cbn in Hn. subst n.
    destruct (last l) as [c|]; [|done]. cbn in E.
    destruct (h !! c) as [e|] eqn:Ec; [|done]. injection E as ->. eauto. }
  case_decide as EL; intros E; inv_res.
  - apply bool_decide_eq_true in Hm. destruct (Hlast _ Hm0 E) as (c & x & El & Ec).
    exists [x], [(c, x)]. rewrite EL, El. cbn.
    split; [eauto|]. split; [done|]. split; [done|lia].
  - apply bool_decide_eq_true in Hm0. destruct (Hlast _ Hm1 E) as (c & x & El & Ec).
    destruct (sanity_loop_sound _ _ _ _ _ _ _ _ El Ec Hm) as (ns & C & Hne & Hl & Hk).
    exists ns.*2, ns. rewrite Hl. split; [done|]. split; [done|]. split; [done|lia].
Qed.

End chains.

(** ** [SortedList<T>] *)

(** What [SortedList] asks of its comparison: a total preorder, in the form of
    the three-way functions of the sources ([PendingCompare], [cmp]). *)
Class Comparison {T : Type} (cmp : T -> T -> Z) : Prop := {
  cmp_flip : forall x y, 0 <= cmp x y -> cmp y x <= 0;
  cmp_trans : forall x y z, cmp x y <= 0 -> cmp y z <= 0 -> cmp x z <= 0;
  cmp_le_lt : forall x y z, cmp x y < 0 -> cmp y z <= 0 -> cmp x z < 0;
}.

Section sorted.
Context {T : Type} `{EqDecision T} (cmp : T -> T -> Z).
#[local] Abbreviation heap := (gmap positive (ListElement T)).
Implicit Types (h : heap) (l : List) (p : ptr) (x : T) (ns : list (positive * T)).

Definition cmp_le (x y : T) : Prop := cmp x y <= 0.

(** The position [Insert] chooses, when [x] does not go to the front. *)
Lemma insert_loop_spec h p0 el x fuel ns1 a y ns2 :
  chain h p0 (ns1 ++ (a, y) :: ns2) -> h !! el = Some (mkElement None x) ->
  el ∉ (ns1 ++ (a, y) :: ns2).*1 -> (length ns2 < fuel)%nat ->
  (insert_loop cmp fuel h (Some a) el x = Ok None /\
     Seq.insert_before cmp x ns2.*2 = ns2.*2 ++ [x]) \/
  (exists h2 ns2', insert_loop cmp fuel h (Some a) el x = Ok (Some h2) /\
     chain h2 p0 (ns1 ++ (a, y) :: ns2') /\ ns2'.*2 = Seq.insert_before cmp x ns2.*2 /\
     last_addr ((a, y) :: ns2') = last_addr ((a, y) :: ns2) /\
     length ns2' = S (length ns2)).
Proof.
  revert fuel ns1 a y. induction ns2 as [|[b z] ns2 IH];
    intros [|fuel] ns1 a y C Eel Hel Hf; cbn in Hf; try lia;
    pose proof (chain_app _ _ _ _ _ _ C) as (_ & n & Ea & C2).
  { left. cbn in C2. subst n. cbn. by rewrite Ea. }
  destruct C2 as (-> & nb & Eb & C2). cbn -[fmap]. rewrite Ea. cbn -[fmap]. rewrite Eb. cbn -[fmap].
  rewrite fmap_app in Hel. cbn in Hel. cbn.
  case_bool_decide as Hlt.
  - right. rewrite (set_next_Some _ _ _ _ Eel). cbn.
    rewrite (set_next_Some _ a (mkElement (Some b) y)).
    2: { rewrite lookup_insert_ne; [done|set_solver]. }
    cbn. eexists _, ((el, x) :: (b, z) :: ns2). split; [done|]. split; [|done].
    eapply chain_relink.
    + apply chain_insert; [|exact C]. rewrite fmap_app. cbn. set_solver.
    + pose proof (chain_NoDup _ _ _ C) as ND. rewrite fmap_app in ND. cbn in ND.
      apply NoDup_app in ND as (_ & _ & ND). apply NoDup_cons in ND as [Ha _].
      cbn. set_solver.
    + cbn. split; [done|]. exists (Some b). rewrite lookup_insert_eq. split; [done|].
      split; [done|]. exists nb. rewrite lookup_insert_ne by set_solver. split; [done|].
      apply chain_insert; [set_solver|done].
  - destruct (IH fuel (ns1 ++ [(a, y)]) b z) as [[E1 E2]|(h2 & ns2' & E & C3 & E3 & E4 & E5)];
      rewrite <- ?app_assoc; cbn; try done; [|lia| |].
    + rewrite fmap_app. cbn. set_solver.
    + left. split; [done|]. by rewrite E2.
    + right. exists h2, ((b, z) :: ns2'). rewrite <- app_assoc in C3.
      split; [done|]. split; [done|]. split; [by cbn; rewrite E3|].
      rewrite !last_addr_cons_cons. split; [done|]. cbn. by rewrite E5.
Qed.

Lemma elem_of_insert_before x y xs : y ∈ Seq.insert_before cmp x xs <-> y = x \/ y ∈ xs.
Proof.
  induction xs as [|z xs IH]; cbn; [set_solver|].
  case_bool_decide; rewrite !elem_of_cons, ?IH; tauto.
Qed.

Lemma Insert_repr h l xs x :
  repr h l xs -> res_rel repr_st (Insert cmp h l x) (Seq.Insert cmp x xs).
Proof.
  intros R. unfold Insert, Seq.Insert. cbn [new_element].
  rewrite (IsInList_repr _ _ _ _ (repr_new _ _ _ x R)). cbn.
  destruct (Seq.IsInList x xs) eqn:EI; cbn; [done|].
  assert (Hin : x ∈ Seq.insert_before cmp x xs) by (apply elem_of_insert_before; auto).
  destruct (IsEmpty l) eqn:EE; cbn.
  { pose proof (IsEmpty_true _ _ _ R EE) as ->. pose proof (repr_single _ _ x R) as R'.
    rewrite (finish_repr _ _ _ _ R') by done. eexists; split; done. }
  pose proof (IsEmpty_false _ _ _ R EE) as HE.
  pose proof R as (ns & C & <- & EL & EN). destruct ns as [|[a y] ns]; [done|].
  pose proof (chain_fresh _ _ _ C) as Hfr.
  assert (C1 := chain_insert _ _ _ _ (mkElement None x) Hfr C).
  pose proof C1 as (EF & n & Ea & _). rewrite EF. cbn -[fmap]. rewrite Ea. cbn in *.
  case_bool_decide as Hlt.
  - destruct (repr_cons _ _ _ x R) as (h2 & E2 & R'). rewrite EF in E2.
    rewrite E2. cbn -[fmap]. specialize (R' (last l)).
    rewrite bool_decide_false in R' by done. specialize (R' eq_refl).
    rewrite (finish_repr _ _ _ _ R') by done. eexists; split; done.
  - destruct (insert_loop_spec (<[fresh_addr h := mkElement None x]> h) (first l) (fresh_addr h) x
      (walk_fuel (<[fresh_addr h := mkElement None x]> h)) [] a y ns)
      as [[E1 E2]|(h2 & ns2' & E & C3 & E3 & E4 & E5)]; try done.
    + apply lookup_insert_eq.
    + pose proof (chain_length_size _ _ ((a, y) :: ns) C1). unfold walk_fuel. cbn in *. lia.
    + rewrite E1. cbn. destruct (repr_snoc _ _ _ x R EE) as (h2 & E3 & R').
      rewrite E3. cbn. rewrite E2 in *. rewrite EF in R'.
      rewrite (finish_repr _ _ _ _ R') by done. eexists; split; done.
    + rewrite E. cbn. eexists; split; [done|]. exists ((a, y) :: ns2'). rewrite EF in C3. cbn.
      split; [exact C3|]. rewrite E3, E4, E5, EN. split; [done|]. split; [done|lia].
Qed.

Lemma insert_before_perm x xs : Seq.insert_before cmp x xs ≡ₚ x :: xs.
Proof.
  induction xs as [|y xs IH]; cbn; [done|]. case_bool_decide; [done|].
  rewrite IH. apply Permutation_swap.
Qed.

Context `{!Comparison cmp}.

Lemma insert_before_sorted x xs : Sorted cmp_le xs -> Sorted cmp_le (Seq.insert_before cmp x xs).
Proof.
  induction xs as [|y xs IH]; cbn; intros HS; [by repeat constructor|].
  case_bool_decide as Hlt.
  - constructor; [done|]. constructor. unfold cmp_le. lia.
  - inv HS. constructor; [auto|].
    assert (cmp y x <= 0) by (apply cmp_flip; lia).
    destruct xs as [|z xs]; cbn; [by repeat constructor|].
    inv H2. case_bool_decide; by constructor.
Qed.

(** Among the items of a sorted list, [x] goes after those that are lower or
    equal and before those that are greater: equal items stay in arrival order. *)
Lemma insert_before_split x xs :
  Sorted cmp_le xs ->
  exists lo hi, xs = lo ++ hi /\ Seq.insert_before cmp x xs = lo ++ x :: hi /\
    Forall (fun y => 0 <= cmp x y) lo /\ Forall (fun y => cmp x y < 0) hi.
Proof.
  assert (Transitive cmp_le) by (intros ???; apply cmp_trans).
  intros HS%Sorted_StronglySorted; [|done].
  induction HS as [|y xs HS IH HF]; cbn; [by exists [], []|].
  case_bool_decide as Hlt.
  - exists [], (y :: xs). split; [done|]. split; [done|]. split; [done|].
    constructor; [done|]. eapply Forall_impl; [exact HF|].
    intros z Hz. eapply cmp_le_lt; done.
  - destruct IH as (lo & hi & -> & -> & H1 & H2). exists (y :: lo), hi.
    split; [done|]. split; [done|]. split; [|done]. constructor; [lia|done].
Qed.

Lemma sorted_loop_spec h p ns a x fuel :
  h !! a = Some (mkElement p x) -> chain h p ns -> (length ns < fuel)%nat ->
  Sorted cmp_le (x :: ns.*2) -> sorted_loop cmp fuel h (Some a) p = Ok ().
Proof.
  revert p a x fuel. induction ns as [|[b y] ns IH]; intros p a x [|fuel] Ea C Hf HS;
    cbn in *; try lia; [by rewrite C|].
  destruct C as (-> & n & Eb & C). cbn. rewrite Ea. cbn. rewrite Eb. cbn.
  inv HS. inv H2. rewrite bool_decide_true by done. cbn. eapply IH; [done|done|lia|done].
Qed.

Lemma SortedSanityCheck_repr h l xs :
  repr h l xs -> Sorted cmp_le xs -> SortedSanityCheck cmp h l = Ok ().
Proof.
  intros R HS. unfold SortedSanityCheck. rewrite (SanityCheck_complete _ _ _ R). cbn.
  case_decide as ED; [done|]. destruct R as (ns & C & <- & EL & EN).
  destruct ns as [|[a x] ns]; [cbn in C; rewrite C, EL in ED; done|].
  pose proof (chain_length_size _ _ _ C) as Hs.
  destruct C as (-> & n & E & C). cbn. rewrite E. cbn.
  eapply sorted_loop_spec; [done|done| |done]. unfold walk_fuel. cbn in Hs. lia.
Qed.

End sorted.

(** ** Sequences of operations *)

(** The public operations of [List<T>] and [SortedList<T>] and what they return. *)
Inductive list_op (T : Type) : Type :=
| OpAppend (x : T) | OpPrepend (x : T) | OpInsert (x : T) | OpRemoveFront | OpRemove (x : T)
| OpFront | OpIsInList (x : T) | OpNumInList | OpIsEmpty | OpApply.
Arguments OpAppend {T} x. Arguments OpPrepend {T} x. Arguments OpInsert {T} x.
Arguments OpRemoveFront {T}. Arguments OpRemove {T} x. Arguments OpFront {T}.
Arguments OpIsInList {T} x. Arguments OpNumInList {T}. Arguments OpIsEmpty {T}.
Arguments OpApply {T}.

Inductive list_out (T : Type) : Type :=
| OutVoid | OutItem (x : T) | OutBool (b : bool) | OutNum (n : Z) | OutItems (xs : list T).
Arguments OutVoid {T}. Arguments OutItem {T} x. Arguments OutBool {T} b.
Arguments OutNum {T} n. Arguments OutItems {T} xs.

(** The interface of a list: a state type and the operations on it. *)
Class ListInterface (T S : Type) := exec_op : list_op T -> S -> res (list_out T * S).

Section interface.
Context {T : Type} `{EqDecision T} (cmp : T -> T -> Z).
#[local] Abbreviation heap := (gmap positive (ListElement T)).

#[local] Instance linked_interface : ListInterface T (heap * List) := fun o '(h, l) =>
  match o with
  | OpAppend x => s ← Append h l x; Ok (OutVoid, s)
  | OpPrepend x => s ← Prepend h l x; Ok (OutVoid, s)
  | OpInsert x => s ← Insert cmp h l x; Ok (OutVoid, s)
  | OpRemoveFront => '(x, s) ← RemoveFront h l; Ok (OutItem x, s)
  | OpRemove x => s ← Remove h l x; Ok (OutVoid, s)
  | OpFront => x ← Front h l; Ok (OutItem x, (h, l))
  | OpIsInList x => b ← IsInList h l x; Ok (OutBool b, (h, l))
  | OpNumInList => Ok (OutNum (NumInList l), (h, l))
  | OpIsEmpty => Ok (OutBool (IsEmpty l), (h, l))
  | OpApply => xs ← Apply h l; Ok (OutItems xs, (h, l))
  end.

#[local] Instance seq_interface : ListInterface T (list T) := fun o xs =>
  match o with
  | OpAppend x => ys ← Seq.Append x xs; Ok (OutVoid, ys)
  | OpPrepend x => ys ← Seq.Prepend x xs; Ok (OutVoid, ys)
  | OpInsert x => ys ← Seq.Insert cmp x xs; Ok (OutVoid, ys)
  | OpRemoveFront => '(x, ys) ← Seq.RemoveFront xs; Ok (OutItem x, ys)
  | OpRemove x => ys ← Seq.Remove x xs; Ok (OutVoid, ys)
  | OpFront => x ← Seq.Front xs; Ok (OutItem x, xs)
  | OpIsInList x => Ok (OutBool (Seq.IsInList x xs), xs)
  | OpNumInList => Ok (OutNum (Z.of_nat (length xs)), xs)
  | OpIsEmpty => Ok (OutBool (bool_decide (xs = [])), xs)
  | OpApply => Ok (OutItems xs, xs)
  end.

Definition same_out {S} (R : S -> list T -> Prop) (r : list_out T * S) (r' : list_out T * list T)
    : Prop := r.1 = r'.1 /\ R r.2 r'.2.

Lemma exec_refines o s xs :
  repr_st s xs -> res_rel (same_out repr_st) (exec_op o s) (exec_op o xs).
Proof.
  destruct s as [h l]. intros R. change (repr h l xs) in R.
  destruct o; cbn;
    [ eapply res_rel_bind; [by apply Append_repr|]
    | eapply res_rel_bind; [by apply Prepend_repr|]
    | eapply res_rel_bind; [by apply Insert_repr|]
    | eapply res_rel_bind; [by apply RemoveFront_repr|]
    | eapply res_rel_bind; [by apply Remove_repr|]
    | rewrite (Front_repr _ _ _ R); destruct xs; cbn; [done|]
    | rewrite (IsInList_repr _ _ _ _ R); cbn
    | pose proof R as (ns & _ & E1 & _ & E)
    | rewrite (IsEmpty_repr _ _ _ R)
    | rewrite (Apply_repr _ _ _ R); cbn ].
  4: { intros [y s] [x' ys] [Hy HR]. cbn in *. subst y. eexists; split; [done|]. by split. }
  7: { eexists; split; [done|]. split; [|done]. cbn. unfold NumInList. f_equal.
       cbn in E. by rewrite E, <- E1, length_fmap. }
  all: try (intros y ys HR; cbn); eexists; split; done.
Qed.

(** Run a program of operations, collecting what they return. *)
Fixpoint run_ops {S} `{!ListInterface T S} (ops : list (list_op T)) (s : S)
    : res (list (list_out T) * S) :=
  match ops with
  | [] => Ok ([], s)
  | o :: ops' => '(v, s') ← exec_op o s; '(vs, s'') ← run_ops ops' s'; Ok (v :: vs, s'')
  end.

Lemma run_ops_refines ops s xs :
  repr_st s xs ->
  res_rel (fun r r' => r.1 = r'.1 /\ repr_st r.2 r'.2) (run_ops ops s) (run_ops ops xs).
Proof.
  revert s xs. induction ops as [|o ops IH]; intros s xs R; cbn.
  - eexists; split; done.
  - eapply res_rel_bind; [by apply exec_refines|].
    intros [v s'] [v' xs'] [Hv R']. cbn in *. subst v'.
    eapply res_rel_bind; [by apply IH|].
    intros [vs s2] [vs' xs2] [Hvs R2]. cbn in *. subst vs'. eexists; split; done.
Qed.

End interface.

(** ** The self tests *)

Section selftest.
Context {T : Type} `{EqDecision T}.
#[local] Abbreviation heap := (gmap positive (ListElement T)).

(** An [Append] that puts a new item somewhere in the list. *)
Definition adds (append : heap -> List -> T -> res (heap * List)) : Prop :=
  forall h l xs x, repr h l xs -> x ∉ xs ->
    exists h' l' ys, append h l x = Ok (h', l') /\ repr h' l' ys /\ ys ≡ₚ x :: xs.

Lemma seq_in_false (x : T) xs : x ∉ xs -> Seq.IsInList x xs = false.
Proof. intros H. by apply bool_decide_eq_false. Qed.

Lemma seq_in_true (x : T) xs : x ∈ xs -> Seq.IsInList x xs = true.
Proof. intros H. by apply bool_decide_eq_true. Qed.

Lemma Append_adds : adds Append.
Proof.
  intros h l xs x R Hx. pose proof (Append_repr _ _ _ x R) as H. unfold Seq.Append in H.
  rewrite seq_in_false in H by done. destruct H as ([h' l'] & E & R').
  exists h', l', (xs ++ [x]). split; [done|]. split; [done|]. by rewrite Permutation_app_comm.
Qed.

Lemma remove1_perm (x : T) xs : x ∈ xs -> x :: Seq.remove1 x xs ≡ₚ xs.
Proof.
  induction xs as [|y xs IH]; cbn; [by intros ?%not_elem_of_nil|].
  rewrite elem_of_cons. case_decide as Hxy; [by subst|]. intros [?|?]; [done|].
  rewrite Permutation_swap. by rewrite IH.
Qed.

Lemma repr_nonempty h l (xs : list T) : repr h l xs -> xs <> [] -> IsEmpty l = false.
Proof. intros R H. rewrite (IsEmpty_repr _ _ _ R). by apply bool_decide_eq_false. Qed.

Lemma add_all append entries h l xs :
  adds append -> repr h l xs -> NoDup (xs ++ entries) ->
  exists h' l' ys, foldM (fun '(h, l) x =>
      '(h', l') ← append h l x;
      b ← IsInList h' l' x; _ ← ASSERT b;
      _ ← ASSERT (negb (IsEmpty l')); Ok (h', l')) (h, l) entries = Ok (h', l') /\
    repr h' l' ys /\ ys ≡ₚ xs ++ entries.
Proof.
  intros HA. revert h l xs. induction entries as [|x es IH]; intros h l xs R ND; cbn.
  { exists h, l, xs. rewrite app_nil_r. done. }
  rewrite <- Permutation_middle in ND. pose proof ND as ND'. apply NoDup_cons in ND as [Hx _].
  destruct (HA h l xs x R) as (h1 & l1 & ys & -> & R1 & HP); [set_solver|]. cbn.
  rewrite (IsInList_repr _ _ _ _ R1). cbn. rewrite seq_in_true by (rewrite HP; set_solver).
  cbn. rewrite (repr_nonempty _ _ _ R1) by (intros ->; by apply Permutation_nil_cons in HP).
  cbn. destruct (IH h1 l1 ys R1) as (h2 & l2 & zs & E & R2 & HP2).
  { by rewrite HP. }
  exists h2, l2, zs. split; [done|]. split; [done|]. rewrite HP2, HP. apply Permutation_middle.
Qed.

Lemma Remove_step h l xs (x : T) :
  repr h l xs -> NoDup xs -> x ∈ xs ->
  exists h' l', Remove h l x = Ok (h', l') /\ repr h' l' (Seq.remove1 x xs) /\
    x ∉ Seq.remove1 x xs.
Proof.
  intros R ND Hx. pose proof (remove1_perm x xs Hx) as HP.
  assert (Hn : x ∉ Seq.remove1 x xs).
  { rewrite <- HP in ND. by apply NoDup_cons in ND as [? _]. }
  pose proof (Remove_repr _ _ _ x R) as H. unfold Seq.Remove in H.
  rewrite (seq_in_true x xs) in H by done. cbn in H.
  rewrite (seq_in_false x (Seq.remove1 x xs)) in H by done. destruct H as ([h' l'] & E & R'). eauto.
Qed.

Lemma remove_all (entries : list T) (h : heap) (l : List) (xs : list T) :
  repr h l xs -> xs ≡ₚ entries -> NoDup xs ->
  exists h' l', foldM (fun '(h, l) x =>
      '(h', l') ← Remove h l x;
      b ← IsInList h' l' x; _ ← ASSERT (negb b); Ok (h', l')) (h, l) entries = Ok (h', l') /\
    repr h' l' [].
Proof.
  revert h l xs. induction entries as [|x es IH]; intros h l xs R HP ND; cbn.
  { apply Permutation_nil_r in HP as ->. eauto. }
  assert (Hx : x ∈ xs) by (rewrite HP; set_solver).
  destruct (Remove_step _ _ _ _ R ND Hx) as (h1 & l1 & -> & R1 & Hn). cbn.
  rewrite (IsInList_repr _ _ _ _ R1). cbn. rewrite seq_in_false by done. cbn.
  pose proof (remove1_perm x xs Hx) as HP1.
  apply (IH h1 l1 (Seq.remove1 x xs)); [done| |].
  - rewrite <- HP1 in HP. by apply Permutation_cons_inv in HP.
  - rewrite <- HP1 in ND. by apply NoDup_cons in ND as [_ ?].
Qed.

Lemma SelfTest_passes append h l entries :
  adds append -> repr h l [] -> NoDup entries ->
  exists h' l', SelfTest append h l entries = Ok (h', l') /\ repr h' l' [].
Proof.
  intros HA R ND. unfold SelfTest. rewrite (SanityCheck_complete _ _ _ R). cbn.
  rewrite (IsEmpty_repr _ _ _ R). pose proof R as (ns & C & E & _). destruct ns; [|done].
  cbn in C. unfold newIterator, IsDone. rewrite C. cbn.
  destruct (add_all append entries h l [] HA R ND) as (h1 & l1 & ys & -> & R1 & HP). cbn in *.
  rewrite (SanityCheck_complete _ _ _ R1). cbn.
  destruct (remove_all entries h1 l1 ys R1 HP) as (h2 & l2 & -> & R2); [by rewrite HP|]. cbn.
  rewrite (IsEmpty_repr _ _ _ R2), (SanityCheck_complete _ _ _ R2). cbn. eauto.
Qed.

Context (cmp : T -> T -> Z).

Lemma Insert_adds : adds (Insert cmp).
Proof.
  intros h l xs x R Hx. pose proof (Insert_repr cmp _ _ _ x R) as H. unfold Seq.Insert in H.
  rewrite seq_in_false in H by done. destruct H as ([h' l'] & E & R').
  exists h', l', (Seq.insert_before cmp x xs). split; [done|]. split; [done|].
  apply insert_before_perm.
Qed.

Lemma drain_spec (xs : list T) h l :
  repr h l xs -> NoDup xs ->
  exists h' l', drain (length xs) h l = Ok (xs, (h', l')) /\ repr h' l' [].
Proof.
  revert h l. induction xs as [|x xs IH]; intros h l R ND; cbn; [eauto|].
  apply NoDup_cons in ND as [Hx ND].
  pose proof (RemoveFront_repr _ _ _ R) as ([r [h1 l1]] & -> & Er & R1). cbn in *. subst r.
  rewrite (IsInList_repr _ _ _ _ R1). cbn. rewrite seq_in_false by done. cbn.
  destruct (IH h1 l1 R1 ND) as (h2 & l2 & -> & R2). cbn. eauto.
Qed.

Lemma check_order_spec xs : Sorted (cmp_le cmp) xs -> check_order cmp xs = Ok ().
Proof.
  induction xs as [|x [|y xs] IH]; intros HS; [done|done|]. inv HS. inv H2.
  cbn. rewrite bool_decide_true by done. apply IH. done.
Qed.

Context `{!Comparison cmp}.

Lemma insert_all (entries : list T) (h : heap) (l : List) (xs : list T) :
  repr h l xs -> NoDup (xs ++ entries) -> Sorted (cmp_le cmp) xs ->
  exists h' l' ys, foldM (fun '(h, l) x =>
      '(h', l') ← Insert cmp h l x; b ← IsInList h' l' x; _ ← ASSERT b; Ok (h', l'))
      (h, l) entries = Ok (h', l') /\
    repr h' l' ys /\ ys ≡ₚ xs ++ entries /\ Sorted (cmp_le cmp) ys.
Proof.
  revert h l xs. induction entries as [|x es IH]; intros h l xs R ND HS; cbn.
  { exists h, l, xs. rewrite app_nil_r. done. }
  rewrite <- Permutation_middle in ND. pose proof ND as ND'. apply NoDup_cons in ND as [Hx _].
  pose proof (Insert_repr cmp _ _ _ x R) as H. unfold Seq.Insert in H.
  rewrite seq_in_false in H by set_solver. destruct H as ([h1 l1] & -> & R1). cbn.
  rewrite (IsInList_repr _ _ _ _ R1). cbn.
  rewrite seq_in_true by (apply elem_of_insert_before; auto). cbn.
  destruct (IH h1 l1 _ R1) as (h2 & l2 & zs & E & R2 & HP2 & HS2).
  { cbn. by rewrite insert_before_perm. }
  { by apply insert_before_sorted. }
  exists h2, l2, zs. split; [done|]. split; [done|]. split; [|done].
  rewrite HP2. cbn. rewrite insert_before_perm. apply Permutation_middle.
Qed.

Lemma SortedSelfTest_passes h l entries :
  repr h l [] -> NoDup entries ->
  exists h' l', SortedSelfTest cmp h l entries = Ok (h', l') /\ repr h' l' [].
Proof.
  intros R ND. unfold SortedSelfTest.
  destruct (SelfTest_passes (Insert cmp) h l entries Insert_adds R ND) as (h0 & l0 & -> & R0). cbn.
  destruct (insert_all entries h0 l0 [] R0 ND) as (h1 & l1 & ys & -> & R1 & HP & HS); [constructor|].
  cbn in *. rewrite (SortedSanityCheck_repr cmp _ _ _ R1 HS). cbn.
  destruct (drain_spec ys h1 l1 R1) as (h2 & l2 & Ed & R2); [by rewrite HP|].
  replace (length entries) with (length ys) by (by rewrite HP).
  rewrite Ed. cbn. rewrite (IsEmpty_repr _ _ _ R2), (check_order_spec _ HS). cbn.
  rewrite (SortedSanityCheck_repr cmp _ _ _ R2) by constructor. cbn. eauto.
Qed.

End selftest.

(** ** The properties of this component *)

(** The comparison of integers used in the examples. *)
Definition Zcmp (x y : Z) : Z := x - y.

#[export] Instance Zcmp_comparison : Comparison Zcmp.
Proof. split; unfold Zcmp; lia. Qed.

(** C4: the pointer implementation of [List]/[SortedList] refines the abstract
    list.  Any program of list operations, started on an empty [List] in any
    heap, returns the same values and fails in the same way (assertion, NULL
    dereference) as on the mathematical list, never runs for ever, and ends in a
    heap that represents the final mathematical list. *)
Theorem list_program_refinement {T : Type} `{EqDecision T} (cmp : T -> T -> Z)
    (ops : list (list_op T)) (h : gmap positive (ListElement T)) :
  res_rel (fun r r' => r.1 = r'.1 /\ repr_st r.2 r'.2)
    (run_ops (ListInterface0 := linked_interface cmp) ops (h, newList))
    (run_ops (ListInterface0 := seq_interface cmp) ops []).
Proof. apply run_ops_refines, repr_nil. Qed.

(** [List::SanityCheck] accepts a list object exactly when it is
    well-formed: [first] leads through [numInList] elements to [last] and then
    to NULL. *)
Theorem list_sanity_check_exact {T : Type} `{EqDecision T} (h : gmap positive (ListElement T)) (l : List) :
  SanityCheck h l = Ok () <-> exists xs, repr h l xs.
Proof.
  split; [apply SanityCheck_sound|]. intros [xs R]. by eapply SanityCheck_complete.
Qed.

(** [SortedList::Insert] of a new item into a sorted list returns, keeps the
    list sorted, and puts the item after every item that compares lower or equal
    and before every greater one, so equal items leave the list first-in
    first-out; [SortedList::SanityCheck] accepts the result. *)
Theorem sorted_insert_correct {T : Type} `{EqDecision T} (cmp : T -> T -> Z)
    (HC : Comparison cmp) (h : gmap positive (ListElement T)) (l : List) (xs : list T) (x : T)
    (HR : repr h l xs) (HS : Sorted (cmp_le cmp) xs) (Hx : x ∉ xs) :
  exists h' l' lo hi, Insert cmp h l x = Ok (h', l') /\ repr h' l' (lo ++ x :: hi) /\
    xs = lo ++ hi /\ Forall (fun y => 0 <= cmp x y) lo /\ Forall (fun y => cmp x y < 0) hi /\
    Sorted (cmp_le cmp) (lo ++ x :: hi) /\ SortedSanityCheck cmp h' l' = Ok ().
Proof.
  pose proof (Insert_repr cmp _ _ _ x HR) as H. unfold Seq.Insert in H.
  rewrite seq_in_false in H by done. destruct H as ([h' l'] & E & R).
  pose proof (insert_before_sorted cmp x xs HS) as HS'.
  destruct (insert_before_split cmp x xs HS) as (lo & hi & Exs & Ei & Hlo & Hhi).
  rewrite Ei in R, HS'. exists h', l', lo, hi.
  do 6 (split; [done|]). by apply (SortedSanityCheck_repr cmp _ _ (lo ++ x :: hi)).
Qed.

Lemma sorted_insert_correct_witness :
  exists h' l' lo hi, Insert Zcmp ∅ newList 7 = Ok (h', l') /\ repr h' l' (lo ++ 7 :: hi) /\
    [] = lo ++ hi /\ Forall (fun y => 0 <= Zcmp 7 y) lo /\ Forall (fun y => Zcmp 7 y < 0) hi /\
    Sorted (cmp_le Zcmp) (lo ++ 7 :: hi) /\ SortedSanityCheck Zcmp h' l' = Ok ().
Proof.
  apply (sorted_insert_correct Zcmp Zcmp_comparison ∅ newList [] 7).
  - apply repr_nil.
  - constructor.
  - apply not_elem_of_nil.
Defined.

(** The module's own self tests pass: [List::SelfTest] and
    [SortedList::SelfTest] run to their end on an empty list, for any array of
    distinct entries, and leave the list empty again. *)
Theorem list_self_tests_pass {T : Type} `{EqDecision T} (cmp : T -> T -> Z)
    (HC : Comparison cmp) (h : gmap positive (ListElement T)) (l : List) (entries : list T)
    (HR : repr h l []) (ND : NoDup entries) :
  (exists h' l', SelfTest Append h l entries = Ok (h', l') /\ repr h' l' []) /\
  (exists h' l', SortedSelfTest cmp h l entries = Ok (h', l') /\ repr h' l' []).
Proof.
  split; [|by apply SortedSelfTest_passes].
  exact (SelfTest_passes Append h l entries Append_adds HR ND).
Qed.

Lemma list_self_tests_pass_witness :
  (exists h' l', SelfTest Append ∅ newList [3; 1; 2] = Ok (h', l') /\ repr h' l' []) /\
  (exists h' l', SortedSelfTest Zcmp ∅ newList [3; 1; 2] = Ok (h', l') /\ repr h' l' []).
Proof.
  apply (list_self_tests_pass Zcmp Zcmp_comparison ∅ newList [3; 1; 2]).
  - apply repr_nil.
  - by apply (bool_decide_eq_true_1 (NoDup [3; 1; 2])).
Defined.
