(* ===== verification/Bitmap.v ===== *)
(** * lib/bitmap.h, lib/bitmap.cc: bitmaps

    [Module BitmapImpl] models the class [Bitmap]: an array of 32-bit unsigned
    words and the shifts and masks on it.  [Module BitSpec] is its abstract
    specification, a list of booleans; the two are related by refinement. *)

From S2P Require Import Prelude.

(** ** The abstract specification *)

Module BitSpec.

Definition in_range (bs : list bool) (i : Z) : bool := bool_decide (0 <= i < Z.of_nat (length bs)).

Definition Mark (bs : list bool) (i : Z) : res (list bool) :=
  _ ← ASSERT (in_range bs i); Ok (<[Z.to_nat i := true]> bs).

Definition Clear (bs : list bool) (i : Z) : res (list bool) :=
  _ ← ASSERT (in_range bs i); Ok (<[Z.to_nat i := false]> bs).

Definition Test (bs : list bool) (i : Z) : res bool :=
  _ ← ASSERT (in_range bs i); aget bs i.

(** The position of the first clear bit. *)
Fixpoint first_clear (bs : list bool) : option nat :=
  match bs with
  | [] => None
  | false :: _ => Some O
  | true :: bs' => S <$> first_clear bs'
  end.

Definition FindAndSet (bs : list bool) : Z * list bool :=
  match first_clear bs with
  | Some i => (Z.of_nat i, <[i := true]> bs)
  | None => (-1, bs)
  end.

Definition NumClear (bs : list bool) : Z := Z.of_nat (length (filter (fun b => b = false) bs)).

(** The positions of the bits that are set, from position [i] on. *)
Fixpoint positions (i : Z) (bs : list bool) : list Z :=
  match bs with
  | [] => []
  | b :: bs' => if b then i :: positions (i + 1) bs' else positions (i + 1) bs'
  end.

End BitSpec.

(** ** The implementation *)

Module BitmapImpl.

Definition BitsInByte : Z := 8.
Definition BitsInWord : Z := 4 * BitsInByte.

Record Bitmap : Type := mkBitmap { numBits : Z; numWords : Z; map : list Z }.

(** [1 << (which % BitsInWord)], converted to [unsigned int]. *)
Definition mask (which : Z) : Z := u32 (Z.shiftl 1 (Z.rem which BitsInWord)).

Definition Test (bm : Bitmap) (which : Z) : res bool :=
  _ ← ASSERT (bool_decide (which >= 0) && bool_decide (which < numBits bm));
  w ← aget (map bm) (Z.quot which BitsInWord);
  if decide (Z.land w (mask which) <> 0) then Ok true else Ok false.

Definition Mark (bm : Bitmap) (which : Z) : res Bitmap :=
  _ ← ASSERT (bool_decide (which >= 0) && bool_decide (which < numBits bm));
  w ← aget (map bm) (Z.quot which BitsInWord);
  m ← aset (map bm) (Z.quot which BitsInWord) (Z.lor w (mask which));
  let bm' := mkBitmap (numBits bm) (numWords bm) m in
  t ← Test bm' which; _ ← ASSERT t; Ok bm'.

Definition Clear (bm : Bitmap) (which : Z) : res Bitmap :=
  _ ← ASSERT (bool_decide (which >= 0) && bool_decide (which < numBits bm));
  w ← aget (map bm) (Z.quot which BitsInWord);
  m ← aset (map bm) (Z.quot which BitsInWord)
        (Z.land w (u32 (Z.lnot (Z.shiftl 1 (Z.rem which BitsInWord)))));
  let bm' := mkBitmap (numBits bm) (numWords bm) m in
  t ← Test bm' which; _ ← ASSERT (negb t); Ok bm'.

(** The constructor. *)
Definition newBitmap (numItems : Z) : res Bitmap :=
  _ ← ASSERT (bool_decide (numItems > 0));
  let words := divRoundUp numItems BitsInWord in
  let bm := mkBitmap numItems words (replicate (Z.to_nat words) 0) in
  for_loop (Z.to_nat numItems) 0 (fun i bm => Clear bm i) bm.

Fixpoint findAndSet_loop (n : nat) (i : Z) (bm : Bitmap) : res (Z * Bitmap) :=
  match n with
  | O => Ok (-1, bm)
  | S n' =>
      t ← Test bm i;
      if negb t then bm' ← Mark bm i; Ok (i, bm') else findAndSet_loop n' (i + 1) bm
  end.

Definition FindAndSet (bm : Bitmap) : res (Z * Bitmap) :=
  findAndSet_loop (Z.to_nat (numBits bm)) 0 bm.

Definition NumClear (bm : Bitmap) : res Z :=
  for_loop (Z.to_nat (numBits bm)) 0
    (fun i count => t ← Test bm i; Ok (if negb t then count + 1 else count)) 0.

(** [Print]: the numbers that are printed. *)
Fixpoint print_loop (n : nat) (i : Z) (bm : Bitmap) : res (list Z) :=
  match n with
  | O => Ok []
  | S n' =>
      t ← Test bm i; r ← print_loop n' (i + 1) bm; Ok (if t : bool then i :: r else r)
  end.

Definition Print (bm : Bitmap) : res (list Z) := print_loop (Z.to_nat (numBits bm)) 0 bm.

Definition SelfTest (bm : Bitmap) : res Bitmap :=
  _ ← ASSERT (bool_decide (numBits bm >= BitsInWord));
  c ← NumClear bm; _ ← ASSERT (bool_decide (c = numBits bm));
  '(i, bm) ← FindAndSet bm; _ ← ASSERT (bool_decide (i = 0));
  bm ← Mark bm 31;
  t0 ← Test bm 0; t1 ← Test bm 31; _ ← ASSERT (t0 && t1);
  '(i, bm) ← FindAndSet bm; _ ← ASSERT (bool_decide (i = 1));
  bm ← Clear bm 0; bm ← Clear bm 1; bm ← Clear bm 31;
  bm ← for_loop (Z.to_nat (numBits bm)) 0 (fun i bm => Mark bm i) bm;
  '(i, bm) ← FindAndSet bm; _ ← ASSERT (bool_decide (i = -1));
  for_loop (Z.to_nat (numBits bm)) 0 (fun i bm => Clear bm i) bm.

#[global] Arguments Test : simpl never.
#[global] Arguments Mark : simpl never.
#[global] Arguments Clear : simpl never.
#[global] Arguments FindAndSet : simpl never.
#[global] Arguments NumClear : simpl never.
End BitmapImpl.
