(* ===== verification/BitmapProofs.v ===== *)
(** * Correctness of the bitmaps

    [brel bm bs]: the bitmap [bm] is well-formed and its bits are [bs].  Every
    operation of [BitmapImpl] refines the one of [BitSpec]. *)

From S2P Require Import Prelude Words Bitmap.
Import BitmapImpl.

(** ** Well-formed bitmaps and their bits *)

Definition wf (bm : Bitmap) : Prop :=
  0 < numBits bm /\ numWords bm = divRoundUp (numBits bm) BitsInWord /\
  Z.of_nat (length (map bm)) = numWords bm /\ Forall is_u32 (map bm).

Definition bit (bm : Bitmap) (i : Z) : bool :=
  Z.testbit (default 0 (map bm !! Z.to_nat (i / 32))) (i mod 32).

Definition bits (bm : Bitmap) : list bool :=
  (fun i => bit bm (Z.of_nat i)) <$> seq 0 (Z.to_nat (numBits bm)).

Definition brel (bm : Bitmap) (bs : list bool) : Prop := wf bm /\ bs = bits bm.

Lemma word_index bm i : wf bm -> 0 <= i < numBits bm ->
  exists w, map bm !! Z.to_nat (i / 32) = Some w /\ is_u32 w /\
    aget (map bm) (Z.quot i BitsInWord) = Ok w /\
    0 <= Z.quot i BitsInWord < Z.of_nat (length (map bm)).
Proof.
  intros (H0 & HW & HL & HF) Hi.
  pose proof (divRoundUp_spec (numBits bm) BitsInWord ltac:(lia) ltac:(done)) as Hd.
  rewrite <- HW, <- HL in Hd. unfold BitsInWord, BitsInByte in *. change (4 * 8) with 32 in *.
  rewrite Z.quot_div_nonneg by lia.
  assert (Hr : 0 <= i / 32 < Z.of_nat (length (map bm))).
  { split; [apply Z.div_pos; lia|]. apply Z.div_lt_upper_bound; lia. }
  destruct (lookup_lt_is_Some_2 (map bm) (Z.to_nat (i / 32))) as [w Hw]; [lia|].
  exists w. split; [done|]. split; [by eapply Forall_lookup_1|]. split; [|done].
  apply aget_Ok. split; [lia|done].
Qed.

Lemma rem_word i : 0 <= i -> Z.rem i BitsInWord = i mod 32.
Proof. intros. unfold BitsInWord, BitsInByte. by rewrite Z.rem_mod_nonneg by lia. Qed.

Lemma mask_pow2 i : 0 <= i -> mask i = 2 ^ (i mod 32).
Proof.
  intros Hi. unfold mask. rewrite rem_word, Z.shiftl_1_l by done. apply u32_id.
  pose proof (Z.mod_pos_bound i 32 ltac:(lia)). unfold is_u32. split; [lia|].
  change 4294967296 with (2 ^ 32). apply Z.pow_lt_mono_r; lia.
Qed.

Lemma length_bits bm : wf bm -> Z.of_nat (length (bits bm)) = numBits bm.
Proof. intros (H & _). unfold bits. rewrite length_fmap, length_seq. lia. Qed.

Lemma lookup_bits bm i :
  bits bm !! i = if decide (Z.of_nat i < numBits bm) then Some (bit bm (Z.of_nat i)) else None.
Proof.
  unfold bits. rewrite list_lookup_fmap. case_decide.
  - rewrite lookup_seq_lt by lia. done.
  - rewrite lookup_seq_ge by lia. done.
Qed.

(** The range assertion of the implementation and of the specification. *)
Lemma range_assert bm i : wf bm ->
  bool_decide (i >= 0) && bool_decide (i < numBits bm) = BitSpec.in_range (bits bm) i.
Proof.
  intros H. unfold BitSpec.in_range. rewrite length_bits by done.
  rewrite <- bool_decide_and. apply bool_decide_ext. lia.
Qed.

Lemma in_range_true bs i :
  BitSpec.in_range bs i = true <-> 0 <= i < Z.of_nat (length bs).
Proof. apply bool_decide_eq_true. Qed.

(** ** The operations on one bit *)

Lemma Test_spec bm i : wf bm -> 0 <= i < numBits bm -> Test bm i = Ok (bit bm i).
Proof.
  intros HW Hi. unfold Test. rewrite !bool_decide_true by lia. cbn.
  destruct (word_index bm i HW Hi) as (w & Hw & _ & -> & _). cbn. unfold bit. rewrite Hw. cbn.
  rewrite mask_pow2 by lia. pose proof (Z.mod_pos_bound i 32 ltac:(lia)).
  case_decide as E.
  - apply land_pow2 in E; [|lia]. by rewrite E.
  - destruct (Z.testbit w (i mod 32)) eqn:T; [|done].
    apply land_pow2 in T; [done|lia].
Qed.

Definition put_word (bm : Bitmap) (i w : Z) : Bitmap :=
  mkBitmap (numBits bm) (numWords bm) (<[Z.to_nat (i / 32) := w]> (map bm)).

Lemma wf_put bm i w : wf bm -> is_u32 w -> wf (put_word bm i w).
Proof.
  intros (H0 & H1 & H2 & H3) Hw. split; [done|]. split; [done|]. cbn.
  rewrite length_insert. split; [done|]. by apply Forall_insert.
Qed.

(** Writing a word that differs in one bit changes that bit only. *)
Lemma bit_put bm i j w v :
  wf bm -> 0 <= i < numBits bm -> 0 <= j ->
  (forall k, 0 <= k < 32 -> Z.testbit w k =
     if decide (k = i mod 32) then v
     else Z.testbit (default 0 (map bm !! Z.to_nat (i / 32))) k) ->
  bit (put_word bm i w) j = if decide (i = j) then v else bit bm j.
Proof.
  intros HW Hi Hj Hb. destruct (word_index bm i HW Hi) as (w0 & Hw0 & _ & _ & Hr).
  change BitsInWord with 32 in Hr. rewrite Z.quot_div_nonneg in Hr by lia.
  unfold bit, put_word. cbn.
  pose proof (Z.div_mod i 32). pose proof (Z.div_mod j 32).
  pose proof (Z.mod_pos_bound j 32 ltac:(lia)). pose proof (Z.mod_pos_bound i 32 ltac:(lia)).
  destruct (decide (i / 32 = j / 32)) as [E|E].
  - rewrite <- E, list_lookup_insert_eq by lia. cbn. rewrite Hb by lia.
    case_decide; case_decide; subst; try done; lia.
  - rewrite list_lookup_insert_ne.
    + rewrite decide_False; [done|]. by intros ->.
    + pose proof (Z.div_pos j 32). pose proof (Z.div_pos i 32). lia.
Qed.

Lemma bits_put bm i w v :
  wf bm -> 0 <= i < numBits bm ->
  (forall k, 0 <= k < 32 -> Z.testbit w k =
     if decide (k = i mod 32) then v
     else Z.testbit (default 0 (map bm !! Z.to_nat (i / 32))) k) ->
  bits (put_word bm i w) = <[Z.to_nat i := v]> (bits bm).
Proof.
  intros HW Hi Hb. apply list_eq. intros j. rewrite lookup_bits, list_lookup_insert.
  change (numBits (put_word bm i w)) with (numBits bm).
  pose proof (length_bits bm HW). rewrite lookup_bits.
  case_decide as Hj.
  - rewrite (bit_put bm i (Z.of_nat j) w v) by (done || lia).
    case_decide; case_decide; try done; lia.
  - rewrite decide_False; [done|lia].
Qed.

Lemma Mark_spec bm i : wf bm -> 0 <= i < numBits bm ->
  exists bm', Mark bm i = Ok bm' /\ wf bm' /\ numBits bm' = numBits bm /\
    bits bm' = <[Z.to_nat i := true]> (bits bm).
Proof.
  intros HW Hi. unfold Mark. rewrite !bool_decide_true by lia. cbn.
  destruct (word_index bm i HW Hi) as (w & Hw & Hu & -> & Hr). cbn.
  rewrite aset_in_range by done. cbn.
  pose proof (Z.mod_pos_bound i 32 ltac:(lia)).
  assert (Hb : forall k, 0 <= k < 32 -> Z.testbit (Z.lor w (mask i)) k =
    if decide (k = i mod 32) then true
    else Z.testbit (default 0 (map bm !! Z.to_nat (i / 32))) k).
  { intros k Hk. rewrite Hw, Z.lor_spec, mask_pow2, Z.pow2_bits_eqb by lia. cbn.
    case_decide; [subst; by rewrite Z.eqb_refl, orb_true_r|].
    by rewrite (proj2 (Z.eqb_neq _ _)), orb_false_r by lia. }
  assert (HW' : wf (put_word bm i (Z.lor w (mask i)))).
  { apply wf_put; [done|]. apply is_u32_lor; [done|]. apply u32_range. }
  replace (Z.to_nat (Z.quot i BitsInWord)) with (Z.to_nat (i / 32))
    by (unfold BitsInWord, BitsInByte; by rewrite Z.quot_div_nonneg by lia).
  fold (put_word bm i (Z.lor w (mask i))).
  rewrite Test_spec by done. rewrite (bit_put bm i i _ true) by (done || lia).
  rewrite decide_True by done. cbn. eexists; split; [done|]. split; [done|].
  split; [done|]. by apply bits_put.
Qed.

Lemma Clear_spec bm i : wf bm -> 0 <= i < numBits bm ->
  exists bm', Clear bm i = Ok bm' /\ wf bm' /\ numBits bm' = numBits bm /\
    bits bm' = <[Z.to_nat i := false]> (bits bm).
Proof.
  intros HW Hi. unfold Clear. rewrite !bool_decide_true by lia. cbn.
  destruct (word_index bm i HW Hi) as (w & Hw & Hu & -> & Hr). cbn.
  rewrite aset_in_range by done. cbn.
  pose proof (Z.mod_pos_bound i 32 ltac:(lia)).
  set (w' := Z.land w (u32 (Z.lnot (Z.shiftl 1 (Z.rem i BitsInWord))))).
  assert (Hb : forall k, 0 <= k < 32 -> Z.testbit w' k =
    if decide (k = i mod 32) then false
    else Z.testbit (default 0 (map bm !! Z.to_nat (i / 32))) k).
  { intros k Hk. unfold w'. rewrite Hw, rem_word, Z.shiftl_1_l by lia.
    rewrite Z.land_spec, u32_testbit, Z.lnot_spec, Z.pow2_bits_eqb by lia. cbn.
    case_decide; [subst; by rewrite Z.eqb_refl, andb_false_r|].
    by rewrite (proj2 (Z.eqb_neq _ _)), andb_true_r by lia. }
  assert (HW' : wf (put_word bm i w')) by (apply wf_put; [done|]; by apply is_u32_land).
  replace (Z.to_nat (Z.quot i BitsInWord)) with (Z.to_nat (i / 32))
    by (unfold BitsInWord, BitsInByte; by rewrite Z.quot_div_nonneg by lia).
  fold (put_word bm i w').
  rewrite Test_spec by done. rewrite (bit_put bm i i _ false) by (done || lia).
  rewrite decide_True by done. cbn. eexists; split; [done|]. split; [done|].
  split; [done|]. by apply bits_put.
Qed.

(** ** Whole-bitmap operations *)

Lemma bit_lookup bm i : wf bm -> 0 <= i < numBits bm -> bits bm !! Z.to_nat i = Some (bit bm i).
Proof. intros HW Hi. rewrite lookup_bits, Z2Nat.id, decide_True by lia. done. Qed.

Lemma drop_bits bm i : wf bm -> 0 <= i < numBits bm ->
  drop (Z.to_nat i) (bits bm) = bit bm i :: drop (Z.to_nat (i + 1)) (bits bm).
Proof.
  intros HW Hi. rewrite (drop_S _ (bit bm i) (Z.to_nat i)) by (by apply bit_lookup).
  by replace (Z.to_nat (i + 1)) with (S (Z.to_nat i)) by lia.
Qed.

Lemma take_bits bm i : wf bm -> 0 <= i < numBits bm ->
  take (Z.to_nat (i + 1)) (bits bm) = take (Z.to_nat i) (bits bm) ++ [bit bm i].
Proof.
  intros HW Hi. replace (Z.to_nat (i + 1)) with (S (Z.to_nat i)) by lia.
  by apply take_S_r, bit_lookup.
Qed.

Lemma newBitmap_spec n : 0 < n ->
  exists bm, newBitmap n = Ok bm /\ brel bm (replicate (Z.to_nat n) false) /\ numBits bm = n.
Proof.
  intros Hn. unfold newBitmap. rewrite bool_decide_true by lia. cbn.
  destruct (for_loop_ind (fun _ bm => brel bm (replicate (Z.to_nat n) false) /\ numBits bm = n)
    (Z.to_nat n) 0 (fun i bm => Clear bm i)
    (mkBitmap n (divRoundUp n BitsInWord)
      (replicate (Z.to_nat (divRoundUp n BitsInWord)) 0))) as (bm & E & HB & HN).
  - split; [|done]. split.
    + split; [done|]. split; [done|]. cbn. rewrite length_replicate.
      pose proof (divRoundUp_spec n BitsInWord ltac:(lia) ltac:(done)) as Hd.
      change BitsInWord with 32 in *. split; [lia|]. apply Forall_replicate. unfold is_u32. lia.
    + apply list_eq. intros i. rewrite lookup_bits. cbn. case_decide.
      * rewrite lookup_replicate_2 by lia. f_equal. unfold bit. cbn.
        destruct (replicate _ 0 !! _) eqn:E; cbn; [|by rewrite Z.bits_0].
        apply lookup_replicate in E as [-> _]. by rewrite Z.bits_0.
      * apply lookup_replicate_None. lia.
  - intros i bm Hi [[HW HB] HN]. destruct (Clear_spec bm i) as (bm' & E & HW' & HN' & HB'); [done|lia|].
    exists bm'. split; [done|]. split; [|lia]. split; [done|].
    rewrite HB', <- HB. symmetry. apply list_insert_id. apply lookup_replicate_2. lia.
  - eauto.
Qed.

Lemma findAndSet_loop_spec bm i n :
  wf bm -> 0 <= i -> Z.of_nat n = numBits bm - i ->
  match BitSpec.first_clear (drop (Z.to_nat i) (bits bm)) with
  | Some k => exists bm', findAndSet_loop n i bm = Ok (i + Z.of_nat k, bm') /\ wf bm' /\
      bits bm' = <[Z.to_nat (i + Z.of_nat k) := true]> (bits bm)
  | None => findAndSet_loop n i bm = Ok (-1, bm)
  end.
Proof.
  intros HW. revert i. induction n as [|n IH]; intros i Hi En; cbn [findAndSet_loop].
  - pose proof (length_bits bm HW). rewrite drop_ge by lia. done.
  - rewrite drop_bits, Test_spec by (done || lia). cbn.
    destruct (bit bm i) eqn:Eb; cbn.
    + specialize (IH (i + 1) ltac:(lia) ltac:(lia)).
      destruct (BitSpec.first_clear _) as [k|]; cbn; [|done].
      destruct IH as (bm' & E & HW' & HB). exists bm'.
      replace (i + Z.of_nat (S k)) with (i + 1 + Z.of_nat k) by lia. done.
    + destruct (Mark_spec bm i) as (bm' & -> & HW' & _ & HB); [done|lia|]. cbn.
      exists bm'. rewrite Z.add_0_r. done.
Qed.

Lemma FindAndSet_spec bm bs :
  brel bm bs -> exists bm', FindAndSet bm = Ok ((BitSpec.FindAndSet bs).1, bm') /\
    brel bm' (BitSpec.FindAndSet bs).2.
Proof.
  intros [HW ->]. pose proof (findAndSet_loop_spec bm 0 (Z.to_nat (numBits bm)) HW) as H.
  destruct HW as [Hn HW]. specialize (H ltac:(lia) ltac:(lia)). change (Z.to_nat 0) with 0%nat in H.
  unfold BitSpec.FindAndSet, FindAndSet. rewrite drop_0 in H.
  destruct (BitSpec.first_clear (bits bm)) as [k|]; cbn.
  - destruct H as (bm' & E & HW' & HB). exists bm'. rewrite Z.add_0_l in E, HB. rewrite Nat2Z.id in HB. done.
  - exists bm. done.
Qed.

Lemma filter_snoc_bool (l : list bool) b :
  Z.of_nat (length (filter (fun b => b = false) (l ++ [b]))) =
  Z.of_nat (length (filter (fun b => b = false) l)) + (if b then 0 else 1).
Proof.
  rewrite filter_app, length_app, Nat2Z.inj_add. f_equal. by destruct b.
Qed.

Lemma NumClear_spec bm bs : brel bm bs -> NumClear bm = Ok (BitSpec.NumClear bs).
Proof.
  intros [HW ->]. pose proof (length_bits bm HW). pose proof HW as [Hn _].
  unfold NumClear.
  destruct (for_loop_ind (fun i c => c = BitSpec.NumClear (take (Z.to_nat i) (bits bm)))
    (Z.to_nat (numBits bm)) 0
    (fun i count => t ← Test bm i; Ok (if negb t then count + 1 else count)) 0)
    as (c & E & Hc); [done| |].
  - intros i c Hi ->. rewrite Test_spec by (done || lia). cbn. eexists; split; [done|].
    unfold BitSpec.NumClear. rewrite take_bits, filter_snoc_bool by (done || lia).
    destruct (bit bm i); cbn; lia.
  - rewrite E, Hc. by rewrite take_ge by lia.
Qed.

Lemma print_loop_spec bm i n :
  wf bm -> 0 <= i -> Z.of_nat n = numBits bm - i ->
  print_loop n i bm = Ok (BitSpec.positions i (drop (Z.to_nat i) (bits bm))).
Proof.
  intros HW. revert i. induction n as [|n IH]; intros i Hi En; cbn [print_loop].
  - pose proof (length_bits bm HW). by rewrite drop_ge by lia.
  - rewrite drop_bits, Test_spec by (done || lia). cbn.
    rewrite (IH (i + 1)) by lia. cbn. by destruct (bit bm i).
Qed.

Lemma Print_spec bm bs : brel bm bs -> Print bm = Ok (BitSpec.positions 0 bs).
Proof.
  intros [HW ->]. unfold Print. pose proof HW as [Hn _].
  rewrite print_loop_spec by (done || lia). done.
Qed.

Lemma Test_rel bm bs i : brel bm bs -> Test bm i = BitSpec.Test bs i.
Proof.
  intros [HW ->]. unfold BitSpec.Test. destruct (BitSpec.in_range (bits bm) i) eqn:ER.
  - pose proof ER as HR. apply in_range_true in HR. rewrite length_bits in HR by done.
    rewrite Test_spec by done. cbn. symmetry. apply aget_Ok. split; [lia|by apply bit_lookup].
  - unfold Test. by rewrite range_assert, ER by done.
Qed.

Lemma Mark_rel bm bs i : brel bm bs -> res_rel brel (Mark bm i) (BitSpec.Mark bs i).
Proof.
  intros [HW ->]. unfold BitSpec.Mark. destruct (BitSpec.in_range (bits bm) i) eqn:ER; cbn.
  - apply in_range_true in ER. rewrite length_bits in ER by done.
    destruct (Mark_spec bm i HW ER) as (bm' & E & HW' & _ & HB). exists bm'. done.
  - unfold Mark. by rewrite range_assert, ER by done.
Qed.

Lemma Clear_rel bm bs i : brel bm bs -> res_rel brel (Clear bm i) (BitSpec.Clear bs i).
Proof.
  intros [HW ->]. unfold BitSpec.Clear. destruct (BitSpec.in_range (bits bm) i) eqn:ER; cbn.
  - apply in_range_true in ER. rewrite length_bits in ER by done.
    destruct (Clear_spec bm i HW ER) as (bm' & E & HW' & _ & HB). exists bm'. done.
  - unfold Clear. by rewrite range_assert, ER by done.
Qed.

(** ** The specification of [FindAndSet] *)

Lemma first_clear_Some bs i :
  BitSpec.first_clear bs = Some i <->
  bs !! i = Some false /\ forall j, (j < i)%nat -> bs !! j = Some true.
Proof.
  revert i. induction bs as [|b bs IH]; intros i; cbn; [naive_solver|]. destruct b.
  - destruct i as [|i]; cbn; [split; [|naive_solver]|].
    + intros H. destruct (BitSpec.first_clear bs); done.
    + transitivity (BitSpec.first_clear bs = Some i).
      { destruct (BitSpec.first_clear bs); cbn; naive_solver. }
      rewrite IH. split; intros [H1 H2]; split; try done.
      * intros [|j] Hj; [done|]. apply H2. lia.
      * intros j Hj. apply (H2 (S j)). lia.
  - split.
    + intros [= <-]. split; [done|]. lia.
    + intros [H1 H2]. destruct i as [|i]; [done|].
      specialize (H2 O ltac:(lia)). done.
Qed.

Lemma first_clear_None bs : BitSpec.first_clear bs = None <-> Forall (fun b => b = true) bs.
Proof.
  induction bs as [|[] bs IH]; cbn; [by split|..].
  - rewrite Forall_cons. destruct (BitSpec.first_clear bs); cbn; naive_solver.
  - rewrite Forall_cons. naive_solver.
Qed.

Lemma NumClear_mark bs i : bs !! i = Some false ->
  BitSpec.NumClear (<[i := true]> bs) = BitSpec.NumClear bs - 1.
Proof.
  intros H. unfold BitSpec.NumClear. rewrite <- (take_drop_middle _ _ _ H) at 2.
  rewrite insert_take_drop by (by eapply lookup_lt_Some).
  rewrite !filter_app, !length_app.
  rewrite (filter_cons_False _ true), (filter_cons_True _ false) by done. cbn [length]. lia.
Qed.

Lemma NumClear_replicate n : BitSpec.NumClear (replicate n false) = Z.of_nat n.
Proof.
  unfold BitSpec.NumClear. f_equal. induction n as [|n IH]; [done|].
  rewrite replicate_S, filter_cons_True by done. cbn [length]. by rewrite IH.
Qed.

(** ** Sequences of operations *)

Inductive bit_op : Type :=
| BMark (i : Z) | BClear (i : Z) | BTest (i : Z) | BFindAndSet | BNumClear | BPrint.

Definition impl_op (o : bit_op) (bm : Bitmap) : res (list Z * Bitmap) :=
  match o with
  | BMark i => bm' ← Mark bm i; Ok ([], bm')
  | BClear i => bm' ← Clear bm i; Ok ([], bm')
  | BTest i => t ← Test bm i; Ok ([Z.b2z t], bm)
  | BFindAndSet => '(i, bm') ← FindAndSet bm; Ok ([i], bm')
  | BNumClear => c ← NumClear bm; Ok ([c], bm)
  | BPrint => l ← Print bm; Ok (l, bm)
  end.

Definition spec_op (o : bit_op) (bs : list bool) : res (list Z * list bool) :=
  match o with
  | BMark i => bs' ← BitSpec.Mark bs i; Ok ([], bs')
  | BClear i => bs' ← BitSpec.Clear bs i; Ok ([], bs')
  | BTest i => t ← BitSpec.Test bs i; Ok ([Z.b2z t], bs)
  | BFindAndSet => let '(i, bs') := BitSpec.FindAndSet bs in Ok ([i], bs')
  | BNumClear => Ok ([BitSpec.NumClear bs], bs)
  | BPrint => Ok (BitSpec.positions 0 bs, bs)
  end.

Fixpoint run_bit_ops {S} (op : bit_op -> S -> res (list Z * S)) (ops : list bit_op) (s : S)
    : res (list (list Z) * S) :=
  match ops with
  | [] => Ok ([], s)
  | o :: ops' => '(v, s') ← op o s; '(vs, s'') ← run_bit_ops op ops' s'; Ok (v :: vs, s'')
  end.

Definition out_rel {V} (r : V * Bitmap) (r' : V * list bool) : Prop :=
  r.1 = r'.1 /\ brel r.2 r'.2.

Lemma impl_op_rel o bm bs : brel bm bs -> res_rel out_rel (impl_op o bm) (spec_op o bs).
Proof.
  intros R. destruct o; cbn.
  - eapply res_rel_bind; [by apply Mark_rel|]. intros y x H. by eexists.
  - eapply res_rel_bind; [by apply Clear_rel|]. intros y x H. by eexists.
  - rewrite (Test_rel _ _ _ R). destruct (BitSpec.Test bs i); cbn; try done. by eexists.
  - destruct (FindAndSet_spec bm bs R) as (bm' & -> & R'). cbn.
    destruct (BitSpec.FindAndSet bs). cbn in *. by eexists.
  - rewrite (NumClear_spec _ _ R). cbn. by eexists.
  - rewrite (Print_spec _ _ R). cbn. by eexists.
Qed.

Lemma run_bit_ops_rel ops bm bs :
  brel bm bs -> res_rel out_rel (run_bit_ops impl_op ops bm) (run_bit_ops spec_op ops bs).
Proof.
  revert bm bs. induction ops as [|o ops IH]; intros bm bs R; cbn; [by eexists|].
  eapply res_rel_bind; [by apply impl_op_rel|].
  intros [v bm'] [v' bs'] [Hv R']. cbn in *. subst v'.
  eapply res_rel_bind; [by apply IH|].
  intros [vs bm2] [vs' bs2] [Hvs R2]. cbn in *. subst vs'. by eexists.
Qed.

(** ** The self test *)

(** A loop that writes [v] to every bit. *)
Lemma fill_spec v (op : Bitmap -> Z -> res Bitmap) bm bs :
  (forall b i, wf b -> 0 <= i < numBits b -> exists b', op b i = Ok b' /\ wf b' /\
     numBits b' = numBits b /\ bits b' = <[Z.to_nat i := v]> (bits b)) ->
  brel bm bs ->
  exists bm', for_loop (Z.to_nat (numBits bm)) 0 (fun i bm => op bm i) bm = Ok bm' /\
    brel bm' (replicate (length bs) v) /\ numBits bm' = numBits bm.
Proof.
  intros Hop [HW ->]. pose proof (length_bits bm HW) as HL.
  destruct (for_loop_ind (fun i b => wf b /\ numBits b = numBits bm /\
      take (Z.to_nat i) (bits b) = replicate (Z.to_nat i) v)
    (Z.to_nat (numBits bm)) 0 (fun i bm => op bm i) bm) as (bm' & E & HW' & HN & HB); [done| |].
  - intros i b Hi (HWb & HN & HT). destruct (Hop b i HWb) as (b' & -> & HW' & HN' & HB); [lia|].
    exists b'. split; [done|]. split; [done|]. split; [lia|].
    pose proof (length_bits b HWb).
    replace (Z.to_nat (i + 1)) with (S (Z.to_nat i)) by lia.
    rewrite (take_S_r _ _ v) by (rewrite HB; apply list_lookup_insert_eq; lia).
    rewrite HB, take_insert_ge, HT by lia. by rewrite replicate_S_end.
  - exists bm'. split; [done|]. split; [|done]. split; [done|].
    pose proof (length_bits bm' HW'). rewrite take_ge in HB by lia. rewrite HB. f_equal. lia.
Qed.

Lemma Mark_in bm bs i : brel bm bs -> 0 <= i < Z.of_nat (length bs) ->
  exists bm', Mark bm i = Ok bm' /\ brel bm' (<[Z.to_nat i := true]> bs).
Proof.
  intros R Hi. pose proof (Mark_rel bm bs i R) as H. unfold BitSpec.Mark in H.
  by rewrite (proj2 (in_range_true bs i) Hi) in H.
Qed.

Lemma Clear_in bm bs i : brel bm bs -> 0 <= i < Z.of_nat (length bs) ->
  exists bm', Clear bm i = Ok bm' /\ brel bm' (<[Z.to_nat i := false]> bs).
Proof.
  intros R Hi. pose proof (Clear_rel bm bs i R) as H. unfold BitSpec.Clear in H.
  by rewrite (proj2 (in_range_true bs i) Hi) in H.
Qed.

Lemma Test_in bm bs (i : nat) b : brel bm bs -> bs !! i = Some b -> Test bm (Z.of_nat i) = Ok b.
Proof.
  intros R Hi. rewrite (Test_rel _ _ _ R). unfold BitSpec.Test.
  rewrite (proj2 (in_range_true bs _)) by (apply lookup_lt_Some in Hi; lia).
  cbn. by apply aget_lookup.
Qed.

Lemma FindAndSet_at bm bs (i : nat) :
  brel bm bs -> bs !! i = Some false -> (forall j, (j < i)%nat -> bs !! j = Some true) ->
  exists bm', FindAndSet bm = Ok (Z.of_nat i, bm') /\ brel bm' (<[i := true]> bs).
Proof.
  intros R H1 H2. destruct (FindAndSet_spec bm bs R) as (bm' & E & R').
  unfold BitSpec.FindAndSet in *. rewrite (proj2 (first_clear_Some bs i)) in * by done. eauto.
Qed.

Lemma FindAndSet_full bm n :
  brel bm (replicate n true) -> FindAndSet bm = Ok (-1, bm).
Proof.
  intros R. pose proof R as [HW HB]. unfold FindAndSet.
  pose proof (findAndSet_loop_spec bm 0 (Z.to_nat (numBits bm)) HW) as H.
  pose proof HW as [Hn _]. specialize (H ltac:(lia) ltac:(lia)).
  change (Z.to_nat 0) with 0%nat in H. rewrite drop_0, <- HB in H.
  by rewrite (proj2 (first_clear_None _)) in H by (by apply Forall_replicate).
Qed.

Lemma SelfTest_spec bm n :
  32 <= n -> brel bm (replicate (Z.to_nat n) false) ->
  exists bm', SelfTest bm = Ok bm' /\ brel bm' (replicate (Z.to_nat n) false).
Proof.
  intros Hn R. pose proof R as [HW HB].
  pose proof (length_bits bm HW) as HL. rewrite <- HB, length_replicate in HL.
  unfold SelfTest. rewrite bool_decide_true by (change BitsInWord with 32; lia). cbn.
  rewrite (NumClear_spec _ _ R), NumClear_replicate. cbn. rewrite bool_decide_true by lia. cbn.
  destruct (FindAndSet_at bm _ 0 R) as (b1 & -> & R1); [apply lookup_replicate_2; lia|lia|]. cbn.
  destruct (Mark_in b1 _ 31 R1) as (b2 & -> & R2).
  { rewrite length_insert, length_replicate. lia. }
  cbn. change (Z.to_nat 31) with 31%nat in *.
  set (bs2 := <[31%nat := true]> _) in R2.
  assert (L2 : length bs2 = Z.to_nat n)
    by (unfold bs2; by rewrite !length_insert, length_replicate).
  assert (T0 : Test b2 0 = Ok true).
  { apply (Test_in b2 bs2 0 true R2). unfold bs2. rewrite list_lookup_insert_ne by done.
    apply list_lookup_insert_eq. rewrite length_replicate. lia. }
  assert (T31 : Test b2 31 = Ok true).
  { apply (Test_in b2 bs2 31 true R2). unfold bs2. apply list_lookup_insert_eq.
    rewrite length_insert, length_replicate. lia. }
  rewrite T0, T31.
  cbn. destruct (FindAndSet_at b2 bs2 1 R2) as (b3 & -> & R3).
  { unfold bs2. rewrite !list_lookup_insert_ne by done. apply lookup_replicate_2. lia. }
  { intros j Hj. assert (j = O) as -> by lia. unfold bs2.
    rewrite list_lookup_insert_ne by done. apply list_lookup_insert_eq.
    rewrite length_replicate. lia. }
  cbn. destruct (Clear_in b3 _ 0 R3) as (b4 & -> & R4); [rewrite length_insert; lia|].
  cbn. destruct (Clear_in b4 _ 1 R4) as (b5 & -> & R5); [rewrite !length_insert; lia|].
  cbn. destruct (Clear_in b5 _ 31 R5) as (b6 & -> & R6); [rewrite !length_insert; lia|].
  cbn. destruct (fill_spec true Mark b6 _ Mark_spec R6) as (b7 & -> & R7 & _).
  rewrite !length_insert, L2 in R7. cbn. rewrite (FindAndSet_full b7 _ R7). cbn.
  destruct (fill_spec false Clear b7 _ Clear_spec R7) as (b8 & -> & R8 & _).
  rewrite length_replicate in R8. eauto.
Qed.

(** ** The properties of this component *)

(** C34: the word-and-mask implementation of [Bitmap] refines a list of
    booleans.  Any sequence of [Mark], [Clear], [Test], [FindAndSet],
    [NumClear] and [Print] on [Bitmap(n)] returns the values it returns on [n]
    booleans that start clear, fails an assertion exactly when a bit number is
    out of range, and never leaves the array of words. *)
Theorem bitmap_refinement (n : Z) (Hn : 0 < n) (ops : list bit_op) :
  res_rel out_rel (bm ← newBitmap n; run_bit_ops impl_op ops bm)
    (run_bit_ops spec_op ops (replicate (Z.to_nat n) false)).
Proof.
  destruct (newBitmap_spec n Hn) as (bm & -> & R & _). cbn. by apply run_bit_ops_rel.
Qed.

Lemma bitmap_refinement_witness :
  res_rel out_rel (bm ← newBitmap 40; run_bit_ops impl_op [BMark 0; BFindAndSet; BTest 40] bm)
    (run_bit_ops spec_op [BMark 0; BFindAndSet; BTest 40] (replicate (Z.to_nat 40) false)) /\
  run_bit_ops spec_op [BMark 33; BFindAndSet; BNumClear] (replicate 40 false)
    = Ok ([[]; [0]; [38]], true :: replicate 32 false ++ true :: replicate 6 false).
Proof.
  split; [apply (bitmap_refinement 40); reflexivity|vm_compute; reflexivity].
Defined.

(** Allocation by [FindAndSet].  On a well-formed bitmap it always returns.
    It answers -1 and changes nothing exactly when every bit is set; otherwise
    it answers the lowest clear bit, sets that bit and no other, and [NumClear]
    drops by one. *)
Theorem bitmap_find_and_set (bm : Bitmap) (HW : wf bm) :
  exists i bm', FindAndSet bm = Ok (i, bm') /\ wf bm' /\
    (i = -1 <-> forall j, 0 <= j < numBits bm -> Test bm j = Ok true) /\
    (i = -1 -> bm' = bm) /\
    (i <> -1 -> 0 <= i < numBits bm /\ Test bm i = Ok false /\
       (forall j, 0 <= j < i -> Test bm j = Ok true) /\
       bits bm' = <[Z.to_nat i := true]> (bits bm) /\
       exists c, NumClear bm = Ok c /\ NumClear bm' = Ok (c - 1)).
Proof.
  pose proof HW as [Hn _]. pose proof (length_bits bm HW) as HL.
  pose proof (findAndSet_loop_spec bm 0 (Z.to_nat (numBits bm)) HW) as H.
  specialize (H ltac:(lia) ltac:(lia)).
  change (Z.to_nat 0) with 0%nat in H. rewrite drop_0 in H. unfold FindAndSet.
  destruct (BitSpec.first_clear (bits bm)) as [k|] eqn:Ek.
  - destruct H as (bm' & E & HW' & HB). rewrite Z.add_0_l in *. rewrite Nat2Z.id in HB.
    apply first_clear_Some in Ek as [Hk Hlow].
    pose proof (lookup_lt_Some _ _ _ Hk). pose proof (Test_in bm _ k false (conj HW eq_refl) Hk) as Tk.
    exists (Z.of_nat k), bm'. split; [done|]. split; [done|]. split; [|split; [lia|]].
    + split; [lia|]. intros Hall. rewrite Hall in Tk by lia. done.
    + intros _. split; [lia|]. split; [done|]. split; [|split; [by rewrite Nat2Z.id|]].
      * intros j Hj. rewrite <- (Z2Nat.id j) by lia.
        apply (Test_in bm (bits bm)); [done|]. apply Hlow. lia.
      * exists (BitSpec.NumClear (bits bm)). rewrite (NumClear_spec bm (bits bm)) by done.
        rewrite (NumClear_spec bm' (bits bm')) by done. rewrite HB, NumClear_mark by done. done.
  - exists (-1), bm. split; [done|]. split; [done|]. split; [|done]. split; [|done].
    intros _ j Hj. apply first_clear_None in Ek. rewrite <- (Z2Nat.id j) by lia.
    apply (Test_in bm (bits bm)); [done|].
    destruct (lookup_lt_is_Some_2 (bits bm) (Z.to_nat j)) as [b Hb]; [lia|].
    rewrite Hb. f_equal. by apply (Forall_lookup_1 _ _ _ _ Ek Hb).
Qed.

Lemma bitmap_find_and_set_witness :
  exists i bm', FindAndSet (mkBitmap 34 2 [4294967295; 1]) = Ok (i, bm') /\ wf bm'.
Proof.
  destruct (bitmap_find_and_set (mkBitmap 34 2 [4294967295; 1])) as (i & bm' & E & HW & _).
  - split; [done|]. split; [done|]. split; [done|].
    repeat constructor; unfold is_u32; lia.
  - exists i, bm'. split; [exact E|exact HW].
Defined.

(** The self test of the module passes on a fresh bitmap of at least one
    word and leaves it empty; the constructor itself never fails for a positive
    number of bits. *)
Theorem bitmap_self_test (n : Z) (Hn : 32 <= n) :
  exists bm bm', newBitmap n = Ok bm /\ SelfTest bm = Ok bm' /\
    brel bm' (replicate (Z.to_nat n) false).
Proof.
  destruct (newBitmap_spec n ltac:(lia)) as (bm & E & R & _).
  destruct (SelfTest_spec bm n Hn R) as (bm' & E' & R'). eauto.
Qed.

Lemma bitmap_self_test_witness :
  exists bm bm', newBitmap 128 = Ok bm /\ SelfTest bm = Ok bm' /\
    brel bm' (replicate (Z.to_nat 128) false).
Proof. apply (bitmap_self_test 128). lia. Defined.
