(* ===== verification/Bytes.v ===== *)
(** * Bytes: regions of memory, little-endian words and UNIX files

    Shared by the simulated memory (machine/translate.cc), the [FILESYS_STUB]
    files (filesys/openfile.h, which call UNIX through lib/sysdep.cc) and the
    simulated disk. *)

From S2P Require Import Prelude.

(** ** Regions of an array of bytes *)

(** [n] bytes of [m] from [addr] on; outside the array the access is undefined. *)
Definition mem_read (m : list Z) (addr : Z) (n : nat) : res (list Z) :=
  if bool_decide (0 <= addr /\ addr + Z.of_nat n <= Z.of_nat (length m))
  then Ok (take n (drop (Z.to_nat addr) m)) else Undef.

Definition splice (m : list Z) (pos : nat) (bs : list Z) : list Z :=
  take pos m ++ bs ++ drop (pos + length bs) m.

Definition mem_write (m : list Z) (addr : Z) (bs : list Z) : res (list Z) :=
  if bool_decide (0 <= addr /\ addr + Z.of_nat (length bs) <= Z.of_nat (length m))
  then Ok (splice m (Z.to_nat addr) bs) else Undef.

(** ** Multi-byte words *)

Fixpoint le_combine (bs : list Z) : Z :=
  match bs with [] => 0 | b :: bs' => b + 256 * le_combine bs' end.

Fixpoint le_split (n : nat) (w : Z) : list Z :=
  match n with O => [] | S n' => w mod 256 :: le_split n' (w / 256) end.

Definition is_byte (b : Z) : Prop := 0 <= b < 256.

(** An [int] in the memory of the host. *)
Definition host_bytes (big : bool) (w : Z) : list Z :=
  (if big then rev (le_split 4 (u32 w)) else le_split 4 (u32 w)).
Definition host_int (big : bool) (bs : list Z) : Z :=
  i32 (le_combine (if big then rev bs else bs)).

(** ** UNIX files, as the stub [OpenFile] uses them *)

(** [Lseek(file, position, 0); ReadPartial(file, into, numBytes)]: what is read,
    possibly less than asked. *)
Definition unix_ReadAt (f : list Z) (numBytes : nat) (position : Z) : res (list Z) :=
  _ ← ASSERT (bool_decide (position >= 0));
  Ok (take numBytes (drop (Z.to_nat position) f)).

(** [Lseek(file, position, 0); WriteFile(file, from, numBytes)]: a hole before
    [position] reads as zeros. *)
Definition unix_WriteAt (f : list Z) (bs : list Z) (position : Z) : res (list Z) :=
  _ ← ASSERT (bool_decide (position >= 0));
  let pos := Z.to_nat position in
  let f' := f ++ replicate (pos - length f) 0 in
  Ok (take pos f' ++ bs ++ drop (pos + length bs) f').

(** ** Lemmas *)

Lemma length_splice m pos bs :
  (pos + length bs <= length m)%nat -> length (splice m pos bs) = length m.
Proof. intros H. unfold splice. rewrite !length_app, length_take, length_drop. lia. Qed.

Lemma lookup_splice_in m pos bs i :
  (pos + length bs <= length m)%nat -> (pos <= i < pos + length bs)%nat ->
  splice m pos bs !! i = bs !! (i - pos)%nat.
Proof.
  intros H Hi. unfold splice. rewrite lookup_app_r; rewrite length_take; [|lia].
  rewrite lookup_app_l by lia. f_equal. lia.
Qed.

Lemma lookup_splice_out m pos bs i :
  (pos + length bs <= length m)%nat -> ~ (pos <= i < pos + length bs)%nat ->
  splice m pos bs !! i = m !! i.
Proof.
  intros H Hi. unfold splice. destruct (decide (i < pos)%nat).
  - rewrite lookup_app_l by (rewrite length_take; lia). by rewrite lookup_take_lt.
  - rewrite !lookup_app_r; rewrite ?length_take; try lia.
    rewrite lookup_drop. f_equal. lia.
Qed.

Lemma mem_read_write m addr bs m' :
  mem_write m addr bs = Ok m' -> mem_read m' addr (length bs) = Ok bs.
Proof.
  unfold mem_write, mem_read. case_bool_decide as H; [|done]. intros E. injection E as <-.
  rewrite length_splice by lia. rewrite bool_decide_true by lia. f_equal.
  unfold splice. rewrite drop_app_length' by (rewrite length_take; lia).
  by rewrite take_app_length.
Qed.

Lemma mem_write_length m addr bs m' :
  mem_write m addr bs = Ok m' -> length m' = length m.
Proof.
  unfold mem_write. case_bool_decide; [|done]. intros E. injection E as <-.
  apply length_splice. lia.
Qed.

Lemma mem_write_out m addr bs m' i :
  mem_write m addr bs = Ok m' -> ~ (addr <= Z.of_nat i < addr + Z.of_nat (length bs)) ->
  m' !! i = m !! i.
Proof.
  unfold mem_write. case_bool_decide; [|done]. intros E Hi. injection E as <-.
  apply lookup_splice_out; lia.
Qed.

Lemma mem_write_Forall P m addr bs m' :
  mem_write m addr bs = Ok m' -> Forall P m -> Forall P bs -> Forall P m'.
Proof.
  unfold mem_write. case_bool_decide; [|done]. intros E Hm Hb. injection E as <-.
  unfold splice. apply Forall_app_2; [by apply Forall_take|].
  apply Forall_app_2; [done|by apply Forall_drop].
Qed.

Lemma length_le_split n w : length (le_split n w) = n.
Proof. revert w. induction n; intros; cbn; auto. Qed.

Lemma le_combine_split n w : le_combine (le_split n w) = w mod 256 ^ Z.of_nat n.
Proof.
  revert w. induction n as [|n IH]; intros w; cbn [le_combine le_split].
  - by rewrite Z.mod_1_r.
  - rewrite IH, Nat2Z.inj_succ, Z.pow_succ_r by lia.
    rewrite Z.rem_mul_r by lia. lia.
Qed.

Lemma le_split_combine bs : Forall is_byte bs -> le_split (length bs) (le_combine bs) = bs.
Proof.
  induction 1 as [|b bs Hb _ IH]; cbn [le_combine le_split length]; [done|].
  unfold is_byte in Hb. f_equal.
  - rewrite (Z.mul_comm 256), Z_mod_plus_full. by apply Z.mod_small.
  - rewrite (Z.mul_comm 256), Z.div_add, (Z.div_small b), Z.add_0_l by lia. done.
Qed.

Lemma le_combine_range bs :
  Forall is_byte bs -> 0 <= le_combine bs < 256 ^ Z.of_nat (length bs).
Proof.
  induction 1 as [|b bs Hb _ IH]; cbn [le_combine length]; [cbn; lia|].
  unfold is_byte in Hb. rewrite Nat2Z.inj_succ, Z.pow_succ_r by lia. lia.
Qed.

Lemma le_split_bytes n w : Forall is_byte (le_split n w).
Proof.
  revert w. induction n as [|n IH]; intros w; cbn; constructor; [|done].
  unfold is_byte. apply Z.mod_pos_bound. lia.
Qed.

Lemma host_bytes_length big w : length (host_bytes big w) = 4%nat.
Proof. unfold host_bytes. destruct big; [rewrite length_rev|]; apply length_le_split. Qed.

Lemma host_int_bytes_i32 big w : host_int big (host_bytes big w) = i32 w.
Proof.
  unfold host_int, host_bytes.
  replace (if big then rev (if big then rev (le_split 4 (u32 w)) else le_split 4 (u32 w))
           else if big then rev (le_split 4 (u32 w)) else le_split 4 (u32 w)) with (le_split 4 (u32 w))
    by (destruct big; [by rewrite rev_involutive|done]).
  rewrite le_combine_split. change (256 ^ Z.of_nat 4) with 4294967296. fold (u32 (u32 w)). by rewrite !i32_u32.
Qed.

Lemma host_int_bytes big w : is_i32 w -> host_int big (host_bytes big w) = w.
Proof. intros Hw. rewrite host_int_bytes_i32. by apply i32_id. Qed.

Lemma host_int_app big w l : is_i32 w -> host_int big (take 4 (host_bytes big w ++ l)) = w.
Proof.
  intros Hw. rewrite take_app_length' by (by rewrite host_bytes_length). by apply host_int_bytes.
Qed.

Lemma drop_host big w l n : drop (4 + n) (host_bytes big w ++ l) = drop n l.
Proof. rewrite <- (host_bytes_length big w). apply drop_app_add. Qed.

Lemma mem_read_ok m a n : 0 <= a -> a + Z.of_nat n <= Z.of_nat (length m) ->
  mem_read m a n = Ok (take n (drop (Z.to_nat a) m)).
Proof. intros H1 H2. unfold mem_read. by rewrite bool_decide_true. Qed.

Lemma mem_write_ok m a bs : 0 <= a -> a + Z.of_nat (length bs) <= Z.of_nat (length m) ->
  mem_write m a bs = Ok (splice m (Z.to_nat a) bs).
Proof. intros H1 H2. unfold mem_write. by rewrite bool_decide_true. Qed.

Lemma splice_nil m p : splice m p [] = m.
Proof. unfold splice. cbn. by rewrite Nat.add_0_r, take_drop. Qed.

#[export] Hint Resolve le_split_bytes length_le_split : nachos.
