(* ===== verification/Text.v ===== *)
(** * Numbers in text

    [sprintf] and [atoi] of the C library, as threads/thread.cc, userprog/addrspace.cc
    and the command line use them.  A C string is the list of its bytes with a zero
    behind it. *)

From S2P Require Import Prelude Bytes.

(** ** C strings *)

(** The C string at the start of some bytes. *)
Fixpoint c_str (bs : list Z) : res (list Z) :=
  match bs with [] => Undef | c :: bs' => if bool_decide (c = 0) then Ok [] else r ← c_str bs'; Ok (c :: r) end.

Lemma c_str_ok l tail : 0 ∉ l -> c_str (l ++ 0 :: tail) = Ok l.
Proof.
  induction l as [|c l IH]; intros Hl; cbn [app c_str]; [done|]. apply not_elem_of_cons in Hl as [Hc Hl].
  rewrite bool_decide_false by congruence. by rewrite IH.
Qed.

(** ** Decimal numbers in a buffer *)

Fixpoint digits (fuel : nat) (x : Z) : list Z :=
  match fuel with
  | O => []
  | S fuel' => (if bool_decide (x < 10) then [] else digits fuel' (x / 10)) ++ [48 + x mod 10]
  end.

(** The text of ["%d"]; ten digits are enough for an [int]. *)
Definition decimal (x : Z) : list Z :=
  if bool_decide (x < 0) then 45 :: digits 10 (- x) else digits 10 x.

(** [sprintf(buf, "%d", x)] *)
Definition sprintf_d (buf : list Z) (x : Z) : res (list Z) := mem_write buf 0 (decimal x ++ [0]).

(** [atoi(buf)]; a number that runs to the end of the buffer is read past it. *)
Fixpoint atoi_digits (acc : Z) (bs : list Z) : res Z :=
  match bs with
  | [] => Undef
  | b :: bs' =>
      if bool_decide (48 <= b <= 57) then atoi_digits (10 * acc + (b - 48)) bs' else Ok acc
  end.

Definition atoi_sign (bs : list Z) : res Z :=
  match bs with
  | 45 :: bs' => x ← atoi_digits 0 bs'; Ok (- x)
  | 43 :: bs' => atoi_digits 0 bs'
  | _ => atoi_digits 0 bs
  end.

Fixpoint atoi_text (bs : list Z) : res Z :=
  match bs with
  | b :: bs' =>
      if bool_decide (b = 32) || bool_decide (9 <= b <= 13) then atoi_text bs' else atoi_sign bs
  | [] => Undef
  end.

Definition atoi (bs : list Z) : res Z :=
  x ← atoi_text bs; if bool_decide (int_min <= x <= int_max) then Ok x else Undef.


(** ** Lemmas *)

Definition is_digit (b : Z) : Prop := 48 <= b <= 57.

Lemma digits_are n x : Forall is_digit (digits n x).
Proof.
  revert x. induction n as [|n IH]; intros x; cbn [digits]; [done|].
  apply Forall_app_2; [by case_bool_decide|]. constructor; [|done]. unfold is_digit. zlia.
Qed.

Lemma atoi_digits_eq n x acc l :
  0 <= x < 10 ^ Z.of_nat n ->
  atoi_digits acc (digits n x ++ l) = atoi_digits (acc * 10 ^ Z.of_nat (length (digits n x)) + x) l.
Proof.
  revert x acc l. induction n as [|n IH]; intros x acc l Hx.
  { cbn -[Z.pow Z.of_nat] in *. change (10 ^ Z.of_nat 0) with 1 in *. f_equal. lia. }
  rewrite Nat2Z.inj_succ, Z.pow_succ_r in Hx by lia. cbn [digits]. rewrite <- app_assoc.
  assert (HD : 48 <= 48 + x mod 10 <= 57) by zlia.
  assert (E : forall a, atoi_digits a ([48 + x mod 10] ++ l) = atoi_digits (10 * a + x mod 10) l).
  { intros a. cbn [app atoi_digits]. rewrite bool_decide_true by exact HD. f_equal. lia. }
  case_bool_decide as H10; cbn [app].
  - change ((48 + x mod 10) :: l) with ([48 + x mod 10] ++ l). rewrite E. cbn [length].
    rewrite Z.mod_small by lia. f_equal. change (10 ^ Z.of_nat 1) with 10. lia.
  - rewrite IH by zlia. change ((48 + x mod 10) :: l) with ([48 + x mod 10] ++ l). rewrite E, length_app.
    cbn [length]. rewrite Nat2Z.inj_add, Z.pow_add_r by lia. change (10 ^ Z.of_nat 1) with 10.
    f_equal. pose proof (Z.div_mod x 10). lia.
Qed.

Lemma length_digits n k x :
  0 <= x < 10 ^ Z.of_nat (S k) -> (length (digits n x) <= S k)%nat.
Proof.
  revert k x. induction n as [|n IH]; intros k x Hx; cbn [digits]; [cbn; lia|].
  rewrite length_app. cbn [length]. case_bool_decide; cbn [length]; [lia|].
  rewrite Nat2Z.inj_succ, Z.pow_succ_r in Hx by lia. destruct k as [|k].
  - change (10 ^ Z.of_nat 0) with 1 in Hx. lia.
  - specialize (IH k (x / 10)). enough (length (digits n (x / 10)) <= S k)%nat by lia. apply IH. zlia.
Qed.

Lemma digits_nonempty n x : exists d ds, digits (S n) x = d :: ds /\ is_digit d.
Proof.
  pose proof (digits_are (S n) x) as HD. destruct (digits (S n) x) as [|d ds] eqn:Ed.
  - apply (f_equal length) in Ed. cbn [digits] in Ed. rewrite length_app in Ed. cbn in Ed. lia.
  - apply Forall_cons in HD as [Hd _]. by exists d, ds.
Qed.

(** A digit is neither a sign nor white space. *)
Lemma atoi_sign_digit d l : is_digit d -> atoi_sign (d :: l) = atoi_digits 0 (d :: l).
Proof.
  intros Hd. unfold is_digit in Hd. unfold atoi_sign. destruct d as [|p|p]; try done. do 6 (destruct p as [p|p|]; try done); lia.
Qed.

Lemma atoi_digits_end x l : 0 <= x < 10000000000 -> atoi_digits 0 (digits 10 x ++ 0 :: l) = Ok x.
Proof. intros Hx. rewrite atoi_digits_eq by (change (10 ^ Z.of_nat 10) with 10000000000; lia). done. Qed.

Lemma atoi_text_decimal x l : is_i32 x -> atoi_text (decimal x ++ 0 :: l) = Ok x.
Proof.
  unfold is_i32, int_min, int_max, decimal. intros Hx. case_bool_decide as Hn.
  - cbn [app atoi_text]. rewrite bool_decide_false, bool_decide_false by lia. cbn [orb atoi_sign].
    rewrite atoi_digits_end by lia. cbn [mbind res_bind]. f_equal. lia.
  - rewrite <- (atoi_digits_end x l) by lia. destruct (digits_nonempty 9 x) as (d & ds & -> & Hd). cbn [app atoi_text].
    pose proof Hd as Hd'. unfold is_digit in Hd'. rewrite bool_decide_false, bool_decide_false by lia. by apply atoi_sign_digit.
Qed.

Lemma digits_decimal x : 0 <= x -> decimal x = digits 10 x.
Proof. intros Hx. unfold decimal. by rewrite bool_decide_false by lia. Qed.

(** [atoi] reads back what ["%d"] prints. *)
Lemma atoi_decimal x l : is_i32 x -> atoi (decimal x ++ 0 :: l) = Ok x.
Proof. intros Hx. unfold atoi. rewrite atoi_text_decimal by exact Hx. cbn [mbind res_bind]. by rewrite bool_decide_true. Qed.
