(* ===== verification/Machine.v ===== *)
(** * machine/machine.cc, machine/translate.cc, userprog/exception.cc: the
    simulated memory system

    The state of the class [Machine] (registers, main memory, TLB, page table,
    frame bitmap) together with the pieces of kernel state its routines reach:
    the running thread's id, its executable and its VM swap file, the
    statistics counters and the machine status.  Every [#ifdef] of the build
    ([USE_TLB], [USE_RPT], [FIFO_REPLACE], [LRU_REPLACE],
    [HOST_IS_BIG_ENDIAN]) is a field of [Config]. *)

From S2P Require Import Prelude Bytes Bitmap.

(** ** Data *)

Record Config : Type := mkConfig {
  USE_TLB : bool; USE_RPT : bool; FIFO_REPLACE : bool; LRU_REPLACE : bool;
  HOST_IS_BIG_ENDIAN : bool }.

Definition PageSize : Z := 128.
Definition NumPhysPages : Z := 128.
Definition MemorySize : Z := NumPhysPages * PageSize.
Definition TLBSize : Z := 3.

Inductive ExceptionType : Type :=
| NoException | SyscallException | PageFaultException | TLBMissException
| ReadOnlyException | BusErrorException | AddressErrorException
| OverflowException | IllegalInstrException.

#[global] Instance ExceptionType_eq_dec : EqDecision ExceptionType.
Proof. solve_decision. Defined.

Inductive MachineStatus : Type := IdleMode | SystemMode | UserMode.

Definition StackReg : Z := 29.
Definition RetAddrReg : Z := 31.
Definition NumGPRegs : Z := 32.
Definition HiReg : Z := 32.
Definition LoReg : Z := 33.
Definition PCReg : Z := 34.
Definition NextPCReg : Z := 35.
Definition PrevPCReg : Z := 36.
Definition LoadReg : Z := 37.
Definition LoadValueReg : Z := 38.
Definition BadVAddrReg : Z := 39.
Definition NumTotalRegs : Z := 40.

Record TranslationEntry : Type := mkEntry {
  vpn : Z; tID : Z; ppn : Z; valid : bool; readOnly : bool; use : bool; dirty : bool;
  FIFOFlag : Z; LRUFlag : Z }.

Definition reset_entry : TranslationEntry :=
  mkEntry (-1) (-1) (-1) false false false false (-1) (-1).

Definition set_valid (e : TranslationEntry) (b : bool) : TranslationEntry :=
  mkEntry (vpn e) (tID e) (ppn e) b (readOnly e) (use e) (dirty e) (FIFOFlag e) (LRUFlag e).
Definition set_FIFOFlag (e : TranslationEntry) (f : Z) : TranslationEntry :=
  mkEntry (vpn e) (tID e) (ppn e) (valid e) (readOnly e) (use e) (dirty e) f (LRUFlag e).
Definition set_LRUFlag (e : TranslationEntry) (f : Z) : TranslationEntry :=
  mkEntry (vpn e) (tID e) (ppn e) (valid e) (readOnly e) (use e) (dirty e) (FIFOFlag e) f.

(** [tlb] and [pt] are NULL ([None]) in the builds that do not use them. *)
Record Machine : Type := mkMachine {
  registers : list Z;
  mainMemory : list Z;
  tlb : option (list TranslationEntry);
  pt : option (list TranslationEntry);
  pageTableSize : Z;
  mmBitmap : BitmapImpl.Bitmap;
  currentTID : Z;
  executable : list Z;
  codeInFileAddr : Z;
  vmFile : option (list Z);
  numAddressTranslation : Z;
  numPageFaults : Z;
  numTLBMiss : Z;
  status : MachineStatus }.

Definition with_registers (m : Machine) (r : list Z) : Machine :=
  mkMachine r (mainMemory m) (tlb m) (pt m) (pageTableSize m) (mmBitmap m) (currentTID m)
    (executable m) (codeInFileAddr m) (vmFile m) (numAddressTranslation m) (numPageFaults m)
    (numTLBMiss m) (status m).
Definition with_memory (m : Machine) (x : list Z) : Machine :=
  mkMachine (registers m) x (tlb m) (pt m) (pageTableSize m) (mmBitmap m) (currentTID m)
    (executable m) (codeInFileAddr m) (vmFile m) (numAddressTranslation m) (numPageFaults m)
    (numTLBMiss m) (status m).
Definition with_tlb (m : Machine) (x : option (list TranslationEntry)) : Machine :=
  mkMachine (registers m) (mainMemory m) x (pt m) (pageTableSize m) (mmBitmap m) (currentTID m)
    (executable m) (codeInFileAddr m) (vmFile m) (numAddressTranslation m) (numPageFaults m)
    (numTLBMiss m) (status m).
Definition with_pt (m : Machine) (x : option (list TranslationEntry)) : Machine :=
  mkMachine (registers m) (mainMemory m) (tlb m) x (pageTableSize m) (mmBitmap m) (currentTID m)
    (executable m) (codeInFileAddr m) (vmFile m) (numAddressTranslation m) (numPageFaults m)
    (numTLBMiss m) (status m).
Definition with_bitmap (m : Machine) (x : BitmapImpl.Bitmap) : Machine :=
  mkMachine (registers m) (mainMemory m) (tlb m) (pt m) (pageTableSize m) x (currentTID m)
    (executable m) (codeInFileAddr m) (vmFile m) (numAddressTranslation m) (numPageFaults m)
    (numTLBMiss m) (status m).
Definition with_vmFile (m : Machine) (x : option (list Z)) : Machine :=
  mkMachine (registers m) (mainMemory m) (tlb m) (pt m) (pageTableSize m) (mmBitmap m)
    (currentTID m) (executable m) (codeInFileAddr m) x (numAddressTranslation m)
    (numPageFaults m) (numTLBMiss m) (status m).
Definition with_counters (m : Machine) (tr pf tm : Z) : Machine :=
  mkMachine (registers m) (mainMemory m) (tlb m) (pt m) (pageTableSize m) (mmBitmap m)
    (currentTID m) (executable m) (codeInFileAddr m) (vmFile m) tr pf tm (status m).
Definition with_status (m : Machine) (x : MachineStatus) : Machine :=
  mkMachine (registers m) (mainMemory m) (tlb m) (pt m) (pageTableSize m) (mmBitmap m)
    (currentTID m) (executable m) (codeInFileAddr m) (vmFile m) (numAddressTranslation m)
    (numPageFaults m) (numTLBMiss m) x.

(** A dereference of the arrays behind [tlb] and [pt]. *)
Definition arr (t : option (list TranslationEntry)) : res (list TranslationEntry) :=
  match t with Some l => Ok l | None => Undef end.

(** ** Control

    A trap to the kernel comes back to the user program, halts the machine
    ([SysHalt]), or ends the thread ([Finish], which never returns to its
    caller). *)
Inductive ctl (A : Type) : Type :=
| Ret (a : A) (m : Machine)
| Halted (m : Machine)
| ThreadFinished (m : Machine).
Arguments Ret {A} a m.
Arguments Halted {A} m.
Arguments ThreadFinished {A} m.

(** ** Registers *)

Definition getReg (m : Machine) (i : Z) : res Z := aget (registers m) i.
Definition setReg (m : Machine) (i v : Z) : res Machine :=
  r ← aset (registers m) i v; Ok (with_registers m r).

Definition ReadRegister (m : Machine) (num : Z) : res Z :=
  _ ← ASSERT (bool_decide (num >= 0) && bool_decide (num < NumTotalRegs)); getReg m num.

Definition WriteRegister (m : Machine) (num value : Z) : res Machine :=
  _ ← ASSERT (bool_decide (num >= 0) && bool_decide (num < NumTotalRegs)); setReg m num value.

Definition DelayedLoad (m : Machine) (nextReg nextValue : Z) : res Machine :=
  r ← getReg m LoadReg; v ← getReg m LoadValueReg;
  m ← setReg m r v;
  m ← setReg m LoadReg nextReg;
  m ← setReg m LoadValueReg nextValue;
  setReg m 0 0.

(** ** Page replacement (machine.cc) *)

Definition findAvailablePageFrame (m : Machine) : res (Z * Machine) :=
  '(resBit, bm) ← BitmapImpl.FindAndSet (mmBitmap m); Ok (resBit, with_bitmap m bm).

(** [type] 0 is the page table, 1 the TLB. *)
Definition replace_len (cfg : Config) (m : Machine) (type : Z) : Z :=
  if decide (type = 1) then TLBSize
  else if USE_RPT cfg then NumPhysPages else pageTableSize m.

Definition replace_step (cfg : Config) (t : list TranslationEntry) (i : Z) (s : Z * Z)
    : res (Z * Z) :=
  s ← (if FIFO_REPLACE cfg then
         e ← aget t i; Ok (if bool_decide (s.1 > FIFOFlag e) then (FIFOFlag e, i) else s)
       else Ok s);
  if LRU_REPLACE cfg then
    e ← aget t i; Ok (if bool_decide (s.1 > LRUFlag e) then (LRUFlag e, i) else s)
  else Ok s.

Definition findOneToReplace (cfg : Config) (m : Machine) (t : list TranslationEntry) (type : Z)
    : res Z :=
  s ← for_loop (Z.to_nat (replace_len cfg m type)) 0 (replace_step cfg t) (int_max, 0);
  Ok s.2.

(** The loop of [updateFIFOFlag] and [updateLRUFlag]: the greatest flag of the
    other valid entries. *)
Definition max_flag (flag : TranslationEntry -> Z) (t : list TranslationEntry) (pos len : Z)
    : res Z :=
  for_loop (Z.to_nat len) 0 (fun i num =>
    e ← aget t i;
    Ok (if valid e && negb (bool_decide (i = pos)) then
          (if bool_decide (num >= flag e) then num else flag e)
        else num)) (-1).

Definition updateFIFOFlag (t : list TranslationEntry) (pos len : Z)
    : res (list TranslationEntry) :=
  num ← max_flag FIFOFlag t pos len;
  e ← aget t pos; aset t pos (set_FIFOFlag e (i32 (num + 1))).

Definition updateLRUFlag (t : list TranslationEntry) (pos len : Z)
    : res (list TranslationEntry) :=
  num ← max_flag LRUFlag t pos len;
  e ← aget t pos; aset t pos (set_LRUFlag e (i32 (num + 1))).

(** The first index from [i] on, among [n], whose entry satisfies [p]. *)
Fixpoint find_entry (n : nat) (i : Z) (p : TranslationEntry -> bool)
    (t : list TranslationEntry) : res (option Z) :=
  match n with
  | O => Ok None
  | S n' => e ← aget t i; if p e then Ok (Some i) else find_entry n' (i + 1) p t
  end.

Definition updateTLB (cfg : Config) (m : Machine) (t : list TranslationEntry)
    (entry : TranslationEntry) : res (list TranslationEntry) :=
  free ← find_entry (Z.to_nat TLBSize) 0 (fun e => negb (valid e)) t;
  i ← match free with Some i => Ok i | None => findOneToReplace cfg m t 1 end;
  t' ← aset t i entry;
  if FIFO_REPLACE cfg then updateFIFOFlag t' i TLBSize else Ok t'.

(** ** Page tables (translate.cc) *)

(** The build with one page table per address space: a page that was evicted
    ([ppn] set, [valid] clear) is swapped with the page that holds its frame. *)
Definition swap_in (m : Machine) (t : list TranslationEntry) (v : Z) (e : TranslationEntry)
    : res Machine :=
  exec ← match vmFile m with Some f => Ok f | None => Undef end;
  j ← find_entry (Z.to_nat (pageTableSize m)) 0
        (fun e' => valid e' && bool_decide (ppn e' = ppn e)) t;
  '(t1, f1) ←
    match j with
    | Some j =>
        page ← mem_read (mainMemory m) (ppn e * PageSize) (Z.to_nat PageSize);
        f1 ← unix_WriteAt exec page (j * PageSize);
        ej ← aget t j; t1 ← aset t j (set_valid ej false); Ok (t1, f1)
    | None => Ok (t, exec)
    end;
  ev ← aget t1 v; t2 ← aset t1 v (set_valid ev true);
  data ← unix_ReadAt f1 (Z.to_nat PageSize) (v * PageSize);
  mem ← mem_write (mainMemory m) (ppn e * PageSize) data;
  Ok (with_vmFile (with_memory (with_pt m (Some t2)) mem) (Some f1)).

Definition pageTableTranslation (cfg : Config) (m : Machine) (v virtAddr : Z)
    : res (ExceptionType * (Z * TranslationEntry) * Machine) :=
  t ← arr (pt m);
  if USE_RPT cfg then
    found ← find_entry (Z.to_nat NumPhysPages) 0
      (fun e => bool_decide (vpn e = v) && bool_decide (tID e = currentTID m)) t;
    match found with
    | Some i => e ← aget t i; Ok (NoException, (i, e), m)
    | None => Ok (PageFaultException, (0, reset_entry), m)
    end
  else if bool_decide (v >= pageTableSize m) then
    Ok (AddressErrorException, (0, reset_entry), m)
  else
    e ← aget t v;
    if negb (valid e) then
      if bool_decide (ppn e <> -1) then
        m' ← swap_in m t v e;
        t' ← arr (pt m'); e' ← aget t' v; Ok (NoException, (ppn e', e'), m')
      else Ok (PageFaultException, (0, reset_entry), m)
    else Ok (NoException, (ppn e, e), m).

(** [Thread::loadPageFrame] (threads/thread.cc), for the running thread. *)
Definition loadPageFrame (cfg : Config) (m : Machine) (v p fileAddr : Z) : res Machine :=
  t ← arr (pt m);
  m ← (if USE_RPT cfg then
         e ← aget t p;
         t1 ← aset t p (mkEntry v (currentTID m) p true (readOnly e) (use e) (dirty e)
                          (FIFOFlag e) (LRUFlag e));
         t2 ← (if FIFO_REPLACE cfg then updateFIFOFlag t1 p NumPhysPages else Ok t1);
         Ok (with_pt m (Some t2))
       else
         e ← aget t v;
         t1 ← aset t v (mkEntry v (tID e) p true (readOnly e) (use e) (dirty e)
                          (FIFOFlag e) (LRUFlag e));
         t2 ← (if FIFO_REPLACE cfg then updateFIFOFlag t1 v (pageTableSize m) else Ok t1);
         let m1 := with_pt m (Some t2) in
         if dirty e then
           exec ← match vmFile m with Some f => Ok f | None => Undef end;
           page ← mem_read (mainMemory m) (p * PageSize) (Z.to_nat PageSize);
           f1 ← unix_WriteAt exec page (v * PageSize);
           Ok (with_vmFile m1 (Some f1))
         else Ok m1);
  data ← unix_ReadAt (executable m) (Z.to_nat PageSize) fileAddr;
  mem ← mem_write (mainMemory m) (p * PageSize) data;
  Ok (with_memory m mem).

(** ** The exception handler (exception.cc) *)

Definition SC_Halt : Z := 0.
Definition SC_Exit : Z := 1.
Definition SC_Add : Z := 42.

Definition SysAdd (op1 op2 : Z) : Z := i32 (op1 + op2).

(** The clean-up of [SC_Exit] before [Finish]. *)
Definition exit_rpt (m : Machine) : res Machine :=
  t ← arr (pt m);
  '(bm, t') ← for_loop (Z.to_nat NumPhysPages) 0 (fun i '(bm, t) =>
      e ← aget t i;
      if bool_decide (tID e = currentTID m) then
        bm' ← BitmapImpl.Clear bm i; t' ← aset t i reset_entry; Ok (bm', t')
      else Ok (bm, t)) (mmBitmap m, t);
  let tlb' := match tlb m with
    | Some l => Some (map (fun e => if bool_decide (tID e = currentTID m)
                                    then reset_entry else e) l)
    | None => None end in
  Ok (with_tlb (with_pt (with_bitmap m bm) (Some t')) tlb').

Definition exit_pt (m : Machine) : res Machine :=
  t ← arr (pt m);
  bm ← for_loop (Z.to_nat (pageTableSize m)) 0 (fun i bm =>
      e ← aget t i; if valid e then BitmapImpl.Clear bm (ppn e) else Ok bm) (mmBitmap m);
  let tlb' := match tlb m with Some l => Some (map (fun _ => reset_entry) l) | None => None end in
  Ok (with_tlb (with_bitmap (with_vmFile m None) bm) tlb').

Definition sys_add (m : Machine) : res Machine :=
  op1 ← ReadRegister m 4; op2 ← ReadRegister m 5;
  m ← WriteRegister m 2 (SysAdd op1 op2);
  pc ← ReadRegister m PCReg; m ← WriteRegister m PrevPCReg pc;
  pc ← ReadRegister m PCReg; m ← WriteRegister m PCReg (i32 (pc + 4));
  pc ← ReadRegister m PCReg; WriteRegister m NextPCReg (i32 (pc + 4)).

Definition page_fault (cfg : Config) (m : Machine) : res Machine :=
  let m := with_counters m (numAddressTranslation m) (numPageFaults m + 1) (numTLBMiss m) in
  vaddr ← ReadRegister m BadVAddrReg;
  let v := Z.quot vaddr PageSize in
  '(frame, m) ← findAvailablePageFrame m;
  avaiPageFrame ←
    (if bool_decide (frame = -1) then t ← arr (pt m); findOneToReplace cfg m t 0 else Ok frame);
  loadPageFrame cfg m v avaiPageFrame (codeInFileAddr m + v * PageSize).

(** Every exception but a TLB miss. *)
Definition handle_exception (cfg : Config) (m : Machine) (which : ExceptionType) : res (ctl ()) :=
  type ← ReadRegister m 2;
  match which with
  | SyscallException =>
      if bool_decide (type = SC_Halt) then Ok (Halted m)
      else if bool_decide (type = SC_Exit) then
        m' ← (if USE_RPT cfg then exit_rpt m else exit_pt m); Ok (ThreadFinished m')
      else if bool_decide (type = SC_Add) then m' ← sys_add m; Ok (Ret () m')
      else AssertFail
  | PageFaultException => m' ← page_fault cfg m; Ok (Ret () m')
  | _ => AssertFail
  end.

Definition ExceptionHandler (cfg : Config) (m : Machine) (which : ExceptionType) : res (ctl ()) :=
  if decide (which = TLBMissException) then
    _ ← ReadRegister m 2;
    let m := with_counters m (numAddressTranslation m) (numPageFaults m) (numTLBMiss m + 1) in
    vaddr ← ReadRegister m BadVAddrReg;
    '(e, (_, entry), m) ← pageTableTranslation cfg m (Z.quot vaddr PageSize) vaddr;
    if decide (e <> NoException) then handle_exception cfg m e
    else
      t ← arr (tlb m); t' ← updateTLB cfg m t entry;
      Ok (Ret () (with_tlb m (Some t')))
  else handle_exception cfg m which.

Definition RaiseException (cfg : Config) (m : Machine) (which : ExceptionType) (badVAddr : Z)
    : res (ctl ()) :=
  m ← setReg m BadVAddrReg badVAddr;
  m ← DelayedLoad m 0 0;
  r ← ExceptionHandler cfg (with_status m SystemMode) which;
  Ok (match r with Ret _ m' => Ret () (with_status m' UserMode) | r => r end).

(** ** Address translation (translate.cc) *)

(** The lookup part of [Translate]: the frame, a copy of the entry, and the
    index of the TLB slot that was hit. *)
Definition lookup_page (cfg : Config) (m : Machine) (v virtAddr : Z) (writing : bool)
    : res (ExceptionType * (Z * TranslationEntry) * option Z * Machine) :=
  match tlb m with
  | Some l =>
      found ← find_entry (Z.to_nat TLBSize) 0
        (fun e => valid e && bool_decide (vpn e = v)) l;
      match found with
      | Some i =>
          entry ← aget l i;
          if readOnly entry && writing then
            Ok (ReadOnlyException, (0, reset_entry), None, m)
          else Ok (NoException, (ppn entry, entry), Some i, m)
      | None => Ok (TLBMissException, (0, reset_entry), None, m)
      end
  | None =>
      '(e, pe, m') ← pageTableTranslation cfg m v virtAddr; Ok (e, pe, None, m')
  end.

Definition touch_pt (cfg : Config) (m : Machine) (v frame : Z) : res Machine :=
  if LRU_REPLACE cfg then
    t ← arr (pt m);
    t' ← (if USE_RPT cfg then updateLRUFlag t frame NumPhysPages
          else updateLRUFlag t v (pageTableSize m));
    Ok (with_pt m (Some t'))
  else Ok m.

(** [tlbWriteFlag] is clear whenever the TLB is in use and this point is
    reached, so only the LRU branch of the final [if] runs. *)
Definition touch_tlb (cfg : Config) (m : Machine) (slot : option Z) : res Machine :=
  match tlb m, slot with
  | Some l, Some i =>
      if LRU_REPLACE cfg then l' ← updateLRUFlag l i TLBSize; Ok (with_tlb m (Some l'))
      else Ok m
  | _, _ => Ok m
  end.

(** The routine works on [entry], a copy of the page-table or TLB entry: its
    assignments to the fields [use] and [dirty] of that copy reach no table and
    have no counterpart here. *)
Definition Translate (cfg : Config) (m : Machine) (virtAddr size : Z) (writing : bool)
    : res (ExceptionType * Z * Machine) :=
  let m := with_counters m (numAddressTranslation m + 1) (numPageFaults m) (numTLBMiss m) in
  if (bool_decide (size = 4) && bool_decide (Z.land virtAddr 3 <> 0)) ||
     (bool_decide (size = 2) && bool_decide (Z.land virtAddr 1 <> 0)) then
    Ok (AddressErrorException, 0, m)
  else
    _ ← ASSERT (negb (bool_decide (tlb m = None)) || negb (bool_decide (pt m = None)));
    _ ← ASSERT (bool_decide (tlb m = None) || negb (bool_decide (pt m = None)));
    let v := Z.quot virtAddr PageSize in
    let offset := Z.rem virtAddr PageSize in
    '(e, (pageFrame, entry), slot, m) ← lookup_page cfg m v virtAddr writing;
    if decide (e <> NoException) then Ok (e, 0, m)
    else if readOnly entry && writing then Ok (ReadOnlyException, 0, m)
    else if bool_decide (pageFrame >= NumPhysPages) || bool_decide (pageFrame < 0) then
      Ok (BusErrorException, 0, m)
    else
      m ← touch_pt cfg m v pageFrame;
      let physAddr := pageFrame * PageSize + offset in
      _ ← ASSERT (bool_decide (physAddr >= 0) && bool_decide (physAddr + 4 <= MemorySize));
      m ← touch_tlb cfg m slot;
      Ok (NoException, physAddr, m).

(** ** Memory accesses (translate.cc) *)

Definition WordToHost (cfg : Config) (word : Z) : Z :=
  if HOST_IS_BIG_ENDIAN cfg then
    Z.lor (Z.lor (Z.lor
      (Z.land (Z.shiftr word 24) 0xff)
      (Z.land (Z.shiftr word 8) 0xff00))
      (Z.land (Z.shiftl word 8) 0xff0000))
      (Z.land (Z.shiftl word 24) 0xff000000)
  else word.

Definition ShortToHost (cfg : Config) (shortword : Z) : Z :=
  if HOST_IS_BIG_ENDIAN cfg then
    Z.lor (Z.land (Z.shiftl shortword 8) 0xff00) (Z.land (Z.shiftr shortword 8) 0xff)
  else shortword.

Definition WordToMachine (cfg : Config) (word : Z) : Z := WordToHost cfg word.
Definition ShortToMachine (cfg : Config) (shortword : Z) : Z := ShortToHost cfg shortword.

(** What [*(unsigned int * )p] and [*(unsigned short * )p] read and write on the
    host. *)
Definition host_load (cfg : Config) (bs : list Z) : Z :=
  if HOST_IS_BIG_ENDIAN cfg then le_combine (rev bs) else le_combine bs.
Definition host_store (cfg : Config) (n : nat) (w : Z) : list Z :=
  if HOST_IS_BIG_ENDIAN cfg then rev (le_split n w) else le_split n w.

(** A [char] is signed: the value of a byte as an [int]. *)
Definition char_to_int (b : Z) : Z := if bool_decide (b < 128) then b else b - 256.

(** The [switch (size)] of [ReadMem]. *)
Definition load_value (cfg : Config) (mem : list Z) (physAddr size : Z) : res Z :=
  if decide (size = 1) then b ← aget mem physAddr; Ok (char_to_int b)
  else if decide (size = 2) then
    bs ← mem_read mem physAddr 2; Ok (ShortToHost cfg (host_load cfg bs))
  else if decide (size = 4) then
    bs ← mem_read mem physAddr 4; Ok (i32 (WordToHost cfg (host_load cfg bs)))
  else AssertFail.

(** The [switch (size)] of [WriteMem]. *)
Definition store_value (cfg : Config) (mem : list Z) (physAddr size value : Z) : res (list Z) :=
  if decide (size = 1) then mem_write mem physAddr [Z.land value 0xff]
  else if decide (size = 2) then
    mem_write mem physAddr (host_store cfg 2 (ShortToMachine cfg (Z.land value 0xffff)))
  else if decide (size = 4) then
    mem_write mem physAddr (host_store cfg 4 (WordToMachine cfg (u32 value)))
  else AssertFail.

(** [Some value] for TRUE, [None] for FALSE (an exception was raised). *)
Definition ReadMem (cfg : Config) (m : Machine) (addr size : Z) : res (ctl (option Z)) :=
  '(exception, physicalAddress, m) ← Translate cfg m addr size false;
  if decide (exception <> NoException) then
    r ← RaiseException cfg m exception addr;
    Ok (match r with Ret _ m' => Ret None m' | Halted m' => Halted m'
        | ThreadFinished m' => ThreadFinished m' end)
  else
    value ← load_value cfg (mainMemory m) physicalAddress size; Ok (Ret (Some value) m).

Definition WriteMem (cfg : Config) (m : Machine) (addr size value : Z) : res (ctl bool) :=
  '(exception, physicalAddress, m) ← Translate cfg m addr size true;
  if decide (exception <> NoException) then
    r ← RaiseException cfg m exception addr;
    Ok (match r with Ret _ m' => Ret false m' | Halted m' => Halted m'
        | ThreadFinished m' => ThreadFinished m' end)
  else
    mem ← store_value cfg (mainMemory m) physicalAddress size value;
    Ok (Ret true (with_memory m mem)).

(** ** Construction (machine.cc) *)

Definition newMachine (cfg : Config) (tid : Z) (exec : list Z) (codeAddr : Z) : res Machine :=
  bm ← BitmapImpl.newBitmap NumPhysPages;
  Ok (mkMachine (replicate (Z.to_nat NumTotalRegs) 0) (replicate (Z.to_nat MemorySize) 0)
    (if USE_TLB cfg then Some (replicate (Z.to_nat TLBSize) reset_entry) else None)
    (if USE_RPT cfg then Some (replicate (Z.to_nat NumPhysPages) reset_entry) else None)
    0 bm tid exec codeAddr None 0 0 0 SystemMode).

#[global] Arguments Translate : simpl never.
#[global] Arguments ReadMem : simpl never.
#[global] Arguments WriteMem : simpl never.
#[global] Arguments RaiseException : simpl never.
#[global] Arguments ExceptionHandler : simpl never.
#[global] Arguments DelayedLoad : simpl never.
#[global] Arguments setReg : simpl never.
#[global] Arguments getReg : simpl never.
