(* ===== verification/Mips.v ===== *)
(** * machine/mipssim.h, machine/mipssim.cc: the MIPS R2000 simulator

    [Decode] with its two tables, [Mult], and [Machine::OneInstruction], on top
    of the memory system of [Machine.v].  The build defines [SIM_FIX], so the
    unaligned loads and stores follow those branches.  Signed arithmetic wraps
    around, as it does in the code the build produces; [INT_MIN / -1] traps on
    the host and is [Undef]. *)

From S2P Require Import Prelude Bytes Machine.

(** ** Opcodes and the decoding tables (mipssim.h) *)

Inductive OpCode : Type :=
| OP_ADD | OP_ADDI | OP_ADDIU | OP_ADDU | OP_AND | OP_ANDI | OP_BEQ | OP_BGEZ | OP_BGEZAL
| OP_BGTZ | OP_BLEZ | OP_BLTZ | OP_BLTZAL | OP_BNE | OP_DIV | OP_DIVU | OP_J | OP_JAL
| OP_JALR | OP_JR | OP_LB | OP_LBU | OP_LH | OP_LHU | OP_LUI | OP_LW | OP_LWL | OP_LWR
| OP_MFHI | OP_MFLO | OP_MTHI | OP_MTLO | OP_MULT | OP_MULTU | OP_NOR | OP_OR | OP_ORI
| OP_RFE | OP_SB | OP_SH | OP_SLL | OP_SLLV | OP_SLT | OP_SLTI | OP_SLTIU | OP_SLTU
| OP_SRA | OP_SRAV | OP_SRL | OP_SRLV | OP_SUB | OP_SUBU | OP_SW | OP_SWL | OP_SWR
| OP_XOR | OP_XORI | OP_SYSCALL | OP_UNIMP | OP_RES
(** special values for further decoding *)
| SPECIAL | BCOND.

#[global] Instance OpCode_eq_dec : EqDecision OpCode.
Proof. solve_decision. Defined.

Inductive Format : Type := IFMT | JFMT | RFMT.

(** Indexed by bits 31:26 of the instruction. *)
Definition opTable : list (OpCode * Format) := [
  (SPECIAL, RFMT); (BCOND, IFMT); (OP_J, JFMT); (OP_JAL, JFMT);
  (OP_BEQ, IFMT); (OP_BNE, IFMT); (OP_BLEZ, IFMT); (OP_BGTZ, IFMT);
  (OP_ADDI, IFMT); (OP_ADDIU, IFMT); (OP_SLTI, IFMT); (OP_SLTIU, IFMT);
  (OP_ANDI, IFMT); (OP_ORI, IFMT); (OP_XORI, IFMT); (OP_LUI, IFMT);
  (OP_UNIMP, IFMT); (OP_UNIMP, IFMT); (OP_UNIMP, IFMT); (OP_UNIMP, IFMT);
  (OP_RES, IFMT); (OP_RES, IFMT); (OP_RES, IFMT); (OP_RES, IFMT);
  (OP_RES, IFMT); (OP_RES, IFMT); (OP_RES, IFMT); (OP_RES, IFMT);
  (OP_RES, IFMT); (OP_RES, IFMT); (OP_RES, IFMT); (OP_RES, IFMT);
  (OP_LB, IFMT); (OP_LH, IFMT); (OP_LWL, IFMT); (OP_LW, IFMT);
  (OP_LBU, IFMT); (OP_LHU, IFMT); (OP_LWR, IFMT); (OP_RES, IFMT);
  (OP_SB, IFMT); (OP_SH, IFMT); (OP_SWL, IFMT); (OP_SW, IFMT);
  (OP_RES, IFMT); (OP_RES, IFMT); (OP_SWR, IFMT); (OP_RES, IFMT);
  (OP_UNIMP, IFMT); (OP_UNIMP, IFMT); (OP_UNIMP, IFMT); (OP_UNIMP, IFMT);
  (OP_RES, IFMT); (OP_RES, IFMT); (OP_RES, IFMT); (OP_RES, IFMT);
  (OP_UNIMP, IFMT); (OP_UNIMP, IFMT); (OP_UNIMP, IFMT); (OP_UNIMP, IFMT);
  (OP_RES, IFMT); (OP_RES, IFMT); (OP_RES, IFMT); (OP_RES, IFMT) ].

(** Indexed by the "funct" field of a SPECIAL instruction. *)
Definition specialTable : list OpCode := [
  OP_SLL; OP_RES; OP_SRL; OP_SRA; OP_SLLV; OP_RES; OP_SRLV; OP_SRAV;
  OP_JR; OP_JALR; OP_RES; OP_RES; OP_SYSCALL; OP_UNIMP; OP_RES; OP_RES;
  OP_MFHI; OP_MTHI; OP_MFLO; OP_MTLO; OP_RES; OP_RES; OP_RES; OP_RES;
  OP_MULT; OP_MULTU; OP_DIV; OP_DIVU; OP_RES; OP_RES; OP_RES; OP_RES;
  OP_ADD; OP_ADDU; OP_SUB; OP_SUBU; OP_AND; OP_OR; OP_XOR; OP_NOR;
  OP_RES; OP_RES; OP_SLT; OP_SLTU; OP_RES; OP_RES; OP_RES; OP_RES;
  OP_RES; OP_RES; OP_RES; OP_RES; OP_RES; OP_RES; OP_RES; OP_RES;
  OP_RES; OP_RES; OP_RES; OP_RES; OP_RES; OP_RES; OP_RES; OP_RES ].

Record Instruction : Type := mkInstr {
  opCode : OpCode; rs : Z; rt : Z; rd : Z; extra : Z }.

Definition IndexToAddr (x : Z) : Z := i32 (Z.shiftl x 2).
Definition R31 : Z := 31.

(** [x & SIGN_BIT] as a condition. *)
Definition SIGN_BIT : Z := 0x80000000.
Definition sign (x : Z) : bool := bool_decide (Z.land (u32 x) SIGN_BIT <> 0).

(** The operand field, by the format of the instruction. *)
Definition decode_extra (fmt : Format) (value : Z) : Z :=
  match fmt with
  | IFMT =>
      let extra := Z.land value 0xffff in
      if bool_decide (Z.land extra 0x8000 <> 0) then i32 (Z.lor extra 0xffff0000) else extra
  | RFMT => Z.land (Z.shiftr value 6) 0x1f
  | JFMT => Z.land value 0x3ffffff
  end.

Definition decode_bcond (value : Z) : OpCode :=
  let i := Z.land value 0x1f0000 in
  if bool_decide (i = 0) then OP_BLTZ
  else if bool_decide (i = 0x10000) then OP_BGEZ
  else if bool_decide (i = 0x100000) then OP_BLTZAL
  else if bool_decide (i = 0x110000) then OP_BGEZAL
  else OP_UNIMP.

Definition Decode (value : Z) : res Instruction :=
  let rs := Z.land (Z.shiftr value 21) 0x1f in
  let rt := Z.land (Z.shiftr value 16) 0x1f in
  let rd := Z.land (Z.shiftr value 11) 0x1f in
  '(op, fmt) ← aget opTable (Z.land (Z.shiftr value 26) 0x3f);
  let extra := decode_extra fmt value in
  op ← (match op with
        | SPECIAL => aget specialTable (Z.land value 0x3f)
        | BCOND => Ok (decode_bcond value)
        | _ => Ok op
        end);
  Ok (mkInstr op rs rt rd extra).

(** ** Multiplication (mipssim.cc) *)

(** The main loop: [n] iterations are left. *)
Fixpoint mult_loop (n : nat) (a bLo bHi lo hi : Z) : Z * Z :=
  match n with
  | O => (hi, lo)
  | S n' =>
      let '(lo, hi, break) :=
        if bool_decide (Z.land a 1 <> 0) then
          let lo := u32 (lo + bLo) in
          let hi := if bool_decide (lo < bLo) then u32 (hi + 1) else hi in
          (lo, u32 (hi + bHi), bool_decide (Z.land (u32 a) 0xfffffffe = 0))
        else (lo, hi, false) in
      if break then (hi, lo)
      else
        let bHi := u32 (Z.shiftl bHi 1) in
        let bHi := if bool_decide (Z.land bLo 0x80000000 <> 0) then Z.lor bHi 1 else bHi in
        mult_loop n' (Z.shiftr a 1) (u32 (Z.shiftl bLo 1)) bHi lo hi
  end.

(** The words stored at [*hiPtr] and [*loPtr]. *)
Definition Mult (a b : Z) (signedArith : bool) : Z * Z :=
  if bool_decide (a = 0) || bool_decide (b = 0) then (0, 0)
  else
    let negative := false in
    let '(negative, a) :=
      if signedArith && bool_decide (a < 0) then (negb negative, i32 (- a)) else (negative, a) in
    let '(negative, b) :=
      if signedArith && bool_decide (b < 0) then (negb negative, i32 (- b)) else (negative, b) in
    let '(hi, lo) := mult_loop 32 a (u32 b) 0 0 0 in
    let '(hi, lo) :=
      if negative : bool then
        let hi := u32 (Z.lnot hi) in
        let lo := u32 (u32 (Z.lnot lo) + 1) in
        (if bool_decide (lo = 0) then u32 (hi + 1) else hi, lo)
      else (hi, lo) in
    (i32 hi, i32 lo).

(** ** Executing one instruction (mipssim.cc) *)

(** What the [switch] ends in: the common tail of the function, with the next
    PC and the delayed load, or a [return] after an exception was raised. *)
Inductive outcome : Type :=
| Commit (m : Machine) (pcAfter nextLoadReg nextLoadValue : Z)
| Return (c : ctl ()).

Section execute.
Context (cfg : Config).

Definition raise (m : Machine) (which : ExceptionType) (badVAddr : Z) : res outcome :=
  c ← RaiseException cfg m which badVAddr; Ok (Return c).

(** [registers[r] = v; break;] *)
Definition write_break (m : Machine) (pcAfter r v : Z) : res outcome :=
  m' ← setReg m r v; Ok (Commit m' pcAfter 0 0).

Definition hilo_break (m : Machine) (pcAfter hi lo : Z) : res outcome :=
  m ← setReg m LoReg lo; m ← setReg m HiReg hi; Ok (Commit m pcAfter 0 0).

(** Arithmetic, logic, shifts, comparisons, multiplication and division. *)
Definition exec_arith (m : Machine) (instr : Instruction) (pcAfter : Z) : res outcome :=
  a ← getReg m (rs instr); b ← getReg m (rt instr);
  let x := extra instr in
  match opCode instr with
  | OP_ADD =>
      let sum := i32 (a + b) in
      if negb (sign (Z.lxor a b)) && sign (Z.lxor a sum) then raise m OverflowException 0
      else write_break m pcAfter (rd instr) sum
  | OP_ADDI =>
      let sum := i32 (a + x) in
      if negb (sign (Z.lxor a x)) && sign (Z.lxor x sum) then raise m OverflowException 0
      else write_break m pcAfter (rt instr) sum
  | OP_ADDIU => write_break m pcAfter (rt instr) (i32 (a + x))
  | OP_ADDU => write_break m pcAfter (rd instr) (i32 (a + b))
  | OP_AND => write_break m pcAfter (rd instr) (Z.land a b)
  | OP_ANDI => write_break m pcAfter (rt instr) (Z.land a (Z.land x 0xffff))
  | OP_DIV =>
      if bool_decide (b = 0) then hilo_break m pcAfter 0 0
      else if bool_decide (a = int_min) && bool_decide (b = -1) then Undef
      else hilo_break m pcAfter (Z.rem a b) (Z.quot a b)
  | OP_DIVU =>
      if bool_decide (u32 b = 0) then hilo_break m pcAfter 0 0
      else hilo_break m pcAfter (i32 (Z.rem (u32 a) (u32 b))) (i32 (Z.quot (u32 a) (u32 b)))
  | OP_LUI => write_break m pcAfter (rt instr) (i32 (Z.shiftl x 16))
  | OP_MFHI => v ← getReg m HiReg; write_break m pcAfter (rd instr) v
  | OP_MFLO => v ← getReg m LoReg; write_break m pcAfter (rd instr) v
  | OP_MTHI => write_break m pcAfter HiReg a
  | OP_MTLO => write_break m pcAfter LoReg a
  | OP_MULT => let '(hi, lo) := Mult a b true in hilo_break m pcAfter hi lo
  | OP_MULTU => let '(hi, lo) := Mult a b false in hilo_break m pcAfter hi lo
  | OP_NOR => write_break m pcAfter (rd instr) (Z.lnot (Z.lor a b))
  | OP_OR => write_break m pcAfter (rd instr) (Z.lor a b)
  | OP_ORI => write_break m pcAfter (rt instr) (Z.lor a (Z.land x 0xffff))
  | OP_SLL => write_break m pcAfter (rd instr) (i32 (Z.shiftl b x))
  | OP_SLLV => write_break m pcAfter (rd instr) (i32 (Z.shiftl b (Z.land a 0x1f)))
  | OP_SLT => write_break m pcAfter (rd instr) (if bool_decide (a < b) then 1 else 0)
  | OP_SLTI => write_break m pcAfter (rt instr) (if bool_decide (a < x) then 1 else 0)
  | OP_SLTIU => write_break m pcAfter (rt instr) (if bool_decide (u32 a < u32 x) then 1 else 0)
  | OP_SLTU => write_break m pcAfter (rd instr) (if bool_decide (u32 a < u32 b) then 1 else 0)
  | OP_SRA => write_break m pcAfter (rd instr) (Z.shiftr b x)
  | OP_SRAV => write_break m pcAfter (rd instr) (Z.shiftr b (Z.land a 0x1f))
  (* [tmp] is an [int], so [>>=] shifts in copies of the sign bit *)
  | OP_SRL => write_break m pcAfter (rd instr) (Z.shiftr b x)
  | OP_SRLV => write_break m pcAfter (rd instr) (Z.shiftr b (Z.land a 0x1f))
  | OP_SUB =>
      let diff := i32 (a - b) in
      if sign (Z.lxor a b) && sign (Z.lxor a diff) then raise m OverflowException 0
      else write_break m pcAfter (rd instr) diff
  | OP_SUBU => write_break m pcAfter (rd instr) (i32 (a - b))
  | OP_XOR => write_break m pcAfter (rd instr) (Z.lxor a b)
  | OP_XORI => write_break m pcAfter (rt instr) (Z.lxor a (Z.land x 0xffff))
  | _ => AssertFail
  end.

(** Branches and jumps.  The linking forms fall through to the plain ones, which
    read their register after the link register was written. *)
Definition exec_branch (m : Machine) (instr : Instruction) (pcAfter : Z) : res outcome :=
  npc ← getReg m NextPCReg;
  let target := i32 (npc + IndexToAddr (extra instr)) in
  let link := i32 (npc + 4) in
  m ← (match opCode instr with
       | OP_BGEZAL | OP_BLTZAL | OP_JAL => setReg m R31 link
       | OP_JALR => setReg m (rd instr) link
       | _ => Ok m
       end);
  a ← getReg m (rs instr); b ← getReg m (rt instr);
  let branch (taken : bool) := Ok (Commit m (if taken then target else pcAfter) 0 0) in
  match opCode instr with
  | OP_BEQ => branch (bool_decide (a = b))
  | OP_BGEZAL | OP_BGEZ => branch (negb (sign a))
  | OP_BGTZ => branch (bool_decide (a > 0))
  | OP_BLEZ => branch (bool_decide (a <= 0))
  | OP_BLTZAL | OP_BLTZ => branch (sign a)
  | OP_BNE => branch (bool_decide (a <> b))
  | OP_JAL | OP_J =>
      Ok (Commit m (i32 (Z.lor (Z.land (u32 pcAfter) 0xf0000000)
                          (u32 (IndexToAddr (extra instr))))) 0 0)
  | OP_JALR | OP_JR => Ok (Commit m a 0 0)
  | _ => AssertFail
  end.

(** [if (!ReadMem(addr, size, &value)) return;] and what follows it. *)
Definition read_then (m : Machine) (addr size : Z) (k : Machine -> Z -> res outcome)
    : res outcome :=
  r ← ReadMem cfg m addr size;
  match r with
  | Ret (Some value) m' => k m' value
  | Ret None m' => Ok (Return (Ret () m'))
  | Halted m' => Ok (Return (Halted m'))
  | ThreadFinished m' => Ok (Return (ThreadFinished m'))
  end.

(** [if (!WriteMem(addr, size, value)) return; break;] *)
Definition write_then (m : Machine) (addr size value pcAfter : Z) : res outcome :=
  r ← WriteMem cfg m addr size value;
  match r with
  | Ret true m' => Ok (Commit m' pcAfter 0 0)
  | Ret false m' => Ok (Return (Ret () m'))
  | Halted m' => Ok (Return (Halted m'))
  | ThreadFinished m' => Ok (Return (ThreadFinished m'))
  end.

(** The value a pending delayed load or the register itself gives [rt]. *)
Definition pending_value (m : Machine) (r : Z) : res Z :=
  lr ← getReg m LoadReg;
  if bool_decide (lr = r) then getReg m LoadValueReg else getReg m r.

(** The four cases of LWL and LWR; [n] is [3 - byte]. *)
Definition lwl_merge (n old value : Z) : Z :=
  if bool_decide (n = 0) then value
  else if bool_decide (n = 1) then Z.lor (Z.land old 0xff) (i32 (Z.shiftl value 8))
  else if bool_decide (n = 2) then Z.lor (Z.land old 0xffff) (i32 (Z.shiftl value 16))
  else Z.lor (Z.land old 0xffffff) (i32 (Z.shiftl value 24)).

Definition lwr_merge (n old value : Z) : Z :=
  if bool_decide (n = 0) then
    i32 (Z.lor (Z.land (u32 old) 0xffffff00) (Z.land (Z.shiftr value 24) 0xff))
  else if bool_decide (n = 1) then
    i32 (Z.lor (Z.land (u32 old) 0xffff0000) (Z.land (Z.shiftr value 16) 0xffff))
  else if bool_decide (n = 2) then
    i32 (Z.lor (Z.land (u32 old) 0xff000000) (Z.land (Z.shiftr value 8) 0xffffff))
  else value.

Definition exec_load (m : Machine) (instr : Instruction) (pcAfter : Z) : res outcome :=
  a ← getReg m (rs instr);
  let tmp := i32 (a + extra instr) in
  let done m' v := Ok (Commit m' pcAfter (rt instr) v) in
  match opCode instr with
  | OP_LB | OP_LBU =>
      read_then m tmp 1 (fun m' value =>
        if bool_decide (Z.land value 0x80 <> 0) && bool_decide (opCode instr = OP_LB)
        then done m' (i32 (Z.lor (u32 value) 0xffffff00))
        else done m' (Z.land value 0xff))
  | OP_LH | OP_LHU =>
      if bool_decide (Z.land tmp 1 <> 0) then raise m AddressErrorException tmp
      else read_then m tmp 2 (fun m' value =>
        if bool_decide (Z.land value 0x8000 <> 0) && bool_decide (opCode instr = OP_LH)
        then done m' (i32 (Z.lor (u32 value) 0xffff0000))
        else done m' (Z.land value 0xffff))
  | OP_LW =>
      if bool_decide (Z.land tmp 3 <> 0) then raise m AddressErrorException tmp
      else read_then m tmp 4 done
  | OP_LWL =>
      let byte := Z.land tmp 3 in
      read_then m (i32 (tmp - byte)) 4 (fun m' value =>
        old ← pending_value m' (rt instr); done m' (lwl_merge (3 - byte) old value))
  | OP_LWR =>
      let byte := Z.land tmp 3 in
      read_then m (i32 (tmp - byte)) 4 (fun m' value =>
        old ← pending_value m' (rt instr); done m' (lwr_merge (3 - byte) old value))
  | _ => AssertFail
  end.

(** The four cases of SWL and SWR. *)
Definition swl_merge (n value reg : Z) : Z :=
  if bool_decide (n = 0) then reg
  else if bool_decide (n = 1) then
    i32 (Z.lor (Z.land (u32 value) 0xff000000) (Z.land (Z.shiftr reg 8) 0xffffff))
  else if bool_decide (n = 2) then
    i32 (Z.lor (Z.land (u32 value) 0xffff0000) (Z.land (Z.shiftr reg 16) 0xffff))
  else i32 (Z.lor (Z.land (u32 value) 0xffffff00) (Z.land (Z.shiftr reg 24) 0xff)).

Definition swr_merge (n value reg : Z) : Z :=
  if bool_decide (n = 0) then Z.lor (Z.land value 0xffffff) (i32 (Z.shiftl reg 24))
  else if bool_decide (n = 1) then Z.lor (Z.land value 0xffff) (i32 (Z.shiftl reg 16))
  else if bool_decide (n = 2) then Z.lor (Z.land value 0xff) (i32 (Z.shiftl reg 8))
  else reg.

Definition exec_store (m : Machine) (instr : Instruction) (pcAfter : Z) : res outcome :=
  a ← getReg m (rs instr); b ← getReg m (rt instr);
  let tmp := i32 (a + extra instr) in
  match opCode instr with
  | OP_SB => write_then m tmp 1 b pcAfter
  | OP_SH => write_then m tmp 2 b pcAfter
  | OP_SW => write_then m tmp 4 b pcAfter
  | OP_SWL =>
      let byte := Z.land tmp 3 in
      read_then m (i32 (tmp - byte)) 4 (fun m' value =>
        b' ← getReg m' (rt instr);
        write_then m' (i32 (tmp - byte)) 4 (swl_merge (3 - byte) value b') pcAfter)
  | OP_SWR =>
      let byte := Z.land tmp 3 in
      read_then m (i32 (tmp - byte)) 4 (fun m' value =>
        b' ← getReg m' (rt instr);
        write_then m' (i32 (tmp - byte)) 4 (swr_merge (3 - byte) value b') pcAfter)
  | _ => AssertFail
  end.

(** The [switch] of [OneInstruction]. *)
Definition execute (m : Machine) (instr : Instruction) (pcAfter : Z) : res outcome :=
  match opCode instr with
  | OP_BEQ | OP_BGEZAL | OP_BGEZ | OP_BGTZ | OP_BLEZ | OP_BLTZAL | OP_BLTZ | OP_BNE
  | OP_JAL | OP_J | OP_JALR | OP_JR => exec_branch m instr pcAfter
  | OP_LB | OP_LBU | OP_LH | OP_LHU | OP_LW | OP_LWL | OP_LWR => exec_load m instr pcAfter
  | OP_SB | OP_SH | OP_SW | OP_SWL | OP_SWR => exec_store m instr pcAfter
  | OP_SYSCALL => raise m SyscallException 0
  | OP_RES | OP_UNIMP => raise m IllegalInstrException 0
  | _ => exec_arith m instr pcAfter
  end.

(** The common tail: the delayed load and the program counters. *)
Definition commit (m : Machine) (pcAfter nextLoadReg nextLoadValue : Z) : res Machine :=
  m ← DelayedLoad m nextLoadReg nextLoadValue;
  pc ← getReg m PCReg; m ← setReg m PrevPCReg pc;
  npc ← getReg m NextPCReg; m ← setReg m PCReg npc;
  setReg m NextPCReg pcAfter.

Definition OneInstruction (m : Machine) : res (ctl ()) :=
  pc ← getReg m PCReg;
  r ← ReadMem cfg m pc 4;
  match r with
  | Ret None m' => Ok (Ret () m')
  | Halted m' => Ok (Halted m')
  | ThreadFinished m' => Ok (ThreadFinished m')
  | Ret (Some raw) m' =>
      instr ← Decode (u32 raw);
      npc ← getReg m' NextPCReg;
      o ← execute m' instr (i32 (npc + 4));
      match o with
      | Return c => Ok c
      | Commit m2 pcAfter nextLoadReg nextLoadValue =>
          m3 ← commit m2 pcAfter nextLoadReg nextLoadValue; Ok (Ret () m3)
      end
  end.

End execute.

#[global] Arguments commit : simpl never.
#[global] Arguments Mult : simpl never.
