(* ===== verification/MipsArith.v ===== *)
(** * Correctness of the MIPS arithmetic: multiplication, overflow, unaligned
    accesses *)

From S2P Require Import Prelude Words Bytes Machine Mips.

(** ** Multiplication *)

Lemma land1_odd a : Z.land a 1 <> 0 <-> a mod 2 = 1.
Proof.
  change 1 with (Z.ones 1) at 1. rewrite Z.land_ones by lia. change (2 ^ 1) with 2. zlia.
Qed.

Lemma high_bit w : is_u32 w -> Z.land w 0x80000000 <> 0 <-> 2147483648 <= w.
Proof.
  intros Hw. change 0x80000000 with (2 ^ 31). rewrite land_pow2, Z.testbit_true by lia.
  unfold is_u32 in Hw. zlia.
Qed.

Lemma land_fffffffe w : is_u32 w -> Z.land w 0xfffffffe = 0 -> w = 0 \/ w = 1.
Proof.
  intros Hw E. assert (H : Z.shiftr w 1 = 0).
  { apply Z.bits_inj'. intros n Hn. rewrite Z.shiftr_spec, Z.bits_0 by lia.
    destruct (Z.ltb_spec (n + 1) 32).
    - apply (f_equal (fun z => Z.testbit z (n + 1))) in E. rewrite Z.land_spec, Z.bits_0 in E.
      replace (Z.testbit 0xfffffffe (n + 1)) with true in E; [by rewrite andb_true_r in E|].
      change 0xfffffffe with (Z.shiftl (Z.ones 31) 1). rewrite Z.shiftl_spec by lia.
      rewrite Z.testbit_ones_nonneg by lia. symmetry. apply Z.ltb_lt. lia.
    - apply is_u32_fix in Hw. rewrite <- Hw, u32_bits, bool_decide_false by lia. done. }
  rewrite Z.shiftr_div_pow2 in H by lia. unfold is_u32 in Hw. zlia.
Qed.

Lemma lor_1_even x : Z.lor (u32 (Z.shiftl x 1)) 1 = u32 (Z.shiftl x 1) + 1.
Proof.
  rewrite Z.shiftl_mul_pow2 by lia. unfold u32.
  set (y := (x * 2 ^ 1) mod 4294967296).
  assert (Hy : y mod 2 = 0) by (unfold y; zlia).
  assert (E : Z.land y 1 = 0).
  { change 1 with (Z.ones 1). rewrite Z.land_ones by lia. done. }
  rewrite <- Z.lxor_lor by done. symmetry. by apply Z.add_nocarry_lxor.
Qed.

(** The 64-bit value of a pair of words. *)
Definition dword (hi lo : Z) : Z := hi * 4294967296 + lo.
Definition M64 : Z := 18446744073709551616.

Lemma dword_double bHi bLo :
  is_u32 bHi -> is_u32 bLo ->
  let bHi' := u32 (Z.shiftl bHi 1) in
  let bHi'' := if bool_decide (Z.land bLo 0x80000000 <> 0) then Z.lor bHi' 1 else bHi' in
  is_u32 bHi'' /\ dword bHi'' (u32 (Z.shiftl bLo 1)) mod M64 = (2 * dword bHi bLo) mod M64.
Proof.
  intros HH HL. cbn zeta. rewrite lor_1_even, !Z.shiftl_mul_pow2 by lia. change (2 ^ 1) with 2.
  pose proof (high_bit bLo HL) as [F1 F2].
  destruct (bool_decide_reflect (Z.land bLo 0x80000000 <> 0)) as [E|E];
    [apply F1 in E|assert (~ 2147483648 <= bLo) by auto];
    unfold dword, u32, is_u32, M64 in *; split; zlia.
Qed.

Lemma dword_add hi lo bHi bLo :
  is_u32 hi -> is_u32 lo -> is_u32 bHi -> is_u32 bLo ->
  let lo' := u32 (lo + bLo) in
  let hi' := if bool_decide (lo' < bLo) then u32 (hi + 1) else hi in
  dword (u32 (hi' + bHi)) lo' mod M64 = (dword hi lo + dword bHi bLo) mod M64.
Proof.
  intros H1 H2 H3 H4. cbn zeta. unfold dword, u32, is_u32, M64 in *.
  case_bool_decide as E; zlia.
Qed.

Lemma u32_odd a : u32 a mod 2 = a mod 2.
Proof. unfold u32. zlia. Qed.

Lemma mod_pow2_step a n : a mod 2 ^ Z.of_nat (S n) = a mod 2 + 2 * ((a / 2) mod 2 ^ Z.of_nat n).
Proof.
  rewrite Nat2Z.inj_succ, Z.pow_succ_r by lia. apply Z.rem_mul_r; [lia|].
  pose proof (Z.pow_pos_nonneg 2 (Z.of_nat n)). lia.
Qed.

Lemma early_exit a n :
  (n <= 32)%nat -> (1 <= n)%nat -> a mod 2 = 1 -> Z.land (u32 a) 0xfffffffe = 0 ->
  a mod 2 ^ Z.of_nat n = 1.
Proof.
  intros Hn Hn1 Ho E. apply land_fffffffe in E; [|apply u32_range].
  assert (E' : a mod 2 ^ 32 = 1).
  { change (2 ^ 32) with 4294967296. fold (u32 a). pose proof (u32_odd a) as P. rewrite Ho in P.
    destruct E as [E|E]; [by rewrite E in P|done]. }
  replace (2 ^ 32) with (2 ^ Z.of_nat n * 2 ^ (32 - Z.of_nat n)) in E'
    by (rewrite <- Z.pow_add_r by lia; f_equal; lia).
  rewrite Z.rem_mul_r in E' by (apply Z.pow_nonzero || apply Z.pow_pos_nonneg; lia).
  assert (H2 : 2 <= 2 ^ Z.of_nat n) by (change 2 with (2 ^ 1) at 1; apply Z.pow_le_mono_r; lia).
  pose proof (Z.mod_pos_bound a (2 ^ Z.of_nat n) ltac:(lia)).
  pose proof (Z.mod_pos_bound (a / 2 ^ Z.of_nat n) (2 ^ (32 - Z.of_nat n))
                ltac:(apply Z.pow_pos_nonneg; lia)).
  clear E Ho. generalize dependent (2 ^ Z.of_nat n). generalize (2 ^ (32 - Z.of_nat n)).
  intros q p. generalize (a mod p) ((a / p) mod q). intros x y E' H2 Hx Hy.
  assert (y = 0) by nia. nia.
Qed.

(** One iteration without the early exit. *)
Lemma mult_step (r a x y y' : Z) n :
  y' mod M64 = (2 * y) mod M64 -> r mod M64 = (x + (a / 2) mod 2 ^ Z.of_nat n * y') mod M64 ->
  r mod M64 = (x + (a mod 2 ^ Z.of_nat (S n) - a mod 2) * y) mod M64.
Proof.
  intros Hy ->. rewrite mod_pow2_step.
  set (q := (a / 2) mod 2 ^ Z.of_nat n).
  rewrite <- Zplus_mod_idemp_r, <- Zmult_mod_idemp_r, Hy, Zmult_mod_idemp_r, Zplus_mod_idemp_r.
  f_equal. lia.
Qed.

(** The loop adds [a mod 2^n] times the shifted multiplicand, modulo 2^64, also
    when it leaves early because no bit of [a] but the lowest is set. *)
Lemma mult_loop_spec n a bLo bHi lo hi :
  (n <= 32)%nat -> is_u32 hi -> is_u32 lo -> is_u32 bHi -> is_u32 bLo ->
  let r := mult_loop n a bLo bHi lo hi in
  is_u32 r.1 /\ is_u32 r.2 /\
  dword r.1 r.2 mod M64
    = (dword hi lo + (a mod 2 ^ Z.of_nat n) * dword bHi bLo) mod M64.
Proof.
  revert a bLo bHi lo hi. induction n as [|n IH]; intros a bLo bHi lo hi Hn H1 H2 H3 H4;
    cbn zeta.
  { cbn -[Z.modulo M64]. rewrite Z.mod_1_r, Z.mul_0_l, Z.add_0_r. done. }
  cbn [mult_loop].
  pose proof (dword_double bHi bLo H3 H4) as [D1 D2].
  pose proof (dword_add hi lo bHi bLo H1 H2 H3 H4) as A. cbn zeta in D1, D2, A.
  replace (Z.shiftr a 1) with (a / 2) by (by rewrite Z.shiftr_div_pow2).
  destruct (bool_decide_reflect (Z.land a 1 <> 0)) as [Ho|Ho]; rewrite land1_odd in Ho.
  - destruct (bool_decide_reflect (Z.land (u32 a) 0xfffffffe = 0)) as [Hx|Hx].
    + cbn [fst snd]. rewrite (early_exit a (S n)) by (done || lia).
      rewrite Z.mul_1_l. split_and!; [apply u32_range..|done].
    + destruct (IH (a / 2) (u32 (Z.shiftl bLo 1)) _ (u32 (lo + bLo)) _ ltac:(lia)
        (u32_range ((if bool_decide (u32 (lo + bLo) < bLo) then u32 (hi + 1) else hi) + bHi))
        (u32_range (lo + bLo)) D1 (u32_range (Z.shiftl bLo 1))) as (R1 & R2 & R3).
      split_and!; [exact R1|exact R2|].
      rewrite (mult_step _ _ _ _ _ _ D2 R3).
      rewrite <- Zplus_mod_idemp_l, A, Zplus_mod_idemp_l. f_equal. lia.
  - destruct (IH (a / 2) (u32 (Z.shiftl bLo 1)) _ lo hi ltac:(lia) H1 H2
      D1 (u32_range (Z.shiftl bLo 1))) as (R1 & R2 & R3).
    split_and!; [exact R1|exact R2|]. rewrite (mult_step _ _ _ _ _ _ D2 R3).
    replace (a mod 2) with 0 by zlia. f_equal. lia.
Qed.

(** The loop as [Mult] runs it computes the whole product. *)
Lemma mult_loop_product a b :
  is_u32 b -> let r := mult_loop 32 a b 0 0 0 in
  is_u32 r.1 /\ is_u32 r.2 /\ dword r.1 r.2 = u32 a * b.
Proof.
  intros Hb. cbn zeta.
  destruct (mult_loop_spec 32 a b 0 0 0) as (R1 & R2 & R3); [lia|done..|].
  split_and!; [done..|].
  change (2 ^ Z.of_nat 32) with 4294967296 in R3. fold (u32 a) in R3.
  pose proof (u32_range a) as Ha.
  change (dword 0 0 + u32 a * dword 0 b) with (u32 a * b) in R3.
  rewrite !Z.mod_small in R3; unfold is_u32, dword, M64 in *; [done|nia..].
Qed.

(** What the final negation of [Mult] does to the pair of words. *)
Lemma negate_dword hi lo p :
  is_u32 hi -> is_u32 lo -> dword hi lo = p -> 0 <= p <= 4611686018427387904 ->
  let lo' := u32 (u32 (Z.lnot lo) + 1) in
  let hi' := if bool_decide (lo' = 0) then u32 (u32 (Z.lnot hi) + 1) else u32 (Z.lnot hi) in
  i32 hi' * 4294967296 + lo' = - p.
Proof.
  intros H1 H2 E Hp. cbn zeta. unfold Z.lnot, u32, i32, is_u32, dword in *.
  case_bool_decide; zlia.
Qed.

Lemma u32_neg_id a : is_i32 a -> u32 (if bool_decide (a < 0) then i32 (- a) else a) = Z.abs a.
Proof. unfold is_i32, int_min, int_max, u32, i32. case_bool_decide; zlia. Qed.

(** The sign of the signed product. *)
Definition mult_negative (a b : Z) : bool := xorb (bool_decide (a < 0)) (bool_decide (b < 0)).

Lemma signed_product a b :
  is_i32 a -> is_i32 b -> a * b = if mult_negative a b then - (Z.abs a * Z.abs b)
                                  else Z.abs a * Z.abs b.
Proof. intros _ _. unfold mult_negative. do 2 case_bool_decide; cbn; nia. Qed.

Lemma Mult_unsigned a b :
  let r := Mult a b false in
  is_i32 r.1 /\ is_i32 r.2 /\ u32 r.1 * 4294967296 + u32 r.2 = u32 a * u32 b.
Proof.
  cbn zeta. unfold Mult. destruct (bool_decide (a = 0) || bool_decide (b = 0)) eqn:E0.
  { cbn [fst snd]. split_and!; [done..|]. change (u32 0) with 0.
    apply orb_true_iff in E0 as [E|E]; apply bool_decide_eq_true in E; subst;
      change (u32 0) with 0; lia. }
  cbn [andb]. destruct (mult_loop_product a (u32 b) (u32_range b)) as (R1 & R2 & R3).
  destruct (mult_loop 32 a (u32 b) 0 0 0) as [hi lo]. cbn [fst snd] in *.
  rewrite !u32_i32, !u32_id by done. auto with nachos.
Qed.

Lemma Mult_signed a b :
  is_i32 a -> is_i32 b ->
  let r := Mult a b true in
  is_i32 r.1 /\ is_i32 r.2 /\ r.1 * 4294967296 + u32 r.2 = a * b.
Proof.
  intros Ha Hb. cbn zeta. unfold Mult.
  destruct (bool_decide (a = 0) || bool_decide (b = 0)) eqn:E0.
  { cbn [fst snd]. split_and!; [done..|]. change (u32 0) with 0.
    apply orb_true_iff in E0 as [E|E]; apply bool_decide_eq_true in E; subst; lia. }
  rewrite (signed_product a b Ha Hb).
  pose proof (u32_neg_id a Ha) as Ea. pose proof (u32_neg_id b Hb) as Eb.
  set (a' := if bool_decide (a < 0) then i32 (- a) else a) in *.
  set (b' := if bool_decide (b < 0) then i32 (- b) else b) in *.
  cbn [andb].
  replace (if bool_decide (a < 0) then (negb false, i32 (- a)) else (false, a))
    with (bool_decide (a < 0), a') by (unfold a'; by destruct (bool_decide (a < 0))).
  replace (if bool_decide (b < 0) then (negb (bool_decide (a < 0)), i32 (- b))
           else (bool_decide (a < 0), b))
    with (mult_negative a b, b')
    by (unfold b', mult_negative;
        by destruct (bool_decide (a < 0)), (bool_decide (b < 0))).
  destruct (mult_loop_product a' (u32 b') (u32_range b')) as (R1 & R2 & R3).
  rewrite Ea, Eb in R3. cbn beta iota. rewrite Eb in *.
  destruct (mult_loop 32 a' (Z.abs b) 0 0 0) as [hi lo]. cbn [fst snd] in *.
  assert (Hp : 0 <= Z.abs a * Z.abs b <= 4611686018427387904)
    by (unfold is_i32, int_min, int_max in *; nia).
  destruct (mult_negative a b); cbn [fst snd]; split_and!; auto with nachos.
  - rewrite u32_i32, (u32_id (u32 _)) by apply u32_range. by apply negate_dword.
  - rewrite u32_i32, u32_id by done. rewrite <- R3 in *. rewrite i32_id; [done|].
    unfold is_i32, is_u32, int_min, int_max, dword in *. lia.
Qed.

(** ** Signs and overflow *)

Lemma sign_neg x : is_i32 x -> sign x = bool_decide (x < 0).
Proof.
  intros Hx. unfold sign, SIGN_BIT. apply bool_decide_ext. by apply sign_bit.
Qed.

Lemma lxor_neg a b : Z.lxor a b < 0 <-> (a < 0 <-> ~ b < 0).
Proof. pose proof (Z.lxor_nonneg a b). lia. Qed.

Lemma sign_lxor a b :
  is_i32 a -> is_i32 b -> sign (Z.lxor a b) = xorb (bool_decide (a < 0)) (bool_decide (b < 0)).
Proof.
  intros Ha Hb. rewrite sign_neg by auto with nachos. pose proof (lxor_neg a b) as H.
  repeat case_bool_decide; cbn; lia.
Qed.

#[global] Instance is_i32_dec x : Decision (is_i32 x).
Proof. unfold is_i32. apply _. Defined.

Lemma overflow_add a b :
  is_i32 a -> is_i32 b ->
  negb (sign (Z.lxor a b)) && sign (Z.lxor a (i32 (a + b))) = bool_decide (~ is_i32 (a + b)).
Proof.
  intros Ha Hb. rewrite !sign_lxor by auto with nachos.
  unfold is_i32, i32, int_min, int_max in *.
  repeat case_bool_decide; cbn; try done; exfalso; zlia.
Qed.

Lemma overflow_sub a b :
  is_i32 a -> is_i32 b ->
  sign (Z.lxor a b) && sign (Z.lxor a (i32 (a - b))) = bool_decide (~ is_i32 (a - b)).
Proof.
  intros Ha Hb. rewrite !sign_lxor by auto with nachos.
  unfold is_i32, i32, int_min, int_max in *.
  repeat case_bool_decide; cbn; try done; exfalso; zlia.
Qed.

(** ** Unaligned words

    LWL, LWR, SWL and SWR keep some bytes of one word and take the others from
    another; on the little-endian machine the pair [LWL rt,k+3; LWR rt,k] moves
    the four bytes from address [k] on. *)

(** [(lo & (2^n - 1)) | (hi << n)]: the low bytes kept. *)
Lemma keep_low n lo hi :
  0 <= n < 32 ->
  u32 (Z.lor (Z.land lo (Z.ones n)) (i32 (Z.shiftl hi n))) = u32 (lo mod 2 ^ n + hi * 2 ^ n).
Proof.
  intros Hn. rewrite u32_lor, u32_i32, <- u32_lor, Z.land_ones by lia.
  rewrite lor_disjoint; [done|lia|]. apply Z.mod_pos_bound. apply Z.pow_pos_nonneg; lia.
Qed.

(** [(hi & ~(2^n - 1)) | (lo & (2^n - 1))]: the high bytes kept. *)
Lemma keep_high n hi lo :
  0 <= n < 32 ->
  Z.lor (Z.land (u32 hi) (Z.shiftl (Z.ones (32 - n)) n)) (Z.land lo (Z.ones n))
    = lo mod 2 ^ n + u32 hi / 2 ^ n * 2 ^ n.
Proof.
  intros Hn. rewrite Z.lor_comm, <- lor_disjoint by
    (try apply Z.mod_pos_bound; try apply Z.pow_pos_nonneg; lia).
  rewrite Z.land_ones by lia. f_equal. apply Z.bits_inj'. intros j Hj.
  rewrite Z.land_spec, !Z.shiftl_spec, u32_bits by lia.
  destruct (Z.ltb_spec j n).
  { rewrite !(Z.testbit_neg_r _ (j - n)) by lia. by rewrite andb_false_r. }
  rewrite Z.testbit_ones_nonneg, Z.div_pow2_bits, u32_bits by lia.
  replace (j - n + n) with j by lia. case_bool_decide; [|done].
  rewrite andb_true_l. replace (j - n <? 32 - n) with true; [by rewrite andb_true_r|].
  symmetry. apply Z.ltb_lt. lia.
Qed.

Lemma i32_mod x n : 0 <= n <= 32 -> i32 x mod 2 ^ n = x mod 2 ^ n.
Proof.
  intros Hn. apply Z.bits_inj'. intros j Hj. rewrite !Z.testbit_mod_pow2 by lia.
  destruct (Z.ltb_spec j n); [|done]. by rewrite i32_low by lia.
Qed.

(** Case analysis on a byte number. *)
Lemma byte_cases (P : Z -> Prop) :
  P 0 -> P 1 -> P 2 -> P 3 -> forall byte, 0 <= byte <= 3 -> P byte.
Proof.
  intros ? ? ? ? b Hb. assert (b = 0 \/ b = 1 \/ b = 2 \/ b = 3) by lia. naive_solver.
Qed.

Lemma div_mod_u32 v b :
  0 <= b < 32 -> (v / 2 ^ b) mod 2 ^ (32 - b) = u32 v / 2 ^ b.
Proof.
  intros Hb. rewrite <- !Z.shiftr_div_pow2 by lia. apply Z.bits_inj'. intros j Hj.
  rewrite Z.testbit_mod_pow2, !Z.shiftr_spec, u32_bits by lia. f_equal.
  destruct (Z.ltb_spec j (32 - b)); symmetry;
    [by apply bool_decide_eq_true; lia|by apply bool_decide_eq_false; lia].
Qed.

Lemma keep_high_u32 b hi v :
  0 <= b < 32 -> 0 < b ->
  u32 (i32 (Z.lor (Z.land (u32 hi) (Z.shiftl (Z.ones b) (32 - b)))
                  (Z.land (Z.shiftr v b) (Z.ones (32 - b)))))
    = u32 v / 2 ^ b + u32 hi / 2 ^ (32 - b) * 2 ^ (32 - b).
Proof.
  intros Hb Hb0. pose proof (keep_high (32 - b) hi (Z.shiftr v b) ltac:(lia)) as K.
  replace (32 - (32 - b)) with b in K by lia. rewrite K, u32_i32.
  rewrite Z.shiftr_div_pow2, div_mod_u32 by lia. apply u32_id.
  pose proof (u32_range v) as Hv. pose proof (u32_range hi) as Hh. unfold is_u32 in *.
  assert (H32 : 2 ^ b * 2 ^ (32 - b) = 4294967296) by (rewrite <- Z.pow_add_r by lia; by replace (b + (32 - b)) with 32 by lia).
  assert (0 < 2 ^ b /\ 0 < 2 ^ (32 - b)) as [? ?] by (split; apply Z.pow_pos_nonneg; lia).
  pose proof (Z.div_mod (u32 hi) (2 ^ (32 - b)) ltac:(lia)).
  pose proof (Z.mod_pos_bound (u32 hi) (2 ^ (32 - b)) ltac:(lia)).
  assert (0 <= u32 v / 2 ^ b < 2 ^ (32 - b)).
  { split; [apply Z.div_pos; lia|]. apply Z.div_lt_upper_bound; lia. }
  assert (0 <= u32 hi / 2 ^ (32 - b) < 2 ^ b).
  { split; [apply Z.div_pos; lia|]. apply Z.div_lt_upper_bound; lia. }
  nia.
Qed.

Lemma lwl_spec old v byte :
  0 <= byte <= 3 ->
  u32 (lwl_merge (3 - byte) old v)
    = u32 (old mod 2 ^ (8 * (3 - byte)) + v * 2 ^ (8 * (3 - byte))).
Proof.
  revert byte. apply byte_cases.
  - exact (keep_low 24 old v ltac:(lia)).
  - exact (keep_low 16 old v ltac:(lia)).
  - exact (keep_low 8 old v ltac:(lia)).
  - change (u32 v = u32 (old mod 1 + v * 1)). rewrite Z.mod_1_r. f_equal. lia.
Qed.

Lemma lwr_spec old v byte :
  0 <= byte <= 3 ->
  u32 (lwr_merge (3 - byte) old v)
    = u32 v / 2 ^ (8 * byte) + u32 old / 2 ^ (32 - 8 * byte) * 2 ^ (32 - 8 * byte).
Proof.
  pose proof (u32_range old) as Ho. unfold is_u32 in Ho.
  revert byte. apply byte_cases.
  - change (u32 v = u32 v / 1 + u32 old / 4294967296 * 4294967296).
    rewrite Z.div_1_r, (Z.div_small (u32 old)) by done. lia.
  - exact (keep_high_u32 8 old v ltac:(lia) ltac:(lia)).
  - exact (keep_high_u32 16 old v ltac:(lia) ltac:(lia)).
  - exact (keep_high_u32 24 old v ltac:(lia) ltac:(lia)).
Qed.

(** SWL and SWR are LWR and LWL with memory and register exchanged. *)
Lemma swl_lwr value reg byte :
  0 <= byte <= 3 -> swl_merge (3 - byte) value reg = lwr_merge (3 - (3 - byte)) value reg.
Proof. revert byte. by apply byte_cases. Qed.

Lemma swr_lwl value reg byte :
  0 <= byte <= 3 -> swr_merge (3 - byte) value reg = lwl_merge (3 - (3 - byte)) value reg.
Proof. revert byte. by apply byte_cases. Qed.

(** Evaluate the constant shift amounts of a goal. *)
Ltac eval_shifts :=
  repeat match goal with
  | |- context [(?a + 3) mod 4] =>
      let v := eval vm_compute in ((a + 3) mod 4) in change ((a + 3) mod 4) with v
  | |- context [2 ^ ?e] => let v := eval vm_compute in (2 ^ e) in change (2 ^ e) with v
  | |- context [bool_decide (?x = 0)] =>
      let v := eval vm_compute in (bool_decide (x = 0)) in change (bool_decide (x = 0)) with v
  end; cbv iota.

Lemma unaligned_load k old w0 w1 :
  0 <= k <= 3 ->
  let wl := if bool_decide (k = 0) then w0 else w1 in
  u32 (lwr_merge (3 - k) (lwl_merge (3 - (k + 3) mod 4) old wl) w0)
    = (dword (u32 w1) (u32 w0) / 2 ^ (8 * k)) mod 4294967296.
Proof.
  cbn zeta. revert k. apply byte_cases; rewrite lwr_spec, lwl_spec by (done || lia);
    eval_shifts; unfold dword, u32; zlia.
Qed.

(** The double word with the four bytes from byte [k] on replaced. *)
Definition patch (d k v : Z) : Z :=
  d mod 2 ^ (8 * k) + v * 2 ^ (8 * k) + d / 2 ^ (8 * k + 32) * 2 ^ (8 * k + 32).

Lemma unaligned_store k w0 w1 reg :
  1 <= k <= 3 ->
  dword (u32 (swl_merge (3 - (k + 3) mod 4) w1 reg)) (u32 (swr_merge (3 - k) w0 reg))
    = patch (dword (u32 w1) (u32 w0)) k (u32 reg).
Proof.
  intros Hk. assert (H : 0 <= k <= 3) by lia. revert k H Hk.
  apply (byte_cases (fun k => 1 <= k <= 3 -> _)); intros Hk; [lia|..]; clear Hk;
    rewrite swl_lwr, swr_lwl, lwr_spec, lwl_spec by (done || lia);
    unfold patch; eval_shifts; unfold dword, u32; zlia.
Qed.
