(* ===== verification/MachineProofs.v ===== *)
(** * Well-formedness of the machine and its preservation by the memory system

    The registers hold 32-bit integers, register 0 is zero and the pending load
    names a general register; the memory has [MemorySize] bytes; the tables
    have the sizes the constructor gave them.  Every routine of machine.cc,
    translate.cc and exception.cc that returns keeps this. *)

From S2P Require Import Prelude Words Bytes Bitmap Machine.

(** ** Registers *)

Record regs_ok (r : list Z) : Prop := mkRegsOk {
  regs_length : length r = 40%nat;
  regs_i32 : Forall is_i32 r;
  regs_load : exists lr, r !! 37%nat = Some lr /\ 0 <= lr < NumGPRegs }.

Definition zero_ok (r : list Z) : Prop := r !! 0%nat = Some 0.

Lemma getReg_Ok m i v : getReg m i = Ok v <-> 0 <= i /\ registers m !! Z.to_nat i = Some v.
Proof. apply aget_Ok. Qed.

Lemma getReg_i32 m i v : regs_ok (registers m) -> getReg m i = Ok v -> is_i32 v.
Proof. intros [_ H _] [_ E]%getReg_Ok. by eapply Forall_lookup_1 in E. Qed.

Lemma getReg_total m i :
  regs_ok (registers m) -> 0 <= i < 40 -> exists v, getReg m i = Ok v /\ is_i32 v.
Proof.
  intros H Hi. destruct (aget_in_range (registers m) i) as [v Hv].
  { destruct H as [-> _ _]. lia. }
  exists v. split; [done|]. by eapply getReg_i32.
Qed.

Lemma setReg_Ok m i v m' :
  setReg m i v = Ok m' <->
  0 <= i < Z.of_nat (length (registers m)) /\
  m' = with_registers m (<[Z.to_nat i := v]> (registers m)).
Proof.
  unfold setReg, aset. case_bool_decide as H; cbn; [|naive_solver].
  split; [intros E; by injection E as <-|intros [_ ->]; done].
Qed.

Lemma setReg_total m i v :
  regs_ok (registers m) -> 0 <= i < 40 ->
  setReg m i v = Ok (with_registers m (<[Z.to_nat i := v]> (registers m))).
Proof. intros [H _ _] Hi. apply setReg_Ok. rewrite H. split; [lia|done]. Qed.

(** A write anywhere but in [LoadReg] keeps the registers well formed. *)
Lemma regs_insert r i v :
  regs_ok r -> is_i32 v -> (i = 37%nat -> 0 <= v < NumGPRegs) -> regs_ok (<[i := v]> r).
Proof.
  intros [Hl Hf (lr & E & Hr)] Hv Hi. split.
  - by rewrite length_insert.
  - by apply Forall_insert.
  - destruct (decide (i = 37%nat)) as [->|Hne].
    + exists v. rewrite list_lookup_insert_eq by lia. auto.
    + exists lr. rewrite list_lookup_insert_ne by done. auto.
Qed.

Lemma setReg_ok m i v m' :
  setReg m i v = Ok m' -> regs_ok (registers m) -> is_i32 v ->
  (i = LoadReg -> 0 <= v < NumGPRegs) -> regs_ok (registers m').
Proof.
  intros [Hi ->]%setReg_Ok H Hv HL. cbn. apply regs_insert; [done..|].
  intros E. apply HL. unfold LoadReg. lia.
Qed.

(** A general register is not one of the special ones. *)
Lemma setReg_gp m i v m' :
  setReg m i v = Ok m' -> regs_ok (registers m) -> is_i32 v -> i <> LoadReg ->
  regs_ok (registers m').
Proof. intros. eapply setReg_ok; [done..|]. intros; contradiction. Qed.

(** ** The delayed load *)

Definition delayed (r : list Z) (nextReg nextValue : Z) : list Z :=
  let lr := default 0 (r !! 37%nat) in
  let lv := default 0 (r !! 38%nat) in
  <[0%nat := 0]> (<[38%nat := nextValue]> (<[37%nat := nextReg]> (<[Z.to_nat lr := lv]> r))).

Lemma DelayedLoad_total m nr nv :
  regs_ok (registers m) ->
  DelayedLoad m nr nv = Ok (with_registers m (delayed (registers m) nr nv)).
Proof.
  intros H. pose proof H as [Hl _ (lr & E & Hr)]. unfold NumGPRegs in Hr.
  destruct (lookup_lt_is_Some_2 (registers m) 38) as [lv Ev]; [lia|].
  unfold DelayedLoad, delayed.
  rewrite (proj2 (getReg_Ok m LoadReg lr)) by (unfold LoadReg; split; [lia|done]).
  rewrite (proj2 (getReg_Ok m LoadValueReg lv)) by (unfold LoadValueReg; split; [lia|done]).
  rewrite E, Ev. cbn [mbind res_bind].
  rewrite setReg_total by (done || lia). cbn [mbind res_bind].
  unfold setReg, aset, LoadReg, LoadValueReg. cbn [registers with_registers].
  repeat (rewrite bool_decide_true by (cbn [registers with_registers]; rewrite ?length_insert, ?Hl; lia);
          cbn [mbind res_bind registers with_registers]).
  done.
Qed.

Lemma delayed_ok r nr nv :
  regs_ok r -> 0 <= nr < NumGPRegs -> is_i32 nv ->
  regs_ok (delayed r nr nv) /\ zero_ok (delayed r nr nv).
Proof.
  intros H Hn Hv. pose proof H as [Hl Hf (lr & E & Hr)]. unfold delayed. rewrite E. cbn [default].
  destruct (lookup_lt_is_Some_2 r 38) as [lv Ev]; [lia|]. rewrite Ev. cbn [default].
  assert (is_i32 lv) by (by eapply Forall_lookup_1 in Ev). unfold NumGPRegs in *.
  split; [|unfold zero_ok; rewrite list_lookup_insert_eq; [done|rewrite !length_insert; lia]].
  assert (is_i32 nr /\ is_i32 0) as [? ?] by (unfold is_i32, int_min, int_max; lia).
  cbn [id]. repeat (apply regs_insert; [| done | unfold NumGPRegs; lia]). done.
Qed.

(** ** Memory and tables *)

(** What the routines below never disturb. *)
Record env_ok (m : Machine) : Prop := mkEnvOk {
  env_length : length (mainMemory m) = Z.to_nat MemorySize;
  env_bytes : Forall is_byte (mainMemory m);
  env_exec : Forall is_byte (executable m);
  env_vm : forall f, vmFile m = Some f -> Forall is_byte f }.

(** The sizes of the TLB, of the page table and of the frame bitmap, and the
    program that runs. *)
Definition shape (m : Machine) : option nat * option nat * Z * Z * (list Z * Z) :=
  (length <$> tlb m, length <$> pt m, pageTableSize m, BitmapImpl.numBits (mmBitmap m),
   (executable m, codeInFileAddr m)).

(** [m'] differs from [m] in table entries and memory contents only. *)
Record keeps (m m' : Machine) : Prop := mkKeeps {
  keeps_env : env_ok m -> env_ok m';
  keeps_regs : registers m' = registers m;
  keeps_tid : currentTID m' = currentTID m;
  keeps_shape : shape m' = shape m }.

#[global] Instance keeps_po : PreOrder keeps.
Proof.
  split; [by intros m|]. intros a b c [H1 H2 H3 H4] [K1 K2 K3 K4].
  split; [auto|congruence..].
Qed.

Lemma aset_length {A} (l : list A) i a l' : aset l i a = Ok l' -> length l' = length l.
Proof.
  unfold aset. case_bool_decide; [|done]. intros E. injection E as <-. apply length_insert.
Qed.

Lemma keeps_counters m a b c : keeps m (with_counters m a b c).
Proof. split; try done. by intros [? ? ? ?]. Qed.

Lemma keeps_status m s : keeps m (with_status m s).
Proof. split; try done. by intros [? ? ? ?]. Qed.

Lemma keeps_tlb m l l' : tlb m = Some l -> length l' = length l -> keeps m (with_tlb m (Some l')).
Proof.
  intros E H. split; try done; [by intros [? ? ? ?]|]. unfold shape. cbn. rewrite E. cbn. by rewrite H.
Qed.

Lemma keeps_pt m t t' : pt m = Some t -> length t' = length t -> keeps m (with_pt m (Some t')).
Proof.
  intros E H. split; try done; [by intros [? ? ? ?]|]. unfold shape. cbn. rewrite E. cbn. by rewrite H.
Qed.

Lemma keeps_memory m mem addr bs :
  mem_write (mainMemory m) addr bs = Ok mem -> (env_ok m -> Forall is_byte bs) ->
  keeps m (with_memory m mem).
Proof.
  intros E Hb. split; try done. intros H. pose proof H as [H1 H2 H3 H4]. split; try done; cbn.
  - rewrite <- H1. by apply mem_write_length in E.
  - eapply mem_write_Forall; eauto.
Qed.

Lemma keeps_vmFile m f : (env_ok m -> Forall is_byte f) -> keeps m (with_vmFile m (Some f)).
Proof.
  intros Hb. split; try done. intros H. pose proof H as [H1 H2 H3 H4]. split; try done; cbn.
  intros f' E. injection E as <-. auto.
Qed.

Lemma mem_read_bytes m addr n bs :
  mem_read m addr n = Ok bs -> Forall is_byte m -> length bs = n /\ Forall is_byte bs.
Proof.
  unfold mem_read. case_bool_decide; [|done]. intros E Hm. injection E as <-. split.
  - rewrite length_take, length_drop. lia.
  - by apply Forall_take, Forall_drop.
Qed.

Lemma unix_ReadAt_bytes f n p bs :
  unix_ReadAt f n p = Ok bs -> Forall is_byte f -> Forall is_byte bs.
Proof. unfold unix_ReadAt. intros E Hf. inv_res. by apply Forall_take, Forall_drop. Qed.

Lemma unix_WriteAt_bytes f bs p f' :
  unix_WriteAt f bs p = Ok f' -> Forall is_byte f -> Forall is_byte bs -> Forall is_byte f'.
Proof.
  unfold unix_WriteAt. intros E Hf Hb. inv_res.
  assert (Forall is_byte (f ++ replicate (Z.to_nat p - length f) 0)).
  { apply Forall_app_2; [done|]. by apply Forall_replicate. }
  apply Forall_app_2; [by apply Forall_take|]. apply Forall_app_2; [done|by apply Forall_drop].
Qed.

Lemma arr_Ok t l : arr t = Ok l <-> t = Some l.
Proof. destruct t; cbn; naive_solver. Qed.

Lemma updateFIFOFlag_length t p n t' : updateFIFOFlag t p n = Ok t' -> length t' = length t.
Proof. unfold updateFIFOFlag. intros E. inv_res. by eapply aset_length. Qed.

Lemma updateLRUFlag_length t p n t' : updateLRUFlag t p n = Ok t' -> length t' = length t.
Proof. unfold updateLRUFlag. intros E. inv_res. by eapply aset_length. Qed.

#[export] Hint Resolve keeps_counters keeps_status aset_length updateFIFOFlag_length
  updateLRUFlag_length : nachos.

(** ** The routines *)

Lemma swap_in_keeps m t v e m' :
  swap_in m t v e = Ok m' -> pt m = Some t -> keeps m m'.
Proof.
  unfold swap_in. intros E Ht. destruct (vmFile m) as [f|] eqn:Ef; [|done]. cbn in E.
  apply bind_Ok in E as (j & _ & E). apply bind_Ok in E as ([t1 f1] & E1 & E). inv_res.
  assert (length t1 = length t /\ (env_ok m -> Forall is_byte f1)) as [Hl Hf].
  { destruct j as [j|]; inv_res; [|split; [done|intros H; by apply (env_vm _ H)]].
    split; [by eapply aset_length|]. intros H.
    match goal with X : mem_read _ _ _ = Ok _ |- _ =>
      apply mem_read_bytes in X as [_ ?]; [|by apply env_bytes] end.
    eapply unix_WriteAt_bytes; [done| |done]. by apply (env_vm _ H). }
  rename a0 into t2, a1 into data, a2 into mem.
  split; try done.
  - intros H. pose proof (Hf H). split; cbn.
    + rewrite <- (env_length _ H). by eapply mem_write_length.
    + eapply mem_write_Forall; [done|by apply env_bytes|]. by eapply unix_ReadAt_bytes.
    + by apply env_exec.
    + intros f' E'. by injection E' as <-.
  - unfold shape. cbn. rewrite Ht. cbn. apply aset_length in Hm0. congruence.
Qed.

Lemma pageTableTranslation_keeps cfg m v va r m' :
  pageTableTranslation cfg m v va = Ok (r, m') -> keeps m m'.
Proof.
  unfold pageTableTranslation. intros E. apply bind_Ok in E as (t & Ht%arr_Ok & E).
  destruct (USE_RPT cfg).
  - apply bind_Ok in E as ([i|] & _ & E); inv_res; done.
  - case_bool_decide; inv_res; [done|]. destruct (negb (valid a)); inv_res; [|done].
    case_bool_decide; inv_res; [|done]. by eapply swap_in_keeps.
Qed.

Lemma lookup_page_keeps cfg m v va w r s m' :
  lookup_page cfg m v va w = Ok (r, s, m') -> keeps m m'.
Proof.
  unfold lookup_page. intros E. destruct (tlb m) as [l|].
  - apply bind_Ok in E as ([i|] & _ & E); inv_res; [|done].
    destruct (readOnly a && w); inv_res; done.
  - apply bind_Ok in E as ([[e pe] m1] & E1 & E). inv_res.
    by eapply pageTableTranslation_keeps.
Qed.

Lemma touch_pt_keeps cfg m v f m' : touch_pt cfg m v f = Ok m' -> keeps m m'.
Proof.
  unfold touch_pt. intros E. destruct (LRU_REPLACE cfg); inv_res; [|done].
  apply arr_Ok in Hm. eapply keeps_pt; [done|].
  destruct (USE_RPT cfg); by eapply updateLRUFlag_length.
Qed.

Lemma touch_tlb_keeps cfg m s m' : touch_tlb cfg m s = Ok m' -> keeps m m'.
Proof.
  unfold touch_tlb. intros E. destruct (tlb m) as [l|] eqn:El, s; inv_res; try done.
  destruct (LRU_REPLACE cfg); inv_res; [|done]. eapply keeps_tlb; [done|].
  by eapply updateLRUFlag_length.
Qed.

(** A translation that succeeds gives an address with a whole word of memory
    behind it. *)
Lemma Translate_keeps cfg m va size w e pa m' :
  Translate cfg m va size w = Ok (e, pa, m') ->
  keeps m m' /\ (e = NoException -> 0 <= pa /\ pa + 4 <= MemorySize).
Proof.
  unfold Translate. set (m0 := with_counters m _ _ _). intros E.
  assert (K0 : keeps m m0) by apply keeps_counters.
  destruct (_ || _); inv_res; [done|].
  destruct a1 as [[[e1 [frame entry]] slot] m1]. apply lookup_page_keeps in Hm1.
  assert (K1 : keeps m m1) by (by etransitivity).
  case_decide; inv_res; [done|]. destruct (readOnly entry && w); inv_res; [done|].
  destruct (bool_decide (frame >= NumPhysPages) || _); inv_res; [done|].
  apply touch_pt_keeps in Hm2. apply touch_tlb_keeps in Hm4.
  apply andb_true_iff in Hm3 as [A1%bool_decide_eq_true A2%bool_decide_eq_true].
  split; [|intros _; lia]. do 2 (etransitivity; [done|]). done.
Qed.

Lemma updateTLB_length cfg m t e t' : updateTLB cfg m t e = Ok t' -> length t' = length t.
Proof.
  unfold updateTLB. intros E. inv_res. apply aset_length in Hm1.
  destruct (FIFO_REPLACE cfg); inv_res; [|done]. by apply updateFIFOFlag_length in E as ->.
Qed.

(** The loaders read bytes of memory or of a file into memory. *)
Lemma loadPageFrame_keeps cfg m v p fa m' : loadPageFrame cfg m v p fa = Ok m' -> keeps m m'.
Proof.
  unfold loadPageFrame. intros E. apply bind_Ok in E as (t & Ht%arr_Ok & E).
  apply bind_Ok in E as (m1 & E1 & E). inv_res.
  assert (keeps m m1).
  { destruct (USE_RPT cfg); inv_res.
    - eapply keeps_pt; [done|]. apply aset_length in Hm2.
      destruct (FIFO_REPLACE cfg); inv_res; [apply updateFIFOFlag_length in Hm3|]; congruence.
    - assert (length a3 = length t).
      { apply aset_length in Hm2. destruct (FIFO_REPLACE cfg); inv_res;
          [apply updateFIFOFlag_length in Hm3|]; congruence. }
      destruct (dirty a1); inv_res.
      + etransitivity; [by apply (keeps_pt m t a3)|]. apply keeps_vmFile.
        intros HE. pose proof (env_vm _ HE) as HV. cbn in HV.
        destruct (vmFile m) as [f|]; inv_res. eapply unix_WriteAt_bytes; [done|by apply HV|].
        eapply mem_read_bytes; [done|]. apply (env_bytes _ HE).
      + by apply (keeps_pt m t a3). }
  etransitivity; [done|]. eapply keeps_memory; [done|].
  intros HE. eapply unix_ReadAt_bytes; [done|]. by apply env_exec.
Qed.

Lemma Mark_numBits b i b' :
  BitmapImpl.Mark b i = Ok b' -> BitmapImpl.numBits b' = BitmapImpl.numBits b.
Proof. unfold BitmapImpl.Mark. intros E. by inv_res. Qed.

Lemma Clear_numBits b i b' :
  BitmapImpl.Clear b i = Ok b' -> BitmapImpl.numBits b' = BitmapImpl.numBits b.
Proof. unfold BitmapImpl.Clear. intros E. by inv_res. Qed.

Lemma findAvailablePageFrame_keeps m f m' :
  findAvailablePageFrame m = Ok (f, m') -> keeps m m'.
Proof.
  unfold findAvailablePageFrame. intros E. apply bind_Ok in E as ([r b] & E1 & E). inv_res.
  assert (BitmapImpl.numBits b = BitmapImpl.numBits (mmBitmap m)) as Hb.
  { revert E1. unfold BitmapImpl.FindAndSet. generalize (Z.to_nat (BitmapImpl.numBits (mmBitmap m))) as n, 0.
    induction n as [|n IH]; intros i E1; cbn in E1; inv_res; [done|].
    destruct (negb a); inv_res; [by eapply Mark_numBits|by eapply IH]. }
  split; try done; [by intros [? ? ? ?]|]. unfold shape. cbn. by rewrite Hb.
Qed.

Lemma page_fault_keeps cfg m m' : page_fault cfg m = Ok m' -> keeps m m'.
Proof.
  unfold page_fault. intros E. apply bind_Ok in E as (va & _ & E).
  apply bind_Ok in E as ([f m1] & E1%findAvailablePageFrame_keeps & E). inv_res.
  apply loadPageFrame_keeps in E. etransitivity; [apply keeps_counters|]. by etransitivity.
Qed.

Lemma exit_rpt_loop_spec m t bm t' :
  for_loop (Z.to_nat NumPhysPages) 0 (fun i '(bm, t) =>
      e ← aget t i;
      if bool_decide (tID e = currentTID m) then
        bm' ← BitmapImpl.Clear bm i; t' ← aset t i reset_entry; Ok (bm', t')
      else Ok (bm, t)) (mmBitmap m, t) = Ok (bm, t') ->
  BitmapImpl.numBits bm = BitmapImpl.numBits (mmBitmap m) /\ length t' = length t.
Proof.
  intros E. eapply (for_loop_inv (fun _ s =>
    BitmapImpl.numBits s.1 = BitmapImpl.numBits (mmBitmap m) /\ length s.2 = length t)) in E;
    [done|done|].
  intros i [b l] s1 Hi [H1 H2] Eb. inv_res. case_bool_decide; inv_res; [|done].
  cbn in *. split; [rewrite <- H1; by eapply Clear_numBits|rewrite <- H2; by eapply aset_length].
Qed.

Lemma exit_keeps cfg m m' :
  (if USE_RPT cfg then exit_rpt m else exit_pt m) = Ok m' -> keeps m m'.
Proof.
  destruct (USE_RPT cfg); [unfold exit_rpt|unfold exit_pt]; intros E;
    apply bind_Ok in E as (t & Ht%arr_Ok & E).
  - apply bind_Ok in E as ([bm t'] & E1%exit_rpt_loop_spec & E). inv_res.
    destruct E1 as [Hb Hl].
    split; try done; [by intros [? ? ? ?]|]. unfold shape. cbn. rewrite Hb, Ht. cbn. rewrite Hl.
    by destruct (tlb m); cbn; rewrite ?length_map.
  - inv_res. eapply (for_loop_inv (fun _ b => BitmapImpl.numBits b = BitmapImpl.numBits (mmBitmap m)))
      in Hm; [|done|].
    + split; try done; [by intros [? ? ? ?]|]. unfold shape. cbn. rewrite Hm.
      by destruct (tlb m); cbn; rewrite ?length_map.
    + intros i b s1 Hi H1 Eb. inv_res. destruct (valid _); inv_res; [|done].
      apply Clear_numBits in Eb. congruence.
Qed.

(** ** Traps *)

Definition ctl_machine {A} (c : ctl A) : Machine :=
  match c with Ret _ m => m | Halted m => m | ThreadFinished m => m end.

(** The state between two accesses of an instruction: [zero_ok] is
    re-established by the delayed load. *)
Record mid_ok (m : Machine) : Prop := mkMidOk {
  mid_env : env_ok m; mid_regs : regs_ok (registers m) }.

(** The state between two instructions. *)
Definition machine_ok (m : Machine) : Prop := mid_ok m /\ zero_ok (registers m).

Lemma keeps_mid m m' : keeps m m' -> mid_ok m -> mid_ok m'.
Proof. intros [K1 K2 _ _] [H1 H2]. split; [auto|by rewrite K2]. Qed.

Lemma keeps_ok m m' : keeps m m' -> machine_ok m -> machine_ok m'.
Proof.
  intros K [H1 H2]. split; [by eapply keeps_mid|]. by rewrite (keeps_regs _ _ K).
Qed.

Lemma env_with_registers m r : env_ok m -> env_ok (with_registers m r).
Proof. by intros [? ? ? ?]. Qed.

(** Writes of registers through [WriteRegister]. *)
Lemma WriteRegister_ok m i v m' s :
  WriteRegister m i v = Ok m' -> machine_ok m /\ shape m = s -> is_i32 v -> i <> LoadReg ->
  i <> 0 -> machine_ok m' /\ shape m' = s.
Proof.
  unfold WriteRegister. intros E [[[HE HR] HZ] <-] Hv HL H0. inv_res.
  pose proof (setReg_gp _ _ _ _ E HR Hv HL) as HR'.
  apply setReg_Ok in E as [Hi ->]. split; [|done]. split.
  - split; [by apply env_with_registers|done].
  - unfold zero_ok. cbn. rewrite list_lookup_insert_ne by lia. done.
Qed.

Lemma ReadRegister_i32 m i v : ReadRegister m i = Ok v -> machine_ok m -> is_i32 v.
Proof. unfold ReadRegister. intros E [[_ H] _]. inv_res. by eapply getReg_i32. Qed.

Lemma sys_add_ok m m' : sys_add m = Ok m' -> machine_ok m -> machine_ok m' /\ shape m' = shape m.
Proof.
  unfold sys_add, SysAdd. intros E H. inv_res.
  match goal with X : WriteRegister m 2 _ = Ok ?m1 |- _ =>
    assert (machine_ok m1 /\ shape m1 = shape m) as K1
      by (eapply WriteRegister_ok; [exact X|done|apply i32_range|done|done]) end.
  match goal with X : WriteRegister _ PrevPCReg _ = Ok ?m1 |- _ =>
    assert (machine_ok m1 /\ shape m1 = shape m) as K2
      by (eapply WriteRegister_ok; [exact X|exact K1|eapply ReadRegister_i32; [done|apply K1]|done|done]) end.
  match goal with X : WriteRegister _ PCReg _ = Ok ?m1 |- _ =>
    assert (machine_ok m1 /\ shape m1 = shape m) as K3
      by (eapply WriteRegister_ok; [exact X|exact K2|apply i32_range|done|done]) end.
  eapply WriteRegister_ok; [exact E|exact K3|apply i32_range|done|done].
Qed.

Lemma handle_exception_ok cfg m which c :
  handle_exception cfg m which = Ok c -> machine_ok m ->
  machine_ok (ctl_machine c) /\ shape (ctl_machine c) = shape m.
Proof.
  unfold handle_exception. intros E H. inv_res. destruct which; inv_res.
  - case_bool_decide; inv_res; [done|]. case_bool_decide; inv_res.
    + apply exit_keeps in Hm0. split; [by eapply keeps_ok|by apply keeps_shape].
    + case_bool_decide; inv_res. by apply sys_add_ok.
  - apply page_fault_keeps in Hm0. split; [by eapply keeps_ok|by apply keeps_shape].
Qed.

Lemma ExceptionHandler_ok cfg m which c :
  ExceptionHandler cfg m which = Ok c -> machine_ok m ->
  machine_ok (ctl_machine c) /\ shape (ctl_machine c) = shape m.
Proof.
  unfold ExceptionHandler. intros E H. case_decide; [|by eapply handle_exception_ok].
  apply bind_Ok in E as (? & _ & E). apply bind_Ok in E as (va & _ & E).
  apply bind_Ok in E as ([[e [f entry]] m1] & E1%pageTableTranslation_keeps & E).
  assert (K : keeps m m1) by (etransitivity; [apply keeps_counters|done]).
  case_decide; inv_res.
  - rewrite <- (keeps_shape _ _ K). eapply handle_exception_ok; [done|by eapply keeps_ok].
  - apply arr_Ok in Hm. apply updateTLB_length in Hm0. cbn.
    assert (K2 : keeps m (with_tlb m1 (Some a0))) by (etransitivity; [done|by eapply keeps_tlb]).
    split; [by eapply keeps_ok|by apply keeps_shape].
Qed.

Lemma RaiseException_ok cfg m which bad c :
  RaiseException cfg m which bad = Ok c -> mid_ok m -> is_i32 bad ->
  machine_ok (ctl_machine c) /\ shape (ctl_machine c) = shape m.
Proof.
  unfold RaiseException. intros E [HE HR] Hb. apply bind_Ok in E as (m1 & E1 & E).
  pose proof (setReg_gp _ _ _ _ E1 HR Hb ltac:(done)) as HR1.
  apply setReg_Ok in E1 as [_ ->]. rewrite DelayedLoad_total in E by done. cbn in E.
  destruct (delayed_ok _ 0 0 HR1 ltac:(done) ltac:(done)) as [HR2 HZ2]. cbn in HR2, HZ2.
  apply bind_Ok in E as (c' & E2 & E).
  eapply ExceptionHandler_ok in E2 as [H2 S2]; [|split; [split; [|exact HR2]|exact HZ2]].
  - inv_res. destruct c' as [u m2|m2|m2]; cbn in *; split; try done.
    by eapply keeps_ok; [apply keeps_status|].
  - by destruct HE.
Qed.

(** ** Loads and stores *)

Lemma le_combine_u32 bs : Forall is_byte bs -> (length bs <= 4)%nat -> is_u32 (le_combine bs).
Proof.
  intros Hb Hl. pose proof (le_combine_range bs Hb).
  assert (256 ^ Z.of_nat (length bs) <= 256 ^ 4) by (apply Z.pow_le_mono_r; lia).
  unfold is_u32. lia.
Qed.

Lemma le_combine_2 bs : Forall is_byte bs -> length bs = 2%nat -> 0 <= le_combine bs < 65536.
Proof. intros Hb Hl. pose proof (le_combine_range bs Hb) as H. by rewrite Hl in H. Qed.

Lemma host_load_rev cfg bs :
  host_load cfg bs = le_combine (if HOST_IS_BIG_ENDIAN cfg then rev bs else bs).
Proof. unfold host_load. by destruct (HOST_IS_BIG_ENDIAN cfg). Qed.

(** [ShortToHost] and [WordToHost] undo the order in which a big-endian host
    reads: the value is the little-endian one on every host. *)
Lemma short_le cfg bs :
  Forall is_byte bs -> length bs = 2%nat -> ShortToHost cfg (host_load cfg bs) = le_combine bs.
Proof.
  intros Hb Hl. destruct bs as [|x [|y [|? ?]]]; try done.
  inversion Hb as [|? ? Hx Hb']; subst. inversion Hb' as [|? ? Hy _]; subst.
  unfold ShortToHost, host_load, is_byte in *. destruct (HOST_IS_BIG_ENDIAN cfg); [|done].
  cbn [rev app le_combine].
  rewrite (byte_left _ 8 8), (byte_right _ 8 0) by lia.
  rewrite Z.shiftl_0_r, Z.lor_comm, lor_disjoint by zlia.
  change (2 ^ (8 + 0)) with 256. change (2 ^ (8 - 8)) with 1. change (2 ^ 8) with 256. zlia.
Qed.

Lemma word_le cfg bs :
  Forall is_byte bs -> length bs = 4%nat -> WordToHost cfg (host_load cfg bs) = le_combine bs.
Proof.
  intros Hb Hl. destruct bs as [|a [|b [|c [|d [|? ?]]]]]; try done.
  repeat match goal with H : Forall _ (_ :: _) |- _ => inversion H; clear H; subst end.
  unfold WordToHost, host_load, is_byte in *. destruct (HOST_IS_BIG_ENDIAN cfg); [|done].
  cbn [rev app le_combine].
  set (w := d + 256 * (c + 256 * (b + 256 * (a + 256 * 0)))).
  rewrite (byte_left _ 24 24), (byte_left _ 8 16), (byte_right _ 8 8), (byte_right _ 24 0) by lia.
  change (2 ^ (24 + 0)) with 16777216. change (2 ^ (8 + 8)) with 65536.
  change (2 ^ (16 - 8)) with 256. change (2 ^ (24 - 24)) with 1.
  replace ((w / 16777216) mod 256) with a by (unfold w; zlia).
  replace ((w / 65536) mod 256) with b by (unfold w; zlia).
  replace ((w / 256) mod 256) with c by (unfold w; zlia).
  replace ((w / 1) mod 256) with d by (unfold w; zlia).
  rewrite Z.shiftl_0_r, (lor_disjoint 8), (lor_disjoint 16), (lor_disjoint 24);
    change (2 ^ 8) with 256; change (2 ^ 16) with 65536; change (2 ^ 24) with 16777216; lia.
Qed.

(** What each size of load gives, on every host. *)
Definition loaded (bs : list Z) (size : Z) : Z :=
  if bool_decide (size = 1) then char_to_int (le_combine bs)
  else if bool_decide (size = 2) then le_combine bs
  else i32 (le_combine bs).

Lemma load_value_spec cfg mem pa size v :
  Forall is_byte mem -> load_value cfg mem pa size = Ok v ->
  exists bs, mem_read mem pa (Z.to_nat size) = Ok bs /\ v = loaded bs size /\
             (size = 1 \/ size = 2 \/ size = 4).
Proof.
  unfold load_value, loaded. intros Hm E.
  destruct (decide (size = 1)) as [->|]; [|destruct (decide (size = 2)) as [->|];
    [|destruct (decide (size = 4)) as [->|]]]; inv_res; cbn.
  - apply aget_Ok in Hm0 as [Hp El]. exists [a]. cbn. rewrite Z.add_0_r. split_and!; [|done|lia].
    pose proof (lookup_lt_Some _ _ _ El). unfold mem_read. rewrite bool_decide_true by (cbn; lia).
    f_equal. change (Z.to_nat 1) with 1%nat. erewrite (drop_S _ a) by done. done.
  - pose proof (mem_read_bytes _ _ _ _ Hm0 Hm) as [Hl Hb]. rewrite short_le by done. naive_solver.
  - pose proof (mem_read_bytes _ _ _ _ Hm0 Hm) as [Hl Hb]. rewrite word_le by done. naive_solver.
Qed.

Lemma load_value_i32 cfg mem pa size v :
  Forall is_byte mem -> load_value cfg mem pa size = Ok v -> is_i32 v.
Proof.
  intros Hm (bs & E & -> & Hs)%load_value_spec; [|done].
  apply mem_read_bytes in E as [Hl Hb]; [|done]. pose proof (le_combine_range _ Hb) as Hr.
  rewrite Hl in Hr. unfold loaded, char_to_int, is_i32, int_min, int_max.
  destruct Hs as [-> | [-> | ->]]; cbn [bool_decide];
    [change (256 ^ _) with 256 in Hr|change (256 ^ _) with 65536 in Hr|apply i32_range].
  - rewrite bool_decide_true by done. case_bool_decide; lia.
  - rewrite bool_decide_false, bool_decide_true by done. lia.
Qed.

Lemma ReadMem_ok cfg m addr size c :
  ReadMem cfg m addr size = Ok c -> mid_ok m -> is_i32 addr ->
  match c with
  | Ret (Some v) m' => keeps m m' /\ is_i32 v
  | _ => machine_ok (ctl_machine c) /\ shape (ctl_machine c) = shape m
  end.
Proof.
  unfold ReadMem. intros E H Ha. apply bind_Ok in E as ([[e pa] m1] & E1 & E).
  apply Translate_keeps in E1 as [K _]. case_decide; inv_res.
  - apply RaiseException_ok in Hm as [H1 H2]; [|by eapply keeps_mid|done].
    rewrite (keeps_shape _ _ K) in H2. by destruct a.
  - split; [done|]. eapply load_value_i32; [|done]. by eapply env_bytes, mid_env, keeps_mid.
Qed.

Lemma host_store_bytes cfg n w : Forall is_byte (host_store cfg n w).
Proof.
  unfold host_store. destruct (HOST_IS_BIG_ENDIAN cfg); [|apply le_split_bytes].
  apply Forall_rev, le_split_bytes.
Qed.

Lemma land_ff_byte v : is_byte (Z.land v 0xff).
Proof.
  change 0xff with (Z.ones 8). rewrite Z.land_ones by lia. apply Z.mod_pos_bound. done.
Qed.

Lemma store_value_keeps cfg m pa size v mem :
  store_value cfg (mainMemory m) pa size v = Ok mem -> keeps m (with_memory m mem).
Proof.
  unfold store_value. intros E. repeat case_decide; inv_res; eapply keeps_memory; try done; intros _.
  all: try apply host_store_bytes. all: constructor; [apply land_ff_byte|done].
Qed.

Lemma WriteMem_ok cfg m addr size v c :
  WriteMem cfg m addr size v = Ok c -> mid_ok m -> is_i32 addr ->
  match c with
  | Ret true m' => keeps m m'
  | _ => machine_ok (ctl_machine c) /\ shape (ctl_machine c) = shape m
  end.
Proof.
  unfold WriteMem. intros E H Ha. apply bind_Ok in E as ([[e pa] m1] & E1 & E).
  apply Translate_keeps in E1 as [K _]. case_decide; inv_res.
  - apply RaiseException_ok in Hm as [H1 H2]; [|by eapply keeps_mid|done].
    rewrite (keeps_shape _ _ K) in H2. by destruct a.
  - etransitivity; [done|]. by eapply store_value_keeps.
Qed.
