(* ===== verification/MipsProofs.v ===== *)
(** * Correctness of the MIPS simulator

    Decoding is total and its fields are in range; every instruction keeps the
    machine well formed; arithmetic traps exactly on overflow; the delayed load
    and the pair of program counters behave as a load delay slot and a branch
    delay slot. *)

From S2P Require Import Prelude Words Bytes Bitmap Machine Mips MipsArith MachineProofs.

(** ** Decoding *)

(** An opcode [OneInstruction] has a case for. *)
Definition executable_op (op : OpCode) : bool :=
  match op with SPECIAL | BCOND | OP_RFE => false | _ => true end.

Definition uses_shamt (op : OpCode) : bool :=
  match op with OP_SLL | OP_SRL | OP_SRA => true | _ => false end.

Lemma land_ones_range v n : 0 <= n -> 0 <= Z.land v (Z.ones n) < 2 ^ n.
Proof.
  intros Hn. rewrite Z.land_ones by lia. apply Z.mod_pos_bound. apply Z.pow_pos_nonneg; lia.
Qed.

Lemma field_range v : 0 <= Z.land v 0x1f < 32.
Proof. exact (land_ones_range v 5 ltac:(lia)). Qed.

(** The sign extension of the immediate field. *)
Lemma decode_extra_I value :
  let imm := value mod 65536 in
  decode_extra IFMT value = if bool_decide (imm < 32768) then imm else imm - 65536.
Proof.
  cbn zeta. unfold decode_extra. change 0xffff with (Z.ones 16).
  rewrite (Z.land_ones value 16) by lia. change (2 ^ 16) with 65536. set (x := value mod 65536).
  assert (Hx : 0 <= x < 65536) by (apply Z.mod_pos_bound; done).
  change 0x8000 with (2 ^ 15).
  assert (E : Z.land x (2 ^ 15) <> 0 <-> 32768 <= x).
  { rewrite land_pow2, Z.testbit_true by lia. change (2 ^ 15) with 32768. zlia. }
  destruct (bool_decide_reflect (Z.land x (2 ^ 15) <> 0)) as [H|H].
  - rewrite bool_decide_false by lia. change 0xffff0000 with (Z.shiftl 65535 16).
    rewrite lor_disjoint by lia. unfold i32. zlia.
  - rewrite bool_decide_true by lia. done.
Qed.

Lemma decode_extra_R value : 0 <= decode_extra RFMT value < 32.
Proof. apply field_range. Qed.

Lemma decode_extra_i32 fmt value : is_i32 (decode_extra fmt value).
Proof.
  destruct fmt.
  - rewrite decode_extra_I. pose proof (Z.mod_pos_bound value 65536 ltac:(done)).
    unfold is_i32, int_min, int_max. case_bool_decide; lia.
  - cbn. pose proof (land_ones_range value 26 ltac:(lia)). unfold is_i32, int_min, int_max.
    change 0x3ffffff with (Z.ones 26). lia.
  - pose proof (decode_extra_R value). unfold is_i32, int_min, int_max. lia.
Qed.

Definition table_ok : bool :=
  forallb (fun '(op, fmt) =>
    match op, fmt with
    | SPECIAL, RFMT | BCOND, IFMT => true
    | _, _ => executable_op op && negb (uses_shamt op)
    end) opTable && forallb executable_op specialTable.

Lemma tables_ok : table_ok = true /\ length opTable = 64%nat /\ length specialTable = 64%nat.
Proof. vm_compute. done. Qed.

(** What a decoded instruction looks like. *)
Record instr_ok (i : Instruction) : Prop := mkInstrOk {
  i_rs : 0 <= rs i < 32; i_rt : 0 <= rt i < 32; i_rd : 0 <= rd i < 32;
  i_extra : is_i32 (extra i);
  i_op : executable_op (opCode i) = true;
  i_shamt : uses_shamt (opCode i) = true -> 0 <= extra i < 32 }.

Lemma Decode_ok value : exists i, Decode value = Ok i /\ instr_ok i.
Proof.
  destruct tables_ok as (T & L1 & L2). apply andb_true_iff in T as [T1 T2].
  rewrite forallb_forall in T1, T2. unfold Decode.
  pose proof (land_ones_range (Z.shiftr value 26) 6 ltac:(lia)) as H1.
  pose proof (land_ones_range value 6 ltac:(lia)) as H2.
  destruct (aget_in_range opTable (Z.land (Z.shiftr value 26) 0x3f)) as [[op fmt] E1];
    [rewrite L1; exact H1|].
  destruct (aget_in_range specialTable (Z.land value 0x3f)) as [op' E2]; [rewrite L2; exact H2|].
  rewrite E1. cbn [mbind res_bind].
  apply aget_Ok in E1 as [_ E1%list_elem_of_lookup_2]. apply list_elem_of_In, T1 in E1.
  pose proof E2 as E2'. apply aget_Ok in E2' as [_ E2'%list_elem_of_lookup_2].
  apply list_elem_of_In, T2 in E2'.
  destruct op; try discriminate E1; rewrite ?E2; cbn [mbind res_bind]; eexists; (split; [done|]);
    split; cbn [rs rt rd extra opCode]; try apply field_range; try apply decode_extra_i32;
    try done; destruct fmt; try discriminate E1; try done; try (intros _; apply field_range).
  all: unfold decode_bcond; repeat case_bool_decide; done.
Qed.

(** ** Every instruction keeps the machine well formed *)

Definition outcome_ok (m : Machine) (o : outcome) : Prop :=
  match o with
  | Return c => machine_ok (ctl_machine c) /\ shape (ctl_machine c) = shape m
  | Commit m' pcAfter nextLoadReg nextLoadValue =>
      mid_ok m' /\ shape m' = shape m /\ is_i32 pcAfter /\
      0 <= nextLoadReg < NumGPRegs /\ is_i32 nextLoadValue
  end.

Lemma i32_lit n : -2147483648 <= n <= 2147483647 -> is_i32 n.
Proof. done. Qed.

Lemma setReg_mid m r v m' :
  setReg m r v = Ok m' -> mid_ok m -> is_i32 v -> r <> LoadReg ->
  mid_ok m' /\ shape m' = shape m.
Proof.
  intros E [HE HR] Hv Hr. pose proof (setReg_gp _ _ _ _ E HR Hv Hr).
  apply setReg_Ok in E as [_ ->]. split; [|done]. split; [by apply env_with_registers|done].
Qed.

Section execute.
Context (cfg : Config).

Lemma raise_ok m w bad o :
  raise cfg m w bad = Ok o -> mid_ok m -> is_i32 bad -> outcome_ok m o.
Proof. unfold raise. intros E H Hb. inv_res. by eapply RaiseException_ok. Qed.

Lemma write_break_ok m pc r v o :
  write_break m pc r v = Ok o -> mid_ok m -> is_i32 pc -> is_i32 v -> r <> LoadReg ->
  outcome_ok m o.
Proof.
  unfold write_break. intros E H Hp Hv Hr. inv_res. apply setReg_mid in Hm as [? ?]; [|done..].
  cbn. split_and!; done.
Qed.

Lemma hilo_break_ok m pc hi lo o :
  hilo_break m pc hi lo = Ok o -> mid_ok m -> is_i32 pc -> is_i32 hi -> is_i32 lo ->
  outcome_ok m o.
Proof.
  unfold hilo_break. intros E H Hp Hh Hl. inv_res.
  apply setReg_mid in Hm as [K1 S1]; [|done..]. apply setReg_mid in Hm0 as [K2 S2]; [|done..].
  cbn. split_and!; try done. congruence.
Qed.

Lemma read_then_ok m addr size k o :
  read_then cfg m addr size k = Ok o -> mid_ok m -> is_i32 addr ->
  (forall m' v, mid_ok m' -> shape m' = shape m -> is_i32 v -> k m' v = Ok o -> outcome_ok m' o) ->
  outcome_ok m o.
Proof.
  unfold read_then. intros E H Ha Hk. apply bind_Ok in E as (c & E1 & E).
  apply ReadMem_ok in E1; [|done..].
  destruct c as [[v|] m1|m1|m1]; inv_res; try done. destruct E1 as [K Hv].
  eapply Hk in E; [|by eapply keeps_mid|by apply keeps_shape|done].
  destruct o; cbn in *; rewrite <- (keeps_shape _ _ K); done.
Qed.

Lemma write_then_ok m addr size v pc o :
  write_then cfg m addr size v pc = Ok o -> mid_ok m -> is_i32 addr -> is_i32 pc ->
  outcome_ok m o.
Proof.
  unfold write_then. intros E H Ha Hp. apply bind_Ok in E as (c & E1 & E).
  apply WriteMem_ok in E1; [|done..].
  destruct c as [[|] m1|m1|m1]; inv_res; try done. cbn.
  split_and!; try done; [by eapply keeps_mid|by apply keeps_shape].
Qed.

Lemma pending_value_i32 m r v : pending_value m r = Ok v -> mid_ok m -> is_i32 v.
Proof.
  unfold pending_value. intros E [_ H]. inv_res. case_bool_decide; by eapply getReg_i32.
Qed.

Lemma i32_land_pos a x n : 0 <= n <= 31 -> x = Z.ones n -> is_i32 (Z.land a x).
Proof.
  intros Hn ->. pose proof (land_ones_range a n ltac:(lia)).
  assert (2 ^ n <= 2 ^ 31) by (apply Z.pow_le_mono_r; lia).
  unfold is_i32, int_min, int_max. lia.
Qed.

Lemma lwl_merge_i32 n old v : is_i32 old -> is_i32 v -> is_i32 (lwl_merge n old v).
Proof.
  intros Ho Hv. unfold lwl_merge. repeat case_bool_decide; try done;
    apply is_i32_lor; try apply i32_range.
  - by apply (i32_land_pos _ _ 8).
  - by apply (i32_land_pos _ _ 16).
  - by apply (i32_land_pos _ _ 24).
Qed.

Lemma lwr_merge_i32 n old v : is_i32 old -> is_i32 v -> is_i32 (lwr_merge n old v).
Proof.
  intros Ho Hv. unfold lwr_merge. repeat case_bool_decide; try done; apply i32_range.
Qed.

Lemma shiftr_i32 a n : 0 <= n -> is_i32 a -> is_i32 (Z.shiftr a n).
Proof.
  intros Hn. rewrite Z.shiftr_div_pow2 by done. unfold is_i32, int_min, int_max.
  assert (0 < 2 ^ n) by (apply Z.pow_pos_nonneg; lia). intros H1. split.
  - apply Z.div_le_lower_bound; nia.
  - apply Z.div_le_upper_bound; nia.
Qed.

Lemma Mult_i32 a b s : is_i32 a -> is_i32 b -> is_i32 (Mult a b s).1 /\ is_i32 (Mult a b s).2.
Proof.
  intros Ha Hb. destruct s.
  - destruct (Mult_signed a b Ha Hb) as (? & ? & _). done.
  - destruct (Mult_unsigned a b) as (? & ? & _). done.
Qed.

Lemma quot_rem_i32 a b :
  is_i32 a -> is_i32 b -> b <> 0 -> ~ (a = int_min /\ b = -1) ->
  is_i32 (Z.quot a b) /\ is_i32 (Z.rem a b).
Proof.
  unfold is_i32, int_min, int_max. intros Ha Hb H0 Hc.
  pose proof (Z.quot_rem a b H0). pose proof (Z.rem_bound_abs a b H0).
  pose proof (Z.quot_abs a b H0) as Q. 
  assert (Hq : Z.abs (Z.quot a b) <= Z.abs a).
  { rewrite <- Q. rewrite Z.quot_div_nonneg by lia. apply Z.div_le_upper_bound; nia. }
  split; [|lia].
  destruct (decide (b = -1)) as [->|]; [zlia|]. destruct (decide (b = 1)) as [->|]; [zlia|].
  assert (2 * Z.abs (Z.quot a b) <= Z.abs a); [|lia].
  rewrite <- Q. rewrite Z.quot_div_nonneg by lia.
  pose proof (Z.mul_div_le (Z.abs a) (Z.abs b) ltac:(lia)). 
  assert (0 <= Z.abs a / Z.abs b) by (apply Z.div_pos; lia). nia.
Qed.

(** A register number of an instruction is not [LoadReg]. *)
Lemma gp_not_load r : 0 <= r < 32 -> r <> LoadReg.
Proof. unfold LoadReg. lia. Qed.

#[local] Hint Resolve i32_range is_i32_lor is_i32_land is_i32_lxor is_i32_lnot gp_not_load
  i_rs i_rt i_rd i_extra : core.

Lemma bool_i32 (b : bool) : is_i32 (if b then 1 else 0).
Proof. by destruct b. Qed.

Lemma exec_arith_ok m i pc o :
  exec_arith cfg m i pc = Ok o -> mid_ok m -> instr_ok i -> is_i32 pc -> outcome_ok m o.
Proof.
  unfold exec_arith. intros E H Hi Hp.
  apply bind_Ok in E as (a & Ea & E). apply bind_Ok in E as (b & Eb & E).
  pose proof (getReg_i32 _ _ _ (mid_regs _ H) Ea) as Ha.
  pose proof (getReg_i32 _ _ _ (mid_regs _ H) Eb) as Hb.
  assert (Hsh : uses_shamt (opCode i) = true -> 0 <= extra i) by (intros S; by apply i_shamt).
  pose proof (field_range a) as Hfa.
  destruct (opCode i); try discriminate E.
  all: try (eapply write_break_ok in E; eauto using bool_i32, shiftr_i32; fail).
  all: try (case_match; [eapply raise_ok in E|eapply write_break_ok in E]; eauto; done).
  - eapply write_break_ok in E; eauto. apply is_i32_land; [done|]. by apply (i32_land_pos _ _ 16).
  - destruct (bool_decide_reflect (b = 0)); [by eapply hilo_break_ok in E|].
    destruct (_ && _) eqn:Ec; [done|].
    assert (~ (a = int_min /\ b = -1)) as Hc by (intros [-> ->]; done).
    destruct (quot_rem_i32 a b Ha Hb n Hc). eapply hilo_break_ok in E; eauto.
  - case_bool_decide; [by eapply hilo_break_ok in E|]. eapply hilo_break_ok in E; eauto.
  - inv_res. eapply write_break_ok in E; eauto. by eapply getReg_i32, Hm; apply H.
  - inv_res. eapply write_break_ok in E; eauto. by eapply getReg_i32, Hm; apply H.
  - destruct (Mult_i32 a b true Ha Hb). destruct (Mult a b true). eapply hilo_break_ok in E; eauto.
  - destruct (Mult_i32 a b false Ha Hb). destruct (Mult a b false). eapply hilo_break_ok in E; eauto.
  - eapply write_break_ok in E; eauto. apply is_i32_lor; [done|]. by apply (i32_land_pos _ _ 16).
  - eapply write_break_ok in E; eauto. apply shiftr_i32; [by apply Hfa|done].
  - eapply write_break_ok in E; eauto. apply shiftr_i32; [by apply Hfa|done].
  - eapply write_break_ok in E; eauto. apply is_i32_lxor; [done|]. by apply (i32_land_pos _ _ 16).
Qed.

Lemma exec_branch_ok m i pc o :
  exec_branch m i pc = Ok o -> mid_ok m -> instr_ok i -> is_i32 pc -> outcome_ok m o.
Proof.
  unfold exec_branch. intros E H Hi Hp. apply bind_Ok in E as (npc & En & E).
  apply bind_Ok in E as (m1 & E1 & E).
  assert (mid_ok m1 /\ shape m1 = shape m) as [H1 S1].
  { destruct (opCode i); inv_res; try done; eapply setReg_mid; eauto; done. }
  apply bind_Ok in E as (a & Ea & E). apply bind_Ok in E as (b & Eb & E).
  pose proof (getReg_i32 _ _ _ (mid_regs _ H1) Ea).
  destruct (opCode i); inv_res; cbn; split_and!; eauto; try done; case_match; eauto.
Qed.

Lemma exec_load_ok m i pc o :
  exec_load cfg m i pc = Ok o -> mid_ok m -> instr_ok i -> is_i32 pc -> outcome_ok m o.
Proof.
  unfold exec_load. intros E H Hi Hp. apply bind_Ok in E as (a & Ea & E).
  assert (K : forall m' v, mid_ok m' -> is_i32 v -> outcome_ok m' (Commit m' pc (rt i) v)).
  { intros m' v Hm Hv. cbn. split_and!; try done; by apply i_rt. }
  assert (H8 : forall v, is_i32 (Z.land v 0xff)) by (intros; by apply (i32_land_pos _ _ 8)).
  assert (H16 : forall v, is_i32 (Z.land v 0xffff)) by (intros; by apply (i32_land_pos _ _ 16)).
  destruct (opCode i) eqn:Eo; try discriminate E.
  all: try (case_bool_decide; [by eapply raise_ok in E; eauto|]).
  all: eapply read_then_ok in E; eauto; intros m' v Hm' S Hv E'.
  all: repeat case_match; inv_res; eauto.
  all: apply K; [done|]; [apply lwl_merge_i32 || apply lwr_merge_i32];
    [by eapply pending_value_i32|done].
Qed.

Lemma exec_store_ok m i pc o :
  exec_store cfg m i pc = Ok o -> mid_ok m -> instr_ok i -> is_i32 pc -> outcome_ok m o.
Proof.
  unfold exec_store. intros E H Hi Hp. apply bind_Ok in E as (a & Ea & E).
  apply bind_Ok in E as (b & Eb & E).
  destruct (opCode i) eqn:Eo; try discriminate E.
  all: try (eapply write_then_ok in E; eauto; fail).
  all: eapply read_then_ok in E; eauto; intros m' v Hm' S Hv E'; inv_res.
  all: eapply write_then_ok in E'; eauto.
Qed.

Lemma execute_ok m i pc o :
  execute cfg m i pc = Ok o -> mid_ok m -> instr_ok i -> is_i32 pc -> outcome_ok m o.
Proof.
  unfold execute. intros E H Hi Hp.
  destruct (opCode i);
    (by eapply exec_arith_ok in E) || (by eapply exec_branch_ok in E) ||
    (by eapply exec_load_ok in E) || (by eapply exec_store_ok in E) || (by eapply raise_ok in E).
Qed.

(** The registers after the common tail. *)
Definition committed (r : list Z) (pcAfter nextLoadReg nextLoadValue : Z) : list Z :=
  let d := delayed r nextLoadReg nextLoadValue in
  <[35%nat := pcAfter]> (<[34%nat := default 0 (r !! 35%nat)]>
    (<[36%nat := default 0 (r !! 34%nat)]> d)).

Lemma delayed_lookup r nr nv (k : nat) :
  regs_ok r -> (32 <= k)%nat -> k <> 37%nat -> k <> 38%nat -> delayed r nr nv !! k = r !! k.
Proof.
  intros [Hl _ (lr & E & Hr)] H1 H2 H3. unfold delayed. rewrite E. cbn. unfold NumGPRegs in Hr.
  rewrite !list_lookup_insert_ne by lia. done.
Qed.

Lemma length_delayed r nr nv : length (delayed r nr nv) = length r.
Proof. unfold delayed. by rewrite !length_insert. Qed.

Lemma commit_total m pc nr nv :
  regs_ok (registers m) ->
  commit m pc nr nv = Ok (with_registers m (committed (registers m) pc nr nv)).
Proof.
  intros H. pose proof H as [Hl _ _]. unfold commit. rewrite DelayedLoad_total by done.
  cbn [mbind res_bind]. unfold committed. set (d := delayed (registers m) nr nv).
  assert (Ld : length d = 40%nat) by (unfold d; by rewrite length_delayed).
  destruct (lookup_lt_is_Some_2 (registers m) 34) as [p Ep]; [lia|].
  destruct (lookup_lt_is_Some_2 (registers m) 35) as [n En]; [lia|].
  assert (Dp : d !! 34%nat = Some p) by (unfold d; rewrite delayed_lookup; [done|done|lia..]).
  assert (Dn : d !! 35%nat = Some n) by (unfold d; rewrite delayed_lookup; [done|done|lia..]).
  rewrite Ep, En. cbn [default id].
  assert (G : forall m i v, 0 <= i -> registers m !! Z.to_nat i = Some v -> getReg m i = Ok v)
    by (intros; by apply getReg_Ok).
  assert (S : forall m i v, length (registers m) = 40%nat -> 0 <= i < 40 ->
    setReg m i v = Ok (with_registers m (<[Z.to_nat i := v]> (registers m)))).
  { intros m' k v Hl' Hk. apply setReg_Ok. rewrite Hl'. split; [lia|done]. }
  unfold PCReg, PrevPCReg, NextPCReg.
  rewrite (G _ 34 p) by (done || lia). cbn [mbind res_bind].
  rewrite S by (done || lia). cbn [mbind res_bind].
  rewrite (G _ 35 n) by (cbn [registers with_registers]; rewrite ?list_lookup_insert_ne by lia; done || lia).
  cbn [mbind res_bind].
  rewrite S by (cbn [registers with_registers]; rewrite ?length_insert; done || lia).
  cbn [mbind res_bind].
  rewrite S by (cbn [registers with_registers]; rewrite ?length_insert; done || lia). done.
Qed.

Lemma committed_ok r pc nr nv :
  regs_ok r -> is_i32 pc -> 0 <= nr < NumGPRegs -> is_i32 nv ->
  regs_ok (committed r pc nr nv) /\ zero_ok (committed r pc nr nv).
Proof.
  intros H Hp Hn Hv. destruct (delayed_ok r nr nv H Hn Hv) as [HR HZ].
  unfold committed.
  assert (forall k, is_i32 (default 0 (r !! k))) as HD.
  { intros k. destruct (r !! k) eqn:E; [|done]. cbn. eapply Forall_lookup_1; [|done]. apply H. }
  split; [do 3 (apply regs_insert; [|done|lia]); done|].
  unfold zero_ok in *. rewrite !list_lookup_insert_ne by lia. done.
Qed.


(** What one instruction does, in terms of its decoding and execution: the
    switch never reaches its default, and the common tail always succeeds. *)
Lemma OneInstruction_inv m c :
  OneInstruction cfg m = Ok c -> mid_ok m ->
  (machine_ok (ctl_machine c) /\ shape (ctl_machine c) = shape m).
Proof.
  unfold OneInstruction. intros E H. apply bind_Ok in E as (pc & Ep & E).
  pose proof (getReg_i32 _ _ _ (mid_regs _ H) Ep) as Hp.
  apply bind_Ok in E as (r & E1 & E). apply ReadMem_ok in E1; [|done..].
  destruct r as [[raw|] m1|m1|m1]; [|inv_res; done..]. destruct E1 as [K Hraw].
  rewrite <- (keeps_shape _ _ K). pose proof (keeps_mid _ _ K H) as H1.
  apply bind_Ok in E as (i & Ed & E). destruct (Decode_ok (u32 raw)) as (i' & Ed' & Hi).
  rewrite Ed' in Ed. injection Ed as ->.
  apply bind_Ok in E as (npc & En & E). apply bind_Ok in E as (o & Eo & E).
  apply execute_ok in Eo; [|done|done|apply i32_range].
  destruct o as [m2 pa nr nv|c']; inv_res; [|done].
  destruct Eo as (H2 & S2 & Hpa & Hnr & Hnv).
  rewrite commit_total in Hm by apply H2. injection Hm as <-. cbn.
  destruct (committed_ok _ pa nr nv (mid_regs _ H2) Hpa Hnr Hnv).
  split; [|done]. split; [split; [apply env_with_registers, H2|done]|done].
Qed.

End execute.

(** ** The delay slots *)

Lemma committed_gp r pc nr nv (k : nat) :
  regs_ok r -> (0 < k < 32)%nat ->
  committed r pc nr nv !! k =
    if bool_decide (r !! 37%nat = Some (Z.of_nat k)) then r !! 38%nat else r !! k.
Proof.
  intros [Hl _ (lr & E & Hr)] Hk. unfold committed, delayed. rewrite E. cbn [default id].
  rewrite !list_lookup_insert_ne by lia. unfold NumGPRegs in Hr.
  destruct (lookup_lt_is_Some_2 r 38) as [lv Ev]; [lia|]. rewrite Ev. cbn [default id].
  case_bool_decide as D.
  - injection D as ->. rewrite Nat2Z.id, list_lookup_insert_eq by lia. done.
  - rewrite list_lookup_insert_ne; [done|]. intros F. apply D. f_equal. lia.
Qed.

Lemma committed_special r pc nr nv :
  regs_ok r ->
  committed r pc nr nv !! 0%nat = Some 0 /\
  committed r pc nr nv !! 34%nat = r !! 35%nat /\ committed r pc nr nv !! 35%nat = Some pc /\
  committed r pc nr nv !! 36%nat = r !! 34%nat /\ committed r pc nr nv !! 37%nat = Some nr /\
  committed r pc nr nv !! 38%nat = Some nv.
Proof.
  intros [Hl _ _]. unfold committed. pose proof (length_delayed r nr nv) as Ld.
  destruct (lookup_lt_is_Some_2 r 34) as [p Ep]; [lia|].
  destruct (lookup_lt_is_Some_2 r 35) as [n En]; [lia|].
  rewrite Ep, En. cbn [default id]. split_and!.
  - rewrite !list_lookup_insert_ne by lia. unfold delayed. apply list_lookup_insert_eq.
    rewrite !length_insert. lia.
  - rewrite list_lookup_insert_ne by lia. apply list_lookup_insert_eq. rewrite length_insert. lia.
  - apply list_lookup_insert_eq. rewrite !length_insert. lia.
  - rewrite !list_lookup_insert_ne by lia. apply list_lookup_insert_eq. lia.
  - rewrite !list_lookup_insert_ne by lia. unfold delayed.
    rewrite !list_lookup_insert_ne by lia. apply list_lookup_insert_eq. rewrite length_insert. lia.
  - rewrite !list_lookup_insert_ne by lia. unfold delayed.
    rewrite !list_lookup_insert_ne by lia. apply list_lookup_insert_eq. rewrite !length_insert. lia.
Qed.

Lemma aget_eq {A} (l l' : list A) i j :
  0 <= i -> 0 <= j -> l !! Z.to_nat i = l' !! Z.to_nat j -> aget l i = aget l' j.
Proof. intros Hi Hj E. unfold aget. by rewrite !bool_decide_true, E. Qed.

Lemma pending_value_committed m pc nr nv r :
  regs_ok (registers m) -> 0 < r < 32 ->
  getReg (with_registers m (committed (registers m) pc nr nv)) r = pending_value m r.
Proof.
  intros H Hr. pose proof H as [Hl _ (lr & E & _)]. unfold pending_value.
  rewrite (proj2 (getReg_Ok m LoadReg lr)) by (unfold LoadReg; split; [lia|done]).
  cbn [mbind res_bind]. unfold getReg. cbn [registers with_registers].
  pose proof (committed_gp (registers m) pc nr nv (Z.to_nat r) H ltac:(lia)) as C.
  rewrite E, Z2Nat.id in C by lia.
  destruct (decide (lr = r)) as [->|D].
  - rewrite bool_decide_true in * by done. apply aget_eq; [lia|done|exact C].
  - rewrite bool_decide_false in * by congruence. apply aget_eq; [lia|lia|exact C].
Qed.
