(* ===== verification/MipsClaims.v ===== *)
(** * The properties of the MIPS simulator *)

From S2P Require Import Prelude Words Bytes Bitmap BitmapProofs Machine Mips MipsArith.
From S2P Require Import MachineProofs MipsProofs.

(** ** A small machine for the examples: no TLB, an inverted page table whose
    frame [i] holds page [i] of thread 1, for [i] below [n]. *)
Definition demo_cfg : Config := mkConfig false true false true false.

Definition demo_entry (n i : nat) : TranslationEntry :=
  if bool_decide (i < n)%nat
  then mkEntry (Z.of_nat i) 1 (Z.of_nat i) true false false false (-1) (-1)
  else reset_entry.

Definition demo_machine (n : nat) (mem : list Z) : Machine :=
  mkMachine (replicate 40 0) (mem ++ replicate (Z.to_nat MemorySize - length mem) 0)
    None (Some (demo_entry n <$> seq 0 128)) 0
    (BitmapImpl.mkBitmap 128 4 [2 ^ Z.of_nat n - 1; 0; 0; 0]) 1
    (replicate 1024 7) 0 None 0 0 0 UserMode.

Lemma demo_regs : regs_ok (replicate 40 0).
Proof.
  split; [done| |].
  - by apply Forall_replicate.
  - exists 0. done.
Qed.

Lemma demo_ok n mem :
  Forall is_byte mem -> (length mem <= Z.to_nat MemorySize)%nat -> machine_ok (demo_machine n mem).
Proof.
  intros Hm Hl. split; [split; [split|exact demo_regs]|done]; cbn [demo_machine mainMemory executable vmFile].
  - rewrite length_app, length_replicate. lia.
  - apply Forall_app_2; [done|]. by apply Forall_replicate.
  - by apply Forall_replicate.
  - done.
Qed.

(** C22: [Mult] computes the full 64-bit product: the signed one of two [int]s in
    the pair ([hi], [lo]), and the unsigned one of their bit patterns. *)
Theorem mult_correct (a b : Z) :
  is_i32 a -> is_i32 b ->
  (let '(hi, lo) := Mult a b true in
   is_i32 hi /\ is_i32 lo /\ hi * 4294967296 + u32 lo = a * b) /\
  (let '(hi, lo) := Mult a b false in
   is_i32 hi /\ is_i32 lo /\ u32 hi * 4294967296 + u32 lo = u32 a * u32 b).
Proof.
  intros Ha Hb. pose proof (Mult_signed a b Ha Hb) as S. pose proof (Mult_unsigned a b) as U.
  destruct (Mult a b true), (Mult a b false). done.
Qed.

Lemma mult_correct_witness :
  (let '(hi, lo) := Mult (-7) 1000000000 true in hi * 4294967296 + u32 lo = -7000000000) /\
  Mult (-7) 1000000000 true = (-2, 1589934592).
Proof.
  split; [|vm_compute; reflexivity].
  destruct (mult_correct (-7) 1000000000) as [H _]; [done|done|].
  destruct (Mult (-7) 1000000000 true). apply H.
Defined.

(** Decoding is total and faithful to the instruction format: for every
    word the register fields are bits 25:21, 20:16 and 15:11, the immediate of
    an I-format instruction is the sign-extended low half, shift amounts are
    below 32, and the opcode is one the [switch] of [OneInstruction] handles. *)
Theorem decode_total (value : Z) :
  exists i, Decode value = Ok i /\
    rs i = (value / 2 ^ 21) mod 32 /\ rt i = (value / 2 ^ 16) mod 32 /\
    rd i = (value / 2 ^ 11) mod 32 /\
    is_i32 (extra i) /\ executable_op (opCode i) = true /\
    (uses_shamt (opCode i) = true -> extra i = (value / 2 ^ 6) mod 32) /\
    ((exists op, opTable !! Z.to_nat ((value / 2 ^ 26) mod 64) = Some (op, IFMT)) ->
       extra i = if bool_decide (value mod 65536 < 32768)
                 then value mod 65536 else value mod 65536 - 65536).
Proof.
  destruct (Decode_ok value) as (i & E & H). exists i. split; [done|].
  assert (F : forall k, 0 <= k -> Z.land (Z.shiftr value k) 0x1f = (value / 2 ^ k) mod 32).
  { intros k Hk. rewrite <- Z.shiftr_div_pow2 by done. exact (Z.land_ones _ 5 ltac:(lia)). }
  pose proof E as E'. unfold Decode in E'.
  replace (Z.land (Z.shiftr value 26) 0x3f) with ((value / 2 ^ 26) mod 64) in E'
    by (rewrite <- Z.shiftr_div_pow2 by done; symmetry; exact (Z.land_ones _ 6 ltac:(lia))).
  apply bind_Ok in E' as ([op fmt] & [_ Et]%aget_Ok & E'). apply bind_Ok in E' as (op' & Eo & E').
  injection E' as <-. cbn [rs rt rd extra opCode] in *.
  split_and!; [by apply F..|apply H|apply H| |].
  - intros U. rewrite <- F by done.
    assert (fmt = RFMT) as ->; [|done].
    destruct tables_ok as (T & _). apply andb_true_iff in T as [T1 _].
    rewrite forallb_forall in T1. apply list_elem_of_lookup_2, list_elem_of_In, T1 in Et.
    destruct op; try discriminate Et; cbn in Eo; inv_res; destruct fmt; try done; exfalso;
      revert U; unfold decode_bcond; by repeat case_bool_decide.
  - intros [op1 Et1]. rewrite Et in Et1. injection Et1 as _ ->. apply decode_extra_I.
Qed.

(** The exact result of a trapping arithmetic instruction and its target. *)
Definition trapping_result (i : Instruction) (a b : Z) : option (Z * Z) :=
  match opCode i with
  | OP_ADD => Some (rd i, a + b)
  | OP_ADDI => Some (rt i, a + extra i)
  | OP_SUB => Some (rd i, a - b)
  | _ => None
  end.

(** ADD, ADDI and SUB trap exactly on signed overflow: when the true sum or
    difference is a 32-bit integer it is written to the target register, and
    otherwise [OverflowException] is raised and nothing is written. *)
Theorem arithmetic_overflow_exact (cfg : Config) (m : Machine) (i : Instruction)
    (pc a b target result : Z) :
  regs_ok (registers m) -> instr_ok i ->
  getReg m (rs i) = Ok a -> getReg m (rt i) = Ok b ->
  trapping_result i a b = Some (target, result) ->
  execute cfg m i pc =
    if bool_decide (is_i32 result) then write_break m pc target result
    else raise cfg m OverflowException 0.
Proof.
  intros HR Hi Ea Eb Ht. pose proof (getReg_i32 _ _ _ HR Ea). pose proof (getReg_i32 _ _ _ HR Eb).
  assert (D : forall x (A : Type) (f : Z -> A) (t : A),
    (if bool_decide (~ is_i32 x) then t else f (i32 x)) = if bool_decide (is_i32 x) then f x else t).
  { intros x A f t. destruct (decide (is_i32 x)) as [Hx|Hx].
    - rewrite bool_decide_false, bool_decide_true by tauto. by rewrite i32_id.
    - by rewrite bool_decide_true, bool_decide_false. }
  unfold trapping_result in Ht. unfold execute.
  destruct (opCode i) eqn:Eo; inversion Ht; subst; unfold exec_arith; rewrite Ea, Eb, Eo;
    cbn [mbind res_bind].
  - rewrite overflow_add by done. apply D.
  - rewrite Z.lxor_comm, (Z.add_comm a), overflow_add by (done || apply i_extra; done). apply D.
  - rewrite overflow_sub by done. apply D.
Qed.

Lemma arithmetic_overflow_exact_witness :
  let m := with_registers (demo_machine 1 []) (<[1%nat := 2147483647]> (replicate 40 0)) in
  execute demo_cfg m (mkInstr OP_ADDI 1 2 0 1) 8 = raise demo_cfg m OverflowException 0 /\
  execute demo_cfg m (mkInstr OP_ADDI 1 2 0 (-1)) 8 = write_break m 8 2 2147483646.
Proof.
  intros m.
  assert (HR : regs_ok (registers m)).
  { apply regs_insert; [apply demo_regs|done|done]. }
  split.
  - rewrite (arithmetic_overflow_exact demo_cfg m (mkInstr OP_ADDI 1 2 0 1) 8 2147483647 0 2
      2147483648 HR); [reflexivity|by split|reflexivity..].
  - rewrite (arithmetic_overflow_exact demo_cfg m (mkInstr OP_ADDI 1 2 0 (-1)) 8 2147483647 0 2
      2147483646 HR); [reflexivity|by split|reflexivity..].
Defined.

(** C16: the machine invariant.  The constructor establishes it, and every
    outcome of [OneInstruction] (the next instruction, a halt, the end of the
    thread) keeps it: all 40 registers hold 32-bit integers, register 0 is
    zero, the pending load names a general register, memory is [MemorySize]
    bytes, and the TLB, the page table and the frame bitmap keep their sizes. *)
Theorem instruction_invariant (cfg : Config) :
  (forall tid exec codeAddr, Forall is_byte exec ->
     exists m, newMachine cfg tid exec codeAddr = Ok m /\ machine_ok m) /\
  (forall m c, machine_ok m -> OneInstruction cfg m = Ok c ->
     machine_ok (ctl_machine c) /\ shape (ctl_machine c) = shape m).
Proof.
  split.
  - intros tid exec ca He. unfold newMachine.
    destruct (newBitmap_spec NumPhysPages) as (bm & E & _); [done|]. rewrite E. cbn [mbind res_bind].
    eexists. split; [reflexivity|]. split; [split; [split|exact demo_regs]|reflexivity].
    + cbn [mainMemory]. apply length_replicate.
    + cbn [mainMemory]. apply (Forall_replicate is_byte (Z.to_nat MemorySize) 0). split; lia.
    + exact He.
    + discriminate.
  - intros m c [H _] E. by eapply OneInstruction_inv.
Qed.

(** The load delay slot and the branch delay slot.  After the common tail
    of an instruction that loads [v] into [r], the PC is the old [NextPCReg],
    [NextPCReg] is the computed [pcAfter], register 0 is zero and register [r]
    still has the value it had (or that an earlier pending load gives it); the
    value [v] is in [r] after the tail of the next instruction, whatever that
    one loads. *)
Theorem delay_slots (m : Machine) (pcAfter r v : Z) :
  regs_ok (registers m) -> is_i32 pcAfter -> is_i32 v -> 0 < r < 32 ->
  exists m1, commit m pcAfter r v = Ok m1 /\
    getReg m1 PCReg = getReg m NextPCReg /\ getReg m1 NextPCReg = Ok pcAfter /\
    getReg m1 PrevPCReg = getReg m PCReg /\ getReg m1 0 = Ok 0 /\
    getReg m1 r = pending_value m r /\
    forall pc' r' v', exists m2, commit m1 pc' r' v' = Ok m2 /\ getReg m2 r = Ok v.
Proof.
  intros H Hp Hv Hr. rewrite commit_total by done. eexists. split; [done|].
  destruct (committed_special (registers m) pcAfter r v H) as (S0 & S34 & S35 & S36 & S37 & S38).
  destruct (committed_ok (registers m) pcAfter r v H Hp ltac:(unfold NumGPRegs; lia) Hv) as [H1 _].
  split_and!.
  - by apply aget_eq.
  - by apply getReg_Ok.
  - by apply aget_eq.
  - by apply getReg_Ok.
  - by apply pending_value_committed.
  - intros pc' r' v'. rewrite commit_total by done. eexists. split; [done|].
    rewrite pending_value_committed by (done || lia). unfold pending_value.
    rewrite (proj2 (getReg_Ok _ LoadReg r)) by (split; [done|exact S37]). cbn [mbind res_bind].
    rewrite bool_decide_true by done. by apply getReg_Ok.
Qed.

Lemma delay_slots_witness :
  exists m1, commit (demo_machine 1 []) 8 5 77 = Ok m1 /\ getReg m1 5 = Ok 0 /\
    exists m2, commit m1 12 0 0 = Ok m2 /\ getReg m2 5 = Ok 77.
Proof.
  destruct (delay_slots (demo_machine 1 []) 8 5 77) as (m1 & E & _ & _ & _ & _ & P & H);
    [exact demo_regs|done|done|lia|].
  exists m1. split; [exact E|]. split; [rewrite P; reflexivity|]. apply H.
Defined.

(** The aligned part and the byte number of an address. *)
Lemma aligned_split addr :
  is_i32 addr -> Z.land addr 3 = addr mod 4 /\ i32 (addr - addr mod 4) = 4 * (addr / 4).
Proof.
  intros H. split; [exact (Z.land_ones addr 2 ltac:(lia))|].
  rewrite i32_id; unfold is_i32, int_min, int_max in *; zlia.
Qed.

Lemma exec_lwl cfg m m1 base x s t pc w old :
  getReg m s = Ok base -> is_i32 (base + x) ->
  ReadMem cfg m (4 * ((base + x) / 4)) 4 = Ok (Ret (Some w) m1) ->
  pending_value m1 t = Ok old ->
  execute cfg m (mkInstr OP_LWL s t 0 x) pc
    = Ok (Commit m1 pc t (lwl_merge (3 - (base + x) mod 4) old w)).
Proof.
  intros Es Hi Er Ep. destruct (aligned_split _ Hi) as [A B].
  unfold execute, exec_load, read_then. cbn [opCode rs rt extra]. rewrite Es. cbn [mbind res_bind].
  rewrite (i32_id _ Hi), A, B, Er. cbn [mbind res_bind]. by rewrite Ep.
Qed.

Lemma exec_lwr cfg m m1 base x s t pc w old :
  getReg m s = Ok base -> is_i32 (base + x) ->
  ReadMem cfg m (4 * ((base + x) / 4)) 4 = Ok (Ret (Some w) m1) ->
  pending_value m1 t = Ok old ->
  execute cfg m (mkInstr OP_LWR s t 0 x) pc
    = Ok (Commit m1 pc t (lwr_merge (3 - (base + x) mod 4) old w)).
Proof.
  intros Es Hi Er Ep. destruct (aligned_split _ Hi) as [A B].
  unfold execute, exec_load, read_then. cbn [opCode rs rt extra]. rewrite Es. cbn [mbind res_bind].
  rewrite (i32_id _ Hi), A, B, Er. cbn [mbind res_bind]. by rewrite Ep.
Qed.

(** The first of two instructions leaves its value where the second finds it. *)
Lemma pending_after_commit m pc r v m2 :
  regs_ok (registers m) -> commit m pc r v = Ok m2 -> pending_value m2 r = Ok v.
Proof.
  intros H E. rewrite commit_total in E by done. injection E as <-.
  destruct (committed_special (registers m) pc r v H) as (_ & _ & _ & _ & S37 & S38).
  unfold pending_value. rewrite (proj2 (getReg_Ok _ LoadReg r)) by (split; [done|exact S37]).
  cbn [mbind res_bind]. rewrite bool_decide_true by done. by apply getReg_Ok.
Qed.

Lemma ReadMem_registers cfg m addr size v m' :
  ReadMem cfg m addr size = Ok (Ret (Some v) m') -> registers m' = registers m.
Proof.
  unfold ReadMem. intros E. apply bind_Ok in E as ([[e pa] m1] & E1 & E).
  apply Translate_keeps in E1 as [K _]. case_decide; inv_res.
  - by destruct a.
  - apply K.
Qed.

(** The unaligned load.  On the little-endian machine, [LWL rt, x+3(rs)]
    followed by [LWR rt, x(rs)] leaves in the pending load the word made of the
    four bytes from the address [base+x = 4q+k] on, across the two aligned
    words [w0] at [4q] and [w1] at [4(q+1)]; the second instruction takes the
    bytes of the first from the pending load, so no instruction is needed
    between them. *)
Theorem unaligned_load_pair (cfg : Config) (m m1 m2 m3 : Machine)
    (base x q k s t pc pc' w0 w1 old : Z) :
  regs_ok (registers m) -> 0 <= k <= 3 -> base + x = 4 * q + k ->
  is_i32 (base + x) -> is_i32 (base + (x + 3)) ->
  getReg m s = Ok base -> pending_value m t = Ok old ->
  let wl := if bool_decide (k = 0) then w0 else w1 in
  let v1 := lwl_merge (3 - (k + 3) mod 4) old wl in
  let v := lwr_merge (3 - k) v1 w0 in
  ReadMem cfg m (if bool_decide (k = 0) then 4 * q else 4 * (q + 1)) 4 = Ok (Ret (Some wl) m1) ->
  commit m1 pc t v1 = Ok m2 -> getReg m2 s = Ok base ->
  ReadMem cfg m2 (4 * q) 4 = Ok (Ret (Some w0) m3) ->
  execute cfg m (mkInstr OP_LWL s t 0 (x + 3)) pc = Ok (Commit m1 pc t v1) /\
  execute cfg m2 (mkInstr OP_LWR s t 0 x) pc' = Ok (Commit m3 pc' t v) /\
  u32 v = (dword (u32 w1) (u32 w0) / 2 ^ (8 * k)) mod 4294967296.
Proof.
  intros HR Hk Ex Hi Hi3 Es Ep wl v1 v Er Ec Es2 Er2.
  assert (P : forall m m', registers m' = registers m -> forall r, pending_value m' r = pending_value m r)
    by (intros ? ? E' r; unfold pending_value, getReg; by rewrite E').
  pose proof (ReadMem_registers _ _ _ _ _ _ Er) as R1.
  pose proof (ReadMem_registers _ _ _ _ _ _ Er2) as R3.
  split_and!.
  - unfold v1. replace ((k + 3) mod 4) with ((base + (x + 3)) mod 4) by zlia.
    apply exec_lwl; [done|done| |by rewrite (P _ _ R1)].
    replace (4 * ((base + (x + 3)) / 4)) with (if bool_decide (k = 0) then 4 * q else 4 * (q + 1));
      [done|]. case_bool_decide; zlia.
  - unfold v. replace k with ((base + x) mod 4) by zlia.
    apply exec_lwr; [done|done| |].
    + replace (4 * ((base + x) / 4)) with (4 * q); [done|zlia].
    + rewrite (P _ _ R3). eapply pending_after_commit; [|exact Ec]. by rewrite R1.
  - by apply unaligned_load.
Qed.

(** The machine an access leaves behind. *)
Definition after {A} (m : Machine) (c : res (ctl A)) : Machine :=
  match c with Ok c => ctl_machine c | _ => m end.

Definition after_commit (m : Machine) (c : res Machine) : Machine :=
  match c with Ok m' => m' | _ => m end.

Lemma unaligned_load_pair_witness :
  let m := demo_machine 1 [1; 2; 3; 4; 5; 6; 7; 8] in
  let m1 := after m (ReadMem demo_cfg m 4 4) in
  let m2 := after_commit m (commit m1 8 9 (lwl_merge 3 0 0x08070605)) in
  let m3 := after m (ReadMem demo_cfg m2 0 4) in
  execute demo_cfg m2 (mkInstr OP_LWR 0 9 0 1) 12 = Ok (Commit m3 12 9 0x05040302).
Proof.
  intros m m1 m2 m3.
  pose proof (unaligned_load_pair demo_cfg m m1 m2 m3 0 1 0 1 0 9 8 12 0x04030201 0x08070605 0)
    as H. cbv zeta in H.
  destruct H as (_ & E & _);
    [exact demo_regs|lia|lia|done|done|reflexivity|reflexivity|vm_compute; reflexivity..|].
  exact E.
Defined.

(** SRL and SRLV do not shift in zeros: on every register value and shift
    amount they execute exactly as SRA and SRAV, so the result of a shift of a
    negative value stays negative. *)
Theorem srl_is_arithmetic (cfg : Config) (m : Machine) (i i' : Instruction) (pc : Z) :
  (opCode i = OP_SRL /\ opCode i' = OP_SRA \/ opCode i = OP_SRLV /\ opCode i' = OP_SRAV) ->
  rs i' = rs i -> rt i' = rt i -> rd i' = rd i -> extra i' = extra i ->
  execute cfg m i pc = execute cfg m i' pc /\
  (forall a b m' pc' r v, instr_ok i -> getReg m (rs i) = Ok a -> getReg m (rt i) = Ok b -> b < 0 ->
     execute cfg m i pc = Ok (Commit m' pc' r v) ->
     exists x, x < 0 /\ setReg m (rd i) x = Ok m').
Proof.
  intros Ho E1 E2 E3 E4.
  assert (N : forall b n, b < 0 -> 0 <= n -> Z.shiftr b n < 0) by (intros; by apply Z.shiftr_neg).
  destruct Ho as [[O O']|[O O']]; unfold execute, exec_arith; rewrite O, O', E1, E2, E3, ?E4;
    (split; [done|]); intros a b m' pc' r v Hi Ea Eb Hb E; rewrite Ea, Eb in E;
    cbn [mbind res_bind] in E; unfold write_break in E; inv_res; eexists; (split; [|done]);
    apply N; try done.
  - apply (i_shamt _ Hi). by rewrite O.
  - apply field_range.
Qed.

Lemma srl_is_arithmetic_witness :
  let m := with_registers (demo_machine 1 []) (<[1%nat := -8]> (replicate 40 0)) in
  execute demo_cfg m (mkInstr OP_SRL 0 1 2 1) 8 = write_break m 8 2 (-4).
Proof.
  intros m.
  destruct (srl_is_arithmetic demo_cfg m (mkInstr OP_SRL 0 1 2 1) (mkInstr OP_SRA 0 1 2 1) 8)
    as [E _]; [by left|reflexivity..|]. rewrite E. reflexivity.
Defined.
