(* ===== verification/VmProofs.v ===== *)
(** * Virtual memory: translation, isolation, demand paging and replacement

    The build with the inverted page table ([USE_RPT]) and no TLB: frame [i] is
    described by entry [i] of the one table, by the thread that owns it and the
    page it holds. *)

From S2P Require Import Prelude Words Bytes Bitmap BitmapProofs Machine MachineProofs.

(** ** Searching a table *)

Lemma find_entry_spec n i p t :
  0 <= i -> i + Z.of_nat n <= Z.of_nat (length t) ->
  exists r, find_entry n i p t = Ok r /\
    match r with
    | Some j => i <= j < i + Z.of_nat n /\ exists e, aget t j = Ok e /\ p e = true /\
        forall k e', i <= k < j -> aget t k = Ok e' -> p e' = false
    | None => forall k e', i <= k < i + Z.of_nat n -> aget t k = Ok e' -> p e' = false
    end.
Proof.
  revert i. induction n as [|n IH]; intros i Hi Hn; cbn [find_entry].
  { exists None. split; [done|]. intros k e' Hk. lia. }
  destruct (aget_in_range t i) as [e Ee]; [lia|]. rewrite Ee. cbn [mbind res_bind].
  destruct (p e) eqn:Ep.
  { exists (Some i). split; [done|]. split; [lia|]. exists e. split_and!; [done..|]. intros. lia. }
  destruct (IH (i + 1)) as (r & E & Hr); [lia..|]. exists r. split; [done|].
  assert (F : forall k e', k = i -> aget t k = Ok e' -> p e' = false) by (intros k e' ->; congruence).
  destruct r as [j|].
  - destruct Hr as (Hj & e1 & E1 & P1 & B). split; [lia|]. exists e1. split_and!; [done..|].
    intros k e' Hk Hk'. destruct (decide (k = i)); [by eapply F|]. eapply B; [|done]. lia.
  - intros k e' Hk Hk'. destruct (decide (k = i)); [by eapply F|]. eapply Hr; [|done]. lia.
Qed.

(** ** The inverted page table *)

Record rpt_ok (cfg : Config) (m : Machine) (t : list TranslationEntry) : Prop := mkRptOk {
  rpt_cfg : USE_RPT cfg = true;
  rpt_tlb : tlb m = None;
  rpt_pt : pt m = Some t;
  rpt_length : length t = Z.to_nat NumPhysPages;
  rpt_env : env_ok m }.

(** Frame [f] holds page [v] of thread [tid]. *)
Definition owns (t : list TranslationEntry) (tid v f : Z) : Prop :=
  exists e, aget t f = Ok e /\ vpn e = v /\ tID e = tid.

(** Two tables that differ in replacement flags only. *)
Definition same_owner (e e' : TranslationEntry) : Prop :=
  vpn e' = vpn e /\ tID e' = tID e /\ ppn e' = ppn e /\ valid e' = valid e /\
  readOnly e' = readOnly e /\ use e' = use e /\ dirty e' = dirty e.

#[global] Instance same_owner_refl : Reflexive same_owner.
Proof. by intros e. Qed.

Lemma same_owner_insert t f e e' :
  t !! f = Some e -> same_owner e e' -> Forall2 same_owner t (<[f := e']> t).
Proof.
  intros E H. rewrite <- (list_insert_id t f e E) at 1.
  apply Forall2_insert; [|done]. by apply Forall_Forall2_diag, Forall_true.
Qed.

Lemma same_owner_owns t t' tid v f : Forall2 same_owner t t' -> owns t tid v f <-> owns t' tid v f.
Proof.
  intros H. unfold owns. split; intros (e & [Hf E]%aget_Ok & Hv & Ht).
  - destruct (Forall2_lookup_l _ _ _ _ _ H E) as (e' & E' & S1 & S2 & _).
    exists e'. rewrite aget_Ok. split_and!; congruence || done.
  - destruct (Forall2_lookup_r _ _ _ _ _ H E) as (e' & E' & S1 & S2 & _).
    exists e'. rewrite aget_Ok. split_and!; congruence || done.
Qed.

(** The greatest flag among the other valid entries, or -1. *)
Definition flag_max (flag : TranslationEntry -> Z) (t : list TranslationEntry) (pos len num : Z)
    : Prop :=
  -1 <= num /\
  (forall k e, 0 <= k < len -> k <> pos -> aget t k = Ok e -> valid e = true -> flag e <= num) /\
  (num = -1 \/ exists k e, 0 <= k < len /\ k <> pos /\ aget t k = Ok e /\ valid e = true /\ flag e = num).

Lemma max_flag_spec flag t pos len :
  0 <= len <= Z.of_nat (length t) ->
  exists num, max_flag flag t pos len = Ok num /\ flag_max flag t pos len num.
Proof.
  intros Hl. unfold max_flag.
  match goal with |- context [for_loop ?n ?lo ?body ?s] =>
    destruct (for_loop_ind (fun i num => flag_max flag t pos i num) n lo body s)
      as (num & E & H) end.
  - split_and!; [lia|intros; lia|by left].
  - intros i num Hi (H1 & H2 & H3). destruct (aget_in_range t i) as [e Ee]; [lia|].
    rewrite Ee. cbn [mbind res_bind]. eexists. split; [reflexivity|].
    destruct (valid e) eqn:Ev; cbn [andb].
    2: { split_and!; [done| |].
         - intros k e' Hk Hp Ek V. destruct (decide (k = i)) as [->|]; [congruence|].
           eapply H2; [|done..]. lia.
         - destruct H3 as [?|(k & e' & Hk & ?)]; [by left|]. right. exists k, e'. split; [lia|done]. }
    case_bool_decide as Hp; cbn [negb].
    { subst. split_and!; [done| |].
      - intros k e' Hk Hp Ek V. eapply H2; [|done..]. lia.
      - destruct H3 as [?|(k & e' & Hk & ?)]; [by left|]. right. exists k, e'. split; [lia|done]. }
    case_bool_decide as Hc.
    + split_and!; [done| |].
      * intros k e' Hk Hp' Ek V. destruct (decide (k = i)) as [->|];
          [rewrite Ee in Ek; injection Ek as ->; lia|]. eapply H2; [|done..]. lia.
      * destruct H3 as [?|(k & e' & Hk & ?)]; [by left|]. right. exists k, e'. split; [lia|done].
    + split_and!; [lia| |].
      * intros k e' Hk Hp' Ek V. destruct (decide (k = i)) as [->|];
          [rewrite Ee in Ek; injection Ek as ->; lia|]. etransitivity; [eapply H2; [|done..]|]; lia.
      * right. exists i, e. split_and!; try done; lia.
  - exists num. split; [exact E|]. by replace len with (0 + Z.of_nat (Z.to_nat len)) by lia.
Qed.

Lemma updateLRUFlag_spec t pos len :
  0 <= len <= Z.of_nat (length t) -> 0 <= pos < Z.of_nat (length t) ->
  exists e num, aget t pos = Ok e /\ flag_max LRUFlag t pos len num /\
    updateLRUFlag t pos len = Ok (<[Z.to_nat pos := set_LRUFlag e (i32 (num + 1))]> t).
Proof.
  intros Hl Hp. destruct (aget_in_range t pos Hp) as [e Ee].
  destruct (max_flag_spec LRUFlag t pos len Hl) as (num & En & Hn).
  exists e, num. split_and!; [done..|]. unfold updateLRUFlag. rewrite En. cbn [mbind res_bind].
  rewrite Ee. cbn [mbind res_bind]. by apply aset_in_range.
Qed.

Lemma updateFIFOFlag_spec t pos len :
  0 <= len <= Z.of_nat (length t) -> 0 <= pos < Z.of_nat (length t) ->
  exists e num, aget t pos = Ok e /\ flag_max FIFOFlag t pos len num /\
    updateFIFOFlag t pos len = Ok (<[Z.to_nat pos := set_FIFOFlag e (i32 (num + 1))]> t).
Proof.
  intros Hl Hp. destruct (aget_in_range t pos Hp) as [e Ee].
  destruct (max_flag_spec FIFOFlag t pos len Hl) as (num & En & Hn).
  exists e, num. split_and!; [done..|]. unfold updateFIFOFlag. rewrite En. cbn [mbind res_bind].
  rewrite Ee. cbn [mbind res_bind]. by apply aset_in_range.
Qed.

(** ** Translation *)

Definition touched (cfg : Config) (t : list TranslationEntry) (f : Z) : list TranslationEntry :=
  if LRU_REPLACE cfg then
    match updateLRUFlag t f NumPhysPages with Ok t' => t' | _ => t end
  else t.

Lemma touched_spec cfg t f :
  length t = Z.to_nat NumPhysPages -> 0 <= f < NumPhysPages ->
  Forall2 same_owner t (touched cfg t f) /\
  (LRU_REPLACE cfg = true -> updateLRUFlag t f NumPhysPages = Ok (touched cfg t f)).
Proof.
  intros Hl Hf. unfold touched. destruct (LRU_REPLACE cfg).
  - destruct (updateLRUFlag_spec t f NumPhysPages) as (e & num & Ee & _ & ->);
      [rewrite Hl; done|rewrite Hl; unfold NumPhysPages in *; lia|].
    split; [|done]. apply aget_Ok in Ee as [_ Ee]. by eapply same_owner_insert.
  - split; [|done]. by apply Forall_Forall2_diag, Forall_true.
Qed.

(** The page of a valid address and the exception a translation may end in. *)
Definition aligned (va size : Z) : bool :=
  negb ((bool_decide (size = 4) && bool_decide (Z.land va 3 <> 0)) ||
        (bool_decide (size = 2) && bool_decide (Z.land va 1 <> 0))).

(** The state a successful translation leaves: a counter and an LRU flag. *)
Definition translated (cfg : Config) (m : Machine) (t : list TranslationEntry) (f : Z) : Machine :=
  let m := with_counters m (numAddressTranslation m + 1) (numPageFaults m) (numTLBMiss m) in
  if LRU_REPLACE cfg then with_pt m (Some (touched cfg t f)) else m.

Definition counted (m : Machine) : Machine :=
  with_counters m (numAddressTranslation m + 1) (numPageFaults m) (numTLBMiss m).

(** The lookup of [pageTableTranslation], as a search of the table. *)
Definition resident (m : Machine) (t : list TranslationEntry) (v : Z) (f : Z)
    (e : TranslationEntry) : Prop :=
  0 <= f < NumPhysPages /\ aget t f = Ok e /\ vpn e = v /\ tID e = currentTID m /\
  forall k, 0 <= k < f -> ~ owns t (currentTID m) v k.

Lemma rpt_lookup cfg m t v va w :
  rpt_ok cfg m t ->
  (exists f e, resident m t v f e /\
     lookup_page cfg m v va w = Ok (NoException, (f, e), None, m)) \/
  ((forall f, 0 <= f < NumPhysPages -> ~ owns t (currentTID m) v f) /\
     lookup_page cfg m v va w = Ok (PageFaultException, (0, reset_entry), None, m)).
Proof.
  intros [Hc Ht Hp Hl _]. unfold lookup_page, pageTableTranslation. rewrite Ht, Hp, Hc.
  cbn [arr mbind res_bind].
  set (p := fun e => bool_decide (vpn e = v) && bool_decide (tID e = currentTID m)).
  assert (P : forall e, p e = true <-> vpn e = v /\ tID e = currentTID m).
  { intros e. unfold p. by rewrite andb_true_iff, !bool_decide_eq_true. }
  destruct (find_entry_spec (Z.to_nat NumPhysPages) 0 p t) as (r & -> & Hr); [done|lia|].
  destruct r as [f|]; cbn [mbind res_bind].
  - left. destruct Hr as (Hf & e & Ee & Pe & B). exists f, e. rewrite Ee. split; [|done].
    split; [unfold NumPhysPages in *; lia|]. apply P in Pe as [? ?]. split_and!; [done..|].
    intros k Hk (e' & E' & V & T). specialize (B k e' Hk E'). rewrite (proj2 (P e')) in B; done.
  - right. split; [|done]. intros f Hf (e' & E' & V & T).
    specialize (Hr f e' ltac:(unfold NumPhysPages in *; lia) E'). rewrite (proj2 (P e')) in Hr; done.
Qed.

Lemma rpt_counted cfg m t : rpt_ok cfg m t -> rpt_ok cfg (counted m) t.
Proof. intros [? ? ? ? [? ? ? ?]]. by split. Qed.

(** The outcome of a translation, on every path. *)
Lemma rpt_Translate cfg m t va size w :
  rpt_ok cfg m t -> aligned va size = true ->
  let v := Z.quot va PageSize in
  let off := Z.rem va PageSize in
  (exists f e, resident m t v f e /\
     Translate cfg m va size w =
       if readOnly e && w then Ok (ReadOnlyException, 0, counted m)
       else if bool_decide (0 <= f * PageSize + off <= MemorySize - 4)
       then Ok (NoException, f * PageSize + off, translated cfg m t f) else AssertFail) \/
  ((forall f, 0 <= f < NumPhysPages -> ~ owns t (currentTID m) v f) /\
     Translate cfg m va size w = Ok (PageFaultException, 0, counted m)).
Proof.
  intros H Ha. cbn zeta. set (v := Z.quot va PageSize). set (off := Z.rem va PageSize).
  unfold Translate. fold (counted m).
  pose proof (rpt_counted _ _ _ H) as H'. pose proof H' as [Hc Ht Hp Hl _].
  unfold aligned in Ha. apply negb_true_iff in Ha. rewrite Ha, Ht, Hp. clear Ha.
  rewrite !(bool_decide_false (Some t = None)), (bool_decide_true (None = None)) by done.
  cbn [negb orb ASSERT mbind res_bind]. fold v off.
  destruct (rpt_lookup cfg (counted m) t v va w H') as [(f & e & HR & ->)|[HN ->]];
    cbn [mbind res_bind].
  - left. exists f, e. split; [exact HR|]. rewrite decide_False by naive_solver.
    destruct (readOnly e && w); [done|]. destruct HR as (Hf & Ee & _).
    rewrite !bool_decide_false by lia. cbn [orb].
    destruct (touched_spec cfg t f Hl Hf) as [_ HT].
    assert (TP : touch_pt cfg (counted m) v f = Ok (translated cfg m t f)).
    { unfold touch_pt, translated. fold (counted m). destruct (LRU_REPLACE cfg); [|done].
      rewrite Hp, Hc. cbn [arr mbind res_bind]. by rewrite HT. }
    rewrite TP. cbn [mbind res_bind].
    replace (bool_decide (f * PageSize + off >= 0) && bool_decide (f * PageSize + off + 4 <= MemorySize))
      with (bool_decide (0 <= f * PageSize + off <= MemorySize - 4))
      by (repeat case_bool_decide; cbn; done || lia).
    case_bool_decide; [|done]. cbn [ASSERT mbind res_bind].
    unfold touch_tlb. replace (tlb (translated cfg m t f)) with (@None (list TranslationEntry)); [done|].
    unfold translated. fold (counted m). by destruct (LRU_REPLACE cfg).
  - right. split; [exact HN|]. by rewrite decide_True.
Qed.

(** ** Stores *)

Lemma le_split_mod n w : le_split n (w mod 256 ^ Z.of_nat n) = le_split n w.
Proof.
  rewrite <- le_combine_split. rewrite <- (length_le_split n w) at 1.
  apply le_split_combine, le_split_bytes.
Qed.

(** What a big-endian host stores after the conversion to machine order is the
    little-endian representation. *)
Lemma short_store cfg v :
  host_store cfg 2 (ShortToMachine cfg (Z.land v 0xffff)) = le_split 2 v.
Proof.
  assert (E : Z.land v 0xffff = le_combine (le_split 2 v)).
  { rewrite le_combine_split. exact (Z.land_ones v 16 ltac:(lia)). }
  unfold host_store, ShortToMachine. pose proof (short_le cfg (rev (le_split 2 v))) as S.
  unfold host_load, ShortToHost in *. destruct (HOST_IS_BIG_ENDIAN cfg).
  - rewrite rev_involutive, <- E in S. rewrite S.
    + rewrite <- (rev_involutive (le_split 2 v)) at 2. f_equal.
      rewrite <- (length_le_split 2 v) at 1. rewrite <- length_rev. apply le_split_combine.
      apply Forall_rev, le_split_bytes.
    + apply Forall_rev, le_split_bytes.
    + done.
  - rewrite E, le_combine_split. apply le_split_mod.
Qed.

Lemma word_store cfg v : host_store cfg 4 (WordToMachine cfg (u32 v)) = le_split 4 v.
Proof.
  assert (E : u32 v = le_combine (le_split 4 v)) by (by rewrite le_combine_split).
  unfold host_store, WordToMachine. pose proof (word_le cfg (rev (le_split 4 v))) as S.
  unfold host_load, WordToHost in *. destruct (HOST_IS_BIG_ENDIAN cfg).
  - rewrite rev_involutive, <- E in S. rewrite S.
    + rewrite <- (rev_involutive (le_split 4 v)) at 2. f_equal.
      rewrite <- (length_le_split 4 v) at 1. rewrite <- length_rev. apply le_split_combine.
      apply Forall_rev, le_split_bytes.
    + apply Forall_rev, le_split_bytes.
    + done.
  - rewrite E, le_combine_split. apply le_split_mod.
Qed.

Definition is_size (size : Z) : Prop := size = 1 \/ size = 2 \/ size = 4.

Lemma store_value_spec cfg mem pa size v :
  store_value cfg mem pa size v =
    if bool_decide (is_size size) then mem_write mem pa (le_split (Z.to_nat size) v) else AssertFail.
Proof.
  unfold store_value.
  destruct (decide (size = 1)) as [->|]; [|destruct (decide (size = 2)) as [->|];
    [|destruct (decide (size = 4)) as [->|]]].
  - rewrite bool_decide_true by (by left). f_equal. change (le_split (Z.to_nat 1) v) with [v mod 256].
    f_equal. exact (Z.land_ones v 8 ltac:(lia)).
  - rewrite bool_decide_true by (right; by left). by rewrite short_store.
  - rewrite bool_decide_true by (right; by right). by rewrite word_store.
  - rewrite bool_decide_false; [done|]. unfold is_size. naive_solver.
Qed.

(** The bytes a load of [size] at [pa] decodes. *)
Lemma load_value_total cfg mem pa size :
  Forall is_byte mem -> is_size size -> 0 <= pa -> pa + size <= Z.of_nat (length mem) ->
  exists bs, mem_read mem pa (Z.to_nat size) = Ok bs /\ load_value cfg mem pa size = Ok (loaded bs size).
Proof.
  intros Hm Hs H1 H2.
  assert (exists v, load_value cfg mem pa size = Ok v) as [v Ev].
  { unfold load_value. destruct Hs as [-> | [-> | ->]].
    - rewrite decide_True by done. destruct (aget_in_range mem pa) as [b ->]; [lia|]. by eexists.
    - rewrite decide_False, decide_True by done. unfold mem_read.
      rewrite bool_decide_true by lia. by eexists.
    - rewrite !decide_False, decide_True by done. unfold mem_read.
      rewrite bool_decide_true by lia. by eexists. }
  destruct (load_value_spec _ _ _ _ _ Hm Ev) as (bs & Eb & -> & _). by exists bs.
Qed.

Lemma aligned_page va size :
  0 <= va -> is_size size -> aligned va size = true -> va mod PageSize + size <= PageSize.
Proof.
  unfold aligned. intros Hv Hs Ha%negb_true_iff. apply orb_false_iff in Ha as [A4 A2].
  assert (L4 : Z.land va 3 = va mod 4) by exact (Z.land_ones va 2 ltac:(lia)).
  assert (L2 : Z.land va 1 = va mod 2) by exact (Z.land_ones va 1 ltac:(lia)).
  rewrite L4 in A4. rewrite L2 in A2. unfold PageSize.
  destruct Hs as [-> | [-> | ->]].
  - zlia.
  - rewrite bool_decide_true in A2 by done. apply bool_decide_eq_false in A2. zlia.
  - rewrite bool_decide_true in A4 by done. apply bool_decide_eq_false in A4. zlia.
Qed.

Lemma translated_ok cfg m t f :
  rpt_ok cfg m t -> 0 <= f < NumPhysPages ->
  rpt_ok cfg (translated cfg m t f) (touched cfg t f) /\ Forall2 same_owner t (touched cfg t f) /\
  mainMemory (translated cfg m t f) = mainMemory m /\
  currentTID (translated cfg m t f) = currentTID m /\
  executable (translated cfg m t f) = executable m.
Proof.
  intros [Hc Ht Hp Hl [? ? ? ?]] Hf. destruct (touched_spec cfg t f Hl Hf) as [HF _].
  pose proof (Forall2_length _ _ _ HF). unfold translated, touched in *.
  destruct (LRU_REPLACE cfg); split_and!; try done; split; cbn; try done; congruence.
Qed.

(** A store that succeeds: where it went. *)
Lemma rpt_WriteMem cfg m t va size value m' :
  rpt_ok cfg m t -> 0 <= va -> WriteMem cfg m va size value = Ok (Ret true m') ->
  is_size size /\ aligned va size = true /\
  exists f e mem', resident m t (va / PageSize) f e /\ readOnly e = false /\
    f * PageSize + va mod PageSize <= MemorySize - 4 /\
    mem_write (mainMemory m) (f * PageSize + va mod PageSize) (le_split (Z.to_nat size) value) = Ok mem' /\
    m' = with_memory (translated cfg m t f) mem'.
Proof.
  intros H Hv. unfold WriteMem. intros E. apply bind_Ok in E as ([[ex pa] m1] & E1 & E).
  case_decide as De; inv_res; [by destruct a|].
  rewrite store_value_spec in Hm. case_bool_decide as Hs; [|done]. split; [done|].
  destruct (aligned va size) eqn:Ha; [|by unfold Translate, aligned in *;
    apply negb_false_iff in Ha; rewrite Ha in E1].
  split; [done|].
  destruct (rpt_Translate cfg m t va size true H Ha) as [(f & e & HR & E2)|[_ E2]];
    rewrite E1 in E2; [|done].
  destruct (readOnly e && true) eqn:Er; [done|]. case_bool_decide; [|done]. injection E2 as -> ->.
  rewrite Z.quot_div_nonneg in HR by done. rewrite Z.rem_mod_nonneg in * by done.
  exists f, e, a. destruct (translated_ok cfg m t f H (proj1 HR)) as (_ & _ & Em & _).
  rewrite Em in Hm. rewrite andb_true_r in Er. split_and!; done || lia.
Qed.

Lemma resident_owns m t v f e : resident m t v f e -> owns t (currentTID m) v f.
Proof. intros (_ & E & V & T & _). by exists e. Qed.

Lemma aget_owner t f tid v tid' v' : owns t tid v f -> owns t tid' v' f -> tid = tid' /\ v = v'.
Proof. intros (e & E & <- & <-) (e' & E' & <- & <-). rewrite E in E'. by injection E' as ->. Qed.

(** The frame of a page is the same in tables that agree on ownership. *)
Lemma resident_unique m t v f e f' e' : resident m t v f e -> resident m t v f' e' -> f = f'.
Proof.
  intros H H'. pose proof (resident_owns _ _ _ _ _ H). pose proof (resident_owns _ _ _ _ _ H').
  destruct H as (? & _ & _ & _ & B), H' as (? & _ & _ & _ & B').
  destruct (Z.lt_trichotomy f f') as [?|[?|?]]; [|done|].
  - by destruct (B' f ltac:(lia)).
  - by destruct (B f' ltac:(lia)).
Qed.

Lemma resident_same m m' t t' v f e :
  resident m t v f e -> Forall2 same_owner t t' -> currentTID m' = currentTID m ->
  exists e', resident m' t' v f e' /\ readOnly e' = readOnly e.
Proof.
  intros (Hf & [H0 E]%aget_Ok & V & T & B) HF HT.
  destruct (Forall2_lookup_l _ _ _ _ _ HF E) as (e' & E' & S1 & S2 & _ & _ & S5 & _).
  exists e'. split; [|done]. unfold resident. rewrite aget_Ok, HT. split_and!; try lia; try congruence.
  intros k Hk HO. apply (B k Hk). by rewrite same_owner_owns.
Qed.

(** A load from a resident page. *)
Lemma rpt_ReadMem cfg m t va size f e :
  rpt_ok cfg m t -> 0 <= va -> is_size size -> aligned va size = true ->
  resident m t (va / PageSize) f e -> f * PageSize + va mod PageSize <= MemorySize - 4 ->
  exists bs, mem_read (mainMemory m) (f * PageSize + va mod PageSize) (Z.to_nat size) = Ok bs /\
    ReadMem cfg m va size = Ok (Ret (Some (loaded bs size)) (translated cfg m t f)).
Proof.
  intros H Hv Hs Ha HR Hlim. pose proof HR as (Hf & _).
  pose proof (Z.mod_pos_bound va PageSize ltac:(done)) as Hm.
  destruct (load_value_total cfg (mainMemory m) (f * PageSize + va mod PageSize) size)
    as (bs & Eb & El).
  { apply H. } { done. } { unfold PageSize in *. lia. }
  { rewrite (env_length _ (rpt_env _ _ _ H)). unfold MemorySize, NumPhysPages, PageSize in *.
    destruct Hs as [-> | [-> | ->]]; lia. }
  exists bs. split; [exact Eb|]. unfold ReadMem.
  destruct (rpt_Translate cfg m t va size false H Ha) as [(f' & e' & HR' & ->)|[HN _]].
  - rewrite Z.quot_div_nonneg in HR' by done. rewrite Z.rem_mod_nonneg by done.
    assert (f' = f) as -> by (by eapply resident_unique).
    rewrite andb_false_r, bool_decide_true by (unfold PageSize in *; lia).
    cbn [mbind res_bind]. rewrite decide_False by naive_solver.
    destruct (translated_ok cfg m t f H Hf) as (_ & _ & -> & _). by rewrite El.
  - exfalso. rewrite Z.quot_div_nonneg in HN by done. eapply HN; [|by eapply resident_owns]. done.
Qed.

(** ** Replacement *)

(** The flag the configured policy compares. *)
Definition policy_flag (cfg : Config) (e : TranslationEntry) : Z :=
  if LRU_REPLACE cfg then LRUFlag e else FIFOFlag e.

(** Exactly one policy is compiled in. *)
Definition one_policy (cfg : Config) : Prop := FIFO_REPLACE cfg <> LRU_REPLACE cfg.

Definition first_min (flag : TranslationEntry -> Z) (t : list TranslationEntry) (len i : Z) : Prop :=
  0 <= i < len /\ exists e, aget t i = Ok e /\
    (forall k e', 0 <= k < len -> aget t k = Ok e' -> flag e <= flag e') /\
    (forall k e', 0 <= k < i -> aget t k = Ok e' -> flag e < flag e').

Lemma replace_step_policy cfg t i s e :
  one_policy cfg -> aget t i = Ok e ->
  replace_step cfg t i s
    = Ok (if bool_decide (s.1 > policy_flag cfg e) then (policy_flag cfg e, i) else s).
Proof.
  unfold one_policy, replace_step, policy_flag. intros H E.
  destruct (FIFO_REPLACE cfg), (LRU_REPLACE cfg); try done; rewrite E; cbn [mbind res_bind]; done.
Qed.

Lemma findOneToReplace_spec cfg m t type :
  one_policy cfg ->
  let len := replace_len cfg m type in
  0 < len <= Z.of_nat (length t) ->
  (forall k e, aget t k = Ok e -> policy_flag cfg e < int_max) ->
  exists i, findOneToReplace cfg m t type = Ok i /\ first_min (policy_flag cfg) t len i.
Proof.
  intros Hc len Hl Hmax. unfold findOneToReplace. fold len.
  destruct (for_loop_ind (fun i s =>
    (i = 0 /\ s = (int_max, 0)) \/
    (first_min (policy_flag cfg) t i s.2 /\
     exists e, aget t s.2 = Ok e /\ s.1 = policy_flag cfg e))
    (Z.to_nat len) 0 (replace_step cfg t) (int_max, 0)) as (s & E & Hs).
  - by left.
  - intros i s Hi Hs. destruct (aget_in_range t i) as [e Ee]; [lia|].
    rewrite (replace_step_policy _ _ _ _ e Hc Ee). eexists. split; [reflexivity|]. right.
    destruct Hs as [[-> ->]|[(Hr & e0 & E0 & Hle & Hlt) (e1 & E1 & Hs)]].
    + cbn [fst]. rewrite bool_decide_true by (pose proof (Hmax _ _ Ee); lia). cbn [fst snd].
      split; [|by exists e]. split; [lia|]. exists e. split_and!; [done| |intros; lia].
      intros k e' Hk E'. assert (k = 0) as -> by lia. rewrite Ee in E'. injection E' as ->. lia.
    + rewrite E0 in E1. injection E1 as <-. rewrite Hs. case_bool_decide as Hc1; cbn [fst snd].
      * split; [|by exists e]. split; [lia|]. exists e. split_and!; [done| |].
        -- intros k e' Hk E'. destruct (decide (k = i)) as [->|];
             [rewrite Ee in E'; injection E' as ->; lia|].
           pose proof (Hle k e' ltac:(lia) E'). lia.
        -- intros k e' Hk E'. pose proof (Hle k e' ltac:(lia) E'). lia.
      * split; [|by exists e0]. split; [lia|]. exists e0. split_and!; [done| |done].
        intros k e' Hk E'. destruct (decide (k = i)) as [->|];
          [rewrite Ee in E'; injection E' as ->; lia|]. apply (Hle k); [lia|done].
  - rewrite E. cbn [mbind res_bind]. exists s.2. split; [done|].
    destruct Hs as [[? _]|[H _]]; [lia|].
    by replace len with (0 + Z.of_nat (Z.to_nat len)) by lia.
Qed.

Lemma findOneToReplace_range cfg m t type :
  0 < replace_len cfg m type <= Z.of_nat (length t) ->
  exists i, findOneToReplace cfg m t type = Ok i /\ 0 <= i < replace_len cfg m type.
Proof.
  intros Hl. unfold findOneToReplace.
  destruct (for_loop_ind (fun _ s => 0 <= s.2 < replace_len cfg m type)
    (Z.to_nat (replace_len cfg m type)) 0 (replace_step cfg t) (int_max, 0)) as (s & E & Hs).
  - cbn. lia.
  - intros i s Hi Hs. destruct (aget_in_range t i) as [e Ee]; [lia|]. unfold replace_step.
    destruct (FIFO_REPLACE cfg), (LRU_REPLACE cfg); rewrite ?Ee; cbn [mbind res_bind];
      eexists; (split; [reflexivity|]); repeat case_bool_decide; cbn [fst snd] in *; lia.
  - rewrite E. cbn [mbind res_bind]. by exists s.2.
Qed.

(** ** Loading a page *)

Lemma loadPageFrame_rpt cfg m t v p fa :
  rpt_ok cfg m t -> 0 <= p < NumPhysPages -> 0 <= fa ->
  exists e t' mem',
    loadPageFrame cfg m v p fa = Ok (with_memory (with_pt m (Some t')) mem') /\
    length t' = length t /\ vpn e = v /\ tID e = currentTID m /\ valid e = true /\
    aget t' p = Ok e /\ (forall k, k <> p -> aget t' k = aget t k) /\
    mem_write (mainMemory m) (p * PageSize)
      (take (Z.to_nat PageSize) (drop (Z.to_nat fa) (executable m))) = Ok mem'.
Proof.
  intros [Hc Ht Hp Hl HE] Hr Hfa. unfold loadPageFrame. rewrite Hp, Hc. cbn [arr mbind res_bind].
  assert (Hr' : 0 <= p < Z.of_nat (length t)) by (rewrite Hl; unfold NumPhysPages in *; lia).
  destruct (aget_in_range t p Hr') as [e0 E0]. rewrite E0. cbn [mbind res_bind].
  rewrite aset_in_range by done. cbn [mbind res_bind].
  set (e1 := mkEntry v (currentTID m) p true (readOnly e0) (use e0) (dirty e0) (FIFOFlag e0) (LRUFlag e0)).
  set (t1 := <[Z.to_nat p := e1]> t).
  assert (exists e t', (if FIFO_REPLACE cfg then updateFIFOFlag t1 p NumPhysPages else Ok t1) = Ok t' /\
    length t' = length t /\ vpn e = v /\ tID e = currentTID m /\ valid e = true /\
    t' !! Z.to_nat p = Some e /\ (forall k, k <> Z.to_nat p -> t' !! k = t !! k))
    as (e & t' & -> & L & V & T & Va & Ep & Eo).
  { assert (E1 : aget t1 p = Ok e1) by (unfold t1; rewrite aget_insert by lia; by rewrite decide_True).
    destruct (FIFO_REPLACE cfg).
    - destruct (updateFIFOFlag_spec t1 p NumPhysPages) as (e & num & Ee & _ & ->).
      { unfold t1. rewrite length_insert, Hl. done. } { unfold t1. by rewrite length_insert. }
      rewrite E1 in Ee. injection Ee as <-. eexists _, _. split; [reflexivity|].
      unfold t1. rewrite !length_insert. split_and!; [done|..|].
      4: { apply list_lookup_insert_eq. rewrite length_insert. lia. }
      1-3: done. intros k Hk. by rewrite !list_lookup_insert_ne.
    - exists e1, t1. unfold t1. rewrite length_insert. split_and!; try done.
      + apply list_lookup_insert_eq. lia.
      + intros k Hk. by rewrite list_lookup_insert_ne. }
  cbn [mbind res_bind executable mainMemory with_pt]. unfold unix_ReadAt.
  rewrite bool_decide_true by lia. cbn [ASSERT mbind res_bind].
  set (data := take (Z.to_nat PageSize) (drop (Z.to_nat fa) (executable m))).
  assert (Hd : Z.of_nat (length data) <= PageSize).
  { unfold data. rewrite length_take. unfold PageSize. lia. }
  destruct HE as [HM _ _ _].
  assert (exists mem', mem_write (mainMemory m) (p * PageSize) data = Ok mem') as [mem' Ew].
  { unfold mem_write. rewrite bool_decide_true; [by eexists|].
    rewrite HM. unfold MemorySize, NumPhysPages, PageSize in *. lia. }
  rewrite Ew. cbn [mbind res_bind]. exists e, t', mem'. split_and!; try done.
  - apply aget_Ok. split; [lia|done].
  - intros k Hk. unfold aget. case_bool_decide; [|done]. rewrite Eo; [done|]. lia.
Qed.

(** The frame [page_fault] picks. *)
Definition picks (cfg : Config) (m : Machine) (bs : list bool) (t : list TranslationEntry) (p : Z) : Prop :=
  match BitSpec.first_clear bs with
  | Some i => p = Z.of_nat i
  | None => findOneToReplace cfg m t 0 = Ok p
  end.

Lemma first_clear_lt bs i : BitSpec.first_clear bs = Some i -> (i < length bs)%nat.
Proof. intros H%first_clear_Some. destruct H as [H _]. by apply lookup_lt_Some in H. Qed.

Lemma page_fault_rpt cfg m t bs va :
  rpt_ok cfg m t -> brel (mmBitmap m) bs -> length bs = Z.to_nat NumPhysPages ->
  regs_ok (registers m) -> getReg m BadVAddrReg = Ok va -> 0 <= va -> 0 <= codeInFileAddr m ->
  let v := va / PageSize in
  let fa := codeInFileAddr m + v * PageSize in
  exists p e t' bm' mem' m',
    page_fault cfg m = Ok m' /\ picks cfg m bs t p /\ 0 <= p < NumPhysPages /\
    m' = with_memory (with_pt (with_bitmap
           (with_counters m (numAddressTranslation m) (numPageFaults m + 1) (numTLBMiss m)) bm')
           (Some t')) mem' /\
    brel bm' (BitSpec.FindAndSet bs).2 /\
    length t' = length t /\ vpn e = v /\ tID e = currentTID m /\ aget t' p = Ok e /\
    (forall k, k <> p -> aget t' k = aget t k) /\
    mem_write (mainMemory m) (p * PageSize)
      (take (Z.to_nat PageSize) (drop (Z.to_nat fa) (executable m))) = Ok mem'.
Proof.
  intros H HB HL HR Ev Hv Hca v fa. pose proof H as [Hc Ht Hp Hl HE].
  unfold page_fault. set (m0 := with_counters m _ _ _).
  replace (ReadRegister m0 BadVAddrReg) with (@Ok Z va) by (symmetry; exact Ev).
  cbn [mbind res_bind]. rewrite Z.quot_div_nonneg by done. fold v.
  destruct (FindAndSet_spec (mmBitmap m) bs HB) as (bm' & EF & HB').
  unfold findAvailablePageFrame. change (mmBitmap m0) with (mmBitmap m). rewrite EF.
  cbn [mbind res_bind]. set (m1 := with_bitmap m0 bm').
  assert (exists p, picks cfg m bs t p /\ 0 <= p < NumPhysPages /\
    (if bool_decide ((BitSpec.FindAndSet bs).1 = -1) then t ← arr (pt m1); findOneToReplace cfg m1 t 0
     else Ok (BitSpec.FindAndSet bs).1) = Ok p) as (p & HP & Hr & ->).
  { unfold picks, BitSpec.FindAndSet. destruct (BitSpec.first_clear bs) as [i|] eqn:Ei; cbn [fst].
    - exists (Z.of_nat i). apply first_clear_lt in Ei. rewrite HL in Ei.
      rewrite bool_decide_false by lia. split_and!; try done; unfold NumPhysPages in *; lia.
    - rewrite bool_decide_true by done. change (pt m1) with (pt m). rewrite Hp. cbn [arr mbind res_bind].
      destruct (findOneToReplace_range cfg m t 0) as (p & E & Hr).
      { unfold replace_len. rewrite decide_False, Hc, Hl by done. done. }
      exists p. unfold replace_len in Hr. rewrite decide_False, Hc in Hr by done. done. }
  cbn [mbind res_bind].
  assert (H1 : rpt_ok cfg m1 t) by (destruct HE; by split).
  destruct (loadPageFrame_rpt cfg m1 t v p fa H1 Hr) as (e & t' & mem' & E & L & V & T & Va & Ep & Eo & Ew).
  { unfold fa, v. assert (0 <= va / PageSize) by (apply Z.div_pos; done). unfold PageSize in *. lia. }
  change (codeInFileAddr m1) with (codeInFileAddr m). fold fa. rewrite E.
  exists p, e, t', bm', mem'. eexists. split; [reflexivity|]. split_and!; try done; lia.
Qed.

(** Raising a page fault for [va]: the registers the handler starts with. *)
Definition fault_regs (m : Machine) (va : Z) : list Z :=
  delayed (<[39%nat := va]> (registers m)) 0 0.

Definition fault_entry (m : Machine) (va : Z) : Machine :=
  with_status (with_registers m (fault_regs m va)) SystemMode.

Lemma fault_entry_ok m va :
  regs_ok (registers m) -> is_i32 va ->
  regs_ok (fault_regs m va) /\ getReg (fault_entry m va) BadVAddrReg = Ok va.
Proof.
  intros HR Hi. unfold fault_regs.
  assert (HR1 : regs_ok (<[39%nat := va]> (registers m))) by (by apply regs_insert).
  destruct (delayed_ok _ 0 0 HR1 ltac:(done) ltac:(done)) as [HR2 _]. split; [done|].
  apply getReg_Ok. split; [done|]. cbn [registers with_registers with_status fault_entry].
  unfold fault_regs. destruct HR1 as [Hl1 _ (lr & El & Hlr)]. unfold delayed. rewrite El.
  cbn [default id]. unfold NumGPRegs in Hlr. change (Z.to_nat BadVAddrReg) with 39%nat.
  rewrite !list_lookup_insert_ne by lia. apply list_lookup_insert_eq.
  rewrite length_insert in Hl1. lia.
Qed.

Lemma raise_page_fault cfg m va m' :
  regs_ok (registers m) -> is_i32 va ->
  page_fault cfg (fault_entry m va) = Ok m' ->
  RaiseException cfg m PageFaultException va = Ok (Ret () (with_status m' UserMode)).
Proof.
  intros HR Hi E. destruct (fault_entry_ok m va HR Hi) as [HR2 _].
  assert (HR1 : regs_ok (<[39%nat := va]> (registers m))) by (by apply regs_insert).
  unfold RaiseException. rewrite setReg_total by done. cbn [mbind res_bind].
  rewrite DelayedLoad_total by done. cbn [mbind res_bind registers with_registers].
  change (with_status _ SystemMode) with (fault_entry m va).
  unfold ExceptionHandler. rewrite decide_False by done. unfold handle_exception.
  destruct (getReg_total (fault_entry m va) 2 HR2 ltac:(lia)) as (x & E2 & _).
  unfold ReadRegister. rewrite !bool_decide_true by done. cbn [andb ASSERT mbind res_bind].
  rewrite E2. cbn [mbind res_bind]. by rewrite E.
Qed.

Lemma rpt_fault_entry cfg m t va : rpt_ok cfg m t -> rpt_ok cfg (fault_entry m va) t.
Proof. intros [? ? ? ? [? ? ? ?]]. by split. Qed.

(** ** Replacement order *)

(** The flag update of the configured policy. *)
Definition policy_update (cfg : Config) (t : list TranslationEntry) (p len : Z)
    : res (list TranslationEntry) :=
  if LRU_REPLACE cfg then updateLRUFlag t p len else updateFIFOFlag t p len.

(** A page is brought into slot [p] (FIFO) or referenced there (LRU). *)
Definition refer (cfg : Config) (t : list TranslationEntry) (p : Z) : res (list TranslationEntry) :=
  e ← aget t p; t1 ← aset t p (set_valid e true); policy_update cfg t1 p (Z.of_nat (length t1)).

(** How long ago slot [i] was referred to, in a history with the last reference
    first; a slot never referred to is older than all others. *)
Fixpoint age (hist : list Z) (i : Z) : nat :=
  match hist with [] => O | p :: hist' => if decide (p = i) then O else S (age hist' i) end.

Lemma policy_update_spec cfg t p :
  0 <= p < Z.of_nat (length t) ->
  exists e num, aget t p = Ok e /\ flag_max (policy_flag cfg) t p (Z.of_nat (length t)) num /\
    exists e', policy_update cfg t p (Z.of_nat (length t)) = Ok (<[Z.to_nat p := e']> t) /\
      valid e' = valid e /\ policy_flag cfg e' = i32 (num + 1).
Proof.
  intros Hp. unfold policy_update, policy_flag. destruct (LRU_REPLACE cfg).
  - destruct (updateLRUFlag_spec t p (Z.of_nat (length t))) as (e & num & E & F & ->); [lia..|].
    exists e, num. split_and!; [done..|]. by eexists.
  - destruct (updateFIFOFlag_spec t p (Z.of_nat (length t))) as (e & num & E & F & ->); [lia..|].
    exists e, num. split_and!; [done..|]. by eexists.
Qed.

(** The flags of a table order its slots by age. *)
Record ordered (cfg : Config) (t : list TranslationEntry) (hist : list Z) : Prop := mkOrdered {
  ord_valid : forall k e, aget t k = Ok e -> policy_flag cfg e <> -1 -> valid e = true;
  ord_range : forall k e, aget t k = Ok e -> -1 <= policy_flag cfg e < Z.of_nat (length hist);
  ord_age : forall k e k' e', aget t k = Ok e -> aget t k' = Ok e' ->
    policy_flag cfg e < policy_flag cfg e' <-> (age hist k' < age hist k)%nat }.

Lemma refer_ordered cfg t hist p :
  ordered cfg t hist -> 0 <= p < Z.of_nat (length t) -> Z.of_nat (length hist) < int_max ->
  exists t', refer cfg t p = Ok t' /\ ordered cfg t' (p :: hist) /\ length t' = length t.
Proof.
  intros [O1 O2 O3] Hp Hh. unfold refer. destruct (aget_in_range t p Hp) as [e0 E0]. rewrite E0.
  cbn [mbind res_bind]. rewrite aset_in_range by done. cbn [mbind res_bind].
  set (t1 := <[Z.to_nat p := set_valid e0 true]> t).
  assert (L1 : length t1 = length t) by apply length_insert.
  destruct (policy_update_spec cfg t1 p) as (e & num & Ee & (F1 & F2 & F3) & e' & -> & V & PF);
    [by rewrite L1|].
  assert (A1 : forall k, k <> p -> 0 <= k -> aget t1 k = aget t k).
  { intros k Hk Hk0. unfold t1. rewrite aget_insert by lia. by rewrite decide_False. }
  assert (e = set_valid e0 true) as ->.
  { unfold t1 in Ee. rewrite aget_insert, decide_True in Ee by lia. by injection Ee as <-. }
  rewrite L1 in F2, F3.
  assert (Hnum : -1 <= num < Z.of_nat (length hist) /\
    forall k x, k <> p -> aget t k = Ok x -> policy_flag cfg x <= num).
  { split.
    - destruct F3 as [->|(k & x & Hk & Hkp & Ex & Vx & <-)]; [lia|].
      rewrite A1 in Ex by lia. by eapply O2.
    - intros k x Hk Ex. destruct (decide (policy_flag cfg x = -1)) as [->|Hne]; [done|].
      pose proof Ex as [Hk0 Hlk%lookup_lt_Some]%aget_Ok.
      eapply (F2 k); [lia|done|by rewrite A1|by eapply O1]. }
  destruct Hnum as [Hn Hmax]. rewrite i32_id in PF by (unfold is_i32, int_min, int_max in *; lia).
  assert (L2 : length (<[Z.to_nat p := e']> t1) = length t) by (by rewrite length_insert).
  assert (G : forall k x, aget (<[Z.to_nat p := e']> t1) k = Ok x ->
    (k = p /\ x = e') \/ (k <> p /\ aget t k = Ok x)).
  { intros k x Ex. pose proof Ex as [Hk0 _]%aget_Ok. rewrite aget_insert in Ex by (rewrite ?L1; lia).
    case_decide as D; [left; by injection Ex as <-|]. right. split; [done|]. by rewrite <- A1. }
  eexists. split; [reflexivity|]. split; [|done]. cbn [length] in *. split.
  - intros k x [[-> ->]|[_ Ex]]%G Hx; [by rewrite V|by eapply O1].
  - intros k x [[-> ->]|[_ Ex]]%G; cbn [length]; [lia|]. pose proof (O2 _ _ Ex). lia.
  - intros k x k' x' [[-> ->]|[Hk Ex]]%G [[-> ->]|[Hk' Ex']]%G; cbn [age].
    + lia.
    + pose proof (Hmax _ _ Hk' Ex'). repeat case_decide; lia.
    + pose proof (Hmax _ _ Hk Ex). repeat case_decide; lia.
    + rewrite !decide_False by done. pose proof (O3 _ _ _ _ Ex Ex'). lia.
Qed.

Lemma refer_all_ordered cfg ps t hist :
  ordered cfg t hist -> Forall (fun p => 0 <= p < Z.of_nat (length t)) ps ->
  Z.of_nat (length hist + length ps) <= int_max ->
  exists t', foldM (refer cfg) t ps = Ok t' /\ ordered cfg t' (rev ps ++ hist) /\ length t' = length t.
Proof.
  revert t hist. induction ps as [|p ps IH]; intros t hist HO HF HL; [by exists t|].
  inversion HF as [|? ? Hp HF']; subst. cbn [length] in HL.
  destruct (refer_ordered cfg t hist p HO Hp ltac:(lia)) as (t1 & E1 & HO1 & L1).
  destruct (IH t1 (p :: hist) HO1) as (t2 & E2 & HO2 & L2); [by rewrite L1|cbn [length]; lia|].
  exists t2. cbn [foldM]. rewrite E1. cbn [mbind res_bind]. split_and!; [done| |congruence].
  cbn [rev]. by rewrite <- app_assoc.
Qed.
