(* ===== verification/VmClaims.v ===== *)
(** * The properties of the virtual memory *)

From S2P Require Import Prelude Words Bytes Bitmap BitmapProofs Machine MachineProofs.
From S2P Require Import MipsClaims VmProofs.

(** C10: memory isolation.  A store at a non-negative address that returns TRUE
    writes the little-endian bytes of the value inside one frame that holds the
    addressed page of the running thread, whatever the host's byte order, and
    no byte outside them changes; in particular every byte of every frame of
    another thread is unchanged, and so is the ownership of all frames. *)
Theorem store_isolation (cfg : Config) (m m' : Machine) (t : list TranslationEntry)
    (va size value : Z) :
  rpt_ok cfg m t -> 0 <= va -> WriteMem cfg m va size value = Ok (Ret true m') ->
  exists f t',
    owns t (currentTID m) (va / PageSize) f /\
    mem_read (mainMemory m') (f * PageSize + va mod PageSize) (Z.to_nat size)
      = Ok (le_split (Z.to_nat size) value) /\
    va mod PageSize + size <= PageSize /\
    rpt_ok cfg m' t' /\ Forall2 same_owner t t' /\
    (forall j : nat, ~ (f * PageSize + va mod PageSize <= Z.of_nat j
                        < f * PageSize + va mod PageSize + size) ->
       mainMemory m' !! j = mainMemory m !! j) /\
    (forall g tid v (j : nat), owns t tid v g -> tid <> currentTID m ->
       g * PageSize <= Z.of_nat j < (g + 1) * PageSize ->
       mainMemory m' !! j = mainMemory m !! j).
Proof.
  intros H Hv E. destruct (rpt_WriteMem _ _ _ _ _ _ _ H Hv E)
    as (Hs & Ha & f & e & mem' & HR & _ & _ & Ew & ->).
  destruct (translated_ok cfg m t f H (proj1 HR)) as (H1 & HF & Em & _ & _).
  pose proof (aligned_page va size Hv Hs Ha) as Hp. pose proof (resident_owns _ _ _ _ _ HR) as HO.
  assert (Hlen : Z.of_nat (length (le_split (Z.to_nat size) value)) = size)
    by (rewrite length_le_split; destruct Hs as [-> | [-> | ->]]; done).
  assert (HM : forall j : nat, ~ (f * PageSize + va mod PageSize <= Z.of_nat j
      < f * PageSize + va mod PageSize + size) -> mem' !! j = mainMemory m !! j)
    by (intros j Hj; eapply mem_write_out; [exact Ew|]; by rewrite Hlen).
  exists f, (touched cfg t f). split_and!; try done.
  - cbn [mainMemory with_memory]. apply mem_read_write in Ew. by rewrite length_le_split in Ew.
  - destruct H1 as [? ? ? ? HE]. split; try done.
    apply (keeps_env (translated cfg m t f)); [|done]. eapply keeps_memory; [rewrite Em; exact Ew|].
    intros _. apply le_split_bytes.
  - intros g tid v j Hg Hne Hj. apply HM. intros Hin.
    assert (g = f) as ->; [|by destruct (aget_owner _ _ _ _ _ _ Hg HO)].
    pose proof (Z.mod_pos_bound va PageSize ltac:(done)). unfold PageSize in *. lia.
Qed.

Lemma demo_rpt n mem :
  Forall is_byte mem -> (length mem <= Z.to_nat MemorySize)%nat ->
  rpt_ok demo_cfg (demo_machine n mem) (demo_entry n <$> seq 0 128).
Proof. intros Hb Hl. split; try done. by apply demo_ok. Qed.

Lemma store_isolation_witness :
  let m := demo_machine 2 [] in
  exists f, owns (demo_entry 2 <$> seq 0 128) 1 1 f /\
    mem_read (mainMemory (after m (WriteMem demo_cfg m 132 4 0x01020304))) (f * 128 + 4) 4
      = Ok [4; 3; 2; 1].
Proof.
  intros m.
  destruct (store_isolation demo_cfg m (after m (WriteMem demo_cfg m 132 4 0x01020304))
    (demo_entry 2 <$> seq 0 128) 132 4 0x01020304) as (f & t' & HO & HR & _);
    [apply demo_rpt; [constructor|apply Nat.le_0_l]|lia|vm_compute; reflexivity|].
  exists f. split; [exact HO|exact HR].
Defined.

(** What a load of the given size gives back of a stored value. *)
Definition narrowed (size value : Z) : Z :=
  if bool_decide (size = 1) then char_to_int (value mod 256)
  else if bool_decide (size = 2) then value mod 65536
  else value.

(** Store and load.  After a store that returned TRUE, a load of the same
    size at the same address returns TRUE with the stored value (a byte comes
    back sign-extended, a half word zero-extended, a word unchanged), on a
    little-endian and on a big-endian host. *)
Theorem store_load_roundtrip (cfg : Config) (m m' : Machine) (t : list TranslationEntry)
    (va size value : Z) :
  rpt_ok cfg m t -> 0 <= va -> is_i32 value -> WriteMem cfg m va size value = Ok (Ret true m') ->
  exists m'', ReadMem cfg m' va size = Ok (Ret (Some (narrowed size value)) m'').
Proof.
  intros H Hv Hi E. destruct (rpt_WriteMem _ _ _ _ _ _ _ H Hv E)
    as (Hs & Ha & f & e & mem' & HR & _ & Hlim & Ew & ->).
  destruct (translated_ok cfg m t f H (proj1 HR)) as (H1 & HF & Em & HT & _).
  set (m1 := with_memory (translated cfg m t f) mem').
  assert (H1' : rpt_ok cfg m1 (touched cfg t f)).
  { destruct H1 as [? ? ? ? HE]. split; try done.
    apply (keeps_env (translated cfg m t f)); [|done]. eapply keeps_memory; [rewrite Em; exact Ew|].
    intros _. apply le_split_bytes. }
  destruct (resident_same m m1 t (touched cfg t f) _ _ _ HR HF HT) as (e' & HR' & _).
  destruct (rpt_ReadMem cfg m1 _ va size f e' H1' Hv Hs Ha HR' Hlim) as (bs & Eb & ER).
  rewrite ER. eexists. do 3 f_equal.
  apply mem_read_write in Ew. rewrite length_le_split in Ew.
  change (mainMemory m1) with mem' in Eb. rewrite Ew in Eb. injection Eb as <-.
  unfold loaded, narrowed. rewrite le_combine_split. destruct Hs as [-> | [-> | ->]]; [done|done|].
  rewrite !bool_decide_false by done. change (256 ^ _) with 4294967296. fold (u32 value).
  by rewrite i32_u32, i32_id.
Qed.

Lemma store_load_roundtrip_witness :
  let m := demo_machine 1 [] in
  exists m'', ReadMem demo_cfg (after m (WriteMem demo_cfg m 5 1 200)) 5 1
    = Ok (Ret (Some (-56)) m'').
Proof.
  intros m. apply (store_load_roundtrip demo_cfg m _ (demo_entry 1 <$> seq 0 128) 5 1 200);
    [apply demo_rpt; [constructor|apply Nat.le_0_l]|lia|done|vm_compute; reflexivity].
Defined.

Lemma read_of_written mem p data mem' off :
  mem_write mem (p * PageSize) data = Ok mem' -> Z.of_nat (length data) = PageSize ->
  0 <= off -> off + 4 <= PageSize ->
  mem_read mem' (p * PageSize + off) 4 = Ok (take 4 (drop (Z.to_nat off) data)).
Proof.
  intros E Hl H1 H2. pose proof (mem_write_length _ _ _ _ E) as HL.
  unfold mem_write in E. case_bool_decide as Hr; [|done]. injection E as <-.
  unfold mem_read. rewrite HL, bool_decide_true by lia. f_equal. unfold splice, PageSize in *.
  rewrite drop_app_ge by (rewrite length_take; lia). rewrite length_take.
  replace (Z.to_nat (p * 128 + off) - Z.to_nat (p * 128) `min` length mem)%nat with (Z.to_nat off) by lia.
  rewrite drop_app_le by lia. rewrite take_app_le by (rewrite length_drop; lia). done.
Qed.

(** A load from a page that no frame holds returns after the handler. *)
Lemma ReadMem_faults cfg m t va m1 : rpt_ok cfg m t -> regs_ok (registers m) -> is_i32 va -> 0 <= va -> aligned va 4 = true ->
  (forall f, 0 <= f < NumPhysPages -> ~ owns t (currentTID m) (va / PageSize) f) ->
  page_fault cfg (fault_entry (counted m) va) = Ok m1 ->
  ReadMem cfg m va 4 = Ok (Ret None (with_status m1 UserMode)).
Proof.
  intros H HR Hi Hv Ha HN EP. unfold ReadMem. destruct (rpt_Translate cfg m t va 4 false H Ha) as [(f & e' & HR' & _)|[_ ->]].
  - exfalso. rewrite Z.quot_div_nonneg in HR' by done. eapply HN; [|by eapply resident_owns]. apply HR'.
  - cbn [mbind res_bind]. rewrite decide_True by done. by rewrite (raise_page_fault cfg (counted m) va m1 HR Hi EP).
Qed.

(** The word at an address of the page that was read from the executable. *)
Lemma paged_word (exe : list Z) ca va :
  0 <= va -> 0 <= ca -> va mod PageSize + 4 <= PageSize ->
  take 4 (drop (Z.to_nat (va mod PageSize)) (take (Z.to_nat PageSize) (drop (Z.to_nat (ca + va / PageSize * PageSize)) exe)))
    = take 4 (drop (Z.to_nat (ca + va)) exe).
Proof.
  intros Hv Hc Hoff. pose proof (Z.div_mod va PageSize ltac:(done)). pose proof (Z.mod_pos_bound va PageSize ltac:(done)).
  assert (0 <= va / PageSize) by (apply Z.div_pos; done).
  rewrite skipn_firstn_comm, take_take, drop_drop. f_equal; [unfold PageSize in *; lia|]. f_equal. unfold PageSize in *. lia.
Qed.

(** C9: demand paging with the inverted page table (USE_RPT) and without a TLB.  A word
    load from an aligned, non-negative address whose page no frame holds, and is
    whole in the executable, raises a page fault and returns FALSE; the handler puts
    the page in the lowest free frame, or in the frame the replacement policy picks
    when none is free, and changes no other frame; the same load then returns TRUE
    with the word that stands at that address of the executable.  (With a TLB the
    second load is a TLB miss; the other build bounds the address by the size of the
    space and marks the frames in the table of the program.) *)
Theorem demand_paging (cfg : Config) (m : Machine) (t : list TranslationEntry) (bs : list bool)
    (va : Z) :
  rpt_ok cfg m t -> brel (mmBitmap m) bs -> length bs = Z.to_nat NumPhysPages ->
  regs_ok (registers m) -> is_i32 va -> 0 <= va -> va mod 4 = 0 -> 0 <= codeInFileAddr m ->
  codeInFileAddr m + (va / PageSize + 1) * PageSize <= Z.of_nat (length (executable m)) ->
  (forall f, 0 <= f < NumPhysPages -> ~ owns t (currentTID m) (va / PageSize) f) ->
  exists p m1 m2,
    ReadMem cfg m va 4 = Ok (Ret None m1) /\ numPageFaults m1 = numPageFaults m + 1 /\
    picks cfg m bs t p /\ brel (mmBitmap m1) (BitSpec.FindAndSet bs).2 /\
    (forall j : nat, ~ (p * PageSize <= Z.of_nat j < (p + 1) * PageSize) ->
       mainMemory m1 !! j = mainMemory m !! j) /\
    ReadMem cfg m1 va 4 = Ok (Ret (Some (i32 (le_combine
      (take 4 (drop (Z.to_nat (codeInFileAddr m + va)) (executable m)))))) m2).
Proof.
  intros H HB HL HR Hi Hv Ha4 Hca Hlen HN.
  assert (Ha : aligned va 4 = true).
  { unfold aligned. assert (Z.land va 3 = va mod 4) as -> by exact (Z.land_ones va 2 ltac:(lia)).
    by rewrite Ha4. }
  set (m0 := fault_entry (counted m) va).
  assert (H0 : rpt_ok cfg m0 t) by (by apply rpt_fault_entry, rpt_counted).
  destruct (fault_entry_ok (counted m) va HR Hi) as [HR0 Eva]. fold m0 in Eva.
  destruct (page_fault_rpt cfg m0 t bs va H0 HB HL HR0 Eva Hv Hca)
    as (p & e & t' & bm' & mem' & m1 & EP & HP & Hp & Em1 & HB' & L & V & T & Ep & Eo & Ew).
  set (m2 := with_status m1 UserMode).
  pose proof (ReadMem_faults cfg m t va m1 H HR Hi Hv Ha HN EP) as ER. fold m2 in ER.
  set (data := take (Z.to_nat PageSize)
    (drop (Z.to_nat (codeInFileAddr m0 + va / PageSize * PageSize)) (executable m0))) in *.
  assert (Hq : 0 <= va / PageSize) by (apply Z.div_pos; done).
  change (codeInFileAddr m0) with (codeInFileAddr m) in *. change (executable m0) with (executable m) in *.
  assert (Hd : Z.of_nat (length data) = PageSize).
  { unfold data. rewrite length_take, length_drop. unfold PageSize in *. lia. }
  pose proof (aligned_page va 4 Hv ltac:(right; by right) Ha) as Hoff.
  pose proof (Z.mod_pos_bound va PageSize ltac:(done)) as Hmod.
  assert (H2 : rpt_ok cfg m2 t').
  { subst m1. destruct H0 as [Hc0 Ht0 _ Hl0 HE0]. split; try done; [by rewrite L|].
    assert (KE : env_ok (with_memory m0 mem')).
    { apply (keeps_env m0); [|done]. eapply keeps_memory; [exact Ew|].
      intros HE. apply Forall_take, Forall_drop, HE. }
    destruct KE. by split. }
  assert (HR2 : resident m2 t' (va / PageSize) p e).
  { subst m1. split_and!; try done; try lia. intros k Hk HO. 
    apply (HN k); [lia|]. destruct HO as (e' & E' & HO). exists e'.
    rewrite <- (Eo k) by lia. done. }
  destruct (rpt_ReadMem cfg m2 t' va 4 p e H2 Hv ltac:(right; by right) Ha HR2)
    as (bs' & Eb & ER2).
  { unfold MemorySize, NumPhysPages, PageSize in *. lia. }
  exists p, m2. eexists. split; [exact ER|].
  assert (Em2 : mainMemory m2 = mem' /\ mmBitmap m2 = bm' /\ numPageFaults m2 = numPageFaults m + 1)
    by (by subst m1). destruct Em2 as (Em2 & Eb2 & En2). rewrite Em2, Eb2 in *.
  split_and!; [done|done|done| |].
  - intros j Hj. eapply mem_write_out; [exact Ew|]. rewrite Hd. unfold PageSize in *. lia.
  - rewrite ER2. do 4 f_equal.
    rewrite (read_of_written _ _ _ _ _ Ew Hd) in Eb by lia. injection Eb as <-.
    unfold loaded. rewrite !bool_decide_false by done. do 2 f_equal. apply paged_word; lia.
Qed.

Lemma demo_brel n mem :
  (n <= 32)%nat -> brel (mmBitmap (demo_machine n mem)) (bits (mmBitmap (demo_machine n mem))).
Proof.
  intros Hn. split; [|done]. split_and!; try done. cbn [demo_machine mmBitmap BitmapImpl.map].
  assert (0 < 2 ^ Z.of_nat n <= 2 ^ 32).
  { split; [apply Z.pow_pos_nonneg; lia|apply Z.pow_le_mono_r; lia]. }
  constructor; [unfold is_u32; lia|]. repeat (constructor; [done|]). done.
Qed.

Lemma demand_paging_witness :
  let m := demo_machine 1 [] in
  exists p m1 m2, ReadMem demo_cfg m 256 4 = Ok (Ret None m1) /\
    picks demo_cfg m (bits (mmBitmap m)) (demo_entry 1 <$> seq 0 128) p /\
    ReadMem demo_cfg m1 256 4 = Ok (Ret (Some 0x07070707) m2).
Proof.
  intros m.
  destruct (demand_paging demo_cfg m (demo_entry 1 <$> seq 0 128) (bits (mmBitmap m)) 256)
    as (p & m1 & m2 & E1 & _ & HP & _ & _ & E2);
    [apply demo_rpt; [constructor|apply Nat.le_0_l]|apply demo_brel; lia|reflexivity|exact demo_regs
    |done|lia|reflexivity|done|vm_compute; done| |].
  - intros f Hf (e & [H0 E]%aget_Ok & V & T).
    rewrite list_lookup_fmap in E. destruct (seq 0 128 !! Z.to_nat f) as [k|]; [|done].
    injection E as <-. unfold demo_entry in V. case_bool_decide; [|done].
    cbn in V. change (256 / PageSize) with 2 in V. lia.
  - exists p, m1, m2. split_and!; [exact E1|exact HP|exact E2].
Defined.

(** The check on negative addresses is missing.  Page and offset are
    computed with signed division, so for an address between -127 and -1 the
    translation finds page 0 and yields an address in the frame before the one
    that holds it, which may belong to any thread. *)
Theorem negative_address_escapes (cfg : Config) (m : Machine) (t : list TranslationEntry)
    (f va size : Z) (e : TranslationEntry) (w : bool) :
  rpt_ok cfg m t -> aligned va size = true -> resident m t 0 f e -> readOnly e = false ->
  0 < f -> - PageSize < va < 0 -> (f < NumPhysPages - 1 \/ va <= -4) ->
  exists pa, Translate cfg m va size w = Ok (NoException, pa, translated cfg m t f) /\
    (f - 1) * PageSize <= pa < f * PageSize.
Proof.
  intros H Ha HR Hro Hf Hva Hl.
  assert (Hq : Z.quot va PageSize = 0 /\ Z.rem va PageSize = va) by (unfold PageSize in *; zlia).
  destruct Hq as [Hq Hrem].
  destruct (rpt_Translate cfg m t va size w H Ha) as [(f' & e' & HR' & E)|[HN _]];
    rewrite Hq in *; [|by destruct (HN f (proj1 HR)); eapply resident_owns].
  assert (f' = f) as -> by (by eapply resident_unique).
  assert (e' = e) as -> by (destruct HR as (_ & E1 & _), HR' as (_ & E2 & _); congruence).
  rewrite Hro, Hrem in E. pose proof (proj1 HR).
  rewrite bool_decide_true in E by (unfold MemorySize, NumPhysPages, PageSize in *; lia).
  exists (f * PageSize + va). split; [exact E|]. unfold PageSize in *. lia.
Qed.

(** Frame 0 belongs to thread 2, frame 1 holds page 0 of thread 1. *)
Definition two_threads : list TranslationEntry :=
  mkEntry 0 2 0 true false false false 0 0 :: mkEntry 0 1 1 true false false false 0 1 ::
  replicate 126 reset_entry.

Lemma negative_address_escapes_witness :
  let m := with_pt (demo_machine 2 []) (Some two_threads) in
  owns two_threads 2 0 0 /\
  exists pa, Translate demo_cfg m (-4) 4 true = Ok (NoException, pa, translated demo_cfg m two_threads 1)
    /\ 0 <= pa < 128.
Proof.
  intros m. split; [by eexists|].
  assert (HR : rpt_ok demo_cfg m two_threads).
  { split; try done. destruct (demo_ok 2 []) as [[[? ? ? ?] _] _]; [constructor|apply Nat.le_0_l|].
    by split. }
  apply (negative_address_escapes demo_cfg m two_threads 1 (-4) 4
    (mkEntry 0 1 1 true false false false 0 1) true);
    [exact HR|reflexivity| |reflexivity|lia|done|right; lia].
  split_and!; try done. intros k Hk. assert (k = 0) as -> by lia.
  intros (e & E & _ & T). vm_compute in E. injection E as <-. discriminate T.
Defined.

(** The [use] and [dirty] bits of a table, and of all the tables. *)
Definition refs (t : list TranslationEntry) : list (bool * bool) :=
  List.map (fun e => (use e, dirty e)) t.

Definition ref_bits (m : Machine) : option (list (bool * bool)) * option (list (bool * bool)) :=
  (refs <$> tlb m, refs <$> pt m).

Lemma refs_aset t i e e' t' :
  aget t i = Ok e -> use e' = use e -> dirty e' = dirty e -> aset t i e' = Ok t' -> refs t' = refs t.
Proof.
  intros [Hi E]%aget_Ok Hu Hd Es. unfold aset in Es. case_bool_decide; [|done]. injection Es as <-.
  unfold refs. change (List.map ?f ?l) with (f <$> l). rewrite list_fmap_insert, Hu, Hd.
  apply list_insert_id. by rewrite list_lookup_fmap, E.
Qed.

Lemma refs_updateLRU t p n t' : updateLRUFlag t p n = Ok t' -> refs t' = refs t.
Proof. unfold updateLRUFlag. intros E. inv_res. by eapply refs_aset in E. Qed.

Lemma swap_in_refs m t v e m' :
  swap_in m t v e = Ok m' -> pt m = Some t -> ref_bits m' = ref_bits m.
Proof.
  unfold swap_in. intros E Ht. destruct (vmFile m) as [f|] eqn:Ef; [|done]. cbn in E.
  apply bind_Ok in E as (j & _ & E). apply bind_Ok in E as ([t1 f1] & E1 & E). inv_res.
  unfold ref_bits. cbn. rewrite Ht. cbn. do 2 f_equal.
  apply (refs_aset t1 v) with (e := a) in Hm0; [|done..]. rewrite Hm0.
  destruct j as [j|]; inv_res; [|done].
  match goal with X : aget t j = Ok _ |- _ => eapply (refs_aset t j _ _ _ X) end;
    [| |eassumption]; done.
Qed.

(** Translation never records a reference.  Whatever the build and the
    outcome, [Translate] leaves the [use] and [dirty] bits of every entry of the
    TLB and of the page table as they were, also when it succeeds for a store;
    they are only ever set in a local copy of the entry. *)
Theorem translate_never_marks_pages (cfg : Config) (m m' : Machine) (va size pa : Z) (w : bool)
    (ex : ExceptionType) :
  Translate cfg m va size w = Ok (ex, pa, m') -> ref_bits m' = ref_bits m.
Proof.
  unfold Translate. set (m0 := with_counters m _ _ _). intros E.
  change (ref_bits m) with (ref_bits m0).
  destruct (_ || _); inv_res; [done|].
  destruct a1 as [[[e1 [frame entry]] slot] m1].
  assert (K1 : ref_bits m1 = ref_bits m0).
  { clear E Hm Hm0. unfold lookup_page in Hm1. destruct (tlb m0) as [l|].
    - apply bind_Ok in Hm1 as ([i|] & _ & X); inv_res; [|done]. by destruct (readOnly a1 && w); inv_res.
    - apply bind_Ok in Hm1 as ([[e2 pe] m2] & X & Y). inv_res. unfold pageTableTranslation in X.
      apply bind_Ok in X as (t & Ht%arr_Ok & X). destruct (USE_RPT cfg).
      + by apply bind_Ok in X as ([i|] & _ & X); inv_res.
      + case_bool_decide; inv_res; [done|]. destruct (negb (valid a1)); inv_res; [|done].
        case_bool_decide; inv_res; [|done]. by eapply swap_in_refs. }
  rewrite <- K1. case_decide; inv_res; [done|]. destruct (readOnly entry && w); inv_res; [done|].
  destruct (bool_decide (frame >= NumPhysPages) || _); inv_res; [done|].
  assert (K2 : ref_bits a1 = ref_bits m1).
  { clear Hm4. unfold touch_pt in Hm2. destruct (LRU_REPLACE cfg); [|by injection Hm2 as ->].
    apply bind_Ok in Hm2 as (t & Ht%arr_Ok & Hm2). inv_res.
    unfold ref_bits. cbn. rewrite Ht. cbn. do 2 f_equal.
    destruct (USE_RPT cfg); by eapply refs_updateLRU. }
  rewrite <- K2. unfold touch_tlb in Hm4. destruct (tlb a1) as [l|] eqn:El, slot; inv_res; try done.
  destruct (LRU_REPLACE cfg); inv_res; [|done]. unfold ref_bits. cbn. rewrite El. cbn.
  do 2 f_equal. by eapply refs_updateLRU.
Qed.

Lemma translate_never_marks_pages_witness :
  let m := demo_machine 1 [] in
  let m' := translated demo_cfg m (demo_entry 1 <$> seq 0 128) 0 in
  Translate demo_cfg m 8 4 true = Ok (NoException, 8, m') /\ ref_bits m' = ref_bits m.
Proof.
  intros m m'. assert (E : Translate demo_cfg m 8 4 true = Ok (NoException, 8, m'))
    by (vm_compute; reflexivity).
  split; [exact E|]. exact (translate_never_marks_pages demo_cfg m m' 8 4 8 true NoException E).
Defined.

(** C36: the replacement policies are exact.  After any sequence of references
    to the slots of a table that starts reset (loads under FIFO, translations
    under LRU; at most [INT_MAX] of them), [findOneToReplace] picks a slot whose
    last reference is the oldest of all, for the TLB and for the inverted page
    table. *)
Theorem replacement_exact (cfg : Config) (m : Machine) (type : Z) (ps : list Z) :
  one_policy cfg -> 0 < replace_len cfg m type ->
  Forall (fun p => 0 <= p < replace_len cfg m type) ps -> Z.of_nat (length ps) <= int_max ->
  exists t' i,
    foldM (refer cfg) (replicate (Z.to_nat (replace_len cfg m type)) reset_entry) ps = Ok t' /\
    findOneToReplace cfg m t' type = Ok i /\ 0 <= i < replace_len cfg m type /\
    (forall k, 0 <= k < replace_len cfg m type -> (age (rev ps) k <= age (rev ps) i)%nat) /\
    (forall k, 0 <= k < i -> (age (rev ps) k < age (rev ps) i)%nat).
Proof.
  intros Hc Hl HF HL. set (len := replace_len cfg m type) in *.
  set (t := replicate (Z.to_nat len) reset_entry).
  assert (Lt : Z.of_nat (length t) = len) by (unfold t; rewrite length_replicate; lia).
  assert (HO : ordered cfg t []).
  { assert (R : forall k e, aget t k = Ok e -> policy_flag cfg e = -1).
    { intros k e [_ [-> _]%lookup_replicate]%aget_Ok. unfold policy_flag. by case_match. }
    split.
    - intros k e E%R Hne. contradiction.
    - intros k e ->%R. done.
    - intros k e k' e' ->%R ->%R. cbn. lia. }
  destruct (refer_all_ordered cfg ps t [] HO) as (t' & E & [O1 O2 O3] & L);
    [by rewrite Lt|cbn [length]; lia|]. rewrite app_nil_r in *.
  destruct (findOneToReplace_spec cfg m t' type Hc) as (i & Ei & Hi & e & Ee & Hle & Hlt);
    [fold len; lia| |].
  - intros k e [_ H]%O2. rewrite length_rev in H. lia.
  - fold len in Hi, Hle, Hlt. exists t', i. split_and!; try done; try lia.
    + intros k Hk. destruct (aget_in_range t' k) as [e' E']; [lia|].
      pose proof (Hle k e' Hk E'). pose proof (O3 _ _ _ _ E' Ee). lia.
    + intros k Hk. destruct (aget_in_range t' k) as [e' E']; [lia|].
      pose proof (Hlt k e' Hk E'). pose proof (O3 _ _ _ _ Ee E'). lia.
Qed.

Lemma replacement_exact_witness :
  exists t' i,
    foldM (refer demo_cfg) (replicate 3 reset_entry) [0; 1; 2; 0] = Ok t' /\
    findOneToReplace demo_cfg (demo_machine 1 []) t' 1 = Ok i /\
    forall k, 0 <= k < 3 -> le (age [0; 2; 1; 0] k) (age [0; 2; 1; 0] i).
Proof.
  destruct (replacement_exact demo_cfg (demo_machine 1 []) 1 [0; 1; 2; 0])
    as (t' & i & E & Ei & _ & H & _); [done|reflexivity|by repeat constructor|done|].
  exists t', i. split_and!; [exact E|exact Ei|exact H].
Defined.

(** A thread that exits gives back exactly its frames.  After [SC_Exit] in
    the build with the inverted page table, the table holds no entry of the
    thread, the entries of other threads are untouched, and a frame is free in
    the bitmap exactly when it was free before or belonged to the thread. *)
Theorem exit_frees_exactly (cfg : Config) (m : Machine) (t : list TranslationEntry)
    (bs : list bool) :
  rpt_ok cfg m t -> brel (mmBitmap m) bs -> length bs = Z.to_nat NumPhysPages ->
  exists m' t' bs', exit_rpt m = Ok m' /\ pt m' = Some t' /\ brel (mmBitmap m') bs' /\
    length t' = length t /\ length bs' = length bs /\
    forall (k : nat) e b, t !! k = Some e -> bs !! k = Some b ->
      t' !! k = Some (if decide (tID e = currentTID m) then reset_entry else e) /\
      bs' !! k = Some (if decide (tID e = currentTID m) then false else b).
Proof.
  intros [Hc Ht Hp Hl HE] HB HL. unfold exit_rpt. rewrite Hp, Ht. cbn [arr mbind res_bind].
  match goal with |- context [for_loop ?n ?lo ?body ?s] =>
    destruct (for_loop_ind (fun i '(bm, t') => exists bs', brel bm bs' /\ length t' = length t /\
      length bs' = length bs /\
      forall (k : nat) e b, t !! k = Some e -> bs !! k = Some b ->
      t' !! k = Some (if decide (tID e = currentTID m /\ Z.of_nat k < i) then reset_entry else e) /\
      bs' !! k = Some (if decide (tID e = currentTID m /\ Z.of_nat k < i) then false else b))
      n lo body s) as ([bm t'] & E & bs' & HB' & L1 & L2 & H) end.
  - exists bs. split_and!; try done. intros k e b Ek Eb. rewrite !decide_False by lia. done.
  - intros i [bm t'] Hi (bs' & HB' & L1 & L2 & H).
    destruct (lookup_lt_is_Some_2 t (Z.to_nat i)) as [e Ee]; [lia|].
    destruct (lookup_lt_is_Some_2 bs (Z.to_nat i)) as [b Eb]; [lia|].
    destruct (H _ _ _ Ee Eb) as [E1 E2]. rewrite decide_False in E1 by lia. rewrite decide_False in E2 by lia.
    rewrite (proj2 (aget_Ok t' i e)) by (split; [lia|done]). cbn [mbind res_bind].
    assert (Hstep : forall (k : nat), Z.of_nat k < i + 1 <-> Z.of_nat k < i \/ k = Z.to_nat i) by lia.
    case_bool_decide as Ht'.
    + destruct (Clear_in bm bs' i HB' ltac:(lia)) as (bm' & -> & HB2). cbn [mbind res_bind].
      rewrite aset_in_range by lia. cbn [mbind res_bind]. eexists. split; [reflexivity|].
      eexists. split; [exact HB2|]. rewrite !length_insert. split_and!; try done.
      intros k e' b' Ek' Eb'. destruct (decide (k = Z.to_nat i)) as [->|Hne].
      * rewrite !list_lookup_insert_eq by lia. rewrite Ee in Ek'. injection Ek' as <-.
        rewrite !decide_True by (split; [done|lia]). done.
      * rewrite !list_lookup_insert_ne by done. destruct (H _ _ _ Ek' Eb') as [-> ->].
        split; f_equal; apply decide_ext; rewrite Hstep; tauto.
    + eexists. split; [reflexivity|]. exists bs'. split_and!; try done.
      intros k e' b' Ek' Eb'. destruct (H _ _ _ Ek' Eb') as [-> ->].
      destruct (decide (k = Z.to_nat i)) as [->|Hne].
      * rewrite Ee in Ek'. injection Ek' as <-. rewrite !decide_False by tauto. done.
      * split; f_equal; apply decide_ext; rewrite Hstep; tauto.
  - rewrite E. cbn [mbind res_bind]. eexists _, t', bs'. split; [reflexivity|]. split_and!; try done.
    intros k e b Ek Eb. destruct (H _ _ _ Ek Eb) as [-> ->]. pose proof (lookup_lt_Some _ _ _ Ek).
    split; f_equal; apply decide_ext; lia.
Qed.

Lemma exit_frees_exactly_witness :
  let m := demo_machine 2 [] in
  exists m' bs', exit_rpt m = Ok m' /\ brel (mmBitmap m') bs' /\ bs' !! 1%nat = Some false.
Proof.
  intros m.
  destruct (exit_frees_exactly demo_cfg m (demo_entry 2 <$> seq 0 128) (bits (mmBitmap m)))
    as (m' & t' & bs' & E & _ & HB & _ & _ & H);
    [apply demo_rpt; [constructor|apply Nat.le_0_l]|apply demo_brel; lia|reflexivity|].
  exists m', bs'. split_and!; [exact E|exact HB|].
  destruct (H 1%nat (demo_entry 2 1) true eq_refl ltac:(vm_compute; reflexivity)) as [_ ->].
  reflexivity.
Defined.
