(* ===== verification/Sched.v ===== *)
(** * threads/thread.cc, threads/scheduler.cc: threads and the scheduler

    The kernel state these routines share: the thread objects (by address), the
    array of thread slots, the queues of the scheduler under its four policies
    ([typeno]: 0 FIFO, 1 preemptive priorities, 2 round robin, 3 multi-level
    feedback queues), the interrupt level and the running thread.

    [SWITCH] transfers control to the next thread, which first runs
    [CheckToBeDestroyed], on the return path of its own [Run] or in [Begin];
    [Run] below ends after that.  The user registers, the address space and the
    stack fence post of a thread are not part of this state. *)

From S2P Require Import Prelude Lists.

Inductive ThreadStatus : Type := JUST_CREATED | RUNNING | READY | BLOCKED | SUSPENDED.
Inductive IntStatus : Type := IntOff | IntOn.

#[global] Instance ThreadStatus_eq_dec : EqDecision ThreadStatus.
Proof. solve_decision. Defined.
#[global] Instance IntStatus_eq_dec : EqDecision IntStatus.
Proof. solve_decision. Defined.

Definition MaxThreadNum : Z := 128.
Definition timeSlice : Z := 3.
Definition QueueNum : Z := 5.
Definition threadArrTimeSlice : list Z := [3; 4; 5; 6; 7].

(** A [Thread *]. *)
Definition tptr : Type := positive.

Record Thread : Type := mkThread {
  status : ThreadStatus; priority : Z; timeSliceRemain : Z; threadID : Z }.

Definition setStatus (th : Thread) (s : ThreadStatus) : Thread :=
  mkThread s (priority th) (timeSliceRemain th) (threadID th).
Definition setPriority (th : Thread) (p : Z) : Thread :=
  mkThread (status th) p (timeSliceRemain th) (threadID th).
Definition setRemainTime (th : Thread) (r : Z) : Thread :=
  mkThread (status th) (priority th) r (threadID th).

(** The queues of class [Scheduler]. *)
Record Queues : Type := mkQueues {
  readyList : list tptr; sortedReadyList : list tptr; threadArrQueue : list (list tptr) }.

Record Kernel : Type := mkKernel {
  threads : gmap tptr Thread;
  threadArray : list (option tptr);
  level : IntStatus;
  currentThread : tptr;
  queues : Queues;
  suspendList : list tptr;
  blockList : list tptr;
  toBeDestroyed : option tptr }.

Definition with_threads (k : Kernel) (x : gmap tptr Thread) : Kernel :=
  mkKernel x (threadArray k) (level k) (currentThread k) (queues k) (suspendList k)
    (blockList k) (toBeDestroyed k).
Definition with_threadArray (k : Kernel) (x : list (option tptr)) : Kernel :=
  mkKernel (threads k) x (level k) (currentThread k) (queues k) (suspendList k)
    (blockList k) (toBeDestroyed k).
Definition with_level (k : Kernel) (x : IntStatus) : Kernel :=
  mkKernel (threads k) (threadArray k) x (currentThread k) (queues k) (suspendList k)
    (blockList k) (toBeDestroyed k).
Definition with_current (k : Kernel) (x : tptr) : Kernel :=
  mkKernel (threads k) (threadArray k) (level k) x (queues k) (suspendList k)
    (blockList k) (toBeDestroyed k).
Definition with_queues (k : Kernel) (x : Queues) : Kernel :=
  mkKernel (threads k) (threadArray k) (level k) (currentThread k) x (suspendList k)
    (blockList k) (toBeDestroyed k).
Definition with_suspendList (k : Kernel) (x : list tptr) : Kernel :=
  mkKernel (threads k) (threadArray k) (level k) (currentThread k) (queues k) x
    (blockList k) (toBeDestroyed k).
Definition with_blockList (k : Kernel) (x : list tptr) : Kernel :=
  mkKernel (threads k) (threadArray k) (level k) (currentThread k) (queues k) (suspendList k)
    x (toBeDestroyed k).
Definition with_toBeDestroyed (k : Kernel) (x : option tptr) : Kernel :=
  mkKernel (threads k) (threadArray k) (level k) (currentThread k) (queues k) (suspendList k)
    (blockList k) x.

(** [t->field]: a deleted thread must not be used. *)
Definition get_thread (ths : gmap tptr Thread) (t : tptr) : res Thread :=
  match ths !! t with Some th => Ok th | None => Undef end.

Definition upd_thread (ths : gmap tptr Thread) (t : tptr) (f : Thread -> Thread)
    : res (gmap tptr Thread) :=
  th ← get_thread ths t; Ok (<[t := f th]> ths).

(** ** The ready queues *)

(** The constructor's queues. *)
Definition newQueues : Queues := mkQueues [] [] (replicate (Z.to_nat QueueNum) []).

(** [cmp] of scheduler.cc, on threads that exist. *)
Definition cmp (ths : gmap tptr Thread) (t1 t2 : tptr) : Z :=
  let p t := match ths !! t with Some th => priority th | None => 0 end in
  if bool_decide (p t1 < p t2) then -1 else if bool_decide (p t1 > p t2) then 1 else 0.

(** Comparing dereferences every thread of the list. *)
Definition check_alive (ths : gmap tptr Thread) (ts : list tptr) : res () :=
  foldM (fun _ t => _ ← get_thread ths t; Ok ()) () ts.

(** The part of [ReadyToRun] that depends on the policy. *)
Definition enqueue (typeno : Z) (ths : gmap tptr Thread) (q : Queues) (t : tptr)
    : res (gmap tptr Thread * Queues) :=
  if bool_decide (typeno = 1) then
    _ ← check_alive ths (sortedReadyList q);
    l ← Seq.Insert (cmp ths) t (sortedReadyList q);
    Ok (ths, mkQueues (readyList q) l (threadArrQueue q))
  else if bool_decide (typeno = 0) || bool_decide (typeno = 2) then
    ths ← (if bool_decide (typeno = 2) then upd_thread ths t (fun th => setRemainTime th timeSlice)
           else Ok ths);
    l ← Seq.Append t (readyList q);
    Ok (ths, mkQueues l (sortedReadyList q) (threadArrQueue q))
  else if bool_decide (typeno = 3) then
    th ← get_thread ths t;
    let th := if bool_decide (priority th <> QueueNum - 1)
              then setPriority th (i32 (priority th + 1)) else th in
    slice ← aget threadArrTimeSlice (priority th);
    let th := setRemainTime th slice in
    l ← aget (threadArrQueue q) (priority th);
    l' ← Seq.Append t l;
    a ← aset (threadArrQueue q) (priority th) l';
    Ok (<[t := th]> ths, mkQueues (readyList q) (sortedReadyList q) a)
  else Ok (ths, q).

(** The loop over the feedback queues in [FindNextToRun]. *)
Fixpoint first_queue (n : nat) (i : Z) (a : list (list tptr)) : res (option (tptr * list (list tptr))) :=
  match n with
  | O => Ok None
  | S n' =>
      l ← aget a i;
      if bool_decide (l = []) then first_queue n' (i + 1) a
      else '(t, l') ← Seq.RemoveFront l; a' ← aset a i l'; Ok (Some (t, a'))
  end.

(** The queue part of [FindNextToRun]. *)
Definition dequeue (typeno : Z) (q : Queues) : res (option tptr * Queues) :=
  if bool_decide (typeno = 0) || bool_decide (typeno = 2) then
    if bool_decide (readyList q = []) then Ok (None, q)
    else '(t, l) ← Seq.RemoveFront (readyList q);
         Ok (Some t, mkQueues l (sortedReadyList q) (threadArrQueue q))
  else if bool_decide (typeno = 1) then
    if bool_decide (sortedReadyList q = []) then Ok (None, q)
    else '(t, l) ← Seq.RemoveFront (sortedReadyList q);
         Ok (Some t, mkQueues (readyList q) l (threadArrQueue q))
  else if bool_decide (typeno = 3) then
    r ← first_queue (Z.to_nat QueueNum) 0 (threadArrQueue q);
    Ok (match r with
        | Some (t, a) => (Some t, mkQueues (readyList q) (sortedReadyList q) a)
        | None => (None, q)
        end)
  else Ok (None, q).

Section scheduler.
Context (typeno : Z).

(** ** Scheduler *)

Definition ReadyToRun (k : Kernel) (t : tptr) : res Kernel :=
  _ ← ASSERT (bool_decide (level k = IntOff));
  k ← (if Seq.IsInList t (blockList k)
       then l ← Seq.Remove t (blockList k); Ok (with_blockList k l) else Ok k);
  ths ← upd_thread (threads k) t (fun th => setStatus th READY);
  '(ths, q) ← enqueue typeno ths (queues k) t;
  Ok (with_queues (with_threads k ths) q).

Definition FindNextToRun (k : Kernel) : res (option tptr * Kernel) :=
  _ ← ASSERT (bool_decide (level k = IntOff));
  '(t, q) ← dequeue typeno (queues k); Ok (t, with_queues k q).

(** [Thread::removeAThread] *)
Definition removeAThread (k : Kernel) (tid : Z) : res Kernel :=
  a ← aset (threadArray k) tid None; Ok (with_threadArray k a).

(** [Thread::~Thread]; the address space and the stack are in [UserProg] and [Switch]. *)
Definition delete_thread (k : Kernel) (t : tptr) : res Kernel :=
  th ← get_thread (threads k) t;
  _ ← ASSERT (negb (bool_decide (t = currentThread k)));
  k ← removeAThread k (threadID th);
  Ok (with_threads k (delete t (threads k))).

Definition CheckToBeDestroyed (k : Kernel) : res Kernel :=
  match toBeDestroyed k with
  | None => Ok k
  | Some t => k ← delete_thread k t; Ok (with_toBeDestroyed k None)
  end.

Definition Run (k : Kernel) (nextThread : tptr) (finishing : bool) : res Kernel :=
  let oldThread := currentThread k in
  _ ← ASSERT (bool_decide (level k = IntOff));
  k ← (if finishing then
         _ ← ASSERT (bool_decide (toBeDestroyed k = None));
         Ok (with_toBeDestroyed k (Some oldThread))
       else Ok k);
  _ ← get_thread (threads k) oldThread;
  ths ← upd_thread (threads k) nextThread (fun th => setStatus th RUNNING);
  CheckToBeDestroyed (with_current (with_threads k ths) nextThread).

Definition blockAThread (k : Kernel) (t : tptr) : res Kernel :=
  ths ← upd_thread (threads k) t (fun th => setStatus th BLOCKED);
  l ← Seq.Append t (blockList k);
  Ok (with_blockList (with_threads k ths) l).

Definition awakeAThead (k : Kernel) : res Kernel :=
  '(t, l) ← Seq.RemoveFront (blockList k);
  ths ← upd_thread (threads k) t (fun th => setStatus th READY);
  r ← Seq.Append t (readyList (queues k));
  Ok (with_queues (with_blockList (with_threads k ths) l)
        (mkQueues r (sortedReadyList (queues k)) (threadArrQueue (queues k)))).

(** The loop over the feedback queues in [getReadyListFront] and
    [isReadyListEmpty]: the front of the first queue that has one. *)
Fixpoint front_queue (n : nat) (i : Z) (a : list (list tptr)) : res (option tptr) :=
  match n with
  | O => Ok None
  | S n' =>
      l ← aget a i;
      match l with t :: _ => Ok (Some t) | [] => front_queue n' (i + 1) a end
  end.

Definition isReadyListEmpty (k : Kernel) : res bool :=
  let q := queues k in
  if bool_decide (typeno = 0) || bool_decide (typeno = 2) then Ok (bool_decide (readyList q = []))
  else if bool_decide (typeno = 1) then Ok (bool_decide (sortedReadyList q = []))
  else if bool_decide (typeno = 3) then
    f ← front_queue (Z.to_nat QueueNum) 0 (threadArrQueue q); Ok (bool_decide (f = None))
  else Ok true.

Definition getReadyListFront (k : Kernel) : res (option tptr) :=
  let q := queues k in
  if bool_decide (typeno = 0) || bool_decide (typeno = 2) then Ok (head (readyList q))
  else if bool_decide (typeno = 1) then Ok (head (sortedReadyList q))
  else if bool_decide (typeno = 3) then front_queue (Z.to_nat QueueNum) 0 (threadArrQueue q)
  else Ok None.

(** ** Threads *)

(** [addAThread]: the first free slot. *)
Fixpoint free_slot (i : Z) (a : list (option tptr)) : option Z :=
  match a with
  | [] => None
  | None :: _ => Some i
  | Some _ :: a' => free_slot (i + 1) a'
  end.

(** [new Thread(...)] at address [t]; [p0] and [r0] are what the constructor
    leaves in the fields it does not set. *)
Definition newThread (k : Kernel) (t : tptr) (p0 r0 : Z) : res Kernel :=
  match free_slot 0 (threadArray k) with
  | None => AssertFail
  | Some i =>
      a ← aset (threadArray k) i (Some t);
      let p := if bool_decide (typeno = 1) then 8 else if bool_decide (typeno = 3) then -1 else p0 in
      let r := if bool_decide (typeno = 1) then timeSlice else r0 in
      Ok (with_threadArray (with_threads k (<[t := mkThread JUST_CREATED p r i]> (threads k))) a)
  end.

(** [Yield], called with interrupts off; the caller's level is restored when it
    runs again. *)
Definition Yield (k : Kernel) : res Kernel :=
  '(next, k) ← FindNextToRun k;
  match next with
  | None => Ok k
  | Some n => k ← ReadyToRun k (currentThread k); Run k n false
  end.

(** [Fork] up to [SetLevel(oldLevel)]: with interrupts off the thread is made ready.
    Restoring the level lets time pass, and the timer may preempt the caller there. *)
Definition Fork_ready (k : Kernel) (t : tptr) : res Kernel := ReadyToRun k t.

(** The last line of [Fork], when the caller runs on: under the priority policy it
    looks at the front of the ready list, which is dereferenced without a test for
    NULL, and yields to a more urgent thread. *)
Definition Fork_check (k : Kernel) : res Kernel :=
  if bool_decide (typeno = 1) then
    front ← getReadyListFront k;
    match front with
    | None => Undef
    | Some f =>
        tf ← get_thread (threads k) f; tc ← get_thread (threads k) (currentThread k);
        if bool_decide (priority tf < priority tc) then Yield k else Ok k
    end
  else Ok k.

(** The result of putting the running thread to sleep: another thread runs, or
    none is ready and the machine idles until an interrupt. *)
Inductive slept : Type := Switched (k : Kernel) | Idling (k : Kernel).

Definition Sleep (k : Kernel) (finishing : bool) : res slept :=
  _ ← ASSERT (bool_decide (level k = IntOff));
  k ← blockAThread k (currentThread k);
  '(next, k) ← FindNextToRun k;
  match next with
  | None => Ok (Idling k)
  | Some n => k ← Run k n finishing; Ok (Switched k)
  end.

Definition Finish (k : Kernel) : res slept := Sleep (with_level k IntOff) true.

(** The rest of [Sleep] after [Idle]: an interrupt may have readied a thread. *)
Definition wake (k : Kernel) (finishing : bool) : res slept :=
  '(next, k) ← FindNextToRun k;
  match next with
  | None => Ok (Idling k)
  | Some n => k ← Run k n finishing; Ok (Switched k)
  end.

End scheduler.
