(* ===== verification/SchedProofs.v ===== *)
(** * The scheduler keeps every thread in exactly one place

    [Policy] is what the scheduler and the thread operations ask of a
    scheduling policy; the four policies are its instances, and the theorems
    about [ReadyToRun], [Run], [Yield], [Sleep] and the two parts of [Fork] are proved against
    the class. *)

From S2P Require Import Prelude Lists ListProofs Sched.

(** ** The policies *)

Class Policy (typeno : Z) := {
  (** the threads that are ready, next one first *)
  ready : Queues -> list tptr;
  (** what the policy keeps true of threads and of queues *)
  tok : Thread -> Prop;
  qok : gmap tptr Thread -> Queues -> Prop;
  tok_status : forall th s, tok th -> tok (setStatus th s);
  tok_remain : forall th r, tok th -> tok (setRemainTime th r);
  tok_new : forall p0 r0 i,
    let p := if bool_decide (typeno = 1) then 8 else if bool_decide (typeno = 3) then -1 else p0 in
    tok (mkThread JUST_CREATED p r0 i);
  qok_new : forall ths, qok ths newQueues /\ ready newQueues = [];
  qok_ext : forall ths ths' q,
    (forall t, t ∈ ready q -> priority <$> ths' !! t = priority <$> ths !! t) ->
    qok ths q -> qok ths' q;
  enqueue_ok : forall ths q t th,
    qok ths q -> tok th -> ths !! t = Some th -> t ∉ ready q ->
    (forall x, x ∈ ready q -> is_Some (ths !! x)) ->
    exists th' q', enqueue typeno ths q t = Ok (<[t := th']> ths, q') /\
      status th' = status th /\ threadID th' = threadID th /\ tok th' /\
      qok (<[t := th']> ths) q' /\ ready q' ≡ₚ t :: ready q;
  dequeue_ok : forall ths q, qok ths q ->
    (ready q = [] /\ dequeue typeno q = Ok (None, q)) \/
    (exists t q', dequeue typeno q = Ok (Some t, q') /\ ready q = t :: ready q' /\ qok ths q') }.

Lemma Append_ok {T} `{EqDecision T} (x : T) xs : x ∉ xs -> Seq.Append x xs = Ok (xs ++ [x]).
Proof. intros H. unfold Seq.Append. rewrite seq_in_false by done. done. Qed.

Lemma Remove_ok {T} `{EqDecision T} (x : T) xs :
  x ∈ xs -> NoDup xs -> exists ys, Seq.Remove x xs = Ok ys /\ xs ≡ₚ x :: ys.
Proof.
  intros Hx HN. exists (Seq.remove1 x xs). pose proof (remove1_perm x xs Hx) as HP. split; [|done].
  unfold Seq.Remove. rewrite (seq_in_true x xs Hx). cbn [ASSERT mbind res_bind].
  rewrite seq_in_false; [done|]. rewrite <- HP in HN. by inversion HN.
Qed.

#[export] Instance fifo_policy : Policy 0.
Proof.
  refine {| ready := readyList; tok := fun _ => True; qok := fun _ _ => True |}; try done.
  - intros ths q t th _ _ Et Ht _. exists th, (mkQueues (readyList q ++ [t]) (sortedReadyList q) (threadArrQueue q)).
    unfold enqueue. cbn [bool_decide orb]. rewrite !bool_decide_false, !bool_decide_true by done.
    cbn [orb mbind res_bind]. rewrite Append_ok by done. cbn [mbind res_bind readyList].
    rewrite insert_id by done. split_and!; try done. by rewrite Permutation_app_comm.
  - intros ths q _. unfold dequeue. rewrite bool_decide_true by done. cbn [orb].
    destruct (readyList q) as [|t l] eqn:E; [by left|]. right.
    rewrite bool_decide_false by done. cbn. by eexists _, _.
Defined.

#[export] Instance rr_policy : Policy 2.
Proof.
  refine {| ready := readyList; tok := fun _ => True; qok := fun _ _ => True |}; try done.
  - intros ths q t th _ _ Et Ht _.
    exists (setRemainTime th timeSlice), (mkQueues (readyList q ++ [t]) (sortedReadyList q) (threadArrQueue q)).
    unfold enqueue, upd_thread, get_thread. rewrite (bool_decide_false (2 = 1)), (bool_decide_true (2 = 2)), orb_true_r by done.
    rewrite Et. cbn [mbind res_bind]. rewrite Append_ok by done. cbn [mbind res_bind readyList].
    split_and!; try done. by rewrite Permutation_app_comm.
  - intros ths q _. unfold dequeue. rewrite (bool_decide_true (2 = 2)), orb_true_r by done.
    destruct (readyList q) as [|t l] eqn:E; [by left|]. right.
    rewrite bool_decide_false by done. cbn. by eexists _, _.
Defined.

(** Comparing priorities is a total preorder. *)
#[export] Instance cmp_comparison ths : Comparison (cmp ths).
Proof.
  split; unfold cmp; intros; repeat case_bool_decide; lia.
Qed.

Lemma check_alive_ok ths ts :
  (forall x, x ∈ ts -> is_Some (ths !! x)) -> check_alive ths ts = Ok ().
Proof.
  induction ts as [|t ts IH]; intros H; [done|]. unfold check_alive in *. cbn [foldM].
  unfold get_thread. destruct (H t) as [th ->]; [left|]. cbn [mbind res_bind]. apply IH.
  intros x Hx. apply H. by right.
Qed.

#[export] Instance priority_policy : Policy 1.
Proof.
  refine {| ready := sortedReadyList; tok := fun _ => True;
            qok := fun ths q => Sorted (cmp_le (cmp ths)) (sortedReadyList q) |}; try done.
  - intros ths ths' q HE HS.
    assert (HC : forall x y, x ∈ sortedReadyList q -> y ∈ sortedReadyList q -> cmp ths' x y = cmp ths x y).
    { intros x y Hx Hy. pose proof (HE x Hx) as Ex. pose proof (HE y Hy) as Ey. unfold cmp.
      destruct (ths' !! x), (ths !! x); inversion Ex; destruct (ths' !! y), (ths !! y); inversion Ey;
        congruence. }
    clear HE. induction (sortedReadyList q) as [|x l IH]; [constructor|]. inversion HS as [|? ? HS' HH]; subst.
    constructor; [apply IH; [done|]; intros; apply HC; by right|].
    destruct l as [|y l']; constructor. inversion HH; subst. unfold cmp_le in *. rewrite HC; [done|left|right; left].
  - intros ths q t th HS _ Et Ht HA.
    exists th, (mkQueues (readyList q) (Seq.insert_before (cmp ths) t (sortedReadyList q)) (threadArrQueue q)).
    unfold enqueue. rewrite bool_decide_true by done. rewrite check_alive_ok by done.
    cbn [mbind res_bind]. unfold Seq.Insert. rewrite seq_in_false by done. cbn [negb ASSERT mbind res_bind].
    rewrite insert_id by done. split_and!; try done; cbn [sortedReadyList].
    + apply insert_before_sorted; [apply _|done].
    + apply insert_before_perm.
  - intros ths q HS. unfold dequeue. rewrite (bool_decide_false (1 = 0)), (bool_decide_false (1 = 2)), (bool_decide_true (1 = 1)) by done.
    cbn [orb]. destruct (sortedReadyList q) as [|t l] eqn:E; [by left|]. right.
    rewrite bool_decide_false by done. cbn. eexists _, _. split_and!; try done. cbn. by inversion HS.
Defined.

(** ** Multi-level feedback queues *)

Lemma concat_insert_perm {A} (a : list (list A)) (i : nat) l x :
  a !! i = Some l -> concat (<[i := l ++ [x]]> a) ≡ₚ x :: concat a.
Proof.
  revert i. induction a as [|l0 a IH]; intros i E; [done|]. destruct i as [|i]; cbn in *.
  - injection E as ->. rewrite <- app_assoc. cbn. by rewrite <- Permutation_middle.
  - rewrite (IH i E). by rewrite Permutation_middle.
Qed.

(** [first_queue] takes the head of the concatenated queues. *)
Lemma first_queue_spec n i a :
  0 <= i -> i + Z.of_nat n = Z.of_nat (length a) -> concat (take (Z.to_nat i) a) = [] ->
  (first_queue n i a = Ok None /\ concat a = []) \/
  (exists t j l, first_queue n i a = Ok (Some (t, <[j := l]> a)) /\ a !! j = Some (t :: l) /\
     (forall k l', (k < j)%nat -> a !! k = Some l' -> l' = []) /\
     concat a = t :: concat (<[j := l]> a)).
Proof.
  revert i. induction n as [|n IH]; intros i Hi Hn HE; cbn [first_queue].
  { left. split; [done|]. rewrite <- HE. f_equal. symmetry. apply take_ge. lia. }
  destruct (aget_in_range a i) as [l El]; [lia|]. rewrite El. cbn [mbind res_bind].
  apply aget_Ok in El as [_ El].
  case_bool_decide as Hl.
  - subst. destruct (IH (i + 1)) as [H|H]; [lia|lia| |by left|by right].
    replace (Z.to_nat (i + 1)) with (S (Z.to_nat i)) by lia.
    rewrite (take_S_r _ _ [] El), concat_app, HE. done.
  - destruct l as [|t l]; [done|]. right. exists t, (Z.to_nat i), l.
    cbn [Seq.RemoveFront mbind res_bind]. rewrite aset_in_range by lia. cbn [mbind res_bind].
    assert (HB : forall k l', (k < Z.to_nat i)%nat -> a !! k = Some l' -> l' = []).
    { intros k l' Hk Ek. assert (l' ∈ take (Z.to_nat i) a) as Hin.
      { apply list_elem_of_lookup. exists k. by rewrite lookup_take_lt. }
      apply list_elem_of_In, in_split in Hin as (a1 & a2 & E). rewrite E, concat_app in HE. cbn in HE.
      by destruct l', (concat a1). }
    split_and!; [done|done|done|].
    assert (concat a = concat (take (Z.to_nat i) a ++ (t :: l) :: drop (S (Z.to_nat i)) a)) as ->
      by (f_equal; symmetry; by apply take_drop_middle).
    rewrite insert_take_drop by lia. rewrite !concat_app, HE. done.
Qed.

Definition mlfq_ok (ths : gmap tptr Thread) (q : Queues) : Prop :=
  length (threadArrQueue q) = 5%nat /\
  forall i l t, threadArrQueue q !! i = Some l -> t ∈ l -> priority <$> ths !! t = Some (Z.of_nat i).

Lemma mlfq_ready q i l t : threadArrQueue q !! i = Some l -> t ∈ l -> t ∈ concat (threadArrQueue q).
Proof.
  intros E Ht. apply list_elem_of_In, in_concat. exists l.
  split; apply list_elem_of_In; [by eapply list_elem_of_lookup_2|done].
Qed.

Lemma slice_level p : 0 <= p < 5 -> aget threadArrTimeSlice p = Ok (p + 3).
Proof.
  intros H. assert (p = 0 \/ p = 1 \/ p = 2 \/ p = 3 \/ p = 4) as Hp by lia.
  destruct Hp as [-> | [-> | [-> | [-> | ->]]]]; done.
Qed.

Lemma mlfq_enqueue ths q t th :
  mlfq_ok ths q -> -1 <= priority th <= 4 -> ths !! t = Some th -> t ∉ concat (threadArrQueue q) ->
  let p := if bool_decide (priority th <> 4) then priority th + 1 else priority th in
  let th' := mkThread (status th) p (p + 3) (threadID th) in
  exists l, threadArrQueue q !! Z.to_nat p = Some l /\
  let q' := mkQueues (readyList q) (sortedReadyList q) (<[Z.to_nat p := l ++ [t]]> (threadArrQueue q)) in
  enqueue 3 ths q t = Ok (<[t := th']> ths, q') /\ 0 <= p <= 4 /\ mlfq_ok (<[t := th']> ths) q'.
Proof.
  intros [HL HQ] Hp Et Ht p th'. 
  assert (Hpr : 0 <= p <= 4) by (unfold p; case_bool_decide; lia).
  destruct (lookup_lt_is_Some_2 (threadArrQueue q) (Z.to_nat p)) as [l El]; [lia|].
  exists l. split; [done|]. intros q'. split_and!; try lia.
  - unfold enqueue. rewrite !bool_decide_false by done. cbn [orb]. rewrite bool_decide_true by done.
    unfold get_thread. rewrite Et. cbn [mbind res_bind]. change (QueueNum - 1) with 4.
    set (th1 := if bool_decide (priority th <> 4) then setPriority th (i32 (priority th + 1)) else th).
    assert (E1 : priority th1 = p /\ status th1 = status th /\ threadID th1 = threadID th).
    { unfold th1, p. case_bool_decide; [|done]. cbn.
      rewrite i32_id by (unfold is_i32, int_min, int_max; lia). done. }
    destruct E1 as (-> & E2 & E3). rewrite slice_level by lia. cbn [mbind res_bind].
    assert (Ep : priority (setRemainTime th1 (p + 3)) = p).
    { unfold th1, p. case_bool_decide; [|done]. cbn.
      rewrite i32_id by (unfold is_i32, int_min, int_max; lia). done. }
    rewrite Ep. rewrite (proj2 (aget_Ok (threadArrQueue q) p l)) by (split; [lia|done]).
    cbn [mbind res_bind]. rewrite Append_ok by (intros Hin; apply Ht; by eapply mlfq_ready).
    cbn [mbind res_bind]. rewrite aset_in_range by lia. cbn [mbind res_bind].
    assert (setRemainTime th1 (p + 3) = th') as ->; [|done].
    unfold setRemainTime in *. cbn in Ep. unfold th'. by rewrite Ep, E2, E3.
  - split; [by cbn; rewrite length_insert|]. cbn. intros i l' x Ei Hx.
    destruct (decide (i = Z.to_nat p)) as [->|Hne].
    + rewrite list_lookup_insert_eq in Ei by lia. injection Ei as <-.
      apply elem_of_app in Hx as [Hx|Hx%list_elem_of_singleton].
      * rewrite lookup_insert_ne by (intros ->; apply Ht; by eapply mlfq_ready). by eapply HQ.
      * subst. rewrite lookup_insert_eq. cbn. f_equal. lia.
    + rewrite list_lookup_insert_ne in Ei by done.
      rewrite lookup_insert_ne by (intros ->; apply Ht; by eapply mlfq_ready). by eapply HQ.
Qed.

#[export] Instance mlfq_policy : Policy 3.
Proof.
  refine {| ready := fun q => concat (threadArrQueue q);
            tok := fun th => -1 <= priority th <= 4; qok := mlfq_ok |}; try done.
  - intros ths. split; [|done]. split; [done|]. intros i l t [-> _]%lookup_replicate H.
    by apply not_elem_of_nil in H.
  - intros ths ths' q HE [HL HQ]. split; [done|]. intros i l t Ei Ht.
    rewrite HE by (by eapply mlfq_ready). by eapply HQ.
  - intros ths q t th HQ HT Et Ht _.
    destruct (mlfq_enqueue ths q t th HQ HT Et Ht) as (l & El & EQ & Hp & HQ').
    eexists _, _. split; [exact EQ|]. split_and!; try done; try (cbn; lia).
    by apply concat_insert_perm.
  - intros ths q [HL HQ]. unfold dequeue. rewrite (bool_decide_false (3 = 0)), (bool_decide_false (3 = 2)),
      (bool_decide_false (3 = 1)), (bool_decide_true (3 = 3)) by done. cbn [orb].
    destruct (first_queue_spec (Z.to_nat QueueNum) 0 (threadArrQueue q)) as [[E EC]|(t & j & l & E & Ej & _ & EC)];
      [done|by rewrite HL|done|left|right].
    + rewrite E. done.
    + rewrite E. cbn [mbind res_bind]. eexists _, _. split; [reflexivity|]. split; [exact EC|].
      split; [by cbn; rewrite length_insert|]. cbn. intros i l' x Ei Hx.
      pose proof (lookup_lt_Some _ _ _ Ej).
      destruct (decide (i = j)) as [->|Hne].
      * rewrite list_lookup_insert_eq in Ei by done. injection Ei as <-. eapply HQ; [exact Ej|by right].
      * rewrite list_lookup_insert_ne in Ei by done. by eapply HQ.
Defined.

(** ** The invariant *)

Section scheduler.
Context (typeno : Z) `{!Policy typeno}.

(** [cur] is the running thread, if one runs; [lim] a thread that was taken off
    its queue to run next. *)
Record inv (k : Kernel) (cur lim : option tptr) : Prop := mkInv {
  inv_level : level k = IntOff;
  inv_cur : forall t, cur = Some t -> currentThread k = t;
  inv_old : is_Some (threads k !! currentThread k);
  inv_ready : NoDup (ready (queues k));
  inv_block : NoDup (blockList k);
  inv_alive : forall t, t ∈ ready (queues k) -> is_Some (threads k !! t);
  inv_tok : forall t th, threads k !! t = Some th -> tok th;
  inv_qok : qok (threads k) (queues k);
  inv_READY : forall t th, threads k !! t = Some th ->
    (status th = READY <-> (t ∈ ready (queues k) \/ lim = Some t));
  inv_BLOCKED : forall t th, threads k !! t = Some th -> status th <> JUST_CREATED ->
    (status th = BLOCKED <-> t ∈ blockList k);
  inv_RUNNING : forall t th, threads k !! t = Some th -> (status th = RUNNING <-> cur = Some t);
  inv_lim : forall t, lim = Some t -> (t ∉ ready (queues k)) /\ is_Some (threads k !! t);
  inv_slot : forall t th, threads k !! t = Some th ->
    0 <= threadID th /\ threadArray k !! Z.to_nat (threadID th) = Some (Some t);
  inv_destroy : toBeDestroyed k = None }.

Lemma get_thread_Ok ths t th : ths !! t = Some th -> get_thread ths t = Ok th.
Proof. unfold get_thread. by intros ->. Qed.

Lemma upd_thread_Ok ths t th f : ths !! t = Some th -> upd_thread ths t f = Ok (<[t := f th]> ths).
Proof. intros E. unfold upd_thread. by rewrite (get_thread_Ok _ _ _ E). Qed.

(** Changing the status of a thread does not disturb the queues. *)
Lemma qok_status ths q t th s :
  ths !! t = Some th -> qok ths q -> qok (<[t := setStatus th s]> ths) q.
Proof.
  intros E. apply qok_ext. intros x _. destruct (decide (x = t)) as [->|].
  - by rewrite lookup_insert_eq, E.
  - by rewrite lookup_insert_ne.
Qed.

(** Making a thread ready that is running, blocked or new. *)
Lemma ReadyToRun_inv k cur lim t th :
  inv k cur lim -> threads k !! t = Some th -> status th <> READY ->
  exists k', ReadyToRun typeno k t = Ok k' /\
    inv k' (if decide (cur = Some t) then None else cur) lim /\
    ready (queues k') ≡ₚ t :: ready (queues k) /\ currentThread k' = currentThread k /\
    (forall x, x <> t -> threads k' !! x = threads k !! x) /\
    (exists th', threads k' !! t = Some th' /\ threadID th' = threadID th).
Proof.
  intros I Et Hs. pose proof I as [IL IC IO IR IB IA IT IQ IRE IBL IRU ILI ISL ID].
  unfold ReadyToRun. rewrite IL. cbn [ASSERT mbind res_bind].
  rewrite bool_decide_true by done. cbn [ASSERT mbind res_bind].
  assert (exists bl, (if Seq.IsInList t (blockList k)
       then l ← Seq.Remove t (blockList k); Ok (with_blockList k l) else Ok k) = Ok (with_blockList k bl) /\
    NoDup bl /\ (t ∉ bl) /\ forall x, x <> t -> (x ∈ bl <-> x ∈ blockList k)) as (bl & -> & HB1 & HB2 & HB3).
  { destruct (Seq.IsInList t (blockList k)) eqn:Ei.
    - apply bool_decide_eq_true in Ei. destruct (Remove_ok t (blockList k) Ei IB) as (ys & -> & HP).
      exists ys. pose proof IB as IB'. rewrite HP in IB'. inversion IB'; subst.
      split_and!; try done. intros x Hx. rewrite HP, elem_of_cons. naive_solver.
    - apply bool_decide_eq_false in Ei. exists (blockList k). by destruct k. }
  cbn [mbind res_bind]. cbn [threads queues with_blockList].
  rewrite (upd_thread_Ok _ _ _ _ Et). cbn [mbind res_bind].
  assert (Hnr : t ∉ ready (queues k)).
  { intros Hin. apply Hs. apply (IRE t th Et). by left. }
  destruct (enqueue_ok (<[t := setStatus th READY]> (threads k)) (queues k) t (setStatus th READY))
    as (th' & q' & EQ & S1 & S2 & S3 & S4 & S5).
  { by apply qok_status. } { by apply tok_status, (IT t). } { apply lookup_insert_eq. } { done. }
  { intros x Hx. destruct (decide (x = t)) as [->|]; [rewrite lookup_insert_eq; by eexists|].
    rewrite lookup_insert_ne by done. by apply IA. }
  rewrite EQ. cbn [mbind res_bind]. eexists. split; [reflexivity|]. rewrite insert_insert_eq in *.
  assert (HX : forall x, x <> t -> <[t := th']> (threads k) !! x = threads k !! x)
    by (intros; by apply lookup_insert_ne).
  assert (HT : <[t := th']> (threads k) !! t = Some th') by apply lookup_insert_eq.
  split_and!; cbn [queues with_queues currentThread threads with_threads with_blockList]; try done;
    [|by exists th'].
  assert (HC : forall x xh, <[t := th']> (threads k) !! x = Some xh ->
    (x = t /\ xh = th') \/ (x <> t /\ threads k !! x = Some xh)).
  { intros x xh Ex. destruct (decide (x = t)) as [->|]; [left; by simplify_map_eq|].
    right. by rewrite HX in Ex. }
  assert (Hcond : (if decide (cur = Some t) then None else cur) <> Some t /\
    forall x, x <> t -> ((if decide (cur = Some t) then None else cur) = Some x <-> cur = Some x)).
  { case_decide as D; [|done]. split; [done|]. intros x Hx. split; [done|]. intros D'. congruence. }
  destruct Hcond as [Hc1 Hc2].
  split; cbn [queues with_queues currentThread threads with_threads with_blockList level blockList
              threadArray toBeDestroyed]; try done.
  - intros x Hx. apply IC. destruct (decide (x = t)) as [->|]; [done|by apply Hc2].
  - destruct (decide (currentThread k = t)) as [->|]; [by rewrite HT|by rewrite HX].
  - rewrite S5. by apply NoDup_cons.
  - intros x. rewrite S5, elem_of_cons. destruct (decide (x = t)) as [->|]; [by rewrite HT|].
    rewrite HX by done. intros [?|Hx]; [done|by apply IA].
  - intros x xh [[-> ->]|[_ Ex]]%HC; [done|by eapply IT].
  - intros x xh [[-> ->]|[Hne Ex]]%HC; rewrite S5, elem_of_cons.
    + rewrite S1. cbn. tauto.
    + rewrite (IRE x xh Ex). naive_solver.
  - intros x xh [[-> ->]|[Hne Ex]]%HC Hj; [rewrite S1; cbn; naive_solver|].
    rewrite HB3 by done. by apply IBL.
  - intros x xh [[-> ->]|[Hne Ex]]%HC; [rewrite S1; split; [done|intros E; by destruct Hc1]|].
    rewrite Hc2 by done. by apply IRU.
  - intros x Hx. destruct (ILI x Hx) as [L1 L2]. assert (x <> t).
    { intros ->. apply Hs. apply (IRE t th Et). by right. }
    rewrite S5, not_elem_of_cons, HX by done. done.
  - intros x xh [[-> ->]|[Hne Ex]]%HC; [rewrite S2; exact (ISL t th Et)|by apply ISL].
Qed.

Lemma FindNext_inv k cur :
  inv k cur None ->
  (ready (queues k) = [] /\ FindNextToRun typeno k = Ok (None, k)) \/
  (exists n k', FindNextToRun typeno k = Ok (Some n, k') /\ inv k' cur (Some n) /\
     ready (queues k) = n :: ready (queues k') /\ currentThread k' = currentThread k /\
     threads k' = threads k /\ blockList k' = blockList k).
Proof.
  intros I. pose proof I as [IL IC IO IR IB IA IT IQ IRE IBL IRU ILI ISL ID].
  unfold FindNextToRun. rewrite IL, bool_decide_true by done. cbn [ASSERT mbind res_bind].
  destruct (dequeue_ok (threads k) (queues k) IQ) as [[E ->]|(n & q' & -> & E & Q)];
    cbn [mbind res_bind]; [left; split; [done|by destruct k]|right].
  exists n, (with_queues k q'). split; [done|]. rewrite E in *.
  apply NoDup_cons in IR as [Hn HN].
  split; [|done]. split; cbn [queues with_queues threads level currentThread blockList threadArray toBeDestroyed]; try done.
  - intros t Ht. apply IA. by right.
  - intros t th Et. rewrite (IRE t th Et), elem_of_cons. naive_solver.
  - intros t Ht. injection Ht as <-. split; [done|]. apply IA. left.
Qed.

(** Dispatching a thread; a finishing thread is destroyed and its slot freed. *)
(** [CheckToBeDestroyed] in one piece. *)
Lemma CheckToBeDestroyed_eq k : CheckToBeDestroyed k =
  match toBeDestroyed k with
  | None => Ok k
  | Some t =>
      th ← get_thread (threads k) t;
      _ ← ASSERT (negb (bool_decide (t = currentThread k)));
      a ← aset (threadArray k) (threadID th) None;
      Ok (with_toBeDestroyed (with_threadArray (with_threads k (delete t (threads k))) a) None)
  end.
Proof.
  unfold CheckToBeDestroyed. destruct (toBeDestroyed k) as [t|]; [|done]. unfold delete_thread, removeAThread.
  rewrite !bind_assoc. destruct (get_thread (threads k) t); cbn [mbind res_bind]; [|done..].
  rewrite !bind_assoc. destruct (ASSERT _); cbn [mbind res_bind]; [|done..]. by destruct (aset (threadArray k) _ None).
Qed.

Lemma Run_inv k n finishing old :
  inv k None (Some n) -> currentThread k = old ->
  (finishing = true -> status <$> threads k !! old = Some BLOCKED) ->
  exists k', Run k n finishing = Ok k' /\ inv k' (Some n) None /\
    (forall x, x <> n -> threads k' !! x = if decide (finishing = true /\ x = old) then None else threads k !! x) /\
    ready (queues k') = ready (queues k).
Proof.
  intros I Eo Hf. pose proof I as [IL IC IO IR IB IA IT IQ IRE IBL IRU ILI ISL ID].
  destruct (ILI n eq_refl) as [Hn [nh En]]. rewrite Eo in IO. destruct IO as [oh Eoh].
  assert (Snh : status nh = READY) by (apply (IRE n nh En); by right).
  unfold Run. rewrite IL, Eo, (bool_decide_true (IntOff = IntOff)), ID, (bool_decide_true (None = None)) by done.
  cbn [ASSERT mbind res_bind].
  set (k1 := if finishing then with_toBeDestroyed k (Some old) else k).
  assert ((if finishing then Ok (with_toBeDestroyed k (Some old)) else Ok k) = Ok k1) as -> by (by destruct finishing).
  assert (T1 : threads k1 = threads k) by (by destruct finishing).
  cbn [mbind res_bind]. rewrite T1, (get_thread_Ok _ _ _ Eoh). cbn [mbind res_bind].
  rewrite (upd_thread_Ok _ _ _ _ En). cbn [mbind res_bind].
  set (ths := <[n := setStatus nh RUNNING]> (threads k)).
  assert (HX : forall x, x <> n -> ths !! x = threads k !! x) by (intros; by apply lookup_insert_ne).
  assert (HN : ths !! n = Some (setStatus nh RUNNING)) by apply lookup_insert_eq.
  assert (HC : forall x xh, ths !! x = Some xh ->
    (x = n /\ xh = setStatus nh RUNNING) \/ (x <> n /\ threads k !! x = Some xh)).
  { intros x xh Ex. destruct (decide (x = n)) as [->|]; [left; split; congruence|right].
    by rewrite HX in Ex. }
  destruct finishing; unfold k1; rewrite CheckToBeDestroyed_eq; cbn [toBeDestroyed with_current with_threads with_toBeDestroyed
    threads currentThread threadArray].
  - (* the old thread is destroyed *)
    assert (Hob : status oh = BLOCKED) by (specialize (Hf eq_refl); rewrite Eoh in Hf; by injection Hf).
    assert (Hon : old <> n) by (intros ->; congruence).
    rewrite (get_thread_Ok ths old oh) by (by rewrite HX). cbn [mbind res_bind].
    rewrite bool_decide_false by done. cbn [negb ASSERT mbind res_bind].
    destruct (ISL old oh Eoh) as [Hid0 Hslot].
    rewrite aset_in_range by (pose proof (lookup_lt_Some _ _ _ Hslot); lia). cbn [mbind res_bind].
    eexists. split; [reflexivity|].
    cbn [threads queues with_toBeDestroyed with_threadArray with_threads with_current].
    assert (HD : forall x xh, delete old ths !! x = Some xh -> x <> old /\ ths !! x = Some xh)
      by (intros x xh; rewrite lookup_delete_Some; naive_solver).
    assert (Hor : old ∉ ready (queues k)).
    { intros Hin. assert (status oh = READY) by (apply (IRE old oh Eoh); by left). congruence. }
    split_and!; [|intros x Hx; case_decide as D; [destruct D as [_ ->]; by rewrite lookup_delete_eq|
      rewrite lookup_delete_ne by naive_solver; by apply HX]|done].
    split; cbn [threads queues with_toBeDestroyed with_threadArray with_threads with_current level currentThread
      blockList threadArray toBeDestroyed]; try done.
    + intros t Ht. by injection Ht.
    + rewrite lookup_delete_ne, HN by done. by eexists.
    + intros t Ht. assert (t <> old) by (intros ->; contradiction). assert (t <> n) by (intros ->; contradiction).
      rewrite lookup_delete_ne, HX by done. by apply IA.
    + intros t th [_ [[-> ->]|[_ Et]]%HC]%HD; [apply tok_status|]; by eapply IT.
    + eapply qok_ext; [|exact IQ]. intros t Ht. assert (t <> old) by (intros ->; contradiction).
      assert (t <> n) by (intros ->; contradiction). by rewrite lookup_delete_ne, HX.
    + intros t th [_ [[-> ->]|[Hne Et]]%HC]%HD; [cbn; naive_solver|]. rewrite (IRE t th Et). naive_solver.
    + intros t th [_ [[-> ->]|[Hne Et]]%HC]%HD Hj; [|by apply IBL].
      rewrite <- (IBL n nh En) by congruence. rewrite Snh. cbn. naive_solver.
    + intros t th [_ [[-> ->]|[Hne Et]]%HC]%HD; [cbn; naive_solver|]. rewrite (IRU t th Et). naive_solver.
    + intros t th [Hto [[-> ->]|[Hne Et]]%HC]%HD; cbn.
      * destruct (ISL n nh En) as [? E]. split; [done|]. rewrite list_lookup_insert_ne; [done|]. intros E'.
        rewrite <- E', Hslot in E. naive_solver.
      * destruct (ISL t th Et) as [? E]. split; [done|]. rewrite list_lookup_insert_ne; [done|]. intros E'.
        rewrite <- E', Hslot in E. naive_solver.
  - rewrite ID. eexists. split; [reflexivity|].
    cbn [threads queues with_toBeDestroyed with_threadArray with_threads with_current].
    split_and!; [|intros x Hx; rewrite decide_False by naive_solver; by apply HX|done].
    split; cbn [threads queues with_toBeDestroyed with_threadArray with_threads with_current level currentThread
      blockList threadArray toBeDestroyed]; try done.
    + intros t Ht. by injection Ht.
    + intros t Ht. assert (t <> n) by (intros ->; contradiction). rewrite HX by done. by apply IA.
    + intros t th [[-> ->]|[_ Et]]%HC; [apply tok_status|]; by eapply IT.
    + by apply qok_status.
    + intros t th [[-> ->]|[Hne Et]]%HC; [cbn; naive_solver|]. rewrite (IRE t th Et). naive_solver.
    + intros t th [[-> ->]|[Hne Et]]%HC Hj; [|by apply IBL].
      rewrite <- (IBL n nh En) by congruence. rewrite Snh. cbn. naive_solver.
    + intros t th [[-> ->]|[Hne Et]]%HC; [cbn; naive_solver|]. rewrite (IRU t th Et). naive_solver.
    + intros t th [[-> ->]|[Hne Et]]%HC; [exact (ISL n nh En)|by apply ISL].
Qed.


(** ** The operations of threads *)

Lemma Yield_inv k c :
  inv k (Some c) None ->
  exists k', Yield typeno k = Ok k' /\ inv k' (Some (currentThread k')) None /\
    (ready (queues k) = [] -> k' = k) /\
    (forall n l, ready (queues k) = n :: l -> currentThread k' = n).
Proof.
  intros I. unfold Yield. pose proof (inv_cur _ _ _ I c eq_refl) as Ec.
  destruct (FindNext_inv k (Some c) I) as [[E ->]|(n & k1 & -> & I1 & E & C1 & T1 & _)];
    cbn [mbind res_bind].
  { exists k. split_and!; try done; [by rewrite Ec|]. intros n l. by rewrite E. }
  destruct (inv_old _ _ _ I1) as [ch Ech]. rewrite C1, Ec in *.
  assert (Hc : status ch <> READY).
  { assert (status ch = RUNNING) as -> by (by apply (inv_RUNNING _ _ _ I1 c)). done. }
  destruct (ReadyToRun_inv k1 (Some c) (Some n) c ch I1 Ech Hc) as (k2 & -> & I2 & _ & C2 & _).
  rewrite decide_True in I2 by done. cbn [mbind res_bind].
  destruct (Run_inv k2 n false _ I2 eq_refl) as (k3 & -> & I3 & _); [done|].
  exists k3. pose proof (inv_cur _ _ _ I3 n eq_refl) as E3. rewrite E3.
  split_and!; try done; rewrite E; [done|]. intros n' l [=]. done.
Qed.

Definition slept_ok (r : slept) : Prop :=
  match r with
  | Switched k => inv k (Some (currentThread k)) None
  | Idling k => inv k None None /\ ready (queues k) = []
  end.

Definition slept_kernel (r : slept) : Kernel := match r with Switched k => k | Idling k => k end.

(** Blocking the running thread. *)
Lemma block_inv k c :
  inv k (Some c) None ->
  exists k', blockAThread k c = Ok k' /\ inv k' None None /\ currentThread k' = c /\
    status <$> threads k' !! c = Some BLOCKED /\ ready (queues k') = ready (queues k) /\
    (forall x, x <> c -> threads k' !! x = threads k !! x).
Proof.
  intros I. pose proof (inv_cur _ _ _ I c eq_refl) as Ec.
  pose proof I as [IL IC IO IR IB IA IT IQ IRE IBL IRU ILI ISL ID].
  rewrite Ec in IO. destruct IO as [ch Ech].
  assert (Hs : status ch = RUNNING) by (by apply (IRU c)).
  assert (Hnb : c ∉ blockList k).
  { intros Hin. assert (status ch = BLOCKED) by (apply (IBL c ch Ech); [congruence|done]). congruence. }
  assert (Hnr : c ∉ ready (queues k)).
  { intros Hin. assert (status ch = READY) by (apply (IRE c ch Ech); by left). congruence. }
  unfold blockAThread. rewrite (upd_thread_Ok _ _ _ _ Ech). cbn [mbind res_bind].
  rewrite Append_ok by done. cbn [mbind res_bind]. eexists. split; [reflexivity|].
  cbn [threads with_threads with_blockList currentThread queues]. rewrite lookup_insert_eq.
  split_and!; try done; [|intros; by rewrite lookup_insert_ne].
  assert (HC : forall x xh, <[c := setStatus ch BLOCKED]> (threads k) !! x = Some xh ->
    (x = c /\ xh = setStatus ch BLOCKED) \/ (x <> c /\ threads k !! x = Some xh)).
  { intros x xh Ex. destruct (decide (x = c)) as [->|]; [left; by simplify_map_eq|right].
    by rewrite lookup_insert_ne in Ex. }
  split; cbn [threads with_threads with_blockList currentThread queues level blockList threadArray toBeDestroyed];
    try done.
  - rewrite Ec, lookup_insert_eq. by eexists.
  - apply NoDup_app. split_and!; [done| |by apply NoDup_singleton]. intros x Hx ->%list_elem_of_singleton. done.
  - intros t Ht. assert (t <> c) by (intros ->; done). rewrite lookup_insert_ne by done. by apply IA.
  - intros t th [[-> ->]|[_ Et]]%HC; [apply tok_status|]; by eapply IT.
  - by apply qok_status.
  - intros t th [[-> ->]|[Hne Et]]%HC; [cbn; naive_solver|]. by apply IRE.
  - intros t th [[-> ->]|[Hne Et]]%HC Hj; rewrite elem_of_app, list_elem_of_singleton.
    + cbn. naive_solver.
    + rewrite (IBL t th Et Hj). naive_solver.
  - intros t th [[-> ->]|[Hne Et]]%HC; [cbn; naive_solver|]. rewrite (IRU t th Et). naive_solver.
  - intros t th [[-> ->]|[Hne Et]]%HC; [exact (ISL c ch Ech)|by apply ISL].
Qed.

(** The end of [Sleep], with or without an idle period before it. *)
Lemma wake_inv k finishing c :
  inv k None None -> currentThread k = c -> status <$> threads k !! c = Some BLOCKED ->
  exists r, wake typeno k finishing = Ok r /\ slept_ok r /\
    match r with
    | Switched k' => c <> currentThread k' /\ forall x, x <> currentThread k' ->
        threads k' !! x = if decide (finishing = true /\ x = c) then None else threads k !! x
    | Idling k' => k' = k
    end.
Proof.
  intros I Ec Hc. unfold wake.
  destruct (FindNext_inv k None I) as [[E ->]|(n & k1 & -> & I1 & E & C1 & T1 & _)]; cbn [mbind res_bind].
  { exists (Idling k). done. }
  destruct (Run_inv k1 n finishing c I1) as (k2 & -> & I2 & H2 & _); [congruence|by rewrite T1|].
  cbn [mbind res_bind]. exists (Switched k2). pose proof (inv_cur _ _ _ I2 n eq_refl) as En.
  cbn [slept_ok]. rewrite En. split_and!; [done..| |].
  - intros ->. destruct (inv_lim _ _ _ I1 n eq_refl) as [_ [nh Hnh]].
    assert (status nh = READY) by (apply (inv_READY _ _ _ I1 n nh Hnh); by right).
    rewrite <- T1, Hnh in Hc. cbn in Hc. congruence.
  - intros x Hx. rewrite H2 by done. by rewrite T1.
Qed.

Lemma Sleep_wake k finishing :
  level k = IntOff ->
  Sleep typeno k finishing = (k' ← blockAThread k (currentThread k); wake typeno k' finishing).
Proof. intros E. unfold Sleep, wake. rewrite E. by rewrite bool_decide_true. Qed.

Lemma Sleep_inv k c finishing :
  inv k (Some c) None ->
  exists r, Sleep typeno k finishing = Ok r /\ slept_ok r /\
    match r with
    | Switched k' => threads k' !! c = None <-> finishing = true
    | Idling k' => status <$> threads k' !! c = Some BLOCKED /\ currentThread k' = c
    end.
Proof.
  intros I. pose proof (inv_cur _ _ _ I c eq_refl) as Ec.
  rewrite Sleep_wake by apply I. rewrite Ec.
  destruct (block_inv k c I) as (k1 & -> & I1 & C1 & S1 & R1 & _). cbn [mbind res_bind].
  destruct (wake_inv k1 finishing c I1 C1 S1) as (r & -> & Hr & Hx). exists r. split_and!; [done..|].
  destruct r as [k'|k']; [|by subst k']. destruct Hx as [Hne Hx].
  rewrite Hx by done. destruct (threads k1 !! c) eqn:E1; [|done].
  destruct finishing; [by rewrite decide_True|by rewrite decide_False by naive_solver].
Qed.



Lemma free_slot_spec a i :
  match free_slot i a with
  | Some j => i <= j /\ a !! Z.to_nat (j - i) = Some None
  | None => Forall is_Some a
  end.
Proof.
  revert i. induction a as [|[t|] a IH]; intros i; cbn [free_slot].
  - constructor.
  - specialize (IH (i + 1)). destruct (free_slot (i + 1) a) as [j|].
    + destruct IH as [H1 H2]. split; [lia|]. by replace (Z.to_nat (j - i)) with (S (Z.to_nat (j - (i + 1)))) by lia.
    + constructor; [by eexists|done].
  - split; [lia|]. by replace (Z.to_nat (i - i)) with 0%nat by lia.
Qed.

(** A new thread takes a free slot and is in no queue. *)
Lemma newThread_inv k c t p0 r0 :
  inv k (Some c) None -> threads k !! t = None ->
  (Forall is_Some (threadArray k) /\ newThread typeno k t p0 r0 = AssertFail) \/
  (exists k', newThread typeno k t p0 r0 = Ok k' /\ inv k' (Some c) None /\
     status <$> threads k' !! t = Some JUST_CREATED /\
     (forall x, x <> t -> threads k' !! x = threads k !! x)).
Proof.
  intros I Et. pose proof I as [IL IC IO IR IB IA IT IQ IRE IBL IRU ILI ISL ID].
  unfold newThread. pose proof (free_slot_spec (threadArray k) 0) as FS.
  destruct (free_slot 0 (threadArray k)) as [i|]; [right|by left].
  destruct FS as [Hi Fi]. rewrite Z.sub_0_r in Fi. pose proof (lookup_lt_Some _ _ _ Fi).
  rewrite aset_in_range by lia. cbn [mbind res_bind]. eexists. split; [reflexivity|].
  set (th := mkThread JUST_CREATED _ _ i). cbn [threads with_threads with_threadArray].
  assert (Htr : t ∉ ready (queues k)) by (intros Hin; destruct (IA t Hin); congruence).
  assert (Htc : t <> c) by (intros ->; rewrite (IC c eq_refl) in IO; destruct IO; congruence).
  assert (HC : forall x xh, <[t := th]> (threads k) !! x = Some xh ->
    (x = t /\ xh = th) \/ (x <> t /\ threads k !! x = Some xh)).
  { intros x xh Ex. destruct (decide (x = t)) as [->|]; [left; by simplify_map_eq|right].
    by rewrite lookup_insert_ne in Ex. }
  rewrite lookup_insert_eq. split_and!; [|done|intros; by rewrite lookup_insert_ne].
  split; cbn [threads with_threads with_threadArray level currentThread queues blockList threadArray toBeDestroyed];
    try done.
  - rewrite (IC c eq_refl) in *. by rewrite lookup_insert_ne.
  - intros x Hx. assert (x <> t) by (intros ->; done). rewrite lookup_insert_ne by done. by apply IA.
  - intros x xh [[-> ->]|[_ Ex]]%HC; [|by eapply IT].
    apply (tok_remain (mkThread JUST_CREATED _ r0 i)), tok_new.
  - eapply qok_ext; [|exact IQ]. intros x Hx. assert (x <> t) by (intros ->; done). by rewrite lookup_insert_ne.
  - intros x xh [[-> ->]|[Hne Ex]]%HC; [cbn; naive_solver|by apply IRE].
  - intros x xh [[-> ->]|[Hne Ex]]%HC Hj; [done|by apply IBL].
  - intros x xh [[-> ->]|[Hne Ex]]%HC; [cbn; naive_solver|by apply IRU].
  - intros x xh [[-> ->]|[Hne Ex]]%HC; cbn.
    + split; [lia|]. by apply list_lookup_insert_eq.
    + destruct (ISL x xh Ex) as [? E]. split; [done|]. rewrite list_lookup_insert_ne; [done|].
      intros E'. rewrite <- E', Fi in E. done.
Qed.

(** Looking at the front is a dequeue that changes nothing. *)
Lemma front_queue_first n i a :
  front_queue n i a = (r ← first_queue n i a; Ok (option_map fst r)).
Proof.
  revert i. induction n as [|n IH]; intros i; cbn [front_queue first_queue]; [done|].
  destruct (aget a i) as [l| | | ] eqn:El; cbn [mbind res_bind]; try done.
  destruct l as [|t l]; [by rewrite bool_decide_true|]. rewrite bool_decide_false by done.
  cbn [Seq.RemoveFront mbind res_bind]. apply aget_Ok in El as [Hi El].
  rewrite aset_in_range by (pose proof (lookup_lt_Some _ _ _ El); lia). done.
Qed.

Lemma front_dequeue k :
  getReadyListFront typeno k = ('(t, _) ← dequeue typeno (queues k); Ok t).
Proof.
  unfold getReadyListFront, dequeue.
  destruct (bool_decide (typeno = 0) || bool_decide (typeno = 2)).
  { destruct (readyList (queues k)); [by rewrite bool_decide_true|by rewrite bool_decide_false]. }
  destruct (bool_decide (typeno = 1)).
  { destruct (sortedReadyList (queues k)); [by rewrite bool_decide_true|by rewrite bool_decide_false]. }
  destruct (bool_decide (typeno = 3)); [|done]. rewrite front_queue_first.
  by destruct (first_queue _ _ _) as [[[t a]|]| | | ].
Qed.

Lemma Fork_ready_inv k c t :
  inv k (Some c) None -> status <$> threads k !! t = Some JUST_CREATED ->
  exists k', Fork_ready typeno k t = Ok k' /\ inv k' (Some c) None /\ t ∈ ready (queues k').
Proof.
  intros I Ht. destruct (threads k !! t) as [th|] eqn:Et; [|done]. cbn in Ht. injection Ht as Ht.
  destruct (ReadyToRun_inv k (Some c) None t th I Et) as (k1 & E1 & I1 & R1 & _); [congruence|].
  assert (Hne : Some c <> Some t).
  { intros [=->]. assert (status th = RUNNING) by (by apply (inv_RUNNING _ _ _ I t th Et)). congruence. }
  rewrite decide_False in I1 by done. exists k1. split_and!; [done..|]. rewrite R1. left.
Qed.

(** The end of [Fork] fails exactly when, under the priority policy, nobody is ready. *)
Lemma Fork_check_inv k c :
  inv k (Some c) None ->
  (typeno = 1 /\ ready (queues k) = [] /\ Fork_check typeno k = Undef) \/
  ((typeno <> 1 \/ ready (queues k) <> []) /\
   exists k', Fork_check typeno k = Ok k' /\ inv k' (Some (currentThread k')) None).
Proof.
  intros I. unfold Fork_check. pose proof (inv_cur _ _ _ I c eq_refl) as Ec.
  case_bool_decide as Ht; [|right; split; [by left|exists k; by rewrite Ec]].
  rewrite front_dequeue.
  destruct (dequeue_ok (threads k) (queues k) (inv_qok _ _ _ I)) as [[E ->]|(f & q' & -> & E & _)]; [by left|].
  right. split; [right; by rewrite E|]. cbn [mbind res_bind].
  destruct (inv_alive _ _ _ I f) as [fh Ef]; [rewrite E; left|]. destruct (inv_old _ _ _ I) as [ch Ech].
  rewrite (get_thread_Ok _ _ _ Ef). cbn [mbind res_bind]. rewrite (get_thread_Ok _ _ _ Ech). cbn [mbind res_bind].
  case_bool_decide; [|exists k; by rewrite Ec].
  destruct (Yield_inv k c I) as (k2 & E2 & I2 & _). by exists k2.
Qed.

Lemma wake_ok k finishing :
  inv k None None -> (finishing = true -> status <$> threads k !! currentThread k = Some BLOCKED) ->
  exists r, wake typeno k finishing = Ok r /\ slept_ok r /\ (forall k', r = Idling k' -> k' = k).
Proof.
  intros I Hc. unfold wake.
  destruct (FindNext_inv k None I) as [[E ->]|(n & k1 & -> & I1 & E & C1 & T1 & _)]; cbn [mbind res_bind].
  { exists (Idling k). split_and!; try done. intros k' [=]. done. }
  destruct (Run_inv k1 n finishing (currentThread k) I1) as (k2 & -> & I2 & _); [done|by rewrite T1|].
  cbn [mbind res_bind]. exists (Switched k2). pose proof (inv_cur _ _ _ I2 n eq_refl) as En.
  cbn [slept_ok]. rewrite En. done.
Qed.

(** ** The transition system *)

(** Some thread runs, or the one that slept last waits for an interrupt. *)
Inductive kstate : Type := Runs (k : Kernel) | Idles (k : Kernel) (finishing : bool).

(** The entries into the scheduler: a thread is created or forked, the end of a
    [Fork], which a thread may reach at any time after its beginning, the running
    thread yields, sleeps or finishes, a blocked thread is made ready by the
    running thread or by an interrupt handler, the idle loop looks again. *)
Inductive kstep : kstate -> kstate -> Prop :=
| step_new k k' t p0 r0 :
    threads k !! t = None -> newThread typeno k t p0 r0 = Ok k' -> kstep (Runs k) (Runs k')
| step_fork k k' t :
    status <$> threads k !! t = Some JUST_CREATED -> Fork_ready typeno k t = Ok k' ->
    kstep (Runs k) (Runs k')
| step_fork_check k k' : Fork_check typeno k = Ok k' -> kstep (Runs k) (Runs k')
| step_yield k k' : Yield typeno k = Ok k' -> kstep (Runs k) (Runs k')
| step_sleep k k' finishing :
    Sleep typeno k finishing = Ok (Switched k') -> kstep (Runs k) (Runs k')
| step_sleep_idle k k' finishing :
    Sleep typeno k finishing = Ok (Idling k') -> kstep (Runs k) (Idles k' finishing)
| step_ready k k' t :
    status <$> threads k !! t = Some BLOCKED -> ReadyToRun typeno k t = Ok k' ->
    kstep (Runs k) (Runs k')
| step_ready_idle k k' finishing t :
    status <$> threads k !! t = Some BLOCKED -> (finishing = true -> t <> currentThread k) ->
    ReadyToRun typeno k t = Ok k' -> kstep (Idles k finishing) (Idles k' finishing)
| step_wake k k' finishing :
    wake typeno k finishing = Ok (Switched k') -> kstep (Idles k finishing) (Runs k').

Definition kstate_ok (s : kstate) : Prop :=
  match s with
  | Runs k => inv k (Some (currentThread k)) None
  | Idles k finishing =>
      inv k None None /\
      (finishing = true -> status <$> threads k !! currentThread k = Some BLOCKED)
  end.

Lemma ready_blocked k cur t :
  inv k cur None -> status <$> threads k !! t = Some BLOCKED ->
  exists k', ReadyToRun typeno k t = Ok k' /\ inv k' cur None /\ currentThread k' = currentThread k /\
    (forall x, x <> t -> threads k' !! x = threads k !! x).
Proof.
  intros I Ht. destruct (threads k !! t) as [th|] eqn:Et; [|done]. cbn in Ht. injection Ht as Ht.
  destruct (ReadyToRun_inv k cur None t th I Et) as (k1 & E1 & I1 & _ & C1 & X1 & _); [congruence|].
  rewrite decide_False in I1; [by exists k1|].
  intros ->. assert (status th = RUNNING) by (by apply (inv_RUNNING _ _ _ I t th Et)). congruence.
Qed.

Lemma kstep_ok s s' : kstate_ok s -> kstep s s' -> kstate_ok s'.
Proof.
  intros H S. destruct S as [k k' t p0 r0 Ht E|k k' t Ht E|k k' E|k k' E|k k' fin E|k k' fin E|k k' t Ht E|k k' fin t Ht Hne E|k k' fin E];
    cbn in H |- *.
  - destruct (newThread_inv k _ t p0 r0 H Ht) as [[_ E']|(k1 & E' & I1 & _)]; rewrite E in E'; [done|].
    injection E' as <-. assert (currentThread k' = currentThread k) as ->; [|done].
    by apply (inv_cur _ _ _ I1).
  - destruct (Fork_ready_inv k _ t H Ht) as (k1 & E' & I1 & _). rewrite E in E'. injection E' as <-.
    by rewrite (inv_cur _ _ _ I1 _ eq_refl).
  - destruct (Fork_check_inv k _ H) as [(_ & _ & E')|(_ & k1 & E' & I1)]; rewrite E in E'; [done|]. by injection E' as <-.
  - destruct (Yield_inv k _ H) as (k1 & E' & I1 & _). rewrite E in E'. by injection E' as <-.
  - destruct (Sleep_inv k _ fin H) as (r & E' & Hr & _). rewrite E in E'. by injection E' as <-.
  - destruct (Sleep_inv k _ fin H) as (r & E' & Hr & HI). rewrite E in E'. injection E' as <-.
    destruct Hr as [Hr _]. destruct HI as [HI ->]. done.
  - destruct (ready_blocked k _ t H Ht) as (k1 & E' & I1 & C1 & _). rewrite E in E'. injection E' as <-.
    by rewrite C1.
  - destruct H as [I HB]. destruct (ready_blocked k _ t I Ht) as (k1 & E' & I1 & C1 & X1).
    rewrite E in E'. injection E' as <-. split; [done|]. intros Hf. rewrite C1, X1; [by apply HB|].
    intros D. by apply Hne.
  - destruct H as [I HB]. destruct (wake_ok k fin I HB) as (r & E' & Hr & _). rewrite E in E'.
    by injection E' as <-.
Qed.

Lemma reachable_ok s s' : kstate_ok s -> rtc kstep s s' -> kstate_ok s'.
Proof. intros H. induction 1 as [|s1 s2 s3 S _ IH]; [done|]. apply IH. by eapply kstep_ok. Qed.

End scheduler.

(** The kernel after start-up: the main thread runs in slot 0. *)
Definition boot (p r : Z) : Kernel :=
  mkKernel {[1%positive := mkThread RUNNING p r 0]}
    (<[0%nat := Some 1%positive]> (replicate (Z.to_nat MaxThreadNum) None))
    IntOff 1%positive newQueues [] [] None.

Lemma boot_ok typeno `{!Policy typeno} p r :
  tok (mkThread RUNNING p r 0) -> kstate_ok typeno (Runs (boot p r)).
Proof.
  intros HT. destruct (qok_new (threads (boot p r))) as [HQ HR]. cbn.
  assert (HC : forall t th, threads (boot p r) !! t = Some th -> t = 1%positive /\ th = mkThread RUNNING p r 0)
    by (intros t th H; cbn [threads boot] in H; apply lookup_singleton_Some in H as [<- <-]; done).
  split; cbn [boot queues level currentThread blockList toBeDestroyed]; rewrite ?HR;
    try by (intros t H; apply not_elem_of_nil in H).
  - done.
  - intros t [=]. done.
  - by eexists.
  - constructor.
  - constructor.
  - intros t th [-> ->]%HC. done.
  - done.
  - intros t th [-> ->]%HC. cbn. split; [done|]. intros [H|H]; [by apply not_elem_of_nil in H|done].
  - intros t th [-> ->]%HC _. cbn. split; [done|]. intros H. by apply not_elem_of_nil in H.
  - intros t th [-> ->]%HC. done.
  - done.
  - intros t th [-> ->]%HC. done.
  - done.
Qed.

(** ** The running thread *)

Lemma Run_queues k n fin k' : Run k n fin = Ok k' -> queues k' = queues k /\ currentThread k' = n.
Proof.
  unfold Run. intros E. apply bind_Ok in E as (_ & _ & E).
  apply bind_Ok in E as (k1 & E1 & E).
  assert (queues k1 = queues k) as <- by (destruct fin; inv_res; done).
  apply bind_Ok in E as (_ & _ & E). apply bind_Ok in E as (ths & _ & E).
  clear E1. rewrite CheckToBeDestroyed_eq in E. destruct (toBeDestroyed _); inv_res; done.
Qed.

Lemma ReadyToRun_current typeno k t k' :
  ReadyToRun typeno k t = Ok k' -> currentThread k' = currentThread k.
Proof. unfold ReadyToRun. intros E. destruct (Seq.IsInList t (blockList k)); inv_res; by destruct a2; inv_res. Qed.

Lemma FindNextToRun_current typeno k r k' :
  FindNextToRun typeno k = Ok (r, k') -> currentThread k' = currentThread k.
Proof. unfold FindNextToRun. intros E. inv_res. by destruct a0; inv_res; simplify_eq. Qed.

Lemma blockAThread_current k t k' :
  blockAThread k t = Ok k' -> currentThread k' = currentThread k.
Proof. unfold blockAThread. intros E. by inv_res. Qed.

Lemma newThread_current typeno k t p r k' :
  newThread typeno k t p r = Ok k' -> currentThread k' = currentThread k.
Proof. unfold newThread. intros E. destruct (free_slot 0 (threadArray k)); inv_res. done. Qed.
