(* ===== verification/SchedClaims.v ===== *)
(** * The properties of threads and scheduling *)

From S2P Require Import Prelude Lists ListProofs Sched SchedProofs.

(** The queue a policy uses, in the order of dispatch. *)
Definition ready_of (typeno : Z) (q : Queues) : list tptr :=
  if bool_decide (typeno = 1) then sortedReadyList q
  else if bool_decide (typeno = 3) then concat (threadArrQueue q)
  else readyList q.

(** Every thread that exists is in exactly one place: it is the running thread,
    or it waits once in the ready queue, or it is on the block list, or it was
    never forked; and it owns its slot of [threadArray]. *)
Definition one_place (typeno : Z) (k : Kernel) (running : bool) : Prop :=
  NoDup (ready_of typeno (queues k)) /\ NoDup (blockList k) /\
  (forall t, t ∈ ready_of typeno (queues k) -> is_Some (threads k !! t)) /\
  forall t th, threads k !! t = Some th ->
    (status th = READY <-> t ∈ ready_of typeno (queues k)) /\
    (status th <> JUST_CREATED -> (status th = BLOCKED <-> t ∈ blockList k)) /\
    (status th = RUNNING <-> running = true /\ t = currentThread k) /\
    threadArray k !! Z.to_nat (threadID th) = Some (Some t).

Definition state_places (typeno : Z) (s : kstate) : Prop :=
  match s with Runs k => one_place typeno k true | Idles k _ => one_place typeno k false end.

(** All policies at once. *)
Lemma all_policies (P : Z -> Prop) typeno :
  0 <= typeno <= 3 ->
  (forall (H : Policy typeno), (forall q, @ready typeno H q = ready_of typeno q) ->
     (forall th, (typeno = 3 -> -1 <= priority th <= 4) -> @tok typeno H th) -> P typeno) -> P typeno.
Proof.
  intros Ht HP. assert (typeno = 0 \/ typeno = 1 \/ typeno = 2 \/ typeno = 3) as H by lia.
  destruct H as [-> | [-> | [-> | ->]]].
  - by apply (HP fifo_policy).
  - by apply (HP priority_policy).
  - by apply (HP rr_policy).
  - apply (HP mlfq_policy); [done|]. intros th H. by apply H.
Qed.

Lemma inv_one_place typeno `{!Policy typeno} k (cur : option tptr) :
  (forall q, ready q = ready_of typeno q) -> inv typeno k cur None ->
  (cur = None \/ cur = Some (currentThread k)) ->
  one_place typeno k (bool_decide (cur <> None)).
Proof.
  intros HR [IL IC IO IR IB IA IT IQ IRE IBL IRU ILI ISL ID] Hc.
  unfold one_place. rewrite <- HR. split_and!; [done..|]. intros t th Et. split_and!.
  - rewrite (IRE t th Et). naive_solver.
  - by apply IBL.
  - rewrite (IRU t th Et), bool_decide_eq_true. naive_solver.
  - by apply (ISL t th).
Qed.

(** The main thread, under a policy that starts it at priority [p]. *)
Definition boot_state (p r : Z) : kstate := Runs (boot p r).

(** The states that creating, forking, yielding, sleeping, finishing and readying
    threads lead to. *)
Lemma kstep_places (typeno p r : Z) (s : kstate) :
  0 <= typeno <= 3 -> (typeno = 3 -> -1 <= p <= 4) ->
  rtc (kstep typeno) (boot_state p r) s -> state_places typeno s.
Proof.
  intros Ht Hp. apply (all_policies (fun typeno => rtc (kstep typeno) (boot_state p r) s -> state_places typeno s) _ Ht).
  intros HP HR HT HS. pose proof (reachable_ok typeno _ _ (boot_ok typeno p r (HT (mkThread RUNNING p r 0) Hp)) HS) as H.
  destruct s as [k|k fin]; cbn in *.
  - apply (inv_one_place typeno k _ HR H). by right.
  - destruct H as [H _]. apply (inv_one_place typeno k _ HR H). by left.
Qed.

(** One thread created, forked and given the processor under feedback queues. *)
Definition demo_kernel : res Kernel :=
  k ← newThread 3 (boot 0 0) 2%positive 0 0; k ← Fork_ready 3 k 2%positive; k ← Fork_check 3 k; Yield 3 k.

Definition demo_after : Kernel := match demo_kernel with Ok k => k | _ => boot 0 0 end.

Lemma demo_reachable : rtc (kstep 3) (boot_state 0 0) (Runs demo_after).
Proof.
  eapply rtc_l; [eapply (step_new 3 _ _ 2%positive 0 0); vm_compute; reflexivity|].
  eapply rtc_l; [eapply (step_fork 3 _ _ 2%positive); vm_compute; reflexivity|].
  eapply rtc_l; [eapply step_fork_check; vm_compute; reflexivity|].
  eapply rtc_l; [eapply step_yield; vm_compute; reflexivity|]. apply rtc_refl.
Defined.

Lemma reachable_inv typeno p r k :
  0 <= typeno <= 3 -> (typeno = 3 -> -1 <= p <= 4) ->
  rtc (kstep typeno) (boot_state p r) (Runs k) ->
  exists HP : Policy typeno, (forall q, ready q = ready_of typeno q) /\
    inv typeno k (Some (currentThread k)) None.
Proof.
  intros Ht Hp. apply (all_policies (fun typeno => rtc (kstep typeno) (boot_state p r) (Runs k) ->
    exists HP : Policy typeno, (forall q, ready q = ready_of typeno q) /\
      inv typeno k (Some (currentThread k)) None) _ Ht).
  intros HP HR HT HS. exists HP. split; [done|].
  exact (reachable_ok typeno _ _ (boot_ok typeno p r (HT (mkThread RUNNING p r 0) Hp)) HS).
Qed.

(** C21: which operations of the scheduler can fail.  In every reachable state in
    which a thread runs, [Yield] and [Sleep] (also for a finishing thread) succeed, a
    blocked thread can be made ready, and so can a created one by [Fork]; the
    constructor fails only when all [MaxThreadNum] slots are taken.  The last line
    of [Fork] succeeds when nothing ran since the thread was made ready; in general
    it fails exactly when, under the priority policy, nobody is ready: then it
    dereferences a null pointer.  That happens: the forking thread is preempted when
    [Fork] restores the interrupt level, the new thread finishes, and the forking
    thread runs on alone. *)
Theorem scheduler_never_fails (typeno p r : Z) (k : Kernel) :
  0 <= typeno <= 3 -> (typeno = 3 -> -1 <= p <= 4) ->
  rtc (kstep typeno) (boot_state p r) (Runs k) ->
  (exists k', Yield typeno k = Ok k') /\
  (forall finishing, exists s, Sleep typeno k finishing = Ok s) /\
  (forall t, status <$> threads k !! t = Some BLOCKED -> exists k', ReadyToRun typeno k t = Ok k') /\
  (forall t, status <$> threads k !! t = Some JUST_CREATED -> exists k' k'',
     Fork_ready typeno k t = Ok k' /\ Fork_check typeno k' = Ok k'') /\
  ((typeno = 1 /\ ready_of typeno (queues k) = [] /\ Fork_check typeno k = Undef) \/
   ((typeno = 1 -> ready_of typeno (queues k) <> []) /\ exists k', Fork_check typeno k = Ok k')) /\
  (forall t p0 r0, threads k !! t = None -> ~ Forall is_Some (threadArray k) ->
     exists k', newThread typeno k t p0 r0 = Ok k') /\
  (exists k0 k1 k2 k3, newThread 1 (boot 8 3) 2%positive 0 0 = Ok k0 /\
     Fork_ready 1 k0 2%positive = Ok k1 /\ Yield 1 k1 = Ok k2 /\ currentThread k2 = 2%positive /\
     Finish 1 k2 = Ok (Switched k3) /\ currentThread k3 = 1%positive /\ Fork_check 1 k3 = Undef).
Proof.
  intros Ht Hp HS. destruct (reachable_inv typeno p r k Ht Hp HS) as (HP & HR & H).
  split_and!.
  - destruct (Yield_inv typeno k _ H) as (k' & E & _). by exists k'.
  - intros fin. destruct (Sleep_inv typeno k _ fin H) as (s & E & _). by exists s.
  - intros t Hb. destruct (ready_blocked typeno k _ t H Hb) as (k' & E & _). by exists k'.
  - intros t Hb. destruct (Fork_ready_inv typeno k _ t H Hb) as (k' & E & I & Hin). exists k'.
    destruct (Fork_check_inv typeno k' _ I) as [(_ & E0 & _)|(_ & k2 & E2 & _)]; [|by exists k2].
    rewrite E0 in Hin. by apply not_elem_of_nil in Hin.
  - rewrite <- HR. destruct (Fork_check_inv typeno k _ H) as [F|(Hr & k2 & E2 & _)]; [by left|right].
    split; [by destruct Hr|by exists k2].
  - intros t p0 r0 Hn Hs. destruct (newThread_inv typeno k _ t p0 r0 H Hn) as [[HF _]|(k' & E & _)];
      [contradiction|by exists k'].
  - do 4 eexists. repeat (split; [vm_compute; reflexivity|]). vm_compute. reflexivity.
Qed.

Lemma scheduler_never_fails_witness : exists s, Sleep 3 demo_after true = Ok s.
Proof.
  destruct (scheduler_never_fails 3 0 0 demo_after) as (_ & H & _); [lia|lia|exact demo_reachable|].
  apply H.
Defined.

(** ** The order of dispatch *)

Lemma ReadyToRun_fifo typeno k t k' :
  typeno = 0 \/ typeno = 2 -> ReadyToRun typeno k t = Ok k' ->
  readyList (queues k') = readyList (queues k) ++ [t] /\ currentThread k' = currentThread k.
Proof.
  intros Ht. unfold ReadyToRun. intros E. apply bind_Ok in E as (_ & _ & E).
  apply bind_Ok in E as (k1 & E1 & E).
  assert (queues k1 = queues k /\ currentThread k1 = currentThread k) as [<- <-]
    by (destruct (Seq.IsInList t (blockList k)); inv_res; done).
  apply bind_Ok in E as (ths & _ & E). apply bind_Ok in E as ([ths' q] & E2 & E). inv_res.
  cbn [queues with_queues currentThread with_threads]. split; [|done].
  unfold enqueue in E2. rewrite bool_decide_false in E2 by lia.
  replace (bool_decide (typeno = 0) || bool_decide (typeno = 2)) with true in E2
    by (symmetry; apply orb_true_iff; destruct Ht; [left|right]; by apply bool_decide_eq_true).
  apply bind_Ok in E2 as (ths2 & _ & E2). apply bind_Ok in E2 as (l & El & E2). inv_res.
  unfold Seq.Append in El. inv_res. done.
Qed.

(** One yield moves the running thread behind all the ready ones. *)
Lemma Yield_rotates typeno k k' :
  typeno = 0 \/ typeno = 2 -> Yield typeno k = Ok k' ->
  currentThread k' :: readyList (queues k') =
    match readyList (queues k) with
    | [] => [currentThread k]
    | n :: l => n :: l ++ [currentThread k]
    end.
Proof.
  intros Ht. unfold Yield, FindNextToRun, dequeue. intros E.
  replace (bool_decide (typeno = 0) || bool_decide (typeno = 2)) with true in E
    by (symmetry; apply orb_true_iff; destruct Ht; [left|right]; by apply bool_decide_eq_true).
  apply bind_Ok in E as ([next k1] & E1 & E). apply bind_Ok in E1 as (_ & _ & E1).
  destruct (readyList (queues k)) as [|n l] eqn:El.
  - rewrite bool_decide_true in E1 by done. cbn in E1. injection E1 as <- <-. injection E as <-. cbn.
    by rewrite El.
  - rewrite bool_decide_false in E1 by done. cbn in E1. injection E1 as <- <-.
    apply bind_Ok in E as (k2 & E2 & E3). apply ReadyToRun_fifo in E2 as [E2 C2]; [|done].
    apply Run_queues in E3 as [Q3 C3]. rewrite Q3, C3, E2. cbn. done.
Qed.

Fixpoint yields (typeno : Z) (n : nat) (k : Kernel) : res Kernel :=
  match n with O => Ok k | S n' => k' ← Yield typeno k; yields typeno n' k' end.

(** Round robin is fair.  Under the FIFO and round-robin policies, as long
    as threads only yield, [i] successive yields succeed and rotate the running
    thread and the ready queue by [i]: every ready thread runs in turn, and
    after one yield per thread the first one runs again. *)
Theorem yield_rotation (typeno p r : Z) (k : Kernel) (i : nat) :
  typeno = 0 \/ typeno = 2 -> rtc (kstep typeno) (boot_state p r) (Runs k) ->
  let w := currentThread k :: readyList (queues k) in
  (i <= length w)%nat ->
  exists k', yields typeno i k = Ok k' /\
    currentThread k' :: readyList (queues k') = drop i w ++ take i w.
Proof.
  intros Ht HS w Hi. unfold w in *. clear w. revert k HS Hi.
  induction i as [|i IH]; intros k HS Hi.
  { exists k. split; [done|]. by rewrite drop_0, take_0, app_nil_r. }
  destruct (reachable_inv typeno p r k) as (HP & _ & H); [lia|lia|done|].
  destruct (Yield_inv typeno k _ H) as (k1 & E1 & _). cbn [yields]. rewrite E1. cbn [mbind res_bind].
  pose proof (Yield_rotates typeno k k1 Ht E1) as R1.
  assert (HS1 : rtc (kstep typeno) (boot_state p r) (Runs k1))
    by (eapply rtc_r; [exact HS|by apply step_yield]).
  assert (L1 : currentThread k1 :: readyList (queues k1) = readyList (queues k) ++ [currentThread k])
    by (rewrite R1; by destruct (readyList (queues k))).
  cbn [length] in Hi. destruct (IH k1 HS1) as (k' & E' & R').
  { rewrite L1, length_app. lia. }
  exists k'. split; [done|]. rewrite R', L1. rewrite drop_app_le, take_app_le by lia. cbn [drop take].
  by rewrite <- app_assoc.
Qed.

(** Threads 2 and 3 ready behind the main thread. *)
Definition rr_kernel : res Kernel :=
  k ← newThread 2 (boot 0 0) 2%positive 0 0; k ← Fork_ready 2 k 2%positive; k ← Fork_check 2 k;
  k ← newThread 2 k 3%positive 0 0; k ← Fork_ready 2 k 3%positive; Fork_check 2 k.

Definition rr_demo : Kernel := match rr_kernel with Ok k => k | _ => boot 0 0 end.

Lemma rr_reachable : rtc (kstep 2) (boot_state 0 0) (Runs rr_demo).
Proof.
  eapply rtc_l; [eapply (step_new 2 _ _ 2%positive 0 0); vm_compute; reflexivity|].
  eapply rtc_l; [eapply (step_fork 2 _ _ 2%positive); vm_compute; reflexivity|].
  eapply rtc_l; [eapply step_fork_check; vm_compute; reflexivity|].
  eapply rtc_l; [eapply (step_new 2 _ _ 3%positive 0 0); vm_compute; reflexivity|].
  eapply rtc_l; [eapply (step_fork 2 _ _ 3%positive); vm_compute; reflexivity|].
  eapply rtc_l; [eapply step_fork_check; vm_compute; reflexivity|]. apply rtc_refl.
Defined.

Lemma yield_rotation_witness :
  exists k', yields 2 2 rr_demo = Ok k' /\
    currentThread k' :: readyList (queues k') = [3; 1; 2]%positive.
Proof.
  apply (yield_rotation 2 0 0 rr_demo 2); [by right|exact rr_reachable|vm_compute; lia].
Defined.

Definition prio (k : Kernel) (t : tptr) : Z :=
  match threads k !! t with Some th => priority th | None => 0 end.

Lemma cmp_prio k x y :
  (cmp (threads k) x y <= 0 <-> prio k x <= prio k y) /\ (cmp (threads k) x y < 0 <-> prio k x < prio k y).
Proof. unfold cmp, prio. repeat case_bool_decide; lia. Qed.

(** The parts of [ReadyToRun] before the queue operation. *)
Lemma ReadyToRun_enqueue typeno k t k' :
  ReadyToRun typeno k t = Ok k' ->
  exists th ths q, threads k !! t = Some th /\
    enqueue typeno (<[t := setStatus th READY]> (threads k)) (queues k) t = Ok (ths, q) /\
    threads k' = ths /\ queues k' = q.
Proof.
  unfold ReadyToRun. intros E. apply bind_Ok in E as (_ & _ & E).
  apply bind_Ok in E as (k1 & E1 & E).
  assert (queues k1 = queues k /\ threads k1 = threads k) as [Q1 T1]
    by (destruct (Seq.IsInList t (blockList k)); inv_res; done).
  rewrite Q1, T1 in E. apply bind_Ok in E as (ths & E2 & E). apply bind_Ok in E as ([ths' q] & E3 & E).
  inv_res. unfold upd_thread, get_thread in E2. destruct (threads k !! t) as [th|] eqn:Et; [|done].
  cbn in E2. injection E2 as <-. by exists th, ths', q.
Qed.

(** The priority policy.  In every reachable state the thread
    [FindNextToRun] dispatches has the lowest priority number of all ready
    threads, and [ReadyToRun] queues a thread behind every ready thread of a
    lower or equal number and before every one of a greater number, so equal
    priorities are served in order of arrival. *)
Theorem priority_dispatch (p r : Z) (k : Kernel) :
  rtc (kstep 1) (boot_state p r) (Runs k) ->
  (forall t k', FindNextToRun 1 k = Ok (Some t, k') ->
     forall x, x ∈ sortedReadyList (queues k) -> prio k t <= prio k x) /\
  (forall t k', ReadyToRun 1 k t = Ok k' ->
     exists lo hi, sortedReadyList (queues k) = lo ++ hi /\ sortedReadyList (queues k') = lo ++ t :: hi /\
       Forall (fun x => prio k x <= prio k t) lo /\ Forall (fun x => prio k t < prio k x) hi).
Proof.
  intros HS.
  pose proof (reachable_ok 1 _ _ (boot_ok 1 p r I) HS) as H. cbn in H.
  pose proof (inv_qok _ _ _ _ H) as HQ. cbn in HQ.
  split.
  - intros t k' E x Hx. unfold FindNextToRun in E. apply bind_Ok in E as (_ & _ & E).
    apply bind_Ok in E as ([o q] & E1 & E). injection E as -> <-. unfold dequeue in E1.
    rewrite (bool_decide_false (1 = 0)), (bool_decide_false (1 = 2)), (bool_decide_true (1 = 1)) in E1 by done.
    cbn [orb] in E1. destruct (sortedReadyList (queues k)) as [|y l]; [by apply not_elem_of_nil in Hx|].
    rewrite bool_decide_false in E1 by done. cbn in E1. injection E1 as -> _.
    apply Sorted_StronglySorted in HQ; [|intros a b c; apply cmp_trans].
    inversion HQ as [|? ? _ HF]; subst. apply elem_of_cons in Hx as [->|Hx]; [done|].
    rewrite Forall_forall in HF. by apply cmp_prio, HF.
  - intros t k' E. destruct (ReadyToRun_enqueue 1 k t k' E) as (th & ths & q & Et & E1 & _ & ->).
    set (ths1 := <[t := setStatus th READY]> (threads k)) in *.
    assert (HC : forall x y, cmp ths1 x y = cmp (threads k) x y).
    { intros x y. unfold cmp, ths1.
      destruct (decide (x = t)) as [->|], (decide (y = t)) as [->|]; simplify_map_eq; try done. }
    unfold enqueue in E1. rewrite bool_decide_true in E1 by done. apply bind_Ok in E1 as (_ & _ & E1).
    apply bind_Ok in E1 as (l & E2 & E1). injection E1 as <- <-. cbn [sortedReadyList].
    unfold Seq.Insert in E2. inv_res.
    destruct (insert_before_split (cmp ths1) t (sortedReadyList (queues k))) as (lo & hi & E3 & E4 & F1 & F2).
    { clear -HQ HC. induction HQ as [|x l HS IH HH]; constructor; [done|].
      inversion HH; constructor; unfold cmp_le in *; by rewrite HC. }
    exists lo, hi. split_and!; [done|done| |].
    + eapply Forall_impl; [exact F1|]. intros x. cbn. rewrite HC. intros Hx.
      pose proof (proj2 (cmp_prio k t x)). lia.
    + eapply Forall_impl; [exact F2|]. intros x. cbn. rewrite HC. intros Hx. by apply cmp_prio.
Qed.

(** Threads 2 and 3 created under the priority policy. *)
Definition prio_kernel : res Kernel :=
  k ← newThread 1 (boot 8 3) 2%positive 0 0; k ← Fork_ready 1 k 2%positive; Fork_check 1 k.

Definition prio_demo : Kernel := match prio_kernel with Ok k => k | _ => boot 8 3 end.

Lemma priority_dispatch_witness :
  exists t k', FindNextToRun 1 prio_demo = Ok (Some t, k') /\ prio prio_demo t <= 8.
Proof.
  destruct (priority_dispatch 8 3 prio_demo) as [H _].
  - eapply rtc_l; [eapply (step_new 1 _ _ 2%positive 0 0); vm_compute; reflexivity|].
    eapply rtc_l; [eapply (step_fork 1 _ _ 2%positive); vm_compute; reflexivity|].
    eapply rtc_l; [eapply step_fork_check; vm_compute; reflexivity|]. apply rtc_refl.
  - pose (k' := match FindNextToRun 1 prio_demo with Ok (_, k) => k | _ => prio_demo end).
    assert (E : FindNextToRun 1 prio_demo = Ok (Some 2%positive, k')) by (vm_compute; reflexivity).
    exists 2%positive, k'. split; [exact E|]. apply (H _ _ E 2%positive). vm_compute. left.
Defined.

(** The feedback queues.  In every reachable state, making a thread ready
    moves it one level down (at most to the last level), gives it the time slice
    of that level and puts it at the end of that level's queue; the thread that
    is dispatched is the first of the lowest-numbered level that has one. *)
Theorem feedback_queues (p r : Z) (k : Kernel) :
  -1 <= p <= 4 -> rtc (kstep 3) (boot_state p r) (Runs k) ->
  (forall t th k', threads k !! t = Some th -> status th <> READY -> ReadyToRun 3 k t = Ok k' ->
     let l := Z.min (priority th + 1) 4 in
     exists q, threadArrQueue (queues k) !! Z.to_nat l = Some q /\
       threadArrQueue (queues k') = <[Z.to_nat l := q ++ [t]]> (threadArrQueue (queues k)) /\
       threads k' !! t = Some (mkThread READY l (l + 3) (threadID th))) /\
  (forall t k', FindNextToRun 3 k = Ok (Some t, k') ->
     exists i q, threadArrQueue (queues k) !! i = Some (t :: q) /\
       threadArrQueue (queues k') = <[i := q]> (threadArrQueue (queues k)) /\
       forall j q', (j < i)%nat -> threadArrQueue (queues k) !! j = Some q' -> q' = []).
Proof.
  intros Hp HS. pose proof (reachable_ok 3 _ _ (boot_ok 3 p r Hp) HS) as H. cbn in H.
  pose proof (inv_qok _ _ _ _ H) as HQ. cbn in HQ. split.
  - intros t th k' Et Hs E l. destruct (ReadyToRun_enqueue 3 k t k' E) as (th0 & ths & q & Et0 & E1 & -> & ->).
    rewrite Et in Et0. injection Et0 as <-.
    pose proof (inv_tok _ _ _ _ H t th Et) as HT. cbn in HT.
    assert (Hnr : t ∉ concat (threadArrQueue (queues k))).
    { intros Hin. apply Hs. apply (inv_READY _ _ _ _ H t th Et). by left. }
    assert (HQ1 : mlfq_ok (<[t := setStatus th READY]> (threads k)) (queues k)) by exact (@qok_status 3 mlfq_policy _ _ _ _ READY Et HQ).
    destruct (mlfq_enqueue (<[t := setStatus th READY]> (threads k)) (queues k) t (setStatus th READY) HQ1 HT)
      as (q0 & E0 & EQ & Hr & _); [apply lookup_insert_eq|done|].
    rewrite E1 in EQ. injection EQ as -> ->. cbn [priority setStatus status threadID threadArrQueue] in *.
    replace (if bool_decide (priority th <> 4) then priority th + 1 else priority th) with l in *
      by (unfold l; case_bool_decide; lia).
    exists q0. split_and!; [done|done|]. by rewrite insert_insert_eq, lookup_insert_eq.
  - intros t k' E. unfold FindNextToRun in E. apply bind_Ok in E as (_ & _ & E).
    apply bind_Ok in E as ([o q] & E1 & E). injection E as -> <-. unfold dequeue in E1.
    rewrite (bool_decide_false (3 = 0)), (bool_decide_false (3 = 2)), (bool_decide_false (3 = 1)),
      (bool_decide_true (3 = 3)) in E1 by done. cbn [orb] in E1. destruct HQ as [HL _].
    destruct (first_queue_spec (Z.to_nat QueueNum) 0 (threadArrQueue (queues k)))
      as [[E2 _]|(t' & j & l & E2 & Ej & HB & _)]; [done|by rewrite HL|done|..]; rewrite E2 in E1; cbn in E1;
      [done|]. injection E1 as -> <-. exists j, l. done.
Qed.

Lemma feedback_queues_witness :
  exists k', ReadyToRun 3 demo_after 2%positive = Ok k' /\
    threads k' !! 2%positive = Some (mkThread READY 1 4 1).
Proof.
  destruct (feedback_queues 0 0 demo_after) as [H _]; [lia|exact demo_reachable|].
  pose (k' := match ReadyToRun 3 demo_after 2%positive with Ok k => k | _ => demo_after end).
  assert (E : ReadyToRun 3 demo_after 2%positive = Ok k') by (vm_compute; reflexivity).
  exists k'. split; [exact E|].
  destruct (H 2%positive (mkThread RUNNING 0 3 1) k') as (q & _ & _ & R); [vm_compute; reflexivity|done|exact E|].
  exact R.
Defined.

(** A finished thread stays on the block list.  When a thread finishes and
    another one is dispatched, the thread object is deleted and its slot freed,
    but its address remains on [blockList]; waking the head of the block list
    then uses a deleted object when it is that thread. *)
Theorem finished_thread_dangles (typeno p r : Z) (k k' : Kernel) :
  0 <= typeno <= 3 -> (typeno = 3 -> -1 <= p <= 4) ->
  rtc (kstep typeno) (boot_state p r) (Runs k) -> Finish typeno k = Ok (Switched k') ->
  threads k' !! currentThread k = None /\ currentThread k ∈ blockList k' /\
  (head (blockList k') = Some (currentThread k) -> awakeAThead k' = Undef).
Proof.
  intros Ht Hp HS E. destruct (reachable_inv typeno p r k Ht Hp HS) as (HP & _ & H).
  unfold Finish in E. assert (EL : with_level k IntOff = k)
    by (rewrite <- (inv_level _ _ _ _ H); by destruct k). rewrite EL in E.
  destruct (Sleep_inv typeno k _ true H) as (s & E' & _ & Hd). rewrite E in E'. injection E' as <-.
  destruct Hd as [_ Hd]. specialize (Hd eq_refl). split; [done|].
  assert (HB : currentThread k ∈ blockList k').
  { rewrite Sleep_wake in E by apply H. apply bind_Ok in E as (k1 & E1 & E2).
    assert (currentThread k ∈ blockList k1).
    { unfold blockAThread in E1. inv_res. cbn. unfold Seq.Append in Hm0. inv_res. apply elem_of_app. right.
      by apply list_elem_of_singleton. }
    assert (blockList k' = blockList k1) as ->; [|done].
    unfold wake in E2. apply bind_Ok in E2 as ([o k2] & E2 & E3).
    assert (blockList k2 = blockList k1) as <-.
    { unfold FindNextToRun in E2. apply bind_Ok in E2 as (_ & _ & E2). apply bind_Ok in E2 as ([? ?] & _ & E2).
      by injection E2 as <- <-. }
    destruct o as [n|]; [|done]. apply bind_Ok in E3 as (k3 & E3 & E4). injection E4 as <-.
    unfold Run, CheckToBeDestroyed, delete_thread, removeAThread in E3. inv_res. cbn in E3. inv_res. done. }
  split; [done|]. intros Hh. unfold awakeAThead. destruct (blockList k') as [|t l]; [done|].
  injection Hh as ->. cbn. unfold upd_thread, get_thread. by rewrite Hd.
Qed.

Lemma finished_thread_dangles_witness :
  exists k', Finish 2 rr_demo = Ok (Switched k') /\ awakeAThead k' = Undef.
Proof.
  destruct (Finish 2 rr_demo) as [[k'|]| | |] eqn:E; try discriminate E.
  exists k'. split; [reflexivity|].
  destruct (finished_thread_dangles 2 0 0 rr_demo k') as (_ & _ & H); [lia|done|exact rr_reachable|exact E|].
  apply H. vm_compute in E. injection E as <-. reflexivity.
Defined.
