(* ===== verification/Synch.v ===== *)
(** * threads/synch.cc, threads/synchlist.cc: semaphores, locks, conditions, lists

    A thread is the list of the steps it still has to take.  [P], [V] and the
    parts of the other routines that touch shared state are atomic steps of the
    running thread; [Acquire], [Release], [Wait], [Broadcast] and the operations
    of [SynchList] are sequences of steps, as in the sources, so that another
    thread may run between any two of them: the timer may preempt the running
    thread after every step, and an interrupt handler may call [V]. *)

From S2P Require Import Prelude Lists Sched.

Record Semaphore : Type := mkSem { value : Z; queue : list tptr }.
Record Lock : Type := mkLock { lockHolder : option tptr; semaphore : Z }.
Record Condition : Type := mkCond { barrierNum : Z; waitQueue : list Z }.
(** [received] records what [RemoveFront] returned, newest last, to whom. *)
Record SynchList : Type := mkSynchList {
  items : list Z; lock : Z; listEmpty : Z; received : list (tptr * Z) }.

Definition BARRIER_NUM : Z := 5.

Inductive op : Type :=
| OpP (s : Z)
| OpV (s : Z)
(** the assignments to [lockHolder] in [Acquire] and [Release] *)
| OpSetHolder (l : Z)
| OpClearHolder (l : Z)
| OpWait (c l : Z)
(** [delete waiter], at the end of [Wait] *)
| OpDelete (s : Z)
| OpSignal (c l : Z)
| OpBroadcast (c l : Z)
| OpBarrier (c l : Z)
(** the accesses to the list in [SynchList] *)
| OpListAppend (L : Z) (x : Z)
| OpWhileEmpty (L : Z)
| OpTake (L : Z)
| OpYield.

#[global] Instance op_eq_dec : EqDecision op.
Proof. solve_decision. Defined.

(** The objects, by address, and what each thread has left to do. *)
Record Objs : Type := mkObjs {
  sems : gmap Z Semaphore;
  locks : gmap Z Lock;
  conds : gmap Z Condition;
  lists : gmap Z SynchList;
  progs : gmap tptr (list op) }.

Definition set_sems (d : Objs) (x : gmap Z Semaphore) : Objs :=
  mkObjs x (locks d) (conds d) (lists d) (progs d).
Definition set_lock (d : Objs) (l : Z) (lk : Lock) : Objs :=
  mkObjs (sems d) (<[l := lk]> (locks d)) (conds d) (lists d) (progs d).
Definition set_cond (d : Objs) (c : Z) (cd : Condition) : Objs :=
  mkObjs (sems d) (locks d) (<[c := cd]> (conds d)) (lists d) (progs d).
Definition set_list (d : Objs) (L : Z) (sl : SynchList) : Objs :=
  mkObjs (sems d) (locks d) (conds d) (<[L := sl]> (lists d)) (progs d).
Definition set_prog (d : Objs) (t : tptr) (ops : list op) : Objs :=
  mkObjs (sems d) (locks d) (conds d) (lists d) (<[t := ops]> (progs d)).
Definition set_sem (d : Objs) (s : Z) (sm : Semaphore) : Objs := set_sems d (<[s := sm]> (sems d)).

Definition prog (d : Objs) (t : tptr) : list op := default [] (progs d !! t).

Record Sys : Type := mkSys { kern : Kernel; objs : Objs }.

Definition deref {A} (o : option A) : res A := match o with Some a => Ok a | None => Undef end.

(** Some thread runs, or the processor idles in [Sleep]. *)
Inductive ystate : Type := YRuns (y : Sys) | YIdles (y : Sys) (finishing : bool).

Section synch.
Context (typeno : Z).

(** ** Semaphores *)

(** One turn of the loop of [P], with interrupts off: the value is taken, or the
    thread queues itself and sleeps; when it runs again it tries again. *)
Definition P_once (k : Kernel) (s : Semaphore) : res (Semaphore * option slept) :=
  if bool_decide (value s = 0) then
    q ← Seq.Append (currentThread k) (queue s);
    r ← Sleep typeno k false; Ok (mkSem (value s) q, Some r)
  else Ok (mkSem (i32 (value s - 1)) (queue s), None).

Definition V (k : Kernel) (s : Semaphore) : res (Kernel * Semaphore) :=
  if bool_decide (queue s = []) then Ok (k, mkSem (i32 (value s + 1)) (queue s))
  else
    '(t, q) ← Seq.RemoveFront (queue s);
    k ← ReadyToRun typeno k t; Ok (k, mkSem (i32 (value s + 1)) q).

(** [V] on the semaphore at address [s]. *)
Definition do_V (y : Sys) (s : Z) : res Sys :=
  sm ← deref (sems (objs y) !! s);
  '(k, sm') ← V (kern y) sm;
  Ok (mkSys k (set_sem (objs y) s sm')).

Definition to_ystate (d : Objs) (r : slept) (finishing : bool) : ystate :=
  match r with
  | Switched k => YRuns (mkSys k d)
  | Idling k => YIdles (mkSys k d) finishing
  end.

(** ** Locks *)

Definition Acquire (l : Z) (lk : Lock) : list op := [OpP (semaphore lk); OpSetHolder l].
Definition Release (l : Z) (lk : Lock) : list op := [OpClearHolder l; OpV (semaphore lk)].

Definition IsHeldByCurrentThread (t : tptr) (lk : Lock) : bool :=
  bool_decide (lockHolder lk = Some t).

(** ** Conditions *)

(** The address of a new semaphore: the first that is not in use. *)
Definition fresh_sem (m : gmap Z Semaphore) : Z :=
  default (fresh (dom m : gset Z)) (head (filter (fun s => m !! s = None) (seqZ 0 (Z.of_nat (size m) + 1)))).

(** [Wait] up to the call of [Release]; then the rest of [Wait]. *)
Definition Wait (d : Objs) (t : tptr) (c l : Z) (rest : list op) : res Objs :=
  lk ← deref (locks d !! l);
  _ ← ASSERT (IsHeldByCurrentThread t lk);
  cd ← deref (conds d !! c);
  let waiter := fresh_sem (sems d) in
  q ← Seq.Append waiter (waitQueue cd);
  let d := set_sem d waiter (mkSem 0 []) in
  let d := set_cond d c (mkCond (barrierNum cd) q) in
  Ok (set_prog d t (Release l lk ++ [OpP waiter] ++ Acquire l lk ++ [OpDelete waiter] ++ rest)).

Definition Signal (y : Sys) (c l : Z) : res Sys :=
  let d := objs y in
  lk ← deref (locks d !! l);
  _ ← ASSERT (IsHeldByCurrentThread (currentThread (kern y)) lk);
  cd ← deref (conds d !! c);
  if bool_decide (waitQueue cd = []) then Ok y
  else
    '(w, q) ← Seq.RemoveFront (waitQueue cd);
    do_V (mkSys (kern y) (set_cond d c (mkCond (barrierNum cd) q))) w.

(** One turn of the loop of [Broadcast]; the thread comes back to it while
    somebody waits. *)
Definition Broadcast (y : Sys) (c l : Z) (rest : list op) : res Sys :=
  cd ← deref (conds (objs y) !! c);
  if bool_decide (waitQueue cd = []) then
    Ok (mkSys (kern y) (set_prog (objs y) (currentThread (kern y)) rest))
  else Signal y c l.

(** [Barrier] goes on as [Broadcast] or as [Wait]. *)
Definition Barrier (d : Objs) (t : tptr) (c l : Z) (rest : list op) : res Objs :=
  cd ← deref (conds d !! c);
  let n := i32 (barrierNum cd + 1) in
  let d := set_cond d c (mkCond n (waitQueue cd)) in
  Ok (set_prog d t ((if bool_decide (n = BARRIER_NUM) then OpBroadcast c l else OpWait c l) :: rest)).

(** ** Synchronised lists *)

Definition ListAppend (L x : Z) (sl : SynchList) (lk : Lock) : list op :=
  Acquire (lock sl) lk ++ [OpListAppend L x; OpSignal (listEmpty sl) (lock sl)] ++ Release (lock sl) lk.

Definition ListRemoveFront (L : Z) (sl : SynchList) (lk : Lock) : list op :=
  Acquire (lock sl) lk ++ [OpWhileEmpty L; OpTake L] ++ Release (lock sl) lk.

(** ** One step of the running thread *)

Definition step_thread (y : Sys) : res ystate :=
  let k := kern y in
  let d := objs y in
  let t := currentThread k in
  match prog d t with
  | [] => r ← Finish typeno k; Ok (to_ystate d r true)
  | OpP s :: rest =>
      sm ← deref (sems d !! s);
      '(sm', r) ← P_once k sm;
      let d' := set_sem d s sm' in
      Ok (match r with
          | Some r => to_ystate d' r false
          | None => YRuns (mkSys k (set_prog d' t rest))
          end)
  | OpV s :: rest => y' ← do_V y s; Ok (YRuns (mkSys (kern y') (set_prog (objs y') t rest)))
  | OpSetHolder l :: rest =>
      lk ← deref (locks d !! l);
      Ok (YRuns (mkSys k (set_prog (set_lock d l (mkLock (Some t) (semaphore lk))) t rest)))
  | OpClearHolder l :: rest =>
      lk ← deref (locks d !! l);
      _ ← ASSERT (IsHeldByCurrentThread t lk);
      Ok (YRuns (mkSys k (set_prog (set_lock d l (mkLock None (semaphore lk))) t rest)))
  | OpWait c l :: rest => d' ← Wait d t c l rest; Ok (YRuns (mkSys k d'))
  | OpDelete s :: rest =>
      _ ← deref (sems d !! s);
      Ok (YRuns (mkSys k (set_prog (set_sems d (delete s (sems d))) t rest)))
  | OpSignal c l :: rest => y' ← Signal y c l; Ok (YRuns (mkSys (kern y') (set_prog (objs y') t rest)))
  | OpBroadcast c l :: rest => y' ← Broadcast y c l rest; Ok (YRuns y')
  | OpBarrier c l :: rest => d' ← Barrier d t c l rest; Ok (YRuns (mkSys k d'))
  | OpListAppend L x :: rest =>
      sl ← deref (lists d !! L);
      its ← Seq.Append x (items sl);
      Ok (YRuns (mkSys k (set_prog (set_list d L
        (mkSynchList its (lock sl) (listEmpty sl) (received sl))) t rest)))
  | OpWhileEmpty L :: rest =>
      sl ← deref (lists d !! L);
      Ok (YRuns (mkSys k (set_prog d t (
        if bool_decide (items sl = []) then OpWait (listEmpty sl) (lock sl) :: OpWhileEmpty L :: rest
        else rest))))
  | OpTake L :: rest =>
      sl ← deref (lists d !! L);
      '(x, its) ← Seq.RemoveFront (items sl);
      Ok (YRuns (mkSys k (set_prog (set_list d L
        (mkSynchList its (lock sl) (listEmpty sl) (received sl ++ [(t, x)]))) t rest)))
  | OpYield :: rest => k' ← Yield typeno k; Ok (YRuns (mkSys k' (set_prog d t rest)))
  end.

(** ** The transition system *)

(** No counter is about to leave the range of [int]. *)
Definition no_overflow (d : Objs) : Prop :=
  (forall s sm, sems d !! s = Some sm -> value sm < int_max) /\
  (forall c cd, conds d !! c = Some cd -> barrierNum cd < int_max).

(** [irq]: the semaphores that interrupt handlers signal. *)
Inductive ystep (irq : gset Z) : ystate -> ystate -> Prop :=
(** the running thread takes its next step *)
| y_step y s' : no_overflow (objs y) -> step_thread y = Ok s' -> ystep irq (YRuns y) s'
(** the timer preempts the running thread *)
| y_preempt y k : Yield typeno (kern y) = Ok k -> ystep irq (YRuns y) (YRuns (mkSys k (objs y)))
(** an interrupt handler calls [V] *)
| y_interrupt y y' s :
    s ∈ irq -> no_overflow (objs y) -> do_V y s = Ok y' -> ystep irq (YRuns y) (YRuns y')
| y_interrupt_idle y y' fin s :
    s ∈ irq -> no_overflow (objs y) -> do_V y s = Ok y' -> ystep irq (YIdles y fin) (YIdles y' fin)
(** the idle loop finds a ready thread *)
| y_wake y k fin :
    wake typeno (kern y) fin = Ok (Switched k) -> ystep irq (YIdles y fin) (YRuns (mkSys k (objs y))).

End synch.
