(* ===== verification/SynchProofs.v ===== *)
(** * Semaphores, locks and conditions under preemption

    The steps of the running thread are split into what they do to the objects
    ([dstep]) and what they ask of the scheduler ([act]); the scheduler is seen
    only through which threads are blocked and which are awake ([view]). *)

From S2P Require Import Prelude Lists ListProofs Sched SchedProofs Synch.

Definition blocked (k : Kernel) (t : tptr) : Prop := status <$> threads k !! t = Some BLOCKED.
Definition awake (k : Kernel) (t : tptr) : Prop :=
  status <$> threads k !! t = Some READY \/ status <$> threads k !! t = Some RUNNING.

(** [t] is as blocked and as awake in [k'] as in [k]. *)
Definition same_view (k k' : Kernel) (t : tptr) : Prop :=
  (blocked k' t <-> blocked k t) /\ (awake k' t <-> awake k t).

Lemma same_view_eq k k' t : threads k' !! t = threads k !! t -> same_view k k' t.
Proof. unfold same_view, blocked, awake. by intros ->. Qed.

Lemma same_view_trans k1 k2 k3 t : same_view k1 k2 t -> same_view k2 k3 t -> same_view k1 k3 t.
Proof. unfold same_view. tauto. Qed.

Lemma same_view_awake k k' t : awake k t -> awake k' t -> same_view k k' t.
Proof.
  unfold same_view, blocked, awake. intros H H'. split; [|tauto].
  split; intros E; rewrite E in *; naive_solver.
Qed.

Lemma awake_not_blocked k t : awake k t -> ~ blocked k t.
Proof. unfold awake, blocked. intros [-> | ->]; done. Qed.

Section view.
Context (typeno : Z) `{!Policy typeno}.

Lemma cur_awake k c : inv typeno k (Some c) None -> awake k c.
Proof.
  intros I. destruct (inv_old _ _ _ _ I) as [th E]. rewrite (inv_cur _ _ _ _ I c eq_refl) in E.
  right. rewrite E. cbn. f_equal. by apply (inv_RUNNING _ _ _ _ I c).
Qed.

(** The thread taken off the ready queue was awake. *)
Lemma lim_awake k cur n : inv typeno k cur (Some n) -> awake k n.
Proof.
  intros I. destruct (inv_lim _ _ _ _ I n eq_refl) as [_ [th E]].
  left. rewrite E. cbn. f_equal. apply (inv_READY _ _ _ _ I n th E). by right.
Qed.

Lemma Run_view k n c :
  inv typeno k None (Some n) -> currentThread k = c ->
  exists k', Run k n false = Ok k' /\ inv typeno k' (Some (currentThread k')) None /\
    currentThread k' = n /\ forall t, same_view k k' t.
Proof.
  intros I Ec. destruct (Run_inv typeno k n false c I Ec) as (k' & E & I' & X & _); [done|].
  pose proof (inv_cur _ _ _ _ I' n eq_refl) as En. exists k'. rewrite En. split_and!; try done.
  intros t. destruct (decide (t = n)) as [->|Hne].
  - apply same_view_awake; [by eapply lim_awake|by eapply cur_awake].
  - apply same_view_eq. rewrite X by done. by rewrite decide_False by naive_solver.
Qed.

Lemma ready_view k cur t :
  inv typeno k cur None -> blocked k t ->
  exists k', ReadyToRun typeno k t = Ok k' /\ inv typeno k' cur None /\
    currentThread k' = currentThread k /\ awake k' t /\ forall x, x <> t -> same_view k k' x.
Proof.
  intros I Hb. destruct (ready_blocked typeno k cur t I Hb) as (k' & E & I' & C & X).
  exists k'. split_and!; try done; [|intros x Hx; by apply same_view_eq, X].
  unfold blocked in Hb. destruct (threads k !! t) as [th|] eqn:Et; [|done]. cbn in Hb. injection Hb as Hb.
  destruct (ReadyToRun_inv typeno k cur None t th I Et) as (k1 & E1 & I1 & R1 & _); [congruence|].
  rewrite E in E1. injection E1 as <-. left.
  assert (Ht : t ∈ ready (queues k')) by (rewrite R1; left).
  destruct (inv_alive _ _ _ _ I' t Ht) as [th' E']. rewrite E'. cbn. f_equal.
  apply (inv_READY _ _ _ _ I' t th' E'). by left.
Qed.

Lemma Yield_view k c :
  inv typeno k (Some c) None ->
  exists k', Yield typeno k = Ok k' /\ inv typeno k' (Some (currentThread k')) None /\
    forall t, same_view k k' t.
Proof.
  intros I. unfold Yield. pose proof (inv_cur _ _ _ _ I c eq_refl) as Ec.
  destruct (FindNext_inv typeno k (Some c) I) as [[E ->]|(n & k1 & -> & I1 & E & C1 & T1 & _)];
    cbn [mbind res_bind].
  { exists k. rewrite Ec. split_and!; try done. }
  destruct (inv_old _ _ _ _ I1) as [ch Ech]. rewrite C1, Ec in *.
  assert (Hc : status ch = RUNNING) by (by apply (inv_RUNNING _ _ _ _ I1 c)).
  destruct (ReadyToRun_inv typeno k1 (Some c) (Some n) c ch I1 Ech) as (k2 & -> & I2 & R2 & C2 & X2 & _); [congruence|].
  rewrite decide_True in I2 by done. cbn [mbind res_bind].
  destruct (Run_view k2 n (currentThread k2) I2 eq_refl) as (k3 & -> & I3 & C3 & V3).
  exists k3. split_and!; try done. intros t. eapply same_view_trans; [|apply V3].
  destruct (decide (t = c)) as [->|Hne]; [|apply same_view_eq; rewrite X2 by done; by rewrite T1].
  apply same_view_awake; [by eapply cur_awake|]. left.
  assert (Ht : c ∈ ready (queues k2)) by (rewrite R2; left).
  destruct (inv_alive _ _ _ _ I2 c Ht) as [th' E']. rewrite E'. cbn. f_equal.
  apply (inv_READY _ _ _ _ I2 c th' E'). by left.
Qed.

(** The scheduler's part of a state: [fin] is [None] when a thread runs. *)
Definition kern_ok (k : Kernel) (fin : option bool) : Prop :=
  match fin with
  | None => inv typeno k (Some (currentThread k)) None
  | Some f => inv typeno k None None /\ (f = true -> blocked k (currentThread k))
  end.

Definition slept_fin (r : slept) (f : bool) : option bool :=
  match r with Switched _ => None | Idling _ => Some f end.

Lemma wake_view k f :
  kern_ok k (Some f) ->
  exists r, wake typeno k f = Ok r /\ kern_ok (slept_kernel r) (slept_fin r f) /\
    (forall k', r = Idling k' -> k' = k) /\
    (f = true -> forall k', r = Switched k' -> ~ blocked k' (currentThread k)) /\
    forall t, t <> currentThread k \/ f = false -> same_view k (slept_kernel r) t.
Proof.
  intros [I Hf]. unfold wake.
  destruct (FindNext_inv typeno k None I) as [[E ->]|(n & k1 & -> & I1 & E & C1 & T1 & _)]; cbn [mbind res_bind].
  { exists (Idling k). cbn. split_and!; try done. by intros k' [= ->]. }
  assert (Hs1 : forall t, same_view k k1 t) by (intros t; apply same_view_eq; by rewrite T1).
  destruct f.
  - destruct (Run_inv typeno k1 n true (currentThread k) I1 C1) as (k2 & -> & I2 & X2 & _).
    { intros _. rewrite T1. by apply Hf. }
    exists (Switched k2). pose proof (inv_cur _ _ _ _ I2 n eq_refl) as En. cbn. rewrite En.
    split_and!; try done.
    { intros _ k' [= <-]. destruct (decide (currentThread k = n)) as [->|Hn].
      - apply awake_not_blocked. by apply cur_awake.
      - unfold blocked. by rewrite X2, decide_True by done. }
    intros t [Ht|Ht]; [|done]. destruct (decide (t = n)) as [->|Hne].
    + apply same_view_awake; [apply Hs1; by eapply lim_awake|by eapply cur_awake].
    + apply same_view_eq. rewrite X2 by done. rewrite decide_False by naive_solver. by rewrite T1.
  - destruct (Run_view k1 n (currentThread k) I1 C1) as (k2 & -> & I2 & C2 & V2).
    exists (Switched k2). cbn. split_and!; try done. intros t _. by eapply same_view_trans.
Qed.

Lemma Sleep_view k c f :
  inv typeno k (Some c) None ->
  exists r, Sleep typeno k f = Ok r /\ kern_ok (slept_kernel r) (slept_fin r f) /\
    (forall t, t <> c -> same_view k (slept_kernel r) t) /\
    (f = false -> blocked (slept_kernel r) c) /\
    (f = true -> blocked (slept_kernel r) c -> slept_fin r f = Some true /\ currentThread (slept_kernel r) = c) /\
    ~ awake (slept_kernel r) c /\
    (forall k', r = Idling k' -> currentThread k' = c).
Proof.
  intros I. pose proof (inv_cur _ _ _ _ I c eq_refl) as Ec.
  rewrite Sleep_wake by apply I. rewrite Ec.
  destruct (block_inv typeno k c I) as (k1 & -> & I1 & C1 & S1 & R1 & X1). cbn [mbind res_bind].
  destruct (wake_view k1 f) as (r & Er & Kr & Hi & _ & Vr); [by rewrite <- C1 in S1|].
  destruct (wake_inv typeno k1 f c I1 C1 S1) as (r' & Er' & _ & Hx). rewrite Er in Er'. injection Er' as <-.
  exists r. rewrite C1 in Vr. split_and!; try done.
  - intros t Ht. eapply same_view_trans; [apply same_view_eq, X1, Ht|]. apply Vr. by left.
  - intros ->. apply Vr; [by right|done].
  - intros -> Hb. destruct r as [k'|k']; [|by rewrite (Hi k' eq_refl)].
    destruct Hx as [Hne Hx]. unfold blocked in Hb. cbn in Hb. rewrite Hx, decide_True in Hb by done. done.
  - destruct f; [|intros Ha; eapply awake_not_blocked; [exact Ha|]; apply Vr; [by right|done]].
    destruct r as [k'|k'].
    + destruct Hx as [Hne Hx]. unfold awake. cbn. rewrite Hx, decide_True by done. naive_solver.
    + cbn. rewrite (Hi k' eq_refl). intros Ha. by eapply awake_not_blocked.
  - intros k' E. by rewrite (Hi k' E).
Qed.

End view.

(** ** Steps on the objects *)

(** What a step asks of the scheduler. *)
Inductive act : Type := ANone | ASleep | AFinish | AYield | AWake (t : option tptr).

Definition kact (typeno : Z) (k : Kernel) (d : Objs) (a : act) : res ystate :=
  match a with
  | ANone | AWake None => Ok (YRuns (mkSys k d))
  | ASleep => r ← Sleep typeno k false; Ok (to_ystate d r false)
  | AFinish => r ← Finish typeno k; Ok (to_ystate d r true)
  | AYield => k' ← Yield typeno k; Ok (YRuns (mkSys k' d))
  | AWake (Some t) => k' ← ReadyToRun typeno k t; Ok (YRuns (mkSys k' d))
  end.

(** [V] on the objects: [o] is the thread it wakes. *)
Definition vstep (d : Objs) (s : Z) (d' : Objs) (o : option tptr) : Prop :=
  exists sm, sems d !! s = Some sm /\ o = head (queue sm) /\
    d' = set_sem d s (mkSem (value sm + 1) (tail (queue sm))).

(** Steps that change the program of the thread only. *)
Inductive silent (t : tptr) (d : Objs) : op -> list op -> list op -> act -> Prop :=
| s_signal c l lk cd rest :
    locks d !! l = Some lk -> lockHolder lk = Some t -> conds d !! c = Some cd -> waitQueue cd = [] ->
    silent t d (OpSignal c l) rest rest ANone
| s_broadcast c l cd rest :
    conds d !! c = Some cd -> waitQueue cd = [] -> silent t d (OpBroadcast c l) rest rest ANone
| s_while L sl rest :
    lists d !! L = Some sl -> items sl = [] ->
    silent t d (OpWhileEmpty L) rest (OpWait (listEmpty sl) (lock sl) :: OpWhileEmpty L :: rest) ANone
| s_while_done L sl rest :
    lists d !! L = Some sl -> items sl <> [] -> silent t d (OpWhileEmpty L) rest rest ANone
| s_yield rest : silent t d OpYield rest rest AYield.

(** The steps of [Signal], and of [Broadcast] while someone waits. *)
Definition signals (o : op) (c l : Z) (rest ops : list op) : Prop :=
  (o = OpSignal c l /\ ops = rest) \/ (o = OpBroadcast c l /\ ops = o :: rest).

Inductive dstep (t : tptr) (d : Objs) : Objs -> act -> Prop :=
| d_exit : prog d t = [] -> dstep t d d AFinish
| d_take s rest sm :
    prog d t = OpP s :: rest -> sems d !! s = Some sm -> 0 < value sm ->
    dstep t d (set_prog (set_sem d s (mkSem (value sm - 1) (queue sm))) t rest) ANone
| d_wait s rest sm :
    prog d t = OpP s :: rest -> sems d !! s = Some sm -> value sm = 0 -> t ∉ queue sm ->
    dstep t d (set_sem d s (mkSem 0 (queue sm ++ [t]))) ASleep
| d_V s rest d1 o :
    prog d t = OpV s :: rest -> vstep d s d1 o -> dstep t d (set_prog d1 t rest) (AWake o)
| d_set l rest lk :
    prog d t = OpSetHolder l :: rest -> locks d !! l = Some lk ->
    dstep t d (set_prog (set_lock d l (mkLock (Some t) (semaphore lk))) t rest) ANone
| d_clear l rest lk :
    prog d t = OpClearHolder l :: rest -> locks d !! l = Some lk -> lockHolder lk = Some t ->
    dstep t d (set_prog (set_lock d l (mkLock None (semaphore lk))) t rest) ANone
| d_cwait c l rest lk cd w :
    prog d t = OpWait c l :: rest -> locks d !! l = Some lk -> lockHolder lk = Some t ->
    conds d !! c = Some cd -> w = fresh_sem (sems d) -> w ∉ waitQueue cd ->
    dstep t d (set_prog (set_cond (set_sem d w (mkSem 0 [])) c (mkCond (barrierNum cd) (waitQueue cd ++ [w]))) t
      (OpClearHolder l :: OpV (semaphore lk) :: OpP w :: OpP (semaphore lk) :: OpSetHolder l ::
       OpDelete w :: rest)) ANone
| d_delete s rest sm :
    prog d t = OpDelete s :: rest -> sems d !! s = Some sm ->
    dstep t d (set_prog (set_sems d (delete s (sems d))) t rest) ANone
| d_signal o c l rest ops lk cd w q d1 r :
    prog d t = o :: rest -> signals o c l rest ops -> locks d !! l = Some lk -> lockHolder lk = Some t ->
    conds d !! c = Some cd -> waitQueue cd = w :: q ->
    vstep (set_cond d c (mkCond (barrierNum cd) q)) w d1 r ->
    dstep t d (set_prog d1 t ops) (AWake r)
| d_barrier c l rest cd o :
    prog d t = OpBarrier c l :: rest -> conds d !! c = Some cd ->
    o = (if bool_decide (barrierNum cd + 1 = BARRIER_NUM) then OpBroadcast c l else OpWait c l) ->
    dstep t d (set_prog (set_cond d c (mkCond (barrierNum cd + 1) (waitQueue cd))) t (o :: rest)) ANone
| d_append L x rest sl :
    prog d t = OpListAppend L x :: rest -> lists d !! L = Some sl -> x ∉ items sl ->
    dstep t d (set_prog (set_list d L
      (mkSynchList (items sl ++ [x]) (lock sl) (listEmpty sl) (received sl))) t rest) ANone
| d_get L rest sl x its :
    prog d t = OpTake L :: rest -> lists d !! L = Some sl -> items sl = x :: its ->
    dstep t d (set_prog (set_list d L
      (mkSynchList its (lock sl) (listEmpty sl) (received sl ++ [(t, x)]))) t rest) ANone
| d_silent o rest ops a :
    prog d t = o :: rest -> silent t d o rest ops a -> dstep t d (set_prog d t ops) a.

Lemma fresh_sem_None d : sems d !! fresh_sem (sems d) = None.
Proof.
  unfold fresh_sem. destruct (filter _ _) as [|s l] eqn:E; cbn.
  - apply (not_elem_of_dom (D := gset Z)), is_fresh.
  - assert (H : s ∈ s :: l) by left. rewrite <- E in H. by apply list_elem_of_filter in H as [? _].
Qed.

Lemma set_prog_same d t ops : prog d t = ops -> ops <> [] -> set_prog d t ops = d.
Proof.
  unfold prog, set_prog. intros H Hne. destruct d as [a b c e p]. cbn in *.
  f_equal. apply insert_id. destruct (p !! t); cbn in H; congruence.
Qed.

Definition vals_ok (d : Objs) : Prop :=
  (forall s sm, sems d !! s = Some sm -> 0 <= value sm) /\
  (forall c cd, conds d !! c = Some cd -> 0 <= barrierNum cd).

Lemma i32_succ x : 0 <= x < int_max -> i32 (x + 1) = x + 1.
Proof. intros H. apply i32_id. unfold is_i32, int_min, int_max in *. lia. Qed.

(** [V] is [vstep] and, if a thread waits, [ReadyToRun]. *)
Lemma do_V_split typeno y s r :
  vals_ok (objs y) -> no_overflow (objs y) ->
  do_V typeno y s = Ok r <-> exists d1 o, vstep (objs y) s d1 o /\
    kact typeno (kern y) d1 (AWake o) = Ok (YRuns r).
Proof.
  intros [HV _] [HN _]. unfold do_V, V, vstep. destruct (sems (objs y) !! s) as [sm|] eqn:E.
  2: { cbn. split; [done|]. by intros (d1 & o & (sm & ? & _) & _). }
  cbn [deref mbind res_bind]. rewrite i32_succ by (split; [by eapply HV|by eapply HN]).
  destruct (queue sm) as [|t q] eqn:Eq; [rewrite bool_decide_true by done|rewrite bool_decide_false by done];
    cbn [mbind res_bind Seq.RemoveFront].
  - split.
    + intros [= <-]. exists (set_sem (objs y) s (mkSem (value sm + 1) [])), None. split; [|done].
      exists sm. by rewrite Eq.
    + intros (d1 & o & (sm' & [= <-] & -> & ->) & HK). rewrite Eq in HK. cbn in HK. by injection HK as <-.
  - split.
    + intros HK. destruct (ReadyToRun typeno (kern y) t) as [k'| | | ] eqn:EK; try done.
      injection HK as <-. eexists _, _. split; [exists sm; rewrite Eq; split_and!; done|].
      cbn. by rewrite EK.
    + intros (d1 & o & (sm' & [= <-] & -> & ->) & HK). rewrite Eq in HK. cbn in HK.
      destruct (ReadyToRun typeno (kern y) t) as [k'| | | ] eqn:EK; try done. by injection HK as <-.
Qed.

(** [Signal] when someone waits. *)
Lemma Signal_split typeno y c l lk cd w q r :
  vals_ok (objs y) -> no_overflow (objs y) ->
  locks (objs y) !! l = Some lk -> conds (objs y) !! c = Some cd -> waitQueue cd = w :: q ->
  lockHolder lk = Some (currentThread (kern y)) ->
  Signal typeno y c l = Ok r <-> exists d1 o,
    vstep (set_cond (objs y) c (mkCond (barrierNum cd) q)) w d1 o /\
    kact typeno (kern y) d1 (AWake o) = Ok (YRuns r).
Proof.
  intros HV HN El Ec Eq Hh. unfold Signal. rewrite El, Ec. cbn [deref mbind res_bind].
  assert (IsHeldByCurrentThread (currentThread (kern y)) lk = true) as -> by (by apply bool_decide_eq_true).
  cbn [ASSERT mbind res_bind].
  rewrite Eq, bool_decide_false by done. cbn [Seq.RemoveFront mbind res_bind].
  apply (do_V_split typeno (mkSys _ _)); cbn [objs].
  - split; [apply HV|]. cbn. intros c' cd' [[<- <-]|[_ E]]%lookup_insert_Some; [|by eapply HV].
    cbn. by eapply HV.
  - split; [apply HN|]. cbn. intros c' cd' [[<- <-]|[_ E]]%lookup_insert_Some; [|by eapply HN].
    cbn. by eapply HN.
Qed.

Lemma awake_kact typeno k d o s :
  kact typeno k d (AWake o) = Ok s -> exists y, s = YRuns y.
Proof. destruct o; cbn; intros H; inv_res; by eexists. Qed.

Lemma kact_prog typeno k d d' o y :
  kact typeno k d (AWake o) = Ok (YRuns y) ->
  kact typeno k d' (AWake o) = Ok (YRuns (mkSys (kern y) d')) /\ objs y = d.
Proof.
  destruct o as [t|]; cbn; [|by intros [= <-]].
  destruct (ReadyToRun typeno k t) as [k'| | | ] eqn:EK; try done. by intros [= <-].
Qed.

Section split.
Context (typeno : Z) (y : Sys).
Context (HV : vals_ok (objs y)) (HN : no_overflow (objs y)).
#[local] Abbreviation t := (currentThread (kern y)).
#[local] Abbreviation d := (objs y).

(** The step, seen as a step on the objects and a scheduler action. *)
Definition splits (s' : ystate) : Prop :=
  exists d' a, dstep t d d' a /\ kact typeno (kern y) d' a = Ok s'.

Lemma split_P s rest s' :
  prog d t = OpP s :: rest -> step_thread typeno y = Ok s' -> splits s'.
Proof.
  intros Ep. unfold step_thread, Broadcast, Barrier. rewrite Ep. destruct (sems d !! s) as [sm|] eqn:Es; [|done].
  cbn [deref mbind res_bind]. unfold P_once. case_bool_decide as Hv.
  - unfold Seq.Append. destruct (Seq.IsInList _ _) eqn:Ei; [done|]. apply bool_decide_eq_false in Ei.
    cbn [negb ASSERT mbind res_bind]. destruct (Sleep _ _ _) as [r| | | ] eqn:ES; try done.
    intros [= <-]. eexists _, ASleep. split; [by eapply d_wait|]. cbn. by rewrite Hv, ES.
  - destruct HV as [HV' _]. destruct HN as [HN' _]. specialize (HV' s sm Es). specialize (HN' s sm Es).
    intros [= <-]. eexists _, ANone. split; [eapply d_take; try done; lia|].
    cbn. rewrite i32_id; [done|]. unfold is_i32, int_min, int_max in *. lia.
Qed.

Lemma split_wait c l rest s' :
  prog d t = OpWait c l :: rest -> step_thread typeno y = Ok s' -> splits s'.
Proof.
  intros Ep. unfold step_thread, Wait. rewrite Ep.
  destruct (locks d !! l) as [lk|] eqn:El; [|done]. cbn [deref mbind res_bind].
  destruct (IsHeldByCurrentThread t lk) eqn:Eh; [|done]. apply bool_decide_eq_true in Eh.
  destruct (conds d !! c) as [cd|] eqn:Ec; [|done]. cbn [deref ASSERT mbind res_bind].
  unfold Seq.Append. destruct (Seq.IsInList _ _) eqn:Ei; [done|]. apply bool_decide_eq_false in Ei.
  intros [= <-]. eexists _, ANone. split; [by eapply d_cwait|done].
Qed.

(** [Signal], as a step of its own or as a turn of the loop of [Broadcast]. *)
Lemma split_signal o c l rest ops y1 :
  prog d t = o :: rest -> signals o c l rest ops -> Signal typeno y c l = Ok y1 ->
  (exists cd, conds d !! c = Some cd /\ waitQueue cd = [] /\ y1 = y /\
     exists lk, locks d !! l = Some lk /\ lockHolder lk = Some t) \/
  (splits (YRuns (mkSys (kern y1) (set_prog (objs y1) t ops))) /\ prog (objs y1) t = o :: rest).
Proof.
  intros Ep Ho HS. pose proof HS as HS'. unfold Signal in HS.
  destruct (locks d !! l) as [lk|] eqn:El; [|done]. cbn [deref mbind res_bind] in HS.
  destruct (IsHeldByCurrentThread t lk) eqn:Eh; [|done]. apply bool_decide_eq_true in Eh.
  destruct (conds d !! c) as [cd|] eqn:Ec; [|done]. cbn [deref ASSERT mbind res_bind] in HS.
  destruct (waitQueue cd) as [|w q] eqn:Ew; [left|right].
  - rewrite bool_decide_true in HS by done. injection HS as <-. exists cd. split_and!; try done. by exists lk.
  - apply (Signal_split typeno y c l lk cd w q) in HS' as (d1 & r & Hv & Hk); [|done..].
    destruct (kact_prog _ _ _ (set_prog d1 t ops) _ _ Hk) as [Hk' ->].
    split; [eexists _, (AWake r); split; [by eapply d_signal|done]|].
    destruct Hv as (sm & _ & _ & ->). done.
Qed.

Lemma step_split s' : step_thread typeno y = Ok s' -> splits s'.
Proof.
  intros HS. pose proof HS as HS'. revert HS. unfold step_thread, Broadcast, Barrier.
  destruct (prog d t) as [|o rest] eqn:Ep.
  { destruct (Finish _ _) as [r| | | ] eqn:EF; try done. intros [= <-].
    exists d, AFinish. split; [by constructor|]. cbn. by rewrite EF. }
  destruct o as [s|s|l|l|c l|s|c l|c l|c l|L x|L|L| ].
  - intros _. by eapply split_P.
  - destruct (do_V _ _ _) as [y1| | | ] eqn:EV; try done. intros [= <-].
    apply do_V_split in EV as (d1 & o & Hv & Hk); [|done..].
    destruct (kact_prog _ _ _ (set_prog d1 t rest) _ _ Hk) as [Hk' ->].
    eexists _, (AWake o). split; [by eapply d_V|done].
  - destruct (locks d !! l) as [lk|] eqn:El; [|done]. intros [= <-].
    eexists _, ANone. split; [by eapply d_set|done].
  - destruct (locks d !! l) as [lk|] eqn:El; [|done]. cbn [deref mbind res_bind].
    destruct (IsHeldByCurrentThread t lk) eqn:Eh; [|done]. apply bool_decide_eq_true in Eh. intros [= <-].
    eexists _, ANone. split; [by eapply d_clear|done].
  - intros _. by eapply split_wait.
  - destruct (sems d !! s) as [sm|] eqn:Es; [|done]. intros [= <-].
    eexists _, ANone. split; [by eapply d_delete|done].
  - destruct (Signal _ _ _ _) as [y1| | | ] eqn:EV; try done. intros [= <-].
    destruct (split_signal _ c l rest rest y1 Ep ltac:(by left) EV) as [(cd & Ec & Ew & -> & lk & El & Hh)|[H _]]; [|done].
    eexists _, ANone. split; [by eapply d_silent, s_signal|done].
  - destruct (conds d !! c) as [cd|] eqn:Ec; [|done]. cbn [deref mbind res_bind].
    case_bool_decide as Ew.
    + intros [= <-]. eexists _, ANone. split; [by eapply d_silent, s_broadcast|done].
    + destruct (Signal _ _ _ _) as [y1| | | ] eqn:EV; try done. intros [= <-].
      destruct (split_signal _ c l rest (OpBroadcast c l :: rest) y1 Ep ltac:(by right) EV)
        as [(cd' & Ec' & Ew' & _)|[H Hp]]; [congruence|].
      rewrite set_prog_same in H by done. by destruct y1.
  - destruct (conds d !! c) as [cd|] eqn:Ec; [|done]. cbn [deref mbind res_bind].
    rewrite i32_succ by (split; [by eapply HV|by eapply HN]). intros [= <-].
    eexists _, ANone. split; [by eapply d_barrier|done].
  - destruct (lists d !! L) as [sl|] eqn:El; [|done]. cbn [deref mbind res_bind].
    unfold Seq.Append. destruct (Seq.IsInList _ _) eqn:Ei; [done|]. apply bool_decide_eq_false in Ei.
    intros [= <-]. eexists _, ANone. split; [by eapply d_append|done].
  - destruct (lists d !! L) as [sl|] eqn:El; [|done]. cbn [deref mbind res_bind]. intros [= <-].
    clear HS'. case_bool_decide as Ei; (eexists _, ANone; split; [|done]); eapply d_silent; try done.
    + by apply s_while.
    + by eapply s_while_done.
  - destruct (lists d !! L) as [sl|] eqn:El; [|done]. cbn [deref mbind res_bind].
    destruct (items sl) as [|x its] eqn:Ei; [done|]. intros [= <-].
    eexists _, ANone. split; [by eapply d_get|done].
  - destruct (Yield _ _) as [k1| | | ] eqn:EY; try done. intros [= <-].
    eexists _, AYield. split; [by eapply d_silent, s_yield|]. cbn. by rewrite EY.
Qed.

End split.
