(* ===== verification/SynchObjects.v ===== *)
(** * The objects of synch.cc under every interleaving

    Invariants of the steps on the objects: the private semaphores of [Wait]
    are never lost, signalled twice or used after their deletion ([winv]); at
    most one thread is between the [P] and the [V] of a lock ([linv]). *)

From S2P Require Import Prelude Lists Sched Synch SynchProofs.

(** ** The semaphore operations of a program *)

Inductive sop : Type := SP (s : Z) | SV (s : Z) | SD (s : Z).

#[global] Instance sop_eq_dec : EqDecision sop.
Proof. solve_decision. Defined.

Definition sname (o : sop) : Z := match o with SP s | SV s | SD s => s end.

Definition sop_of (o : op) : option sop :=
  match o with OpP s => Some (SP s) | OpV s => Some (SV s) | OpDelete s => Some (SD s) | _ => None end.

Definition sops (l : list op) : list sop := omap sop_of l.

(** The operations of [l] on the semaphore [w]. *)
Definition ops_on (w : Z) (l : list sop) : list sop := filter (fun o => sname o = w) l.

Lemma ops_on_cons w o l : ops_on w (o :: l) = if decide (sname o = w) then o :: ops_on w l else ops_on w l.
Proof. done. Qed.

Lemma ops_on_in w l o : sname o = w -> o ∈ l <-> o ∈ ops_on w l.
Proof. intros H. unfold ops_on. rewrite list_elem_of_filter. naive_solver. Qed.

Lemma ops_on_nil w l : (forall o, o ∈ l -> sname o <> w) -> ops_on w l = [].
Proof.
  intros H. unfold ops_on. induction l as [|o l IH]; [done|].
  rewrite filter_cons_False; [apply IH; intros; apply H; by right|apply H; left].
Qed.

(** ** The waiters of conditions *)

Section waiters.
Context (irq : gset Z).

Definition waits_or_done (w : Z) (l : list sop) : Prop :=
  ops_on w l = [SP w; SD w] \/ ops_on w l = [SD w].

(** [sp]: the semaphore operations each thread still has to do; [val]: the
    values of the semaphores; [wq]: the wait queues of the conditions; [lsem]:
    the semaphores of the locks. *)
Record winv (sp : tptr -> list sop) (val : Z -> option Z) (wq : Z -> list Z) (lsem : Z -> option Z)
    : Prop := mkWinv {
  w_exists : forall t o, o ∈ sp t -> is_Some (val (sname o));
  w_lock : forall l s, lsem l = Some s -> is_Some (val s);
  w_irq : forall s, s ∈ irq -> is_Some (val s);
  w_nodup : forall c, NoDup (wq c);
  w_disj : forall c c' w, w ∈ wq c -> w ∈ wq c' -> c = c';
  (** the thread that will delete a semaphore is the only one that uses it *)
  w_own : forall t w, SD w ∈ sp t ->
    (forall t' o, t' <> t -> o ∈ sp t' -> sname o <> w) /\ (forall l, lsem l <> Some w) /\
    (w ∉ irq) /\ waits_or_done w (sp t);
  (** a waiter is queued, or it has been signalled once *)
  w_state : forall t w, SD w ∈ sp t -> SP w ∈ sp t ->
    (val w = Some 0 /\ exists c, w ∈ wq c) \/ (val w = Some 1 /\ forall c, w ∉ wq c);
  w_wq : forall c w, w ∈ wq c -> exists t, SD w ∈ sp t /\ SP w ∈ sp t }.

Lemma winv_ext sp val wq lsem sp' val' wq' lsem' :
  (forall t, sp' t = sp t) -> (forall s, val' s = val s) -> (forall c, wq' c = wq c) ->
  (forall l, lsem' l = lsem l) -> winv sp val wq lsem -> winv sp' val' wq' lsem'.
Proof.
  intros E1 E2 E3 E4 [W1 W2 W3 W4 W5 W6 W7 W8]. split.
  - intros t o. rewrite E1, E2. apply W1.
  - intros l s. rewrite E2, E4. apply W2.
  - intros s. rewrite E2. apply W3.
  - intros c. rewrite E3. apply W4.
  - intros c c' w. rewrite !E3. apply W5.
  - intros t w. rewrite E1. intros H. destruct (W6 t w H) as (A & B & C & D). split_and!; try done.
    + intros t' o. rewrite E1. apply A.
    + intros l. rewrite E4. apply B.
  - intros t w. rewrite E1, E2. intros HD HP. destruct (W7 t w HD HP) as [[A [c B]]|[A B]]; [left|right].
    + split; [done|]. exists c. by rewrite E3.
    + split; [done|]. intros c. by rewrite E3.
  - intros c w. rewrite E3. intros H. destruct (W8 c w H) as [t Ht]. exists t. by rewrite E1.
Qed.

(** What [waits_or_done] says about the next operation. *)
Lemma waits_take s w r : waits_or_done w (SP s :: r) -> SD w ∈ SP s :: r ->
  waits_or_done w r /\ (s = w -> ops_on w r = [SD w]).
Proof.
  unfold waits_or_done. rewrite ops_on_cons. cbn [sname]. case_decide as E; [|by intros H; split; [|done]].
  intros [[= H]|[=]] _. rewrite H. auto.
Qed.

Lemma waits_V s w r : waits_or_done w (SV s :: r) -> s <> w.
Proof. unfold waits_or_done. rewrite ops_on_cons. cbn [sname]. case_decide; [naive_solver|done]. Qed.

Lemma waits_D w r : waits_or_done w (SD w :: r) -> ops_on w r = [].
Proof. unfold waits_or_done. rewrite ops_on_cons. cbn [sname]. rewrite decide_True by done. naive_solver. Qed.

Section steps.
Context (sp sp' : tptr -> list sop) (val val' : Z -> option Z) (wq : Z -> list Z) (lsem : Z -> option Z).
Context (W : winv sp val wq lsem) (c : tptr).

(** Two threads never wait on the same private semaphore. *)
Lemma owner_unique t t' w : SD w ∈ sp t -> SD w ∈ sp t' -> t = t'.
Proof.
  intros H H'. destruct (decide (t = t')); [done|]. exfalso.
  destruct (w_own _ _ _ _ W t w H) as [A _]. by apply (A t' (SD w)).
Qed.

(** [P] passes. *)
Lemma winv_take s r v :
  sp c = SP s :: r -> val s = Some v -> 0 < v ->
  (forall t, sp' t = if decide (t = c) then r else sp t) ->
  (forall x, val' x = if decide (x = s) then Some (v - 1) else val x) ->
  winv sp' val' wq lsem.
Proof using W.
  intros Ec Ev Hv Esp Ev'. pose proof W as [W1 W2 W3 W4 W5 W6 W7 W8].
  assert (Hsub : forall t o, o ∈ sp' t -> o ∈ sp t).
  { intros t o. rewrite Esp. case_decide as E; [|done]. subst. rewrite Ec. by right. }
  assert (Hval : forall x, is_Some (val x) -> is_Some (val' x)).
  { intros x. rewrite Ev'. case_decide; [by eexists|done]. }
  assert (Hne : forall t w, SD w ∈ sp' t -> SP w ∈ sp' t -> w <> s).
  { intros t w HD HP ->. destruct (W6 t s (Hsub _ _ HD)) as (A & _ & _ & D).
    rewrite Esp in HD, HP. case_decide as E.
    - subst. rewrite Ec in D. destruct (waits_take s s r D) as [_ D']; [by right|].
      apply (ops_on_in s) in HP; [|done]. rewrite (D' eq_refl) in HP. apply list_elem_of_singleton in HP. done.
    - apply (A c (SP s)); [done|rewrite Ec; left|done]. }
  split; try done.
  - intros t o Ho. eapply Hval, W1, Hsub, Ho.
  - intros l x Hl. eapply Hval, W2, Hl.
  - intros x Hx. by apply Hval, W3.
  - intros t w HD. destruct (W6 t w (Hsub _ _ HD)) as (A & B & C & D). split_and!; try done.
    + intros t' o Ht Ho. apply (A t' o Ht), Hsub, Ho.
    + rewrite Esp. case_decide as E; [|done]. subst. rewrite Ec in D.
      destruct (waits_take s w r D) as [D' _]; [|done]. rewrite <- Ec. by apply Hsub.
  - intros t w HD HP. pose proof (Hne t w HD HP). rewrite Ev', decide_False by done.
    by apply (W7 t w); apply Hsub.
  - intros x w Hw. destruct (W8 x w Hw) as (t & HD & HP). exists t. rewrite Esp.
    case_decide as E; [|done]. subst. pose proof HP as HP'. rewrite Ec in HD, HP.
    apply elem_of_cons in HD as [?|HD]; [done|]. split; [done|].
    apply elem_of_cons in HP as [[= ->]|HP]; [|done]. exfalso.
    destruct (W7 c s ltac:(rewrite Ec; by right) HP') as [[E _]|[_ E]]; [|by apply (E x)]. rewrite Ev in E. naive_solver lia.
Qed.

(** A [V] that is not [Signal]'s: [r] is what remains of the program of [c]. *)
Lemma winv_V s v r :
  (sp c = SV s :: r) \/ (sp c = r /\ s ∈ irq) -> val s = Some v ->
  (forall t, sp' t = if decide (t = c) then r else sp t) ->
  (forall x, val' x = if decide (x = s) then Some (v + 1) else val x) ->
  winv sp' val' wq lsem.
Proof using W.
  intros Ec Ev Esp Ev'. pose proof W as [W1 W2 W3 W4 W5 W6 W7 W8].
  assert (Hsub : forall t o, o ∈ sp' t -> o ∈ sp t).
  { intros t o. rewrite Esp. case_decide as E; [|done]. subst.
    destruct Ec as [-> | [-> _]]; [by right|done]. }
  assert (Hval : forall x, is_Some (val x) -> is_Some (val' x)).
  { intros x. rewrite Ev'. case_decide; [by eexists|done]. }
  assert (Hne : forall t w, SD w ∈ sp t -> w <> s).
  { intros t w HD ->. destruct (W6 t s HD) as (A & _ & C & D). destruct Ec as [Ec|[_ Hi]]; [|done].
    destruct (decide (t = c)) as [->|Hn].
    - rewrite Ec in D. by apply waits_V in D.
    - apply (A c (SV s)); [done|rewrite Ec; left|done]. }
  assert (Hin : forall t o, (forall x, o <> SV x) -> o ∈ sp t -> o ∈ sp' t).
  { intros t o Ho Hin. rewrite Esp. case_decide as E; [|done]. subst.
    destruct Ec as [E|[E _]]; rewrite E in Hin; [|done].
    apply elem_of_cons in Hin as [->|?]; [|done]. by destruct (Ho s). }
  split; try done.
  - intros t o Ho. eapply Hval, W1, Hsub, Ho.
  - intros l x Hl. eapply Hval, W2, Hl.
  - intros x Hx. by apply Hval, W3.
  - intros t w HD. apply Hsub in HD. pose proof (Hne t w HD). destruct (W6 t w HD) as (A & B & C & D). split_and!; try done.
    + intros t' o Ht Ho. apply (A t' o Ht), Hsub, Ho.
    + rewrite Esp. case_decide as E; [|done]. subst.
      destruct Ec as [E|[E _]]; rewrite E in D; [|done]. unfold waits_or_done in D |- *.
      rewrite ops_on_cons, decide_False in D by done. done.
  - intros t w HD HP. apply Hsub in HD, HP. rewrite Ev', decide_False by (by eapply Hne). by apply (W7 t w).
  - intros x w Hw. destruct (W8 x w Hw) as (t & HD & HP). exists t. split; by apply Hin.
Qed.

(** The end of [Wait]: its private semaphore is deleted. *)
Lemma winv_delete w0 r :
  sp c = SD w0 :: r ->
  (forall t, sp' t = if decide (t = c) then r else sp t) ->
  (forall x, val' x = if decide (x = w0) then None else val x) ->
  winv sp' val' wq lsem.
Proof using W.
  intros Ec Esp Ev'. pose proof W as [W1 W2 W3 W4 W5 W6 W7 W8].
  destruct (W6 c w0 ltac:(rewrite Ec; left)) as (A0 & B0 & C0 & D0). rewrite Ec in D0. apply waits_D in D0.
  assert (Hsub : forall t o, o ∈ sp' t -> o ∈ sp t).
  { intros t o. rewrite Esp. case_decide as E; [|done]. subst. rewrite Ec. by right. }
  assert (Hno : forall t o, o ∈ sp' t -> sname o <> w0).
  { intros t o Ho En. pose proof (Hsub t o Ho) as Ho'. rewrite Esp in Ho. case_decide as E; [|by apply (A0 t o)].
    apply (ops_on_in w0) in Ho; [|done]. rewrite D0 in Ho. by apply not_elem_of_nil in Ho. }
  assert (Hq : forall x, w0 ∉ wq x).
  { intros x Hx. destruct (W8 x w0 Hx) as (t & HD & HP).
    assert (t = c) as -> by (eapply owner_unique; [exact HD|rewrite Ec; left]).
    rewrite Ec in HP. apply elem_of_cons in HP as [?|HP]; [done|].
    apply (ops_on_in w0) in HP; [|done]. rewrite D0 in HP. by apply not_elem_of_nil in HP. }
  split; try done.
  - intros t o Ho. rewrite Ev', decide_False by (by eapply Hno). by eapply W1, Hsub.
  - intros l x Hl. rewrite Ev', decide_False by (intros ->; by apply (B0 l)). by eapply W2.
  - intros x Hx. rewrite Ev', decide_False by (by intros ->). by apply W3.
  - intros t w HD. pose proof (Hno t _ HD) as Hn. cbn in Hn.
    destruct (W6 t w (Hsub _ _ HD)) as (A & B & C & D). split_and!; try done.
    + intros t' o Ht Ho. apply (A t' o Ht), Hsub, Ho.
    + rewrite Esp. case_decide as E; [|done]. subst. rewrite Ec in D. unfold waits_or_done in D |- *.
      rewrite ops_on_cons, decide_False in D by (cbn; congruence). done.
  - intros t w HD HP. pose proof (Hno t _ HD) as Hn. cbn in Hn. rewrite Ev', decide_False by done.
    by apply (W7 t w); apply Hsub.
  - intros x w Hw. destruct (W8 x w Hw) as (t & HD & HP). exists t.
    assert (w <> w0) by (intros ->; by apply (Hq x)).
    rewrite Esp. case_decide as E; [|done]. subst. rewrite Ec in HD, HP.
    apply elem_of_cons in HD as [?|HD], HP as [?|HP]; naive_solver.
Qed.

(** The start of [Wait]: a new semaphore is queued on the condition [x]. *)
Lemma winv_wait wq' x w0 l sl :
  val w0 = None -> lsem l = Some sl ->
  (forall t, sp' t = if decide (t = c) then SV sl :: SP w0 :: SP sl :: SD w0 :: sp c else sp t) ->
  (forall y, val' y = if decide (y = w0) then Some 0 else val y) ->
  (forall y, wq' y = if decide (y = x) then wq x ++ [w0] else wq y) ->
  winv sp' val' wq' lsem.
Proof using W.
  intros Ew El Esp Ev' Eq. pose proof W as [W1 W2 W3 W4 W5 W6 W7 W8].
  assert (Hno : forall t o, o ∈ sp t -> sname o <> w0).
  { intros t o Ho E. destruct (W1 t o Ho) as [v Ev]. congruence. }
  assert (Hnq : forall y, w0 ∉ wq y).
  { intros y Hy. destruct (W8 y w0 Hy) as (t & HD & _). by apply Hno in HD. }
  assert (Hsl : is_Some (val sl)) by (by eapply W2). assert (sl <> w0) by (intros ->; destruct Hsl; congruence).
  assert (Hval : forall y, is_Some (val y) -> is_Some (val' y)).
  { intros y. rewrite Ev'. case_decide; [by eexists|done]. }
  assert (Hin : forall t o, o ∈ sp t -> o ∈ sp' t).
  { intros t o Ho. rewrite Esp. case_decide as E; [|done]. subst. by do 4 right. }
  assert (Hq : forall y w, w ∈ wq' y <-> w ∈ wq y \/ (y = x /\ w = w0)).
  { intros y w. rewrite Eq. case_decide as E; [subst; rewrite elem_of_app, list_elem_of_singleton|]; naive_solver. }
  assert (Hsp : forall t o, o ∈ sp' t -> o ∈ sp t \/ (t = c /\ (o = SV sl \/ o = SP w0 \/ o = SP sl \/ o = SD w0))).
  { intros t o. rewrite Esp. case_decide as E; [|by left]. subst. rewrite !elem_of_cons. naive_solver. }
  assert (HD0 : forall t w, SD w ∈ sp' t -> (w <> w0 /\ SD w ∈ sp t) \/ (w = w0 /\ t = c)).
  { intros t w HD. destruct (Hsp t _ HD) as [HD'|[-> [?|[?|[?|[= ->]]]]]]; try done; [|by right].
    left. split; [exact (Hno _ _ HD')|done]. }
  split.
  - intros t o Ho. destruct (Hsp t o Ho) as [Ho'|[_ [-> | [-> | [-> | ->]]]]]; cbn [sname];
      [by eapply Hval, W1|by apply Hval|rewrite Ev', decide_True by done; by eexists|by apply Hval|
       rewrite Ev', decide_True by done; by eexists].
  - intros l' s Hl. by eapply Hval, W2.
  - intros s Hs. by apply Hval, W3.
  - intros y. rewrite Eq. case_decide; [|done]. apply NoDup_app. split_and!; [done| |by apply NoDup_singleton].
    intros w Hw ->%list_elem_of_singleton. by apply (Hnq x).
  - intros y y' w. rewrite !Hq. intros [H1|[E1 F1]] [H2|[E2 F2]]; subst; try done;
      [by eapply W5|by apply Hnq in H1|by apply Hnq in H2].
  - intros t w HD. destruct (HD0 t w HD) as [[Hw HD']|[-> ->]].
    + destruct (W6 t w HD') as (A & B & C & D). split_and!; try done.
      * intros t' o Ht Ho. destruct (Hsp t' o Ho) as [Ho'|[-> [-> | [-> | [-> | ->]]]]]; cbn [sname]; try done;
          [by eapply A|by intros ->; apply (B l)|by intros ->; apply (B l)].
      * rewrite Esp. case_decide as E; [|done]. subst. unfold waits_or_done.
        assert (sl <> w) by (by intros ->; apply (B l)).
        rewrite !ops_on_cons, !decide_False by (cbn; congruence). done.
    + split_and!.
      * intros t' o Ht Ho. destruct (Hsp t' o Ho) as [Ho'|[-> _]]; [by apply (Hno t')|done].
      * intros l' E. destruct (W2 l' w0 E). congruence.
      * intros Hi. destruct (W3 w0 Hi). congruence.
      * rewrite Esp, decide_True by done. left. rewrite !ops_on_cons. cbn [sname].
        destruct (decide (sl = w0)); [done|]. destruct (decide (w0 = w0)); [|done].
        rewrite ops_on_nil; [done|]. apply Hno.
  - intros t w HD HP. rewrite Ev'. destruct (HD0 t w HD) as [[Hw HD']|[-> ->]].
    + rewrite decide_False by done. destruct (Hsp t _ HP) as [HP'|[-> [?|[[= ?]|[[= ->]|?]]]]]; try done.
      * destruct (W7 t w HD' HP') as [[E [y Hy]]|[E Hy]]; [left|right]; (split; [done|]).
        -- exists y. apply Hq. by left.
        -- intros y. rewrite Hq. naive_solver.
      * exfalso. destruct (W6 c sl HD') as (_ & B & _). by apply (B l).
    + left. rewrite decide_True by done. split; [done|]. exists x. apply Hq. by right.
  - intros y w Hw. apply Hq in Hw as [Hw|[-> ->]].
    + destruct (W8 y w Hw) as (t & HD & HP). exists t. split; by apply Hin.
    + exists c. rewrite Esp, decide_True by done. split; [do 3 right; left|right; left].
Qed.

(** [Signal]: the first waiter of the condition [x] is taken off and signalled. *)
Lemma winv_signal wq' x w0 q v :
  wq x = w0 :: q -> val w0 = Some v ->
  (forall t, sp' t = sp t) ->
  (forall y, val' y = if decide (y = w0) then Some (v + 1) else val y) ->
  (forall y, wq' y = if decide (y = x) then q else wq y) ->
  winv sp' val' wq' lsem.
Proof using W.
  intros Ex Ev Esp Ev' Eq. pose proof W as [W1 W2 W3 W4 W5 W6 W7 W8].
  assert (Hx : w0 ∈ wq x) by (rewrite Ex; left).
  pose proof (W4 x) as HN. rewrite Ex in HN. apply NoDup_cons in HN as [Hq0 HN].
  destruct (W8 x w0 Hx) as (t0 & HD0 & HP0).
  assert (v = 0) as ->.
  { destruct (W7 t0 w0 HD0 HP0) as [[E _]|[_ E]]; [congruence|by apply E in Hx]. }
  assert (Hsub : forall y w, w ∈ wq' y -> w ∈ wq y).
  { intros y w. rewrite Eq. case_decide as E; [|done]. subst. rewrite Ex. by right. }
  assert (Hno : forall y, w0 ∉ wq' y).
  { intros y Hy. pose proof (W5 y x w0 (Hsub _ _ Hy) Hx) as ->. rewrite Eq, decide_True in Hy by done. done. }
  assert (Hval : forall y, is_Some (val y) -> is_Some (val' y)).
  { intros y. rewrite Ev'. case_decide; [by eexists|done]. }
  split.
  - intros t o. rewrite Esp. intros Ho. by eapply Hval, W1.
  - intros l s Hl. by eapply Hval, W2.
  - intros s Hs. by apply Hval, W3.
  - intros y. rewrite Eq. case_decide; done.
  - intros y y' w H1%Hsub H2%Hsub. by eapply W5.
  - intros t w. rewrite Esp. intros HD. destruct (W6 t w HD) as (A & B & C & D). split_and!; try done.
    intros t' o. rewrite Esp. apply A.
  - intros t w. rewrite !Esp, Ev'. intros HD HP. case_decide as E; [subst; right; split; [done|apply Hno]|].
    destruct (W7 t w HD HP) as [[Hv [y Hy]]|[Hv Hy]]; [left|right]; (split; [done|]).
    + exists y. rewrite Eq. case_decide as E'; [|done]. subst. rewrite Ex in Hy.
      apply elem_of_cons in Hy as [?|?]; done.
    + intros y Hn. by apply (Hy y), Hsub.
  - intros y w Hw. destruct (W8 y w (Hsub _ _ Hw)) as (t & HD & HP). exists t. by rewrite Esp.
Qed.

End steps.
End waiters.

(** ** The objects as [winv] sees them *)

Definition sp (d : Objs) (t : tptr) : list sop := sops (prog d t).
Definition val (d : Objs) (s : Z) : option Z := value <$> sems d !! s.
Definition wq (d : Objs) (c : Z) : list Z := default [] (waitQueue <$> conds d !! c).
Definition lsem (d : Objs) (l : Z) : option Z := semaphore <$> locks d !! l.

Definition waiters_ok (irq : gset Z) (d : Objs) : Prop := winv irq (sp d) (val d) (wq d) (lsem d).

Lemma prog_set d c ops t : prog (set_prog d c ops) t = if decide (t = c) then ops else prog d t.
Proof.
  unfold prog, set_prog. cbn. case_decide as E; [subst; by rewrite lookup_insert_eq|].
  by rewrite lookup_insert_ne by done.
Qed.

Lemma sp_set d c ops t : sp (set_prog d c ops) t = if decide (t = c) then sops ops else sp d t.
Proof. unfold sp. rewrite prog_set. by case_decide. Qed.

Lemma val_set d s sm x : val (set_sem d s sm) x = if decide (x = s) then Some (value sm) else val d x.
Proof.
  unfold val, set_sem. cbn. case_decide as E; [subst; by rewrite lookup_insert_eq|].
  by rewrite lookup_insert_ne by done.
Qed.

Lemma wq_set d c cd x : wq (set_cond d c cd) x = if decide (x = c) then waitQueue cd else wq d x.
Proof.
  unfold wq, set_cond. cbn. case_decide as E; [subst; by rewrite lookup_insert_eq|].
  by rewrite lookup_insert_ne by done.
Qed.

Lemma lsem_set d l lk lk' x :
  locks d !! l = Some lk -> semaphore lk' = semaphore lk -> lsem (set_lock d l lk') x = lsem d x.
Proof.
  intros E E'. unfold lsem, set_lock. cbn. destruct (decide (x = l)) as [->|].
  - rewrite lookup_insert_eq, E. cbn. by f_equal.
  - by rewrite lookup_insert_ne by done.
Qed.

Lemma sp_same d c l t : sp d c = l -> (if decide (t = c) then l else sp d t) = sp d t.
Proof. intros <-. by case_decide; subst. Qed.

Lemma sp_eq d t ops : prog d t = ops -> sp d t = sops ops.
Proof. unfold sp. by intros ->. Qed.

(** Steps that change neither values nor wait queues nor semaphore operations. *)
Lemma waiters_keep irq d d' :
  (forall t, sp d' t = sp d t) -> (forall s, val d' s = val d s) -> (forall c, wq d' c = wq d c) ->
  (forall l, lsem d' l = lsem d l) -> waiters_ok irq d -> waiters_ok irq d'.
Proof. apply winv_ext. Qed.

Lemma signals_sops o c l rest ops : signals o c l rest ops -> sops ops = sops (o :: rest).
Proof. by intros [[-> ->]|[-> ->]]. Qed.

Lemma silent_sops t d o rest ops a : silent t d o rest ops a -> sops ops = sops (o :: rest).
Proof. by destruct 1. Qed.

(** [V] by the running thread or by an interrupt handler. *)
Lemma waiters_vstep irq d s d1 o t r :
  waiters_ok irq d -> vstep d s d1 o ->
  sp d t = SV s :: sops r \/ (sp d t = sops r /\ s ∈ irq) -> waiters_ok irq (set_prog d1 t r).
Proof.
  intros W (sm & Es & _ & ->) Ep. unfold waiters_ok.
  eapply (winv_ext irq (fun x => if decide (x = t) then sops r else sp d x)
    (fun x => if decide (x = s) then Some (value sm + 1) else val d x) (wq d) (lsem d)); try done.
  - intros x. by rewrite sp_set.
  - intros x. unfold val. cbn. destruct (decide (x = s)) as [->|]; [by rewrite lookup_insert_eq|].
    by rewrite lookup_insert_ne by done.
  - eapply (winv_V irq (sp d) _ (val d) _ _ _ W t s); try done. unfold val. by rewrite Es.
Qed.

Lemma waiters_signal irq d c cd w q s d1 o t ops :
  waiters_ok irq d -> conds d !! c = Some cd -> waitQueue cd = w :: q -> s = w ->
  vstep (set_cond d c (mkCond (barrierNum cd) q)) s d1 o -> sp d t = sops ops ->
  waiters_ok irq (set_prog d1 t ops).
Proof.
  intros W Ec Eq -> (sm & Es & _ & ->) Ep. cbn [sems set_cond] in Es. unfold waiters_ok.
  eapply (winv_ext irq (sp d) (fun x => if decide (x = w) then Some (value sm + 1) else val d x)
    (fun x => if decide (x = c) then q else wq d x) (lsem d)); try done.
  - intros x. rewrite sp_set. by apply (sp_same d).
  - intros x. unfold val. cbn. destruct (decide (x = w)) as [->|]; [by rewrite lookup_insert_eq|].
    by rewrite lookup_insert_ne by done.
  - intros x. unfold wq. cbn. destruct (decide (x = c)) as [->|]; [by rewrite lookup_insert_eq|].
    by rewrite lookup_insert_ne by done.
  - eapply (winv_signal irq (sp d) _ (val d) _ _ _ W _ c w q); try done; unfold wq, val.
    + by rewrite Ec.
    + by rewrite Es.
Qed.

Lemma waiters_dstep irq t d d' a : waiters_ok irq d -> dstep t d d' a -> waiters_ok irq d'.
Proof.
  intros W S. destruct S as [Ep|s rest sm Ep Es Hv|s rest sm Ep Es Hv Hq|s rest d1 o Ep Hv|l rest lk Ep El
    |l rest lk Ep El Hh|c l rest lk cd w Ep El Hh Ec -> Hw|s rest sm Ep Es|o c l rest ops lk cd w q d1 r Ep Ho El Hh Ec Eq Hv
    |c l rest cd o Ep Ec ->|L x rest sl Ep El Hx|L rest sl x its Ep El Ei|o rest ops a Ep Hs]; apply sp_eq in Ep.
  - done.
  - eapply (winv_take irq (sp d) _ (val d) _ (wq d) (lsem d) W t s (sops rest) (value sm)); try done.
    + unfold val. by rewrite Es.
    + intros x. by rewrite sp_set.
    + intros x. exact (val_set d s (mkSem (value sm - 1) (queue sm)) x).
  - apply (waiters_keep irq d); [done| |done..|done]. intros x. rewrite val_set. case_decide; [|done].
    subst. unfold val. rewrite Es. cbn. by rewrite Hv.
  - eapply waiters_vstep; [done..|]. by left.
  - apply (waiters_keep irq d); [|done|done| |done].
    + intros x. rewrite sp_set. by apply (sp_same d).
    + intros x. by apply (lsem_set d l lk).
  - apply (waiters_keep irq d); [|done|done| |done].
    + intros x. rewrite sp_set. by apply (sp_same d).
    + intros x. by apply (lsem_set d l lk).
  - eapply (winv_wait irq (sp d) _ (val d) _ (wq d) (lsem d) W t _ c (fresh_sem (sems d)) l (semaphore lk)).
    + unfold val. by rewrite fresh_sem_None.
    + unfold lsem. by rewrite El.
    + intros x. rewrite sp_set, Ep. done.
    + intros x. exact (val_set d _ (mkSem 0 []) x).
    + intros x. assert (waitQueue cd = wq d c) as -> by (unfold wq; by rewrite Ec).
      exact (wq_set _ c (mkCond (barrierNum cd) (wq d c ++ [fresh_sem (sems d)])) x).
  - eapply (winv_delete irq (sp d) _ (val d) _ (wq d) (lsem d) W t s (sops rest)); try done.
    + intros x. by rewrite sp_set.
    + intros x. unfold val. cbn. case_decide; [subst; by rewrite lookup_delete_eq|].
      by rewrite lookup_delete_ne by done.
  - eapply waiters_signal; try done. rewrite Ep. symmetry. by eapply signals_sops.
  - apply (waiters_keep irq d); [|done| |done|done].
    + intros x. rewrite sp_set. apply (sp_same d). rewrite Ep. by case_bool_decide.
    + intros x. transitivity (wq (set_cond d c (mkCond (barrierNum cd + 1) (waitQueue cd))) x); [done|].
      rewrite wq_set. case_decide; [|done]. subst. unfold wq. by rewrite Ec.
  - apply (waiters_keep irq d); [|done..]. intros y. rewrite sp_set. by apply (sp_same d).
  - apply (waiters_keep irq d); [|done..]. intros y. rewrite sp_set. by apply (sp_same d).
  - apply (waiters_keep irq d); [|done..]. intros x. rewrite sp_set. apply (sp_same d). rewrite Ep. symmetry. by eapply silent_sops.
Qed.

(** ** Locks *)

(** Where a thread is with respect to a lock: outside; past the [P] of
    [Acquire]; holding the lock; before the [V] of [Release]. *)
Inductive phase : Type := Out | Mid | In | Rel.

#[global] Instance phase_eq_dec : EqDecision phase.
Proof. solve_decision. Defined.

Definition move (mine : bool) (from to ph : phase) : option phase :=
  if mine then if decide (ph = from) then Some to else None else Some ph.

Section lock.
(** the lock, its semaphore, and the locks of the synchronised lists *)
Context (l sl : Z) (ll : Z -> option Z).

(** How a step of a thread moves it, [None] when the step breaks the rules: the
    lock is acquired outside it and released inside it, and conditions and lists
    are used inside their lock. *)
Definition next (ph : phase) (o : op) : option phase :=
  match o with
  | OpP s => move (bool_decide (s = sl)) Out Mid ph
  | OpV s => move (bool_decide (s = sl)) Rel Out ph
  | OpDelete s => if bool_decide (s = sl) then None else Some ph
  | OpSetHolder l' => move (bool_decide (l' = l)) Mid In ph
  | OpClearHolder l' => move (bool_decide (l' = l)) In Rel ph
  | OpWait _ l' | OpSignal _ l' | OpBroadcast _ l' | OpBarrier _ l' =>
      move (bool_decide (l' = l)) In In ph
  | OpListAppend L _ | OpWhileEmpty L | OpTake L => move (bool_decide (ll L = Some l)) In In ph
  | OpYield => Some ph
  end.

(** A program that follows the rules and ends outside the lock. *)
Fixpoint accepts (ph : phase) (ops : list op) : bool :=
  match ops with
  | [] => bool_decide (ph = Out)
  | o :: rest => match next ph o with Some ph' => accepts ph' rest | None => false end
  end.

(** The phase is determined by what remains to be done. *)
Definition phase_of (ops : list op) : phase :=
  if accepts Out ops then Out else if accepts Mid ops then Mid else if accepts In ops then In else Rel.

Lemma move_inj m a b p1 p2 q : move m a b p1 = Some q -> move m a b p2 = Some q -> p1 = p2.
Proof. unfold move. destruct m; [|congruence]. do 2 case_decide; congruence. Qed.

Lemma next_inj o p1 p2 q : next p1 o = Some q -> next p2 o = Some q -> p1 = p2.
Proof.
  destruct o; cbn; try apply move_inj; [|congruence].
  case_bool_decide; congruence.
Qed.

Lemma accepts_inj ops p1 p2 : accepts p1 ops = true -> accepts p2 ops = true -> p1 = p2.
Proof.
  revert p1 p2. induction ops as [|o ops IH]; intros p1 p2; cbn [accepts].
  - rewrite !bool_decide_eq_true. congruence.
  - destruct (next p1 o) as [q1|] eqn:E1; [|done]. destruct (next p2 o) as [q2|] eqn:E2; [|done].
    intros H1 H2. assert (q1 = q2) as -> by (by apply IH). by eapply next_inj.
Qed.

Lemma phase_of_accepts ops p : accepts p ops = true -> phase_of ops = p.
Proof.
  intros H. unfold phase_of.
  destruct (accepts Out ops) eqn:E0; [by eapply accepts_inj|].
  destruct (accepts Mid ops) eqn:E1; [by eapply accepts_inj|].
  destruct (accepts In ops) eqn:E2; [by eapply accepts_inj|]. destruct p; congruence.
Qed.

End lock.

Lemma accepts_ext l sl ll ll' ph ops :
  (forall L, ll' L = ll L) -> accepts l sl ll' ph ops = accepts l sl ll ph ops.
Proof.
  intros E. revert ph. induction ops as [|o ops IH]; intros ph; cbn [accepts]; [done|].
  assert (next l sl ll' ph o = next l sl ll ph o) as ->.
  { destruct o; cbn; try done; by rewrite E. }
  by destruct (next l sl ll ph o).
Qed.

(** The semaphore has value [v], the holder is [h], and the threads are at [ph]. *)
Definition lstate (ph : tptr -> phase) (v : Z) (h : option tptr) : Prop :=
  ((v = 1 /\ forall t, ph t = Out) \/
   (v = 0 /\ exists t0, ph t0 <> Out /\ forall t, t <> t0 -> ph t = Out)) /\
  (forall t, h = Some t <-> ph t = In).

Definition upd (ph : tptr -> phase) (c : tptr) (p : phase) : tptr -> phase :=
  fun t => if decide (t = c) then p else ph t.

Lemma upd_eq ph c p : upd ph c p c = p.
Proof. unfold upd. by rewrite decide_True. Qed.

Lemma upd_ne ph c p t : t <> c -> upd ph c p t = ph t.
Proof. intros. unfold upd. by rewrite decide_False. Qed.

Lemma lstate_same ph v h c p : ph c = p -> lstate ph v h -> lstate (upd ph c p) v h.
Proof.
  intros E. assert (H : forall t, upd ph c p t = ph t).
  { intros t. unfold upd. case_decide; by subst. }
  unfold lstate. intros [A B]. split; [|intros t; by rewrite H].
  destruct A as [[A1 A2]|(A1 & t0 & A2 & A3)]; [left|right]; (split; [done|]).
  - intros t. by rewrite H.
  - exists t0. rewrite H. split; [done|]. intros t. rewrite H. apply A3.
Qed.

(** Whoever is not outside the lock is the only one. *)
Lemma lstate_only ph v h c : lstate ph v h -> ph c <> Out ->
  v = 0 /\ forall t, t <> c -> ph t = Out.
Proof.
  intros [[[_ A]|(-> & t0 & _ & A)] _] Hc; [by rewrite A in Hc|]. split; [done|].
  intros t Ht. apply A. intros ->. apply Hc, A. done.
Qed.

Lemma lstate_take ph v h c : lstate ph v h -> ph c = Out -> 0 < v -> lstate (upd ph c Mid) (v - 1) h.
Proof.
  intros [[[-> A]|[-> _]] B] Hc Hv; [|lia]. split.
  - right. split; [done|]. exists c. rewrite upd_eq. split; [done|]. intros t Ht. by rewrite upd_ne.
  - intros t. rewrite B. destruct (decide (t = c)) as [->|]; [rewrite upd_eq, Hc|rewrite upd_ne by done]; naive_solver.
Qed.

Lemma lstate_V ph v h c : lstate ph v h -> ph c = Rel -> lstate (upd ph c Out) (v + 1) h.
Proof.
  intros L Hc. destruct (lstate_only _ _ _ c L) as [-> A]; [congruence|]. destruct L as [_ B]. split.
  - left. split; [done|]. intros t. destruct (decide (t = c)) as [->|]; [by rewrite upd_eq|].
    rewrite upd_ne by done. by apply A.
  - intros t. rewrite B. destruct (decide (t = c)) as [->|]; [rewrite upd_eq, Hc|rewrite upd_ne by done]; naive_solver.
Qed.

(** Assigning [lockHolder] inside the lock. *)
Lemma lstate_holder ph v h c p h' :
  lstate ph v h -> ph c <> Out -> p <> Out -> (forall t, h' = Some t <-> t = c /\ p = In) ->
  lstate (upd ph c p) v h'.
Proof.
  intros L Hc Hp Hh. destruct (lstate_only _ _ _ c L Hc) as [-> A]. split.
  - right. split; [done|]. exists c. rewrite upd_eq. split; [done|]. intros t Ht.
    rewrite upd_ne by done. by apply A.
  - intros t. rewrite Hh. destruct (decide (t = c)) as [->|Ht]; [rewrite upd_eq; tauto|].
    rewrite upd_ne, A by done. naive_solver.
Qed.

Definition llock (d : Objs) (L : Z) : option Z := lock <$> lists d !! L.

Definition lock_ok (d : Objs) (l : Z) (lk : Lock) : Prop :=
  exists ph v, (forall t, accepts l (semaphore lk) (llock d) (ph t) (prog d t) = true) /\
    val d (semaphore lk) = Some v /\ lstate ph v (lockHolder lk).

Record locks_ok (irq : gset Z) (d : Objs) : Prop := mkLocksOk {
  lk_ok : forall l lk, locks d !! l = Some lk -> lock_ok d l lk;
  lk_inj : forall l l' s, lsem d l = Some s -> lsem d l' = Some s -> l = l';
  lk_irq : forall l s, lsem d l = Some s -> s ∉ irq }.

(** A step of [c]: its program becomes [ops]. *)
Lemma lock_step d d' c l lk lk' ops :
  lock_ok d l lk -> semaphore lk' = semaphore lk -> (forall L, llock d' L = llock d L) ->
  (forall t, prog d' t = if decide (t = c) then ops else prog d t) ->
  (forall ph v, accepts l (semaphore lk) (llock d) ph (prog d c) = true -> val d (semaphore lk) = Some v ->
     exists ph' v', accepts l (semaphore lk) (llock d) ph' ops = true /\ val d' (semaphore lk) = Some v' /\
       forall phs, phs c = ph -> lstate phs v (lockHolder lk) ->
         lstate (upd phs c ph') v' (lockHolder lk')) ->
  lock_ok d' l lk'.
Proof.
  intros (phs & v & HA & Hv & HL) Es Ell Ep H.
  destruct (H (phs c) v (HA c) Hv) as (ph' & v' & HA' & Hv' & HL').
  exists (upd phs c ph'), v'. rewrite Es. split_and!; [|done|by apply HL'].
  intros t. rewrite (accepts_ext _ _ (llock d)), Ep by done. unfold upd. case_decide; [done|apply HA].
Qed.

(** A step of [c] after which it is in the same phase, the lock untouched. *)
Lemma lock_keep d d' c l lk ops :
  lock_ok d l lk -> (forall L, llock d' L = llock d L) ->
  (forall t, prog d' t = if decide (t = c) then ops else prog d t) ->
  val d' (semaphore lk) = val d (semaphore lk) ->
  (forall ph, accepts l (semaphore lk) (llock d) ph (prog d c) = true ->
     accepts l (semaphore lk) (llock d) ph ops = true) ->
  lock_ok d' l lk.
Proof.
  intros HL Ell Ep Ev H. eapply lock_step; try done. intros ph v HA Hv. exists ph, v.
  split_and!; [by apply H|congruence|]. intros phs Hc. by apply lstate_same.
Qed.

(** The first step of an accepted program. *)
Lemma accepts_cons l sl ll ph o rest :
  accepts l sl ll ph (o :: rest) = true -> exists ph', next l sl ll ph o = Some ph' /\ accepts l sl ll ph' rest = true.
Proof. cbn. destruct (next l sl ll ph o) as [ph'|]; [|done]. by exists ph'. Qed.

Lemma move_Some m a b ph ph' : move m a b ph = Some ph' -> if m then ph = a /\ ph' = b else ph' = ph.
Proof. unfold move. destruct m; [case_decide|]; naive_solver. Qed.

Lemma accepts_silent t d o rest ops a l sl ph :
  silent t d o rest ops a -> accepts l sl (llock d) ph (o :: rest) = true ->
  accepts l sl (llock d) ph ops = true.
Proof.
  intros HS H. pose proof H as H0. apply accepts_cons in H as (ph' & Hn & H).
  assert (Hsame : ph' = ph).
  { destruct HS; cbn in Hn; try (apply move_Some in Hn; destruct (bool_decide _)); naive_solver. }
  subst ph'. destruct HS as [| |L sx rest EL Ei| |]; try done.
  cbn in Hn. unfold llock in Hn. rewrite EL in Hn. cbn [fmap option_fmap option_map] in Hn.
  cbn [accepts next]. rewrite (bool_decide_ext _ (Some (lock sx) = Some l)) by naive_solver.
  rewrite Hn. exact H0.
Qed.

Lemma accepts_signals l sl ll ph o c l' rest ops :
  signals o c l' rest ops -> accepts l sl ll ph (o :: rest) = true -> accepts l sl ll ph ops = true.
Proof.
  intros [[-> ->]|[-> ->]] H; [|done]. apply accepts_cons in H as (ph' & Hn & H).
  cbn in Hn. apply move_Some in Hn. destruct (bool_decide _); naive_solver.
Qed.

Lemma accepts_wait l sl ll ph c l' w rest lk :
  accepts l sl ll ph (OpWait c l' :: rest) = true -> w <> sl -> (semaphore lk = sl <-> l' = l) ->
  accepts l sl ll ph (OpClearHolder l' :: OpV (semaphore lk) :: OpP w :: OpP (semaphore lk) ::
    OpSetHolder l' :: OpDelete w :: rest) = true.
Proof.
  intros H Hw Hl. apply accepts_cons in H as (ph' & Hn & H). cbn in Hn. apply move_Some in Hn.
  cbn [accepts next]. rewrite (bool_decide_ext (semaphore lk = sl) (l' = l) Hl).
  rewrite (bool_decide_false (w = sl)) by done. case_bool_decide.
  - destruct Hn as [-> ->]. cbn. done.
  - subst ph'. cbn. done.
Qed.

(** [V] on the semaphore of a lock, at the end of [Release], or on another one. *)
Lemma lock_vstep irq d s d1 o t rest l lk :
  locks_ok irq d -> locks d !! l = Some lk -> prog d t = OpV s :: rest -> vstep d s d1 o ->
  lock_ok (set_prog d1 t rest) l lk.
Proof.
  intros HL El Ep (sm & Es & _ & ->). apply (lock_step d _ t l lk lk rest); [by apply HL|done..|by intros ?; rewrite prog_set|].
  intros ph v HA Hv. rewrite Ep in HA. apply accepts_cons in HA as (ph' & Hn & HA).
  cbn in Hn. apply move_Some in Hn. rewrite (val_set d s _ (semaphore lk) : val (set_prog (set_sem d s _) t rest) _ = _).
  case_bool_decide as E.
  - destruct Hn as [-> ->]. exists Out, (v + 1). split_and!; [done| |].
    + rewrite decide_True by done. cbn. subst s. unfold val in Hv. rewrite Es in Hv. cbn in Hv. congruence.
    + intros phs Hc HS. by apply lstate_V.
  - subst ph'. exists ph, v. rewrite decide_False by congruence. split_and!; try done.
    intros phs Hc. by apply lstate_same.
Qed.

Lemma lock_take irq d s sm t rest l lk :
  locks_ok irq d -> locks d !! l = Some lk -> prog d t = OpP s :: rest ->
  sems d !! s = Some sm -> 0 < value sm ->
  lock_ok (set_prog (set_sem d s (mkSem (value sm - 1) (queue sm))) t rest) l lk.
Proof.
  intros HL El Ep Es Hp. apply (lock_step d _ t l lk lk rest); [by apply HL|done..|by intros ?; rewrite prog_set|].
  intros ph v HA Hv. rewrite Ep in HA. apply accepts_cons in HA as (ph' & Hn & HA).
  cbn in Hn. apply move_Some in Hn. rewrite (val_set d s _ (semaphore lk) : val (set_prog (set_sem d s _) t rest) _ = _).
  case_bool_decide as E.
  - destruct Hn as [-> ->]. exists Mid, (v - 1). subst s. unfold val in Hv. rewrite Es in Hv. cbn in Hv.
    injection Hv as <-. split_and!; [done| |].
    + by rewrite decide_True by done.
    + intros phs Hc HS. by apply lstate_take.
  - subst ph'. exists ph, v. rewrite decide_False by congruence. split_and!; try done.
    intros phs Hc. by apply lstate_same.
Qed.

(** The assignments to [lockHolder]. *)
Lemma lock_assign irq d o h p t rest l' lk' l lk :
  locks_ok irq d -> locks d !! l' = Some lk' -> prog d t = o :: rest ->
  (o = OpSetHolder l' /\ h = Some t /\ p = In \/ o = OpClearHolder l' /\ h = None /\ p = Rel) ->
  locks (set_lock d l' (mkLock h (semaphore lk'))) !! l = Some lk ->
  lock_ok (set_prog (set_lock d l' (mkLock h (semaphore lk'))) t rest) l lk.
Proof.
  intros HL El' Ep Ho El. cbn in El. apply lookup_insert_Some in El as [[-> <-]|[Hne El]].
  - apply (lock_step d _ t l lk' _ rest); [by apply HL|done..|by intros ?; rewrite prog_set|]. intros ph v HA Hv.
    rewrite Ep in HA. apply accepts_cons in HA as (ph' & Hn & HA).
    assert (ph' = p /\ ph <> Out /\ p <> Out) as (-> & H1 & H2).
    { destruct Ho as [(-> & _ & ->)|(-> & _ & ->)]; cbn in Hn; rewrite bool_decide_true in Hn by done;
        apply move_Some in Hn as [-> ->]; done. }
    exists p, v. split_and!; try done. intros phs Hc HS. eapply lstate_holder; try done; [congruence|].
    intros x. destruct Ho as [(_ & -> & ->)|(_ & -> & ->)]; cbn; naive_solver.
  - apply (lock_keep d _ t l lk rest); [by apply HL|done|by intros ?; rewrite prog_set|done|]. intros ph HA.
    rewrite Ep in HA. apply accepts_cons in HA as (ph' & Hn & HA).
    destruct Ho as [(-> & _ & _)|(-> & _ & _)]; cbn in Hn; rewrite bool_decide_false in Hn by done;
      apply move_Some in Hn; congruence.
Qed.

Lemma locks_ok_intro irq d d' :
  locks_ok irq d -> (forall l, lsem d' l = lsem d l) ->
  (forall l lk, locks d' !! l = Some lk -> lock_ok d' l lk) -> locks_ok irq d'.
Proof.
  intros [H1 H2 H3] E H. split; [done| |].
  - intros l l' s. rewrite !E. apply H2.
  - intros l s. rewrite E. apply H3.
Qed.

Lemma lsem_Some d l lk : locks d !! l = Some lk -> lsem d l = Some (semaphore lk).
Proof. unfold lsem. by intros ->. Qed.

(** Deleting or signalling a private semaphore does not touch a lock. *)
Lemma waiter_not_lock irq d w l lk :
  waiters_ok irq d -> (exists t, SD w ∈ sp d t) -> locks d !! l = Some lk -> semaphore lk <> w.
Proof.
  intros W [t Ht] El E. destruct (w_own _ _ _ _ _ W t w Ht) as (_ & B & _).
  apply (B l). rewrite (lsem_Some _ _ _ El). by f_equal.
Qed.

(** [V] by an interrupt handler, or by [Signal]. *)
Lemma locks_other_V irq d d0 s d1 o t ops :
  locks_ok irq d -> (forall l lk, locks d !! l = Some lk -> semaphore lk <> s) ->
  sems d0 = sems d -> locks d0 = locks d -> lists d0 = lists d -> progs d0 = progs d ->
  vstep d0 s d1 o ->
  (forall l sl ph, accepts l sl (llock d) ph (prog d t) = true -> accepts l sl (llock d) ph ops = true) ->
  locks_ok irq (set_prog d1 t ops).
Proof.
  intros HL Hne E1 E2 E3 E4 (sm & Es & _ & ->) HA.
  assert (Hp : forall x, prog d0 x = prog d x) by (intros x; unfold prog; by rewrite E4).
  apply (locks_ok_intro irq d); [done|intros l; unfold lsem; cbn; by rewrite E2|].
  intros l lk El. cbn in El. rewrite E2 in El.
  apply (lock_keep d _ t l lk ops); [by apply HL|intros L; unfold llock; cbn; by rewrite E3| | |].
  - intros x. rewrite prog_set. case_decide; [done|]. by rewrite <- Hp.
  - change (val (set_sem d0 s (mkSem (value sm + 1) (tail (queue sm)))) (semaphore lk) = val d (semaphore lk)).
    rewrite val_set, decide_False by (by eapply Hne). unfold val. by rewrite E1.
  - intros ph. apply HA.
Qed.

(** The accesses to a synchronised list. *)
Lemma locks_list irq d t o L rest sl sl' :
  locks_ok irq d -> prog d t = o :: rest -> ((exists x, o = OpListAppend L x) \/ o = OpTake L) ->
  lists d !! L = Some sl -> lock sl' = lock sl -> locks_ok irq (set_prog (set_list d L sl') t rest).
Proof.
  intros HL Ep Ho El Elk. apply (locks_ok_intro irq d); [done..|]. intros l lk El1. cbn in El1.
  eapply (lock_keep d _ t l lk rest); [by apply HL| |by intros ?; rewrite prog_set|done|].
  - intros y. unfold llock. cbn. destruct (decide (y = L)) as [->|].
    + rewrite lookup_insert_eq, El. cbn. by f_equal.
    + by rewrite lookup_insert_ne.
  - intros ph HA. rewrite Ep in HA. apply accepts_cons in HA as (ph' & Hn & HA).
    destruct Ho as [[x ->]| ->]; cbn in Hn; apply move_Some in Hn; destruct (bool_decide _); naive_solver.
Qed.

Lemma locks_dstep irq t d d' a : waiters_ok irq d -> locks_ok irq d -> dstep t d d' a -> locks_ok irq d'.
Proof.
  intros W HL S.
  destruct S as [Ep|s rest sm Ep Es Hv|s rest sm Ep Es Hv Hq|s rest d1 o Ep Hv|l rest lk Ep El
    |l rest lk Ep El Hh|c l rest lk cd w Ep El Hh Ec -> Hw|s rest sm Ep Es|o c l rest ops lk cd w q d1 r Ep Ho El Hh Ec Eq Hv
    |c l rest cd o Ep Ec ->|L x rest sl Ep El Hx|L rest sl x its Ep El Ei|o rest ops a Ep Hs].
  - done.
  - apply (locks_ok_intro irq d); [done..|]. intros l lk El. by eapply lock_take.
  - apply (locks_ok_intro irq d); [done..|]. intros l lk El. cbn in El.
    apply (lock_keep d _ t l lk (prog d t)); [by apply HL|done| | |done].
    + intros x. by case_decide; subst.
    + rewrite val_set. case_decide as E; [|done]. rewrite E. unfold val. by rewrite Es, <- Hv.
  - pose proof Hv as (sm & _ & _ & E1). apply (locks_ok_intro irq d); [done|by subst d1|].
    intros l lk El. subst d1. by eapply lock_vstep.
  - apply (locks_ok_intro irq d); [done|intros x; by apply (lsem_set d l lk)|].
    intros l1 lk1 El1. eapply lock_assign; try done. by left.
  - apply (locks_ok_intro irq d); [done|intros x; by apply (lsem_set d l lk)|].
    intros l1 lk1 El1. eapply lock_assign; try done. by right.
  - apply (locks_ok_intro irq d); [done..|]. intros l1 lk1 El1. cbn in El1.
    assert (Hfr : fresh_sem (sems d) <> semaphore lk1).
    { intros E. destruct (w_lock _ _ _ _ _ W l1 (semaphore lk1)) as [v Ev]; [by apply lsem_Some|].
      unfold val in Ev. rewrite <- E, fresh_sem_None in Ev. done. }
    eapply (lock_keep d _ t l1 lk1); [by apply HL|done|by intros ?; rewrite prog_set| |].
    + change (val (set_sem d (fresh_sem (sems d)) (mkSem 0 [])) (semaphore lk1) = val d (semaphore lk1)).
      by rewrite val_set, decide_False by congruence.
    + intros ph HA. rewrite Ep in HA. eapply accepts_wait; [exact HA|done|]. split; intros E.
      * apply (lk_inj _ _ HL l l1 (semaphore lk)); [by apply lsem_Some|]. rewrite E. by apply lsem_Some.
      * congruence.
  - apply (locks_ok_intro irq d); [done..|]. intros l lk El. cbn in El.
    assert (semaphore lk <> s).
    { eapply waiter_not_lock; try done. exists t. rewrite (sp_eq _ _ _ Ep). left. }
    apply (lock_keep d _ t l lk rest); [by apply HL|done|by intros ?; rewrite prog_set| |].
    + unfold val. cbn. by rewrite lookup_delete_ne.
    + intros ph HA. rewrite Ep in HA. apply accepts_cons in HA as (ph' & Hn & HA). cbn in Hn.
      rewrite bool_decide_false in Hn by done. congruence.
  - eapply (locks_other_V irq d (set_cond d c (mkCond (barrierNum cd) q)) w); try done.
    + intros l1 lk1 El1. eapply waiter_not_lock; try done.
      destruct (w_wq _ _ _ _ _ W c w) as (x & HD & _); [unfold wq; rewrite Ec; cbn; rewrite Eq; left|by exists x].
    + intros l1 sl1 ph. rewrite Ep. by eapply accepts_signals.
  - apply (locks_ok_intro irq d); [done..|]. intros l1 lk1 El1. cbn in El1.
    eapply (lock_keep d _ t l1 lk1); [by apply HL|done|by intros ?; rewrite prog_set|done|].
    intros ph. rewrite Ep. by case_bool_decide.
  - eapply locks_list; try done. by left; eexists.
  - eapply locks_list; try done. by right.
  - apply (locks_ok_intro irq d); [done..|]. intros l lk El1. cbn in El1.
    apply (lock_keep d _ t l lk ops); [by apply HL|done|by intros ?; rewrite prog_set|done|].
    intros ph. rewrite Ep. by eapply accepts_silent.
Qed.
