(* ===== verification/SynchInv.v ===== *)
(** * No lost wake-ups

    The invariant that ties the queues of the semaphores to the scheduler: the
    blocked threads are exactly the queued ones, and a semaphore with waiting
    threads has at least as many awake threads on their way to it as its value. *)

From S2P Require Import Prelude Lists Sched SchedProofs Synch SynchProofs SynchObjects.

(** [vq]: value and queue of each semaphore; [hd]: the semaphore a thread is
    about to [P]; [B], [A]: the blocked and the awake threads; [ex]: a thread
    that finished and has not been replaced yet. *)
Record qinv (vq : Z -> option (Z * list tptr)) (hd : tptr -> option Z) (B A ex : tptr -> Prop) : Prop := mkQinv {
  q_val : forall s v q, vq s = Some (v, q) -> 0 <= v;
  q_nodup : forall s v q, vq s = Some (v, q) -> NoDup q;
  q_in : forall s v q t, vq s = Some (v, q) -> t ∈ q -> B t /\ hd t = Some s;
  q_blocked : forall t, B t -> ex t \/ exists s v q, vq s = Some (v, q) /\ t ∈ q;
  q_wake : forall s v q, vq s = Some (v, q) -> q <> [] ->
    exists ts, NoDup ts /\ v <= Z.of_nat (length ts) /\ forall t, t ∈ ts -> A t /\ hd t = Some s;
  q_ex : forall t, ex t -> hd t = None;
  q_AB : forall t, A t -> ~ B t }.

(** Taking one item out of a list without repetitions. *)
Lemma filter_out_length {X} `{EqDecision X} (c : X) ts :
  NoDup ts -> (length ts <= S (length (filter (fun t => t <> c) ts)))%nat.
Proof.
  assert (Hid : forall l : list X, c ∉ l -> filter (fun t => t <> c) l = l).
  { induction l as [|x l IH]; intros Hl; [done|]. apply not_elem_of_cons in Hl as [Hx Hl].
    rewrite filter_cons_True by congruence. by rewrite IH. }
  induction 1 as [|x l Hx HN IH]; [cbn; lia|]. destruct (decide (x = c)) as [->|Hn].
  - rewrite filter_cons_False by (intros H; by apply H). rewrite Hid by done. cbn. lia.
  - rewrite filter_cons_True by done. cbn. lia.
Qed.

Section steps.
Context (vq vq' : Z -> option (Z * list tptr)) (hd hd' : tptr -> option Z).
Context (B B' A A' ex ex' : tptr -> Prop).
Context (Q : qinv vq hd B A ex) (c : tptr).

Lemma qinv_ext :
  (forall s, vq' s = vq s) -> (forall t, hd' t = hd t) -> (forall t, B' t <-> B t) ->
  (forall t, A' t <-> A t) -> (forall t, ex' t <-> ex t) -> qinv vq' hd' B' A' ex'.
Proof using Q.
  intros E1 E2 E3 E4 E5. destruct Q as [Q1 Q2 Q3 Q4 Q5 Q6 Q7]. split.
  - intros s v q. rewrite E1. apply Q1.
  - intros s v q. rewrite E1. apply Q2.
  - intros s v q t. rewrite E1, E2, E3. apply Q3.
  - intros t. rewrite E3, E5. intros H. destruct (Q4 t H) as [?|(s & v & q & E & Ht)]; [by left|right].
    exists s, v, q. by rewrite E1.
  - intros s v q. rewrite E1. intros E Hq. destruct (Q5 s v q E Hq) as (ts & H1 & H2 & H3). exists ts.
    split_and!; try done. intros t. rewrite E2, E4. apply H3.
  - intros t. rewrite E2, E5. apply Q6.
  - intros t. rewrite E3, E4. apply Q7.
Qed.

(** The program of [c] changes; it was not about to [P]. *)
Lemma qinv_prog :
  hd c = None -> ~ ex c -> (forall t, t <> c -> hd' t = hd t) -> qinv vq hd' B A ex.
Proof using Q.
  intros Hc Hx E. destruct Q as [Q1 Q2 Q3 Q4 Q5 Q6 Q7]. split; try done.
  - intros s v q t Es Ht. destruct (Q3 s v q t Es Ht) as [H1 H2]. split; [done|]. rewrite E; [done|congruence].
  - intros s v q Es Hq. destruct (Q5 s v q Es Hq) as (ts & H1 & H2 & H3). exists ts. split_and!; try done.
    intros t Ht. destruct (H3 t Ht) as [H4 H5]. split; [done|]. rewrite E; [done|congruence].
  - intros t Ht. rewrite E; [by apply Q6|by intros ->].
Qed.

(** [P] passes. *)
Lemma qinv_take s v q :
  hd c = Some s -> A c -> vq s = Some (v, q) -> 0 < v ->
  (forall x, vq' x = if decide (x = s) then Some (v - 1, q) else vq x) ->
  (forall t, t <> c -> hd' t = hd t) -> qinv vq' hd' B A ex.
Proof using Q.
  intros Hc Ac Es Hv E1 E2. destruct Q as [Q1 Q2 Q3 Q4 Q5 Q6 Q7].
  assert (HB : forall t, B t -> t <> c) by (intros t Ht ->; by eapply Q7).
  assert (HX : forall x v' q', vq' x = Some (v', q') ->
    (x = s /\ v' = v - 1 /\ q' = q) \/ (x <> s /\ vq x = Some (v', q'))).
  { intros x v' q'. rewrite E1. case_decide; [intros [= <- <-]; by left|by right]. }
  split; try done.
  - intros x v' q' [(-> & -> & ->)|[_ H]]%HX; [lia|by eapply Q1].
  - intros x v' q' [(-> & -> & ->)|[_ H]]%HX; by eapply Q2.
  - intros x v' q' t HQ Ht. assert (exists v'', vq x = Some (v'', q')) as [v'' E].
    { apply HX in HQ as [(-> & _ & ->)|[_ ?]]; eauto. }
    destruct (Q3 x v'' q' t E Ht) as [H1 H2]. split; [done|]. by rewrite E2 by auto.
  - intros t Ht. destruct (Q4 t Ht) as [?|(x & v' & q' & E & Hq)]; [by left|right].
    destruct (decide (x = s)) as [->|Hn]; [exists s, (v - 1), q|exists x, v', q'].
    + rewrite E1, decide_True by done. split; [done|]. congruence.
    + by rewrite E1, decide_False.
  - intros x v' q' HQ Hq. destruct (HX x v' q' HQ) as [(-> & -> & ->)|[Hn H]].
    + destruct (Q5 s v q Es Hq) as (ts & H1 & H2 & H3).
      exists (filter (fun t => t <> c) ts). split_and!.
      * by apply NoDup_filter.
      * pose proof (filter_out_length c ts H1). lia.
      * intros t [Hn Ht]%list_elem_of_filter. rewrite E2 by done. by apply H3.
    + destruct (Q5 x v' q' H Hq) as (ts & H1 & H2 & H3). exists ts. split_and!; try done.
      intros t Ht. destruct (H3 t Ht). rewrite E2; [done|]. intros ->. congruence.
  - intros t Ht. destruct (decide (t = c)) as [->|]; [|rewrite E2 by done; by apply Q6].
    apply Q6 in Ht. congruence.
Qed.

(** [P] queues the thread and puts it to sleep. *)
Lemma qinv_sleep s q :
  hd c = Some s -> A c -> vq s = Some (0, q) ->
  (forall x, vq' x = if decide (x = s) then Some (0, q ++ [c]) else vq x) ->
  (forall t, t <> c -> (B' t <-> B t) /\ (A' t <-> A t)) -> B' c -> ~ A' c ->
  qinv vq' hd B' A' ex.
Proof using Q.
  intros Hc Ac Es E1 E2 Bc Nc. destruct Q as [Q1 Q2 Q3 Q4 Q5 Q6 Q7].
  assert (HX : forall x v' q', vq' x = Some (v', q') ->
    (x = s /\ v' = 0 /\ q' = q ++ [c]) \/ (x <> s /\ vq x = Some (v', q'))).
  { intros x v' q'. rewrite E1. case_decide; [intros [= <- <-]; by left|by right]. }
  assert (HB : forall t, B t -> B' t).
  { intros t Ht. destruct (decide (t = c)) as [->|]; [done|]. by apply E2. }
  split; try done.
  - intros x v' q' [(-> & -> & ->)|[_ H]]%HX; [lia|by eapply Q1].
  - intros x v' q' [(-> & -> & ->)|[_ H]]%HX; [|by eapply Q2]. apply NoDup_app.
    split_and!; [by eapply Q2| |by apply NoDup_singleton]. intros t Ht ->%list_elem_of_singleton.
    destruct (Q3 s 0 q c Es Ht). by eapply Q7.
  - intros x v' q' t [(-> & -> & ->)|[_ H]]%HX.
    + rewrite elem_of_app, list_elem_of_singleton. intros [Ht| ->]; [|done].
      destruct (Q3 s 0 q t Es Ht). auto.
    + intros Ht. destruct (Q3 x v' q' t H Ht). auto.
  - intros t Ht. destruct (decide (t = c)) as [->|Hn].
    + right. exists s, 0, (q ++ [c]). rewrite E1, decide_True by done. split; [done|]. apply elem_of_app. right. left.
    + apply E2 in Ht; [|done]. destruct (Q4 t Ht) as [?|(x & v' & q' & E & Hq)]; [by left|right].
      destruct (decide (x = s)) as [->|Hx]; [exists s, 0, (q ++ [c])|exists x, v', q'].
      * rewrite E1, decide_True by done. split; [done|]. apply elem_of_app. left. congruence.
      * by rewrite E1, decide_False.
  - intros x v' q' [(-> & -> & ->)|[Hn H]]%HX Hq; [exists []; split_and!; [constructor|done|by intros t ?%not_elem_of_nil]|].
    destruct (Q5 x v' q' H Hq) as (ts & H1 & H2 & H3). exists ts. split_and!; try done.
    intros t Ht. destruct (H3 t Ht) as [H4 H5]. split; [|done]. apply E2; [|done]. intros ->. congruence.
  - intros t Ht Ht'. destruct (decide (t = c)) as [->|Hn]; [done|]. apply (Q7 t); by apply E2.
Qed.

(** [V]: the first waiting thread, if there is one, becomes awake. *)
Lemma qinv_V s v q :
  vq s = Some (v, q) ->
  (forall x, vq' x = if decide (x = s) then Some (v + 1, tail q) else vq x) ->
  (forall t, head q <> Some t -> (B' t <-> B t) /\ (A' t <-> A t)) ->
  (forall t, head q = Some t -> A' t /\ ~ B' t) -> qinv vq' hd B' A' ex.
Proof using Q.
  intros Es E1 E2 E3. destruct Q as [Q1 Q2 Q3 Q4 Q5 Q6 Q7].
  assert (HX : forall x v' q', vq' x = Some (v', q') ->
    (x = s /\ v' = v + 1 /\ q' = tail q) \/ (x <> s /\ vq x = Some (v', q'))).
  { intros x v' q'. rewrite E1. case_decide; [intros [= <- <-]; by left|by right]. }
  assert (Hh : forall t, head q = Some t -> B t /\ hd t = Some s /\ (t ∉ tail q)).
  { intros t. pose proof (Q2 s v q Es) as HN. destruct q as [|x q]; [done|]. intros [= ->].
    apply NoDup_cons in HN as [Hn _]. destruct (Q3 s v (t :: q) t Es) as [H1 H2]; [left|]. done. }
  assert (HA : forall t, A t -> A' t).
  { intros t Ht. destruct (decide (head q = Some t)) as [E|E]; [by apply E3|by apply E2]. }
  assert (Ht : forall t, t ∈ tail q -> t ∈ q) by (intros t; destruct q; [done|by right]).
  split; try done.
  - intros x v' q' [(-> & -> & ->)|[_ H]]%HX; [specialize (Q1 _ _ _ Es); lia|by eapply Q1].
  - intros x v' q' [(-> & -> & ->)|[_ H]]%HX; [|by eapply Q2]. specialize (Q2 _ _ _ Es).
    destruct q; [done|]. by apply NoDup_cons in Q2 as [_ Q2].
  - intros x v' q' t [(-> & -> & ->)|[Hx H]]%HX Hin.
    + destruct (Q3 s v q t Es (Ht t Hin)) as [H1 H2]. split; [|done]. apply E2; [|done].
      intros E. by apply Hh in E as (_ & _ & ?).
    + destruct (Q3 x v' q' t H Hin) as [H1 H2]. split; [|done]. apply E2; [|done].
      intros E. apply Hh in E as (_ & ? & _). congruence.
  - intros t HB. assert (Hn : head q <> Some t) by (intros E; by apply E3 in E as [_ ?]).
    apply E2 in HB; [|done]. destruct (Q4 t HB) as [?|(x & v' & q' & E & Hq)]; [by left|right].
    destruct (decide (x = s)) as [->|Hx]; [exists s, (v + 1), (tail q)|exists x, v', q'].
    + rewrite E1, decide_True by done. split; [done|]. rewrite Es in E. injection E as <- <-.
      destruct q as [|y q]; [done|]. apply elem_of_cons in Hq as [->|]; [done|done].
    + by rewrite E1, decide_False.
  - intros x v' q' [(-> & -> & ->)|[Hx H]]%HX Hq.
    + destruct q as [|y q]; [done|]. destruct (Q5 s v (y :: q) Es) as (ts & H1 & H2 & H3); [done|].
      destruct (Hh y eq_refl) as (By & Hy & _). exists (y :: ts). split_and!.
      * apply NoDup_cons. split; [|done]. intros Hin. destruct (H3 y Hin). by eapply Q7.
      * cbn [length]. lia.
      * intros t [->|Hin]%elem_of_cons; [split; [by apply E3|done]|]. destruct (H3 t Hin). auto.
    + destruct (Q5 x v' q' H Hq) as (ts & H1 & H2 & H3). exists ts. split_and!; try done.
      intros t Hin. destruct (H3 t Hin). auto.
  - intros t HA' HB'. destruct (decide (head q = Some t)) as [E|E]; [by apply E3 in E as [_ ?]|].
    apply (Q7 t); by apply E2.
Qed.

(** A new semaphore, or one nobody waits for that is deleted. *)
Lemma qinv_sem w o :
  (forall v q, vq w = Some (v, q) -> q = []) -> (forall v q, o = Some (v, q) -> 0 <= v /\ q = []) ->
  (forall x, vq' x = if decide (x = w) then o else vq x) -> qinv vq' hd B A ex.
Proof using Q.
  intros Hw Ho E1. destruct Q as [Q1 Q2 Q3 Q4 Q5 Q6 Q7].
  assert (HX : forall x v' q', vq' x = Some (v', q') -> (0 <= v' /\ q' = []) \/ vq x = Some (v', q')).
  { intros x v' q'. rewrite E1. case_decide; [intros E; left; by apply Ho|by right]. }
  split; try done.
  - intros x v' q' [[? ->]|H]%HX; [done|by eapply Q1].
  - intros x v' q' [[? ->]|H]%HX; [constructor|by eapply Q2].
  - intros x v' q' t [[? ->]|H]%HX; [by intros ?%not_elem_of_nil|by apply Q3 with v'].
  - intros t HB. destruct (Q4 t HB) as [?|(x & v' & q' & E & Hq)]; [by left|right].
    exists x, v', q'. split; [|done]. rewrite E1, decide_False; [done|]. intros ->.
    rewrite (Hw v' q' E) in Hq. by apply not_elem_of_nil in Hq.
  - intros x v' q' [[? ->]|H]%HX; [done|by eapply Q5].
Qed.

(** The running thread finishes. *)
Lemma qinv_finish :
  hd c = None -> A c -> (forall t, t <> c -> (B' t <-> B t) /\ (A' t <-> A t)) -> ~ A' c ->
  (B' c -> ex' c) -> (forall t, ex' t -> t = c) -> (forall t, ~ ex t) -> qinv vq hd B' A' ex'.
Proof using Q.
  intros Hc Ac E2 Nc Hx He Hn. destruct Q as [Q1 Q2 Q3 Q4 Q5 Q6 Q7].
  split; try done.
  - intros s v q t E Ht. destruct (Q3 s v q t E Ht) as [H1 H2]. split; [|done]. apply E2; [congruence|done].
  - intros t HB. destruct (decide (t = c)) as [->|Ht]; [by left; auto|]. apply E2 in HB; [|done].
    destruct (Q4 t HB) as [H|H]; [by apply Hn in H|by right].
  - intros s v q E Hq. destruct (Q5 s v q E Hq) as (ts & H1 & H2 & H3). exists ts. split_and!; try done.
    intros t Ht. destruct (H3 t Ht) as [H4 H5]. split; [|done]. apply E2; [congruence|done].
  - intros t Ht. by rewrite (He t Ht).
  - intros t HA HB. destruct (decide (t = c)) as [->|Ht]; [done|]. apply (Q7 t); by apply E2.
Qed.

(** The finished thread is replaced by another one. *)
Lemma qinv_replace :
  (forall t, ~ ex t -> (B' t <-> B t) /\ (A' t <-> A t)) -> (forall t, ex t -> ~ B' t) ->
  (forall t, ~ ex' t) -> (forall t, ex t \/ ~ ex t) -> qinv vq hd B' A' ex'.
Proof using Q.
  intros E2 He Hn Hdec. destruct Q as [Q1 Q2 Q3 Q4 Q5 Q6 Q7].
  assert (Hh : forall t s, hd t = Some s -> ~ ex t) by (intros t s E Ht%Q6; congruence).
  split; try done.
  - intros s v q t E Ht. destruct (Q3 s v q t E Ht) as [H1 H2]. split; [|done]. apply E2; [by eapply Hh|done].
  - intros t HB. destruct (Hdec t) as [Ht|Ht]; [by apply He in Ht|]. apply E2 in HB; [|done].
    destruct (Q4 t HB) as [H|H]; [done|by right].
  - intros s v q E Hq. destruct (Q5 s v q E Hq) as (ts & H1 & H2 & H3). exists ts. split_and!; try done.
    intros t Ht. destruct (H3 t Ht) as [H4 H5]. split; [|done]. apply E2; [by eapply Hh|done].
  - intros t Ht. by apply Hn in Ht.
  - intros t HA HB. destruct (Hdec t) as [Ht|Ht]; [by apply He in Ht|]. apply (Q7 t); by apply E2.
Qed.

End steps.

(** ** The invariant on the objects and the scheduler *)

Definition vqd (d : Objs) (s : Z) : option (Z * list tptr) :=
  match sems d !! s with Some sm => Some (value sm, queue sm) | None => None end.
Definition hdP (d : Objs) (t : tptr) : option Z :=
  match prog d t with OpP s :: _ => Some s | _ => None end.
Definition exiting (k : Kernel) (fin : option bool) (t : tptr) : Prop :=
  fin = Some true /\ t = currentThread k.

Definition sems_ok (k : Kernel) (fin : option bool) (d : Objs) : Prop :=
  qinv (vqd d) (hdP d) (blocked k) (awake k) (exiting k fin).

Definition ystate_of (k : Kernel) (d : Objs) (fin : option bool) : ystate :=
  match fin with None => YRuns (mkSys k d) | Some f => YIdles (mkSys k d) f end.

Lemma vqd_set d s sm x : vqd (set_sem d s sm) x = if decide (x = s) then Some (value sm, queue sm) else vqd d x.
Proof.
  unfold vqd, set_sem. cbn. case_decide as E; [subst; by rewrite lookup_insert_eq|].
  by rewrite lookup_insert_ne by done.
Qed.

Lemma hdP_set d c ops t : t <> c -> hdP (set_prog d c ops) t = hdP d t.
Proof. intros H. unfold hdP. by rewrite prog_set, decide_False. Qed.

Lemma not_exiting k t : ~ exiting k None t.
Proof. by intros [? _]. Qed.

Section kern.
Context (typeno : Z) `{!Policy typeno}.

(** [V] wakes the first waiting thread. *)
Lemma sems_vstep k fin d0 d s d1 o :
  kern_ok typeno k fin -> sems_ok k fin d -> sems d0 = sems d -> progs d0 = progs d -> vstep d0 s d1 o ->
  exists k', kact typeno k d1 (AWake o) = Ok (YRuns (mkSys k' d1)) /\ kern_ok typeno k' fin /\
    sems_ok k' fin d1 /\ currentThread k' = currentThread k.
Proof.
  intros HK Q E1 E2 (sm & Es & -> & ->). rewrite E1 in Es.
  assert (EQ : vqd d s = Some (value sm, queue sm)) by (unfold vqd; by rewrite Es).
  assert (EV : forall x, vqd (set_sem d0 s (mkSem (value sm + 1) (tail (queue sm)))) x =
    if decide (x = s) then Some (value sm + 1, tail (queue sm)) else vqd d x).
  { intros x. rewrite vqd_set. cbn. case_decide; [done|]. unfold vqd. by rewrite E1. }
  assert (EH : forall x, hdP (set_sem d0 s (mkSem (value sm + 1) (tail (queue sm)))) x = hdP d x).
  { intros x. unfold hdP, prog. cbn. by rewrite E2. }
  destruct (queue sm) as [|t q] eqn:Eq; cbn [head tail] in *.
  - exists k. split_and!; try done. eapply (qinv_ext _ _ _ _ _ _ _ _ _ _ (qinv_V _ _ _ _ _ _ _ _ Q s _ _ EQ (fun _ => eq_refl)
      (fun _ _ => conj (reflexivity _) (reflexivity _)) ltac:(done))); done.
  - destruct (q_in _ _ _ _ _ Q s _ _ t EQ) as [Hb Hh]; [left|].
    assert (Hne : fin = Some true -> t <> currentThread k).
    { intros -> ->. pose proof (q_ex _ _ _ _ _ Q (currentThread k) (conj eq_refl eq_refl)). congruence. }
    assert (exists k', ReadyToRun typeno k t = Ok k' /\ kern_ok typeno k' fin /\
      currentThread k' = currentThread k /\ awake k' t /\ forall x, x <> t -> same_view k k' x)
      as (k' & ER & HK' & HC & HA & HV).
    { destruct fin as [f|]; cbn in HK |- *.
      - destruct HK as [I Hf]. destruct (ready_view typeno k None t I Hb) as (k' & ? & ? & HC & ? & HV).
        exists k'. split_and!; try done. intros ->. rewrite HC. apply HV; [|by apply Hf].
        intros E. by apply (Hne eq_refl).
      - destruct (ready_view typeno k _ t HK Hb) as (k' & ? & ? & HC & ? & HV). exists k'. rewrite HC. done. }
    exists k'. cbn [kact]. rewrite ER. split_and!; try done.
    assert (H1 : forall x, head (t :: q) <> Some x -> same_view k k' x).
    { intros x Hx. apply HV. intros ->. by apply Hx. }
    assert (H2 : forall x, head (t :: q) = Some x -> awake k' x /\ ~ blocked k' x).
    { intros x [= <-]. split; [done|]. by apply awake_not_blocked. }
    eapply (qinv_ext _ _ _ _ _ _ _ _ _ _ (qinv_V _ _ _ _ _ _ _ _ Q s _ _ EQ (fun _ => eq_refl) H1 H2)); try done.
    intros x. unfold exiting. by rewrite HC.
Qed.

(** The program of the running thread moves on. *)
Lemma sems_prog k d d' c ops :
  sems_ok k None d -> sems d' = sems d -> progs d' = progs d -> hdP d c = None ->
  sems_ok k None (set_prog d' c ops).
Proof.
  intros Q E1 E2 Hc. eapply (qinv_ext _ _ _ _ _ _ _ _ _ _
    (qinv_prog (vqd d) (hdP d) (hdP (set_prog d c ops)) _ _ _ Q c Hc (not_exiting k c) (hdP_set d c ops))); try done.
  - intros s. unfold vqd. cbn. by rewrite E1.
  - intros t. unfold hdP. rewrite !prog_set. case_decide; [done|]. unfold prog. by rewrite E2.
Qed.

Lemma hdP_None d t ops : prog d t = ops -> (forall s rest, ops <> OpP s :: rest) -> hdP d t = None.
Proof. unfold hdP. intros -> H. destruct ops as [|[] ops]; try done. by destruct (H s ops). Qed.

(** A semaphore that is about to be deleted has no waiting threads. *)
Lemma delete_no_waiters irq k d t s rest v q :
  sems_ok k None d -> waiters_ok irq d -> prog d t = OpDelete s :: rest -> vqd d s = Some (v, q) -> q = [].
Proof.
  intros Q W Ep E. destruct q as [|x q]; [done|]. exfalso.
  destruct (q_in _ _ _ _ _ Q s v (x :: q) x E) as [_ Hx]; [left|].
  destruct (w_own _ _ _ _ _ W t s) as [A _]; [rewrite (sp_eq _ _ _ Ep); left|].
  assert (x <> t). { intros ->. unfold hdP in Hx. by rewrite Ep in Hx. }
  apply (A x (SP s)); try done. unfold sp. unfold hdP in Hx. destruct (prog d x) as [|[] ?]; try done.
  injection Hx as ->. left.
Qed.

Lemma Finish_Sleep k : level k = IntOff -> Finish typeno k = Sleep typeno k true.
Proof. intros E. unfold Finish. destruct k. cbn in E |- *. by subst. Qed.

Lemma to_ystate_of d r f : to_ystate d r f = ystate_of (slept_kernel r) d (slept_fin r f).
Proof. by destruct r. Qed.

(** The running thread sleeps in [P]. *)
Lemma sems_sleep k d s rest sm :
  kern_ok typeno k None -> sems_ok k None d -> prog d (currentThread k) = OpP s :: rest ->
  sems d !! s = Some sm -> value sm = 0 ->
  let d' := set_sem d s (mkSem 0 (queue sm ++ [currentThread k])) in
  exists k' fin, kact typeno k d' ASleep = Ok (ystate_of k' d' fin) /\ kern_ok typeno k' fin /\ sems_ok k' fin d'.
Proof.
  intros HK Q Ep Es Hv d'. cbn in HK.
  destruct (Sleep_view typeno k _ false HK) as (r & ER & HK' & HV & HB & _ & HA & _).
  exists (slept_kernel r), (slept_fin r false). cbn [kact]. rewrite ER. cbn [mbind res_bind].
  rewrite to_ystate_of. split_and!; try done.
  eapply (qinv_ext _ _ _ _ _ _ _ _ _ _ (qinv_sleep (vqd d) _ (hdP d) _ _ _ _ _ Q (currentThread k) s (queue sm)
    ltac:(unfold hdP; by rewrite Ep) ltac:(by eapply cur_awake) ltac:(unfold vqd; by rewrite Es, Hv)
    (fun _ => eq_refl) HV ltac:(auto) HA)); try done.
  - intros x. apply vqd_set.
  - intros t. unfold exiting. split; [|by intros [? _]]. destruct r; by intros [[=] _].
Qed.

(** The running thread finishes. *)
Lemma sems_finish k d :
  kern_ok typeno k None -> sems_ok k None d -> prog d (currentThread k) = [] ->
  exists k' fin, kact typeno k d AFinish = Ok (ystate_of k' d fin) /\ kern_ok typeno k' fin /\ sems_ok k' fin d.
Proof.
  intros HK Q Ep. cbn in HK.
  destruct (Sleep_view typeno k _ true HK) as (r & ER & HK' & HV & _ & HB & HA & HI).
  exists (slept_kernel r), (slept_fin r true). cbn [kact]. rewrite Finish_Sleep by apply HK. rewrite ER.
  cbn [mbind res_bind]. rewrite to_ystate_of. split_and!; try done.
  eapply (qinv_finish (vqd d) (hdP d) _ _ _ _ _ _ Q (currentThread k)); try done.
  - unfold hdP. by rewrite Ep.
  - by eapply cur_awake.
  - intros H. by destruct (HB eq_refl H).
  - intros t [Hf ->]. destruct r as [k'|k']; [done|]. by apply HI.
  - intros t. apply not_exiting.
Qed.

(** Every step on the objects can be completed by the scheduler, which keeps the
    invariant. *)
Lemma sems_dstep irq k d d' a :
  kern_ok typeno k None -> sems_ok k None d -> waiters_ok irq d -> dstep (currentThread k) d d' a ->
  exists k' fin, kact typeno k d' a = Ok (ystate_of k' d' fin) /\ kern_ok typeno k' fin /\ sems_ok k' fin d'.
Proof.
  intros HK Q W S. set (t := currentThread k) in *.
  assert (Hkeep : forall d0 ops, sems d0 = sems d -> progs d0 = progs d -> hdP d t = None ->
    exists k' fin, kact typeno k (set_prog d0 t ops) ANone = Ok (ystate_of k' (set_prog d0 t ops) fin) /\
      kern_ok typeno k' fin /\ sems_ok k' fin (set_prog d0 t ops)).
  { intros d0 ops E1 E2 Hh. exists k, None. split_and!; try done. by eapply (sems_prog _ d). }
  assert (HV : forall d0 s d1 o ops, sems d0 = sems d -> progs d0 = progs d -> hdP d t = None -> vstep d0 s d1 o ->
    exists k' fin, kact typeno k (set_prog d1 t ops) (AWake o) = Ok (ystate_of k' (set_prog d1 t ops) fin) /\
      kern_ok typeno k' fin /\ sems_ok k' fin (set_prog d1 t ops)).
  { intros d0 s d1 o ops E1 E2 Hh Hv.
    destruct (sems_vstep k None d0 d s d1 o HK Q E1 E2 Hv) as (k' & Hk & HK' & HQ & HC).
    exists k', None. destruct (kact_prog _ _ _ (set_prog d1 t ops) _ _ Hk) as [-> _]. split_and!; try done.
    eapply (sems_prog _ d1); try done. destruct Hv as (sm & _ & _ & ->). unfold hdP, prog in *. cbn. by rewrite E2. }
  destruct S as [Ep|s rest sm Ep Es Hv|s rest sm Ep Es Hv Hq|s rest d1 o Ep Hv|l rest lk Ep El
    |l rest lk Ep El Hh|c l rest lk cd w Ep El Hh Ec -> Hw|s rest sm Ep Es|o c l rest ops lk cd w q d1 r Ep Ho El Hh Ec Eq Hv
    |c l rest cd o Ep Ec ->|L x rest sl Ep El Hx|L rest sl x its Ep El Ei|o rest ops a Ep Hs];
    try (apply Hkeep; [done..|]; by eapply hdP_None).
  - by apply sems_finish.
  - exists k, None. split_and!; try done.
    eapply (qinv_ext _ _ _ _ _ _ _ _ _ _ (qinv_take (vqd d) _ (hdP d) (hdP (set_prog d t rest)) _ _ _ Q t s (value sm) (queue sm)
      ltac:(unfold hdP; by rewrite Ep) ltac:(by eapply cur_awake) ltac:(unfold vqd; by rewrite Es) Hv
      (fun _ => eq_refl) (hdP_set d t rest))); try done.
    intros x. exact (vqd_set d s (mkSem (value sm - 1) (queue sm)) x).
  - by eapply sems_sleep.
  - eapply HV; try done. by eapply hdP_None.
  - exists k, None. split_and!; try done.
    set (w := fresh_sem (sems d)). eapply (sems_prog _ (set_sem d w (mkSem 0 []))); try done; [|by eapply hdP_None].
    eapply (qinv_ext _ _ _ _ _ _ _ _ _ _ (qinv_sem (vqd d) (vqd (set_sem d w (mkSem 0 []))) (hdP d) _ _ _ Q w (Some (0, []))
      ltac:(unfold vqd, w; by rewrite fresh_sem_None) ltac:(naive_solver lia) (vqd_set _ _ _))); done.
  - exists k, None. split_and!; try done.
    eapply (sems_prog _ (set_sems d (delete s (sems d)))); try done; [|by eapply hdP_None].
    eapply (qinv_ext _ _ _ _ _ _ _ _ _ _ (qinv_sem (vqd d) _ (hdP d) _ _ _ Q s None
      (fun v q => delete_no_waiters irq k d t s rest v q Q W Ep) ltac:(done) (fun _ => eq_refl))); try done.
    intros x. unfold vqd. cbn. case_decide; [subst; by rewrite lookup_delete_eq|by rewrite lookup_delete_ne by done].
  - eapply (HV (set_cond d c (mkCond (barrierNum cd) q)) w); try done.
    eapply hdP_None; [done|]. destruct Ho as [[-> ->]|[-> ->]]; done.
  - destruct Hs; try (apply Hkeep; [done..|]; by eapply hdP_None).
    destruct (Yield_view typeno k _ HK) as (k' & EY & I' & HV').
    exists k', None. cbn [kact]. rewrite EY. split_and!; try done.
    eapply (qinv_ext _ _ _ _ _ _ _ _ _ _ (sems_prog k d d t rest Q eq_refl eq_refl ltac:(by eapply hdP_None)));
      try done; intros x; first [apply HV' | by unfold exiting; naive_solver].
Qed.

End kern.
