(* ===== verification/SynchLists.v ===== *)
(** * Synchronised lists, and the references of programs

    [RemoveFront] never meets an empty list, although it releases the lock while
    it waits; every object a program names exists; and so every step of a
    program that follows the locking rules succeeds. *)

From S2P Require Import Prelude Lists Sched SchedProofs Synch SynchProofs SynchObjects SynchInv.

(** [OpTake] comes right after the loop that waits for an item. *)
Fixpoint guarded (ready : option Z) (ops : list op) : bool :=
  match ops with
  | [] => true
  | OpTake L :: r => bool_decide (ready = Some L) && guarded None r
  | OpWhileEmpty L :: r => guarded (Some L) r
  | _ :: r => guarded None r
  end.

Lemma guarded_Some L ops :
  guarded (Some L) ops = true -> guarded None ops = true \/ exists r, ops = OpTake L :: r /\ guarded None r = true.
Proof.
  destruct ops as [|[] r]; cbn; auto. rewrite andb_true_iff, bool_decide_eq_true. intros [[= ->] H]. right. by exists r.
Qed.

(** [t] follows that rule, or has left the loop and there is an item for it. *)
Definition turn (d : Objs) (t : tptr) : Prop :=
  guarded None (prog d t) = true \/
  exists L rest sl, prog d t = OpTake L :: rest /\ guarded None rest = true /\
    lists d !! L = Some sl /\ items sl <> [].

(** The objects an operation names. *)
Definition op_refs (d : Objs) (o : op) : Prop :=
  match o with
  | OpSetHolder l | OpClearHolder l => is_Some (locks d !! l)
  | OpWait c l | OpSignal c l | OpBroadcast c l | OpBarrier c l => is_Some (conds d !! c) /\ is_Some (locks d !! l)
  | OpListAppend L _ | OpWhileEmpty L | OpTake L => is_Some (lists d !! L)
  | _ => True
  end.

Record refs_ok (d : Objs) : Prop := mkRefs {
  r_ops : forall t o, o ∈ prog d t -> op_refs d o;
  r_lists : forall L sl, lists d !! L = Some sl -> is_Some (locks d !! lock sl) /\ is_Some (conds d !! listEmpty sl);
  r_barrier : forall c cd, conds d !! c = Some cd -> 0 <= barrierNum cd }.

(** ** References *)

(** [d'] has the objects of [d]; a list keeps its lock and condition. *)
Record extends (d d' : Objs) : Prop := mkExtends {
  e_locks : forall l, is_Some (locks d !! l) -> is_Some (locks d' !! l);
  e_conds : forall c, is_Some (conds d !! c) -> is_Some (conds d' !! c);
  e_lists : forall L, is_Some (lists d !! L) -> is_Some (lists d' !! L);
  e_fields : forall L sl', lists d' !! L = Some sl' ->
    exists sl, lists d !! L = Some sl /\ lock sl' = lock sl /\ listEmpty sl' = listEmpty sl;
  e_barrier : forall c cd', conds d' !! c = Some cd' ->
    exists cd, conds d !! c = Some cd /\ barrierNum cd <= barrierNum cd' }.

Lemma insert_is_Some {X} (m : gmap Z X) i j x : is_Some (m !! j) -> is_Some (<[i := x]> m !! j).
Proof. intros H. destruct (decide (j = i)) as [->|]; [rewrite lookup_insert_eq; by eexists|by rewrite lookup_insert_ne]. Qed.

Lemma extends_refl d d' : locks d' = locks d -> conds d' = conds d -> lists d' = lists d -> extends d d'.
Proof.
  intros E1 E2 E3. split; rewrite ?E1, ?E2, ?E3; try done.
  - intros L sl. by exists sl.
  - intros c cd. exists cd. split; [done|lia].
Qed.

Lemma extends_lock d d' l lk :
  locks d' = <[l := lk]> (locks d) -> conds d' = conds d -> lists d' = lists d -> extends d d'.
Proof.
  intros E1 E2 E3. split; rewrite ?E1, ?E2, ?E3; try done.
  - intros l'. apply insert_is_Some.
  - intros L sl. by exists sl.
  - intros c cd. exists cd. split; [done|lia].
Qed.

Lemma extends_cond d d' c cd cd' :
  conds d !! c = Some cd -> barrierNum cd <= barrierNum cd' ->
  locks d' = locks d -> conds d' = <[c := cd']> (conds d) -> lists d' = lists d -> extends d d'.
Proof.
  intros Ec Hb E1 E2 E3. split; rewrite ?E1, ?E2, ?E3; try done.
  - intros c'. apply insert_is_Some.
  - intros L sl. by exists sl.
  - intros c' cd''. destruct (decide (c' = c)) as [->|].
    + rewrite lookup_insert_eq. intros [= <-]. by exists cd.
    + rewrite lookup_insert_ne by done. exists cd''. split; [done|lia].
Qed.

Lemma extends_list d d' L sl sl' :
  lists d !! L = Some sl -> lock sl' = lock sl -> listEmpty sl' = listEmpty sl ->
  locks d' = locks d -> conds d' = conds d -> lists d' = <[L := sl']> (lists d) -> extends d d'.
Proof.
  intros El Ha Hb E1 E2 E3. split; rewrite ?E1, ?E2, ?E3; try done.
  - intros L'. apply insert_is_Some.
  - intros L' sl''. destruct (decide (L' = L)) as [->|].
    + rewrite lookup_insert_eq. intros [= <-]. by exists sl.
    + rewrite lookup_insert_ne by done. intros E. by exists sl''.
  - intros c cd. exists cd. split; [done|lia].
Qed.

Lemma op_refs_extends d d' o : extends d d' -> op_refs d o -> op_refs d' o.
Proof. intros [E1 E2 E3 _ _]. destruct o; cbn; try done; auto; intros [H1 H2]; auto. Qed.

Lemma dstep_extends t d d' a : dstep t d d' a -> extends d d'.
Proof.
  destruct 1 as [Ep|s rest sm Ep Es Hv|s rest sm Ep Es Hv Hq|s rest d1 o Ep (sm & Es & -> & ->)|l rest lk Ep El
    |l rest lk Ep El Hh|c l rest lk cd w Ep El Hh Ec -> Hw|s rest sm Ep Es|o c l rest ops lk cd w q d1 r Ep Ho El Hh Ec Eq (sm & Es & -> & ->)
    |c l rest cd o Ep Ec ->|L x rest sl Ep El Hx|L rest sl x its Ep El Ei|o rest ops a Ep Hs];
    try by apply extends_refl.
  - by eapply extends_lock.
  - by eapply extends_lock.
  - eapply (extends_cond _ _ c cd); [done| |done..]. cbn. lia.
  - eapply (extends_cond _ _ c cd); [done| |done..]. cbn. lia.
  - eapply (extends_cond _ _ c cd); [done| |done..]. cbn. lia.
  - by eapply (extends_list _ _ L sl (mkSynchList _ (lock sl) (listEmpty sl) _)).
  - by eapply (extends_list _ _ L sl (mkSynchList _ (lock sl) (listEmpty sl) _)).
Qed.

(** The operations a step leaves the thread with. *)
Lemma dstep_prog_other t d d' a x : dstep t d d' a -> x <> t -> prog d' x = prog d x.
Proof.
  intros S Hx. destruct S as [| | |s rest d1 o Ep (sm & Es & -> & ->)| | | | |o c l rest ops lk cd w q d1 r Ep Ho El Hh Ec Eq (sm & Es & -> & ->)| | | |];
    rewrite ?prog_set, ?decide_False by done; done.
Qed.

Lemma dstep_refs t d d' a o :
  refs_ok d -> dstep t d d' a -> o ∈ prog d' t -> op_refs d o.
Proof.
  intros [R1 R2 _] S.
  assert (Htl : forall o1 rest o', prog d t = o1 :: rest -> o' ∈ rest -> op_refs d o').
  { intros o1 rest o' E H. apply (R1 t). rewrite E. by right. }
  assert (Hhd : forall o1 rest, prog d t = o1 :: rest -> op_refs d o1).
  { intros o1 rest E. apply (R1 t). rewrite E. left. }
  destruct S as [Ep|s rest sm Ep Es Hv|s rest sm Ep Es Hv Hq|s rest d1 o1 Ep (sm & Es & -> & ->)|l rest lk Ep El
    |l rest lk Ep El Hh|c l rest lk cd w Ep El Hh Ec -> Hw|s rest sm Ep Es|o1 c l rest ops lk cd w q d1 r Ep Ho El Hh Ec Eq (sm & Es & -> & ->)
    |c l rest cd o1 Ep Ec ->|L x rest sl Ep El Hx|L rest sl x its Ep El Ei|o1 rest ops a Ep Hs];
    rewrite ?prog_set, ?decide_True by done; try (by eapply Htl); try (by apply R1).
  - specialize (Hhd _ _ Ep) as [H1 H2].
    intros [->|[->|[->|[->|[->|[->|Ho]%elem_of_cons]%elem_of_cons]%elem_of_cons]%elem_of_cons]%elem_of_cons]%elem_of_cons;
      try done. by eapply Htl.
  - destruct Ho as [[-> ->]|[-> ->]]; [by eapply Htl|]. rewrite <- Ep. apply R1.
  - specialize (Hhd _ _ Ep). intros [->|Ho]%elem_of_cons; [by case_bool_decide|by eapply Htl].
  - destruct Hs as [| |L sl rest El Ei| |]; try by eapply Htl.
    specialize (R2 L sl El). intros [->|[->|Ho]%elem_of_cons]%elem_of_cons; [split; apply R2|by eapply Hhd|by eapply Htl].
Qed.

Lemma refs_dstep t d d' a : refs_ok d -> dstep t d d' a -> refs_ok d'.
Proof.
  intros R S. pose proof (dstep_extends _ _ _ _ S) as E. pose proof R as [R1 R2 R3]. split.
  - intros x o Ho. apply (op_refs_extends d d' _ E). destruct (decide (x = t)) as [->|Hx].
    + by eapply dstep_refs.
    + rewrite (dstep_prog_other _ _ _ _ _ S Hx) in Ho. by eapply R1.
  - intros L sl' El. destruct (e_fields _ _ E L sl' El) as (sl & El' & -> & ->).
    destruct (R2 L sl El'). split; [by apply E|by apply E].
  - intros c cd' Ec. destruct (e_barrier _ _ E c cd' Ec) as (cd & Ec' & Hb). specialize (R3 c cd Ec'). lia.
Qed.

(** ** Items *)

(** Everything that was ever put on the list, in order: what was handed out and
    what is still there. *)
Definition stream (d : Objs) (L : Z) : list Z :=
  match lists d !! L with Some sl => (received sl).*2 ++ items sl | None => [] end.

(** What the next step of [t] puts on the list [L]. *)
Definition puts (d : Objs) (t : tptr) (L : Z) : list Z :=
  match prog d t with OpListAppend L' x :: _ => if decide (L' = L) then [x] else [] | _ => [] end.

Lemma puts_nil d t ops L : prog d t = ops -> (forall L x rest, ops <> OpListAppend L x :: rest) -> puts d t L = [].
Proof. unfold puts. intros -> H. destruct ops as [|[] rest]; try done. by destruct (H L0 x rest). Qed.

(** Items leave the list in the order in which they came, each once. *)
Lemma dstep_stream t d d' a L : dstep t d d' a -> stream d' L = stream d L ++ puts d t L.
Proof.
  intros S.
  destruct S as [Ep|s rest sm Ep Es Hv|s rest sm Ep Es Hv Hq|s rest d1 o1 Ep (sm & Es & -> & ->)|l rest lk Ep El
    |l rest lk Ep El Hh|c l rest lk cd w Ep El Hh Ec -> Hw|s rest sm Ep Es|o1 c l rest ops lk cd w q d1 r Ep Ho El Hh Ec Eq (sm & Es & -> & ->)
    |c l rest cd o1 Ep Ec ->|L' x rest sl Ep El Hx|L' rest sl x its Ep El Ei|o1 rest ops a Ep Hs];
    try (rewrite (puts_nil d t _ L Ep) by done; by rewrite app_nil_r).
  - rewrite (puts_nil d t _ L Ep), app_nil_r; [done|]. destruct Ho as [[-> _]|[-> _]]; done.
  - unfold puts, stream. rewrite Ep. cbn. case_decide as E.
    + subst. rewrite lookup_insert_eq, El. cbn. by rewrite app_assoc.
    + rewrite lookup_insert_ne by done. by rewrite app_nil_r.
  - rewrite (puts_nil d t _ L Ep), app_nil_r by done. unfold stream. cbn. destruct (decide (L = L')) as [->|].
    + rewrite lookup_insert_eq, El. cbn. by rewrite Ei, fmap_app, <- app_assoc.
    + by rewrite lookup_insert_ne.
  - rewrite (puts_nil d t _ L Ep), app_nil_r; [done|]. by destruct Hs.
Qed.

(** Only one thread at a time is about to take from a list. *)
Lemma take_alone irq d L t x r r' :
  locks_ok irq d -> refs_ok d -> prog d t = OpTake L :: r -> prog d x = OpTake L :: r' -> x = t.
Proof.
  intros HL R Et Ex. destruct (r_ops _ R t (OpTake L)) as [sl El]; [rewrite Et; left|].
  destruct (r_lists _ R L sl El) as [[lk Elk] _].
  destruct (lk_ok _ _ HL _ _ Elk) as (ph & v & HA & _ & HS).
  assert (Hin : forall y r0, prog d y = OpTake L :: r0 -> ph y = In).
  { intros y r0 Ey. specialize (HA y). rewrite Ey in HA. apply accepts_cons in HA as (ph' & Hn & _).
    cbn in Hn. unfold llock in Hn. rewrite El in Hn. cbn in Hn. rewrite bool_decide_true in Hn by done.
    by apply move_Some in Hn as [? _]. }
  destruct (lstate_only _ _ _ t HS) as [_ A]; [by rewrite (Hin t r Et)|].
  destruct (decide (x = t)) as [->|Hn]; [done|]. specialize (A x Hn). by rewrite (Hin x r' Ex) in A.
Qed.

Lemma dstep_items t d d' a L sl :
  dstep t d d' a -> lists d !! L = Some sl -> items sl <> [] -> (forall r, prog d t <> OpTake L :: r) ->
  exists sl', lists d' !! L = Some sl' /\ items sl' <> [].
Proof.
  intros S El Hi Ht.
  destruct S as [| | |s rest d1 o1 Ep (sm & Es & -> & ->)| | | | |o1 c l rest ops lk cd w q d1 r Ep Ho _ Hh Ec Eq (sm & Es & -> & ->)
    | |L' x rest sl' Ep El' Hx|L' rest sl' x its Ep El' Ei|]; try (by exists sl); cbn.
  - destruct (decide (L' = L)) as [->|]; [|exists sl; by rewrite lookup_insert_ne].
    rewrite lookup_insert_eq. eexists. split; [done|]. cbn. by destruct (items sl').
  - rewrite lookup_insert_ne; [by exists sl|]. intros ->. by eapply Ht.
Qed.

(** The program of the running thread keeps the rule of [turn]. *)
Lemma dstep_turn_self t d d' a : turn d t -> dstep t d d' a -> turn d' t.
Proof.
  intros T S.
  assert (Hrest : forall o rest, prog d t = o :: rest -> (forall L, o <> OpWhileEmpty L) -> guarded None rest = true).
  { intros o rest E Ho. destruct T as [T|(L & r & sl & E' & T & _)].
    - rewrite E in T. destruct o; cbn in T; try done; by destruct (Ho L).
    - rewrite E in E'. by injection E' as _ ->. }
  destruct S as [Ep|s rest sm Ep Es Hv|s rest sm Ep Es Hv Hq|s rest d1 o1 Ep (sm & Es & -> & ->)|l rest lk Ep El
    |l rest lk Ep El Hh|c l rest lk cd w Ep El Hh Ec -> Hw|s rest sm Ep Es|o1 c l rest ops lk cd w q d1 r Ep Ho El Hh Ec Eq (sm & Es & -> & ->)
    |c l rest cd o1 Ep Ec ->|L x rest sl Ep El Hx|L rest sl x its Ep El Ei|o1 rest ops a Ep Hs];
    try done; try (left; rewrite prog_set, decide_True by done; by eapply Hrest).
  - left. rewrite prog_set, decide_True by done. cbn [guarded]. by apply (Hrest _ _ Ep).
  - left. rewrite prog_set, decide_True by done. destruct Ho as [[-> ->]|[-> ->]]; cbn [guarded]; by eapply Hrest.
  - left. rewrite prog_set, decide_True by done. specialize (Hrest _ _ Ep). by case_bool_decide; apply Hrest.
  - unfold turn. rewrite !prog_set, !decide_True by done.
    destruct Hs as [| |L sl rest El Ei|L sl rest El Ei|]; try (left; by eapply Hrest);
      (destruct T as [T|(? & ? & ? & E' & _)]; [rewrite Ep in T; cbn in T|congruence]).
    + left. cbn. exact T.
    + destruct (guarded_Some L rest T) as [T'|(r & -> & T')]; [by left|right]. by exists L, r, sl.
Qed.

Lemma turn_dstep irq t d d' a :
  locks_ok irq d -> refs_ok d -> (forall x, turn d x) -> dstep t d d' a -> forall x, turn d' x.
Proof.
  intros HL R T S x. destruct (decide (x = t)) as [->|Hx]; [by eapply dstep_turn_self|].
  unfold turn. rewrite (dstep_prog_other _ _ _ _ _ S Hx).
  destruct (T x) as [?|(L & rest & sl & Ep & Hg & El & Hi)]; [by left|right].
  destruct (dstep_items _ _ _ _ L sl S El Hi) as (sl' & El' & Hi').
  - intros r Et. apply Hx. by eapply take_alone.
  - by exists L, rest, sl'.
Qed.

(** ** Progress *)

(** A thread that uses a lock, a condition or a list holds the lock. *)
Lemma holds_lock irq d l lk t o rest :
  locks_ok irq d -> locks d !! l = Some lk -> prog d t = o :: rest ->
  (o = OpClearHolder l \/ exists c, o = OpWait c l \/ o = OpSignal c l \/ o = OpBroadcast c l) ->
  lockHolder lk = Some t.
Proof.
  intros HL El Ep Ho. destruct (lk_ok _ _ HL _ _ El) as (ph & v & HA & _ & HS).
  apply HS. specialize (HA t). rewrite Ep in HA. apply accepts_cons in HA as (ph' & Hn & _).
  destruct Ho as [-> | [c [-> | [-> | ->]]]]; cbn in Hn; rewrite bool_decide_true in Hn by done;
    by apply move_Some in Hn as [? _].
Qed.

Lemma waiter_exists irq d c cd w q :
  waiters_ok irq d -> conds d !! c = Some cd -> waitQueue cd = w :: q -> is_Some (sems d !! w).
Proof.
  intros W Ec Eq. destruct (w_wq _ _ _ _ _ W c w) as (t & HD & _); [unfold wq; rewrite Ec; cbn; rewrite Eq; left|].
  destruct (w_exists _ _ _ _ _ W t _ HD) as [v Hv]. unfold val in Hv. cbn in Hv. destruct (sems d !! w); [by eexists|done].
Qed.

(** [Signal] and [Broadcast] with somebody waiting. *)
Lemma signal_total irq d t o c l rest ops cd lk w q :
  waiters_ok irq d -> locks_ok irq d -> prog d t = o :: rest -> signals o c l rest ops ->
  conds d !! c = Some cd -> locks d !! l = Some lk -> waitQueue cd = w :: q -> exists d' a, dstep t d d' a.
Proof.
  intros W HL Ep Ho Ec El Eq. destruct (waiter_exists irq d c cd w q W Ec Eq) as [sm Es].
  eexists _, _. eapply d_signal; try done; [|by exists sm].
  eapply holds_lock; try done. right. exists c. destruct Ho as [[-> _]|[-> _]]; auto.
Qed.

(** Programs that follow the rules never get stuck, except on an item that is
    already on the list it is appended to. *)
Lemma dstep_total irq k d t :
  sems_ok k None d -> awake k t -> waiters_ok irq d -> locks_ok irq d -> refs_ok d -> turn d t ->
  (forall L x rest sl, prog d t = OpListAppend L x :: rest -> lists d !! L = Some sl -> x ∉ items sl) ->
  exists d' a, dstep t d d' a.
Proof.
  intros Q HA W HL R T Happ. destruct (prog d t) as [|o rest] eqn:Ep; [eexists _, _; by apply d_exit|].
  assert (Hsem : forall so, sop_of o = Some so -> exists sm, sems d !! sname so = Some sm).
  { intros so Eo. destruct (w_exists _ _ _ _ _ W t so) as [v Hv].
    - unfold sp. rewrite Ep. cbn. rewrite Eo. left.
    - unfold val in Hv. destruct (sems d !! sname so); [by eexists|done]. }
  pose proof (r_ops _ R t o ltac:(rewrite Ep; left)) as Ho.
  destruct o as [s|s|l|l|c l|s|c l|c l|c l|L x|L|L| ]; cbn in Ho.
  - destruct (Hsem _ eq_refl) as [sm Es]. cbn in Es.
    assert (EQ : vqd d s = Some (value sm, queue sm)) by (unfold vqd; by rewrite Es).
    pose proof (q_val _ _ _ _ _ Q s _ _ EQ). destruct (decide (value sm = 0)) as [E|E].
    + eexists _, _. eapply d_wait; try done. intros Hin. destruct (q_in _ _ _ _ _ Q s _ _ t EQ Hin) as [Hb _].
      by eapply awake_not_blocked.
    + eexists _, _. eapply d_take; try done. lia.
  - destruct (Hsem _ eq_refl) as [sm Es]. eexists _, _. eapply d_V; [done|by exists sm].
  - destruct Ho as [lk El]. eexists _, _. by eapply d_set.
  - destruct Ho as [lk El]. eexists _, _. eapply d_clear; try done. eapply holds_lock; try done. by left.
  - destruct Ho as [[cd Ec] [lk El]]. eexists _, _. eapply d_cwait; try done.
    + eapply holds_lock; try done. right. exists c. by left.
    + intros Hin. destruct (w_wq _ _ _ _ _ W c (fresh_sem (sems d))) as (x & HD & _); [unfold wq; by rewrite Ec|].
      destruct (w_exists _ _ _ _ _ W x _ HD) as [v Hv]. unfold val in Hv. cbn in Hv. by rewrite fresh_sem_None in Hv.
  - destruct (Hsem _ eq_refl) as [sm Es]. eexists _, _. by eapply d_delete.
  - destruct Ho as [[cd Ec] [lk El]]. destruct (waitQueue cd) as [|w q] eqn:Eq.
    + eexists _, _. eapply d_silent; [done|]. eapply s_signal; try done.
      eapply holds_lock; try done. right. exists c. auto.
    + eapply (signal_total irq d t _ c l); try done. by left.
  - destruct Ho as [[cd Ec] [lk El]]. destruct (waitQueue cd) as [|w q] eqn:Eq.
    + eexists _, _. eapply d_silent; [done|]. by eapply s_broadcast.
    + eapply (signal_total irq d t _ c l); try done. by right.
  - destruct Ho as [[cd Ec] _]. eexists _, _. by eapply d_barrier.
  - destruct Ho as [sl El]. eexists _, _. eapply d_append; try done. by eapply Happ.
  - destruct Ho as [sl El]. destruct (decide (items sl = [])); eexists _, _; (eapply d_silent; [done|]);
      [by apply s_while|by eapply s_while_done].
  - destruct T as [T|(L' & r & sl & E & _ & El & Hi)]; [by rewrite Ep in T|].
    rewrite Ep in E. injection E as <- <-. destruct (items sl) as [|x its] eqn:Ei; [done|].
    eexists _, _. by eapply d_get.
  - eexists _, _. eapply d_silent; [done|]. apply s_yield.
Qed.

Lemma held_true t lk : lockHolder lk = Some t -> IsHeldByCurrentThread t lk = true.
Proof. intros H. by apply bool_decide_eq_true. Qed.

(** The step on the objects and the scheduler action make up the step. *)
Lemma step_join typeno y d' a s' :
  vals_ok (objs y) -> no_overflow (objs y) ->
  dstep (currentThread (kern y)) (objs y) d' a -> kact typeno (kern y) d' a = Ok s' ->
  step_thread typeno y = Ok s'.
Proof.
  intros HV HN S HK. unfold step_thread, Broadcast, Barrier. set (t := currentThread (kern y)) in *. set (d := objs y) in *.
  destruct S as [Ep|s rest sm Ep Es Hv|s rest sm Ep Es Hv Hq|s rest d1 o Ep Hv|l rest lk Ep El
    |l rest lk Ep El Hh|c l rest lk cd w Ep El Hh Ec -> Hw|s rest sm Ep Es|o c l rest ops lk cd w q d1 r Ep Ho El Hh Ec Eq Hv
    |c l rest cd o Ep Ec ->|L x rest sl Ep El Hx|L rest sl x its Ep El Ei|o rest ops a Ep Hs]; rewrite ?Ep.
  - exact HK.
  - rewrite Es. cbn [deref mbind res_bind]. unfold P_once. rewrite bool_decide_false by lia.
    cbn [mbind res_bind]. rewrite i32_id; [exact HK|]. destruct HN as [HN _]. specialize (HN s sm Es).
    unfold is_i32, int_min, int_max in *. lia.
  - rewrite Es. cbn [deref mbind res_bind]. unfold P_once. rewrite bool_decide_true by done.
    fold t. rewrite Append_ok by done. cbn [mbind res_bind]. cbn [kact] in HK.
    destruct (Sleep _ _ _); try done. rewrite Hv. exact HK.
  - destruct (awake_kact _ _ _ _ _ HK) as [y' ->].
    destruct (kact_prog _ _ _ d1 _ _ HK) as [HK' Eo].
    assert (do_V typeno y s = Ok (mkSys (kern y') d1)) as -> by (apply do_V_split; try done; by exists d1, o).
    cbn. destruct y'. cbn in *. by subst.
  - rewrite El. exact HK.
  - rewrite El. cbn [deref mbind res_bind]. rewrite held_true by done. exact HK.
  - unfold Wait. rewrite El. cbn [deref mbind res_bind]. rewrite held_true by done. rewrite Ec.
    cbn [deref ASSERT mbind res_bind]. rewrite Append_ok by done. exact HK.
  - rewrite Es. exact HK.
  - destruct (awake_kact _ _ _ _ _ HK) as [y' ->].
    destruct (kact_prog _ _ _ d1 _ _ HK) as [HK' Eo].
    assert (ES : Signal typeno y c l = Ok (mkSys (kern y') d1)).
    { apply (Signal_split typeno y c l lk cd w q); try done. by exists d1, r. }
    assert (Hp : prog d1 t = o :: rest) by (destruct Hv as (sm & _ & _ & ->); done).
    destruct Ho as [[-> ->]|[-> ->]].
    + rewrite ES. destruct y'. cbn in *. by subst.
    + rewrite Ec. cbn [deref mbind res_bind]. rewrite Eq, bool_decide_false, ES by done.
      rewrite (set_prog_same d1 t) in Eo by done. destruct y'. cbn in *. by subst.
  - rewrite Ec. cbn [deref mbind res_bind]. rewrite i32_succ by (split; [by eapply HV|by eapply HN]). exact HK.
  - rewrite El. cbn [deref mbind res_bind]. rewrite Append_ok by done. exact HK.
  - rewrite El. cbn [deref mbind res_bind]. rewrite Ei. exact HK.
  - destruct Hs as [c l lk cd rest El Hh Ec Ew|c l cd rest Ec Ew|L sl rest El Ei|L sl rest El Ei|rest].
    + unfold Signal. fold d t. rewrite El. cbn [deref mbind res_bind]. rewrite held_true by done. rewrite Ec.
      cbn [deref ASSERT mbind res_bind]. by rewrite bool_decide_true.
    + rewrite Ec. cbn [deref mbind res_bind]. by rewrite bool_decide_true.
    + rewrite El. cbn [deref mbind res_bind]. by rewrite bool_decide_true.
    + rewrite El. cbn [deref mbind res_bind]. by rewrite bool_decide_false.
    + exact HK.
Qed.
