(* ===== verification/SynchClaims.v ===== *)
(** * What the synchronisation primitives guarantee

    Programs that follow the documented rules start on a kernel that has forked
    any number of threads; every theorem holds in every state they can reach,
    whatever the preemptions and interrupts, under each scheduling policy. *)

From S2P Require Import Prelude Lists Sched SchedProofs SchedClaims.
From S2P Require Import Synch SynchProofs SynchObjects SynchInv SynchLists.

Definition sys_of (s : ystate) : Sys := match s with YRuns y | YIdles y _ => y end.
Definition fin_of (s : ystate) : option bool := match s with YRuns _ => None | YIdles _ f => Some f end.

(** ** Start *)

(** The semaphores an operation names exist, and it deletes none. *)
Definition op_sems (d : Objs) (o : op) : Prop :=
  match o with OpP s | OpV s => is_Some (sems d !! s) | OpDelete _ => False | _ => True end.

Record started (typeno : Z) (irq : gset Z) (p r : Z) (y : Sys) : Prop := mkStarted {
  st_kernel : rtc (kstep typeno) (boot_state p r) (Runs (kern y));
  st_awake : forall t, ~ blocked (kern y) t;
  st_sems : forall s sm, sems (objs y) !! s = Some sm -> 0 <= value sm /\ queue sm = [];
  st_locks : forall l lk, locks (objs y) !! l = Some lk ->
    lockHolder lk = None /\ val (objs y) (semaphore lk) = Some 1 /\ (semaphore lk ∉ irq);
  st_inj : forall l l' s, lsem (objs y) l = Some s -> lsem (objs y) l' = Some s -> l = l';
  st_irq : forall s, s ∈ irq -> is_Some (sems (objs y) !! s);
  st_conds : forall c cd, conds (objs y) !! c = Some cd -> waitQueue cd = [];
  st_refs : refs_ok (objs y);
  st_ops : forall t o, o ∈ prog (objs y) t -> op_sems (objs y) o;
  (** a list is read after the loop that waits for an item *)
  st_guarded : forall t, guarded None (prog (objs y) t) = true;
  (** locks are acquired and released in turn, conditions and lists used inside *)
  st_locking : forall t l lk, locks (objs y) !! l = Some lk ->
    accepts l (semaphore lk) (llock (objs y)) Out (prog (objs y) t) = true }.

(** ** The invariant *)

Section inv.
Context (typeno : Z) `{!Policy typeno} (irq : gset Z).

Record yinv (k : Kernel) (d : Objs) (fin : option bool) : Prop := mkYinv {
  y_kern : kern_ok typeno k fin;
  y_sems : sems_ok k fin d;
  y_waiters : waiters_ok irq d;
  y_locks : locks_ok irq d;
  y_refs : refs_ok d;
  y_turn : forall t, turn d t }.

Definition state_ok (s : ystate) : Prop := yinv (kern (sys_of s)) (objs (sys_of s)) (fin_of s).

Lemma yinv_vals k d fin : yinv k d fin -> vals_ok d.
Proof.
  intros Y. split.
  - intros s sm Es. eapply (q_val _ _ _ _ _ (y_sems _ _ _ Y) s). unfold vqd. by rewrite Es.
  - apply Y.
Qed.

Lemma state_ok_of k d fin : yinv k d fin -> state_ok (ystate_of k d fin).
Proof. by destruct fin. Qed.

(** A step on the objects. *)
Lemma yinv_dstep k d d' a :
  yinv k d None -> dstep (currentThread k) d d' a ->
  exists k' fin, kact typeno k d' a = Ok (ystate_of k' d' fin) /\ yinv k' d' fin.
Proof.
  intros [Y1 Y2 Y3 Y4 Y5 Y6] S.
  destruct (sems_dstep typeno irq k d d' a Y1 Y2 Y3 S) as (k' & fin & HK & HK' & HQ).
  exists k', fin. split; [done|]. split; try done.
  - by eapply waiters_dstep.
  - by eapply locks_dstep.
  - by eapply refs_dstep.
  - by eapply turn_dstep.
Qed.

(** [V] by an interrupt handler. *)
Lemma yinv_interrupt k d fin s d1 o :
  yinv k d fin -> s ∈ irq -> vstep d s d1 o ->
  exists k', kact typeno k d1 (AWake o) = Ok (YRuns (mkSys k' d1)) /\ yinv k' d1 fin.
Proof.
  intros [Y1 Y2 Y3 Y4 Y5 Y6] Hs Hv.
  destruct (sems_vstep typeno k fin d d s d1 o Y1 Y2 eq_refl eq_refl Hv) as (k' & HK & HK' & HQ & _).
  exists k'. split; [done|]. pose proof Hv as (sm & Es & _ & E1).
  assert (Hp : forall x, prog (set_prog d1 1%positive (prog d 1%positive)) x = prog d1 x).
  { intros x. rewrite prog_set. case_decide; [by subst|done]. }
  split; try done.
  - pose proof (waiters_vstep irq d s d1 o 1%positive (prog d 1%positive) Y3 Hv (or_intror (conj eq_refl Hs))) as W.
    refine (waiters_keep irq _ _ _ _ _ _ W); try done. intros x. unfold sp. by rewrite Hp.
  - assert (HL : locks_ok irq (set_prog d1 1%positive (prog d 1%positive))).
    { apply (locks_other_V irq d d s d1 o); try done.
      intros l lk El <-. by apply (lk_irq _ _ Y4 l (semaphore lk) (lsem_Some _ _ _ El)). }
    apply (locks_ok_intro irq _ _ HL); [done|]. intros l lk El.
    destruct (lk_ok _ _ HL l lk El) as (ph & v & HA & Hl). exists ph, v. split; [|done].
    intros t. rewrite <- Hp. apply HA.
  - subst d1. destruct Y5 as [R1 R2 R3]. by split.
  - subst d1. intros t. destruct (Y6 t) as [?|?]; [by left|by right].
Qed.

Lemma ystep_ok s s' : state_ok s -> ystep typeno irq s s' -> state_ok s'.
Proof.
  unfold state_ok. intros Y S. destruct S as [y s' HN HS|y k HS|y y' s Hs HN HS|y y' f s Hs HN HS|y k f HS]; cbn in Y.
  - apply step_split in HS as (d' & a & HD & HK); [|by eapply yinv_vals|done].
    destruct (yinv_dstep _ _ _ _ Y HD) as (k' & fin & HK' & Y'). rewrite HK in HK'. injection HK' as ->.
    by apply state_ok_of.
  - destruct (Yield_view typeno (kern y) _ (y_kern _ _ _ Y)) as (k' & EY & I & HV). rewrite HS in EY. injection EY as <-.
    destruct Y as [Y1 Y2 Y3 Y4 Y5 Y6]. split; try done. cbn.
    eapply (qinv_ext _ _ _ _ _ _ _ _ _ _ Y2); try done; intros x; try apply HV. unfold exiting. naive_solver.
  - apply do_V_split in HS as (d1 & o & Hv & HK); [|by eapply yinv_vals|done].
    destruct (yinv_interrupt _ _ _ _ _ _ Y Hs Hv) as (k' & HK' & Y'). rewrite HK in HK'. by injection HK' as ->.
  - apply do_V_split in HS as (d1 & o & Hv & HK); [|by eapply yinv_vals|done].
    destruct (yinv_interrupt _ _ _ _ _ _ Y Hs Hv) as (k' & HK' & Y'). rewrite HK in HK'. by injection HK' as ->.
  - destruct (wake_view typeno (kern y) f (y_kern _ _ _ Y)) as (r & EW & HK & _ & HB & HV).
    rewrite HS in EW. injection EW as <-. destruct Y as [Y1 Y2 Y3 Y4 Y5 Y6]. split; try done. cbn in *.
    eapply (qinv_replace _ _ _ _ _ _ _ _ Y2).
    + intros t Ht. apply HV. destruct f; [left|by right]. intros ->. by apply Ht.
    + intros t [[= ->] ->]. by apply HB.
    + intros t. apply not_exiting.
    + intros t. unfold exiting. destruct f; [|right; naive_solver].
      destruct (decide (t = currentThread (kern y))); [by left|right; naive_solver].
Qed.

Lemma yreachable_ok s s' : state_ok s -> rtc (ystep typeno irq) s s' -> state_ok s'.
Proof. intros H. induction 1 as [|s1 s2 s3 S _ IH]; [done|]. apply IH. by eapply ystep_ok. Qed.

Lemma started_waiters p r y : started typeno irq p r y -> waiters_ok irq (objs y).
Proof.
  intros [_ _ S3 S4 S5 S6 S7 S8 S9 _ _]. set (d := objs y) in *.
  assert (HD : forall t w, SD w ∉ sp d t).
  { intros t w (o & Ho & Eo)%list_elem_of_omap. destruct o; try done. by apply S9 in Ho. }
  assert (HQ : forall c w, w ∉ wq d c).
  { intros c w. unfold wq. destruct (conds d !! c) as [cd|] eqn:Ec; cbn; [rewrite (S7 c cd Ec)|]; apply not_elem_of_nil. }
  split.
  - intros t so (o & Ho & Eo)%list_elem_of_omap. specialize (S9 t o Ho). unfold val.
    destruct o; try done; injection Eo as <-; destruct S9 as [sm Es]; cbn; rewrite Es; by eexists.
  - intros l s Hl. unfold lsem in Hl. destruct (locks d !! l) as [lk|] eqn:El; [|done]. injection Hl as <-.
    destruct (S4 l lk El) as (_ & -> & _). by eexists.
  - intros s Hs. unfold val. destruct (S6 s Hs) as [sm ->]. by eexists.
  - intros c. destruct (wq d c) as [|w q] eqn:E; [constructor|]. exfalso. apply (HQ c w). rewrite E. left.
  - intros c c' w Hw. by apply HQ in Hw.
  - intros t w Hw. by apply HD in Hw.
  - intros t w Hw. by apply HD in Hw.
  - intros c w Hw. by apply HQ in Hw.
Qed.

Lemma started_ok p r y :
  started typeno irq p r y -> inv typeno (kern y) (Some (currentThread (kern y))) None -> state_ok (YRuns y).
Proof.
  intros S I. pose proof S as [_ S2 S3 S4 S5 S6 S7 S8 S9 S10 S11]. split; cbn.
  - exact I.
  - split.
    + intros s v q. unfold vqd. destruct (sems (objs y) !! s) as [sm|] eqn:E; [|done]. intros [= <- <-]. by apply (S3 s).
    + intros s v q. unfold vqd. destruct (sems (objs y) !! s) as [sm|] eqn:E; [|done]. intros [= <- <-].
      destruct (S3 s sm E) as [_ ->]. constructor.
    + intros s v q t. unfold vqd. destruct (sems (objs y) !! s) as [sm|] eqn:E; [|done]. intros [= <- <-].
      destruct (S3 s sm E) as [_ ->]. by intros ?%not_elem_of_nil.
    + intros t Ht. by apply S2 in Ht.
    + intros s v q. unfold vqd. destruct (sems (objs y) !! s) as [sm|] eqn:E; [|done]. intros [= <- <-].
      by destruct (S3 s sm E) as [_ ->].
    + intros t Ht. by apply not_exiting in Ht.
    + intros t _. apply S2.
  - by eapply started_waiters.
  - split; try done.
    + intros l lk El. destruct (S4 l lk El) as (Hh & Hv & _). exists (fun _ => Out), 1. split_and!; try done.
      * intros t. by apply S11.
      * split; [by left|]. intros t. rewrite Hh. done.
    + intros l s Hl. unfold lsem in Hl. destruct (locks (objs y) !! l) as [lk|] eqn:El; [|done].
      injection Hl as <-. by apply (S4 l).
  - done.
  - intros t. left. apply S10.
Qed.

End inv.

Lemma reachable_yinv typeno irq p r y s :
  0 <= typeno <= 3 -> (typeno = 3 -> -1 <= p <= 4) ->
  started typeno irq p r y -> rtc (ystep typeno irq) (YRuns y) s ->
  exists HP : Policy typeno, state_ok typeno irq s.
Proof.
  intros Ht Hp HS HR. destruct (reachable_inv typeno p r (kern y) Ht Hp) as (HP & _ & I); [apply HS|].
  exists HP. eapply yreachable_ok; [|exact HR]. by eapply started_ok.
Qed.

(** ** Semaphores *)

Section claims.
Context (typeno : Z) (irq : gset Z) (p r : Z) (y : Sys) (s : ystate).

(** [s] is reachable from the start state [y]. *)
Definition runs_to : Prop :=
  0 <= typeno <= 3 /\ (typeno = 3 -> -1 <= p <= 4) /\ started typeno irq p r y /\
  rtc (ystep typeno irq) (YRuns y) s.

Lemma runs_to_ok : runs_to -> exists HP : Policy typeno, state_ok typeno irq s.
Proof. intros (H1 & H2 & H3 & H4). by eapply reachable_yinv. Qed.

(** The next step of [t] is [P] on the semaphore [x]. *)
Definition about_to_P (d : Objs) (t : tptr) (x : Z) : Prop := exists rest, prog d t = OpP x :: rest.

Lemma hdP_about d t x : hdP d t = Some x -> about_to_P d t x.
Proof. unfold hdP, about_to_P. destruct (prog d t) as [|[] rest]; try done. intros [= ->]. by exists rest. Qed.

(** C3: semaphores lose no wake-up.  In every reachable state the value of a
    semaphore is not negative; its queue holds each thread at most once, and
    only threads that are blocked and will try [P] again; if threads wait, there
    are at least [value] awake threads about to [P] the semaphore, so that no
    thread sleeps while its semaphore stays available; and every blocked thread
    is in the queue of a semaphore, except one that has just finished. *)
Theorem semaphore_no_lost_wakeup : runs_to ->
  let k := kern (sys_of s) in
  let d := objs (sys_of s) in
  (forall x sm, sems d !! x = Some sm ->
     0 <= value sm /\ NoDup (queue sm) /\
     (forall t, t ∈ queue sm -> blocked k t /\ about_to_P d t x) /\
     (queue sm <> [] -> exists ts, NoDup ts /\ value sm <= Z.of_nat (length ts) /\
        forall t, t ∈ ts -> awake k t /\ about_to_P d t x)) /\
  (forall t, blocked k t ->
     (exists x sm, sems d !! x = Some sm /\ t ∈ queue sm) \/
     (fin_of s = Some true /\ t = currentThread k)).
Proof.
  intros HR k d. destruct (runs_to_ok HR) as [HP [_ Q _ _ _ _]]. split.
  - intros x sm Es. assert (EQ : vqd d x = Some (value sm, queue sm)) by (unfold vqd; by rewrite Es).
    split_and!; [by eapply Q|by eapply Q| |].
    + intros t Ht. destruct (q_in _ _ _ _ _ Q x _ _ t EQ Ht) as [H1 H2]. split; [done|by apply hdP_about].
    + intros Hq. destruct (q_wake _ _ _ _ _ Q x _ _ EQ Hq) as (ts & H1 & H2 & H3). exists ts. split_and!; try done.
      intros t Ht. destruct (H3 t Ht). split; [done|by apply hdP_about].
  - intros t Ht. destruct (q_blocked _ _ _ _ _ Q t Ht) as [H|(x & v & q & E & Hq)]; [by right|left].
    unfold vqd in E. fold d in E. destruct (sems d !! x) as [sm|] eqn:Es; [|done]. injection E as <- <-. by exists x, sm.
Qed.

(** ** Locks *)

(** C19: mutual exclusion.  In every reachable state, for every lock: at most one
    thread is between the [P] of [Acquire] and the [V] of [Release]; the value of
    its semaphore is 1 when there is none and 0 when there is one; and
    [lockHolder] is exactly the thread that holds the lock. *)
Theorem lock_mutual_exclusion : runs_to ->
  let d := objs (sys_of s) in
  forall l lk, locks d !! l = Some lk ->
  let at_ t := phase_of l (semaphore lk) (llock d) (prog d t) in
  (forall t1 t2, at_ t1 <> Out -> at_ t2 <> Out -> t1 = t2) /\
  ((val d (semaphore lk) = Some 1 /\ forall t, at_ t = Out) \/
   (val d (semaphore lk) = Some 0 /\ exists t, at_ t <> Out)) /\
  (forall t, lockHolder lk = Some t <-> at_ t = In).
Proof.
  intros HR d l lk El at_. destruct (runs_to_ok HR) as [HP [_ _ _ HL _ _]].
  destruct (lk_ok _ _ HL l lk El) as (ph & v & HA & Hv & HS).
  assert (E : forall t, at_ t = ph t) by (intros t; by apply phase_of_accepts).
  split_and!.
  - intros t1 t2. rewrite !E. intros H1 H2. destruct (decide (t1 = t2)) as [|Hn]; [done|].
    destruct (lstate_only _ _ _ t2 HS H2) as [_ A]. by rewrite A in H1.
  - destruct HS as [[[-> A]|(-> & t0 & A & _)] _]; [left|right]; (split; [done|]).
    + intros t. by rewrite E.
    + exists t0. by rewrite E.
  - intros t. rewrite E. apply HS.
Qed.

(** ** Conditions *)

(** C18: conditions lose no signal.  While a thread is inside [Wait], its private
    semaphore exists, nobody else uses it, and until the thread passes it either
    the semaphore is in exactly one wait queue, unsignalled, or [Signal] has taken
    it off and its value is 1, also when the signal came between the release of
    the lock and [P]; and every entry of a wait queue belongs to a thread that is
    inside [Wait], so that no deleted semaphore is ever signalled. *)
Theorem condition_signal_not_lost : runs_to ->
  let d := objs (sys_of s) in
  (forall t w, OpDelete w ∈ prog d t ->
     is_Some (sems d !! w) /\
     (forall t' x, t' <> t -> (OpP x ∈ prog d t' \/ OpV x ∈ prog d t' \/ OpDelete x ∈ prog d t') -> x <> w) /\
     (OpP w ∈ prog d t ->
        (val d w = Some 0 /\ exists c, w ∈ wq d c /\ forall c', w ∈ wq d c' -> c' = c) \/
        (val d w = Some 1 /\ forall c, w ∉ wq d c))) /\
  (forall c w, w ∈ wq d c -> exists t, OpP w ∈ prog d t /\ OpDelete w ∈ prog d t).
Proof.
  intros HR d. destruct (runs_to_ok HR) as [HP [_ _ W _ _ _]].
  change (waiters_ok irq d) in W. destruct W as [W1 W2 W3 W4 W5 W6 W7 W8].
  assert (Hin : forall t o so, o ∈ prog d t -> sop_of o = Some so -> so ∈ sp d t).
  { intros t o so Ho Eo. apply list_elem_of_omap. by exists o. }
  assert (Hout : forall t so, so ∈ sp d t -> exists o, o ∈ prog d t /\ sop_of o = Some so).
  { intros t so (o & Ho & Eo)%list_elem_of_omap. by exists o. }
  split.
  - intros t w HD. pose proof (Hin t _ _ HD eq_refl) as HD'. destruct (W6 t w HD') as (A & _). split_and!.
    + destruct (W1 t _ HD') as [v Hv]. unfold val in Hv. cbn in Hv. destruct (sems d !! w); [by eexists|done].
    + intros t' x Ht [Ho|[Ho|Ho]]; by apply (A t' _ Ht (Hin t' _ _ Ho eq_refl)).
    + intros HPw. destruct (W7 t w HD' (Hin t _ _ HPw eq_refl)) as [[Hv [c Hc]]|H]; [left|by right].
      split; [done|]. exists c. split; [done|]. intros c' Hc'. by eapply W5.
  - intros c w Hw. destruct (W8 c w Hw) as (t & HD & HPw). exists t.
    destruct (Hout t _ HD) as (o1 & Ho1 & E1), (Hout t _ HPw) as (o2 & Ho2 & E2).
    destruct o1, o2; try done. injection E1 as ->. by injection E2 as ->.
Qed.

(** C2: synchronisation never fails.  In every reachable state in which a thread
    runs, its next step succeeds: no assertion fails and no object is used after
    its deletion, the only exception being an item appended to a list that already
    holds it; and while the processor idles, interrupt handlers can signal their
    semaphores and the idle loop can look for a thread. *)
Theorem synch_never_fails : runs_to -> no_overflow (objs (sys_of s)) ->
  match s with
  | YRuns y' =>
      (forall L x rest sl, prog (objs y') (currentThread (kern y')) = OpListAppend L x :: rest ->
         lists (objs y') !! L = Some sl -> x ∉ items sl) ->
      exists s', step_thread typeno y' = Ok s'
  | YIdles y' fin =>
      (forall x, x ∈ irq -> exists y'', do_V typeno y' x = Ok y'') /\ exists w, wake typeno (kern y') fin = Ok w
  end.
Proof.
  intros HR HN. destruct (runs_to_ok HR) as [HP Y]. pose proof (yinv_vals _ _ _ _ _ Y) as HV.
  destruct s as [y'|y' fin]; cbn in *.
  - intros Happ. pose proof Y as [Y1 Y2 Y3 Y4 Y5 Y6].
    destruct (dstep_total irq (kern y') (objs y') (currentThread (kern y'))) as (d' & a & HD); try done.
    { by eapply cur_awake. }
    destruct (yinv_dstep _ _ _ _ _ _ Y HD) as (k' & f & HK & _). eexists. by eapply step_join.
  - split.
    + intros x Hx. destruct (w_irq _ _ _ _ _ (y_waiters _ _ _ _ _ Y) x Hx) as [v Hv]. unfold val in Hv. cbn in Hv.
      destruct (sems (objs y') !! x) as [sm|] eqn:Es; [|done].
      assert (HS : vstep (objs y') x (set_sem (objs y') x (mkSem (value sm + 1) (tail (queue sm)))) (head (queue sm)))
        by (by exists sm).
      destruct (yinv_interrupt _ _ _ _ _ x _ _ Y Hx HS) as (k' & HK & _).
      eexists. apply do_V_split; try done. eexists _, _. by split; [exact HS|exact HK].
    + destruct (wake_view typeno (kern y') fin (y_kern _ _ _ _ _ Y)) as (w & E & _). by exists w.
Qed.

End claims.

(** ** Synchronised lists and barriers *)

Lemma ystep_extends typeno `{!Policy typeno} irq s s' :
  state_ok typeno irq s -> ystep typeno irq s s' ->
  extends (objs (sys_of s)) (objs (sys_of s')) /\
  forall L, stream (objs (sys_of s)) L `prefix_of` stream (objs (sys_of s')) L.
Proof.
  unfold state_ok. intros Y S.
  assert (Hkeep : forall d d', locks d' = locks d -> conds d' = conds d -> lists d' = lists d ->
    extends d d' /\ forall L, stream d L `prefix_of` stream d' L).
  { intros d d' E1 E2 E3. split; [by apply extends_refl|]. intros L. unfold stream. by rewrite E3. }
  destruct S as [y s' HN HS|y k HS|y y' x Hs HN HS|y y' f x Hs HN HS|y k f HS]; cbn in Y |- *; try by apply Hkeep.
  - apply step_split in HS as (d' & a & HD & HK); [|by eapply yinv_vals|done].
    destruct (yinv_dstep _ _ _ _ _ _ Y HD) as (k' & fin & HK' & Y'). rewrite HK in HK'. injection HK' as ->.
    assert (objs (sys_of (ystate_of k' d' fin)) = d') as -> by (by destruct fin).
    split; [by eapply dstep_extends|]. intros L. rewrite (dstep_stream _ _ _ _ L HD). by apply prefix_app_r.
  - apply do_V_split in HS as (d1 & o & (sm & _ & _ & ->) & HK); [|by eapply yinv_vals|done].
    destruct (kact_prog _ _ _ (objs y) _ _ HK) as [_ ->]. by apply Hkeep.
  - apply do_V_split in HS as (d1 & o & (sm & _ & _ & ->) & HK); [|by eapply yinv_vals|done].
    destruct (kact_prog _ _ _ (objs y) _ _ HK) as [_ ->]. by apply Hkeep.
Qed.

Lemma ysteps_extend typeno `{!Policy typeno} irq s s' :
  state_ok typeno irq s -> rtc (ystep typeno irq) s s' ->
  (forall c cd, conds (objs (sys_of s)) !! c = Some cd -> exists cd',
     conds (objs (sys_of s')) !! c = Some cd' /\ barrierNum cd <= barrierNum cd') /\
  forall L, stream (objs (sys_of s)) L `prefix_of` stream (objs (sys_of s')) L.
Proof.
  intros H. induction 1 as [s|s1 s2 s3 S _ IH].
  - split; [|done]. intros c cd E. exists cd. split; [done|lia].
  - destruct (ystep_extends typeno irq s1 s2 H S) as [E1 E2].
    destruct IH as [I1 I2]; [by eapply ystep_ok|]. split.
    + intros c cd E. destruct (e_conds _ _ E1 c) as [cd2 Ec2]; [by eexists|].
      destruct (e_barrier _ _ E1 c cd2 Ec2) as (cd1 & Ec1 & Hb). rewrite E in Ec1. injection Ec1 as <-.
      destruct (I1 c cd2 Ec2) as (cd3 & Ec3 & Hb'). exists cd3. split; [done|lia].
    + intros L. transitivity (stream (objs (sys_of s2)) L); [apply E2|apply I2].
Qed.

(** C20: a synchronised list is a queue.  In every reachable state a thread that
    is about to take an item finds one, although [RemoveFront] gives up the lock
    while it waits; and between any two states the sequence of all items handed
    out followed by the items on the list only grows at its end: every item is
    handed out at most once, and in the order of the calls of [Append]. *)
Theorem synchlist_is_a_queue typeno irq p r y (s s' : ystate) :
  runs_to typeno irq p r y s -> rtc (ystep typeno irq) s s' ->
  forall L, (stream (objs (sys_of s)) L `prefix_of` stream (objs (sys_of s')) L) /\
    (forall t rest sl, prog (objs (sys_of s)) t = OpTake L :: rest ->
       lists (objs (sys_of s)) !! L = Some sl -> items sl <> []).
Proof.
  intros HR HS L. destruct (runs_to_ok _ _ _ _ _ _ HR) as [HP Y]. split.
  - by apply (ysteps_extend typeno irq s s' Y HS).
  - intros t rest sl Ep El. destruct (y_turn _ _ _ _ _ Y t) as [T|(L' & r' & sl' & E & _ & El' & Hi)].
    + by rewrite Ep in T.
    + rewrite Ep in E. injection E as <- <-. congruence.
Qed.

(** [Barrier] works once.  [barrierNum] is never reset: when [BARRIER_NUM]
    threads have arrived at a condition, every later call of [Barrier] on it turns
    into [Wait], for ever, so that a second round of threads is never released by
    its last arrival. *)
Theorem barrier_used_up typeno irq p r y (s : ystate) y' c cd l rest s' :
  runs_to typeno irq p r y s -> conds (objs (sys_of s)) !! c = Some cd -> BARRIER_NUM <= barrierNum cd ->
  rtc (ystep typeno irq) s (YRuns y') -> no_overflow (objs y') ->
  prog (objs y') (currentThread (kern y')) = OpBarrier c l :: rest ->
  step_thread typeno y' = Ok s' ->
  prog (objs (sys_of s')) (currentThread (kern y')) = OpWait c l :: rest.
Proof.
  intros HR Ec Hb HS HN Ep HT. destruct (runs_to_ok _ _ _ _ _ _ HR) as [HP Y].
  destruct (ysteps_extend typeno irq s _ Y HS) as [H _]. destruct (H c cd Ec) as (cd' & Ec' & Hb'). cbn in Ec'.
  unfold step_thread, Barrier in HT. rewrite Ep, Ec' in HT. cbn [deref mbind res_bind] in HT.
  destruct HN as [_ HN]. specialize (HN c cd' Ec'). unfold BARRIER_NUM in *.
  rewrite i32_succ in HT by lia. rewrite bool_decide_false in HT by lia. injection HT as <-.
  cbn [sys_of objs]. by rewrite prog_set, decide_True.
Qed.

(** ** An execution: a consumer waits for the item of a producer *)

Definition two_threads : res Kernel :=
  k ← newThread 2 (boot 0 0) 2%positive 0 0; k ← Fork_ready 2 k 2%positive; Fork_check 2 k.

Definition demo_kern : Kernel := match two_threads with Ok k => k | _ => boot 0 0 end.

Definition demo_lock : Lock := mkLock None 0.
Definition demo_list : SynchList := mkSynchList [] 10 20 [].

Definition demo_objs : Objs :=
  mkObjs (<[0 := mkSem 1 []]> {[1 := mkSem 0 []]}) {[10 := demo_lock]} {[20 := mkCond 5 []]} {[30 := demo_list]}
    (<[1%positive := ListRemoveFront 30 demo_list demo_lock ++ [OpP 1]]>
      {[2%positive := ListAppend 30 7 demo_list demo_lock ++
          Acquire 10 demo_lock ++ [OpBarrier 20 10] ++ Release 10 demo_lock]}).

Definition demo_sys : Sys := mkSys demo_kern demo_objs.
Definition demo_irq : gset Z := {[1]}.

#[local] Instance op_refs_dec d o : Decision (op_refs d o).
Proof. destruct o; cbn; apply _. Defined.
#[local] Instance op_sems_dec d o : Decision (op_sems d o).
Proof. destruct o; cbn; apply _. Defined.

Lemma prog_forall (d : Objs) (P : list op -> Prop) :
  P [] -> map_Forall (fun _ => P) (progs d) -> forall t, P (prog d t).
Proof. intros H0 H t. unfold prog. destruct (progs d !! t) eqn:E; [by eapply H|done]. Qed.

Lemma demo_started : started 2 demo_irq 0 0 demo_sys.
Proof.
  split.
  - eapply rtc_l; [eapply (step_new 2 _ _ 2%positive 0 0); vm_compute; reflexivity|].
    eapply rtc_l; [eapply (step_fork 2 _ _ 2%positive); vm_compute; reflexivity|].
    eapply rtc_l; [eapply step_fork_check; vm_compute; reflexivity|]. apply rtc_refl.
  - assert (H : map_Forall (fun _ th => status th <> BLOCKED) (threads demo_kern))
      by (apply (bool_decide_unpack _); vm_compute; exact I).
    intros t. unfold blocked. cbn [demo_sys kern]. destruct (threads demo_kern !! t) eqn:E; [|done].
    intros [= F]. by eapply H.
  - assert (H : map_Forall (fun _ sm => 0 <= value sm /\ queue sm = []) (sems demo_objs))
      by (apply (bool_decide_unpack _); vm_compute; exact I). exact H.
  - assert (H : map_Forall (fun _ lk => lockHolder lk = None /\ val demo_objs (semaphore lk) = Some 1 /\
      (semaphore lk ∉ demo_irq)) (locks demo_objs)) by (apply (bool_decide_unpack _); vm_compute; exact I). exact H.
  - intros l l' s. unfold lsem. cbn [demo_sys objs demo_objs locks].
    intros H1 H2. apply fmap_Some in H1 as (lk & [<- _]%lookup_singleton_Some & _).
    by apply fmap_Some in H2 as (lk' & [<- _]%lookup_singleton_Some & _).
  - intros s ->%elem_of_singleton. by eexists.
  - assert (H : map_Forall (fun _ cd => waitQueue cd = []) (conds demo_objs))
      by (apply (bool_decide_unpack _); vm_compute; exact I). exact H.
  - split.
    + intros t. apply Forall_forall, (prog_forall _ (Forall (op_refs demo_objs))); [constructor|].
      apply (bool_decide_unpack _); vm_compute; exact I.
    + assert (H : map_Forall (fun _ sl => is_Some (locks demo_objs !! lock sl) /\ is_Some (conds demo_objs !! listEmpty sl))
        (lists demo_objs)) by (apply (bool_decide_unpack _); vm_compute; exact I). exact H.
    + assert (H : map_Forall (fun _ cd => 0 <= barrierNum cd) (conds demo_objs))
        by (apply (bool_decide_unpack _); vm_compute; exact I). exact H.
  - intros t. apply Forall_forall, (prog_forall _ (Forall (op_sems demo_objs))); [constructor|].
    apply (bool_decide_unpack _); vm_compute; exact I.
  - apply (prog_forall _ (fun ops => guarded None ops = true)); [done|]. apply (bool_decide_unpack _); vm_compute; exact I.
  - intros t l lk El. cbn [demo_sys objs demo_objs locks] in El. apply lookup_singleton_Some in El as [<- <-].
    apply (prog_forall _ (fun ops => accepts 10 0 (llock demo_objs) Out ops = true)); [done|].
    apply (bool_decide_unpack _); vm_compute; exact I.
Qed.

(** [n] steps without preemption. *)
Definition small (d : Objs) : bool :=
  bool_decide (map_Forall (fun _ sm => value sm < int_max) (sems d)) &&
  bool_decide (map_Forall (fun _ cd => barrierNum cd < int_max) (conds d)).

Lemma small_ok d : small d = true -> no_overflow d.
Proof. unfold small. rewrite andb_true_iff, !bool_decide_eq_true. done. Qed.

Fixpoint run_steps (n : nat) (s : ystate) : ystate :=
  match n, s with
  | S n', YRuns y =>
      if small (objs y) then match step_thread 2 y with Ok s' => run_steps n' s' | _ => s end else s
  | _, _ => s
  end.

Lemma run_steps_reach irq n s : rtc (ystep 2 irq) s (run_steps n s).
Proof.
  revert s. induction n as [|n IH]; intros s; [destruct s; apply rtc_refl|].
  destruct s as [y|y f]; cbn [run_steps]; [|apply rtc_refl].
  destruct (small (objs y)) eqn:E; [|apply rtc_refl].
  destruct (step_thread 2 y) as [s'| | | ] eqn:ES; try apply rtc_refl.
  eapply rtc_l; [|apply IH]. apply y_step; [by apply small_ok|done].
Qed.

Definition demo_at (n : nat) : ystate := run_steps n (YRuns demo_sys).

Lemma demo_runs n : runs_to 2 demo_irq 0 0 demo_sys (demo_at n).
Proof. split_and!; [done|done|done|exact demo_started|apply run_steps_reach]. Qed.

(** The consumer sleeps on its private semaphore, number 2. *)
Lemma semaphore_no_lost_wakeup_witness : blocked (kern (sys_of (demo_at 7))) 1%positive /\
  about_to_P (objs (sys_of (demo_at 7))) 1%positive 2.
Proof.
  destruct (semaphore_no_lost_wakeup 2 demo_irq 0 0 demo_sys (demo_at 7) (demo_runs 7)) as [H _].
  destruct (H 2 (mkSem 0 [1%positive])) as (_ & _ & Hq & _); [vm_compute; reflexivity|]. apply Hq. left.
Defined.

(** The producer holds the lock. *)
Lemma lock_mutual_exclusion_witness :
  phase_of 10 0 (llock (objs (sys_of (demo_at 9)))) (prog (objs (sys_of (demo_at 9))) 2%positive) = In.
Proof.
  destruct (lock_mutual_exclusion 2 demo_irq 0 0 demo_sys (demo_at 9) (demo_runs 9) 10 (mkLock (Some 2%positive) 0))
    as (_ & _ & H); [vm_compute; reflexivity|]. by apply H.
Defined.

(** The consumer has been signalled. *)
Lemma condition_signal_not_lost_witness : is_Some (sems (objs (sys_of (demo_at 11))) !! 2).
Proof.
  destruct (condition_signal_not_lost 2 demo_irq 0 0 demo_sys (demo_at 11) (demo_runs 11)) as [H _].
  apply (H 1%positive 2). apply (bool_decide_unpack _). vm_compute. exact I.
Defined.

(** The consumer takes the item that is on the list. *)
Lemma synchlist_is_a_queue_witness :
  stream (objs (sys_of (demo_at 25))) 30 `prefix_of` stream (objs (sys_of (run_steps 1 (demo_at 25)))) 30.
Proof.
  apply (synchlist_is_a_queue 2 demo_irq 0 0 demo_sys (demo_at 25) (run_steps 1 (demo_at 25)));
    [exact (demo_runs 25)|apply run_steps_reach].
Defined.

Definition demo_run_sys (n : nat) : Sys := sys_of (demo_at n).

Lemma demo_runs_sys n : fin_of (demo_at n) = None -> runs_to 2 demo_irq 0 0 demo_sys (YRuns (demo_run_sys n)).
Proof.
  intros H. pose proof (demo_runs n) as HR. unfold demo_run_sys.
  destruct (demo_at n); [exact HR|discriminate H].
Qed.

Lemma synch_never_fails_witness : exists s', step_thread 2 (demo_run_sys 9) = Ok s'.
Proof.
  assert (H : no_overflow (objs (demo_run_sys 9))) by (apply small_ok; vm_compute; reflexivity).
  assert (HR : runs_to 2 demo_irq 0 0 demo_sys (YRuns (demo_run_sys 9)))
    by (apply demo_runs_sys; vm_compute; reflexivity).
  apply (synch_never_fails 2 demo_irq 0 0 demo_sys (YRuns (demo_run_sys 9)) HR H).
  intros L x rest sl Ep El. vm_compute in Ep. injection Ep as <- <- <-. vm_compute in El.
  injection El as <-. apply not_elem_of_nil.
Defined.

(** Five threads have passed; the producer arrives and waits. *)
Lemma barrier_used_up_witness :
  prog (objs (sys_of (demo_at 16))) (currentThread (kern (demo_run_sys 15))) = OpWait 20 10 :: Release 10 demo_lock.
Proof.
  assert (HR : runs_to 2 demo_irq 0 0 demo_sys (YRuns (demo_run_sys 15)))
    by (apply demo_runs_sys; vm_compute; reflexivity).
  assert (HN : no_overflow (objs (demo_run_sys 15))) by (apply small_ok; vm_compute; reflexivity).
  apply (barrier_used_up 2 demo_irq 0 0 demo_sys (YRuns (demo_run_sys 15)) (demo_run_sys 15) 20 (mkCond 5 []) 10
    (Release 10 demo_lock)); [exact HR|vm_compute; reflexivity|done|apply rtc_refl|exact HN|vm_compute; reflexivity|].
  vm_compute. reflexivity.
Defined.
