(* ===== verification/Explore.v ===== *)
(** * Finite transition systems explored

    A system with finitely many reachable states can be checked by computing them.
    The states are kept in a table by a hash; nothing is assumed of the hash.  When
    nothing is left to do the table is closed under the successors and holds every
    reachable state, so what a test finds in the table holds in all of them; a
    table of states from which a final state can be reached is built by following
    one successor at a time. *)

From S2P Require Import Prelude.

Section explore.
Context {S : Type} `{!EqDecision S} (hash : S -> positive) (succs : S -> list S) (final : S -> bool).

Definition mem (T : gmap positive (list S)) (s : S) : bool := bool_decide (s ∈ default [] (T !! hash s)).
Definition add (T : gmap positive (list S)) (s : S) : gmap positive (list S) := <[hash s := s :: default [] (T !! hash s)]> T.
Definition states (T : gmap positive (list S)) : list S := concat ((map_to_list T).*2).

(** Depth first, from the states of a list; [None] when the fuel runs out. *)
Fixpoint explore (fuel : nat) (T : gmap positive (list S)) (todo : list S) : option (gmap positive (list S)) :=
  match todo, fuel with
  | [], _ => Some T
  | s :: todo, Datatypes.S n => if mem T s then explore n T todo else explore n (add T s) (succs s ++ todo)
  | _, O => None
  end.

(** The first successors of a state up to a final one, or one known to lead there. *)
Fixpoint walk (fuel : nat) (G : gmap positive (list S)) (path : list S) (s : S) : gmap positive (list S) :=
  match fuel with
  | O => G
  | Datatypes.S n =>
      if final s || mem G s then foldl add G (s :: path)
      else match succs s with s' :: _ => walk n G (s :: path) s' | [] => G end
  end.

Definition leading (fuel : nat) (T : gmap positive (list S)) : gmap positive (list S) := foldl (fun G s => walk fuel G [] s) ∅ (states T).

(** Enough fuel, and the states reachable from [s0] all pass the test, and lead to
    final ones, except those of [stuck]. *)
Definition explored (fuel : nat) (test stuck : S -> bool) (s0 : S) : bool :=
  match explore fuel ∅ [s0] with
  | Some T => let G := leading fuel T in forallb (fun s => test s && (stuck s || mem G s)) (states T)
  | None => false
  end.

Definition succ (s s' : S) : Prop := s' ∈ succs s.
Definition leads (s : S) : Prop := exists s', rtc succ s s' /\ final s' = true.

(** ** What is in a table *)

Lemma mem_states T s : mem T s = true -> s ∈ states T.
Proof.
  unfold mem, states. rewrite bool_decide_eq_true. destruct (T !! hash s) as [l|] eqn:E; cbn; intros H;
    [|by apply not_elem_of_nil in H].
  apply list_elem_of_In, in_concat. exists l. rewrite <- !list_elem_of_In. split; [|done].
  apply list_elem_of_fmap. exists (hash s, l). split; [done|]. by apply elem_of_map_to_list.
Qed.

Lemma mem_add T s s' : mem (add T s) s' = true <-> s' = s \/ mem T s' = true.
Proof.
  unfold mem, add. rewrite !bool_decide_eq_true. destruct (decide (hash s = hash s')) as [E|E].
  - rewrite E, lookup_insert_eq. cbn. by rewrite elem_of_cons.
  - rewrite lookup_insert_ne by done. naive_solver.
Qed.

Lemma mem_adds T l s : mem (foldl add T l) s = true -> s ∈ l \/ mem T s = true.
Proof.
  revert T. induction l as [|x l IH]; intros T; cbn; [by right|]. intros [H|[->|H]%mem_add]%IH.
  - left. by right.
  - left. left.
  - by right.
Qed.

(** What the exploration keeps: the successors of a state in the table are in it
    or still to do. *)
Lemma explore_closed fuel T todo T' :
  explore fuel T todo = Some T' ->
  (forall s s', mem T s = true -> succ s s' -> mem T s' = true \/ s' ∈ todo) ->
  (forall s, mem T s = true \/ s ∈ todo -> mem T' s = true) /\
  (forall s s', mem T' s = true -> succ s s' -> mem T' s' = true).
Proof.
  revert T todo. induction fuel as [|fuel IH]; intros T [|s todo] HE HT; cbn in HE; try done;
    try (injection HE as <-; split; [by intros s [?|?%not_elem_of_nil]|];
         by intros s s' H HS; destruct (HT _ _ H HS) as [?|?%not_elem_of_nil]).
  destruct (mem T s) eqn:E.
  - destruct (IH _ _ HE) as [H1 H2].
    { intros x x' Hx HS. destruct (HT x x' Hx HS) as [?|[->|?]%elem_of_cons]; auto. }
    split; [|done]. intros x [Hx|[->|Hx]%elem_of_cons]; auto.
  - destruct (IH _ _ HE) as [H1 H2].
    { intros x x' [->|Hx]%mem_add HS; [right; apply elem_of_app; by left|].
      destruct (HT x x' Hx HS) as [?|[->|?]%elem_of_cons].
      - left. apply mem_add. by right.
      - left. apply mem_add. by left.
      - right. apply elem_of_app. by right. }
    split; [|done]. intros x Hx. apply H1. rewrite mem_add, elem_of_app. rewrite elem_of_cons in Hx. naive_solver.
Qed.

Lemma explore_reachable fuel s0 T s : explore fuel ∅ [s0] = Some T -> rtc succ s0 s -> mem T s = true.
Proof.
  intros HE HR. destruct (explore_closed _ _ _ _ HE) as [H1 H2].
  { intros x x'. unfold mem. rewrite lookup_empty, bool_decide_eq_true. by intros ?%not_elem_of_nil. }
  assert (H0 : mem T s0 = true) by (apply H1; right; left).
  revert H0. clear HE H1. induction HR; eauto.
Qed.

Lemma leads_back s s' : rtc succ s s' -> leads s' -> leads s.
Proof. intros H (z & Hz & Ez). exists z. split; [|done]. by trans s'. Qed.

Lemma walk_leads fuel G path s :
  (forall x, mem G x = true -> leads x) -> (forall x, x ∈ path -> rtc succ x s) ->
  forall x, mem (walk fuel G path s) x = true -> leads x.
Proof.
  intros HG. revert path s. induction fuel as [|fuel IH]; intros path s HP x; [apply HG|].
  change (walk (Datatypes.S fuel) G path s) with
    (if final s || mem G s then foldl add G (s :: path)
     else match succs s with s' :: _ => walk fuel G (s :: path) s' | [] => G end).
  destruct (final s || mem G s) eqn:E.
  - assert (Hs : leads s) by (apply orb_true_iff in E as [E|E]; [by exists s|by apply HG]).
    intros [[->|Hx]%elem_of_cons|Hx]%mem_adds; [done| |by apply HG]. eapply leads_back; [by apply HP|done].
  - destruct (succs s) as [|s' l] eqn:ES; [apply HG|]. apply IH.
    assert (HS : succ s s') by (unfold succ; rewrite ES; left).
    intros y [->|Hy]%elem_of_cons; [by apply rtc_once|]. eapply rtc_r; [by apply HP|done].
Qed.

Lemma leading_leads fuel T s : mem (leading fuel T) s = true -> leads s.
Proof.
  unfold leading. assert (H0 : forall x, mem ∅ x = true -> leads x).
  { intros x. unfold mem. rewrite lookup_empty, bool_decide_eq_true. by intros ?%not_elem_of_nil. }
  revert H0. generalize (∅ : gmap positive (list S)). induction (states T) as [|y l IH]; intros G HG; cbn; [apply HG|].
  apply IH. apply walk_leads; [done|]. by intros x ?%not_elem_of_nil.
Qed.

(** ** Soundness *)

Theorem explored_sound fuel test stuck s0 s :
  explored fuel test stuck s0 = true -> rtc succ s0 s -> test s = true /\ (stuck s = true \/ leads s).
Proof.
  unfold explored. destruct (explore fuel ∅ [s0]) as [T|] eqn:E; [|done]. rewrite forallb_forall. intros HT HR.
  pose proof (explore_reachable _ _ _ _ E HR) as Hs.
  apply mem_states, list_elem_of_In, HT, andb_true_iff in Hs as [? [?|?]%orb_true_iff]; (split; [done|]);
    [by left|right]. by eapply leading_leads.
Qed.

End explore.
