(* ===== verification/SelfTests.v ===== *)
(** * The self tests of threads/synch.cc and threads/synchlist.cc

    [Semaphore::SelfTest] and [SynchList::SelfTest] fork a helper and exchange ten
    messages with it.  A thread is the list of the calls it still has to make;
    beginning a call gives the steps of Synch.v, and the timer may preempt the
    running thread between any two of them, and before the end of its [Fork].  The fields that a constructor leaves
    unset are zero. *)

From S2P Require Import Prelude Lists Sched SchedProofs Synch.

(** ** Constructors *)

Definition newSemaphore (initialValue : Z) : Semaphore := mkSem initialValue [].

(** [new Lock] with its semaphore at address [s]; [new Condition]. *)
Definition newLock (l s : Z) (d : Objs) : Objs :=
  set_lock (set_sem d s (newSemaphore 1)) l (mkLock None s).
Definition newCondition (c : Z) (d : Objs) : Objs := set_cond d c (mkCond 0 []).

(** [new SynchList] at address [L], with the addresses of its parts. *)
Definition newSynchList (L l s c : Z) (d : Objs) : Objs :=
  set_list (newCondition c (newLock l s d)) L (mkSynchList [] l c []).

(** [delete] of a list, with its condition, its lock and the lock's semaphore. *)
Definition deleteSynchList (L : Z) (d : Objs) : res Objs :=
  sl ← deref (lists d !! L);
  lk ← deref (locks d !! lock sl);
  Ok (mkObjs (delete (semaphore lk) (sems d)) (delete (lock sl) (locks d))
        (delete (listEmpty sl) (conds d)) (delete L (lists d)) (progs d)).

(** ** Calls *)

Inductive call : Type :=
| CallP (s : Z)
| CallV (s : Z)
| CallDelete (s : Z)
| CallRemoveFront (L : Z)
| CallAppend (L x : Z)
(** append to [L] what this thread's last [RemoveFront] on [P] returned *)
| CallForward (L P : Z)
(** [ASSERT(x == ...)] on what the last [RemoveFront] on [P] returned *)
| CallCheck (P x : Z)
| CallDeleteList (L : Z)
(** the rest of [Fork], after the interrupt level is restored *)
| CallForkCheck.

#[global] Instance call_eq_dec : EqDecision call.
Proof. solve_decision. Defined.

(** What the thread's last [RemoveFront] on a list returned. *)
Definition returned (d : Objs) (t : tptr) (P : Z) : res Z :=
  sl ← deref (lists d !! P);
  deref (snd <$> last (filter (fun r => r.1 = t) (received sl))).

(** The steps of a call that thread [t] begins; the end of [Fork] has none. *)
Definition begin_call (d : Objs) (t : tptr) (c : call) : res Objs :=
  match c with
  | CallP s => Ok (set_prog d t [OpP s])
  | CallV s => Ok (set_prog d t [OpV s])
  | CallDelete s => Ok (set_prog d t [OpDelete s])
  | CallRemoveFront L =>
      sl ← deref (lists d !! L); lk ← deref (locks d !! lock sl);
      Ok (set_prog d t (ListRemoveFront L sl lk))
  | CallAppend L x =>
      sl ← deref (lists d !! L); lk ← deref (locks d !! lock sl);
      Ok (set_prog d t (ListAppend L x sl lk))
  | CallForward L P =>
      x ← returned d t P; sl ← deref (lists d !! L); lk ← deref (locks d !! lock sl);
      Ok (set_prog d t (ListAppend L x sl lk))
  | CallCheck P x => y ← returned d t P; _ ← ASSERT (bool_decide (x = y)); Ok d
  | CallDeleteList L => deleteSynchList L d
  | CallForkCheck => Ok d
  end.

Record Test : Type := mkTest { sys : ystate; calls : gmap tptr (list call) }.

Definition calls_of (s : Test) (t : tptr) : list call := default [] (calls s !! t).

Section tests.
Context (typeno : Z).

(** The running thread's next step: of the call it is in, or the next call begins. *)
Definition test_run (y : Sys) (cs : gmap tptr (list call)) : res Test :=
  let t := currentThread (kern y) in
  match prog (objs y) t, default [] (cs !! t) with
  | [], CallForkCheck :: rest =>
      k ← Fork_check typeno (kern y); Ok (mkTest (YRuns (mkSys k (objs y))) (<[t := rest]> cs))
  | [], c :: rest =>
      d ← begin_call (objs y) t c; Ok (mkTest (YRuns (mkSys (kern y) d)) (<[t := rest]> cs))
  | _, _ => s ← step_thread typeno y; Ok (mkTest s cs)
  end.

Inductive test_step : Test -> Test -> Prop :=
| ts_run y cs s : test_run y cs = Ok s -> test_step (mkTest (YRuns y) cs) s
| ts_preempt y cs k :
    Yield typeno (kern y) = Ok k -> test_step (mkTest (YRuns y) cs) (mkTest (YRuns (mkSys k (objs y))) cs)
| ts_wake y fin cs k :
    wake typeno (kern y) fin = Ok (Switched k) ->
    test_step (mkTest (YIdles y fin) cs) (mkTest (YRuns (mkSys k (objs y))) cs).

(** ** The tests *)

Definition main_thread : tptr := 1%positive.
Definition helper : tptr := 2%positive.

Definition rounds : nat := 10.
Definition repeat_calls (cs : list call) : list call := concat (replicate rounds cs).

Definition SelfTestHelper (ping pong : Z) : list call := repeat_calls [CallP ping; CallV pong].

Definition no_objs : Objs := mkObjs ∅ ∅ ∅ ∅ ∅.

(** [Semaphore::SelfTest] of the semaphore [pong], up to the loop. *)
Definition Semaphore_SelfTest (k : Kernel) (d : Objs) (pong ping : Z) : res Test :=
  k ← newThread typeno k helper 0 0;
  sm ← deref (sems d !! pong);
  _ ← ASSERT (bool_decide (value sm = 0));
  let d := set_sem d ping (newSemaphore 0) in
  k ← Fork_ready typeno k helper;
  Ok (mkTest (YRuns (mkSys k d))
        {[ main_thread := CallForkCheck :: repeat_calls [CallV ping; CallP pong] ++ [CallDelete ping];
           helper := SelfTestHelper ping pong ]}).

Definition ListSelfTestHelper (ping this : Z) : list call :=
  repeat_calls [CallRemoveFront ping; CallForward this ping].

(** [SynchList::SelfTest(val)] of the list [this], up to the loop. *)
Definition SynchList_SelfTest (k : Kernel) (d : Objs) (this ping : Z) (val : Z) : res Test :=
  k ← newThread typeno k helper 0 0;
  sl ← deref (lists d !! this);
  _ ← ASSERT (bool_decide (items sl = []));
  let d := newSynchList ping 3 4 5 d in
  k ← Fork_ready typeno k helper;
  Ok (mkTest (YRuns (mkSys k d))
        {[ main_thread := CallForkCheck ::
                          repeat_calls [CallAppend ping val; CallRemoveFront this; CallCheck this val] ++
                          [CallDeleteList ping];
           helper := ListSelfTestHelper ping this ]}).

End tests.
