(* ===== verification/SelfTestsClaims.v ===== *)
(** * The self tests under every schedule: the theorems

    With ten rounds the tests have finitely many reachable states: they are computed,
    and tested, in the kernel of the prover. *)

From S2P Require Import Prelude Lists Sched SchedProofs Synch Explore SelfTests.

(** ** Comparing states *)

(** The thread slots, compared without building proofs. *)
Fixpoint slots_eqb (a b : list (option tptr)) : bool :=
  match a, b with
  | [], [] => true
  | None :: a, None :: b => slots_eqb a b
  | Some t :: a, Some u :: b => if Pos.eqb t u then slots_eqb a b else false
  | _, _ => false
  end.

Lemma slots_eqb_eq a b : slots_eqb a b = true <-> a = b.
Proof.
  revert b. induction a as [|[t|] a IH]; intros [|[u|] b]; cbn; try done.
  - destruct (Pos.eqb_spec t u); [subst; rewrite IH|]; naive_solver.
  - rewrite IH. naive_solver.
Qed.

#[global] Instance slots_eq_dec : EqDecision (list (option tptr)).
Proof. refine (fun a b => cast_if (decide (slots_eqb a b = true))); by rewrite <- slots_eqb_eq. Defined.

#[global] Instance Thread_eq_dec : EqDecision Sched.Thread.
Proof. solve_decision. Defined.
#[global] Instance Queues_eq_dec : EqDecision Queues.
Proof. solve_decision. Defined.
#[global] Instance Kernel_eq_dec : EqDecision Kernel.
Proof. solve_decision. Defined.
#[global] Instance Semaphore_eq_dec : EqDecision Semaphore.
Proof. solve_decision. Defined.
#[global] Instance Lock_eq_dec : EqDecision Lock.
Proof. solve_decision. Defined.
#[global] Instance Condition_eq_dec : EqDecision Condition.
Proof. solve_decision. Defined.
#[global] Instance SynchList_eq_dec : EqDecision SynchList.
Proof. solve_decision. Defined.
#[global] Instance Objs_eq_dec : EqDecision Objs.
Proof. solve_decision. Defined.
#[global] Instance Sys_eq_dec : EqDecision Sys.
Proof. solve_decision. Defined.
#[global] Instance ystate_eq_dec : EqDecision ystate.
Proof. solve_decision. Defined.
#[global] Instance Test_eq_dec : EqDecision Test.
Proof. solve_decision. Defined.

(** ** Exploring the states of a test *)

(** A hash: how much each thread has left to do. *)
Definition test_hash (s : Test) : positive :=
  match sys s with
  | YRuns y | YIdles y _ =>
      let size {A} (l : list A) := Z.of_nat (length l) in
      Z.to_pos (1 + size (calls_of s main_thread) + 32 * (size (calls_of s helper) +
        32 * (size (prog (objs y) main_thread) + 16 * size (prog (objs y) helper))))
  end.

Definition of_res {A} (r : res A) : list A := match r with Ok a => [a] | _ => [] end.

(** The main thread is still in its [Fork], and another thread runs. *)
Definition fork_pending (s : Test) (y : Sys) : bool :=
  negb (bool_decide (currentThread (kern y) = main_thread)) &&
  bool_decide (head (calls_of s main_thread) = Some CallForkCheck).

(** The step a test goes on with comes first. *)
Definition test_succs (typeno : Z) (s : Test) : list Test :=
  match sys s with
  | YRuns y =>
      let go := of_res (test_run typeno y (calls s)) in
      let preempted := (fun k => mkTest (YRuns (mkSys k (objs y))) (calls s)) <$> of_res (Yield typeno (kern y)) in
      if fork_pending s y then preempted ++ go else go ++ preempted
  | YIdles y fin =>
      match wake typeno (kern y) fin with
      | Ok (Switched k) => [mkTest (YRuns (mkSys k (objs y))) (calls s)]
      | _ => []
      end
  end.

Lemma elem_of_res {A} (r : res A) a : a ∈ of_res r <-> r = Ok a.
Proof. destruct r; cbn; rewrite ?list_elem_of_singleton, ?elem_of_nil; naive_solver. Qed.

Lemma test_succs_step typeno s s' : succ (test_succs typeno) s s' <-> test_step typeno s s'.
Proof.
  unfold succ, test_succs. destruct s as [[y|y fin] cs]; cbn.
  - assert (EP : forall (b : bool) (l1 l2 : list Test) x, x ∈ (if b then l2 ++ l1 else l1 ++ l2) <-> x ∈ l1 ++ l2)
      by (intros [] l1 l2 x; rewrite ?elem_of_app; tauto).
    rewrite EP, elem_of_app, list_elem_of_fmap. setoid_rewrite elem_of_res. split.
    + intros [H|(k & -> & H)]; by constructor.
    + intros H. inversion H; subst; [by left|right; by eexists].
  - split.
    + destruct (wake typeno (kern y) fin) as [[k|k]| | |] eqn:E; try by intros ?%elem_of_nil.
      intros ->%list_elem_of_singleton. by constructor.
    + intros H. inversion H as [| |? ? ? k E]; subst. rewrite E. by apply list_elem_of_singleton.
Qed.

Lemma test_rtc typeno s s' : rtc (succ (test_succs typeno)) s s' <-> rtc (test_step typeno) s s'.
Proof. split; apply rtc_subrel; intros ? ?; apply test_succs_step. Qed.

(** ** What a test guarantees *)

Definition objs_of (s : Test) : Objs := match sys s with YRuns y | YIdles y _ => objs y end.

(** Both threads are through. *)
Definition test_done (s : Test) : bool :=
  forallb (fun t => bool_decide (calls_of s t = []) && bool_decide (prog (objs_of s) t = []))
    [main_thread; helper].

(** No assertion fails, no deleted object is used, and the machine does not idle
    before the test is over. *)
Definition goes_on (typeno : Z) (s : Test) : Prop :=
  match sys s with
  | YRuns y => exists s', test_run typeno y (calls s) = Ok s'
  | YIdles _ _ => test_done s = true
  end.

(** In every state the test goes on, satisfies [Between], can be completed, and has
    left the objects as [End] says when it is. *)
Record test_ok (typeno : Z) (Between : Test -> Prop) (End : Objs -> Prop) (s : Test) : Prop := mkTestOk {
  to_goes_on : goes_on typeno s;
  to_between : Between s;
  to_end : test_done s = true -> End (objs_of s);
  to_completes : exists s', rtc (test_step typeno) s s' /\ test_done s' = true }.

#[global] Instance goes_on_dec typeno s : Decision (goes_on typeno s).
Proof.
  unfold goes_on. destruct (sys s) as [y|y fin]; [|apply _].
  destruct (test_run typeno y (calls s)); [left; by eexists|right; by intros [? ?]..].
Defined.

(** The main thread is at the end of [Fork] with nobody ready: it dereferences a null
    pointer. *)
Definition null_front (typeno : Z) (s : Test) : bool :=
  match sys s with
  | YRuns y =>
      bool_decide (currentThread (kern y) = main_thread) && bool_decide (prog (objs y) main_thread = []) &&
      bool_decide (head (calls_of s main_thread) = Some CallForkCheck) &&
      bool_decide (sortedReadyList (queues (kern y)) = []) &&
      match test_run typeno y (calls s) with Undef => true | _ => false end
  | YIdles _ _ => false
  end.

(** Enough fuel for the tests below. *)
Definition test_fuel : nat := Z.to_nat 32768.

Section explored.
Context (Between : Test -> Prop) (End : Objs -> Prop)
  `{!forall s, Decision (Between s)} `{!forall d, Decision (End d)} (stuck : Test -> bool).

Definition state_test (typeno : Z) (s : Test) : bool :=
  (stuck s || bool_decide (goes_on typeno s)) && bool_decide (Between s) &&
  implb (test_done s) (bool_decide (End (objs_of s))).

Definition passes (typeno : Z) (r : res Test) : bool :=
  match r with
  | Ok s0 => explored test_hash (test_succs typeno) test_done test_fuel (state_test typeno) stuck s0
  | _ => false
  end.

Lemma passes_ok typeno r :
  passes typeno r = true ->
  exists s0, r = Ok s0 /\ forall s, rtc (test_step typeno) s0 s ->
    Between s /\ (stuck s = true \/ test_ok typeno Between End s).
Proof.
  destruct r as [s0| | |]; cbn [passes]; try done. intros HE. exists s0. split; [done|]. intros s HR.
  destruct (explored_sound _ _ _ _ _ _ _ s HE) as [HT HL]; [by apply test_rtc|].
  unfold state_test in HT. rewrite !andb_true_iff, orb_true_iff, !bool_decide_eq_true in HT.
  destruct HT as [[H1 H2] H3]. split; [done|].
  destruct (stuck s); [by left|]. destruct H1 as [?|H1]; [done|]. destruct HL as [?|(s' & HS & HD)]; [done|].
  right. split; [done..| |exists s'; split; [by apply test_rtc|done]].
  intros D. rewrite D in H3. cbn in H3. by rewrite bool_decide_eq_true in H3.
Qed.

End explored.

(** The steps a list of numbers chooses. *)
Fixpoint follow (typeno : Z) (path : list nat) (s : Test) : option Test :=
  match path with
  | [] => Some s
  | i :: path => s' ← test_succs typeno s !! i; follow typeno path s'
  end.

Lemma follow_rtc typeno path s s' : follow typeno path s = Some s' -> rtc (test_step typeno) s s'.
Proof.
  revert s. induction path as [|i path IH]; intros s; cbn [follow]; [intros [= ->]; apply rtc_refl|].
  destruct (test_succs typeno s !! i) as [x|] eqn:E; [|done]. intros H. eapply rtc_l; [|by apply IH].
  apply test_succs_step. by eapply list_elem_of_lookup_2.
Qed.

(** The main thread as the constructor leaves it. *)
Definition boot_for (typeno : Z) : Kernel :=
  boot (if bool_decide (typeno = 1) then 8 else if bool_decide (typeno = 3) then -1 else 0)
    (if bool_decide (typeno = 1) then timeSlice else 0).

(** ** [Semaphore::SelfTest] *)

(** How often a thread still has to make a call. *)
Definition left_over (s : Test) (t : tptr) (c : call) (o : op) : Z :=
  Z.of_nat (length (filter (fun x => x = c) (calls_of s t)) + length (filter (fun x => x = o) (prog (objs_of s) t))).

(** Strict alternation: a [V] of [ping] by the main thread, the helper's [P] of it
    and its [V] of [pong], the main thread's [P]; counted by what is left. *)
Definition alternates (pong ping : Z) (s : Test) : Prop :=
  let mV := left_over s main_thread (CallV ping) (OpV ping) in
  let mP := left_over s main_thread (CallP pong) (OpP pong) in
  let hP := left_over s helper (CallP ping) (OpP ping) in
  let hV := left_over s helper (CallV pong) (OpV pong) in
  mV <= hP <= hV /\ hV <= mP <= mV + 1.

#[global] Instance alternates_dec pong ping s : Decision (alternates pong ping s).
Proof. unfold alternates. apply _. Defined.

(** The semaphore is as it was, nobody waits for it, and [ping] is gone. *)
Definition semaphore_end (d : Objs) : Prop := sems d = {[1 := mkSem 0 []]}.

#[global] Instance semaphore_end_dec d : Decision (semaphore_end d).
Proof. unfold semaphore_end. apply _. Defined.

(** A new semaphore [pong] at address 1, and [ping] at address 2. *)
Definition semaphore_test (typeno : Z) : res Test :=
  Semaphore_SelfTest typeno (boot_for typeno) (set_sem no_objs 1 (newSemaphore 0)) 1 2.

Lemma policy_cases typeno : 0 <= typeno <= 3 -> typeno = 0 \/ typeno = 1 \/ typeno = 2 \/ typeno = 3.
Proof. lia. Qed.

(** The forking thread is preempted, the helper waits, the forking thread runs on. *)
Lemma null_front_reached :
  exists s0 s, semaphore_test 1 = Ok s0 /\ rtc (test_step 1) s0 s /\ null_front 1 s = true.
Proof.
  assert (W : match semaphore_test 1 with
    | Ok s0 => match follow 1 [1; 1; 1]%nat s0 with Some s => null_front 1 s | None => false end
    | _ => false end = true) by (vm_compute; reflexivity).
  destruct (semaphore_test 1) as [s0| | |]; try done. exists s0.
  destruct (follow 1 [1; 1; 1]%nat s0) as [s|] eqn:E; [|done]. exists s. by apply follow_rtc in E.
Qed.

(** C32: Semaphore::SelfTest on the kernel, wherever the timer preempts.  Under the
    FIFO, round-robin and feedback policies no assertion fails, nothing deleted is
    used and the machine never idles before the end; main thread and helper take
    strict turns; the test can be completed from every state it reaches, and then
    the semaphore is as before and nobody waits.  Under the priority policy the same
    holds of every reachable state but those in which the main thread, preempted
    inside [Fork], comes to the last line of [Fork] while nobody is ready: there the
    null front of the ready list is dereferenced.  Such a state is reached. *)
Theorem semaphore_self_test (typeno : Z) :
  0 <= typeno <= 3 ->
  exists s0, semaphore_test typeno = Ok s0 /\
    (forall s, rtc (test_step typeno) s0 s ->
       alternates 1 2 s /\
       (typeno = 1 /\ null_front typeno s = true \/ test_ok typeno (alternates 1 2) semaphore_end s)) /\
    (typeno = 1 -> exists s, rtc (test_step typeno) s0 s /\ null_front typeno s = true).
Proof.
  assert (HS : forall stuck : Z -> Test -> bool,
    passes (alternates 1 2) semaphore_end (stuck typeno) typeno (semaphore_test typeno) = true ->
    (typeno <> 1 -> forall s, stuck typeno s = false) ->
    (forall s, stuck typeno s = true -> null_front typeno s = true) ->
    exists s0, semaphore_test typeno = Ok s0 /\
    (forall s, rtc (test_step typeno) s0 s ->
       alternates 1 2 s /\
       (typeno = 1 /\ null_front typeno s = true \/ test_ok typeno (alternates 1 2) semaphore_end s)) /\
    (typeno = 1 -> exists s, rtc (test_step typeno) s0 s /\ null_front typeno s = true)).
  { intros stuck HP HN HF. destruct (passes_ok _ _ _ _ _ HP) as (s0 & E & H). exists s0. split_and!; [done| |].
    - intros s HR. destruct (H s HR) as [HA [HT|HT]]; (split; [done|]); [left|by right].
      split; [|by apply HF]. destruct (decide (typeno = 1)) as [|D]; [done|]. by rewrite (HN D) in HT.
    - intros ->. destruct null_front_reached as (s0' & s & E' & R). rewrite E in E'. injection E' as <-. by exists s. }
  intros [->|[->|[->| ->]]]%policy_cases;
    [apply (HS (fun _ _ => false))|apply (HS null_front)|apply (HS (fun _ _ => false))..]; try done;
    vm_cast_no_check (eq_refl true).
Qed.

Lemma semaphore_self_test_witness : exists s, semaphore_test 2 = Ok s /\ goes_on 2 s.
Proof.
  destruct (semaphore_self_test 2) as (s & E & H & _); [lia|]. exists s. split; [exact E|].
  destruct (H s (rtc_refl _ _)) as [_ [[D _]|T]]; [discriminate D|exact (to_goes_on _ _ _ _ T)].
Defined.

(** ** [SynchList::SelfTest] *)

(** The list has delivered the value ten times, and what the test created is gone. *)
Definition list_end (x : Z) (d : Objs) : Prop :=
  lists d = {[0 := mkSynchList [] 0 2 (replicate rounds (main_thread, x))]} /\
  sems d = {[1 := mkSem 1 []]} /\ locks d = {[0 := mkLock None 1]} /\ conds d = {[2 := mkCond 0 []]}.

#[global] Instance list_end_dec x d : Decision (list_end x d).
Proof. unfold list_end. apply _. Defined.

(** The locks of the two lists exclude each other as [Lock] promises: a holder's
    semaphore is taken. *)
Definition locks_exclude (s : Test) : Prop :=
  map_Forall (fun _ lk => match lockHolder lk with
    | Some _ => value <$> sems (objs_of s) !! semaphore lk = Some 0
    | None => True end) (locks (objs_of s)).

#[global] Instance locks_exclude_dec s : Decision (locks_exclude s).
Proof. unfold locks_exclude. apply map_Forall_dec. intros _ lk. destruct (lockHolder lk); apply _. Defined.

(** A new list at address 0. *)
Definition synchlist_test (val : Z) : res Test :=
  SynchList_SelfTest 2 (boot_for 2) (newSynchList 0 0 1 2 no_objs) 0 1 val.

(** C33: SynchList::SelfTest works on the kernel: under the default policy and wherever
    the timer preempts, no assertion fails (every value comes back), nothing deleted
    is used and the machine never idles before the end; the test can be completed
    from every state it reaches, and then ten values have made the round trip and
    all that the test has created is gone. *)
Theorem synchlist_self_test :
  exists s0, synchlist_test 9 = Ok s0 /\
    forall s, rtc (test_step 2) s0 s -> test_ok 2 locks_exclude (list_end 9) s.
Proof.
  destruct (passes_ok locks_exclude (list_end 9) (fun _ => false) 2 (synchlist_test 9)) as (s0 & E & H);
    [vm_cast_no_check (eq_refl true)|].
  exists s0. split; [done|]. intros s HR. by destruct (H s HR) as [_ [?|?]].
Qed.
