(* ===== verification/Interrupt.v ===== *)
(** * machine/interrupt.cc, machine/timer.cc, threads/alarm.cc: simulated time

    The interrupt hardware keeps the simulated clock and the interrupts that are
    to occur, in the order of their time.  The devices it calls back are behind
    an interface, [Devices]; [TimerDevice] is the timer with the alarm clock on
    top of it, which slices the time of the running thread. *)

From S2P Require Import Prelude Lists Machine Sched.

Module Interrupt.

Inductive MachineStatus : Type := IdleMode | SystemMode | UserMode.
Inductive IntType : Type :=
  TimerInt | DiskInt | ConsoleWriteInt | ConsoleReadInt | NetworkSendInt | NetworkRecvInt.

#[global] Instance MachineStatus_eq_dec : EqDecision MachineStatus.
Proof. solve_decision. Defined.
#[global] Instance IntType_eq_dec : EqDecision IntType.
Proof. solve_decision. Defined.

Definition UserTick : Z := 1.
Definition SystemTick : Z := 10.
Definition TimerTicks : Z := 100.

(** A [PendingInterrupt] at its address; [callOnInterrupt] is the device. *)
Record PendingInterrupt : Type := mkPending {
  address : Z; callOnInterrupt : Z; when : Z; type : IntType }.

#[global] Instance PendingInterrupt_eq_dec : EqDecision PendingInterrupt.
Proof. solve_decision. Defined.

Definition PendingCompare (x y : PendingInterrupt) : Z :=
  if bool_decide (when x < when y) then -1 else if bool_decide (when x > when y) then 1 else 0.

(** Class [Interrupt] with the clocks of [Statistics].  [newest] is the address of
    the last allocation, [fired] records the interrupts that have occurred. *)
Record Interrupt : Type := mkInterrupt {
  level : IntStatus;
  pending : list PendingInterrupt;
  inHandler : bool;
  yieldOnReturn : bool;
  status : MachineStatus;
  totalTicks : Z;
  idleTicks : Z;
  systemTicks : Z;
  userTicks : Z;
  newest : Z;
  fired : list PendingInterrupt }.

Definition with_level (i : Interrupt) (x : IntStatus) : Interrupt :=
  mkInterrupt x (pending i) (inHandler i) (yieldOnReturn i) (status i) (totalTicks i) (idleTicks i)
    (systemTicks i) (userTicks i) (newest i) (fired i).
Definition with_pending (i : Interrupt) (x : list PendingInterrupt) (n : Z) : Interrupt :=
  mkInterrupt (level i) x (inHandler i) (yieldOnReturn i) (status i) (totalTicks i) (idleTicks i)
    (systemTicks i) (userTicks i) n (fired i).
Definition with_inHandler (i : Interrupt) (x : bool) : Interrupt :=
  mkInterrupt (level i) (pending i) x (yieldOnReturn i) (status i) (totalTicks i) (idleTicks i)
    (systemTicks i) (userTicks i) (newest i) (fired i).
Definition with_yieldOnReturn (i : Interrupt) (x : bool) : Interrupt :=
  mkInterrupt (level i) (pending i) (inHandler i) x (status i) (totalTicks i) (idleTicks i)
    (systemTicks i) (userTicks i) (newest i) (fired i).
Definition with_status (i : Interrupt) (x : MachineStatus) : Interrupt :=
  mkInterrupt (level i) (pending i) (inHandler i) (yieldOnReturn i) x (totalTicks i) (idleTicks i)
    (systemTicks i) (userTicks i) (newest i) (fired i).
Definition with_ticks (i : Interrupt) (total idle system user : Z) : Interrupt :=
  mkInterrupt (level i) (pending i) (inHandler i) (yieldOnReturn i) (status i) total idle system user
    (newest i) (fired i).
Definition log_fired (i : Interrupt) (p : PendingInterrupt) : Interrupt :=
  mkInterrupt (level i) (pending i) (inHandler i) (yieldOnReturn i) (status i) (totalTicks i) (idleTicks i)
    (systemTicks i) (userTicks i) (newest i) (fired i ++ [p]).

(** The constructor, with the clocks of a new [Statistics]. *)
Definition newInterrupt : Interrupt :=
  mkInterrupt IntOff [] false false SystemMode 0 0 0 0 0 [].

Definition ChangeLevel (i : Interrupt) (now : IntStatus) : Interrupt := with_level i now.

Definition YieldOnReturn (i : Interrupt) : res Interrupt :=
  _ ← ASSERT (inHandler i); Ok (with_yieldOnReturn i true).

Definition Schedule (i : Interrupt) (toCall fromNow : Z) (kind : IntType) : res Interrupt :=
  let w := i32 (totalTicks i + fromNow) in
  let toOccur := mkPending (newest i + 1) toCall w kind in
  _ ← ASSERT (bool_decide (fromNow > 0));
  l ← Seq.Insert PendingCompare toOccur (pending i);
  Ok (with_pending i l (newest i + 1)).

(** What the interrupt hardware calls: [CallBack] of the device at an address,
    and [machine->DelayedLoad(0, 0)] where there is a machine. *)
Class Devices (D : Type) : Type := {
  CallBack : Z -> Interrupt -> D -> res (Interrupt * D);
  DelayedLoad00 : D -> res D }.

Section hardware.
Context {D : Type} `{!Devices D}.

(** The loop of [CheckIfDue]. *)
Fixpoint fire (fuel : nat) (i : Interrupt) (d : D) : res (Interrupt * D) :=
  match fuel with
  | O => Diverge
  | S fuel' =>
      '(next, l) ← Seq.RemoveFront (pending i);
      '(i, d) ← CallBack (callOnInterrupt next) (log_fired (with_pending i l (newest i)) next) d;
      match pending i with
      | p :: _ => if bool_decide (when p <= totalTicks i) then fire fuel' i d else Ok (i, d)
      | [] => Ok (i, d)
      end
  end.

(** As many turns as there are pending interrupts are enough: the handlers only
    schedule interrupts in the future. *)
Definition CheckIfDue (i : Interrupt) (d : D) (advanceClock : bool) : res (bool * Interrupt * D) :=
  _ ← ASSERT (bool_decide (level i = IntOff));
  match pending i with
  | [] => Ok (false, i, d)
  | next :: _ =>
      if bool_decide (when next > totalTicks i) && negb advanceClock then Ok (false, i, d)
      else
        let i := if bool_decide (when next > totalTicks i)
                 then with_ticks i (when next) (i32 (idleTicks i + i32 (when next - totalTicks i)))
                        (systemTicks i) (userTicks i)
                 else i in
        d ← DelayedLoad00 d;
        '(i, d) ← fire (length (pending i)) (with_inHandler i true) d;
        Ok (true, with_inHandler i false, d)
  end.

(** [OneTick] up to the call of [Yield], which is made when the last component is
    true; [OneTick] then ends with the assignment of the old status. *)
Definition OneTick (i : Interrupt) (d : D) : res (Interrupt * D * bool) :=
  let i := if bool_decide (status i = SystemMode)
           then with_ticks i (i32 (totalTicks i + SystemTick)) (idleTicks i)
                  (i32 (systemTicks i + SystemTick)) (userTicks i)
           else with_ticks i (i32 (totalTicks i + UserTick)) (idleTicks i) (systemTicks i)
                  (i32 (userTicks i + UserTick)) in
  '(fired_any, i, d) ← CheckIfDue (ChangeLevel i IntOff) d false;
  let i := ChangeLevel i IntOn in
  if yieldOnReturn i then Ok (with_status (with_yieldOnReturn i false) SystemMode, d, true)
  else Ok (i, d, false).

Definition OneTick_end (i : Interrupt) (oldStatus : MachineStatus) : Interrupt := with_status i oldStatus.

(** [SetLevel]: the old level, and whether a [Yield] follows. *)
Definition SetLevel (i : Interrupt) (d : D) (now : IntStatus) : res (IntStatus * Interrupt * D * bool) :=
  let old := level i in
  _ ← ASSERT (bool_decide (now = IntOff) || negb (inHandler i));
  let i := ChangeLevel i now in
  if bool_decide (now = IntOn) && bool_decide (old = IntOff)
  then '(i, d, y) ← OneTick i d; Ok (old, i, d, y)
  else Ok (old, i, d, false).

(** [Idle]: false when there is nothing left to do and the machine halts. *)
Definition Idle (i : Interrupt) (d : D) : res (bool * Interrupt * D) :=
  '(b, i, d) ← CheckIfDue (with_status i IdleMode) d true;
  if (b : bool) then Ok (true, with_status i SystemMode, d) else Ok (false, i, d).

End hardware.

(** ** The timer device and the alarm clock *)

Section timer.
(** [typeno]: the scheduling policy; [rand]: the numbers [RandomNumber] returns;
    [timer]: the address of the timer device. *)
Context (typeno : Z) (rand : nat -> Z) (timer : Z).

Record TimerDevice : Type := mkTimer {
  kernel : Kernel; machine : option Machine; randomize : bool; disable : bool; drawn : nat }.

(** [Timer::SetInterrupt]. *)
Definition SetInterrupt (i : Interrupt) (d : TimerDevice) : res (Interrupt * TimerDevice) :=
  if disable d then Ok (i, d)
  else
    let '(delay, n) := if randomize d then (1 + rand (drawn d) mod (TimerTicks * 2), S (drawn d))
                       else (TimerTicks, drawn d) in
    i ← Schedule i timer delay TimerInt;
    Ok (i, mkTimer (kernel d) (machine d) (randomize d) (disable d) n).

(** [Alarm::CallBack]. *)
Definition Alarm_CallBack (i : Interrupt) (k : Kernel) : res (Interrupt * Kernel) :=
  th ← get_thread (threads k) (currentThread k);
  let th := setRemainTime th (i32 (timeSliceRemain th - 1)) in
  let k := with_threads k (<[currentThread k := th]> (threads k)) in
  i ← (if bool_decide (typeno = 1) then YieldOnReturn i
       else if (bool_decide (typeno = 2) || bool_decide (typeno = 3)) &&
               negb (bool_decide (status i = IdleMode)) && bool_decide (timeSliceRemain th <= 0)
       then YieldOnReturn i else Ok i);
  Ok (i, k).

(** [Timer::CallBack]: the handler, then the next interrupt. *)
Definition Timer_CallBack (i : Interrupt) (d : TimerDevice) : res (Interrupt * TimerDevice) :=
  '(i, k) ← Alarm_CallBack i (kernel d);
  SetInterrupt i (mkTimer k (machine d) (randomize d) (disable d) (drawn d)).

#[global] Instance timer_devices : Devices TimerDevice := {|
  CallBack a i d := if bool_decide (a = timer) then Timer_CallBack i d else Undef;
  DelayedLoad00 d :=
    match machine d with
    | Some m => m ← DelayedLoad m 0 0; Ok (mkTimer (kernel d) (Some m) (randomize d) (disable d) (drawn d))
    | None => Ok d
    end |}.

(** [new Alarm], [new Timer] and [Disable]. *)
Definition newAlarm (i : Interrupt) (k : Kernel) (m : option Machine) (doRandom : bool)
    : res (Interrupt * TimerDevice) :=
  SetInterrupt i (mkTimer k m doRandom false 0).

Definition Disable (d : TimerDevice) : TimerDevice :=
  mkTimer (kernel d) (machine d) (randomize d) true (drawn d).

End timer.
End Interrupt.
