(* ===== verification/InterruptProofs.v ===== *)
(** * Interrupts occur in time order, exactly once, and time slices are exact

    [LawfulDevices] is what the interrupt hardware may assume of the devices: a
    handler returns, and it only schedules interrupts in the future.  The
    theorems on [CheckIfDue] are proved against it; the timer discharges it. *)

From S2P Require Import Prelude Lists ListProofs Machine MachineProofs Sched SchedProofs Interrupt.
Import Interrupt.Interrupt.

#[global] Instance PendingCompare_ok : Comparison PendingCompare.
Proof.
  split; intros *; unfold PendingCompare; repeat case_bool_decide; lia.
Qed.

(** The interrupts of [l] that are due at time [T], and the others. *)
Definition due (T : Z) (l : list PendingInterrupt) : list PendingInterrupt := filter (fun p => when p <= T) l.
Definition later (T : Z) (l : list PendingInterrupt) : list PendingInterrupt := filter (fun p => T < when p) l.

#[global] Arguments due : simpl never.
#[global] Arguments later : simpl never.

Lemma cmp_le_when x y : cmp_le PendingCompare x y <-> when x <= when y.
Proof. unfold cmp_le, PendingCompare. repeat case_bool_decide; lia. Qed.

(** In a sorted list, nothing is due after an interrupt that is not. *)
Lemma due_nil T p l : Sorted (cmp_le PendingCompare) (p :: l) -> T < when p -> due T (p :: l) = [].
Proof.
  intros HS Hp. apply Sorted_StronglySorted in HS; [|intros ???; rewrite !cmp_le_when; lia].
  inversion HS as [|? ? _ HF]; subst. unfold due. rewrite filter_cons_False by lia.
  induction l as [|q l IH]; [done|]. inversion HF as [|? ? Hq HF']; subst. apply cmp_le_when in Hq.
  rewrite filter_cons_False by lia. apply IH; [|done]. inversion HS as [|? ? HS' _]; subst.
  inversion HS' as [|? ? HS'' _]; subst. by constructor.
Qed.

Lemma due_head T p l : Sorted (cmp_le PendingCompare) (p :: l) -> due T (p :: l) <> [] -> when p <= T.
Proof. intros HS H. destruct (decide (when p <= T)); [done|]. rewrite due_nil in H; [done|done|lia]. Qed.

Lemma due_nil_later T l : due T l = [] -> Forall (fun p => T < when p) l.
Proof.
  induction l as [|p l IH]; intros H; [constructor|]. unfold due in H. destruct (decide (when p <= T)).
  - rewrite filter_cons_True in H by done. done.
  - rewrite filter_cons_False in H by done. constructor; [lia|by apply IH].
Qed.

Lemma later_sub T l : later T l ⊆+ l.
Proof. apply sublist_submseteq, sublist_filter. Qed.

Section lawful.
Context {D : Type} `{!Devices D}.

Class LawfulDevices : Type := {
  (** what the devices keep true of themselves; the addresses they answer at; how
      far in the future they schedule at most *)
  dinv : D -> Prop;
  known : Z -> Prop;
  maxDelay : Z;
  (** a well-formed interrupt state *)
  iok (i : Interrupt) : Prop := Sorted (cmp_le PendingCompare) (pending i) /\
    Forall (fun p => address p <= newest i /\ known (callOnInterrupt p)) (pending i);
  (** [i'] is [i] after a handler: only interrupts in the future were added *)
  quiet (i i' : Interrupt) : Prop := iok i' /\
    totalTicks i' = totalTicks i /\ level i' = level i /\ inHandler i' = inHandler i /\ fired i' = fired i /\
    due (totalTicks i) (pending i') = due (totalTicks i) (pending i) /\
    later (totalTicks i) (pending i) ⊆+ later (totalTicks i) (pending i');
  load_ok : forall d, dinv d -> exists d', DelayedLoad00 d = Ok d' /\ dinv d';
  callback_ok : forall a i d, dinv d -> known a -> iok i -> inHandler i = true ->
    0 <= totalTicks i -> totalTicks i + maxDelay <= int_max ->
    exists i' d', CallBack a i d = Ok (i', d') /\ dinv d' /\ quiet i i' }.

Context `{!LawfulDevices}.

(** The loop fires exactly the interrupts that are due, in order. *)
Lemma fire_spec fuel i d :
  let T := totalTicks i in
  dinv d -> iok i -> inHandler i = true -> 0 <= T -> T + maxDelay <= int_max ->
  due T (pending i) <> [] -> (length (due T (pending i)) <= fuel)%nat ->
  exists i' d', fire fuel i d = Ok (i', d') /\ dinv d' /\ iok i' /\
    totalTicks i' = T /\ level i' = level i /\ inHandler i' = true /\
    fired i' = fired i ++ due T (pending i) /\ due T (pending i') = [] /\
    later T (pending i) ⊆+ pending i'.
Proof.
  intros T. subst T. revert i d. induction fuel as [|fuel IH]; intros i d HD [HS HA] HI H0 HM Hne Hf.
  { destruct (due _ _); [done|cbn in Hf; lia]. }
  cbn [fire]. destruct (pending i) as [|p l] eqn:Ep; [done|]. cbn [Seq.RemoveFront mbind res_bind].
  pose proof (due_head _ _ _ HS Hne) as Hp. inversion HA as [|? ? [_ Hk] HA']; subst.
  set (i1 := log_fired (with_pending i l (newest i)) p).
  assert (I1 : iok i1) by (split; [by inversion HS|exact HA']).
  destruct (callback_ok (callOnInterrupt p) i1 d HD Hk I1 HI H0 HM) as (i2 & d2 & -> & HD2 & Q2).
  destruct Q2 as (I2 & E1 & E2 & E3 & E4 & E5 & E6). cbn in E1, E2, E3, E4, E5, E6.
  cbn [mbind res_bind].
  assert (Edue : due (totalTicks i) (p :: l) = p :: due (totalTicks i) l) by (unfold due; by rewrite filter_cons_True).
  assert (Elat : later (totalTicks i) (p :: l) = later (totalTicks i) l)
    by (unfold later; by rewrite filter_cons_False by lia).
  rewrite Edue, Elat. rewrite Edue in Hf. cbn in Hf.
  assert (Hstop : due (totalTicks i) l = [] ->
    exists i' d', Ok (i2, d2) = Ok (i', d') /\ dinv d' /\ iok i' /\ totalTicks i' = totalTicks i /\
      level i' = level i /\ inHandler i' = true /\ fired i' = fired i ++ p :: due (totalTicks i) l /\
      due (totalTicks i) (pending i') = [] /\ later (totalTicks i) l ⊆+ pending i').
  { intros El. exists i2, d2. rewrite E4, E5, !El. split_and!; try done; [congruence|].
    etransitivity; [exact E6|]. apply later_sub. }
  destruct (pending i2) as [|q l2] eqn:Ep2; [by apply Hstop|].
  destruct I2 as [HS2 HA2]. rewrite E1. case_bool_decide as Hq.
  - assert (Hd : due (totalTicks i) l <> []).
    { rewrite <- E5. unfold due. by rewrite filter_cons_True. }
    specialize (IH i2 d2 HD2 (conj HS2 HA2)). rewrite E1, Ep2, E5 in IH.
    destruct IH as (i' & d' & -> & R1 & R2 & R3 & R4 & R5 & R6 & R7 & R8); [congruence|done|done|done|lia|].
    exists i', d'. rewrite R6, E4. cbn. rewrite <- app_assoc. split_and!; try done; [congruence|].
    etransitivity; [exact E6|exact R8].
  - apply Hstop. rewrite <- E5. apply due_nil; [by rewrite <- Ep2|lia].
Qed.

(** The time to which [CheckIfDue] goes. *)
Definition time_to (i : Interrupt) (advanceClock : bool) : Z :=
  match pending i with
  | p :: _ => if advanceClock then Z.max (totalTicks i) (when p) else totalTicks i
  | [] => totalTicks i
  end.

(** What [CheckIfDue] promises. *)
Definition fires_due (i i' : Interrupt) (T : Z) (b : bool) : Prop :=
  totalTicks i' = T /\ level i' = IntOff /\ b = bool_decide (due T (pending i) <> []) /\
  fired i' = fired i ++ due T (pending i) /\ Forall (fun p => T < when p) (pending i') /\
  later T (pending i) ⊆+ pending i' /\ (b = true -> inHandler i' = false) /\ (b = false -> i' = i).

(** The part of [CheckIfDue] that calls the handlers, the clock standing at [T]. *)
Lemma fire_due i i1 d p l :
  dinv d -> iok i -> pending i = p :: l -> pending i1 = p :: l -> newest i1 = newest i -> fired i1 = fired i ->
  level i1 = IntOff -> 0 <= totalTicks i1 -> totalTicks i1 + maxDelay <= int_max -> when p <= totalTicks i1 ->
  exists i' d', (d ← DelayedLoad00 d; '(i, d) ← fire (length (pending i1)) (with_inHandler i1 true) d;
                 Ok (true, with_inHandler i false, d)) = Ok (true, i', d') /\
    dinv d' /\ iok i' /\ fires_due i i' (totalTicks i1) true.
Proof.
  intros HD HI Ep Ep1 En Ef HL H0 HM Hp.
  assert (Hne : due (totalTicks i1) (p :: l) <> []) by (unfold due; by rewrite filter_cons_True).
  destruct (load_ok d HD) as (d1 & -> & HD1). cbn [mbind res_bind].
  assert (HI1 : iok (with_inHandler i1 true)).
  { destruct HI as [HS HA]. split; cbn; rewrite Ep1, ?En, <- Ep; done. }
  destruct (fire_spec (length (pending i1)) (with_inHandler i1 true) d1 HD1 HI1)
    as (i' & d' & E & R1 & R2 & R3 & R4 & R5 & R6 & R7 & R8); try done.
  - cbn. by rewrite Ep1.
  - apply length_filter.
  - rewrite E. cbn [mbind res_bind]. exists (with_inHandler i' false), d'. split_and!; try done.
    cbn in R3, R4, R6, R7, R8. rewrite Ep1 in R6, R8.
    unfold fires_due. rewrite Ep. cbn. split_and!; try done; try congruence.
    + symmetry. by apply bool_decide_true.
    + by apply due_nil_later.
Qed.

Lemma CheckIfDue_spec i d advanceClock :
  let T := time_to i advanceClock in
  dinv d -> iok i -> level i = IntOff -> 0 <= totalTicks i -> T + maxDelay <= int_max ->
  exists b i' d', CheckIfDue i d advanceClock = Ok (b, i', d') /\ dinv d' /\ iok i' /\ fires_due i i' T b.
Proof.
  intros T HD HI HL H0 HM. subst T. unfold CheckIfDue, time_to in *. rewrite HL, bool_decide_true by done.
  cbn [ASSERT mbind res_bind]. destruct (pending i) as [|p l] eqn:Ep.
  { exists false, i, d. split_and!; try done. unfold fires_due. rewrite Ep. by rewrite app_nil_r. }
  pose proof HI as [HS HA]. rewrite Ep in HS.
  destruct (decide (when p > totalTicks i)) as [Hp|Hp].
  - rewrite (bool_decide_true (when p > totalTicks i)) by done. destruct advanceClock; cbn [andb negb].
    + rewrite Z.max_r in * by lia.
      destruct (fire_due i (with_ticks i (when p) (i32 (idleTicks i + i32 (when p - totalTicks i))) (systemTicks i) (userTicks i))
        d p l) as (i' & d' & E & H1 & H2 & H3); try done; try (cbn; lia).
      exists true, i', d'. split_and!; done.
    + exists false, i, d. split_and!; try done. unfold fires_due. rewrite Ep.
      rewrite (due_nil (totalTicks i) p l) by (done || lia). rewrite app_nil_r. split_and!; try done.
      * apply due_nil_later, due_nil; [done|lia].
      * apply later_sub.
  - rewrite (bool_decide_false (when p > totalTicks i)) by done. cbn [andb].
    assert (ET : (if advanceClock then Z.max (totalTicks i) (when p) else totalTicks i) = totalTicks i)
      by (destruct advanceClock; lia). rewrite ET in *.
    destruct (fire_due i i d p l) as (i' & d' & E & H1 & H2 & H3); try done; try lia.
    by exists true, i', d'.
Qed.

End lawful.

(** ** The timer is a lawful device *)

(** A new interrupt in the future joins the later ones. *)
Lemma insert_later T p l :
  Sorted (cmp_le PendingCompare) l -> T < when p ->
  due T (Seq.insert_before PendingCompare p l) = due T l /\
  later T (Seq.insert_before PendingCompare p l) ≡ₚ p :: later T l.
Proof.
  intros HS Hp. destruct (insert_before_split PendingCompare p l HS) as (lo & hi & -> & -> & _ & _).
  unfold due, later. rewrite !filter_app, filter_cons_False, filter_cons_True by lia. split; [done|].
  by rewrite <- Permutation_middle.
Qed.

Section timer.
Context (typeno : Z) (rand : nat -> Z) (timer : Z).

(** [iok] for the timer: its interrupts are the only ones. *)
Definition tok (i : Interrupt) : Prop := Sorted (cmp_le PendingCompare) (pending i) /\
  Forall (fun p => address p <= newest i /\ callOnInterrupt p = timer) (pending i).

(** [i'] is [i] with a timer interrupt at [w]. *)
Definition added (i i' : Interrupt) (w : Z) : Prop :=
  i' = with_pending i (Seq.insert_before PendingCompare (mkPending (newest i + 1) timer w TimerInt) (pending i))
         (newest i + 1).

Lemma Schedule_ok i fromNow :
  tok i -> 0 <= totalTicks i -> 0 < fromNow -> totalTicks i + fromNow <= int_max ->
  exists i', Schedule i timer fromNow TimerInt = Ok i' /\ added i i' (totalTicks i + fromNow) /\ tok i'.
Proof.
  intros [HS HA] H0 Hf Hm. unfold Schedule. rewrite bool_decide_true by lia. cbn [ASSERT mbind res_bind].
  rewrite i32_id by (unfold is_i32, int_min, int_max in *; lia). unfold Seq.Insert.
  set (e := mkPending _ _ _ _).
  assert (Hn : e ∉ pending i).
  { intros Hin. rewrite Forall_forall in HA. destruct (HA e Hin) as [Ha _]. cbn in Ha. lia. }
  unfold Seq.IsInList. rewrite bool_decide_false by done. cbn [negb ASSERT mbind res_bind].
  eexists. split; [reflexivity|]. split; [done|]. split; cbn.
  - exact (insert_before_sorted PendingCompare e (pending i) HS).
  - rewrite insert_before_perm. constructor; [done|]. eapply Forall_impl; [exact HA|].
    intros p [H1 H2]. split; [lia|done].
Qed.

Lemma SetInterrupt_ok i d :
  tok i -> 0 <= totalTicks i -> totalTicks i + 200 <= int_max ->
  exists i' d', SetInterrupt rand timer i d = Ok (i', d') /\ kernel d' = kernel d /\ machine d' = machine d /\
    randomize d' = randomize d /\ disable d' = disable d /\
    if disable d then i' = i
    else exists delay, 1 <= delay <= 200 /\ (randomize d = false -> delay = TimerTicks) /\
           added i i' (totalTicks i + delay) /\ tok i'.
Proof.
  intros HI H0 HM. unfold SetInterrupt. destruct (disable d) eqn:Ed.
  { exists i, d. by rewrite Ed. }
  pose proof (Z.mod_pos_bound (rand (drawn d)) (TimerTicks * 2) ltac:(done)) as Hr. unfold TimerTicks in *.
  destruct (randomize d) eqn:Er.
  - destruct (Schedule_ok i (1 + rand (drawn d) mod (100 * 2))) as (i' & -> & H1 & H2); [done..|lia|lia|].
    cbn [mbind res_bind]. eexists _, _. split; [reflexivity|]. cbn. split_and!; try done.
    exists (1 + rand (drawn d) mod (100 * 2)). split_and!; try done; lia.
  - destruct (Schedule_ok i 100) as (i' & -> & H1 & H2); [done..|lia|].
    cbn [mbind res_bind]. eexists _, _. split; [reflexivity|]. cbn. split_and!; try done.
    exists 100. split_and!; done || lia.
Qed.

(** [Alarm::CallBack]: the running thread has one tick of its slice less. *)
Lemma Alarm_ok i k th :
  inHandler i = true -> threads k !! currentThread k = Some th ->
  let r := i32 (timeSliceRemain th - 1) in
  let y := bool_decide (typeno = 1) ||
    ((bool_decide (typeno = 2) || bool_decide (typeno = 3)) && negb (bool_decide (status i = IdleMode)) &&
     bool_decide (r <= 0)) in
  Alarm_CallBack typeno i k =
    Ok (if y then with_yieldOnReturn i true else i,
        with_threads k (<[currentThread k := setRemainTime th r]> (threads k))).
Proof.
  intros HI Ht r y. unfold Alarm_CallBack. rewrite (get_thread_Ok _ _ _ Ht). cbn [mbind res_bind timeSliceRemain setRemainTime].
  fold r. unfold YieldOnReturn. rewrite HI. cbn [ASSERT mbind res_bind]. subst y.
  destruct (bool_decide (typeno = 1)); [done|]. cbn [orb]. by destruct (_ && _ && _).
Qed.

Definition timer_ok (d : TimerDevice) : Prop :=
  is_Some (threads (kernel d) !! currentThread (kernel d)) /\
  match machine d with Some m => regs_ok (registers m) | None => True end.

#[local] Abbreviation quietly i i' := (tok i' /\
    totalTicks i' = totalTicks i /\ level i' = level i /\ inHandler i' = inHandler i /\ fired i' = fired i /\
    due (totalTicks i) (pending i') = due (totalTicks i) (pending i) /\
    later (totalTicks i) (pending i) ⊆+ later (totalTicks i) (pending i')).

Lemma added_quiet i i' w : tok i -> tok i' -> added i i' w -> totalTicks i < w -> quietly i i'.
Proof.
  intros [HS HA] HI' -> Hw.
  destruct (insert_later (totalTicks i) (mkPending (newest i + 1) timer w TimerInt) (pending i) HS Hw) as [E1 E2].
  split_and!; try done. cbn. rewrite E2. by apply submseteq_cons.
Qed.

Lemma Timer_CallBack_ok i d :
  timer_ok d -> tok i -> inHandler i = true -> 0 <= totalTicks i -> totalTicks i + 200 <= int_max ->
  exists i' d', Timer_CallBack typeno rand timer i d = Ok (i', d') /\ timer_ok d' /\ quietly i i'.
Proof.
  intros [[th Ht] HM] HI Hh H0 Hb. unfold Timer_CallBack. rewrite (Alarm_ok i _ th Hh Ht). cbn [mbind res_bind].
  match goal with |- context [SetInterrupt _ _ ?a (mkTimer ?b _ _ _ _)] => set (i1 := a); set (k1 := b) end.
  assert (I1 : tok i1) by (subst i1; by destruct (_ || _)).
  assert (E1 : totalTicks i1 = totalTicks i /\ level i1 = level i /\ inHandler i1 = inHandler i /\
    fired i1 = fired i /\ pending i1 = pending i) by (subst i1; by destruct (_ || _)).
  destruct E1 as (E1 & E2 & E3 & E4 & E5).
  destruct (SetInterrupt_ok i1 (mkTimer k1 (machine d) (randomize d) (disable d) (drawn d))) as
    (i' & d' & E & Ek & Em & _ & _ & H); [done|lia|lia|]. exists i', d'. split; [done|]. split.
  - split; [rewrite Ek; cbn; rewrite lookup_insert_eq; by eexists|]. by rewrite Em.
  - cbn in H. destruct (disable d).
    + subst i'. rewrite E1, E2, E3, E4, E5. by split_and!.
    + destruct H as (delay & Hd & _ & HA & HI'). rewrite <- E1, <- E2, <- E3, <- E4, <- E5.
      eapply added_quiet; [exact I1|exact HI'|exact HA|lia].
Qed.

#[export] Instance timer_lawful : @LawfulDevices TimerDevice (timer_devices typeno rand timer).
Proof.
  refine {| dinv := timer_ok; known := fun a => a = timer; maxDelay := 200 |}.
  - intros d [Hk HM]. cbn. unfold timer_ok in *. destruct (machine d) as [m|] eqn:Em; [|by exists d; rewrite Em].
    rewrite DelayedLoad_total by done. eexists. split; [reflexivity|]. cbn. split; [done|].
    by destruct (delayed_ok (registers m) 0 0 HM ltac:(done) ltac:(done)).
  - intros a i d HD -> HI Hh H0 HB. cbn. rewrite bool_decide_true by done. by apply Timer_CallBack_ok.
Defined.

(** ** Time slices *)

#[local] Existing Instance timer_devices.

(** The clock stands at [T], the next timer interrupt is at [w], and the running
    thread has [r] timer interrupts left. *)
Record slice (T w r : Z) (i : Interrupt) (d : TimerDevice) : Prop := mkSlice {
  sl_status : status i = SystemMode;
  sl_flags : yieldOnReturn i = false /\ inHandler i = false;
  sl_time : totalTicks i = T;
  sl_pending : exists a, pending i = [mkPending a timer w TimerInt] /\ a <= newest i;
  sl_timer : randomize d = false /\ disable d = false /\ timer_ok d;
  sl_thread : timeSliceRemain <$> threads (kernel d) !! currentThread (kernel d) = Some r }.

#[local] Abbreviation tick i d := (@OneTick TimerDevice (timer_devices typeno rand timer) i d).

Lemma tick_before T w r i d :
  slice T w r i d -> 0 <= T -> T + 10 < w -> w <= int_max ->
  exists i', tick i d = Ok (i', d, false) /\ slice (T + 10) w r i' d.
Proof.
  intros [S1 [S2 S2'] S3 (a & S4 & Ha) S5 S6] H0 Hw Hm. unfold OneTick. rewrite bool_decide_true by done.
  rewrite S3. unfold SystemTick. rewrite i32_id by (unfold is_i32, int_min, int_max in *; lia).
  unfold CheckIfDue. cbn [ChangeLevel with_level with_ticks level pending totalTicks]. rewrite bool_decide_true by done.
  cbn [ASSERT mbind res_bind]. rewrite S4. cbn [when]. rewrite bool_decide_true by lia. cbn [negb andb mbind res_bind].
  cbn [yieldOnReturn ChangeLevel with_level with_ticks]. rewrite S2. eexists. split; [reflexivity|].
  split; cbn; try done. by exists a.
Qed.

(** The handlers, when the timer is the only device and its interrupt is due. *)
Lemma Timer_CallBack_slice i d th r :
  typeno = 2 \/ typeno = 3 -> pending i = [] -> inHandler i = true -> yieldOnReturn i = false -> status i = SystemMode ->
  0 <= totalTicks i -> totalTicks i + 200 <= int_max -> randomize d = false -> disable d = false -> timer_ok d ->
  threads (kernel d) !! currentThread (kernel d) = Some th -> timeSliceRemain th = r -> 0 < r <= int_max ->
  exists i' d', Timer_CallBack typeno rand timer i d = Ok (i', d') /\ timer_ok d' /\
    i' = with_pending (with_yieldOnReturn i (bool_decide (r = 1)))
           [mkPending (newest i + 1) timer (totalTicks i + TimerTicks) TimerInt] (newest i + 1) /\
    randomize d' = false /\ disable d' = false /\
    timeSliceRemain <$> threads (kernel d') !! currentThread (kernel d') = Some (r - 1).
Proof.
  intros Ht Ep Hh Hy Hs H0 Hm Hr Hd [_ HM] Et Er Hr'. unfold Timer_CallBack. rewrite (Alarm_ok i _ th Hh Et).
  cbn [mbind res_bind]. rewrite Er, i32_id, Hs by (unfold is_i32, int_min, int_max in *; lia).
  assert (bool_decide (typeno = 1) || (bool_decide (typeno = 2) || bool_decide (typeno = 3)) &&
    negb (bool_decide (SystemMode = IdleMode)) && bool_decide (r - 1 <= 0) = bool_decide (r = 1)) as ->.
  { rewrite (bool_decide_ext (r - 1 <= 0) (r = 1)) by lia. destruct Ht as [-> | ->]; cbn; done. }
  assert ((if bool_decide (r = 1) then with_yieldOnReturn i true else i) =
    with_yieldOnReturn i (bool_decide (r = 1))) as ->.
  { destruct (bool_decide (r = 1)); [done|]. destruct i. cbn in Hy. by subst. }
  set (i1 := with_yieldOnReturn i (bool_decide (r = 1))).
  destruct (SetInterrupt_ok i1 (mkTimer (with_threads (kernel d) (<[currentThread (kernel d) := setRemainTime th (r - 1)]>
    (threads (kernel d)))) (machine d) (randomize d) (disable d) (drawn d))) as (i' & d' & E & Ek & Em & Er2 & Ed2 & H).
  { split; cbn; rewrite Ep; constructor. } { done. } { done. }
  exists i', d'. cbn in Er2, Ed2. rewrite Ek, Er2, Ed2. cbn. rewrite lookup_insert_eq. split_and!; try done.
  - unfold timer_ok. rewrite Ek, Em. cbn. rewrite lookup_insert_eq. split; [by eexists|done].
  - cbn in H. rewrite Hd in H. destruct H as (delay & _ & Hdel & -> & _). unfold i1. cbn. by rewrite Ep, (Hdel Hr).
Qed.

Lemma load_slice d :
  timer_ok d -> exists d1, DelayedLoad00 (Devices := timer_devices typeno rand timer) d = Ok d1 /\ timer_ok d1 /\
    kernel d1 = kernel d /\ randomize d1 = randomize d /\ disable d1 = disable d.
Proof.
  intros HD. destruct (load_ok (LawfulDevices := timer_lawful) d HD) as (d1 & E1 & HD1). exists d1.
  split_and!; try done; cbn in E1; (destruct (machine d); [apply bind_Ok in E1 as (m' & _ & E1)|]); by injection E1 as <-.
Qed.

Lemma tick_at T w r i d :
  typeno = 2 \/ typeno = 3 -> slice T w r i d -> 0 <= T -> w = T + 10 -> T + 300 <= int_max -> 0 < r <= int_max ->
  exists i' d', tick i d = Ok (i', d', bool_decide (r = 1)) /\ slice (T + 10) (T + 110) (r - 1) i' d'.
Proof.
  intros Ht [S1 [S2 S2'] S3 (a & S4 & Ha) (S5 & S6 & S7) S8] H0 -> Hm Hr.
  unfold OneTick. rewrite bool_decide_true by done.
  rewrite S3. unfold SystemTick. rewrite i32_id by (unfold is_i32, int_min, int_max in *; lia).
  unfold CheckIfDue. cbn [ChangeLevel with_level with_ticks level pending totalTicks]. rewrite bool_decide_true by done.
  cbn [ASSERT mbind res_bind]. rewrite S4. cbn [when]. rewrite bool_decide_false by lia. cbn [negb andb].
  destruct (load_slice d S7) as (d1 & -> & HD1 & K1 & K2 & K3). cbn [mbind res_bind].
  cbn [pending with_inHandler ChangeLevel with_level with_ticks]. rewrite S4. cbn [length fire].
  cbn [pending with_inHandler ChangeLevel with_level with_ticks]. rewrite S4. cbn [Seq.RemoveFront mbind res_bind].
  cbn [CallBack timer_devices callOnInterrupt]. rewrite bool_decide_true by done.
  destruct (threads (kernel d) !! currentThread (kernel d)) as [th|] eqn:Eth; [|done]. injection S8 as S8.
  match goal with |- context [Timer_CallBack _ _ _ ?x _] => set (i1 := x) end.
  destruct (Timer_CallBack_slice i1 d1 th r) as (i' & d' & -> & HD' & -> & R1 & R2 & R3); try done;
    [cbn; lia|cbn; lia|by rewrite K2|by rewrite K3|by rewrite K1|].
  cbn [mbind res_bind pending with_pending with_yieldOnReturn].
  rewrite (bool_decide_false (_ <= _)) by (unfold i1, TimerTicks; cbn; lia). cbn [mbind res_bind].
  cbn [yieldOnReturn ChangeLevel with_level with_inHandler with_pending with_yieldOnReturn].
  assert (Hsl : forall x, yieldOnReturn x = false -> status x = SystemMode ->
    pending x = [mkPending (newest i + 1) timer (T + 10 + TimerTicks) TimerInt] -> newest x = newest i + 1 ->
    inHandler x = false -> totalTicks x = T + 10 -> slice (T + 10) (T + 110) (r - 1) x d').
  { intros x X1 X2 X3 X4 X5 X6. split; try done. exists (newest i + 1). split; [|lia]. rewrite X3.
    unfold TimerTicks. do 2 f_equal. lia. }
  destruct (bool_decide (r = 1)); eexists _, _; (split; [reflexivity|]); by apply Hsl.
Qed.

End timer.
