(* ===== verification/Devices.v ===== *)
(** * Interrupts of devices that are not always ready

    Lemmas for the machines that have other devices than the timer: the interrupts
    that a device has pending, scheduling, and what ticks and idling do to a state
    of hardware and devices that every handler preserves. *)

From S2P Require Import Prelude Lists ListProofs Sched Interrupt InterruptProofs.
Import Interrupt.Interrupt.

(** The interrupts of one device. *)
Definition count (a : Z) (l : list PendingInterrupt) : Z := Z.of_nat (length (filter (fun p => callOnInterrupt p = a) l)).

Lemma count_cons a p l : count a (p :: l) = (if decide (callOnInterrupt p = a) then 1 else 0) + count a l.
Proof. unfold count. rewrite filter_cons. case_decide; cbn -[Z.of_nat]; lia. Qed.

Lemma count_insert a p l : count a (Seq.insert_before PendingCompare p l) = count a (p :: l).
Proof. unfold count. by rewrite insert_before_perm. Qed.

Lemma count_nonneg a l : 0 <= count a l.
Proof. unfold count. lia. Qed.

Lemma i32_le x : int_min <= x -> i32 x <= x.
Proof. unfold i32, int_min. zlia. Qed.

(** [Schedule] succeeds when the addresses of the pending interrupts are in use. *)
Definition scheduled (i : Interrupt) (dev n : Z) (ty : IntType) : Interrupt :=
  with_pending i (Seq.insert_before PendingCompare
    (mkPending (newest i + 1) dev (i32 (totalTicks i + n)) ty) (pending i)) (newest i + 1).

Lemma Schedule_total i dev n ty : Forall (fun p => address p <= newest i) (pending i) -> 0 < n ->
  Schedule i dev n ty = Ok (scheduled i dev n ty).
Proof.
  intros HA Hn. unfold Schedule. rewrite bool_decide_true by lia. cbn [ASSERT mbind res_bind]. unfold Seq.Insert, Seq.IsInList.
  rewrite bool_decide_false; [done|]. intros Hin. rewrite Forall_forall in HA. specialize (HA _ Hin). cbn in HA. lia.
Qed.

Section known.
(** [known]: the addresses of the devices. *)
Context (known : Z -> Prop).

Definition intr_ok (i : Interrupt) : Prop := Sorted (cmp_le PendingCompare) (pending i) /\
  Forall (fun p => address p <= newest i /\ known (callOnInterrupt p)) (pending i).

(** Nothing is pending beyond the next [n] ticks. *)
Definition soon (n : Z) (i : Interrupt) : Prop := 0 <= totalTicks i /\ Forall (fun p => when p <= totalTicks i + n) (pending i).

Lemma intr_addresses i : intr_ok i -> Forall (fun p => address p <= newest i) (pending i).
Proof. intros [_ HA]. eapply Forall_impl; [exact HA|]. by intros p []. Qed.

Lemma scheduled_ok i dev n ty : intr_ok i -> known dev -> intr_ok (scheduled i dev n ty).
Proof.
  intros [HS HA] Hk. split; cbn; [by apply (insert_before_sorted PendingCompare)|]. rewrite insert_before_perm.
  constructor; [by split; cbn; [lia|]|]. eapply Forall_impl; [exact HA|]. intros p [H1 H2]. split; [lia|done].
Qed.

Lemma scheduled_soon i dev n ty : soon n i -> 0 <= n -> soon n (scheduled i dev n ty).
Proof.
  intros [H0 HF] Hn. split; [done|]. cbn. rewrite insert_before_perm. constructor; [|done]. cbn. apply i32_le. unfold int_min. lia.
Qed.

Lemma scheduled_due i dev n ty : intr_ok i -> 0 <= totalTicks i -> 0 < n -> totalTicks i + n <= int_max ->
  due (totalTicks i) (pending (scheduled i dev n ty)) = due (totalTicks i) (pending i).
Proof.
  intros [HS _] H0 Hn HM. cbn. rewrite i32_id by (unfold is_i32, int_min, int_max in *; lia).
  apply insert_later; [exact HS|cbn; lia].
Qed.

Lemma popped_ok i p l : intr_ok i -> pending i = p :: l -> intr_ok (log_fired (with_pending i l (newest i)) p).
Proof. intros [HS HA] E. rewrite E in HS, HA. split; cbn; [by inversion HS|by inversion HA]. Qed.

Lemma popped_soon n i p l : soon n i -> pending i = p :: l -> soon n (log_fired (with_pending i l (newest i)) p).
Proof. intros [H0 HF] E. rewrite E in HF. split; cbn; [done|by inversion HF]. Qed.

Lemma later_ok i i' : pending i' = pending i -> newest i' = newest i -> intr_ok i -> intr_ok i'.
Proof. intros Ep En HI. unfold intr_ok. by rewrite Ep, En. Qed.

Lemma later_soon n i i' : pending i' = pending i -> totalTicks i <= totalTicks i' -> soon n i -> soon n i'.
Proof.
  intros Ep Ht [H0 HF]. split; [lia|]. rewrite Ep. eapply Forall_impl; [exact HF|]. intros p Hp. cbn in *. lia.
Qed.

End known.

(** ** A state that the handlers preserve *)

Section joint.
Context {D : Type} `{!Devices D} (n : Z) (I : Interrupt -> D -> Prop).

(** The hardware and the devices are in a state [I]; the handler of the first
    pending interrupt, called when it is due, leads to such a state and schedules
    nothing for the past. *)
Record preserved : Prop := mkPreserved {
  p_range : 0 <= n <= 1000;
  p_sorted : forall i d, I i d -> Sorted (cmp_le PendingCompare) (pending i) /\ soon n i;
  p_handler : forall i d p l, I i d -> pending i = p :: l -> when p <= totalTicks i -> totalTicks i + n <= int_max ->
    exists i' d', CallBack (callOnInterrupt p) (log_fired (with_pending i l (newest i)) p) d = Ok (i', d') /\ I i' d' /\
      totalTicks i' = totalTicks i /\ due (totalTicks i) (pending i') = due (totalTicks i) l;
  p_load : forall i d, I i d -> exists d', DelayedLoad00 d = Ok d' /\ I i d';
  p_later : forall i i' d, pending i' = pending i -> newest i' = newest i -> totalTicks i <= totalTicks i' -> I i d -> I i' d }.

Context (HI : preserved).

Lemma fire_total fuel i d : I i d -> totalTicks i + n <= int_max -> due (totalTicks i) (pending i) <> [] ->
  (length (due (totalTicks i) (pending i)) <= fuel)%nat -> exists i' d', fire fuel i d = Ok (i', d') /\ I i' d'.
Proof.
  revert i d. induction fuel as [|fuel IH]; intros i d Hd HM Hne Hf.
  { destruct (due _ _); [done|cbn in Hf; lia]. }
  pose proof (p_sorted HI _ _ Hd) as [HS _]. cbn [fire]. destruct (pending i) as [|p l] eqn:Ep; [done|]. cbn [Seq.RemoveFront mbind res_bind].
  pose proof (due_head _ _ _ HS Hne) as Hp.
  destruct (p_handler HI i d p l Hd Ep Hp HM) as (i1 & d1 & -> & H1 & Et & Edue). cbn [mbind res_bind].
  unfold due in Hf. rewrite filter_cons_True in Hf by done. cbn [length] in Hf.
  pose proof (p_sorted HI _ _ H1) as [HS1 _]. destruct (pending i1) as [|q l1] eqn:Eq; [by exists i1, d1|]. rewrite Et. case_bool_decide as Hq.
  - assert (Hdue : due (totalTicks i1) (pending i1) = due (totalTicks i) l) by by rewrite Et, Eq.
    apply IH; [done|lia|rewrite Et, Eq; unfold due; by rewrite filter_cons_True|]. rewrite Hdue. unfold due. lia.
  - by exists i1, d1.
Qed.

Lemma CheckIfDue_total i d adv : I i d -> level i = IntOff -> time_to i adv + n <= int_max ->
  exists i' d', CheckIfDue i d adv = Ok (bool_decide (due (time_to i adv) (pending i) <> []), i', d') /\ I i' d'.
Proof.
  intros Hd HL HM. unfold CheckIfDue. rewrite bool_decide_true by done. cbn [ASSERT mbind res_bind].
  pose proof (p_sorted HI _ _ Hd) as [HS _]. unfold time_to in *. destruct (pending i) as [|p l] eqn:Ep; [by exists i, d|].
  destruct (bool_decide (when p > totalTicks i) && negb adv) eqn:Eb.
  { apply andb_true_iff in Eb as [Hw%bool_decide_eq_true ->%negb_true_iff]. exists i, d. split; [|done].
    rewrite due_nil by (done || lia). by rewrite bool_decide_false by (intros H; by apply H). }
  match goal with |- context [with_inHandler ?x true] => set (i1 := x) end.
  set (T := if adv then _ else _) in *.
  assert (H1 : totalTicks i1 = T /\ when p <= T /\ totalTicks i <= T /\ pending i1 = p :: l /\ newest i1 = newest i).
  { subst i1 T. apply andb_false_iff in Eb as [Eb|Eb].
    - apply bool_decide_eq_false in Eb. rewrite bool_decide_false by done. destruct adv; split_and!; try done; lia.
    - apply negb_false_iff in Eb as ->. case_bool_decide; cbn; split_and!; try done; lia. }
  destruct H1 as (Et & Hw & Hle & Ep1 & En1).
  assert (H1 : I (with_inHandler i1 true) d) by (apply (p_later HI i); [by rewrite Ep|done|cbn; lia|done]).
  destruct (p_load HI _ _ H1) as (d1 & -> & H2). cbn [mbind res_bind]. rewrite Ep1.
  assert (Hne : due T (p :: l) <> []) by (unfold due; by rewrite filter_cons_True).
  destruct (fire_total (length (p :: l)) (with_inHandler i1 true) d1 H2) as (i2 & d2 & -> & H3);
    cbn [totalTicks pending with_inHandler]; rewrite ?Et, ?Ep1; [lia|done|apply length_filter|].
  cbn [mbind res_bind]. rewrite bool_decide_true by done. exists (with_inHandler i2 false), d2. split; [done|]. by apply (p_later HI i2).
Qed.

(** Time passes: the interrupts that are due occur, and nothing fails. *)
Lemma OneTick_total i d : I i d -> totalTicks i <= 2000000000 -> exists i' d' y, OneTick i d = Ok (i', d', y) /\ I i' d'.
Proof.
  intros Hd HM. pose proof (p_sorted HI _ _ Hd) as [_ [H0 _]]. pose proof (p_range HI) as Hn. unfold OneTick.
  match goal with |- context [ChangeLevel ?x IntOff] => set (i0 := x) end.
  assert (HT : totalTicks i <= totalTicks i0 <= totalTicks i + 10).
  { subst i0. case_bool_decide; cbn; rewrite i32_id; unfold is_i32, int_min, int_max, SystemTick, UserTick; lia. }
  assert (H1 : I (ChangeLevel i0 IntOff) d).
  { apply (p_later HI i); [..|exact (proj1 HT)|done]; subst i0; by case_bool_decide. }
  destruct (CheckIfDue_total _ d false H1) as (i1 & d1 & -> & H2); [done| |].
  { assert (ET : time_to (ChangeLevel i0 IntOff) false = totalTicks i0) by (unfold time_to; by destruct (pending _)).
    rewrite ET. unfold int_max. lia. }
  cbn [mbind res_bind]. destruct (yieldOnReturn _); eexists _, d1, _; (split; [reflexivity|]); by apply (p_later HI i1).
Qed.

(** The clock moves to the next interrupt, if there is one. *)
Lemma Idle_total i d : I i d -> level i = IntOff -> totalTicks i <= 2000000000 ->
  exists i' d', Idle i d = Ok (bool_decide (pending i <> []), i', d') /\ I i' d'.
Proof.
  intros Hd HL HM. unfold Idle. pose proof (p_range HI) as Hn.
  assert (H1 : I (with_status i IdleMode) d) by by apply (p_later HI i).
  pose proof (p_sorted HI _ _ Hd) as [HS [H0 HF]].
  destruct (CheckIfDue_total _ d true H1) as (i1 & d1 & -> & H2); [done| |].
  { unfold time_to. cbn. destruct (pending i) as [|p l]; unfold int_max; [lia|]. apply Forall_cons in HF as [Hp _]. lia. }
  cbn [mbind res_bind]. exists (if bool_decide (pending i <> []) then with_status i1 SystemMode else i1), d1.
  split; [|case_bool_decide; [by apply (p_later HI i1)|done]]. unfold time_to. cbn. destruct (pending i) as [|p l]; [done|].
  rewrite (bool_decide_true (p :: l <> [])) by done. rewrite bool_decide_true; [done|]. unfold due. by rewrite filter_cons_True by lia.
Qed.

End joint.
