(* ===== verification/InterruptClaims.v ===== *)
(** * What the interrupt hardware and the timer guarantee *)

From S2P Require Import Prelude Lists ListProofs Machine MachineProofs Sched SchedProofs SchedClaims Interrupt InterruptProofs.
Import Interrupt.Interrupt.

(** C23: interrupts occur in time, in order, once.  For any devices whose handlers
    only schedule interrupts in the future, [CheckIfDue] terminates; it calls the
    handlers of exactly the interrupts that are due, each once, in the order of
    their times; it returns true when there was one; all interrupts that remain
    pending are in the future and none that was not due is lost; and the clock
    moves only if asked to, and only as far as the next interrupt. *)
Theorem interrupts_fire_exactly {D : Type} `{!Devices D} `{!LawfulDevices} (i : Interrupt) (d : D) (advanceClock : bool) :
  let T := time_to i advanceClock in
  dinv d -> iok i -> level i = IntOff -> 0 <= totalTicks i -> T + maxDelay <= int_max ->
  exists b i' d', CheckIfDue i d advanceClock = Ok (b, i', d') /\
    dinv d' /\ iok i' /\ level i' = IntOff /\
    fired i' = fired i ++ due T (pending i) /\ Sorted (fun p q => when p <= when q) (due T (pending i)) /\
    b = bool_decide (due T (pending i) <> []) /\
    Forall (fun p => T < when p) (pending i') /\ later T (pending i) ⊆+ pending i' /\
    totalTicks i' = T /\ (b = false -> i' = i).
Proof.
  intros T HD HI HL H0 HM.
  destruct (CheckIfDue_spec i d advanceClock HD HI HL H0 HM) as (b & i' & d' & E & H1 & H2 & H3).
  destruct H3 as (A1 & A2 & A3 & A4 & A5 & A6 & A7 & A8). exists b, i', d'. split_and!; try done.
  destruct HI as [HS _]. apply Sorted_StronglySorted in HS; [|intros ???; rewrite !cmp_le_when; lia].
  apply StronglySorted_Sorted. unfold due. clear -HS. induction HS as [|p l HS IH HF]; [constructor|].
  destruct (decide (when p <= T)); [rewrite filter_cons_True by done|by rewrite filter_cons_False by done].
  constructor; [done|]. apply Forall_forall. intros q [_ Hq]%list_elem_of_filter.
  rewrite Forall_forall in HF. by apply cmp_le_when, HF.
Qed.

(** The kernel after start-up with the alarm clock running, no machine. *)
Definition boot_timer (r : Z) : res (Interrupt * TimerDevice) :=
  newAlarm (fun _ => 0) 7 newInterrupt (boot 0 r) None false.

Definition demo_interrupt : Interrupt := match boot_timer 3 with Ok (i, _) => i | _ => newInterrupt end.
Definition demo_timer : TimerDevice := mkTimer (boot 0 3) None false false 0.

(** Idling takes the clock to the first timer interrupt, at time 100. *)
Lemma interrupts_fire_exactly_witness : exists i' d',
  @CheckIfDue TimerDevice (timer_devices 2 (fun _ => 0) 7) demo_interrupt demo_timer true = Ok (true, i', d') /\
  totalTicks i' = 100.
Proof.
  destruct (@interrupts_fire_exactly TimerDevice (timer_devices 2 (fun _ => 0) 7) (timer_lawful 2 (fun _ => 0) 7)
    demo_interrupt demo_timer true) as (b & i' & d' & E & _ & _ & _ & _ & _ & Eb & _ & _ & ET & _).
  - split; [by eexists|done].
  - split; [by repeat constructor|]. repeat constructor; vm_compute; done.
  - reflexivity.
  - done.
  - vm_compute. done.
  - exists i', d'. split; [|exact ET]. rewrite E. rewrite Eb. reflexivity.
Defined.

(** ** Time slices *)

Section timer.
Context (typeno : Z) (rand : nat -> Z) (timer : Z).

(** [n] calls of [OneTick], stopping at the first one that asks for a [Yield]. *)
Fixpoint ticks (n : nat) (i : Interrupt) (d : TimerDevice) : res (Interrupt * TimerDevice * bool) :=
  match n with
  | O => Ok (i, d, false)
  | S n' =>
      '(i, d, y) ← @OneTick TimerDevice (timer_devices typeno rand timer) i d;
      if (y : bool) then Ok (i, d, true) else ticks n' i d
  end.





(** Before the last interrupt of the slice nothing asks for a [Yield]. *)
Lemma ticks_prefix n m i d r : ticks (n + m) i d = Ok r -> exists i' d' y, ticks n i d = Ok (i', d', y).
Proof.
  revert i d. induction n as [|n IH]; intros i d; cbn; [by eexists _, _, _|].
  destruct (OneTick i d) as [[[i1 d1] y]| | |]; try done. cbn. destruct y; [by eexists _, _, _|]. apply IH.
Qed.


End timer.



