(* ===== verification/Hash.v ===== *)
(** * lib/hash.h, lib/hash.cc: hash tables

    The buckets are lists (class [List], through its interface [Seq]); the
    functions that get the key of an item and that hash a key are arguments of
    the constructor. *)

From S2P Require Import Prelude Lists.

Definition InitialBuckets : Z := 4.
Definition ResizeRatio : Z := 3.
Definition IncreaseSizeBy : Z := 4.

Section hash.
Context {K T : Type} `{EqDecision K} `{EqDecision T}.
Context (getKey : T -> K) (hash : K -> Z).

Record HashTable : Type := mkHash { buckets : list (list T); numBuckets : Z; numItems : Z }.

Definition InitBuckets (tbl : HashTable) (sz : Z) : HashTable :=
  mkHash (replicate (Z.to_nat sz) []) sz (numItems tbl).

Definition newHashTable : HashTable := InitBuckets (mkHash [] 0 0) InitialBuckets.

(** [hash] returns an [unsigned], so the remainder is taken of unsigned numbers. *)
Definition HashValue (tbl : HashTable) (key : K) : res Z :=
  if bool_decide (numBuckets tbl = 0) then Undef
  else
    let result := i32 (u32 (hash key) mod u32 (numBuckets tbl)) in
    _ ← ASSERT (bool_decide (result >= 0) && bool_decide (result < numBuckets tbl)); Ok result.

(** The loop of [FindInBucket] over the items of the bucket. *)
Fixpoint find_loop (key : K) (l : list T) : option T :=
  match l with
  | [] => None
  | x :: l' => if decide (key = getKey x) then Some x else find_loop key l'
  end.

Definition FindInBucket (tbl : HashTable) (bucket : Z) (key : K) : res (option T) :=
  l ← aget (buckets tbl) bucket; Ok (find_loop key l).

Definition Find (tbl : HashTable) (key : K) : res (option T) :=
  bucket ← HashValue tbl key; FindInBucket tbl bucket key.

Definition IsInTable (tbl : HashTable) (key : K) : res bool :=
  r ← Find tbl key; Ok (bool_decide (r <> None)).

Definition IsEmpty (tbl : HashTable) : bool := bool_decide (numItems tbl = 0).

(** [buckets[HashValue(getKey(item))]->Append(item)] *)
Definition put (tbl : HashTable) (item : T) : res HashTable :=
  bucket ← HashValue tbl (getKey item);
  l ← aget (buckets tbl) bucket;
  l ← Seq.Append item l;
  bs ← aset (buckets tbl) bucket l;
  Ok (mkHash bs (numBuckets tbl) (numItems tbl)).

(** The items of bucket [i] hash to [i]. *)
Definition check_bucket (tbl : HashTable) (i : Z) (l : list T) : res () :=
  foldM (fun _ x => v ← HashValue tbl (getKey x); ASSERT (bool_decide (i = v))) () l.

(** The buckets are legal lists, by the invariant of [List]. *)
Definition SanityCheck (tbl : HashTable) : res () :=
  numFound ← for_loop (Z.to_nat (numBuckets tbl)) 0 (fun i numFound =>
    l ← aget (buckets tbl) i;
    _ ← check_bucket tbl i l;
    Ok (i32 (numFound + Z.of_nat (length l)))) 0;
  ASSERT (bool_decide (numItems tbl = numFound)).

Definition ReHash (tbl : HashTable) : res HashTable :=
  let oldTable := buckets tbl in
  let oldSize := numBuckets tbl in
  _ ← SanityCheck tbl;
  tbl ← for_loop (Z.to_nat oldSize) 0 (fun i tbl =>
    l ← aget oldTable i; foldM put tbl l) (InitBuckets tbl (i32 (numBuckets tbl * IncreaseSizeBy)));
  _ ← SanityCheck tbl; Ok tbl.

Definition Insert (tbl : HashTable) (item : T) : res HashTable :=
  let key := getKey item in
  b ← IsInTable tbl key;
  _ ← ASSERT (negb b);
  _ ← (if bool_decide (numBuckets tbl = 0) then Undef else Ok ());
  tbl ← (if bool_decide (Z.quot (numItems tbl) (numBuckets tbl) >= ResizeRatio) then ReHash tbl else Ok tbl);
  tbl ← put tbl item;
  let tbl := mkHash (buckets tbl) (numBuckets tbl) (i32 (numItems tbl + 1)) in
  b ← IsInTable tbl key;
  _ ← ASSERT b; Ok tbl.

Definition Remove (tbl : HashTable) (key : K) : res (T * HashTable) :=
  bucket ← HashValue tbl key;
  found ← FindInBucket tbl bucket key;
  match found with
  | None => AssertFail
  | Some item =>
      l ← aget (buckets tbl) bucket;
      l ← Seq.Remove item l;
      bs ← aset (buckets tbl) bucket l;
      let tbl := mkHash bs (numBuckets tbl) (i32 (numItems tbl - 1)) in
      b ← IsInTable tbl key;
      _ ← ASSERT (negb b); Ok (item, tbl)
  end.

Definition Apply {S} (func : S -> T -> res S) (tbl : HashTable) (s : S) : res S :=
  for_loop (Z.to_nat (numBuckets tbl)) 0 (fun i s => l ← aget (buckets tbl) i; foldM func s l) s.

Fixpoint next_full (fuel : nat) (tbl : HashTable) (bucket : Z) : res Z :=
  if bool_decide (bucket < numBuckets tbl) then
    match fuel with
    | O => Diverge
    | S fuel' =>
        l ← aget (buckets tbl) bucket;
        if bool_decide (l = []) then next_full fuel' tbl (bucket + 1) else Ok bucket
    end
  else Ok bucket.

Definition FindNextFullBucket (tbl : HashTable) (bucket : Z) : res Z :=
  next_full (Z.to_nat (numBuckets tbl - bucket)) tbl bucket.

(** ** Iterators *)

(** The rest of the current bucket is what its [ListIterator] still visits. *)
Record HashIterator : Type := mkIter { bucket : Z; bucketIter : option (list T) }.

(** Start at the next full bucket from [b] on. *)
Definition iterate_from (tbl : HashTable) (b : Z) : res HashIterator :=
  b ← FindNextFullBucket tbl b;
  if bool_decide (b < numBuckets tbl) then l ← aget (buckets tbl) b; Ok (mkIter b (Some l))
  else Ok (mkIter b None).

Definition newHashIterator (tbl : HashTable) : res HashIterator := iterate_from tbl 0.

Definition IsDone (tbl : HashTable) (it : HashIterator) : bool :=
  bool_decide (bucket it = numBuckets tbl).

Definition Item (tbl : HashTable) (it : HashIterator) : res T :=
  _ ← ASSERT (negb (IsDone tbl it));
  match bucketIter it with Some (x :: _) => Ok x | Some [] => AssertFail | None => Undef end.

Definition Next (tbl : HashTable) (it : HashIterator) : res HashIterator :=
  match bucketIter it with
  | None | Some [] => Undef
  | Some (_ :: l) =>
      if bool_decide (l = []) then iterate_from tbl (bucket it + 1) else Ok (mkIter (bucket it) (Some l))
  end.

(** [for (; !iter->IsDone(); iter->Next()) operation on iter->Item()], collecting
    the items. *)
Fixpoint walk (fuel : nat) (tbl : HashTable) (it : HashIterator) : res (list T) :=
  if IsDone tbl it then Ok []
  else
    match fuel with
    | O => Diverge
    | S fuel' => x ← Item tbl it; it ← Next tbl it; xs ← walk fuel' tbl it; Ok (x :: xs)
    end.

Definition iterate (tbl : HashTable) : res (list T) :=
  it ← newHashIterator tbl; walk (S (Z.to_nat (numItems tbl))) tbl it.

(** ** The self test *)

Definition SelfTest (tbl : HashTable) (p : list T) : res HashTable :=
  it ← newHashIterator tbl;
  _ ← SanityCheck tbl;
  _ ← ASSERT (IsEmpty tbl);
  _ ← ASSERT (IsDone tbl it);
  tbl ← foldM (fun tbl x =>
    tbl ← Insert tbl x; b ← IsInTable tbl (getKey x);
    _ ← ASSERT b; _ ← ASSERT (negb (IsEmpty tbl)); Ok tbl) tbl p;
  tbl ← foldM (fun tbl x =>
    '(y, tbl) ← Remove tbl (getKey x); _ ← ASSERT (bool_decide (y = x)); Ok tbl) tbl p;
  _ ← ASSERT (IsEmpty tbl);
  _ ← SanityCheck tbl; Ok tbl.

End hash.

Arguments HashTable : clear implicits.
Arguments HashIterator : clear implicits.
