(* ===== verification/HashProofs.v ===== *)
(** * A hash table is a finite map

    Whatever the hash function, the operations on a new table behave as on a
    finite map from keys to items, through any number of resizings. *)

From S2P Require Import Prelude Lists ListProofs SchedProofs Hash.

Section hash.
Context {K T : Type} `{Countable K} `{EqDecision T}.
Context (getKey : T -> K) (hash : K -> Z).

(** The bucket of a key in a table of [n] buckets. *)
Definition hv (n : Z) (k : K) : Z := u32 (hash k) mod n.

Definition keys (bs : list (list T)) : list K := getKey <$> concat bs.

(** [n] buckets with every item in the bucket of its key, no key twice. *)
Record bwf (n : Z) (bs : list (list T)) : Prop := mkBwf {
  b_num : 0 < n <= int_max;
  b_len : Z.of_nat (length bs) = n;
  b_place : forall i l x, bs !! i = Some l -> x ∈ l -> hv n (getKey x) = Z.of_nat i;
  b_keys : NoDup (keys bs) }.

Record hwf (tbl : HashTable T) : Prop := mkHwf {
  h_buckets : bwf (numBuckets tbl) (buckets tbl);
  h_items : numItems tbl = Z.of_nat (length (concat (buckets tbl)));
  h_max : numItems tbl <= 1073741824 }.

Lemma HashValue_ok (tbl : HashTable T) k :
  0 < numBuckets tbl <= int_max -> HashValue hash tbl k = Ok (hv (numBuckets tbl) k).
Proof.
  intros Hn. unfold HashValue, hv. rewrite bool_decide_false by lia.
  rewrite (u32_id (numBuckets tbl)) by (unfold is_u32, int_max in *; lia).
  pose proof (Z.mod_pos_bound (u32 (hash k)) (numBuckets tbl) ltac:(lia)).
  rewrite i32_id by (unfold is_i32, int_min, int_max in *; lia).
  rewrite !bool_decide_true by lia. done.
Qed.

Lemma hv_lookup n bs k : bwf n bs -> exists l, bs !! Z.to_nat (hv n k) = Some l /\ aget bs (hv n k) = Ok l.
Proof.
  intros [Hn Hl _ _]. pose proof (Z.mod_pos_bound (u32 (hash k)) n ltac:(lia)) as Hb. fold (hv n k) in Hb.
  destruct (lookup_lt_is_Some_2 bs (Z.to_nat (hv n k))) as [l El]; [lia|].
  exists l. split; [done|]. apply aget_Ok. split; [lia|done].
Qed.

Lemma find_loop_spec k l x :
  NoDup (getKey <$> l) -> find_loop getKey k l = Some x <-> x ∈ l /\ getKey x = k.
Proof.
  induction l as [|y l IH]; cbn [find_loop]; intros HN.
  - split; [done|]. intros [Hx _]. by apply not_elem_of_nil in Hx.
  - cbn in HN. apply NoDup_cons in HN as [Hy HN]. case_decide as E.
    + subst k. rewrite elem_of_cons. split; [intros [= ->]; auto|]. intros [[->|Hx] Ex]; [done|].
      exfalso. apply Hy. rewrite <- Ex. by apply list_elem_of_fmap_2.
    + rewrite IH by done. rewrite elem_of_cons. split; [naive_solver|]. intros [[->|Hx] Ex]; [done|done].
Qed.

Lemma keys_bucket bs i l : bs !! i = Some l -> NoDup (keys bs) -> NoDup (getKey <$> l).
Proof.
  intros El HN. unfold keys in HN. rewrite <- (take_drop_middle bs i l El), concat_app in HN. cbn in HN.
  rewrite !fmap_app in HN. apply NoDup_app in HN as (_ & _ & HN). by apply NoDup_app in HN as (HN & _ & _).
Qed.

Lemma in_concat_bucket (bs : list (list T)) x : x ∈ concat bs <-> exists i l, bs !! i = Some l /\ x ∈ l.
Proof.
  rewrite list_elem_of_In, in_concat. setoid_rewrite <- list_elem_of_In. split.
  - intros (l & [i El]%list_elem_of_lookup & Hx). by exists i, l.
  - intros (i & l & El & Hx). exists l. split; [by eapply list_elem_of_lookup_2|done].
Qed.

(** The map a table stands for. *)
Definition abs (tbl : HashTable T) : gmap K T :=
  list_to_map ((fun x => (getKey x, x)) <$> concat (buckets tbl)).

Lemma abs_lookup (tbl : HashTable T) k x :
  NoDup (keys (buckets tbl)) -> abs tbl !! k = Some x <-> x ∈ concat (buckets tbl) /\ getKey x = k.
Proof.
  intros HN. unfold abs. rewrite <- elem_of_list_to_map.
  - rewrite list_elem_of_fmap. naive_solver.
  - rewrite <- list_fmap_compose. exact HN.
Qed.

Lemma Find_ok (tbl : HashTable T) k : bwf (numBuckets tbl) (buckets tbl) -> Find getKey hash tbl k = Ok (abs tbl !! k).
Proof.
  intros W. unfold Find, FindInBucket. rewrite HashValue_ok by apply W. cbn [mbind res_bind].
  destruct (hv_lookup _ _ k W) as (l & El & ->). cbn [mbind res_bind]. f_equal.
  apply option_eq. intros x. rewrite abs_lookup by apply W.
  rewrite find_loop_spec by (eapply keys_bucket; [done|apply W]). rewrite in_concat_bucket. split.
  - intros [Hx E]. eauto.
  - intros [(i & l' & El' & Hx) E]. split; [|done]. pose proof (b_place _ _ W i l' x El' Hx) as Hi.
    rewrite E in Hi. rewrite Hi, Nat2Z.id in El. congruence.
Qed.


(** ** Storing an item *)

Lemma concat_middle (bs : list (list T)) i l l' : bs !! i = Some l ->
  concat bs = concat (take i bs) ++ l ++ concat (drop (S i) bs) /\
  concat (<[i := l']> bs) = concat (take i bs) ++ l' ++ concat (drop (S i) bs).
Proof.
  intros El. split.
  - by rewrite <- (take_drop_middle bs i l El) at 1; rewrite concat_app.
  - rewrite insert_take_drop by (by eapply lookup_lt_Some). by rewrite concat_app.
Qed.

Lemma bwf_insert n bs i l l' : bwf n bs -> bs !! i = Some l ->
  (forall x, x ∈ l' -> hv n (getKey x) = Z.of_nat i) ->
  NoDup (keys (<[i := l']> bs)) -> bwf n (<[i := l']> bs).
Proof.
  intros [H1 H2 H3 H4] El Hp HN. split; [done| |intros j m x|done].
  - by rewrite length_insert.
  - rewrite list_lookup_insert_Some. intros [(<- & <- & _) | [_ Ej]] Hx; [by apply Hp|by eapply H3].
Qed.

Lemma put_ok (tbl : HashTable T) x :
  bwf (numBuckets tbl) (buckets tbl) -> getKey x ∉ keys (buckets tbl) ->
  exists bs, put getKey hash tbl x = Ok (mkHash bs (numBuckets tbl) (numItems tbl)) /\
    bwf (numBuckets tbl) bs /\ concat bs ≡ₚ x :: concat (buckets tbl).
Proof.
  intros W Hx. unfold put. rewrite HashValue_ok by apply W. cbn [mbind res_bind].
  destruct (hv_lookup _ _ (getKey x) W) as (l & El & ->). cbn [mbind res_bind].
  pose proof (Z.mod_pos_bound (u32 (hash (getKey x))) (numBuckets tbl) ltac:(destruct W; lia)) as Hb.
  fold (hv (numBuckets tbl) (getKey x)) in Hb. set (i := Z.to_nat (hv (numBuckets tbl) (getKey x))) in *.
  destruct (concat_middle _ i l (l ++ [x]) El) as [E1 E2].
  assert (Hp : concat (<[i := l ++ [x]]> (buckets tbl)) ≡ₚ x :: concat (buckets tbl)) by (rewrite E1, E2; solve_Permutation).
  unfold Seq.Append, Seq.IsInList. rewrite bool_decide_false.
  2:{ intros Hl. apply Hx, list_elem_of_fmap. exists x. split; [done|]. apply in_concat_bucket. eauto. }
  cbn [negb ASSERT mbind res_bind]. rewrite aset_in_range by (rewrite (b_len _ _ W); lia).
  cbn [mbind res_bind]. fold i. eexists. split_and!; [done| |done].
  eapply bwf_insert; [done|done|intros y|].
  - rewrite elem_of_app, list_elem_of_singleton. intros [Hy | ->]; [by eapply (b_place _ _ W)|lia].
  - unfold keys. rewrite Hp. cbn. apply NoDup_cons. split; [done|apply W].
Qed.

Lemma puts_ok xs (tbl : HashTable T) :
  bwf (numBuckets tbl) (buckets tbl) -> NoDup ((getKey <$> xs) ++ keys (buckets tbl)) ->
  exists bs, foldM (put getKey hash) tbl xs = Ok (mkHash bs (numBuckets tbl) (numItems tbl)) /\
    bwf (numBuckets tbl) bs /\ concat bs ≡ₚ xs ++ concat (buckets tbl).
Proof.
  revert tbl. induction xs as [|x xs IH]; intros tbl W HN; cbn [foldM].
  - exists (buckets tbl). split_and!; [by destruct tbl|done|done].
  - cbn in HN. apply NoDup_cons in HN as [Hx HN]. rewrite elem_of_app in Hx.
    destruct (put_ok tbl x W) as (bs & -> & W1 & P1); [naive_solver|]. cbn [mbind res_bind].
    destruct (IH (mkHash bs (numBuckets tbl) (numItems tbl))) as (bs2 & -> & W2 & P2); cbn [numBuckets numItems buckets] in *; [done| |].
    + unfold keys. rewrite P1. cbn. rewrite <- Permutation_middle. apply NoDup_cons.
      split; [by rewrite elem_of_app|done].
    + exists bs2. split_and!; [done|done|]. rewrite P2, P1. solve_Permutation.
Qed.

(** ** Resizing *)

Lemma check_bucket_ok (tbl : HashTable T) i l :
  0 < numBuckets tbl <= int_max -> (forall x, x ∈ l -> hv (numBuckets tbl) (getKey x) = i) ->
  check_bucket getKey hash tbl i l = Ok ().
Proof.
  intros Hn. unfold check_bucket. induction l as [|x l IH]; intros Hl; [done|]. cbn [foldM].
  rewrite HashValue_ok by done. cbn [mbind res_bind].
  rewrite bool_decide_true by (symmetry; apply Hl; constructor). cbn [ASSERT mbind res_bind].
  apply IH. intros y Hy. apply Hl. by constructor.
Qed.

Lemma concat_take_S (bs : list (list T)) i l :
  bs !! i = Some l -> concat (take (S i) bs) = concat (take i bs) ++ l.
Proof. intros El. rewrite (take_S_r _ _ _ El), concat_app. cbn. by rewrite app_nil_r. Qed.

Lemma length_concat_take (bs : list (list T)) i : (length (concat (take i bs)) <= length (concat bs))%nat.
Proof. rewrite <- (take_drop i bs) at 2. rewrite concat_app, length_app. lia. Qed.

Lemma SanityCheck_ok (tbl : HashTable T) : hwf tbl -> SanityCheck getKey hash tbl = Ok ().
Proof.
  intros [W Hi Hm]. unfold SanityCheck.
  destruct (for_loop_ind (fun i n => n = Z.of_nat (length (concat (take (Z.to_nat i) (buckets tbl)))))
    (Z.to_nat (numBuckets tbl)) 0 (fun i numFound =>
      l ← aget (buckets tbl) i; _ ← check_bucket getKey hash tbl i l;
      Ok (i32 (numFound + Z.of_nat (length l)))) 0) as (n & -> & ->); [done| |].
  - intros i n Hr ->. destruct W as [Hn Hl Hp _].
    destruct (lookup_lt_is_Some_2 (buckets tbl) (Z.to_nat i)) as [l El]; [lia|].
    replace (aget (buckets tbl) i) with (Ok l) by (symmetry; apply aget_Ok; split; [lia|done]).
    cbn [mbind res_bind]. rewrite check_bucket_ok; [|done|intros x Hx; rewrite (Hp _ _ _ El Hx); lia].
    cbn [mbind res_bind]. eexists. split; [done|].
    replace (Z.to_nat (i + 1)) with (S (Z.to_nat i)) by lia. rewrite (concat_take_S _ _ _ El), length_app.
    pose proof (length_concat_take (buckets tbl) (S (Z.to_nat i))) as Hlt.
    rewrite (concat_take_S _ _ _ El), length_app in Hlt.
    rewrite i32_id by (unfold is_i32, int_min, int_max in *; lia). lia.
  - cbn [mbind res_bind]. rewrite take_ge by (destruct W; lia). by rewrite bool_decide_true.
Qed.

Lemma bwf_new n : 0 < n <= int_max -> bwf n (replicate (Z.to_nat n) []).
Proof.
  intros Hn. assert (E : forall m, concat (replicate m (@nil T)) = []) by (induction m; done).
  split; [done|rewrite length_replicate; lia| |].
  - intros i l x Hl Hx. apply lookup_replicate in Hl as [-> _]. by apply not_elem_of_nil in Hx.
  - unfold keys. rewrite E. constructor.
Qed.

Lemma concat_new n : concat (replicate n (@nil T)) = [].
Proof. by induction n. Qed.

(** A table that is resized keeps its items. *)
Lemma ReHash_ok (tbl : HashTable T) : hwf tbl -> numBuckets tbl * 4 <= int_max ->
  exists tbl', ReHash getKey hash tbl = Ok tbl' /\ hwf tbl' /\
    numItems tbl' = numItems tbl /\ concat (buckets tbl') ≡ₚ concat (buckets tbl).
Proof.
  intros Wf Hn. pose proof Wf as [W Hi Hm]. unfold ReHash. rewrite SanityCheck_ok by done. cbn [mbind res_bind].
  unfold IncreaseSizeBy. rewrite i32_id by (destruct W; unfold is_i32, int_min, int_max in *; lia).
  set (n4 := numBuckets tbl * 4) in *. assert (0 < n4 <= int_max) by (destruct W; lia).
  destruct (for_loop_ind (fun i t => bwf n4 (buckets t) /\ numBuckets t = n4 /\ numItems t = numItems tbl /\
      concat (buckets t) ≡ₚ concat (take (Z.to_nat i) (buckets tbl)))
    (Z.to_nat (numBuckets tbl)) 0 (fun i t => l ← aget (buckets tbl) i; foldM (put getKey hash) t l)
    (InitBuckets tbl n4)) as (t & -> & W' & E1 & E2 & P).
  - unfold InitBuckets. cbn. split_and!; [by apply bwf_new|done|done|by rewrite concat_new].
  - intros i t Hr (W' & E1 & E2 & P).
    destruct (lookup_lt_is_Some_2 (buckets tbl) (Z.to_nat i)) as [l El]; [destruct W; lia|].
    replace (aget (buckets tbl) i) with (Ok l) by (symmetry; apply aget_Ok; split; [lia|done]).
    cbn [mbind res_bind]. destruct (puts_ok l t) as (bs & -> & W2 & P2); [by rewrite E1| |].
    + unfold keys. rewrite P, <- fmap_app.
      pose proof (b_keys _ _ W) as HN. unfold keys in HN.
      rewrite <- (take_drop (S (Z.to_nat i)) (buckets tbl)), concat_app, fmap_app, (concat_take_S _ _ _ El) in HN.
      apply NoDup_app in HN as (HN & _ & _). by rewrite (Permutation_app_comm l).
    + eexists. split; [done|]. cbn [buckets numBuckets numItems]. rewrite E1 in W2. split_and!; [done|done|done|].
      replace (Z.to_nat (i + 1)) with (S (Z.to_nat i)) by lia. rewrite (concat_take_S _ _ _ El), P2, P.
      apply Permutation_app_comm.
  - rewrite take_ge in P by (destruct W; lia).
    assert (hwf t) by (split; [by rewrite E1| |lia]; by rewrite E2, P).
    cbn [mbind res_bind]. rewrite SanityCheck_ok by done. cbn [mbind res_bind]. eauto.
Qed.

(** ** The operations on the map *)

Lemma hwf_keys (tbl : HashTable T) : hwf tbl -> NoDup (keys (buckets tbl)).
Proof. intros [W _ _]. apply W. Qed.

Lemma abs_insert (tbl tbl' : HashTable T) x :
  NoDup (keys (buckets tbl')) -> concat (buckets tbl') ≡ₚ x :: concat (buckets tbl) ->
  abs tbl' = <[getKey x := x]> (abs tbl).
Proof.
  intros HN P. unfold abs at 1.
  rewrite (list_to_map_proper _ ((fun x => (getKey x, x)) <$> (x :: concat (buckets tbl)))); [done| |by rewrite P].
  by rewrite <- list_fmap_compose.
Qed.

Lemma abs_perm (tbl tbl' : HashTable T) :
  NoDup (keys (buckets tbl')) -> concat (buckets tbl') ≡ₚ concat (buckets tbl) -> abs tbl' = abs tbl.
Proof.
  intros HN P. unfold abs. apply list_to_map_proper; [by rewrite <- list_fmap_compose|by rewrite P].
Qed.

Lemma abs_not_in (tbl : HashTable T) k :
  NoDup (keys (buckets tbl)) -> abs tbl !! k = None -> k ∉ keys (buckets tbl).
Proof.
  intros HN E (x & -> & Hx)%list_elem_of_fmap.
  assert (abs tbl !! getKey x = Some x) by (by apply abs_lookup). congruence.
Qed.

Lemma new_hwf : hwf newHashTable.
Proof. split; [by apply (bwf_new 4)|done|done]. Qed.

Lemma IsInTable_ok (tbl : HashTable T) k :
  bwf (numBuckets tbl) (buckets tbl) -> IsInTable getKey hash tbl k = Ok (bool_decide (is_Some (abs tbl !! k))).
Proof.
  intros W. unfold IsInTable. rewrite Find_ok by done. cbn [mbind res_bind]. f_equal.
  apply bool_decide_ext. rewrite not_eq_None_Some. done.
Qed.

Lemma IsEmpty_ok (tbl : HashTable T) : hwf tbl -> IsEmpty tbl = bool_decide (abs tbl = ∅).
Proof.
  intros [W Hi _]. unfold IsEmpty, abs. rewrite Hi. apply bool_decide_ext.
  destruct (concat (buckets tbl)) as [|x l]; cbn [length]; [done|]. split; [lia|].
  cbn. intros E. by apply insert_non_empty in E.
Qed.

(** The resizing step of [Insert]. *)
Lemma grow_ok (tbl : HashTable T) : hwf tbl -> exists tbl',
  (if bool_decide (Z.quot (numItems tbl) (numBuckets tbl) >= ResizeRatio) then ReHash getKey hash tbl else Ok tbl) = Ok tbl' /\
  hwf tbl' /\ numItems tbl' = numItems tbl /\ concat (buckets tbl') ≡ₚ concat (buckets tbl).
Proof.
  intros W. unfold ResizeRatio. case_bool_decide as E; [|eauto]. apply ReHash_ok; [done|].
  destruct W as [[Hn _ _ _] Hi Hm]. unfold int_max in *.
  assert (numBuckets tbl * 3 <= numItems tbl); [|lia].
  rewrite Z.quot_div_nonneg in E by lia. pose proof (Z.mul_div_le (numItems tbl) (numBuckets tbl)). nia.
Qed.

Lemma Insert_ok (tbl : HashTable T) x :
  hwf tbl -> numItems tbl < 1073741824 ->
  match abs tbl !! getKey x with
  | Some _ => Insert getKey hash tbl x = AssertFail
  | None => exists tbl', Insert getKey hash tbl x = Ok tbl' /\ hwf tbl' /\
      numItems tbl' = numItems tbl + 1 /\ abs tbl' = <[getKey x := x]> (abs tbl)
  end.
Proof.
  intros Wf Hlt. pose proof Wf as [W Hi Hm]. unfold Insert. rewrite IsInTable_ok by done. cbn [mbind res_bind].
  destruct (abs tbl !! getKey x) eqn:E; [done|]. rewrite (bool_decide_false (is_Some None)) by apply is_Some_None.
  cbn [negb ASSERT mbind res_bind]. rewrite (bool_decide_false (numBuckets tbl = 0)) by (destruct W; lia).
  cbn [mbind res_bind]. destruct (grow_ok tbl Wf) as (t & -> & [W1 Hi1 Hm1] & En & P). cbn [mbind res_bind].
  destruct (put_ok t x W1) as (bs & -> & W2 & P2).
  { unfold keys. rewrite P. apply abs_not_in; [by apply hwf_keys|done]. }
  cbn [mbind res_bind numBuckets numItems buckets].
  assert (HN : NoDup (keys bs)) by apply W2. rewrite P in P2.
  rewrite i32_id by (unfold is_i32, int_min, int_max; lia).
  set (tbl' := mkHash bs (numBuckets t) (numItems t + 1)).
  assert (Ea : abs tbl' = <[getKey x := x]> (abs tbl)) by (by apply abs_insert).
  rewrite IsInTable_ok by done. rewrite Ea, lookup_insert_eq. cbn [mbind res_bind].
  exists tbl'. split_and!; [done| |cbn; lia|done].
  split; [done| |cbn; lia]. cbn. rewrite P2. cbn [length]. lia.
Qed.

Lemma hash_Remove_ok (tbl : HashTable T) k : hwf tbl ->
  match abs tbl !! k with
  | None => Remove getKey hash tbl k = AssertFail
  | Some x => exists tbl', Remove getKey hash tbl k = Ok (x, tbl') /\ hwf tbl' /\
      numItems tbl' = numItems tbl - 1 /\ abs tbl' = delete k (abs tbl)
  end.
Proof.
  intros Wf. pose proof Wf as [W Hi Hm]. pose proof (Find_ok tbl k W) as F. unfold Remove. unfold Find in F.
  rewrite HashValue_ok in * by apply W. cbn [mbind res_bind] in *. rewrite F. cbn [mbind res_bind].
  destruct (abs tbl !! k) as [x|] eqn:E; [|done].
  destruct (hv_lookup _ _ k W) as (l & El & ->). cbn [mbind res_bind].
  apply abs_lookup in E as [Hx Ek]; [|by apply hwf_keys]. apply in_concat_bucket in Hx as (i & l' & El' & Hx).
  pose proof (b_place _ _ W i l' x El' Hx) as Ei. rewrite Ek in Ei. rewrite Ei, Nat2Z.id in El.
  assert (l' = l) as -> by congruence.
  destruct (concat_middle _ i l (Seq.remove1 x l) El) as [E1 E2].
  set (bs := <[i := Seq.remove1 x l]> (buckets tbl)) in *.
  assert (P : concat (buckets tbl) ≡ₚ x :: concat bs).
  { rewrite E1, E2. rewrite <- (remove1_perm x l) at 1 by done. solve_Permutation. }
  pose proof (hwf_keys _ Wf) as HN. unfold keys in HN. rewrite P in HN. cbn in HN. rewrite Ek in HN.
  apply NoDup_cons in HN as [Hk HN].
  assert (Hn : x ∉ Seq.remove1 x l).
  { intros Hx'. apply Hk. rewrite <- Ek. apply list_elem_of_fmap_2. rewrite E2, !elem_of_app. auto. }
  unfold Seq.Remove, Seq.IsInList. rewrite (bool_decide_true (x ∈ l)) by done.
  rewrite (bool_decide_false (x ∈ Seq.remove1 x l)) by done. cbn [negb ASSERT mbind res_bind].
  assert (i < length (buckets tbl))%nat by (by eapply lookup_lt_Some).
  rewrite Ei, aset_in_range by lia. cbn [mbind res_bind]. rewrite Nat2Z.id. fold bs.
  rewrite i32_id by (unfold is_i32, int_min, int_max; lia).
  set (tbl' := mkHash bs (numBuckets tbl) (numItems tbl - 1)).
  assert (W' : bwf (numBuckets tbl') (buckets tbl')).
  { eapply bwf_insert; [done|done|intros y Hy|done]. eapply (b_place _ _ W); [done|].
    rewrite <- (remove1_perm x l) by done. by constructor. }
  assert (Ea : abs tbl' = delete k (abs tbl)).
  { rewrite (abs_insert tbl' tbl x); [|by apply hwf_keys|done]. rewrite Ek, delete_insert_id; [done|].
    apply eq_None_not_Some. intros [y Hy]. apply abs_lookup in Hy as [Hy <-]; [|done].
    apply Hk. by apply list_elem_of_fmap_2. }
  rewrite IsInTable_ok by done. rewrite Ea, lookup_delete_eq.
  rewrite (bool_decide_false (is_Some None)) by apply is_Some_None. cbn [mbind res_bind negb ASSERT].
  exists tbl'. split_and!; [done| |done|done].
  split; [done| |cbn; lia]. cbn. rewrite Hi. rewrite P. cbn [length]. lia.
Qed.

(** ** Iterating over the table *)

Definition rest (tbl : HashTable T) (it : HashIterator T) : list T :=
  match bucketIter it with Some l => l ++ concat (drop (S (Z.to_nat (bucket it))) (buckets tbl)) | None => [] end.

(** An iterator is in a bucket with items left, or at the end. *)
Definition iwf (tbl : HashTable T) (it : HashIterator T) : Prop :=
  match bucketIter it with
  | Some l => l <> [] /\ 0 <= bucket it < numBuckets tbl
  | None => bucket it = numBuckets tbl
  end.

Lemma next_full_ok (tbl : HashTable T) n b :
  Z.of_nat (length (buckets tbl)) = numBuckets tbl -> 0 <= b <= numBuckets tbl ->
  n = Z.to_nat (numBuckets tbl - b) ->
  exists b', next_full n tbl b = Ok b' /\ b <= b' <= numBuckets tbl /\
    concat (drop (Z.to_nat b) (buckets tbl)) = concat (drop (Z.to_nat b') (buckets tbl)) /\
    (b' < numBuckets tbl -> buckets tbl !! Z.to_nat b' <> Some []).
Proof.
  intros Hl. revert b. induction n as [|n IH]; intros b Hb Hn; cbn [next_full].
  - rewrite bool_decide_false by lia. exists b. split_and!; [done|lia|lia|done|lia].
  - rewrite bool_decide_true by lia.
    destruct (lookup_lt_is_Some_2 (buckets tbl) (Z.to_nat b)) as [l El]; [lia|].
    replace (aget (buckets tbl) b) with (Ok l) by (symmetry; apply aget_Ok; split; [lia|done]).
    cbn [mbind res_bind]. case_bool_decide as E.
    + subst l. destruct (IH (b + 1)) as (b' & -> & Hb' & Ec & Hf); [lia|lia|].
      exists b'. split_and!; [done|lia|lia| |done]. rewrite <- Ec, (drop_S _ _ _ El). cbn. f_equal. f_equal. lia.
    + exists b. split_and!; [done|lia|lia|done|]. intros _ El'. congruence.
Qed.

Lemma iterate_from_ok (tbl : HashTable T) b :
  Z.of_nat (length (buckets tbl)) = numBuckets tbl -> 0 <= b <= numBuckets tbl ->
  exists it, iterate_from tbl b = Ok it /\ iwf tbl it /\ rest tbl it = concat (drop (Z.to_nat b) (buckets tbl)).
Proof.
  intros Hl Hb. unfold iterate_from, FindNextFullBucket.
  destruct (next_full_ok tbl _ b Hl Hb eq_refl) as (b' & -> & Hb' & -> & Hf). cbn [mbind res_bind].
  case_bool_decide as E.
  - destruct (lookup_lt_is_Some_2 (buckets tbl) (Z.to_nat b')) as [l El]; [lia|].
    replace (aget (buckets tbl) b') with (Ok l) by (symmetry; apply aget_Ok; split; [lia|done]).
    eexists. split; [done|]. split.
    + cbn. split; [intros ->; by apply Hf|lia].
    + unfold rest. cbn. by rewrite (drop_S _ _ _ El).
  - eexists. split; [done|]. split; [cbn; lia|]. unfold rest. cbn. by rewrite drop_ge by lia.
Qed.

Lemma walk_ok (tbl : HashTable T) n it :
  Z.of_nat (length (buckets tbl)) = numBuckets tbl -> iwf tbl it -> (length (rest tbl it) < n)%nat ->
  walk n tbl it = Ok (rest tbl it).
Proof.
  intros Hl. revert it. induction n as [|n IH]; intros it Wi Hn; [lia|]. cbn [walk].
  unfold Item, Next, IsDone. unfold iwf in Wi. destruct (bucketIter it) as [l|] eqn:E.
  2:{ rewrite bool_decide_true by done. unfold rest. by rewrite E. }
  destruct l as [|x l]; [by destruct Wi|]. destruct Wi as [_ Hb]. rewrite bool_decide_false by lia.
  cbn [negb ASSERT mbind res_bind]. assert (Er : rest tbl it = x :: l ++ concat (drop (S (Z.to_nat (bucket it))) (buckets tbl)))
    by (unfold rest; by rewrite E).
  rewrite Er in *. cbn [length] in Hn. case_bool_decide as El.
  - subst l. destruct (iterate_from_ok tbl (bucket it + 1) Hl) as (it' & -> & Wi' & Er'); [lia|].
    cbn [mbind res_bind]. replace (Z.to_nat (bucket it + 1)) with (S (Z.to_nat (bucket it))) in Er' by lia.
    cbn in Hn |- *. rewrite IH; [by rewrite Er'|done|rewrite Er'; lia].
  - cbn [mbind res_bind]. rewrite IH; [done|by cbn|]. unfold rest. cbn. lia.
Qed.

Lemma iterate_ok (tbl : HashTable T) : hwf tbl -> iterate tbl = Ok (concat (buckets tbl)).
Proof.
  intros [W Hi _]. unfold iterate, newHashIterator. pose proof (b_len _ _ W) as Hl.
  destruct (iterate_from_ok tbl 0 Hl) as (it & -> & Wi & Er); [lia|]. cbn [mbind res_bind].
  cbn in Er. rewrite drop_0 in Er. rewrite walk_ok; [by rewrite Er|done|done|]. rewrite Er, Hi. lia.
Qed.

Lemma abs_items (tbl : HashTable T) : hwf tbl -> concat (buckets tbl) ≡ₚ (map_to_list (abs tbl)).*2.
Proof.
  intros Wf. unfold abs. rewrite map_to_list_to_map.
  - rewrite <- list_fmap_compose. cbn. by rewrite list_fmap_id.
  - rewrite <- list_fmap_compose. by apply hwf_keys.
Qed.

(** ** The self test *)

(** Inserting new items. *)
Lemma add_items xs (tbl : HashTable T) : hwf tbl -> NoDup (getKey <$> xs) ->
  (forall x, x ∈ xs -> abs tbl !! getKey x = None) ->
  numItems tbl + Z.of_nat (length xs) <= 1073741824 ->
  exists tbl', foldM (fun tbl x => tbl ← Insert getKey hash tbl x; b ← IsInTable getKey hash tbl (getKey x);
      _ ← ASSERT b; _ ← ASSERT (negb (IsEmpty tbl)); Ok tbl) tbl xs = Ok tbl' /\ hwf tbl' /\
    abs tbl' = foldl (fun m x => <[getKey x := x]> m) (abs tbl) xs.
Proof.
  revert tbl. induction xs as [|x xs IH]; intros tbl W HN Hf Hn; cbn [foldM foldl]; [by exists tbl|].
  cbn in HN, Hn. apply NoDup_cons in HN as [Hx HN].
  pose proof (Insert_ok tbl x W ltac:(lia)) as HI. rewrite Hf in HI by constructor.
  destruct HI as (t & -> & Wt & En & Ea). cbn [mbind res_bind].
  rewrite IsInTable_ok, IsEmpty_ok, Ea, lookup_insert_eq by (done || apply Wt).
  rewrite (bool_decide_true (is_Some (Some x))) by eauto.
  rewrite (bool_decide_false (<[getKey x := x]> (abs tbl) = ∅)) by apply insert_non_empty.
  cbn [negb ASSERT mbind res_bind]. rewrite <- Ea. apply IH; [done|done| |lia].
  intros y Hy. rewrite Ea, lookup_insert_ne; [apply Hf; by constructor|].
  intros E. apply Hx. rewrite E. by apply list_elem_of_fmap_2.
Qed.

(** Removing the items of the table one by one. *)
Lemma remove_items xs (tbl : HashTable T) : hwf tbl -> NoDup (getKey <$> xs) ->
  abs tbl = list_to_map ((fun x => (getKey x, x)) <$> xs) ->
  exists tbl', foldM (fun tbl x => '(y, tbl) ← Remove getKey hash tbl (getKey x);
      _ ← ASSERT (bool_decide (y = x)); Ok tbl) tbl xs = Ok tbl' /\ hwf tbl' /\ abs tbl' = ∅.
Proof.
  revert tbl. induction xs as [|x xs IH]; intros tbl W HN Ea; cbn [foldM]; [by exists tbl|].
  cbn in HN. apply NoDup_cons in HN as [Hx HN].
  pose proof (hash_Remove_ok tbl (getKey x) W) as HR. rewrite Ea in HR. cbn in HR. rewrite lookup_insert_eq in HR.
  destruct HR as (t & -> & Wt & _ & Et). cbn [mbind res_bind]. rewrite bool_decide_true by done.
  cbn [ASSERT mbind res_bind]. apply IH; [done|done|]. rewrite Et. apply delete_insert_id.
  apply not_elem_of_list_to_map_1. by rewrite <- list_fmap_compose.
Qed.

Lemma foldl_insert xs (m : gmap K T) : NoDup (getKey <$> xs) ->
  foldl (fun m x => <[getKey x := x]> m) m xs = list_to_map ((fun x => (getKey x, x)) <$> xs) ∪ m.
Proof.
  revert m. induction xs as [|x xs IH]; intros m HN; cbn; [by rewrite map_empty_union|].
  cbn in HN. apply NoDup_cons in HN as [Hx HN]. rewrite IH by done.
  rewrite <- insert_union_r; [|by apply not_elem_of_list_to_map_1; rewrite <- list_fmap_compose].
  by rewrite insert_union_l.
Qed.

(** ** Sequences of operations *)

Inductive hash_op : Type :=
| HInsert (x : T) | HFind (k : K) | HIsInTable (k : K) | HRemove (k : K) | HIsEmpty | HItems.

Inductive hash_out : Type :=
| HNone | HItem (x : option T) | HBool (b : bool) | HList (l : list T).

Definition impl_op (o : hash_op) (tbl : HashTable T) : res (hash_out * HashTable T) :=
  match o with
  | HInsert x => tbl ← Insert getKey hash tbl x; Ok (HNone, tbl)
  | HFind k => r ← Find getKey hash tbl k; Ok (HItem r, tbl)
  | HIsInTable k => b ← IsInTable getKey hash tbl k; Ok (HBool b, tbl)
  | HRemove k => '(x, tbl) ← Remove getKey hash tbl k; Ok (HItem (Some x), tbl)
  | HIsEmpty => Ok (HBool (IsEmpty tbl), tbl)
  | HItems => l ← iterate tbl; Ok (HList l, tbl)
  end.

(** The same operations on a finite map. *)
Definition spec_op (o : hash_op) (m : gmap K T) : res (hash_out * gmap K T) :=
  match o with
  | HInsert x => _ ← ASSERT (bool_decide (m !! getKey x = None)); Ok (HNone, <[getKey x := x]> m)
  | HFind k => Ok (HItem (m !! k), m)
  | HIsInTable k => Ok (HBool (bool_decide (is_Some (m !! k))), m)
  | HRemove k => match m !! k with Some x => Ok (HItem (Some x), delete k m) | None => AssertFail end
  | HIsEmpty => Ok (HBool (bool_decide (m = ∅)), m)
  | HItems => Ok (HList (map_to_list m).*2, m)
  end.

Fixpoint run_hash_ops {S} (op : hash_op -> S -> res (hash_out * S)) (ops : list hash_op) (s : S)
    : res (list hash_out * S) :=
  match ops with
  | [] => Ok ([], s)
  | o :: ops' => '(v, s) ← op o s; '(vs, s) ← run_hash_ops op ops' s; Ok (v :: vs, s)
  end.

(** Equal results; the items of an iteration in any order. *)
Inductive out_eq : hash_out -> hash_out -> Prop :=
| out_same o : out_eq o o
| out_items l l' : l ≡ₚ l' -> out_eq (HList l) (HList l').

Definition hrel {V} (R : V -> V -> Prop) (n : nat) (r : V * HashTable T) (r' : V * gmap K T) : Prop :=
  R r.1 r'.1 /\ hwf r.2 /\ abs r.2 = r'.2 /\ numItems r.2 + Z.of_nat n <= 1073741824.

Lemma hash_op_rel o n (tbl : HashTable T) :
  hwf tbl -> numItems tbl + Z.of_nat (S n) <= 1073741824 ->
  res_rel (hrel out_eq n) (impl_op o tbl) (spec_op o (abs tbl)).
Proof.
  intros W Hn. pose proof (h_buckets _ W) as Wb. destruct o as [x|k|k|k| |]; cbn [impl_op spec_op].
  - pose proof (Insert_ok tbl x W ltac:(lia)) as HI. destruct (abs tbl !! getKey x); cbn; [by rewrite HI|].
    destruct HI as (t' & -> & Wt & En & Ea). cbn. eexists. split; [done|]. split_and!; [constructor|done|done|cbn; lia].
  - rewrite Find_ok by done. eexists. split; [done|]. split_and!; [constructor|done|done|cbn; lia].
  - rewrite IsInTable_ok by done. eexists. split; [done|]. split_and!; [constructor|done|done|cbn; lia].
  - pose proof (hash_Remove_ok tbl k W) as HR. destruct (abs tbl !! k); cbn; [|by rewrite HR].
    destruct HR as (t' & -> & Wt & En & Ea). cbn. eexists. split; [done|]. split_and!; [constructor|done|done|cbn; lia].
  - eexists. split; [done|]. rewrite IsEmpty_ok by done. split_and!; [constructor|done|done|cbn; lia].
  - rewrite iterate_ok by done. eexists. split; [done|].
    split_and!; [by apply out_items, abs_items|done|done|cbn; lia].
Qed.

Lemma run_hash_ops_rel ops (tbl : HashTable T) :
  hwf tbl -> numItems tbl + Z.of_nat (length ops) <= 1073741824 ->
  res_rel (hrel (Forall2 out_eq) 0) (run_hash_ops impl_op ops tbl) (run_hash_ops spec_op ops (abs tbl)).
Proof.
  revert tbl. induction ops as [|o ops IH]; intros tbl W Hn; cbn [run_hash_ops].
  { eexists. split; [done|]. split_and!; [constructor|done|done|cbn in *; lia]. }
  eapply res_rel_bind; [by apply (hash_op_rel o (length ops))|].
  intros [v t] [v' m] (Hv & Wt & Em & Ht). cbn in *. subst m.
  eapply res_rel_bind; [by apply IH|]. intros [vs t2] [vs' m2] (Hvs & Wt2 & Em & Ht2). cbn in *. subst m2.
  eexists. split; [done|]. split_and!; [by constructor|done|done|done].
Qed.

(** C11: A new hash table is a finite map: any sequence of at most 2^30 insertions,
    look-ups, membership tests, removals, emptiness tests and complete iterations
    returns, through every resizing of the table, what the same operations
    return on a finite map from keys to items (an iteration visits exactly the
    items of the map, each once), and it fails an assertion exactly when it
    inserts a key that is present or removes one that is not. *)
Theorem hash_refines_map ops : Z.of_nat (length ops) <= 1073741824 ->
  res_rel (fun r r' => Forall2 out_eq r.1 r'.1) (run_hash_ops impl_op ops newHashTable) (run_hash_ops spec_op ops ∅).
Proof.
  intros Hn. pose proof (run_hash_ops_rel ops newHashTable new_hwf ltac:(cbn; lia)) as HR.
  change (abs newHashTable) with (∅ : gmap K T) in HR.
  destruct (run_hash_ops spec_op ops ∅); [|done..]. destruct HR as (y & -> & HR & _). by exists y.
Qed.

(** The self test succeeds on items with distinct keys. *)
Lemma SelfTest_ok xs : NoDup (getKey <$> xs) -> Z.of_nat (length xs) <= 1073741824 ->
  exists tbl', SelfTest getKey hash newHashTable xs = Ok tbl'.
Proof.
  intros HN Hn. unfold SelfTest. cbn [newHashIterator]. rewrite (SanityCheck_ok newHashTable new_hwf).
  change (newHashIterator (newHashTable : HashTable T)) with (Ok (mkIter (T:=T) 4 None)).
  cbn [mbind res_bind]. change (IsEmpty (newHashTable : HashTable T)) with true.
  change (IsDone (newHashTable : HashTable T) (mkIter 4 None)) with true. cbn [ASSERT mbind res_bind].
  destruct (add_items xs newHashTable new_hwf HN) as (t & -> & Wt & Ea); [done|cbn; lia|].
  rewrite foldl_insert in Ea by done. change (abs newHashTable) with (∅ : gmap K T) in Ea; rewrite map_union_empty in Ea. cbn [mbind res_bind].
  destruct (remove_items xs t Wt HN Ea) as (t2 & -> & Wt2 & Ea2). cbn [mbind res_bind].
  rewrite IsEmpty_ok, Ea2, bool_decide_true by done. cbn [ASSERT mbind res_bind].
  rewrite SanityCheck_ok by done. by eexists.
Qed.

End hash.

(** Twenty items, hashed to two values, with their keys taken from the items: the
    table is resized once on the way. *)
Definition demo_ops : list hash_op :=
  (HInsert <$> seqZ 0 20) ++ [HFind 13; HRemove 13; HIsInTable 13; HItems; HRemove 13].

Lemma hash_refines_map_witness :
  Z.of_nat (length demo_ops) <= 1073741824 /\
  res_rel (fun r r' => Forall2 out_eq r.1 r'.1)
    (run_hash_ops (impl_op id (fun k => k mod 2)) demo_ops newHashTable) (run_hash_ops (spec_op id) demo_ops ∅) /\
  run_hash_ops (impl_op id (fun k => k mod 2)) demo_ops newHashTable = AssertFail.
Proof.
  split; [by vm_compute|]. split; [|by vm_compute].
  apply (hash_refines_map id (fun k => k mod 2) demo_ops). by vm_compute.
Defined.
