(* ===== verification/Disk.v ===== *)
(** * machine/disk.cc, filesys/synchdisk.cc: the disk and its synchronous interface

    [Disk] is the simulated device: sectors in a UNIX file, one request at a
    time, a latency computed from the position of the head, and an interrupt when
    the request completes.  [SynchDisk] puts a lock and a semaphore on top of it,
    so that a thread waits for its request; the semaphores, the scheduler and the
    interrupt hardware are the models of those components.  The file system uses
    the disk through the interface [SectorStore].

    The machine of this file has no other device: the clock only stands still
    for a thread that waits, until the disk interrupt. *)

From S2P Require Import Prelude Lists Bytes Sched Synch Interrupt.
Import Interrupt.Interrupt.

Definition SectorSize : Z := 128.
Definition SectorsPerTrack : Z := 32.
Definition NumTracks : Z := 32.
Definition NumSectors : Z := SectorsPerTrack * NumTracks.
Definition MagicNumber : Z := 0x456789ab.
Definition MagicSize : Z := 4.
Definition DiskSize : Z := MagicSize + NumSectors * SectorSize.
Definition RotationTime : Z := 500.
Definition SeekTime : Z := 500.

(** [Lseek] and [Read] of lib/sysdep.cc: all the bytes or none. *)
Definition Read (f : list Z) (nBytes : nat) (position : Z) : res (list Z) :=
  bs ← unix_ReadAt f nBytes position;
  _ ← ASSERT (bool_decide (length bs = nBytes)); Ok bs.

(** ** The sectors as the file system sees them *)

Class SectorStore (D : Type) : Type := {
  ReadSector : Z -> D -> res (list Z * D);
  WriteSector : Z -> list Z -> D -> res D }.

(** ** The device *)

Section disk.
(** [big]: the host's byte order; [notrackbuf]: compiled with [-DNOTRACKBUF];
    [dev]: the address of the device. *)
Context (big notrackbuf : bool) (dev : Z).

(** [file] is the UNIX file, the last two fields the counters of [Statistics]. *)
Record Disk : Type := mkDisk {
  file : list Z; active : bool; lastSector : Z; bufferInit : Z; numDiskReads : Z; numDiskWrites : Z }.

(** The constructor: [f] is the UNIX file, if there is one. *)
Definition newDisk (f : option (list Z)) : res Disk :=
  f ← match f with
      | Some f =>
          magicNum ← Read f (Z.to_nat MagicSize) 0;
          _ ← ASSERT (bool_decide (host_int big magicNum = MagicNumber)); Ok f
      | None =>
          f ← unix_WriteAt [] (host_bytes big MagicNumber) 0;
          unix_WriteAt f (host_bytes big 0) (DiskSize - 4)
      end;
  Ok (mkDisk f false 0 0 0 0).

(** The time to the new track, and from there to the next sector boundary. *)
Definition TimeToSeek (totalTicks : Z) (d : Disk) (newSector : Z) : Z * Z :=
  let newTrack := Z.quot newSector SectorsPerTrack in
  let oldTrack := Z.quot (lastSector d) SectorsPerTrack in
  let seek := i32 (Z.abs (newTrack - oldTrack) * SeekTime) in
  let over := Z.rem (i32 (totalTicks + seek)) RotationTime in
  (seek, if bool_decide (over > 0) then RotationTime - over else 0).

Definition ModuloDiff (to from : Z) : Z :=
  let toOffset := Z.rem to SectorsPerTrack in
  let fromOffset := Z.rem from SectorsPerTrack in
  Z.rem (toOffset - fromOffset + SectorsPerTrack) SectorsPerTrack.

Definition ComputeLatency (totalTicks : Z) (d : Disk) (newSector : Z) (writing : bool) : Z :=
  let '(seek, rotation) := TimeToSeek totalTicks d newSector in
  let timeAfter := i32 (i32 (totalTicks + seek) + rotation) in
  if negb notrackbuf && negb writing && bool_decide (seek = 0) &&
     bool_decide (Z.quot (i32 (timeAfter - bufferInit d)) RotationTime
                  > ModuloDiff newSector (Z.quot (bufferInit d) RotationTime))
  then RotationTime
  else
    let rotation := rotation + ModuloDiff newSector (Z.quot timeAfter RotationTime) * RotationTime in
    i32 (seek + rotation + RotationTime).

Definition UpdateLast (totalTicks : Z) (d : Disk) (newSector : Z) : Disk :=
  let '(seek, rotate) := TimeToSeek totalTicks d newSector in
  mkDisk (file d) (active d) newSector
    (if bool_decide (seek <> 0) then i32 (i32 (totalTicks + seek) + rotate) else bufferInit d)
    (numDiskReads d) (numDiskWrites d).

(** The end of a request: the device is busy until its interrupt. *)
Definition request (i : Interrupt) (d : Disk) (sectorNumber ticks : Z) (f : list Z) (reads writes : Z)
    : res (Interrupt * Disk) :=
  let d := UpdateLast (totalTicks i)
             (mkDisk f true (lastSector d) (bufferInit d) (numDiskReads d) (numDiskWrites d)) sectorNumber in
  let d := mkDisk (file d) (active d) (lastSector d) (bufferInit d)
             (i32 (numDiskReads d + reads)) (i32 (numDiskWrites d + writes)) in
  i ← Schedule i dev ticks DiskInt; Ok (i, d).

Definition ReadRequest (i : Interrupt) (d : Disk) (sectorNumber : Z) : res (list Z * Interrupt * Disk) :=
  let ticks := ComputeLatency (totalTicks i) d sectorNumber false in
  _ ← ASSERT (negb (active d));
  _ ← ASSERT (bool_decide (sectorNumber >= 0) && bool_decide (sectorNumber < NumSectors));
  data ← Read (file d) (Z.to_nat SectorSize) (SectorSize * sectorNumber + MagicSize);
  '(i, d) ← request i d sectorNumber ticks (file d) 1 0;
  Ok (data, i, d).

Definition WriteRequest (i : Interrupt) (d : Disk) (sectorNumber : Z) (data : list Z) : res (Interrupt * Disk) :=
  let ticks := ComputeLatency (totalTicks i) d sectorNumber true in
  _ ← ASSERT (negb (active d));
  _ ← ASSERT (bool_decide (sectorNumber >= 0) && bool_decide (sectorNumber < NumSectors));
  data ← mem_read data 0 (Z.to_nat SectorSize);
  f ← unix_WriteAt (file d) data (SectorSize * sectorNumber + MagicSize);
  request i d sectorNumber ticks f 0 1.

Definition Disk_CallBack (d : Disk) : Disk :=
  mkDisk (file d) false (lastSector d) (bufferInit d) (numDiskReads d) (numDiskWrites d).

(** ** The synchronous disk *)

Context (typeno : Z).

(** The semaphore of the disk and that of its lock, with the kernel whose thread
    makes the requests. *)
Record SynchDisk : Type := mkSynchDisk {
  disk : Disk; semaphore : Semaphore; lock : Semaphore; lockHolder : option tptr; kern : Kernel }.

Inductive which : Type := DiskSem | LockSem.

Definition sem_of (s : which) (d : SynchDisk) : Semaphore :=
  match s with DiskSem => semaphore d | LockSem => lock d end.
Definition set_sem_of (s : which) (d : SynchDisk) (x : Semaphore) : SynchDisk :=
  match s with
  | DiskSem => mkSynchDisk (disk d) x (lock d) (lockHolder d) (kern d)
  | LockSem => mkSynchDisk (disk d) (semaphore d) x (lockHolder d) (kern d)
  end.
Definition set_disk (d : SynchDisk) (x : Disk) : SynchDisk :=
  mkSynchDisk x (semaphore d) (lock d) (lockHolder d) (kern d).
Definition set_kern (d : SynchDisk) (k : Kernel) : SynchDisk :=
  mkSynchDisk (disk d) (semaphore d) (lock d) (lockHolder d) k.
Definition set_holder (d : SynchDisk) (h : option tptr) : SynchDisk :=
  mkSynchDisk (disk d) (semaphore d) (lock d) h (kern d).

Definition newSynchDisk (f : option (list Z)) (k : Kernel) : res SynchDisk :=
  d ← newDisk f; Ok (mkSynchDisk d (mkSem 0 []) (mkSem 1 []) None k).

(** [V] with interrupts off: they are off in the interrupt handler. *)
Definition V_off (s : which) (d : SynchDisk) : res SynchDisk :=
  '(k, sm) ← V typeno (kern d) (sem_of s d); Ok (set_sem_of s (set_kern d k) sm).

(** The disk interrupt: [Disk::CallBack] calls [SynchDisk::CallBack]. *)
Definition SynchDisk_CallBack (d : SynchDisk) : res SynchDisk :=
  V_off DiskSem (set_disk d (Disk_CallBack (disk d))).

#[global] Instance disk_devices : Devices SynchDisk := {|
  CallBack a i d := if bool_decide (a = dev) then d ← SynchDisk_CallBack d; Ok (i, d) else Undef;
  DelayedLoad00 d := Ok d |}.

(** [others t]: what the other threads do from here until [t] runs again. *)
Context (others : tptr -> Interrupt -> SynchDisk -> res (Interrupt * SynchDisk)).

(** The rest of [Sleep] for thread [t], idling while no thread is ready; [Halt],
    when nothing is pending either, does not return. *)
Fixpoint slept_until (fuel : nat) (t : tptr) (i : Interrupt) (d : SynchDisk) (r : slept)
    : res (Interrupt * SynchDisk) :=
  match r with
  | Switched k =>
      if bool_decide (currentThread k = t) then Ok (i, set_kern d k) else others t i (set_kern d k)
  | Idling k =>
      match fuel with
      | O => Diverge
      | S fuel' =>
          '(b, i, d) ← Idle i (set_kern d k);
          if (b : bool) then r ← wake typeno (kern d) false; slept_until fuel' t i d r else Diverge
      end
  end.

(** [SetLevel(old)] at the end of [P] and [V], with the yield it may lead to. *)
Fixpoint restore (fuel : nat) (i : Interrupt) (d : SynchDisk) (old : IntStatus) : res (Interrupt * SynchDisk) :=
  let oldStatus := status i in
  '(_, i, d, y) ← SetLevel i d old;
  if (y : bool) then
    match fuel with
    | O => Diverge
    | S fuel' =>
        let t := currentThread (kern d) in
        '(old', i, d, _) ← SetLevel i d IntOff;
        k ← Yield typeno (kern d);
        '(i, d) ← slept_until fuel' t i d (Switched k);
        '(i, d) ← restore fuel' i d old';
        Ok (OneTick_end i oldStatus, d)
    end
  else Ok (i, d).

(** The loop of [P]. *)
Fixpoint P_loop (fuel : nat) (s : which) (t : tptr) (i : Interrupt) (d : SynchDisk) : res (Interrupt * SynchDisk) :=
  '(sm, r) ← P_once typeno (kern d) (sem_of s d);
  let d := set_sem_of s d sm in
  match r with
  | None => Ok (i, d)
  | Some r =>
      match fuel with
      | O => Diverge
      | S fuel' => '(i, d) ← slept_until fuel t i d r; P_loop fuel' s t i d
      end
  end.

Definition P (fuel : nat) (s : which) (i : Interrupt) (d : SynchDisk) : res (Interrupt * SynchDisk) :=
  '(old, i, d, _) ← SetLevel i d IntOff;
  '(i, d) ← P_loop fuel s (currentThread (kern d)) i d;
  restore fuel i d old.

Definition V_on (fuel : nat) (s : which) (i : Interrupt) (d : SynchDisk) : res (Interrupt * SynchDisk) :=
  '(old, i, d, _) ← SetLevel i d IntOff;
  d ← V_off s d;
  restore fuel i d old.

(** [lock->Acquire()] and [lock->Release()]. *)
Definition Acquire (fuel : nat) (i : Interrupt) (d : SynchDisk) : res (Interrupt * SynchDisk) :=
  '(i, d) ← P fuel LockSem i d; Ok (i, set_holder d (Some (currentThread (kern d)))).

Definition Release (fuel : nat) (i : Interrupt) (d : SynchDisk) : res (Interrupt * SynchDisk) :=
  _ ← ASSERT (bool_decide (lockHolder d = Some (currentThread (kern d))));
  V_on fuel LockSem i (set_holder d None).

Context (fuel : nat).

Definition SynchDisk_ReadSector (sectorNumber : Z) (s : Interrupt * SynchDisk)
    : res (list Z * (Interrupt * SynchDisk)) :=
  '(i, d) ← Acquire fuel s.1 s.2;
  '(data, i, dk) ← ReadRequest i (disk d) sectorNumber;
  '(i, d) ← P fuel DiskSem i (set_disk d dk);
  s ← Release fuel i d; Ok (data, s).

Definition SynchDisk_WriteSector (sectorNumber : Z) (data : list Z) (s : Interrupt * SynchDisk)
    : res (Interrupt * SynchDisk) :=
  '(i, d) ← Acquire fuel s.1 s.2;
  '(i, dk) ← WriteRequest i (disk d) sectorNumber data;
  '(i, d) ← P fuel DiskSem i (set_disk d dk);
  Release fuel i d.

#[global] Instance synch_store : SectorStore (Interrupt * SynchDisk) := {|
  ReadSector := SynchDisk_ReadSector; WriteSector := SynchDisk_WriteSector |}.

End disk.
