(* ===== verification/DiskProofs.v ===== *)
(** * The synchronous disk is an array of sectors

    The interface [LawfulStore] is what the file system relies on; the
    synchronous disk discharges it, for a thread that no other thread disturbs,
    under every scheduling policy. *)

From S2P Require Import Prelude Lists ListProofs Bytes Sched SchedProofs SchedClaims Synch Interrupt Disk.
Import Interrupt.Interrupt.

(** ** The interface *)

Definition is_sector (n : Z) : Prop := 0 <= n < NumSectors.

#[global] Instance is_sector_dec n : Decision (is_sector n).
Proof. unfold is_sector. apply _. Defined.

Class LawfulStore (D : Type) `{!SectorStore D} : Type := {
  dok : D -> Prop;
  sector : D -> Z -> list Z;
  sector_length : forall d n, dok d -> is_sector n -> length (sector d n) = Z.to_nat SectorSize;
  read_law : forall d n, dok d -> is_sector n ->
    exists d', ReadSector n d = Ok (sector d n, d') /\ dok d' /\
      forall m, is_sector m -> sector d' m = sector d m;
  write_law : forall d n bs, dok d -> is_sector n -> length bs = Z.to_nat SectorSize ->
    exists d', WriteSector n bs d = Ok d' /\ dok d' /\
      forall m, is_sector m -> sector d' m = if decide (m = n) then bs else sector d m;
  read_out : forall d n, dok d -> ~ is_sector n -> ReadSector n d = AssertFail;
  write_out : forall d n bs, dok d -> ~ is_sector n -> WriteSector n bs d = AssertFail }.

(** An array of sectors is one. *)
#[global] Instance array_store : SectorStore (list (list Z)) := {|
  ReadSector n a := match a !! Z.to_nat n with
                    | Some bs => if bool_decide (0 <= n) then Ok (bs, a) else AssertFail
                    | None => AssertFail end;
  WriteSector n bs a := if bool_decide (is_sector n) then Ok (<[Z.to_nat n := bs]> a) else AssertFail |}.

#[global, refine] Instance array_lawful : LawfulStore (list (list Z)) := {|
  dok a := Z.of_nat (length a) = NumSectors /\ Forall (fun bs => length bs = Z.to_nat SectorSize) a;
  sector a n := default [] (a !! Z.to_nat n) |}.
Proof.
  - intros a n [Hl HF] Hn. destruct (lookup_lt_is_Some_2 a (Z.to_nat n)) as [bs E]; [unfold is_sector in Hn; lia|].
    rewrite E. cbn. by eapply Forall_lookup_1 in HF.
  - intros a n [Hl HF] Hn. destruct (lookup_lt_is_Some_2 a (Z.to_nat n)) as [bs E]; [unfold is_sector in Hn; lia|].
    exists a. cbn. rewrite E. rewrite bool_decide_true by (unfold is_sector in Hn; lia). done.
  - intros a n bs [Hl HF] Hn Hb. cbn. rewrite bool_decide_true by done. eexists. split; [done|].
    split; [split|].
    + by rewrite length_insert.
    + by apply Forall_insert.
    + intros m Hm. unfold is_sector in *. case_decide as E.
      * subst m. rewrite list_lookup_insert_eq by lia. done.
      * rewrite list_lookup_insert_ne by lia. done.
  - intros a n [Hl HF] Hn. cbn. destruct (a !! Z.to_nat n) as [bs|] eqn:E; [|done].
    rewrite bool_decide_false; [done|]. intros H0. apply Hn. apply lookup_lt_Some in E. unfold is_sector. lia.
  - intros a n bs [Hl HF] Hn. cbn. by rewrite bool_decide_false.
Defined.

(** ** Latency *)

Lemma ModuloDiff_range to from : 0 <= to -> 0 <= ModuloDiff to from <= 31.
Proof. intros H. unfold ModuloDiff, SectorsPerTrack. zlia. Qed.

Section latency.
Context (notrackbuf : bool).

Lemma seek_range T d n : is_sector n -> is_sector (lastSector d) ->
  exists s r, TimeToSeek T d n = (s, r) /\ 0 <= s <= 15500 /\ 0 <= r <= 499.
Proof.
  intros Hn Hl. unfold TimeToSeek, is_sector, NumSectors, SectorsPerTrack, NumTracks, SeekTime, RotationTime in *.
  eexists _, _. split; [reflexivity|]. rewrite i32_id by (unfold is_i32, int_min, int_max; zlia).
  split; [zlia|]. case_bool_decide as E; [|lia].
  pose proof (Z.rem_bound_abs (i32 (T + Z.abs (Z.quot n 32 - Z.quot (lastSector d) 32) * 500)) 500 ltac:(lia)).
  generalize dependent (Z.rem (i32 (T + Z.abs (Z.quot n 32 - Z.quot (lastSector d) 32) * 500)) 500). lia.
Qed.

(** A request takes at least the transfer of a sector, and at most a seek over
    the whole disk and a full rotation on top of it. *)
Lemma latency_range T d n w : is_sector n -> is_sector (lastSector d) ->
  500 <= ComputeLatency notrackbuf T d n w <= 31999.
Proof.
  intros Hn Hl. unfold ComputeLatency. destruct (seek_range T d n Hn Hl) as (s & r & -> & Hs & Hr).
  unfold RotationTime. destruct (_ && _); [lia|].
  pose proof (ModuloDiff_range n (Z.quot (i32 (i32 (T + s) + r)) 500) ltac:(unfold is_sector in Hn; lia)).
  rewrite i32_id by (unfold is_i32, int_min, int_max; lia). lia.
Qed.
End latency.

(** ** Sectors of the UNIX file *)

Definition fsector (f : list Z) (n : Z) : list Z :=
  take (Z.to_nat SectorSize) (drop (Z.to_nat (SectorSize * n + MagicSize)) f).

Lemma Read_ok f n : Z.of_nat (length f) = DiskSize -> is_sector n ->
  Read f (Z.to_nat SectorSize) (SectorSize * n + MagicSize) = Ok (fsector f n) /\ length (fsector f n) = Z.to_nat SectorSize.
Proof.
  intros Hf Hn. unfold is_sector, DiskSize, NumSectors, SectorsPerTrack, NumTracks, MagicSize, SectorSize in *.
  assert (HL : length (fsector f n) = Z.to_nat SectorSize).
  { unfold fsector, SectorSize, MagicSize. rewrite length_take, length_drop. lia. }
  split; [|exact HL]. unfold Read, unix_ReadAt. rewrite bool_decide_true by lia. cbn [ASSERT mbind res_bind].
  unfold fsector, SectorSize, MagicSize in *. by rewrite HL, bool_decide_true.
Qed.

(** The UNIX file after a write to sector [n]. *)
Definition wrote (f : list Z) (n : Z) (bs : list Z) : list Z :=
  splice f (Z.to_nat (SectorSize * n + MagicSize)) bs.

Lemma wrote_sector f n bs m : Z.of_nat (length f) = DiskSize -> is_sector n -> is_sector m ->
  length bs = Z.to_nat SectorSize ->
  length (wrote f n bs) = length f /\ fsector (wrote f n bs) m = if decide (m = n) then bs else fsector f m.
Proof.
  unfold is_sector, DiskSize, NumSectors, SectorsPerTrack, NumTracks, wrote, fsector, MagicSize, SectorSize.
  intros Hf Hn Hm Hb. split; [apply length_splice; lia|]. apply list_eq. intros j.
  destruct (decide (j < 128)%nat) as [Hj|Hj].
  - rewrite lookup_take_lt, lookup_drop by lia. case_decide as E.
    + subst m. rewrite lookup_splice_in by lia. f_equal. lia.
    + rewrite lookup_splice_out by lia. by rewrite lookup_take_lt, lookup_drop by lia.
  - rewrite lookup_ge_None_2 by (rewrite length_take; lia). symmetry. apply lookup_ge_None_2.
    case_decide; [lia|]. rewrite length_take. lia.
Qed.

Lemma unix_write_ok f n bs : Z.of_nat (length f) = DiskSize -> is_sector n -> length bs = Z.to_nat SectorSize ->
  unix_WriteAt f bs (SectorSize * n + MagicSize) = Ok (wrote f n bs).
Proof.
  unfold is_sector, DiskSize, NumSectors, SectorsPerTrack, NumTracks, MagicSize, SectorSize.
  intros Hf Hn Hb. unfold unix_WriteAt. rewrite bool_decide_true by lia. cbn [ASSERT mbind res_bind].
  replace (Z.to_nat (128 * n + 4) - length f)%nat with O by lia. cbn [replicate]. by rewrite app_nil_r.
Qed.

(** ** One thread on a synchronous disk *)

Section synch.
Context (big notrackbuf : bool) (dev typeno : Z) `{!Policy typeno}.
Context (others : tptr -> Interrupt -> SynchDisk -> res (Interrupt * SynchDisk)) (fuel : nat) (Hfuel : (0 < fuel)%nat).

#[local] Hint Extern 0 (Devices SynchDisk) => exact (disk_devices dev typeno) : typeclass_instances.

(** Kernel code runs with interrupts [l], at time [T], with [p] pending. *)
Definition quiet_at (l : IntStatus) (p : list PendingInterrupt) (T : Z) (i : Interrupt) : Prop :=
  level i = l /\ pending i = p /\ inHandler i = false /\ yieldOnReturn i = false /\
  status i = SystemMode /\ totalTicks i = T.

Lemma SetLevel_off i (d : SynchDisk) p T : quiet_at IntOn p T i ->
  SetLevel i d IntOff = Ok (IntOn, with_level i IntOff, d, false) /\ quiet_at IntOff p T (with_level i IntOff).
Proof. intros (E1 & E2 & E3 & E4 & E5 & E6). unfold SetLevel. rewrite E1. split; [done|]. by split_and!. Qed.

Lemma restore_on i d T : quiet_at IntOff [] T i ->
  exists i', restore dev typeno others fuel i d IntOn = Ok (i', d) /\ quiet_at IntOn [] (i32 (T + 10)) i'.
Proof.
  intros (E1 & E2 & E3 & E4 & E5 & E6). destruct i. cbn in *. subst.
  destruct fuel as [|n]; [lia|]. cbn. eexists. split; [reflexivity|]. by split_and!.
Qed.

Lemma P_now s i d v q T : quiet_at IntOn [] T i -> sem_of s d = mkSem v q -> v <> 0 ->
  exists i', P dev typeno others fuel s i d = Ok (i', set_sem_of s d (mkSem (i32 (v - 1)) q)) /\
    quiet_at IntOn [] (i32 (T + 10)) i'.
Proof.
  intros Q E Hv. destruct (SetLevel_off i d [] T Q) as [E1 Q1]. unfold P. rewrite E1. cbn [mbind res_bind].
  destruct (restore_on (with_level i IntOff) (set_sem_of s d (mkSem (i32 (v - 1)) q)) T Q1) as (i' & E2 & Q2).
  exists i'. split; [|done]. rewrite <- E2. destruct fuel; cbn [P_loop]; unfold P_once; rewrite E; cbn [value queue];
    by rewrite bool_decide_false.
Qed.

Lemma V_now s i d v T : quiet_at IntOn [] T i -> sem_of s d = mkSem v [] ->
  exists i', V_on dev typeno others fuel s i d = Ok (i', set_sem_of s d (mkSem (i32 (v + 1)) [])) /\
    quiet_at IntOn [] (i32 (T + 10)) i'.
Proof.
  intros Q E. destruct (SetLevel_off i d [] T Q) as [E1 Q1]. unfold V_on. rewrite E1. cbn [mbind res_bind].
  destruct (restore_on (with_level i IntOff) (set_sem_of s d (mkSem (i32 (v + 1)) [])) T Q1) as (i' & E2 & Q2).
  exists i'. split; [|done]. rewrite <- E2. unfold V_off, V. rewrite E. cbn [value queue].
  rewrite bool_decide_true by done. cbn [mbind res_bind]. by destruct s, d.
Qed.

(** Thread [c] runs and no other thread is ready. *)
Definition alone (k : Kernel) (c : tptr) : Prop := inv typeno k (Some c) None /\ ready (queues k) = [].

(** Sleeping when no thread is ready. *)
Lemma Sleep_alone k c : alone k c -> exists k', Sleep typeno k false = Ok (Idling k') /\
  inv typeno k' None None /\ ready (queues k') = [] /\ currentThread k' = c /\
  Sched.status <$> threads k' !! c = Some BLOCKED.
Proof.
  intros [I R]. rewrite Sleep_wake by apply I. rewrite (inv_cur _ _ _ _ I c eq_refl).
  destruct (block_inv typeno k c I) as (k' & -> & I' & C & S & R' & _). cbn [mbind res_bind].
  unfold wake. destruct (FindNext_inv typeno k' None I') as [[_ ->]|(n & k2 & _ & _ & E & _)].
  - exists k'. split_and!; try done. by rewrite R', R.
  - rewrite R', R in E. done.
Qed.

(** [V] on a semaphore for which only the idle thread [c] waits: it runs again. *)
Lemma V_wakes k c v : inv typeno k None None -> ready (queues k) = [] -> currentThread k = c ->
  Sched.status <$> threads k !! c = Some BLOCKED ->
  exists k1 k2, V typeno k (mkSem v [c]) = Ok (k1, mkSem (i32 (v + 1)) []) /\
    wake typeno k1 false = Ok (Switched k2) /\ currentThread k2 = c /\ alone k2 c.
Proof.
  intros I R C S. destruct (threads k !! c) as [th|] eqn:Et; [|done]. cbn in S. injection S as S.
  destruct (ReadyToRun_inv typeno k None None c th I Et) as (k1 & E1 & I1 & R1 & C1 & _); [congruence|].
  rewrite decide_False in I1 by done. rewrite R in R1. apply Permutation_singleton_r in R1.
  unfold wake. destruct (FindNext_inv typeno k1 None I1) as [[E _]|(n & k3 & E3 & I3 & R3 & C3 & _)]; [congruence|].
  rewrite R1 in R3. injection R3 as <- R3.
  destruct (Run_inv typeno k3 c false c I3) as (k2 & E2 & I2 & _ & R2); [congruence|done|].
  exists k1, k2. unfold V. cbn [queue value]. rewrite bool_decide_false by done. cbn [Seq.RemoveFront mbind res_bind].
  rewrite E1, E3. cbn [mbind res_bind]. rewrite E2. cbn [mbind res_bind].
  pose proof (inv_cur _ _ _ _ I2 c eq_refl). split_and!; try done. split; [done|congruence].
Qed.

(** Idling with only the disk interrupt pending: the clock goes to its time. *)
Lemma Idle_disk i d d' p T : quiet_at IntOff [p] T i -> callOnInterrupt p = dev ->
  SynchDisk_CallBack typeno d = Ok d' ->
  exists i', Idle i d = Ok (true, i', d') /\ quiet_at IntOff [] (Z.max T (when p)) i'.
Proof.
  intros (E1 & E2 & E3 & E4 & E5 & E6) Ed Ec. destruct i. cbn in *. subst.
  unfold Idle, CheckIfDue. cbn. destruct (bool_decide (when p > T)) eqn:Ew; cbn;
    rewrite bool_decide_true by done; rewrite Ec; cbn; eexists; (split; [reflexivity|]);
    unfold quiet_at; cbn; split_and!; try done.
  - apply bool_decide_eq_true in Ew. lia.
  - apply bool_decide_eq_false in Ew. lia.
Qed.

(** Waiting for the disk. *)
Lemma P_wait i d p T c : quiet_at IntOn [p] T i -> callOnInterrupt p = dev ->
  semaphore d = mkSem 0 [] -> alone (kern d) c ->
  exists i' k', P dev typeno others fuel DiskSem i d =
      Ok (i', mkSynchDisk (Disk_CallBack (disk d)) (mkSem 0 []) (lock d) (lockHolder d) k') /\
    alone k' c /\ quiet_at IntOn [] (i32 (Z.max T (when p) + 10)) i'.
Proof.
  intros Q Ed Es Al. destruct (SetLevel_off i d [p] T Q) as [E1 Q1]. unfold P. rewrite E1. cbn [mbind res_bind].
  pose proof (inv_cur _ _ _ _ (proj1 Al) c eq_refl) as Ec. rewrite Ec.
  destruct (Sleep_alone (kern d) c Al) as (k1 & ES & I1 & R1 & C1 & B1).
  destruct (V_wakes k1 c 0 I1 R1 C1 B1) as (k2 & k3 & EV & EW & C3 & A3).
  set (d2 := mkSynchDisk (Disk_CallBack (disk d)) (mkSem 1 []) (lock d) (lockHolder d)).
  set (d1 := set_kern (set_sem_of DiskSem d (mkSem 0 [c])) k1).
  destruct (Idle_disk (with_level i IntOff) d1 (d2 k2) p T Q1 Ed) as (i2 & EI & Q2).
  { unfold SynchDisk_CallBack, V_off, d1. cbn [set_disk set_kern kern sem_of semaphore disk lock lockHolder set_sem_of].
    rewrite EV. done. }
  destruct (restore_on i2 (mkSynchDisk (Disk_CallBack (disk d)) (mkSem 0 []) (lock d) (lockHolder d) k3) _ Q2)
    as (i3 & E3 & Q3). exists i3, k3. split_and!; [|done|done].
  assert (exists n, fuel = S n) as [n Ef] by (exists (pred fuel); lia). rewrite <- E3, Ef.
  cbn [P_loop]. unfold P_once at 1. cbn [sem_of]. rewrite Es. cbn [value queue].
  rewrite bool_decide_true by done. rewrite Ec. unfold Seq.Append. rewrite seq_in_false by apply not_elem_of_nil.
  cbn [negb ASSERT mbind res_bind app]. rewrite ES. cbn [mbind res_bind slept_until]. fold d1. rewrite EI.
  cbn [mbind res_bind kern d2]. rewrite EW. cbn [mbind res_bind].
  destruct n as [|n]; cbn [slept_until]; rewrite bool_decide_true by done;
    cbn [mbind res_bind P_loop set_kern disk semaphore lock lockHolder]; unfold P_once; cbn [sem_of semaphore value queue];
    by rewrite bool_decide_false.
Qed.

(** Between requests, at time [T]; thread [c] makes them. *)
Record rests (c : tptr) (T : Z) (s : Interrupt * SynchDisk) : Prop := mkRests {
  r_int : quiet_at IntOn [] T s.1;
  r_alone : alone (kern s.2) c;
  r_sem : semaphore s.2 = mkSem 0 [];
  r_lock : lock s.2 = mkSem 1 [];
  r_holder : lockHolder s.2 = None;
  r_active : active (disk s.2) = false;
  r_file : Z.of_nat (length (file (disk s.2))) = DiskSize;
  r_last : is_sector (lastSector (disk s.2)) }.

(** The time after a request made at [T] with latency [lat]. *)
Definition after (T lat : Z) : Z :=
  i32 (i32 (Z.max (i32 (T + 10)) (i32 (i32 (T + 10) + lat)) + 10) + 10).

(** The state inside a request: the lock is taken. *)
Definition locked (c : tptr) (d : SynchDisk) : SynchDisk :=
  mkSynchDisk (disk d) (semaphore d) (mkSem 0 []) (Some c) (kern d).

Lemma Acquire_ok c T i d : rests c T (i, d) ->
  exists i', Acquire dev typeno others fuel i d = Ok (i', locked c d) /\ quiet_at IntOn [] (i32 (T + 10)) i'.
Proof.
  intros [Q Al Es El _ _ _ _]. cbn in *. unfold Acquire.
  destruct (P_now LockSem i d 1 [] T Q El) as (i' & -> & Q'); [done|]. cbn [mbind res_bind set_sem_of kern].
  exists i'. split; [|done]. by rewrite (inv_cur _ _ _ _ (proj1 Al) c eq_refl).
Qed.

(** The wait for the interrupt and the release of the lock. *)
Lemma complete_ok c i d dk p T : quiet_at IntOn [p] T i -> callOnInterrupt p = dev ->
  alone (kern d) c -> semaphore d = mkSem 0 [] ->
  Z.of_nat (length (file dk)) = DiskSize -> is_sector (lastSector dk) ->
  exists i1 d1 s', P dev typeno others fuel DiskSem i (set_disk (locked c d) dk) = Ok (i1, d1) /\
    Release dev typeno others fuel i1 d1 = Ok s' /\
    rests c (i32 (i32 (Z.max T (when p) + 10) + 10)) s' /\ file (disk s'.2) = file dk.
Proof.
  intros Q Ed Al Es Hf Hl.
  destruct (P_wait i (set_disk (locked c d) dk) p T c Q Ed Es Al) as (i1 & k1 & E1 & A1 & Q1).
  eexists i1, _. unfold Release. cbn [set_disk locked disk semaphore lock lockHolder kern] in E1.
  edestruct (V_now LockSem i1 (mkSynchDisk (Disk_CallBack dk) (mkSem 0 []) (mkSem 0 []) None k1) 0) as (i2 & E2 & Q2);
    [exact Q1|done|].
  eexists. split; [exact E1|]. cbn [lockHolder kern set_holder disk semaphore lock].
  rewrite (inv_cur _ _ _ _ (proj1 A1) c eq_refl), bool_decide_true by done. cbn [ASSERT mbind res_bind].
  split; [exact E2|]. split; [|done]. by split.
Qed.

Lemma request_ok i d T n ticks f reads writes : quiet_at IntOn [] T i -> 0 < ticks -> is_sector n ->
  exists i' d', request dev i d n ticks f reads writes = Ok (i', d') /\ file d' = f /\ lastSector d' = n /\
    exists p, quiet_at IntOn [p] T i' /\ callOnInterrupt p = dev /\ when p = i32 (T + ticks).
Proof.
  intros (E1 & E2 & E3 & E4 & E5 & E6) Ht Hn. unfold request, Schedule. rewrite E2, E6.
  rewrite bool_decide_true by lia. cbn [ASSERT mbind res_bind]. unfold Seq.Insert.
  rewrite seq_in_false by apply not_elem_of_nil. cbn [negb ASSERT mbind res_bind Seq.insert_before].
  eexists _, _. split; [reflexivity|]. unfold UpdateLast. destruct (TimeToSeek _ _ _).
  split; [done|]. split; [done|]. eexists. split; [by split_and!|]. done.
Qed.

Lemma ReadSector_ok c T s n : rests c T s -> is_sector n ->
  exists s' lat, SynchDisk_ReadSector notrackbuf dev typeno others fuel n s = Ok (fsector (file (disk s.2)) n, s') /\
    500 <= lat <= 31999 /\ rests c (after T lat) s' /\ file (disk s'.2) = file (disk s.2).
Proof.
  intros HR Hn. destruct s as [i d]. unfold SynchDisk_ReadSector. cbn [fst snd].
  destruct (Acquire_ok c T i d HR) as (i1 & -> & Q1). cbn [mbind res_bind]. destruct HR as [_ Al Es _ _ Ea Hf Hl]. cbn in *.
  unfold ReadRequest. cbn [disk locked]. rewrite Ea. cbn [negb ASSERT mbind res_bind].
  rewrite !bool_decide_true by (unfold is_sector in Hn; lia). cbn [andb ASSERT mbind res_bind].
  destruct (Read_ok _ _ Hf Hn) as [-> _]. cbn [mbind res_bind].
  pose proof Q1 as (_ & _ & _ & _ & _ & ET). rewrite ET.
  set (lat := ComputeLatency notrackbuf (i32 (T + 10)) (disk d) n false).
  assert (HL : 500 <= lat <= 31999) by (by apply latency_range).
  destruct (request_ok i1 (disk d) (i32 (T + 10)) n lat (file (disk d)) 1 0 Q1 ltac:(lia) Hn)
    as (i2 & dk & -> & Ef & Ek & p & Q2 & Ep & Ew). cbn [mbind res_bind].
  destruct (complete_ok c i2 d dk p (i32 (T + 10)) Q2 Ep Al Es) as (i3 & d3 & s' & -> & E & R & F); [by rewrite Ef|by rewrite Ek|].
  cbn [mbind res_bind]. rewrite E. cbn [mbind res_bind]. exists s', lat. rewrite Ew in R. split_and!; try done; [lia|lia|].
  by rewrite F.
Qed.

Lemma WriteSector_ok c T s n bs : rests c T s -> is_sector n -> length bs = Z.to_nat SectorSize ->
  exists s' lat, SynchDisk_WriteSector notrackbuf dev typeno others fuel n bs s = Ok s' /\
    500 <= lat <= 31999 /\ rests c (after T lat) s' /\ file (disk s'.2) = wrote (file (disk s.2)) n bs.
Proof.
  intros HR Hn Hb. destruct s as [i d]. unfold SynchDisk_WriteSector. cbn [fst snd].
  destruct (Acquire_ok c T i d HR) as (i1 & -> & Q1). cbn [mbind res_bind]. destruct HR as [_ Al Es _ _ Ea Hf Hl]. cbn in *.
  unfold WriteRequest. cbn [disk locked]. rewrite Ea. cbn [negb ASSERT mbind res_bind].
  rewrite !bool_decide_true by (unfold is_sector in Hn; lia). cbn [andb ASSERT mbind res_bind].
  unfold mem_read. rewrite bool_decide_true by (unfold SectorSize in *; lia). rewrite drop_0, take_ge by lia.
  cbn [mbind res_bind]. rewrite unix_write_ok by done. cbn [mbind res_bind].
  pose proof Q1 as (_ & _ & _ & _ & _ & ET). rewrite ET.
  set (lat := ComputeLatency notrackbuf (i32 (T + 10)) (disk d) n true).
  assert (HL : 500 <= lat <= 31999) by (by apply latency_range).
  destruct (request_ok i1 (disk d) (i32 (T + 10)) n lat (wrote (file (disk d)) n bs) 0 1 Q1 ltac:(lia) Hn)
    as (i2 & dk & -> & Ef & Ek & p & Q2 & Ep & Ew). cbn [mbind res_bind].
  destruct (complete_ok c i2 d dk p (i32 (T + 10)) Q2 Ep Al Es) as (i3 & d3 & s' & -> & E & R & F); [|by rewrite Ek|].
  { rewrite Ef. by rewrite (proj1 (wrote_sector _ n bs n Hf Hn Hn Hb)). }
  cbn [mbind res_bind]. exists s', lat. rewrite Ew in R. split_and!; try done; [lia|lia|]. by rewrite F.
Qed.

(** A request for a sector that does not exist fails the disk's assertion. *)
Lemma bad_sector c T s n bs : rests c T s -> ~ is_sector n ->
  SynchDisk_ReadSector notrackbuf dev typeno others fuel n s = AssertFail /\
  SynchDisk_WriteSector notrackbuf dev typeno others fuel n bs s = AssertFail.
Proof.
  intros HR Hn. destruct s as [i d]. unfold SynchDisk_ReadSector, SynchDisk_WriteSector. cbn [fst snd].
  destruct (Acquire_ok c T i d HR) as (i1 & -> & Q1). cbn [mbind res_bind]. destruct HR as [_ _ _ _ _ Ea _ _]. cbn in *.
  unfold ReadRequest, WriteRequest. cbn [disk locked]. rewrite Ea. cbn [negb ASSERT mbind res_bind].
  rewrite <- bool_decide_and, bool_decide_false by (unfold is_sector in Hn; lia). done.
Qed.

#[local] Hint Extern 0 (SectorStore (Interrupt * SynchDisk)) =>
  exact (synch_store notrackbuf dev typeno others fuel) : typeclass_instances.

#[refine] Instance synch_lawful : LawfulStore (Interrupt * SynchDisk) := {|
  dok s := exists c T, rests c T s; sector s n := fsector (file (disk s.2)) n |}.
Proof.
  - intros s n (c & T & R) Hn. by apply Read_ok; [apply R|].
  - intros s n (c & T & R) Hn. destruct (ReadSector_ok c T s n R Hn) as (s' & lat & E & _ & R' & F).
    exists s'. split; [exact E|]. split; [eauto|]. by rewrite F.
  - intros s n bs (c & T & R) Hn Hb. destruct (WriteSector_ok c T s n bs R Hn Hb) as (s' & lat & E & _ & R' & F).
    exists s'. split; [exact E|]. split; [eauto|]. intros m Hm. rewrite F. by apply wrote_sector; [apply R|..].
  - intros s n (c & T & R) Hn. by apply (bad_sector c T s n []).
  - intros s n bs (c & T & R) Hn. by apply (bad_sector c T s n bs).
Defined.

End synch.
