(* ===== verification/DiskClaims.v ===== *)
(** * Requests to the disk: the theorem *)

From S2P Require Import Prelude Lists Bytes Sched SchedProofs SchedClaims Synch Interrupt Disk DiskProofs.
Import Interrupt.Interrupt.

(** ** A new disk *)

Lemma host_bytes_0 big : host_bytes big 0 = replicate 4 0.
Proof. by destruct big. Qed.

(** A new disk file: the magic number, then zeros. *)
Lemma newDisk_None big : newDisk big None =
  Ok (mkDisk (host_bytes big MagicNumber ++ replicate (Z.to_nat (DiskSize - 4)) 0) false 0 0 0 0).
Proof.
  unfold newDisk, unix_WriteAt. rewrite !bool_decide_true by (unfold DiskSize, MagicSize, NumSectors, SectorsPerTrack, NumTracks, SectorSize; lia).
  cbn [ASSERT mbind res_bind].
  change (Z.to_nat 0) with O. cbn [take app drop length Nat.sub replicate]. rewrite drop_nil, app_nil_r.
  rewrite host_bytes_0. set (m := host_bytes big MagicNumber).
  assert (Hm : length m = 4%nat) by apply host_bytes_length.
  set (n := Z.to_nat (DiskSize - 4)). assert (Hn : (4 <= n)%nat).
  { unfold n, DiskSize, MagicSize, NumSectors, SectorsPerTrack, NumTracks, SectorSize. lia. }
  rewrite take_ge, drop_ge, app_nil_r by (rewrite !length_app, length_replicate; lia).
  rewrite Hm, <- app_assoc, <- replicate_add. by replace (n - 4 + 4)%nat with n by lia.
Qed.

Lemma new_file big f d : newDisk big f = Ok d -> (forall g, f = Some g -> Z.of_nat (length g) = DiskSize) ->
  Z.of_nat (length (file d)) = DiskSize /\ active d = false /\ is_sector (lastSector d) /\
  (f = None -> forall n, is_sector n -> fsector (file d) n = replicate (Z.to_nat SectorSize) 0).
Proof.
  destruct f as [g|]; intros E Hf.
  - unfold newDisk in E. inv_res. cbn. split_and!; [by apply Hf|done|by split|done].
  - rewrite newDisk_None in E. remember (Z.to_nat (DiskSize - 4)) as N eqn:EN. injection E as <-.
    cbn [file active lastSector].
    split_and!; [|done|by split|intros _ n Hn].
    + rewrite length_app, host_bytes_length, length_replicate, EN. unfold DiskSize, MagicSize, NumSectors, SectorsPerTrack, NumTracks, SectorSize. lia.
    + unfold is_sector, fsector, DiskSize, MagicSize, NumSectors, SectorsPerTrack, NumTracks, SectorSize in *.
      replace (Z.to_nat (128 * n + 4)) with (length (host_bytes big MagicNumber) + Z.to_nat (128 * n))%nat by (rewrite host_bytes_length; lia).
      rewrite drop_app_add, drop_replicate, take_replicate. f_equal. lia.
Qed.

(** ** Sequences of requests *)

Inductive request : Type := ReadSectorR (n : Z) | WriteSectorR (n : Z) (data : list Z).

Definition sized (q : request) : Prop :=
  match q with ReadSectorR _ => True | WriteSectorR _ data => length data = Z.to_nat SectorSize end.

Definition do_request {D} `{!SectorStore D} (q : request) (d : D) : res (list Z * D) :=
  match q with
  | ReadSectorR n => ReadSector n d
  | WriteSectorR n data => d ← WriteSector n data d; Ok ([], d)
  end.

Fixpoint run_requests {D} `{!SectorStore D} (qs : list request) (d : D) : res (list (list Z) * D) :=
  match qs with
  | [] => Ok ([], d)
  | q :: qs' => '(r, d) ← do_request q d; '(rs, d) ← run_requests qs' d; Ok (r :: rs, d)
  end.

(** Two lawful disks with the same sectors answer alike. *)
Section same.
Context {D A} `{!SectorStore D} `{!SectorStore A} `{!LawfulStore D} `{!LawfulStore A}.

Definition same_sectors (d : D) (a : A) : Prop :=
  dok d /\ dok a /\ forall n, is_sector n -> sector d n = sector a n.

Lemma do_request_same q d a : sized q -> same_sectors d a ->
  res_rel (fun r r' => r.1 = r'.1 /\ same_sectors r.2 r'.2) (do_request q d) (do_request q a).
Proof.
  intros Hq (Hd & Ha & HS). destruct q as [n|n data]; cbn in Hq |- *; destruct (decide (is_sector n)) as [Hn|Hn].
  - destruct (read_law d n Hd Hn) as (d' & -> & Hd' & Ed). destruct (read_law a n Ha Hn) as (a' & -> & Ha' & Ea).
    eexists. split; [done|]. cbn. split; [by apply HS|]. split_and!; [done|done|].
    intros m Hm. rewrite Ed, Ea by done. by apply HS.
  - by rewrite !read_out by done.
  - destruct (write_law d n data Hd Hn Hq) as (d' & -> & Hd' & Ed). destruct (write_law a n data Ha Hn Hq) as (a' & -> & Ha' & Ea).
    eexists. split; [done|]. cbn. split_and!; [done|]. split_and!; [done|done|].
    intros m Hm. rewrite Ed, Ea by done. case_decide; [done|by apply HS].
  - by rewrite !write_out by done.
Qed.

Lemma run_requests_same qs d a : Forall sized qs -> same_sectors d a ->
  res_rel (fun r r' => r.1 = r'.1 /\ same_sectors r.2 r'.2) (run_requests qs d) (run_requests qs a).
Proof.
  intros HF. revert d a. induction HF as [|q qs Hq HF IH]; intros d a HS; cbn [run_requests]; [by eexists|].
  eapply res_rel_bind; [by apply do_request_same|]. intros [r d1] [r' a1] [Er HS1]. cbn in Er, HS1. subst r'.
  eapply res_rel_bind; [by apply IH|]. intros [rs d2] [rs' a2] [Ers HS2]. cbn in Ers, HS2. subst rs'. by eexists.
Qed.
End same.

Definition sectors_of (f : list Z) : list (list Z) := fsector f <$> seqZ 0 NumSectors.

Lemma sectors_of_lookup f n : is_sector n -> sectors_of f !! Z.to_nat n = Some (fsector f n).
Proof.
  intros Hn. unfold sectors_of. rewrite list_lookup_fmap, lookup_seqZ_lt by (unfold is_sector in Hn; lia).
  cbn. f_equal. f_equal. unfold is_sector in Hn. lia.
Qed.

Lemma sectors_of_ok f : Z.of_nat (length f) = DiskSize -> dok (sectors_of f).
Proof.
  intros Hf. cbn. split.
  - unfold sectors_of. rewrite length_fmap, length_seqZ. done.
  - apply Forall_fmap, Forall_forall. intros n Hn%elem_of_seqZ. cbn.
    apply (proj2 (Read_ok f n Hf ltac:(unfold is_sector; lia))).
Qed.

(** ** The time of a sequence of requests *)

Section time.
Context (notrackbuf : bool) (dev typeno : Z) `{!Policy typeno}.
Context (others : tptr -> Interrupt -> SynchDisk -> res (Interrupt * SynchDisk)) (fuel : nat) (Hfuel : (0 < fuel)%nat).

#[local] Hint Extern 0 (SectorStore (Interrupt * SynchDisk)) =>
  exact (synch_store notrackbuf dev typeno others fuel) : typeclass_instances.

Lemma after_range T lat : 0 <= T -> 500 <= lat <= 31999 -> T + 32029 <= int_max -> after T lat = T + lat + 30.
Proof.
  intros H0 H1 H2. unfold after.
  assert (HI : forall x, 0 <= x <= T + 32029 -> i32 x = x) by (intros x Hx; apply i32_id; unfold is_i32, int_min in *; lia).
  rewrite (HI (T + 10)), (HI (T + 10 + lat)), Z.max_r, (HI (T + 10 + lat + 10)), HI by lia. lia.
Qed.

Lemma run_requests_time c qs T s out s' : Forall sized qs -> rests typeno c T s -> 0 <= T ->
  T + 32029 * Z.of_nat (length qs) <= int_max -> run_requests qs s = Ok (out, s') ->
  exists T', rests typeno c T' s' /\ T + 530 * Z.of_nat (length qs) <= T' <= T + 32029 * Z.of_nat (length qs).
Proof.
  intros HF. revert T s out. induction HF as [|q qs Hq HF IH]; intros T s out HR H0 HT E; cbn [run_requests length] in *.
  - injection E as <- <-. exists T. split; [done|]. cbn. lia.
  - apply bind_Ok in E as ([r s1] & E1 & E). apply bind_Ok in E as ([rs s2] & E2 & E). injection E as <- <-.
    assert (exists lat, 500 <= lat <= 31999 /\ rests typeno c (after T lat) s1) as (lat & HL & R1).
    { destruct q as [n|n data]; cbn in E1, Hq; destruct (decide (is_sector n)) as [Hn|Hn].
      - destruct (ReadSector_ok notrackbuf dev typeno others fuel Hfuel c T s n HR Hn) as (s1' & lat & E & HL & R & _).
        rewrite E in E1. injection E1 as <- <-. eauto.
      - by rewrite (proj1 (bad_sector notrackbuf dev typeno others fuel Hfuel c T s n [] HR Hn)) in E1.
      - destruct (WriteSector_ok notrackbuf dev typeno others fuel Hfuel c T s n data HR Hn Hq) as (s1' & lat & E & HL & R & _).
        rewrite E in E1. injection E1 as <- <-. eauto.
      - by rewrite (proj2 (bad_sector notrackbuf dev typeno others fuel Hfuel c T s n data HR Hn)) in E1. }
    rewrite after_range in R1 by lia. destruct (IH _ _ _ R1 ltac:(lia) ltac:(lia) E2) as (T' & R2 & B).
    exists T'. split; [done|]. lia.
Qed.
End time.

(** ** The theorem *)

(** A new synchronous disk on a UNIX file of the right size, for a kernel whose
    running thread is the only one ready, at rest. *)
Lemma newSynchDisk_rests big typeno `{!Policy typeno} f (k : Kernel) d i T :
  kstate_ok typeno (Runs k) -> FindNextToRun typeno k = Ok (None, k) ->
  (forall g, f = Some g -> Z.of_nat (length g) = DiskSize) ->
  newSynchDisk big f k = Ok d -> quiet_at IntOn [] T i ->
  rests typeno (currentThread k) T (i, d) /\
  (f = None -> forall n, is_sector n -> fsector (file (disk d)) n = replicate (Z.to_nat SectorSize) 0).
Proof.
  intros HK HF Hf E Q. unfold newSynchDisk in E. apply bind_Ok in E as (dk & E & Ed).
  destruct (new_file big f dk E Hf) as (H1 & H2 & H3 & H4).
  assert (disk d = dk /\ semaphore d = mkSem 0 [] /\ lock d = mkSem 1 [] /\ lockHolder d = None /\ kern d = k)
    as (E1 & E2 & E3 & E4 & E5) by (clear -Ed; by injection Ed as <-).
  split; [|by rewrite E1]. split; cbn [fst snd]; rewrite ?E1, ?E2, ?E3, ?E4, ?E5; try done.
  split; [exact HK|]. destruct (FindNext_inv typeno k _ HK) as [[HR _]|(n & k' & E' & _)]; [done|].
  rewrite HF in E'. done.
Qed.

(** C14: the synchronous disk is an array of sectors.  In any state the kernel can
    reach, under each scheduling policy, when the running thread is the only one
    ready: any sequence of [ReadSector] and [WriteSector] requests on a new
    [SynchDisk] terminates, and returns what the same requests return on an array
    of 1024 sectors (all zero when the disk file is new); a request outside the
    disk fails an assertion.  Every request waits for the disk interrupt: the
    sequence takes between 530 and 32029 ticks per request. *)
Theorem synchdisk_is_an_array (big notrackbuf : bool) (dev typeno p r : Z) (k : Kernel) others (fuel : nat)
    (f : option (list Z)) (d : SynchDisk) (i : Interrupt) (T : Z) (qs : list request) :
  0 <= typeno <= 3 -> (typeno = 3 -> -1 <= p <= 4) ->
  rtc (kstep typeno) (boot_state p r) (Runs k) -> FindNextToRun typeno k = Ok (None, k) ->
  (forall g, f = Some g -> Z.of_nat (length g) = DiskSize) -> newSynchDisk big f k = Ok d ->
  quiet_at IntOn [] T i -> (0 < fuel)%nat -> Forall sized qs ->
  let a := sectors_of (file (disk d)) in
  (f = None -> forall n, is_sector n -> a !! Z.to_nat n = Some (replicate (Z.to_nat SectorSize) 0)) /\
  res_rel (fun r r' => r.1 = r'.1 /\
      (forall n, is_sector n -> r'.2 !! Z.to_nat n = Some (fsector (file (disk r.2.2)) n)) /\
      (0 <= T -> T + 32029 * Z.of_nat (length qs) <= int_max ->
       T + 530 * Z.of_nat (length qs) <= totalTicks r.2.1 <= T + 32029 * Z.of_nat (length qs)))
    (run_requests (SectorStore0 := synch_store notrackbuf dev typeno others fuel) qs (i, d)) (run_requests qs a).
Proof.
  intros Ht Hp HS HF Hf Hd Q Hfuel HQ a.
  destruct (reachable_inv typeno p r k Ht Hp HS) as (HP & _ & HK).
  destruct (newSynchDisk_rests big typeno f k d i T HK HF Hf Hd Q) as [HR HZ]. split.
  { intros Ef n Hn. unfold a. by rewrite sectors_of_lookup, HZ. }
  pose proof (sectors_of_ok (file (disk d)) ltac:(by apply HR)) as Ha.
  assert (HSS : same_sectors (LawfulStore0 := synch_lawful notrackbuf dev typeno others fuel Hfuel) (i, d) a).
  { split; [by eexists _, _|]. split; [exact Ha|]. intros n Hn. cbn. unfold a. by rewrite sectors_of_lookup. }
  pose proof (run_requests_same qs (i, d) a HQ HSS) as H.
  destruct (run_requests qs a) as [[out a'] | | | ] eqn:Ea; [|done..]. destruct H as ([out' s'] & E & Eo & Hs & Ha' & HE).
  cbn in Eo. subst out'. exists (out, s'). split; [exact E|]. cbn [fst snd]. split_and!; [done| |].
  - intros n Hn. specialize (HE n Hn). cbn in HE. destruct Ha' as [Hl _].
    cbn [snd] in Hl. destruct (lookup_lt_is_Some_2 a' (Z.to_nat n)) as [x Ex]; [unfold is_sector in Hn; lia|]. rewrite Ex in HE |- *.
    cbn in HE. by rewrite HE.
  - intros H0 HT. destruct (run_requests_time notrackbuf dev typeno others fuel Hfuel _ qs T (i, d) out s' HQ HR H0 HT E)
      as (T' & R' & B). by rewrite (proj2 (proj2 (proj2 (proj2 (proj2 (r_int _ _ _ _ R')))))).
Qed.

(** A new disk at start-up, with nothing else to do. *)
Definition demo_disk : SynchDisk :=
  mkSynchDisk (mkDisk (host_bytes false MagicNumber ++ replicate (Z.to_nat (DiskSize - 4)) 0) false 0 0 0 0)
    (mkSem 0 []) (mkSem 1 []) None (boot 0 3).

Definition demo_requests : list request :=
  [WriteSectorR 1023 (replicate 128 7); ReadSectorR 1022; ReadSectorR 1023].

Lemma synchdisk_is_an_array_witness :
  res_rel (fun r r' => r.1 = r'.1 /\
      (forall n, is_sector n -> r'.2 !! Z.to_nat n = Some (fsector (file (disk r.2.2)) n)) /\
      (0 <= 0 -> 0 + 32029 * Z.of_nat (length demo_requests) <= int_max ->
       0 + 530 * Z.of_nat (length demo_requests) <= totalTicks r.2.1 <= 0 + 32029 * Z.of_nat (length demo_requests)))
    (run_requests (SectorStore0 := synch_store false 7 2 (fun _ _ _ => Undef) 1) demo_requests
       (ChangeLevel newInterrupt IntOn, demo_disk))
    (run_requests demo_requests (sectors_of (file (disk demo_disk)))) /\
  ('(out, _) ← run_requests demo_requests (sectors_of (file (disk demo_disk))); Ok out)
    = Ok [[]; replicate 128 0; replicate 128 7].
Proof.
  split; [|by vm_compute].
  apply (synchdisk_is_an_array false false 7 2 0 3 (boot 0 3) (fun _ _ _ => Undef) 1 None demo_disk
    (ChangeLevel newInterrupt IntOn) 0 demo_requests).
  - done.
  - done.
  - apply rtc_refl.
  - by vm_compute.
  - intros g Hg. discriminate Hg.
  - unfold newSynchDisk. rewrite newDisk_None. cbn [mbind res_bind]. reflexivity.
  - by split_and!.
  - lia.
  - repeat constructor.
Defined.
