(* ===== verification/OpenFile.v ===== *)
(** * filesys/filehdr.cc, filesys/openfile.cc: file headers and open files

    A file is a header, which is one sector of the disk, and the data sectors it
    lists.  The disk is used through [SectorStore].  An object is stored by
    copying its memory: [hdr_bytes] and [hdr_of_bytes] are the layout of a
    [FileHeader] on a host whose [int]s have four bytes. *)

From S2P Require Import Prelude Bytes Bitmap Disk.

Definition NumDirect : Z := Z.quot (SectorSize - 2 * 4) 4.
Definition MaxFileSize : Z := NumDirect * SectorSize.

(** The first index of [dataSectors] that an [int] array of [NumDirect] entries
    has not got is undefined to use ([aget], [aset]). *)
Record FileHeader : Type := mkHdr { numBytes : Z; numSectors : Z; dataSectors : list Z }.

Section openfile.
Context {D : Type} `{!SectorStore D}.
(** [big]: the host's byte order; [newchars n]: the contents of a [new char[n]]. *)
Context (big : bool) (newchars : Z -> list Z).

Definition hdr_bytes (h : FileHeader) : list Z :=
  host_bytes big (numBytes h) ++ host_bytes big (numSectors h) ++ concat (host_bytes big <$> dataSectors h).

Fixpoint ints (n : nat) (bs : list Z) : list Z :=
  match n with O => [] | S n' => host_int big (take 4 bs) :: ints n' (drop 4 bs) end.

Definition hdr_of_bytes (bs : list Z) : FileHeader :=
  mkHdr (host_int big (take 4 bs)) (host_int big (take 4 (drop 4 bs))) (ints (Z.to_nat NumDirect) (drop 8 bs)).

(** ** File headers *)

(** [h] is the header before: its sectors are not initialised. *)
Definition Allocate (h : FileHeader) (freeMap : BitmapImpl.Bitmap) (fileSize : Z)
    : res (bool * FileHeader * BitmapImpl.Bitmap) :=
  let n := divRoundUp fileSize SectorSize in
  let h := mkHdr fileSize n (dataSectors h) in
  clear ← BitmapImpl.NumClear freeMap;
  if bool_decide (clear < n) then Ok (false, h, freeMap)
  else
    '(h, freeMap) ← for_loop (Z.to_nat n) 0 (fun i '(h, freeMap) =>
      '(s, freeMap) ← BitmapImpl.FindAndSet freeMap;
      ds ← aset (dataSectors h) i s;
      _ ← ASSERT (bool_decide (s >= 0));
      Ok (mkHdr (numBytes h) (numSectors h) ds, freeMap)) (h, freeMap);
    Ok (true, h, freeMap).

Definition Deallocate (h : FileHeader) (freeMap : BitmapImpl.Bitmap) : res BitmapImpl.Bitmap :=
  for_loop (Z.to_nat (numSectors h)) 0 (fun i freeMap =>
    s ← aget (dataSectors h) i;
    t ← BitmapImpl.Test freeMap s;
    _ ← ASSERT t;
    BitmapImpl.Clear freeMap s) freeMap.

Definition FetchFrom (sector : Z) (d : D) : res (FileHeader * D) :=
  '(bs, d) ← ReadSector sector d; Ok (hdr_of_bytes bs, d).

Definition WriteBack (h : FileHeader) (sector : Z) (d : D) : res D :=
  WriteSector sector (hdr_bytes h) d.

Definition ByteToSector (h : FileHeader) (offset : Z) : res Z :=
  aget (dataSectors h) (Z.quot offset SectorSize).

Definition FileLength (h : FileHeader) : Z := numBytes h.

(** ** Open files *)

Record OpenFile : Type := mkOpenFile { hdr : FileHeader; seekPosition : Z }.

Definition newOpenFile (sector : Z) (d : D) : res (OpenFile * D) :=
  '(h, d) ← FetchFrom sector d; Ok (mkOpenFile h 0, d).

Definition Seek (f : OpenFile) (position : Z) : OpenFile := mkOpenFile (hdr f) position.

(** The request after its checks: the number of bytes within the file. *)
Definition clamp (h : FileHeader) (n position : Z) : Z :=
  if bool_decide (i32 (position + n) > FileLength h) then FileLength h - position else n.

Definition firstSector (position : Z) : Z := divRoundDown position SectorSize.
Definition lastSector (position n : Z) : Z := divRoundDown (position + n - 1) SectorSize.

(** Returns the result and the bytes stored at [into]. *)
Definition ReadAt (h : FileHeader) (n position : Z) (d : D) : res (Z * list Z * D) :=
  if bool_decide (n <= 0) || bool_decide (position >= FileLength h) then Ok (0, [], d)
  else
    let n := clamp h n position in
    let first := firstSector position in
    let last := lastSector position n in
    let count := 1 + last - first in
    '(buf, d) ← for_loop (Z.to_nat count) first (fun i '(buf, d) =>
      s ← ByteToSector h (i * SectorSize);
      '(bs, d) ← ReadSector s d;
      buf ← mem_write buf ((i - first) * SectorSize) bs;
      Ok (buf, d)) (newchars (count * SectorSize), d);
    bytes ← mem_read buf (position - first * SectorSize) (Z.to_nat n);
    Ok (n, bytes, d).

(** Filling the part of the buffer at [addr] with the sector at [position]. *)
Definition preload (h : FileHeader) (buf : list Z) (addr position : Z) (d : D) : res (list Z * D) :=
  '(_, bs, d) ← ReadAt h SectorSize position d;
  buf ← mem_write buf addr bs; Ok (buf, d).

Definition WriteAt (h : FileHeader) (from : list Z) (n position : Z) (d : D) : res (Z * D) :=
  if bool_decide (n <= 0) || bool_decide (position >= FileLength h) then Ok (0, d)
  else
    let n := clamp h n position in
    let first := firstSector position in
    let last := lastSector position n in
    let count := 1 + last - first in
    let buf := newchars (count * SectorSize) in
    let firstAligned := bool_decide (position = first * SectorSize) in
    let lastAligned := bool_decide (position + n = (last + 1) * SectorSize) in
    '(buf, d) ← (if negb firstAligned then preload h buf 0 (first * SectorSize) d else Ok (buf, d));
    '(buf, d) ← (if negb lastAligned && (bool_decide (first <> last) || firstAligned)
                 then preload h buf ((last - first) * SectorSize) (last * SectorSize) d else Ok (buf, d));
    data ← mem_read from 0 (Z.to_nat n);
    buf ← mem_write buf (position - first * SectorSize) data;
    d ← for_loop (Z.to_nat count) first (fun i d =>
      s ← ByteToSector h (i * SectorSize);
      bs ← mem_read buf ((i - first) * SectorSize) (Z.to_nat SectorSize);
      WriteSector s bs d) d;
    Ok (n, d).

(** [Read] and [Write]: at the seek position, which moves on. *)
Definition Read_ (f : OpenFile) (n : Z) (d : D) : res (Z * list Z * OpenFile * D) :=
  '(result, bs, d) ← ReadAt (hdr f) n (seekPosition f) d;
  Ok (result, bs, mkOpenFile (hdr f) (i32 (seekPosition f + result)), d).

Definition Write_ (f : OpenFile) (from : list Z) (n : Z) (d : D) : res (Z * OpenFile * D) :=
  '(result, d) ← WriteAt (hdr f) from n (seekPosition f) d;
  Ok (result, mkOpenFile (hdr f) (i32 (seekPosition f + result)), d).

Definition Length (f : OpenFile) : Z := FileLength (hdr f).

End openfile.
