(* ===== verification/OpenFileProofs.v ===== *)
(** * Open files: reading and writing at any position

    The contents of a file are the bytes of its data sectors, up to its length.
    [ReadAt] returns a part of them and [WriteAt] replaces a part of them, and
    nothing else on the disk, whatever the alignment of the request. *)

From S2P Require Import Prelude Bytes Bitmap Disk DiskProofs OpenFile.

(** ** Lists of equal pieces *)

Section pieces.
Context {A : Type} (s : nat).

Lemma concat_length (l : list (list A)) : Forall (fun x => length x = s) l -> length (concat l) = (length l * s)%nat.
Proof. induction 1 as [|x l Hx _ IH]; [done|]. cbn. rewrite length_app. lia. Qed.

Lemma concat_take (l : list (list A)) k : Forall (fun x => length x = s) l ->
  concat (take k l) = take (k * s) (concat l).
Proof.
  intros HF. revert k. induction HF as [|x l Hx _ IH]; intros k; [rewrite take_nil; cbn; by rewrite take_nil|].
  destruct k as [|k]; [done|]. cbn. rewrite take_app, IH, (take_ge x) by lia. f_equal. f_equal. lia.
Qed.

Lemma concat_drop (l : list (list A)) k : Forall (fun x => length x = s) l ->
  concat (drop k l) = drop (k * s) (concat l).
Proof.
  intros HF. revert k. induction HF as [|x l Hx _ IH]; intros k; [rewrite drop_nil; cbn; by rewrite drop_nil|].
  destruct k as [|k]; [done|]. cbn. rewrite drop_app, IH, (drop_ge x) by lia. cbn. f_equal. lia.
Qed.

Lemma concat_lookup (l : list (list A)) k o : Forall (fun x => length x = s) l -> (o < s)%nat ->
  concat l !! (k * s + o)%nat = l !! k ≫= (.!! o).
Proof.
  intros HF Ho. revert k. induction HF as [|x l Hx _ IH]; intros k; [done|].
  destruct k as [|k]; cbn.
  - rewrite lookup_app_l by lia. done.
  - rewrite lookup_app_r by lia. rewrite <- IH. f_equal. lia.
Qed.

End pieces.

(** ** Layout *)

Section layout.
Context (big : bool).

Lemma ints_bytes xs l : Forall is_i32 xs -> ints big (length xs) (concat (host_bytes big <$> xs) ++ l) = xs.
Proof.
  induction 1 as [|x xs Hx _ IH]; [done|]. cbn. rewrite <- app_assoc, host_int_app by done.
  rewrite (drop_host big x _ 0), drop_0. by rewrite IH.
Qed.

Lemma concat_host_length xs : length (concat (host_bytes big <$> xs)) = (length xs * 4)%nat.
Proof.
  rewrite (concat_length 4); [by rewrite length_fmap|]. apply Forall_fmap, Forall_forall. intros x _. apply host_bytes_length.
Qed.

(** A header that fits its sector. *)
Record fits (h : FileHeader) : Prop := mkFits {
  f_bytes : is_i32 (numBytes h); f_sectors : is_i32 (numSectors h);
  f_length : Z.of_nat (length (dataSectors h)) = NumDirect; f_data : Forall is_i32 (dataSectors h) }.

Lemma hdr_length h : fits h -> length (hdr_bytes big h) = Z.to_nat SectorSize.
Proof.
  intros [_ _ Hl _]. unfold hdr_bytes. rewrite !length_app, concat_host_length, !host_bytes_length.
  unfold NumDirect, SectorSize in *. change (Z.quot (128 - 2 * 4) 4) with 30 in Hl. lia.
Qed.

Lemma hdr_roundtrip h : fits h -> hdr_of_bytes big (hdr_bytes big h) = h.
Proof.
  intros [Hb Hs Hl Hd]. unfold hdr_of_bytes, hdr_bytes. rewrite host_int_app by done.
  rewrite (drop_host _ _ _ 0), drop_0, host_int_app by done.
  change 8%nat with (4 + (4 + 0))%nat. rewrite !drop_host, drop_0. rewrite <- Hl, Nat2Z.id.
  rewrite <- (app_nil_r (concat _)), ints_bytes by done. by destruct h.
Qed.

End layout.

(** ** Reading and writing *)

(** The data sectors of a file. *)
Definition data (h : FileHeader) : list Z := take (Z.to_nat (numSectors h)) (dataSectors h).

(** The bytes of the data sectors, and those of the file, where [sec] is the
    contents of the sectors. *)
Definition fbytes (sec : Z -> list Z) (h : FileHeader) : list Z := concat (sec <$> data h).
Definition contents (sec : Z -> list Z) (h : FileHeader) : list Z :=
  take (Z.to_nat (numBytes h)) (fbytes sec h).

(** The header of a file: as many different sectors as its bytes need. *)
Record hdr_ok (h : FileHeader) : Prop := mkHdrOk {
  h_bytes : 0 <= numBytes h;
  h_sectors : numSectors h = divRoundUp (numBytes h) SectorSize;
  h_direct : numSectors h <= NumDirect;
  h_length : Z.of_nat (length (dataSectors h)) = NumDirect;
  h_ints : Forall is_i32 (dataSectors h);
  h_range : Forall is_sector (data h);
  h_distinct : NoDup (data h) }.

Lemma hdr_ok_fits h : hdr_ok h -> fits h.
Proof.
  intros [H1 H2 H3 H4 H5 _ _]. pose proof (divRoundUp_spec (numBytes h) SectorSize H1 ltac:(done)) as H.
  rewrite <- H2 in H. change NumDirect with 30 in H3. unfold SectorSize in H.
  split; [unfold is_i32, int_min, int_max; lia|unfold is_i32, int_min, int_max; lia|done|done].
Qed.

Section files.
Context {D : Type} `{!SectorStore D} `{!LawfulStore D}.
Context (newchars : Z -> list Z) (newchars_length : forall n, 0 <= n -> length (newchars n) = Z.to_nat n).

Lemma data_length h : hdr_ok h -> Z.of_nat (length (data h)) = numSectors h.
Proof.
  intros [H1 H2 H3 H4 _ _ _]. pose proof (divRoundUp_spec (numBytes h) SectorSize H1 ltac:(done)) as HS.
  rewrite <- H2 in HS. unfold data. rewrite length_take. unfold SectorSize in *. lia.
Qed.

Lemma data_lookup h t : hdr_ok h -> 0 <= t < numSectors h -> exists s,
  data h !! Z.to_nat t = Some s /\ ByteToSector h (t * SectorSize) = Ok s /\ is_sector s.
Proof.
  intros H Ht. pose proof (data_length h H). destruct (lookup_lt_is_Some_2 (data h) (Z.to_nat t)) as [s E]; [lia|].
  exists s. split; [done|]. split; [|by eapply (Forall_lookup_1 _ _ _ _ (h_range _ H))].
  unfold ByteToSector, SectorSize. rewrite Z.quot_mul by lia. apply aget_Ok. split; [lia|].
  unfold data in E. by apply lookup_take_Some in E as [E _].
Qed.

Lemma pieces_sized (sec : Z -> list Z) l :
  (forall n, is_sector n -> length (sec n) = 128%nat) -> Forall is_sector l ->
  Forall (fun x => length x = 128%nat) (sec <$> l).
Proof. intros Hs HF. apply Forall_fmap. eapply Forall_impl; [exact HF|]. intros n Hn. by apply Hs. Qed.

Lemma fbytes_length d h : dok d -> hdr_ok h -> Z.of_nat (length (fbytes (sector d) h)) = numSectors h * 128.
Proof.
  intros Hd H. unfold fbytes. rewrite (concat_length 128), length_fmap.
  - pose proof (data_length h H). lia.
  - apply pieces_sized; [intros; by apply sector_length|apply H].
Qed.

Lemma contents_length d h : dok d -> hdr_ok h -> Z.of_nat (length (contents (sector d) h)) = numBytes h.
Proof.
  intros Hd H. unfold contents. rewrite length_take. pose proof (fbytes_length d h Hd H) as HL.
  pose proof (divRoundUp_spec (numBytes h) SectorSize (h_bytes _ H) ltac:(done)) as HS.
  rewrite <- (h_sectors _ H) in HS. unfold SectorSize in HS. pose proof (h_bytes _ H). lia.
Qed.

(** The sectors of [d'] are those of [d]. *)
Definition same (d d' : D) : Prop := dok d' /\ forall n, is_sector n -> sector d' n = sector d n.

(** The loop that reads sectors [first], ..., [first + c - 1] of the file. *)
Lemma read_loop d h first c buf0 : dok d -> hdr_ok h -> 0 <= first -> first + Z.of_nat c <= numSectors h ->
  Z.of_nat (length buf0) = Z.of_nat c * SectorSize ->
  exists d', for_loop c first (fun i '(buf, d) =>
      s ← ByteToSector h (i * SectorSize);
      '(bs, d) ← ReadSector s d;
      buf ← mem_write buf ((i - first) * SectorSize) bs;
      Ok (buf, d)) (buf0, d) = Ok (take (c * 128) (drop (Z.to_nat first * 128) (fbytes (sector d) h)), d') /\
    same d d'.
Proof.
  intros Hd H Hf Hc Hb. pose proof (fbytes_length d h Hd H) as HL. set (B := fbytes (sector d) h) in *.
  destruct (for_loop_ind (fun i '(buf, d') => same d d' /\
      buf = take (Z.to_nat (i - first) * 128) (drop (Z.to_nat first * 128) B) ++ drop (Z.to_nat (i - first) * 128) buf0)
    c first (fun i '(buf, d) =>
      s ← ByteToSector h (i * SectorSize); '(bs, d) ← ReadSector s d;
      buf ← mem_write buf ((i - first) * SectorSize) bs; Ok (buf, d)) (buf0, d)) as ([buf d'] & -> & HS & ->).
  - rewrite Z.sub_diag. cbn. by rewrite drop_0.
  - intros i [buf d1] Hi ((Hd1 & HS1) & ->). destruct (data_lookup h i H ltac:(lia)) as (s & Es & -> & Hs).
    cbn [mbind res_bind]. destruct (read_law d1 s Hd1 Hs) as (d2 & -> & Hd2 & HS2). cbn [mbind res_bind].
    pose proof (sector_length d1 s Hd1 Hs) as Hsl. rewrite HS1 in * by done. unfold SectorSize in *.
    assert (Hp : take 128 (drop (Z.to_nat i * 128) B) = sector d s).
    { unfold B, fbytes. rewrite <- (concat_drop 128), <- (concat_take 128 _ 1) at 1.
      - rewrite <- fmap_drop, (drop_S _ _ _ Es). cbn. apply app_nil_r.
      - apply Forall_drop, pieces_sized; [intros; by apply sector_length|apply H].
      - apply pieces_sized; [intros; by apply sector_length|apply H]. }
    rewrite mem_write_ok by (rewrite ?length_app, ?length_take, ?length_drop; lia).
    cbn [mbind res_bind]. eexists. split; [reflexivity|]. split.
    + split; [done|]. intros n Hn. rewrite HS2 by done. by apply HS1.
    + set (k := Z.to_nat (i - first)). replace (Z.to_nat (i + 1 - first)) with (S k) by lia.
      replace (Z.to_nat ((i - first) * 128)) with (k * 128)%nat by lia. unfold splice. rewrite <- Hp.
      assert (Hk : length (take (k * 128) (drop (Z.to_nat first * 128) B)) = (k * 128)%nat) by (rewrite length_take, length_drop; lia).
      rewrite take_app_length' by done. rewrite length_take, length_drop.
      replace (min 128 (length B - Z.to_nat i * 128)) with 128%nat by lia.
      rewrite drop_app, Hk, (drop_ge (take _ _)) by lia. cbn [app]. rewrite app_assoc. f_equal.
      * replace (Z.to_nat i * 128)%nat with (Z.to_nat first * 128 + k * 128)%nat by lia. rewrite <- drop_drop.
        replace (S k * 128)%nat with (k * 128 + 128)%nat by lia. by rewrite take_take_drop.
      * rewrite drop_drop. f_equal. lia.
  - exists d'. split; [|done]. do 2 f_equal. replace (Z.to_nat (first + Z.of_nat c - first)) with c by lia.
    rewrite (drop_ge buf0) by (unfold SectorSize in *; lia). by rewrite app_nil_r.
Qed.

(** The sectors a request of [n] bytes at [pos] touches. *)
Lemma request_range h pos n : hdr_ok h -> 0 <= pos -> 0 < n -> pos + n <= numBytes h ->
  let first := firstSector pos in let last := lastSector pos n in
  0 <= first <= last /\ last + 1 <= numSectors h /\ first * 128 <= pos < (first + 1) * 128 /\
  last * 128 < pos + n <= (last + 1) * 128.
Proof.
  intros H Hp Hn Hl. unfold firstSector, lastSector, divRoundDown, SectorSize. cbn zeta.
  pose proof (divRoundUp_spec (numBytes h) SectorSize (h_bytes _ H) ltac:(done)) as HS.
  rewrite <- (h_sectors _ H) in HS. unfold SectorSize in HS. clear -Hp Hn Hl HS.
  rewrite !Z.quot_div_nonneg by lia.
  pose proof (Z.div_mod pos 128 ltac:(lia)). pose proof (Z.mod_pos_bound pos 128 ltac:(lia)).
  pose proof (Z.div_mod (pos + n - 1) 128 ltac:(lia)). pose proof (Z.mod_pos_bound (pos + n - 1) 128 ltac:(lia)).
  lia.
Qed.

(** How many of [n] bytes at [pos] are within the file. *)
Definition within (h : FileHeader) (n pos : Z) : Z := Z.max 0 (Z.min n (numBytes h - pos)).

Lemma clamp_ok h n pos : hdr_ok h -> 0 <= pos -> 0 < n -> pos < numBytes h -> pos + n <= int_max ->
  clamp h n pos = within h n pos /\ 0 < within h n pos <= n /\ pos + within h n pos <= numBytes h.
Proof.
  intros H Hp Hn Hl Hm. unfold clamp, within, FileLength. pose proof (f_bytes _ (hdr_ok_fits h H)) as [_ Hb].
  rewrite i32_id by (unfold is_i32, int_min; lia). case_bool_decide; lia.
Qed.

(** [ReadAt] returns the bytes of the file from [pos] on that are asked for and
    exist. *)
Lemma ReadAt_ok d h n pos : dok d -> hdr_ok h -> 0 <= pos -> pos + n <= int_max ->
  let bs := take (Z.to_nat n) (drop (Z.to_nat pos) (contents (sector d) h)) in
  exists d', ReadAt newchars h n pos d = Ok (within h n pos, bs, d') /\ same d d' /\
    Z.of_nat (length bs) = within h n pos.
Proof.
  intros Hd H Hp Hm bs. pose proof (contents_length d h Hd H) as HC.
  assert (Hlen : Z.of_nat (length bs) = within h n pos).
  { unfold bs, within. rewrite length_take, length_drop. lia. }
  unfold ReadAt. unfold FileLength at 1. destruct (decide (n <= 0 \/ pos >= numBytes h)) as [E|E].
  { rewrite <- bool_decide_or, bool_decide_true by done. unfold within in *.
    assert (Hz : Z.of_nat (length bs) = 0) by lia. exists d. split_and!; [|done..].
    destruct bs; [|cbn in Hz; lia]. do 2 f_equal. f_equal. lia. }
  rewrite <- bool_decide_or, bool_decide_false by done.
  destruct (clamp_ok h n pos H Hp) as (-> & Hw & Hf); [lia..|]. set (w := within h n pos) in *.
  destruct (request_range h pos w H Hp) as (R1 & R2 & R3 & R4); [lia..|].
  set (first := firstSector pos) in *. set (last := lastSector pos w) in *.
  destruct (read_loop d h first (Z.to_nat (1 + last - first)) (newchars ((1 + last - first) * SectorSize)) Hd H)
    as (d' & -> & HS); [lia|lia|rewrite newchars_length; unfold SectorSize; lia|].
  pose proof (fbytes_length d h Hd H) as HL. cbn [mbind res_bind]. unfold SectorSize.
  rewrite mem_read_ok by (rewrite ?length_take, ?length_drop; lia). cbn [mbind res_bind].
  exists d'. split; [|done]. do 3 f_equal. unfold bs, contents.
  rewrite skipn_firstn_comm, take_take, drop_drop, skipn_firstn_comm, take_take.
  replace (Z.to_nat first * 128 + Z.to_nat (pos - first * 128))%nat with (Z.to_nat pos) by lia.
  f_equal. assert (Ew : w = Z.max 0 (Z.min n (numBytes h - pos))) by done. clearbody w. lia.
Qed.

(** ** Writing *)

(** The loop that writes the pieces of [buf] to the sectors of the file. *)
Lemma write_loop d h first c buf : dok d -> hdr_ok h -> 0 <= first -> first + Z.of_nat c <= numSectors h ->
  Z.of_nat (length buf) = Z.of_nat c * SectorSize ->
  exists d', for_loop c first (fun i d =>
      s ← ByteToSector h (i * SectorSize);
      bs ← mem_read buf ((i - first) * SectorSize) (Z.to_nat SectorSize);
      WriteSector s bs d) d = Ok d' /\ dok d' /\
    (forall t s, first <= t < first + Z.of_nat c -> data h !! Z.to_nat t = Some s ->
       sector d' s = take 128 (drop (Z.to_nat (t - first) * 128) buf)) /\
    (forall m, is_sector m -> (forall t, first <= t < first + Z.of_nat c -> data h !! Z.to_nat t <> Some m) ->
       sector d' m = sector d m).
Proof.
  intros Hd H Hf Hc Hb.
  destruct (for_loop_ind (fun i d' => dok d' /\
      (forall t s, first <= t < i -> data h !! Z.to_nat t = Some s ->
         sector d' s = take 128 (drop (Z.to_nat (t - first) * 128) buf)) /\
      (forall m, is_sector m -> (forall t, first <= t < i -> data h !! Z.to_nat t <> Some m) ->
         sector d' m = sector d m))
    c first (fun i d =>
      s ← ByteToSector h (i * SectorSize);
      bs ← mem_read buf ((i - first) * SectorSize) (Z.to_nat SectorSize);
      WriteSector s bs d) d) as (d' & E & HI).
  - split; [done|]. split; [lia|done].
  - intros i d1 Hi (Hd1 & HW & HO). destruct (data_lookup h i H ltac:(lia)) as (s & Es & -> & Hs).
    cbn [mbind res_bind]. unfold SectorSize in *. rewrite mem_read_ok by lia. cbn [mbind res_bind].
    set (bs := take (Z.to_nat 128) (drop (Z.to_nat ((i - first) * 128)) buf)).
    assert (Hbs : length bs = Z.to_nat SectorSize) by (unfold bs, SectorSize; rewrite length_take, length_drop; lia).
    destruct (write_law d1 s bs Hd1 Hs Hbs) as (d2 & E2 & Hd2 & HS). exists d2. split; [exact E2|]. split; [done|]. split.
    + intros t s' Ht Et. destruct (decide (t = i)) as [->|Hne].
      * assert (s' = s) as -> by congruence. rewrite HS, decide_True by done. unfold bs.
        change (Z.to_nat 128) with 128%nat. f_equal. f_equal. lia.
      * rewrite HS by (by eapply (Forall_lookup_1 _ _ _ _ (h_range _ H))). rewrite decide_False.
        -- apply HW; [lia|done].
        -- intros ->. pose proof (NoDup_lookup _ _ _ _ (h_distinct _ H) Et Es). lia.
    + intros m Hm Hall. rewrite HS by done. rewrite decide_False.
      * apply HO; [done|]. intros t Ht. apply Hall. lia.
      * intros ->. apply (Hall i); [lia|done].
  - exists d'. split; [exact E|]. exact HI.
Qed.

Lemma preload_ok d h buf addr pos : dok d -> hdr_ok h -> 0 <= pos -> pos + 128 <= int_max ->
  0 <= addr -> addr + 128 <= Z.of_nat (length buf) ->
  exists d', preload newchars h buf addr pos d =
      Ok (splice buf (Z.to_nat addr) (take 128 (drop (Z.to_nat pos) (contents (sector d) h))), d') /\ same d d'.
Proof.
  intros Hd H Hp Hm Ha Hb. destruct (ReadAt_ok d h SectorSize pos Hd H Hp Hm) as (d' & E & HS & HL).
  unfold preload. rewrite E. cbn [mbind res_bind]. change (Z.to_nat SectorSize) with 128%nat in *.
  rewrite mem_write_ok by (rewrite ?length_take; lia). cbn [mbind res_bind]. by exists d'.
Qed.

Lemma contents_lookup d h (i : nat) : dok d -> hdr_ok h -> Z.of_nat i < numBytes h ->
  contents (sector d) h !! i = data h !! (i / 128)%nat ≫= fun s => sector d s !! (i mod 128)%nat.
Proof.
  intros Hd H Hi. unfold contents, fbytes. rewrite lookup_take_lt by lia.
  pose proof (Nat.div_mod i 128 ltac:(lia)) as Ei. rewrite Ei at 1.
  rewrite Nat.mul_comm, (concat_lookup 128).
  - rewrite list_lookup_fmap. by destruct (data h !! (i / 128)%nat).
  - apply pieces_sized; [intros; by apply sector_length|apply H].
  - pose proof (Nat.mod_upper_bound i 128). lia.
Qed.

(** The buffer of [WriteAt] before the sectors are written: new bytes inside the
    request, the file around them. *)
Lemma buffer_spec (C from buf : list Z) (pos w first last : Z) (j : nat) :
  0 <= first <= last -> first * 128 <= pos < (first + 1) * 128 -> last * 128 < pos + w <= (last + 1) * 128 ->
  0 < w -> pos + w <= Z.of_nat (length C) -> w <= Z.of_nat (length from) ->
  Z.of_nat (length buf) = (1 + last - first) * 128 ->
  let p t := take 128 (drop (Z.to_nat (t * 128)) C) in
  let fa := bool_decide (pos = first * 128) in
  let la := bool_decide (pos + w = (last + 1) * 128) in
  let b1 := if negb fa then splice buf 0 (p first) else buf in
  let b2 := if negb la && (bool_decide (first <> last) || fa)
            then splice b1 (Z.to_nat ((last - first) * 128)) (p last) else b1 in
  length b2 = length buf /\
  (Z.of_nat j < (1 + last - first) * 128 -> first * 128 + Z.of_nat j < Z.of_nat (length C) ->
   splice b2 (Z.to_nat (pos - first * 128)) (take (Z.to_nat w) from) !! j =
   splice C (Z.to_nat pos) (take (Z.to_nat w) from) !! Z.to_nat (first * 128 + Z.of_nat j)).
Proof.
  intros H1 H2 H3 Hw HC Hf Hb p fa la b1 b2.
  assert (Hp : forall t, 0 <= t -> Z.of_nat (length (p t)) = Z.min 128 (Z.max 0 (Z.of_nat (length C) - t * 128))).
  { intros t Ht. unfold p. rewrite length_take, length_drop. lia. }
  assert (Hpl : forall t (o : nat), 0 <= t -> (o < 128)%nat -> p t !! o = C !! Z.to_nat (t * 128 + Z.of_nat o)).
  { intros t o Ht Ho. unfold p. rewrite lookup_take_lt, lookup_drop by lia. f_equal. lia. }
  pose proof (Hp first ltac:(lia)). pose proof (Hp last ltac:(lia)).
  assert (L1 : length b1 = length buf) by (unfold b1; destruct (negb fa); [apply length_splice; lia|done]).
  assert (L2 : length b2 = length buf).
  { unfold b2. destruct (negb la && _); [|done]. rewrite length_splice; lia. }
  split; [done|]. intros Hj HjC.
  assert (Lf : length (take (Z.to_nat w) from) = Z.to_nat w) by (rewrite length_take; lia).
  destruct (decide (pos <= first * 128 + Z.of_nat j < pos + w)) as [Hin|Hout].
  - rewrite !lookup_splice_in by lia. f_equal. lia.
  - rewrite !lookup_splice_out by lia.
    assert (E1 : first * 128 + Z.of_nat j < pos -> b1 !! j = C !! Z.to_nat (first * 128 + Z.of_nat j)).
    { intros Hlt. unfold b1, fa. rewrite bool_decide_false by lia. cbn [negb].
      rewrite lookup_splice_in by lia. rewrite Nat.sub_0_r. apply Hpl; lia. }
    unfold b2. destruct (negb la && (bool_decide (first <> last) || fa)) eqn:Ec.
    + apply andb_true_iff in Ec as [_ Ec]. destruct (decide (last * 128 <= first * 128 + Z.of_nat j)) as [Hl|Hl].
      * rewrite lookup_splice_in by lia. rewrite Hpl by lia. f_equal. lia.
      * rewrite lookup_splice_out by lia. apply E1. lia.
    + destruct (decide (first * 128 + Z.of_nat j < pos)) as [Hlt|Hge]; [by apply E1|].
      assert (la = false) as Ela by (apply bool_decide_eq_false; lia). rewrite Ela in Ec. cbn [negb andb] in Ec.
      apply orb_false_iff in Ec as [Ec Efa]. apply bool_decide_eq_false in Ec.
      unfold b1. rewrite Efa. cbn [negb]. rewrite lookup_splice_in by lia. rewrite Nat.sub_0_r. apply Hpl; lia.
Qed.

Lemma contents_ext sec sec' h : hdr_ok h -> (forall n, is_sector n -> sec' n = sec n) -> contents sec' h = contents sec h.
Proof.
  intros H HS. unfold contents, fbytes. f_equal. f_equal. apply list_fmap_ext. intros i n En. apply HS.
  by eapply (Forall_lookup_1 _ _ _ _ (h_range _ H)).
Qed.

Lemma max_size h : hdr_ok h -> numBytes h <= 3840.
Proof.
  intros H. pose proof (divRoundUp_spec (numBytes h) SectorSize (h_bytes _ H) ltac:(done)) as HS.
  rewrite <- (h_sectors _ H) in HS. pose proof (h_direct _ H) as H3. change NumDirect with 30 in H3.
  unfold SectorSize in HS. lia.
Qed.

(** One of the two steps of [WriteAt] that fill the buffer. *)
Lemma maybe_preload (c : bool) d0 d h buf addr t : dok d0 -> same d0 d -> hdr_ok h ->
  0 <= t -> t * 128 <= numBytes h -> 0 <= addr -> addr + 128 <= Z.of_nat (length buf) ->
  exists d', (if c then preload newchars h buf addr (t * SectorSize) d else Ok (buf, d)) =
      Ok (if c then splice buf (Z.to_nat addr) (take 128 (drop (Z.to_nat (t * 128)) (contents (sector d0) h))) else buf, d') /\
    same d0 d'.
Proof.
  intros Hd0 [Hd S0] H Ht Hl Ha Hb. pose proof (max_size h H). destruct c; [|by exists d].
  destruct (preload_ok d h buf addr (t * SectorSize) Hd H) as (d' & -> & Hd' & S'); [unfold SectorSize, int_max; lia..|].
  exists d'. unfold SectorSize. split.
  - do 4 f_equal. f_equal. by apply contents_ext.
  - split; [done|]. intros n Hn. rewrite S' by done. by apply S0.
Qed.

(** The file after the write loop. *)
Lemma written_contents d d' h buf C' first c : dok d -> dok d' -> hdr_ok h -> 0 <= first ->
  Z.of_nat (length C') = numBytes h -> length buf = (c * 128)%nat ->
  (forall t s, first <= t < first + Z.of_nat c -> data h !! Z.to_nat t = Some s ->
     sector d' s = take 128 (drop (Z.to_nat (t - first) * 128) buf)) ->
  (forall m, is_sector m -> (forall t, first <= t < first + Z.of_nat c -> data h !! Z.to_nat t <> Some m) ->
     sector d' m = sector d m) ->
  (forall j : nat, (j < c * 128)%nat -> first * 128 + Z.of_nat j < numBytes h ->
     buf !! j = C' !! Z.to_nat (first * 128 + Z.of_nat j)) ->
  (forall i : nat, Z.of_nat i < numBytes h -> ~ (first * 128 <= Z.of_nat i < (first + Z.of_nat c) * 128) ->
     C' !! i = contents (sector d) h !! i) ->
  contents (sector d') h = C'.
Proof.
  intros Hd Hd' H Hf HL Hb HW HO Hin Hout. apply list_eq. intros i. destruct (decide (Z.of_nat i < numBytes h)) as [Hi|Hi].
  2:{ rewrite !lookup_ge_None_2; [done|lia|]. pose proof (contents_length d' h Hd' H). lia. }
  pose proof (contents_lookup d h i Hd H Hi) as EC. rewrite contents_lookup by done.
  pose proof (Nat.div_mod i 128 ltac:(lia)) as Ei. pose proof (Nat.mod_upper_bound i 128 ltac:(lia)) as Ho.
  set (t := (i / 128)%nat) in *. set (o := (i mod 128)%nat) in *. clearbody t o.
  destruct (data_lookup h (Z.of_nat t) H) as (s & Es & _ & Hs).
  { pose proof (divRoundUp_spec (numBytes h) SectorSize (h_bytes _ H) ltac:(done)) as HS.
    rewrite <- (h_sectors _ H) in HS. unfold SectorSize in HS. lia. }
  rewrite Nat2Z.id in Es. rewrite Es. cbn.
  destruct (decide (first <= Z.of_nat t < first + Z.of_nat c)) as [Ht|Ht].
  - rewrite (HW (Z.of_nat t) s Ht) by (by rewrite Nat2Z.id). rewrite lookup_take_lt, lookup_drop by lia.
    rewrite Hin by lia. f_equal. lia.
  - rewrite HO; [|done|].
    + rewrite Hout, EC, Es by lia. done.
    + intros t' Ht' Et'. pose proof (NoDup_lookup _ _ _ _ (h_distinct _ H) Es Et'). lia.
Qed.

(** [WriteAt] replaces the bytes of the file that it is asked to, as far as the
    file goes, and no sector of another file. *)
Lemma WriteAt_ok d h from n pos : dok d -> hdr_ok h -> 0 <= pos -> pos + n <= int_max -> n <= Z.of_nat (length from) ->
  let w := within h n pos in
  exists d', WriteAt newchars h from n pos d = Ok (w, d') /\ dok d' /\
    contents (sector d') h = splice (contents (sector d) h) (Z.to_nat pos) (take (Z.to_nat w) from) /\
    (forall m, is_sector m -> m ∉ data h -> sector d' m = sector d m).
Proof.
  intros Hd H Hp Hm Hf w. unfold WriteAt. unfold FileLength at 1.
  destruct (decide (n <= 0 \/ pos >= numBytes h)) as [E|E].
  { rewrite <- bool_decide_or, bool_decide_true by done. exists d.
    assert (Ew : w = 0) by (unfold w, within; lia). rewrite Ew. split_and!; [done|done| |done].
    symmetry. apply splice_nil. }
  rewrite <- bool_decide_or, bool_decide_false by done.
  destruct (clamp_ok h n pos H Hp) as (-> & Hw & Hl); [lia..|]. fold w in Hw, Hl |- *.
  destruct (request_range h pos w H Hp) as (R1 & R2 & R3 & R4); [lia..|].
  set (first := firstSector pos) in *. set (last := lastSector pos w) in *. unfold SectorSize.
  set (buf := newchars _). assert (Lb : Z.of_nat (length buf) = (1 + last - first) * 128).
  { unfold buf, SectorSize. rewrite newchars_length; lia. }
  pose proof (contents_length d h Hd H) as HC. set (C := contents (sector d) h) in *.
  destruct (maybe_preload (negb (bool_decide (pos = first * 128))) d d h buf 0 first Hd ltac:(done) H) as (d1 & E1 & S1); [lia..|].
  unfold SectorSize in E1. rewrite E1. cbn [mbind res_bind]. fold C in E1 |- *. clear E1. set (b1 := if negb _ then _ else buf).
  assert (L1 : length b1 = length buf).
  { unfold b1. destruct (negb _); [|done]. apply length_splice. rewrite length_take. lia. }
  destruct (maybe_preload (negb (bool_decide (pos + w = (last + 1) * 128)) && (bool_decide (first <> last) || bool_decide (pos = first * 128)))
    d d1 h b1 ((last - first) * 128) last Hd S1 H) as (d2 & E2 & S2); [lia..|].
  unfold SectorSize in E2. rewrite E2. cbn [mbind res_bind]. fold C in E2 |- *. clear E2.
  destruct S2 as [Hd2 S2].
  match goal with |- context [mem_write ?b _ _] => set (b2 := b) end.
  assert (HB := fun j => buffer_spec C from buf pos w first last j R1 R3 R4 ltac:(lia) ltac:(lia) ltac:(lia) Lb).
  cbv zeta in HB. change (splice buf 0) with (splice buf (Z.to_nat 0)) in HB.
  change (forall j, length b2 = length buf /\
    (Z.of_nat j < (1 + last - first) * 128 -> first * 128 + Z.of_nat j < Z.of_nat (length C) ->
     splice b2 (Z.to_nat (pos - first * 128)) (take (Z.to_nat w) from) !! j =
     splice C (Z.to_nat pos) (take (Z.to_nat w) from) !! Z.to_nat (first * 128 + Z.of_nat j))) in HB.
  destruct (HB O) as [L2 _]. assert (Lw : length (take (Z.to_nat w) from) = Z.to_nat w) by (rewrite length_take; lia).
  rewrite mem_read_ok, drop_0 by lia. cbn [mbind res_bind].
  rewrite mem_write_ok by lia. cbn [mbind res_bind]. set (b3 := splice b2 _ _).
  assert (L3 : length b3 = length buf) by (unfold b3; rewrite length_splice; lia).
  destruct (write_loop d2 h first (Z.to_nat (1 + last - first)) b3 Hd2 H) as (d3 & E3 & Hd3 & HW & HO); [lia|lia|unfold SectorSize; lia|].
  unfold SectorSize in E3. rewrite E3. cbn [mbind res_bind]. exists d3. split; [done|]. split; [done|]. split.
  - apply (written_contents d d3 h b3 _ first (Z.to_nat (1 + last - first))); try done; try lia.
    + rewrite length_splice; lia.
    + intros m Hm' Ht. rewrite HO by done. by apply S2.
    + intros j Hj Hj'. apply HB; lia.
    + intros i Hi Hn. rewrite lookup_splice_out by lia. done.
  - intros m Hm' Hin. rewrite HO; [by apply S2|done|]. intros t _ Et. apply Hin. by eapply list_elem_of_lookup_2.
Qed.

End files.
