(* ===== verification/FileSys.v ===== *)
(** * filesys/pbitmap.cc, filesys/directory.cc, filesys/filesys.cc: the file system

    The free map and the directory are files, whose headers are in sectors 0 and
    1.  Their objects are stored by copying their memory: the words of the
    bitmap, and the table of directory entries with the layout of the usual ABI
    (a [bool] byte, three bytes of padding, the sector, ten bytes of name, two
    bytes of padding).  A C string is the list of its bytes; bytes from the first
    zero on do not belong to it. *)

From S2P Require Import Prelude Bytes Bitmap Disk OpenFile.

(** ** C strings *)

(** [!strncmp(a, b, n)] *)
Fixpoint strneq (n : nat) (a b : list Z) : bool :=
  match n with
  | O => true
  | S n' =>
      let x := default 0 (head a) in
      let y := default 0 (head b) in
      bool_decide (x = y) && (bool_decide (x = 0) || strneq n' (tail a) (tail b))
  end.

(** The [n] bytes that [strncpy(_, src, n)] writes. *)
Fixpoint strncpy (n : nat) (src : list Z) : list Z :=
  match n with
  | O => []
  | S n' =>
      let x := default 0 (head src) in
      if bool_decide (x = 0) then replicate (S n') 0 else x :: strncpy n' (tail src)
  end.

(** ** Directories *)

Definition FileNameMaxLen : Z := 9.

Record DirectoryEntry : Type := mkEntry {
  inUse : bool; pad : list Z; sector : Z; name : list Z; pad_end : list Z }.

(** [tableSize] is the length of the table. *)
Abbreviation Directory := (list DirectoryEntry).

Section filesys.
Context {D : Type} `{!SectorStore D}.
Context (big : bool) (newchars : Z -> list Z).

(** The memory of a [DirectoryEntry]. *)
Definition entry_bytes (e : DirectoryEntry) : list Z :=
  Z.b2z (inUse e) :: pad e ++ host_bytes big (sector e) ++ name e ++ pad_end e.

Definition entry_of_bytes (bs : list Z) : DirectoryEntry :=
  mkEntry (negb (bool_decide (default 0 (head bs) = 0))) (take 3 (drop 1 bs)) (host_int big (take 4 (drop 4 bs)))
    (take 10 (drop 8 bs)) (take 2 (drop 18 bs)).

Definition EntrySize : Z := 20.

Fixpoint entries (n : nat) (bs : list Z) : list DirectoryEntry :=
  match n with
  | O => []
  | S n' => entry_of_bytes (take (Z.to_nat EntrySize) bs) :: entries n' (drop (Z.to_nat EntrySize) bs)
  end.

Definition dir_bytes (t : Directory) : list Z := concat (entry_bytes <$> t).

(** The constructor; [t] is the new array. *)
Definition newDirectory (t : list DirectoryEntry) (size : Z) : Directory :=
  (fun e => mkEntry false (pad e) (sector e) (name e) (pad_end e)) <$> take (Z.to_nat size) t.

Definition Directory_FetchFrom (t : Directory) (file : OpenFile) (d : D) : res (Directory * D) :=
  '(_, bs, d) ← ReadAt newchars (hdr file) (Z.of_nat (length t) * EntrySize) 0 d;
  mem ← mem_write (dir_bytes t) 0 bs;
  Ok (entries (length t) mem, d).

Definition Directory_WriteBack (t : Directory) (file : OpenFile) (d : D) : res D :=
  '(_, d) ← WriteAt newchars (hdr file) (dir_bytes t) (Z.of_nat (length t) * EntrySize) 0 d; Ok d.

Fixpoint index_loop (i : Z) (t : Directory) (nm : list Z) : Z :=
  match t with
  | [] => -1
  | e :: t' => if inUse e && strneq (Z.to_nat FileNameMaxLen) (name e) nm then i else index_loop (i + 1) t' nm
  end.

Definition FindIndex (t : Directory) (nm : list Z) : Z := index_loop 0 t nm.

Definition Find (t : Directory) (nm : list Z) : res Z :=
  let i := FindIndex t nm in
  if bool_decide (i <> -1) then e ← aget t i; Ok (sector e) else Ok (-1).

(** The loop of [Add]: the first entry that is not in use is filled in. *)
Fixpoint add_loop (t : Directory) (nm : list Z) (newSector : Z) : option Directory :=
  match t with
  | [] => None
  | e :: t' =>
      if inUse e then (e ::.) <$> add_loop t' nm newSector
      else Some (mkEntry true (pad e) newSector
             (strncpy (Z.to_nat FileNameMaxLen) nm ++ drop (Z.to_nat FileNameMaxLen) (name e)) (pad_end e) :: t')
  end.

Definition Add (t : Directory) (nm : list Z) (newSector : Z) : bool * Directory :=
  if bool_decide (FindIndex t nm <> -1) then (false, t)
  else match add_loop t nm newSector with Some t' => (true, t') | None => (false, t) end.

Definition Remove (t : Directory) (nm : list Z) : res (bool * Directory) :=
  let i := FindIndex t nm in
  if bool_decide (i = -1) then Ok (false, t)
  else
    e ← aget t i;
    t ← aset t i (mkEntry false (pad e) (sector e) (name e) (pad_end e)); Ok (true, t).

(** The names printed, one per line. *)
Definition List (t : Directory) : list (list Z) := name <$> filter (fun e => inUse e = true) t.

(** ** Persistent bitmaps *)

Definition map_bytes (bm : BitmapImpl.Bitmap) : list Z := concat (host_bytes big <$> BitmapImpl.map bm).

Definition map_words (n : nat) (bs : list Z) : list Z := u32 <$> ints big n bs.

Definition Bitmap_FetchFrom (bm : BitmapImpl.Bitmap) (file : OpenFile) (d : D) : res (BitmapImpl.Bitmap * D) :=
  '(_, bs, d) ← ReadAt newchars (hdr file) (BitmapImpl.numWords bm * 4) 0 d;
  mem ← mem_write (map_bytes bm) 0 bs;
  Ok (BitmapImpl.mkBitmap (BitmapImpl.numBits bm) (BitmapImpl.numWords bm)
        (map_words (length (BitmapImpl.map bm)) mem), d).

Definition Bitmap_WriteBack (bm : BitmapImpl.Bitmap) (file : OpenFile) (d : D) : res D :=
  '(_, d) ← WriteAt newchars (hdr file) (map_bytes bm) (BitmapImpl.numWords bm * 4) 0 d; Ok d.

(** [PersistentBitmap(file, numItems)]. *)
Definition newPersistentBitmap (file : OpenFile) (numItems : Z) (d : D) : res (BitmapImpl.Bitmap * D) :=
  bm ← BitmapImpl.newBitmap numItems; Bitmap_FetchFrom bm file d.

(** ** The file system *)

Definition FreeMapSector : Z := 0.
Definition DirectorySector : Z := 1.
Definition FreeMapFileSize : Z := Z.quot NumSectors BitmapImpl.BitsInByte.
Definition NumDirEntries : Z := 10.
Definition DirectoryFileSize : Z := EntrySize * NumDirEntries.

(** What a [new FileHeader] and a [new DirectoryEntry[NumDirEntries]] contain. *)
Context (newhdr : FileHeader) (newentries : list DirectoryEntry).

Record FileSystem : Type := mkFileSystem { freeMapFile : OpenFile; directoryFile : OpenFile }.

(** The constructor with [format] false: open the two files. *)
Definition mount (d : D) : res (FileSystem * D) :=
  '(mf, d) ← newOpenFile big FreeMapSector d;
  '(df, d) ← newOpenFile big DirectorySector d;
  Ok (mkFileSystem mf df, d).

(** The constructor. *)
Definition newFileSystem (format : bool) (d : D) : res (FileSystem * D) :=
  if format then
    freeMap ← BitmapImpl.newBitmap NumSectors;
    let directory := newDirectory newentries NumDirEntries in
    freeMap ← BitmapImpl.Mark freeMap FreeMapSector;
    freeMap ← BitmapImpl.Mark freeMap DirectorySector;
    '(ok, mapHdr, freeMap) ← Allocate newhdr freeMap FreeMapFileSize;
    _ ← ASSERT ok;
    '(ok, dirHdr, freeMap) ← Allocate newhdr freeMap DirectoryFileSize;
    _ ← ASSERT ok;
    d ← WriteBack big mapHdr FreeMapSector d;
    d ← WriteBack big dirHdr DirectorySector d;
    '(fs, d) ← mount d;
    d ← Bitmap_WriteBack freeMap (freeMapFile fs) d;
    d ← Directory_WriteBack directory (directoryFile fs) d;
    Ok (fs, d)
  else mount d.

Definition Create (fs : FileSystem) (nm : list Z) (initialSize : Z) (d : D) : res (bool * D) :=
  '(directory, d) ← Directory_FetchFrom (newDirectory newentries NumDirEntries) (directoryFile fs) d;
  found ← Find directory nm;
  if bool_decide (found <> -1) then Ok (false, d)
  else
    '(freeMap, d) ← newPersistentBitmap (freeMapFile fs) NumSectors d;
    '(sector, freeMap) ← BitmapImpl.FindAndSet freeMap;
    if bool_decide (sector = -1) then Ok (false, d)
    else
      let '(added, directory) := Add directory nm sector in
      if negb added then Ok (false, d)
      else
        '(ok, h, freeMap) ← Allocate newhdr freeMap initialSize;
        if negb ok then Ok (false, d)
        else
          d ← WriteBack big h sector d;
          d ← Directory_WriteBack directory (directoryFile fs) d;
          d ← Bitmap_WriteBack freeMap (freeMapFile fs) d;
          Ok (true, d).

Definition Open (fs : FileSystem) (nm : list Z) (d : D) : res (option OpenFile * D) :=
  '(directory, d) ← Directory_FetchFrom (newDirectory newentries NumDirEntries) (directoryFile fs) d;
  sector ← Find directory nm;
  if bool_decide (sector >= 0) then '(f, d) ← newOpenFile big sector d; Ok (Some f, d) else Ok (None, d).

Definition FileSystem_Remove (fs : FileSystem) (nm : list Z) (d : D) : res (bool * D) :=
  '(directory, d) ← Directory_FetchFrom (newDirectory newentries NumDirEntries) (directoryFile fs) d;
  sector ← Find directory nm;
  if bool_decide (sector = -1) then Ok (false, d)
  else
    '(fileHdr, d) ← FetchFrom big sector d;
    '(freeMap, d) ← newPersistentBitmap (freeMapFile fs) NumSectors d;
    freeMap ← Deallocate fileHdr freeMap;
    freeMap ← BitmapImpl.Clear freeMap sector;
    '(_, directory) ← Remove directory nm;
    d ← Bitmap_WriteBack freeMap (freeMapFile fs) d;
    d ← Directory_WriteBack directory (directoryFile fs) d;
    Ok (true, d).

Definition FileSystem_List (fs : FileSystem) (d : D) : res (list (list Z) * D) :=
  '(directory, d) ← Directory_FetchFrom (newDirectory newentries NumDirEntries) (directoryFile fs) d;
  Ok (List directory, d).

End filesys.
