(* ===== verification/FileSysProofs.v ===== *)
(** * Directories, the allocation of sectors, and their layout on disk

    Names, the table of a directory, the headers and the bits that [Allocate] and
    [Deallocate] produce, and the round trips of the objects stored in files. *)

From S2P Require Import Prelude Bytes Words Bitmap BitmapProofs Disk DiskProofs OpenFile OpenFileProofs FileSys.

(** ** Names *)

(** The first [n] bytes of a C string. *)
Fixpoint cstr (n : nat) (a : list Z) : list Z :=
  match n, a with
  | S n', x :: a' => if bool_decide (x = 0) then [] else x :: cstr n' a'
  | _, _ => []
  end.

Lemma strneq_cstr n a b : strneq n a b = bool_decide (cstr n a = cstr n b).
Proof.
  revert a b. induction n as [|n IH]; intros a b; [done|]. cbn [strneq]. rewrite IH.
  destruct a as [|x a], b as [|y b]; cbn.
  - by destruct n.
  - case_bool_decide as E; [subst; by destruct n|]. symmetry. rewrite (bool_decide_false (y = 0)) by congruence.
    by apply bool_decide_eq_false.
  - case_bool_decide as E; [subst; by destruct n|]. cbn. symmetry. by apply bool_decide_eq_false.
  - destruct (decide (x = y)) as [->|Hxy].
    + rewrite (bool_decide_true (y = y)) by done. destruct (decide (y = 0)) as [->|Hy]; [done|].
      rewrite !(bool_decide_false (y = 0)) by done. cbn. apply bool_decide_ext. split; [by intros ->|by intros [= ->]].
    + rewrite (bool_decide_false (x = y)) by done. cbn [andb]. symmetry. apply bool_decide_eq_false.
      repeat case_bool_decide; naive_solver.
Qed.

Lemma strncpy_length n src : length (strncpy n src) = n.
Proof.
  revert src. induction n as [|n IH]; intros src; [done|]. cbn [strncpy]. case_bool_decide; [apply length_replicate|].
  cbn. by rewrite IH.
Qed.

Lemma strncpy_cstr n src l : cstr n (strncpy n src ++ l) = cstr n src.
Proof.
  revert src. induction n as [|n IH]; intros src; [done|]. destruct src as [|x src]; cbn [strncpy head default tail from_option id].
  - rewrite bool_decide_true by done. done.
  - case_bool_decide as E; cbn.
    + by rewrite (bool_decide_true (x = 0)).
    + rewrite bool_decide_false by done. by rewrite IH.
Qed.

Definition key (nm : list Z) : list Z := cstr (Z.to_nat FileNameMaxLen) nm.

(** ** Directories *)

Definition live (t : Directory) : list DirectoryEntry := filter (fun e => inUse e = true) t.
Definition names (t : Directory) : list (list Z) := (fun e => key (name e)) <$> live t.

#[global] Arguments live : simpl never.

Lemma live_cons e t : live (e :: t) = if inUse e then e :: live t else live t.
Proof.
  unfold live. destruct (inUse e) eqn:E; [by rewrite filter_cons_True|by rewrite filter_cons_False by congruence].
Qed.

Lemma live_app t t' : live (t ++ t') = live t ++ live t'.
Proof. apply filter_app. Qed.

Lemma live_in t e : e ∈ live t <-> inUse e = true /\ e ∈ t.
Proof. unfold live. by rewrite list_elem_of_filter. Qed.

Lemma index_loop_spec i t nm : 0 <= i ->
  (index_loop i t nm = -1 /\ key nm ∉ names t) \/
  (exists j e, index_loop i t nm = i + Z.of_nat j /\ t !! j = Some e /\ inUse e = true /\ key (name e) = key nm).
Proof.
  revert i. induction t as [|e t IH]; intros i Hi; [left; split; [done|apply not_elem_of_nil]|].
  cbn [index_loop]. rewrite strneq_cstr. fold (key (name e)) (key nm). unfold names. rewrite live_cons.
  destruct (inUse e) eqn:Eu; cbn [andb].
  - case_bool_decide as Ek; [right; exists O, e; split_and!; [lia|done..]|].
    destruct (IH (i + 1) ltac:(lia)) as [[-> Hn]|(j & e' & -> & H)].
    + left. split; [done|]. cbn. rewrite not_elem_of_cons. done.
    + right. exists (S j), e'. split; [lia|done].
  - destruct (IH (i + 1) ltac:(lia)) as [[-> Hn]|(j & e' & -> & H)]; [by left|].
    right. exists (S j), e'. split; [lia|done].
Qed.

Lemma FindIndex_spec t nm :
  (FindIndex t nm = -1 /\ key nm ∉ names t) \/
  (exists j e, FindIndex t nm = Z.of_nat j /\ t !! j = Some e /\ inUse e = true /\ key (name e) = key nm).
Proof. apply (index_loop_spec 0 t nm). lia. Qed.

(** What a name is found to be. *)
Lemma Find_spec t nm : Forall (fun e => 0 <= sector e) (live t) ->
  (Find t nm = Ok (-1) /\ key nm ∉ names t) \/
  (exists e, Find t nm = Ok (sector e) /\ e ∈ live t /\ 0 <= sector e /\ key (name e) = key nm).
Proof.
  intros HF. unfold Find. destruct (FindIndex_spec t nm) as [[-> H]|(j & e & -> & Ej & Eu & Ek)].
  - left. by rewrite bool_decide_false by (intros ?; done).
  - right. rewrite bool_decide_true by lia. rewrite (aget_lookup _ _ _ Ej). exists e.
    assert (He : e ∈ live t) by (apply live_in; split; [done|by eapply list_elem_of_lookup_2]).
    split_and!; try done. rewrite Forall_forall in HF. by apply HF.
Qed.

(** The entry that [Add] fills in. *)
Definition filled (e : DirectoryEntry) (nm : list Z) (s : Z) : DirectoryEntry :=
  mkEntry true (pad e) s (strncpy (Z.to_nat FileNameMaxLen) nm ++ drop (Z.to_nat FileNameMaxLen) (name e)) (pad_end e).

Lemma filled_key e nm s : key (name (filled e nm s)) = key nm.
Proof. apply strncpy_cstr. Qed.

Lemma add_loop_spec t nm s :
  match add_loop t nm s with
  | None => length (live t) = length t
  | Some t' => exists t1 e t2, t = t1 ++ e :: t2 /\ inUse e = false /\ t' = t1 ++ filled e nm s :: t2
  end.
Proof.
  induction t as [|e t IH]; [done|]. cbn [add_loop]. rewrite live_cons. destruct (inUse e) eqn:Eu.
  - destruct (add_loop t nm s) as [t'|]; cbn; [|by rewrite IH].
    destruct IH as (t1 & e' & t2 & -> & Eu' & ->). by exists (e :: t1), e', t2.
  - by exists [], e, t.
Qed.

Lemma live_fill t1 e t2 nm s : inUse e = false ->
  live (t1 ++ filled e nm s :: t2) ≡ₚ filled e nm s :: live (t1 ++ e :: t2).
Proof.
  intros Eu. rewrite !live_app, !live_cons, Eu. cbn. by rewrite Permutation_middle.
Qed.

Lemma live_length t : (length (live t) <= length t)%nat.
Proof. apply length_filter. Qed.

Lemma live_full t1 e t2 : inUse e = false -> (length (live (t1 ++ e :: t2)) < length (t1 ++ e :: t2))%nat.
Proof.
  intros Eu. rewrite live_app, live_cons, Eu, !length_app. cbn. pose proof (live_length t1). pose proof (live_length t2). lia.
Qed.

Definition freed (e : DirectoryEntry) : DirectoryEntry := mkEntry false (pad e) (sector e) (name e) (pad_end e).

Lemma live_free t j e : t !! j = Some e -> inUse e = true -> live t ≡ₚ e :: live (<[j := freed e]> t).
Proof.
  intros Ej Eu. rewrite insert_take_drop by (by eapply lookup_lt_Some). rewrite <- (take_drop_middle t j e Ej) at 1.
  rewrite !live_app, !live_cons, Eu. cbn. by rewrite Permutation_middle.
Qed.

(** [Remove] of a name that is in the directory. *)
Lemma Remove_spec t nm : key nm ∈ names t -> exists j e,
  Remove t nm = Ok (true, <[j := freed e]> t) /\ t !! j = Some e /\ inUse e = true /\ key (name e) = key nm.
Proof.
  intros Hin. unfold Remove. destruct (FindIndex_spec t nm) as [[_ H]|(j & e & -> & Ej & Eu & Ek)]; [done|].
  exists j, e. rewrite bool_decide_false by lia. rewrite (aget_lookup _ _ _ Ej). cbn [mbind res_bind].
  rewrite aset_in_range by (pose proof (lookup_lt_Some _ _ _ Ej); lia). by rewrite Nat2Z.id.
Qed.

(** ** Layout *)

Section layout.
Context (big : bool).

Record entry_wf (e : DirectoryEntry) : Prop := mkEntryWf {
  e_pad : length (pad e) = 3%nat; e_sector : is_i32 (sector e);
  e_name : length (name e) = 10%nat; e_end : length (pad_end e) = 2%nat }.

Lemma entry_length e : entry_wf e -> length (entry_bytes big e) = 20%nat.
Proof.
  intros [H1 _ H2 H3]. unfold entry_bytes. cbn. rewrite !length_app, host_bytes_length, H1, H2, H3. done.
Qed.

Lemma entry_roundtrip e : entry_wf e -> entry_of_bytes big (entry_bytes big e) = e.
Proof.
  intros [H1 Hs H2 H3]. destruct e as [u p s nm pe]. cbn [pad sector name pad_end] in *.
  unfold entry_of_bytes, entry_bytes. cbn [inUse pad sector name pad_end].
  set (L := p ++ host_bytes big s ++ nm ++ pe).
  assert (E1 : take 3 L = p) by (by apply take_app_length').
  assert (E2 : drop 3 L = host_bytes big s ++ nm ++ pe) by (by apply drop_app_length').
  assert (E3 : drop 7 L = nm ++ pe).
  { change 7%nat with (3 + 4)%nat. rewrite <- drop_drop, E2. apply drop_app_length'. by rewrite host_bytes_length. }
  assert (E4 : drop 17 L = pe).
  { change 17%nat with (7 + 10)%nat. rewrite <- drop_drop, E3. by apply drop_app_length'. }
  change (drop 1 (?x :: L)) with L. change (drop 4 (?x :: L)) with (drop 3 L).
  change (drop 8 (?x :: L)) with (drop 7 L). change (drop 18 (?x :: L)) with (drop 17 L).
  rewrite E1, E2, E3, E4, host_int_app, take_app_length', take_ge by (done || lia). by destruct u.
Qed.

Lemma entries_roundtrip t : Forall entry_wf t -> entries big (length t) (dir_bytes big t) = t.
Proof.
  unfold dir_bytes. induction 1 as [|e t He _ IH]; [done|]. cbn [length fmap list_fmap concat entries].
  change (Z.to_nat EntrySize) with 20%nat. rewrite take_app_length' by (by rewrite entry_length).
  rewrite drop_app_length' by (by rewrite entry_length). by rewrite entry_roundtrip, IH.
Qed.

Lemma dir_bytes_length t : Forall entry_wf t -> length (dir_bytes big t) = (length t * 20)%nat.
Proof.
  intros HF. unfold dir_bytes. rewrite (concat_length 20); [by rewrite length_fmap|].
  apply Forall_fmap. eapply Forall_impl; [exact HF|]. intros e He. by apply entry_length.
Qed.

Lemma map_bytes_length bm : length (map_bytes big bm) = (length (BitmapImpl.map bm) * 4)%nat.
Proof. apply concat_host_length. Qed.

Lemma map_roundtrip ws : Forall is_u32 ws -> map_words big (length ws) (concat (host_bytes big <$> ws)) = ws.
Proof.
  unfold map_words. induction 1 as [|w ws Hw _ IH]; [done|]. cbn [length fmap list_fmap concat ints].
  rewrite take_app_length' by (by rewrite host_bytes_length). rewrite drop_app_length' by (by rewrite host_bytes_length).
  rewrite host_int_bytes_i32, u32_i32, u32_id by done. by f_equal.
Qed.

End layout.

(** ** Allocation *)

(** Sector [n] is marked in the free map. *)
Definition marked (bs : list bool) (n : Z) : Prop := bs !! Z.to_nat n = Some true.

(** The positions of the bits that are set are as many as those that are not clear. *)
Lemma positions_spec i bs : Z.of_nat (length (BitSpec.positions i bs)) = Z.of_nat (length bs) - BitSpec.NumClear bs /\
  NoDup (BitSpec.positions i bs) /\
  forall n, n ∈ BitSpec.positions i bs <-> i <= n /\ bs !! Z.to_nat (n - i) = Some true.
Proof.
  revert i. induction bs as [|b bs IH]; intros i; cbn [BitSpec.positions].
  { split_and!; [done|constructor|]. intros n. rewrite elem_of_nil. naive_solver. }
  destruct (IH (i + 1)) as (HL & HN & HE). unfold BitSpec.NumClear in *.
  assert (HS : forall n, i <= n -> n <> i -> (b :: bs) !! Z.to_nat (n - i) = bs !! Z.to_nat (n - (i + 1))).
  { intros n H1 H2. replace (Z.to_nat (n - i)) with (S (Z.to_nat (n - (i + 1)))) by lia. done. }
  destruct b; [rewrite filter_cons_False by done|rewrite filter_cons_True by done]; cbn [length]; split_and!; try lia.
  - apply NoDup_cons. split; [|done]. intros H. apply HE in H. lia.
  - intros n. rewrite elem_of_cons, HE. destruct (decide (n = i)) as [->|Hn].
    + rewrite Z.sub_diag. cbn. split; [intros _; split; [lia|done]|by left].
    + split; [intros [? | [H1 H2]]; [done|split; [lia|rewrite HS by lia; done]]|].
      intros [H1 H2]. right. rewrite HS in H2 by done. split; [lia|done].
  - done.
  - intros n. rewrite HE. destruct (decide (n = i)) as [->|Hn].
    + rewrite Z.sub_diag. cbn. split; [lia|naive_solver].
    + split; intros [H1 H2]; [rewrite HS by lia; split; [lia|done]|rewrite HS in H2 by lia; split; [lia|done]].
Qed.

(** A list of all the marked sectors counts the clear ones. *)
Lemma NumClear_used bs used : NoDup used -> (forall n, n ∈ used <-> 0 <= n /\ marked bs n) ->
  BitSpec.NumClear bs = Z.of_nat (length bs) - Z.of_nat (length used).
Proof.
  intros HN HE. destruct (positions_spec 0 bs) as (HL & HN' & HE').
  assert (HP : used ≡ₚ BitSpec.positions 0 bs).
  { apply NoDup_Permutation; [done|done|]. intros n. rewrite HE, HE', Z.sub_0_r. done. }
  rewrite HP. lia.
Qed.

(** [bs'] is [bs] with the sectors [l], which were clear, marked. *)
Definition takes (bs : list bool) (l : list Z) (bs' : list bool) : Prop :=
  length bs' = length bs /\ NoDup l /\ Forall (fun n => 0 <= n < Z.of_nat (length bs) /\ bs !! Z.to_nat n = Some false) l /\
  (forall n, 0 <= n -> (marked bs' n <-> marked bs n \/ n ∈ l)) /\
  BitSpec.NumClear bs' = BitSpec.NumClear bs - Z.of_nat (length l).

Lemma takes_nil bs : takes bs [] bs.
Proof. split_and!; [done|constructor|constructor|intros n _; rewrite elem_of_nil; naive_solver|cbn; lia]. Qed.

Lemma takes_app bs l1 bs1 l2 bs2 : takes bs l1 bs1 -> takes bs1 l2 bs2 -> takes bs (l1 ++ l2) bs2.
Proof.
  intros (L1 & N1 & F1 & M1 & C1) (L2 & N2 & F2 & M2 & C2). rewrite Forall_forall in F1, F2.
  assert (H2 : forall n, n ∈ l2 -> (n ∉ l1) /\ 0 <= n < Z.of_nat (length bs) /\ bs !! Z.to_nat n = Some false).
  { intros n Hn. destruct (F2 n Hn) as [Hr Hc]. rewrite L1 in Hr. split; [|split; [done|]].
    - intros Hn1. assert (HM : marked bs1 n) by (apply M1; [lia|by right]). unfold marked in HM. congruence.
    - destruct (lookup_lt_is_Some_2 bs (Z.to_nat n)) as [b Eb]; [lia|]. destruct b; [|done].
      assert (HM : marked bs1 n) by (apply M1; [lia|by left]). unfold marked in HM. congruence. }
  split_and!; [congruence| | | |rewrite length_app; lia].
  - apply NoDup_app. split_and!; [done| |done]. intros n Hn1 Hn2. by destruct (H2 n Hn2).
  - apply Forall_forall. intros n [Hn | Hn]%elem_of_app; [by apply F1|by apply H2].
  - intros n Hn. rewrite M2, M1, elem_of_app by done. tauto.
Qed.

Lemma takes_one bs s : bs !! s = Some false -> takes bs [Z.of_nat s] (<[s := true]> bs).
Proof.
  intros Es. pose proof (lookup_lt_Some _ _ _ Es). split_and!.
  - apply length_insert.
  - apply NoDup_singleton.
  - repeat constructor; [lia|lia|by rewrite Nat2Z.id].
  - intros n Hn. unfold marked. rewrite list_elem_of_singleton. destruct (decide (n = Z.of_nat s)) as [->|Hne].
    + rewrite Nat2Z.id, list_lookup_insert_eq by done. split; [intros _; by right|done].
    + rewrite list_lookup_insert_ne by lia. split; [intros ?; by left|by intros [? | ?]].
  - rewrite NumClear_mark by done. done.
Qed.

Lemma FindAndSet_take bm bs : brel bm bs -> exists s bm', BitmapImpl.FindAndSet bm = Ok (s, bm') /\
  ((s = -1 /\ bm' = bm /\ BitSpec.NumClear bs = 0) \/ exists bs', brel bm' bs' /\ 0 <= s /\ takes bs [s] bs').
Proof.
  intros R. destruct (BitSpec.first_clear bs) as [k|] eqn:E.
  - apply first_clear_Some in E as [Ek Hlow]. destruct (FindAndSet_at bm bs k R Ek Hlow) as (bm' & -> & R').
    exists (Z.of_nat k), bm'. split; [done|]. right. exists (<[k := true]> bs). split_and!; [done|lia|by apply takes_one].
  - apply first_clear_None in E. exists (-1), bm.
    assert (Eb : bs = replicate (length bs) true).
    { clear -E. induction E as [|b bs -> _ IH]; [done|]. cbn. by f_equal. }
    split; [|left; split_and!; [done|done|]].
    + rewrite Eb in R. by eapply FindAndSet_full.
    + unfold BitSpec.NumClear. clear -E. induction E as [|b bs -> _ IH]; [done|]. by rewrite filter_cons_False.
Qed.

(** The body of the loop of [Allocate]. *)
Definition take_sector (i : Z) '((h, freeMap) : FileHeader * BitmapImpl.Bitmap) : res (FileHeader * BitmapImpl.Bitmap) :=
  '(s, freeMap) ← BitmapImpl.FindAndSet freeMap;
  ds ← aset (dataSectors h) i s;
  _ ← ASSERT (bool_decide (s >= 0));
  Ok (mkHdr (numBytes h) (numSectors h) ds, freeMap).

Lemma take_sectors h0 bm bs k : brel bm bs -> Z.of_nat (length bs) = NumSectors ->
  Z.of_nat (length (dataSectors h0)) = NumDirect -> Forall is_i32 (dataSectors h0) -> 0 <= k <= NumDirect ->
  k <= BitSpec.NumClear bs ->
  exists h bm' bs', for_loop (Z.to_nat k) 0 take_sector (h0, bm) = Ok (h, bm') /\ brel bm' bs' /\
    numBytes h = numBytes h0 /\ numSectors h = numSectors h0 /\ Z.of_nat (length (dataSectors h)) = NumDirect /\
    Forall is_i32 (dataSectors h) /\ takes bs (take (Z.to_nat k) (dataSectors h)) bs'.
Proof.
  change NumDirect with 30. intros R Hbs Hl Hi Hk Hn.
  destruct (for_loop_ind (fun i '(h, bm) => exists bs', brel bm bs' /\ numBytes h = numBytes h0 /\ numSectors h = numSectors h0 /\
      Z.of_nat (length (dataSectors h)) = 30 /\ Forall is_i32 (dataSectors h) /\
      takes bs (take (Z.to_nat i) (dataSectors h)) bs')
    (Z.to_nat k) 0 take_sector (h0, bm))
    as ([h bm'] & E & bs' & R' & E1 & E2 & E3 & E4 & T').
  - exists bs. split_and!; try done. apply takes_nil.
  - intros i [h bm1] Hr (bs1 & R1 & E1 & E2 & E3 & E4 & T1).
    pose proof T1 as (L1 & _ & _ & _ & C1). rewrite length_take in C1. unfold take_sector.
    destruct (FindAndSet_take bm1 bs1 R1) as (s & bm2 & -> & [(_ & _ & C) | (bs2 & R2 & Hs0 & T2)]); [lia|].
    cbn [mbind res_bind]. rewrite aset_in_range by lia. cbn [mbind res_bind]. rewrite bool_decide_true by lia.
    cbn [ASSERT mbind res_bind]. eexists. split; [reflexivity|]. exists bs2. cbn [numBytes numSectors dataSectors].
    assert (Hsr : 0 <= s < 1024).
    { destruct T2 as (_ & _ & F2 & _). rewrite Forall_singleton in F2. rewrite L1, Hbs in F2. apply F2. }
    split_and!; [done|done|done|by rewrite length_insert| |].
    + apply Forall_insert; [done|]. unfold is_i32, int_min, int_max. lia.
    + replace (Z.to_nat (i + 1)) with (S (Z.to_nat i)) by lia.
      rewrite (take_S_r _ _ s) by (apply list_lookup_insert_eq; lia).
      rewrite take_insert_ge by lia. by eapply takes_app.
  - rewrite Z.add_0_l, Z2Nat.id in T' by lia. by exists h, bm', bs'.
Qed.

(** [Allocate]: it succeeds when enough sectors are clear; the header then lists
    that many sectors, which were clear and are now marked. *)
Lemma Allocate_ok h0 bm bs size : brel bm bs -> Z.of_nat (length bs) = NumSectors ->
  Z.of_nat (length (dataSectors h0)) = NumDirect -> Forall is_i32 (dataSectors h0) -> 0 <= size <= MaxFileSize ->
  let n := divRoundUp size SectorSize in
  if decide (n <= BitSpec.NumClear bs) then
    exists h bm' bs', Allocate h0 bm size = Ok (true, h, bm') /\ brel bm' bs' /\ hdr_ok h /\
      numBytes h = size /\ takes bs (data h) bs'
  else exists h, Allocate h0 bm size = Ok (false, h, bm).
Proof.
  intros R Hbs Hl Hi Hs n. unfold Allocate. rewrite (NumClear_spec _ _ R). cbn [mbind res_bind]. fold n.
  case_decide as Hn; [rewrite bool_decide_false by lia|rewrite bool_decide_true by lia; by eexists].
  pose proof (divRoundUp_spec size SectorSize ltac:(lia) ltac:(done)) as HS. fold n in HS.
  change MaxFileSize with 3840 in Hs. unfold SectorSize in HS. fold take_sector.
  destruct (take_sectors (mkHdr size n (dataSectors h0)) bm bs n R Hbs Hl Hi) as (h & bm' & bs' & -> & R' & E1 & E2 & E3 & E4 & T');
    [change NumDirect with 30; lia|exact Hn|]. cbn [mbind res_bind numBytes numSectors] in *.
  assert (Ed : take (Z.to_nat n) (dataSectors h) = data h) by (unfold data; by rewrite E2). rewrite Ed in T'.
  exists h, bm', bs'. split_and!; try done. destruct T' as (_ & N' & F' & _).
  change NumDirect with 30 in *. split; rewrite ?E1, ?E2; change NumDirect with 30; try done; try lia.
  change (Z.of_nat (length bs) = 1024) in Hbs.
  eapply Forall_impl; [exact F'|]. intros m [Hm _]. unfold is_sector, NumSectors, SectorsPerTrack, NumTracks. lia.
Qed.

(** A file that needs more sectors than a header lists: the loop writes behind
    the array. *)
Lemma Allocate_overflow h0 bm bs size : brel bm bs -> Z.of_nat (length bs) = NumSectors ->
  Z.of_nat (length (dataSectors h0)) = NumDirect -> Forall is_i32 (dataSectors h0) -> MaxFileSize < size ->
  divRoundUp size SectorSize <= BitSpec.NumClear bs -> Allocate h0 bm size = Undef.
Proof.
  intros R Hbs Hl Hi Hs Hn. unfold Allocate. rewrite (NumClear_spec _ _ R). cbn [mbind res_bind].
  change MaxFileSize with 3840 in Hs. pose proof (divRoundUp_spec size SectorSize ltac:(lia) ltac:(done)) as HS.
  set (n := divRoundUp size SectorSize) in *. unfold SectorSize in HS. rewrite bool_decide_false by lia. fold take_sector.
  destruct (take_sectors (mkHdr size n (dataSectors h0)) bm bs NumDirect R Hbs Hl Hi) as (h & bm' & bs' & E & R' & _ & _ & E3 & _ & T');
    [change NumDirect with 30; lia|change NumDirect with 30; lia|]. change (Z.to_nat NumDirect) with 30%nat in E. change NumDirect with 30 in *.
  replace (Z.to_nat n) with (30 + S (Z.to_nat n - 31))%nat by lia. rewrite for_loop_app, E. cbn [mbind res_bind for_loop].
  destruct T' as (_ & _ & _ & _ & C'). rewrite length_take in C'.
  destruct (FindAndSet_take bm' bs' R') as (s & bm2 & EF & _).
  enough (EU : take_sector (0 + Z.of_nat 30) (h, bm') = Undef) by (by rewrite EU).
  unfold take_sector. rewrite EF. cbn [mbind res_bind]. unfold aset.
  by rewrite (bool_decide_false (0 <= _ < _)) by lia.
Qed.

(** [Deallocate]: the marked sectors of the header are cleared. *)
Definition releases (bs : list bool) (l : list Z) (bs' : list bool) : Prop :=
  length bs' = length bs /\ forall n, 0 <= n -> (marked bs' n <-> marked bs n /\ n ∉ l).

Lemma Clear_release bm bs s : brel bm bs -> 0 <= s < Z.of_nat (length bs) ->
  exists bm' bs', BitmapImpl.Clear bm s = Ok bm' /\ brel bm' bs' /\ releases bs [s] bs'.
Proof.
  intros R Hs. pose proof (Clear_rel bm bs s R) as HC. unfold BitSpec.Clear in HC.
  rewrite (proj2 (in_range_true bs s) Hs) in HC. cbn in HC. destruct HC as (bm' & E & R').
  exists bm', (<[Z.to_nat s := false]> bs). split_and!; [done|done|]. split; [apply length_insert|].
  intros n Hn. unfold marked. rewrite list_elem_of_singleton. destruct (decide (n = s)) as [->|Hne].
  - rewrite list_lookup_insert_eq by lia. naive_solver.
  - rewrite list_lookup_insert_ne by lia. tauto.
Qed.

Lemma Deallocate_ok h bm bs : brel bm bs -> hdr_ok h -> Z.of_nat (length bs) = NumSectors ->
  (forall n, n ∈ data h -> marked bs n) ->
  exists bm' bs', Deallocate h bm = Ok bm' /\ brel bm' bs' /\ releases bs (data h) bs'.
Proof.
  intros R H Hbs HM. unfold Deallocate. pose proof (data_length h H) as HL.
  destruct (for_loop_ind (fun i bm => exists bs', brel bm bs' /\ releases bs (take (Z.to_nat i) (data h)) bs')
    (Z.to_nat (numSectors h)) 0 (fun i freeMap =>
      s ← aget (dataSectors h) i;
      t ← BitmapImpl.Test freeMap s;
      _ ← ASSERT t;
      BitmapImpl.Clear freeMap s) bm) as (bm' & -> & bs' & R' & HR).
  - exists bs. split; [done|]. split; [done|]. intros n Hn. rewrite elem_of_nil. tauto.
  - intros i bm1 Hi (bs1 & R1 & L1 & M1). destruct (data_lookup h i H ltac:(lia)) as (s & Es & EB & Hs).
    unfold ByteToSector, SectorSize in EB. rewrite Z.quot_mul in EB by lia. rewrite EB. cbn [mbind res_bind].
    assert (Hm : marked bs1 s).
    { apply M1; [unfold is_sector in Hs; lia|]. split; [apply HM; by eapply list_elem_of_lookup_2|].
      intros (j & Ej & Hj)%elem_of_take. pose proof (NoDup_lookup _ _ _ _ (h_distinct _ H) Es Ej). lia. }
    assert (Hr : 0 <= s < Z.of_nat (length bs1)) by (rewrite L1, Hbs; exact Hs).
    pose proof (Test_in bm1 bs1 (Z.to_nat s) true R1 Hm) as HT. rewrite Z2Nat.id in HT by lia. rewrite HT.
    cbn [mbind res_bind ASSERT]. destruct (Clear_release bm1 bs1 s R1 Hr) as (bm2 & bs2 & -> & R2 & L2 & M2).
    eexists. split; [done|]. exists bs2. split; [done|]. split; [congruence|]. intros n Hn.
    replace (Z.to_nat (i + 1)) with (S (Z.to_nat i)) by lia. rewrite (take_S_r _ _ _ Es), M2, M1, elem_of_app by done. tauto.
  - exists bm', bs'. split_and!; [done|done|]. rewrite take_ge in HR by lia. done.
Qed.
