(* ===== verification/FileSysInv.v ===== *)
(** * The invariant of the file system

    [fs_ok]: the headers, the data sectors of all files, of the free map and of
    the directory are different sectors, and they are exactly the sectors that
    the free map on disk marks.  [files] is what the directory on disk stands
    for: a finite map from names to contents. *)

From S2P Require Import Prelude Bytes Words Bitmap BitmapProofs Disk DiskProofs OpenFile OpenFileProofs FileSys FileSysProofs.

#[local] Abbreviation sec := DiskProofs.sector.
#[local] Abbreviation hsector := FileSys.sector.

Section inv.
Context {D : Type} `{!SectorStore D} `{!LawfulStore D}.
Context (big : bool) (newchars : Z -> list Z) (newchars_length : forall n, 0 <= n -> length (newchars n) = Z.to_nat n).

(** The objects on a disk with sectors [S]. *)
Definition hdr_at (S : Z -> list Z) (n : Z) : FileHeader := hdr_of_bytes big (S n).
Definition dir_of (S : Z -> list Z) (H1 : FileHeader) : Directory := entries big 10 (contents S H1).
Definition map_of (S : Z -> list Z) (H0 : FileHeader) : BitmapImpl.Bitmap :=
  BitmapImpl.mkBitmap 1024 32 (map_words big 32 (contents S H0)).

#[local] Arguments dir_of : simpl never.
#[local] Arguments map_of : simpl never.

(** The sectors of the file of a directory entry. *)
Definition owned (S : Z -> list Z) (e : DirectoryEntry) : list Z := hsector e :: data (hdr_at S (hsector e)).

Definition used (S : Z -> list Z) (H0 H1 : FileHeader) : list Z :=
  0 :: 1 :: data H0 ++ data H1 ++ concat (owned S <$> live (dir_of S H1)).

(** The free map and the directory are where the file system expects them. *)
Record meta (d : D) (H0 H1 : FileHeader) : Prop := mkMeta {
  m_dok : dok d;
  m_hdr0 : hdr_at (sec d) 0 = H0;
  m_hdr1 : hdr_at (sec d) 1 = H1;
  m_ok0 : hdr_ok H0;
  m_ok1 : hdr_ok H1;
  m_size0 : numBytes H0 = 128;
  m_size1 : numBytes H1 = 200;
  m_apart : NoDup (0 :: 1 :: data H0 ++ data H1) }.

Record fs_ok (fs : FileSystem) (d : D) : Prop := mkFsOk {
  o_meta : meta d (hdr (freeMapFile fs)) (hdr (directoryFile fs));
  o_entries : Forall entry_wf (dir_of (sec d) (hdr (directoryFile fs)));
  o_map : wf (map_of (sec d) (hdr (freeMapFile fs)));
  o_files : forall e, e ∈ live (dir_of (sec d) (hdr (directoryFile fs))) ->
    is_sector (hsector e) /\ hdr_ok (hdr_at (sec d) (hsector e));
  o_names : NoDup (names (dir_of (sec d) (hdr (directoryFile fs))));
  o_used : NoDup (used (sec d) (hdr (freeMapFile fs)) (hdr (directoryFile fs)));
  o_free : forall n, 0 <= n -> marked (bits (map_of (sec d) (hdr (freeMapFile fs)))) n <->
    n ∈ used (sec d) (hdr (freeMapFile fs)) (hdr (directoryFile fs)) }.

(** The names and contents of the files. *)
Definition file_of (S : Z -> list Z) (e : DirectoryEntry) : list Z * list Z :=
  (key (name e), contents S (hdr_at S (hsector e))).
Definition files (S : Z -> list Z) (H1 : FileHeader) : gmap (list Z) (list Z) :=
  list_to_map (file_of S <$> live (dir_of S H1)).

(** ** Disks with the same sectors *)

Lemma dir_of_ext S S' H1 : hdr_ok H1 -> (forall n, is_sector n -> S' n = S n) -> dir_of S' H1 = dir_of S H1.
Proof. intros H HS. unfold dir_of. by rewrite (contents_ext S S'). Qed.

Lemma map_of_ext S S' H0 : hdr_ok H0 -> (forall n, is_sector n -> S' n = S n) -> map_of S' H0 = map_of S H0.
Proof. intros H HS. unfold map_of. by rewrite (contents_ext S S'). Qed.

Lemma hdr_at_ext S S' n : (forall n, is_sector n -> S' n = S n) -> is_sector n -> hdr_at S' n = hdr_at S n.
Proof. intros HS Hn. unfold hdr_at. by rewrite HS. Qed.

Lemma contents_agree S S' h : (forall n, n ∈ data h -> S' n = S n) -> contents S' h = contents S h.
Proof.
  intros HS. unfold contents, fbytes. f_equal. f_equal. apply list_fmap_ext. intros i n En. apply HS.
  by eapply list_elem_of_lookup_2.
Qed.

(** ** The free map and the directory *)

Lemma entries_length t n bs : entries big n bs = t -> length t = n.
Proof. revert t bs. induction n as [|n IH]; intros t bs <-; [done|]. cbn. by rewrite (IH _ _ eq_refl). Qed.

Lemma dir_of_length S H1 : length (dir_of S H1) = 10%nat.
Proof. by eapply entries_length. Qed.

Lemma splice_all m bs : length bs = length m -> splice m 0 bs = bs.
Proof. intros HL. unfold splice. cbn. rewrite drop_ge by lia. apply app_nil_r. Qed.

(** Reading a file from its start to its end. *)
Lemma read_all d h n : dok d -> hdr_ok h -> n = numBytes h ->
  exists d', ReadAt newchars h n 0 d = Ok (n, contents (sec d) h, d') /\ same d d' /\
    Z.of_nat (length (contents (sec d) h)) = n.
Proof.
  intros Hd H ->. pose proof (f_bytes _ (hdr_ok_fits h H)) as [_ Hb]. pose proof (contents_length d h Hd H) as HL.
  destruct (ReadAt_ok newchars newchars_length d h (numBytes h) 0 Hd H) as (d' & E & HS & _); [lia|lia|].
  exists d'. rewrite E. unfold within. rewrite drop_0, take_ge by lia. split_and!; [|done|done].
  do 3 f_equal. pose proof (h_bytes _ H). lia.
Qed.

(** Replacing the whole contents of a file. *)
Lemma write_all d h bs n : dok d -> hdr_ok h -> n = numBytes h -> Z.of_nat (length bs) = n ->
  exists d', WriteAt newchars h bs n 0 d = Ok (n, d') /\ dok d' /\ contents (sec d') h = bs /\
    (forall m, is_sector m -> m ∉ data h -> sec d' m = sec d m).
Proof.
  intros Hd H -> HL. pose proof (f_bytes _ (hdr_ok_fits h H)) as [_ Hb]. pose proof (h_bytes _ H).
  destruct (WriteAt_ok newchars newchars_length d h bs (numBytes h) 0 Hd H) as (d' & E & Hd' & EC & HO); [lia..|].
  assert (Ew : within h (numBytes h) 0 = numBytes h) by (unfold within; lia). rewrite Ew in *.
  exists d'. split_and!; [done|done| |done]. rewrite EC. rewrite (take_ge bs) by lia. apply splice_all.
  pose proof (contents_length d h Hd H). lia.
Qed.

Lemma fetch_dir d H0 f t : meta d H0 (hdr f) -> length t = 10%nat -> Forall entry_wf t ->
  exists d', Directory_FetchFrom big newchars t f d = Ok (dir_of (sec d) (hdr f), d') /\ same d d'.
Proof.
  intros M Ht HF. unfold Directory_FetchFrom. rewrite Ht. change (Z.of_nat 10 * EntrySize) with 200.
  destruct (read_all d (hdr f) 200 (m_dok _ _ _ M) (m_ok1 _ _ _ M)) as (d' & -> & HS & HL); [by rewrite (m_size1 _ _ _ M)|].
  cbn [mbind res_bind]. pose proof (dir_bytes_length big t HF) as HB. rewrite Ht in HB.
  rewrite mem_write_ok by lia. cbn [mbind res_bind]. exists d'. split; [|done].
  by rewrite splice_all by lia.
Qed.

Lemma fetch_map d f H1 : meta d (hdr f) H1 ->
  exists d', newPersistentBitmap big newchars f NumSectors d = Ok (map_of (sec d) (hdr f), d') /\ same d d'.
Proof.
  intros M. unfold newPersistentBitmap, Bitmap_FetchFrom.
  destruct (newBitmap_spec NumSectors) as (bm & -> & [(_ & HW & HL & _) _] & HB); [done|]. cbn [mbind res_bind].
  rewrite HB in HW. change (divRoundUp NumSectors BitmapImpl.BitsInWord) with 32 in HW. rewrite HW in *.
  destruct (read_all d (hdr f) (32 * 4) (m_dok _ _ _ M) (m_ok0 _ _ _ M)) as (d' & -> & HS & HLc); [by rewrite (m_size0 _ _ _ M)|].
  cbn [mbind res_bind]. pose proof (map_bytes_length big bm).
  rewrite mem_write_ok by lia. cbn [mbind res_bind]. exists d'. split; [|done].
  rewrite splice_all by lia. rewrite HB. unfold map_of. by replace (length (BitmapImpl.map bm)) with 32%nat by lia.
Qed.

Lemma apart_in H0 H1 n : NoDup (0 :: 1 :: data H0 ++ data H1) -> n = 0 \/ n = 1 -> (n ∉ data H0) /\ (n ∉ data H1).
Proof.
  intros HN Hn. apply NoDup_cons in HN as [H2 HN]. apply NoDup_cons in HN as [H3 HN].
  rewrite elem_of_cons, elem_of_app in H2. rewrite elem_of_app in H3. destruct Hn as [-> | ->]; naive_solver.
Qed.

Lemma apart_data H0 H1 n : NoDup (0 :: 1 :: data H0 ++ data H1) -> n ∈ data H0 -> n ∉ data H1.
Proof.
  intros HN. apply NoDup_cons in HN as [_ HN]. apply NoDup_cons in HN as [_ HN]. apply NoDup_app in HN as (_ & H & _).
  apply H.
Qed.

Lemma sector_01 : is_sector 0 /\ is_sector 1.
Proof. done. Qed.

(** Writing one of the two files leaves the headers and the other file alone. *)
Lemma meta_write d d' H0 H1 : meta d H0 H1 -> dok d' ->
  (forall m, is_sector m -> m = 0 \/ m = 1 -> sec d' m = sec d m) -> meta d' H0 H1.
Proof.
  intros [M1 M2 M3 M4 M5 M6 M7 M8] Hd HS. destruct sector_01. split; try done; unfold hdr_at; rewrite HS by auto; done.
Qed.

Lemma write_dir d H0 f t : meta d H0 (hdr f) -> length t = 10%nat -> Forall entry_wf t ->
  exists d', Directory_WriteBack big newchars t f d = Ok d' /\ meta d' H0 (hdr f) /\
    dir_of (sec d') (hdr f) = t /\ map_of (sec d') H0 = map_of (sec d) H0 /\
    (forall m, is_sector m -> m ∉ data (hdr f) -> sec d' m = sec d m).
Proof.
  intros M Ht HF. unfold Directory_WriteBack. rewrite Ht. change (Z.of_nat 10 * EntrySize) with 200.
  pose proof (dir_bytes_length big t HF) as HB. rewrite Ht in HB.
  destruct (write_all d (hdr f) (dir_bytes big t) 200 (m_dok _ _ _ M) (m_ok1 _ _ _ M)) as (d' & -> & Hd' & EC & HO);
    [by rewrite (m_size1 _ _ _ M)|by rewrite HB|].
  cbn [mbind res_bind]. exists d'. split; [done|]. split; [|split; [|split]].
  - apply (meta_write d); [done|done|]. intros m Hm Hm'. apply HO; [done|].
    by apply (apart_in H0 (hdr f) m (m_apart _ _ _ M)).
  - unfold dir_of. rewrite EC, <- Ht. by apply entries_roundtrip.
  - unfold map_of. do 2 f_equal. apply contents_agree. intros n Hn. apply HO.
    + pose proof (h_range _ (m_ok0 _ _ _ M)) as HR. rewrite Forall_forall in HR. by apply HR.
    + by apply (apart_data H0 (hdr f) n (m_apart _ _ _ M)).
  - done.
Qed.

Lemma write_map d f H1 bm : meta d (hdr f) H1 -> wf bm -> BitmapImpl.numBits bm = 1024 ->
  exists d', Bitmap_WriteBack big newchars bm f d = Ok d' /\ meta d' (hdr f) H1 /\
    map_of (sec d') (hdr f) = bm /\ dir_of (sec d') H1 = dir_of (sec d) H1 /\
    (forall m, is_sector m -> m ∉ data (hdr f) -> sec d' m = sec d m).
Proof.
  intros M (_ & HW & HL & HF) HB. rewrite HB in HW. change (divRoundUp 1024 BitmapImpl.BitsInWord) with 32 in HW.
  unfold Bitmap_WriteBack. rewrite HW in *. pose proof (map_bytes_length big bm) as HBL.
  destruct (write_all d (hdr f) (map_bytes big bm) (32 * 4) (m_dok _ _ _ M) (m_ok0 _ _ _ M)) as (d' & -> & Hd' & EC & HO);
    [by rewrite (m_size0 _ _ _ M)|lia|].
  cbn [mbind res_bind]. exists d'. split; [done|]. split; [|split; [|split]].
  - apply (meta_write d); [done|done|]. intros m Hm Hm'. apply HO; [done|].
    by apply (apart_in (hdr f) H1 m (m_apart _ _ _ M)).
  - unfold map_of. rewrite EC. unfold map_bytes. replace 32%nat with (length (BitmapImpl.map bm)) by lia.
    rewrite map_roundtrip by done. rewrite <- HB, <- HW. by destruct bm.
  - unfold dir_of. f_equal. apply contents_agree. intros n Hn. apply HO.
    + pose proof (h_range _ (m_ok1 _ _ _ M)) as HR. rewrite Forall_forall in HR. by apply HR.
    + intros Hn0. by apply (apart_data (hdr f) H1 n (m_apart _ _ _ M)).
  - done.
Qed.

(** ** Whose sector it is *)

Lemma concat_perm {A} (l l' : list (list A)) : l ≡ₚ l' -> concat l ≡ₚ concat l'.
Proof. induction 1; cbn; [done|by f_equiv|solve_Permutation|by etransitivity]. Qed.

(** Adding an entry to the directory adds its sectors. *)
Lemma used_add S S' H0 H1 e : live (dir_of S' H1) ≡ₚ e :: live (dir_of S H1) ->
  (forall x, x ∈ live (dir_of S H1) -> owned S' x = owned S x) ->
  used S' H0 H1 ≡ₚ owned S' e ++ used S H0 H1.
Proof.
  intros HP HO. unfold used.
  assert (E : concat (owned S' <$> live (dir_of S' H1)) ≡ₚ owned S' e ++ concat (owned S <$> live (dir_of S H1))).
  { rewrite (concat_perm _ _ (fmap_Permutation (owned S') _ _ HP)). cbn.
    assert (EF : owned S' <$> live (dir_of S H1) = owned S <$> live (dir_of S H1))
      by (apply Forall_fmap_ext_1, Forall_forall; exact HO). by rewrite EF. }
  rewrite E. solve_Permutation.
Qed.

(** A file whose sectors are unchanged is unchanged. *)
Lemma owned_agree S S' e : (forall n, n ∈ owned S e -> S' n = S n) ->
  hdr_at S' (hsector e) = hdr_at S (hsector e) /\ owned S' e = owned S e /\ file_of S' e = file_of S e.
Proof.
  intros HS. assert (EH : hdr_at S' (hsector e) = hdr_at S (hsector e)).
  { unfold hdr_at. by rewrite HS by apply list_elem_of_here. }
  split; [done|]. unfold owned, file_of. rewrite EH. split; [done|]. f_equal. apply contents_agree.
  intros n Hn. apply HS. by apply list_elem_of_further.
Qed.

(** Adding an entry adds its file to the map. *)
Lemma files_add S S' H1 e : NoDup (names (dir_of S' H1)) ->
  live (dir_of S' H1) ≡ₚ e :: live (dir_of S H1) ->
  (forall x, x ∈ live (dir_of S H1) -> file_of S' x = file_of S x) ->
  files S' H1 = <[key (name e) := contents S' (hdr_at S' (hsector e))]> (files S H1).
Proof.
  intros HN HP HF. unfold files.
  rewrite (list_to_map_proper _ (file_of S' e :: (file_of S <$> live (dir_of S H1)))); [done| |].
  - rewrite <- list_fmap_compose. exact HN.
  - rewrite (fmap_Permutation (file_of S') _ _ HP). cbn.
    assert (EF : file_of S' <$> live (dir_of S H1) = file_of S <$> live (dir_of S H1))
      by (apply Forall_fmap_ext_1, Forall_forall; exact HF). by rewrite EF.
Qed.

Lemma used_owned S H0 H1 e : e ∈ live (dir_of S H1) ->
  exists l, used S H0 H1 ≡ₚ owned S e ++ (0 :: 1 :: data H0 ++ data H1) ++ concat (owned S <$> l) /\
    live (dir_of S H1) ≡ₚ e :: l.
Proof.
  intros He. destruct (proj1 (elem_of_Permutation _ _) He) as [l HP]. exists l. split; [|done]. unfold used.
  rewrite (concat_perm _ _ (fmap_Permutation (owned S) _ _ HP)). cbn. solve_Permutation.
Qed.

Section state.
Context (fs : FileSystem) (d : D) (OK : fs_ok fs d).
#[local] Abbreviation H0 := (hdr (freeMapFile fs)).
#[local] Abbreviation H1 := (hdr (directoryFile fs)).

(** The sectors of a file belong to nothing else. *)
Lemma owned_apart e n : e ∈ live (dir_of (sec d) H1) -> n ∈ owned (sec d) e ->
  is_sector n /\ n <> 0 /\ n <> 1 /\ (n ∉ data H0) /\ n ∉ data H1.
Proof.
  intros He Hn. destruct (o_files _ _ OK e He) as [Hs Hh]. split.
  { unfold owned in Hn. apply elem_of_cons in Hn as [-> | Hn]; [done|].
    pose proof (h_range _ Hh) as HR. rewrite Forall_forall in HR. by apply HR. }
  destruct (used_owned (sec d) H0 H1 e He) as (l & HP & _). pose proof (o_used _ _ OK) as HN. rewrite HP in HN.
  apply NoDup_app in HN as (_ & HN & _). specialize (HN n Hn).
  rewrite elem_of_app, !elem_of_cons, elem_of_app in HN. naive_solver.
Qed.

Lemma owned_disjoint e e' n : e ∈ live (dir_of (sec d) H1) -> e' ∈ live (dir_of (sec d) H1) ->
  n ∈ owned (sec d) e -> n ∈ owned (sec d) e' -> e = e'.
Proof.
  intros He He' Hn Hn'. destruct (used_owned (sec d) H0 H1 e He) as (l & HP & HL).
  pose proof (o_used _ _ OK) as HN. rewrite HP in HN. apply NoDup_app in HN as (_ & HN & _). specialize (HN n Hn).
  rewrite HL in He'. apply elem_of_cons in He' as [-> | He']; [done|]. exfalso. apply HN.
  apply elem_of_app. right. apply list_elem_of_In, in_concat. exists (owned (sec d) e').
  split; apply list_elem_of_In; [by apply list_elem_of_fmap_2|done].
Qed.

Lemma owned_NoDup e : e ∈ live (dir_of (sec d) H1) -> NoDup (owned (sec d) e).
Proof.
  intros He. destruct (used_owned (sec d) H0 H1 e He) as (l & HP & _). pose proof (o_used _ _ OK) as HN. rewrite HP in HN.
  by apply NoDup_app in HN as (HN & _).
Qed.

Lemma used_sector n : n ∈ used (sec d) H0 H1 -> is_sector n.
Proof.
  unfold used. rewrite !elem_of_cons, !elem_of_app. destruct sector_01 as [S0 S1].
  pose proof (h_range _ (m_ok0 _ _ _ (o_meta _ _ OK))) as R0. pose proof (h_range _ (m_ok1 _ _ _ (o_meta _ _ OK))) as R1.
  rewrite Forall_forall in R0, R1. intros [-> | [-> | [Hn | [Hn | Hn]]]]; [done|done|by apply R0|by apply R1|].
  apply list_elem_of_In, in_concat in Hn as (l & Hl & Hn). apply list_elem_of_In in Hl, Hn.
  apply list_elem_of_fmap in Hl as (e & -> & He). by eapply owned_apart.
Qed.

(** The files as a map. *)
Lemma files_lookup k c : files (sec d) H1 !! k = Some c <->
  exists e, e ∈ live (dir_of (sec d) H1) /\ key (name e) = k /\ contents (sec d) (hdr_at (sec d) (hsector e)) = c.
Proof.
  unfold files. rewrite <- elem_of_list_to_map.
  - rewrite list_elem_of_fmap. unfold file_of. naive_solver.
  - rewrite <- list_fmap_compose. exact (o_names _ _ OK).
Qed.

Lemma files_None k : files (sec d) H1 !! k = None <-> k ∉ names (dir_of (sec d) H1).
Proof.
  unfold files. rewrite <- not_elem_of_list_to_map. rewrite <- list_fmap_compose. done.
Qed.

Lemma files_size : size (files (sec d) H1) = length (live (dir_of (sec d) H1)).
Proof.
  rewrite <- length_map_to_list. unfold files. rewrite map_to_list_to_map.
  - by rewrite length_fmap.
  - rewrite <- list_fmap_compose. exact (o_names _ _ OK).
Qed.

(** An entry is found by its name. *)
Lemma name_unique e e' : e ∈ live (dir_of (sec d) H1) -> e' ∈ live (dir_of (sec d) H1) ->
  key (name e) = key (name e') -> e = e'.
Proof.
  intros He He' Ek. apply list_elem_of_lookup in He as [i Hi]. apply list_elem_of_lookup in He' as [j Hj].
  assert (i = j) as ->; [|congruence]. eapply NoDup_lookup; [exact (o_names _ _ OK)| |].
  - unfold names. by rewrite list_lookup_fmap, Hi.
  - unfold names. rewrite list_lookup_fmap, Hj. cbn. by rewrite Ek.
Qed.

End state.

(** Reading the disk changes nothing. *)
Lemma meta_same d d' H0 H1 : meta d H0 H1 -> same d d' -> meta d' H0 H1.
Proof. intros M [Hd HS]. apply (meta_write d); auto. Qed.

Lemma owned_same fs d d' e : fs_ok fs d -> same d d' -> e ∈ live (dir_of (sec d) (hdr (directoryFile fs))) ->
  owned (sec d') e = owned (sec d) e.
Proof. intros OK [Hd HS] He. unfold owned. by rewrite (hdr_at_ext (sec d)) by (done || by apply (o_files _ _ OK)). Qed.

Lemma file_same fs d d' : fs_ok fs d -> same d d' ->
  fs_ok fs d' /\ files (sec d') (hdr (directoryFile fs)) = files (sec d) (hdr (directoryFile fs)).
Proof.
  intros OK HSS. pose proof HSS as [Hd HS]. pose proof (o_meta _ _ OK) as M.
  assert (ED : dir_of (sec d') (hdr (directoryFile fs)) = dir_of (sec d) (hdr (directoryFile fs))) by (apply dir_of_ext; [apply M|done]).
  assert (EM : map_of (sec d') (hdr (freeMapFile fs)) = map_of (sec d) (hdr (freeMapFile fs))) by (apply map_of_ext; [apply M|done]).
  assert (EH : forall e, e ∈ live (dir_of (sec d) (hdr (directoryFile fs))) -> hdr_at (sec d') (hsector e) = hdr_at (sec d) (hsector e)).
  { intros e He. apply hdr_at_ext; [done|by apply (o_files _ _ OK)]. }
  assert (EO : owned (sec d') <$> live (dir_of (sec d) (hdr (directoryFile fs))) = owned (sec d) <$> live (dir_of (sec d) (hdr (directoryFile fs)))).
  { apply Forall_fmap_ext_1, Forall_forall. intros e He. unfold owned. by rewrite EH. }
  assert (EU : used (sec d') (hdr (freeMapFile fs)) (hdr (directoryFile fs)) = used (sec d) (hdr (freeMapFile fs)) (hdr (directoryFile fs))).
  { unfold used. by rewrite ED, EO. }
  split.
  - split; rewrite ?ED, ?EM, ?EU; try apply OK; [by eapply meta_same|].
    intros e He. rewrite EH by done. by apply (o_files _ _ OK).
  - unfold files. rewrite ED. f_equal. apply Forall_fmap_ext_1, Forall_forall. intros e He. unfold file_of. rewrite EH by done.
    f_equal. apply contents_ext; [by apply (o_files _ _ OK)|done].
Qed.

End inv.
