(* ===== verification/FileSysOps.v ===== *)
(** * The operations of the file system

    Each operation of [FileSystem], on a disk where [fs_ok] holds: it never fails,
    it keeps [fs_ok], and its effect on the map of files. *)

From S2P Require Import Prelude Bytes Words Bitmap BitmapProofs Disk DiskProofs OpenFile OpenFileProofs.
From S2P Require Import FileSys FileSysProofs FileSysInv.

#[local] Abbreviation sec := DiskProofs.sector.
#[local] Abbreviation hsector := FileSys.sector.

(** The sectors a file of [n] bytes takes, its header included. *)
Definition blocks (n : Z) : Z := 1 + divRoundUp n SectorSize.

(** The sectors that are left on a disk with the files [m]. *)
Definition taken (l : list (list Z * list Z)) : Z :=
  foldr (fun kc acc => blocks (Z.of_nat (length kc.2)) + acc) 0 l.
Definition free (m : gmap (list Z) (list Z)) : Z := NumSectors - 5 - taken (map_to_list m).

Lemma taken_perm l l' : l ≡ₚ l' -> taken l = taken l'.
Proof. induction 1; cbn; unfold taken in *; cbn; lia. Qed.

Section ops.
Context {D : Type} `{!SectorStore D} `{!LawfulStore D}.
Context (big : bool) (newchars : Z -> list Z) (newchars_length : forall n, 0 <= n -> length (newchars n) = Z.to_nat n).
Context (newhdr : FileHeader) (newhdr_length : Z.of_nat (length (dataSectors newhdr)) = NumDirect)
  (newhdr_ints : Forall is_i32 (dataSectors newhdr)).
Context (newentries : list DirectoryEntry) (newentries_length : (10 <= length newentries)%nat)
  (newentries_wf : Forall entry_wf newentries).

#[local] Abbreviation fs_ok := (fs_ok big).
#[local] Abbreviation dir_of := (dir_of big).
#[local] Abbreviation map_of := (map_of big).
#[local] Abbreviation hdr_at := (hdr_at big).
#[local] Abbreviation owned := (owned big).
#[local] Abbreviation used := (used big).
#[local] Abbreviation files := (files big).
#[local] Abbreviation mhdr fs := (hdr (freeMapFile fs)).
#[local] Abbreviation dhdr fs := (hdr (directoryFile fs)).

Lemma newDirectory_ok : length (newDirectory newentries NumDirEntries) = 10%nat /\
  Forall entry_wf (newDirectory newentries NumDirEntries) /\ live (newDirectory newentries NumDirEntries) = [].
Proof.
  unfold newDirectory. change (Z.to_nat NumDirEntries) with 10%nat. split_and!.
  - rewrite length_fmap, length_take. lia.
  - apply Forall_fmap, Forall_take. eapply Forall_impl; [exact newentries_wf|]. intros e []. by split.
  - induction (take 10 newentries) as [|e l IH]; [done|]. cbn. by rewrite live_cons.
Qed.

(** ** Finding a file *)

Lemma load_dir fs d : fs_ok fs d -> exists d',
  Directory_FetchFrom big newchars (newDirectory newentries NumDirEntries) (directoryFile fs) d
    = Ok (dir_of (sec d) (dhdr fs), d') /\ same d d'.
Proof.
  intros OK. destruct newDirectory_ok as (HL & HF & _). eapply fetch_dir; [done|apply OK|done|done].
Qed.

Lemma find_file fs d nm : fs_ok fs d ->
  (Find (dir_of (sec d) (dhdr fs)) nm = Ok (-1) /\ files (sec d) (dhdr fs) !! key nm = None) \/
  (exists e, Find (dir_of (sec d) (dhdr fs)) nm = Ok (hsector e) /\ e ∈ live (dir_of (sec d) (dhdr fs)) /\
     is_sector (hsector e) /\ key (name e) = key nm).
Proof.
  intros OK. destruct (Find_spec (dir_of (sec d) (dhdr fs)) nm) as [[-> H] | (e & -> & He & _ & Ek)].
  - apply Forall_forall. intros e He. destruct (o_files _ _ _ OK e He) as [[? ?] _]. done.
  - left. split; [done|]. by apply files_None.
  - right. exists e. split_and!; try done; by apply (o_files _ _ _ OK e He).
Qed.

Lemma fetch_hdr d n : dok d -> is_sector n ->
  exists d', FetchFrom big n d = Ok (hdr_at (sec d) n, d') /\ same d d'.
Proof.
  intros Hd Hn. unfold FetchFrom. destruct (read_law d n Hd Hn) as (d' & -> & Hd' & HS). by exists d'.
Qed.

Lemma same_trans (d1 d2 d3 : D) : same d1 d2 -> same d2 d3 -> same d1 d3.
Proof. intros [_ S1] [H3 S2]. split; [done|]. intros n Hn. by rewrite S2, S1. Qed.

(** [Open] finds the file that the map has. *)
Lemma Open_ok fs d nm : fs_ok fs d -> exists r d',
  Open big newchars newentries fs nm d = Ok (r, d') /\ same d d' /\
  match files (sec d) (dhdr fs) !! key nm with
  | None => r = None
  | Some c => exists e, e ∈ live (dir_of (sec d) (dhdr fs)) /\ key (name e) = key nm /\
      r = Some (mkOpenFile (hdr_at (sec d) (hsector e)) 0) /\ contents (sec d) (hdr_at (sec d) (hsector e)) = c
  end.
Proof.
  intros OK. unfold Open. destruct (load_dir fs d OK) as (d1 & -> & S1). cbn [mbind res_bind].
  destruct (find_file fs d nm OK) as [[-> EN] | (e & -> & He & Hs & Ek)]; cbn [mbind res_bind].
  - rewrite bool_decide_false by lia. exists None, d1. by rewrite EN.
  - rewrite bool_decide_true by (destruct Hs; lia). unfold newOpenFile.
    destruct (fetch_hdr d1 (hsector e) (proj1 S1) Hs) as (d2 & -> & S2). cbn [mbind res_bind].
    rewrite (hdr_at_ext big (sec d) (sec d1)) by (done || apply S1).
    eexists _, d2. split; [reflexivity|]. split; [by eapply same_trans|].
    rewrite (proj2 (files_lookup big fs d OK (key nm) _)) by eauto. by exists e.
Qed.

(** [mount] opens the same two files again. *)
Lemma mount_ok fs d : fs_ok fs d -> exists d',
  mount big d = Ok (mkFileSystem (mkOpenFile (mhdr fs) 0) (mkOpenFile (dhdr fs) 0), d') /\ same d d'.
Proof.
  intros OK. pose proof (o_meta _ _ _ OK) as M. destruct sector_01 as [S0 S1]. unfold mount, newOpenFile.
  destruct (fetch_hdr d FreeMapSector (m_dok _ _ _ _ M) S0) as (d1 & -> & HS1). cbn [mbind res_bind].
  destruct (fetch_hdr d1 DirectorySector (proj1 HS1) S1) as (d2 & -> & HS2). cbn [mbind res_bind].
  exists d2. split; [|by eapply same_trans]. rewrite (hdr_at_ext big (sec d) (sec d1)) by (done || apply HS1).
  unfold FreeMapSector, DirectorySector. by rewrite (m_hdr0 _ _ _ _ M), (m_hdr1 _ _ _ _ M).
Qed.

Lemma remount_ok fs d d' : fs_ok fs d -> same d d' ->
  let fs' := mkFileSystem (mkOpenFile (mhdr fs) 0) (mkOpenFile (dhdr fs) 0) in
  fs_ok fs' d' /\ files (sec d') (dhdr fs') = files (sec d) (dhdr fs).
Proof.
  intros OK HS fs'. destruct (file_same big fs d d' OK HS) as [[] EF]. by split.
Qed.

(** Writing to the data sectors of a file does not touch the free map, the
    directory or a header. *)
Lemma other_sectors fs d d' e : fs_ok fs d -> e ∈ live (dir_of (sec d) (dhdr fs)) -> dok d' ->
  (forall m, is_sector m -> m ∉ data (hdr_at (sec d) (hsector e)) -> sec d' m = sec d m) ->
  fs_ok fs d' /\ dir_of (sec d') (dhdr fs) = dir_of (sec d) (dhdr fs) /\
  (forall x, x ∈ live (dir_of (sec d) (dhdr fs)) -> hdr_at (sec d') (hsector x) = hdr_at (sec d) (hsector x)).
Proof.
  intros OK He Hd' HO. pose proof (o_meta _ _ _ OK) as M. set (h := hdr_at (sec d) (hsector e)) in *.
  assert (HD : forall x, x ∈ data h -> x ∈ owned (sec d) e) by (intros x Hx; by apply list_elem_of_further).
  assert (HA : forall x, x ∈ data h -> is_sector x /\ x <> 0 /\ x <> 1 /\ (x ∉ data (mhdr fs)) /\ x ∉ data (dhdr fs))
    by (intros x Hx; exact (owned_apart big fs d OK e x He (HD x Hx))).
  assert (M' : meta big d' (mhdr fs) (dhdr fs)).
  { apply (meta_write big d); [done|done|]. intros m Hm1 Hm2. apply HO; [done|]. intros Hx.
    destruct (HA m Hx) as (_ & H1 & H2 & _). by destruct Hm2. }
  assert (EM : map_of (sec d') (mhdr fs) = map_of (sec d) (mhdr fs)).
  { unfold FileSysInv.map_of. do 2 f_equal. apply contents_agree. intros x Hx. apply HO.
    - pose proof (h_range _ (m_ok0 _ _ _ _ M)) as HR. rewrite Forall_forall in HR. by apply HR.
    - intros Hx'. destruct (HA x Hx') as (_ & _ & _ & HN & _). exact (HN Hx). }
  assert (ED : dir_of (sec d') (dhdr fs) = dir_of (sec d) (dhdr fs)).
  { unfold FileSysInv.dir_of. f_equal. apply contents_agree. intros x Hx. apply HO.
    - pose proof (h_range _ (m_ok1 _ _ _ _ M)) as HR. rewrite Forall_forall in HR. by apply HR.
    - intros Hx'. destruct (HA x Hx') as (_ & _ & _ & _ & HN). exact (HN Hx). }
  assert (EH : forall x, x ∈ live (dir_of (sec d) (dhdr fs)) -> hdr_at (sec d') (hsector x) = hdr_at (sec d) (hsector x)).
  { intros x Hx. unfold FileSysInv.hdr_at. rewrite HO; [done|by apply (o_files _ _ _ OK)|]. intros Hd1.
    pose proof (owned_disjoint big fs d OK x e (hsector x) Hx He (list_elem_of_here _ _) (HD _ Hd1)) as ->.
    pose proof (owned_NoDup big fs d OK e He) as HN. unfold FileSysInv.owned in HN. fold h in HN.
    apply NoDup_cons in HN as [HN _]. exact (HN Hd1). }
  assert (EO : owned (sec d') <$> live (dir_of (sec d) (dhdr fs)) = owned (sec d) <$> live (dir_of (sec d) (dhdr fs))).
  { apply Forall_fmap_ext_1, Forall_forall. intros x Hx. unfold FileSysInv.owned. by rewrite EH. }
  assert (EU : used (sec d') (mhdr fs) (dhdr fs) = used (sec d) (mhdr fs) (dhdr fs)).
  { unfold FileSysInv.used. by rewrite ED, EO. }
  split; [|by split]. split; rewrite ?ED, ?EM, ?EU; try apply OK; [exact M'|]. intros x Hx. rewrite EH by done. by apply (o_files _ _ _ OK).
Qed.

(** ** Writing to a file *)

Lemma write_file fs d e from n pos : fs_ok fs d -> e ∈ live (dir_of (sec d) (dhdr fs)) ->
  0 <= pos -> pos + n <= int_max -> n <= Z.of_nat (length from) ->
  let h := hdr_at (sec d) (hsector e) in
  let w := within h n pos in
  exists d', WriteAt newchars h from n pos d = Ok (w, d') /\ fs_ok fs d' /\
    files (sec d') (dhdr fs) = <[key (name e) := splice (contents (sec d) h) (Z.to_nat pos) (take (Z.to_nat w) from)]>
      (files (sec d) (dhdr fs)) /\
    dir_of (sec d') (dhdr fs) = dir_of (sec d) (dhdr fs) /\ hdr_at (sec d') (hsector e) = h /\
    contents (sec d') h = splice (contents (sec d) h) (Z.to_nat pos) (take (Z.to_nat w) from).
Proof.
  intros OK He Hp Hm Hf h w. pose proof (o_meta _ _ _ OK) as M. destruct (o_files _ _ _ OK e He) as [Hs Hh].
  fold h in Hh. destruct (WriteAt_ok newchars newchars_length d h from n pos (m_dok _ _ _ _ M) Hh Hp Hm Hf)
    as (d' & E & Hd' & EC & HO). exists d'. split; [exact E|]. fold w in EC.
  destruct (other_sectors fs d d' e OK He Hd' HO) as (OK' & ED & EH).
  split; [exact OK'|]. split; [|split; [exact ED|]; split; [by apply EH|exact EC]].
  apply map_eq. intros k. destruct (decide (k = key (name e))) as [->|Hk].
  - rewrite lookup_insert_eq. apply (files_lookup big fs d' OK'). exists e. rewrite ED. split; [done|]. split; [done|].
    rewrite EH by done. exact EC.
  - rewrite lookup_insert_ne by congruence. apply option_eq. intros c.
    rewrite (files_lookup big fs d' OK'), (files_lookup big fs d OK), ED.
    assert (EC' : forall x, x ∈ live (dir_of (sec d) (dhdr fs)) -> key (name x) = k ->
      contents (sec d') (hdr_at (sec d') (hsector x)) = contents (sec d) (hdr_at (sec d) (hsector x))).
    { intros x Hx Ek. rewrite EH by done. apply contents_agree. intros m Hm1.
      pose proof (list_elem_of_further m (hsector x) _ Hm1) as Hm2.
      apply HO; [by apply (owned_apart big fs d OK x m Hx Hm2)|]. intros Hm3.
      pose proof (owned_disjoint big fs d OK x e m Hx He Hm2 (list_elem_of_further _ _ _ Hm3)). congruence. }
    split; intros (x & Hx & Ek & Hc); exists x; (split; [exact Hx|]); (split; [exact Ek|]); by rewrite ?EC', <- ?EC' in *.
Qed.

(** ** The free sectors *)

Lemma bits_length fs d : fs_ok fs d -> Z.of_nat (length (bits (map_of (sec d) (mhdr fs)))) = NumSectors.
Proof. intros OK. by rewrite length_bits by apply OK. Qed.

Lemma data_lengths fs d : fs_ok fs d -> length (data (mhdr fs)) = 1%nat /\ length (data (dhdr fs)) = 2%nat.
Proof.
  intros OK. pose proof (o_meta _ _ _ OK) as M.
  pose proof (data_length _ (m_ok0 _ _ _ _ M)) as L0. pose proof (data_length _ (m_ok1 _ _ _ _ M)) as L1.
  rewrite (h_sectors _ (m_ok0 _ _ _ _ M)), (m_size0 _ _ _ _ M) in L0.
  rewrite (h_sectors _ (m_ok1 _ _ _ _ M)), (m_size1 _ _ _ _ M) in L1.
  change (divRoundUp 128 SectorSize) with 1 in L0. change (divRoundUp 200 SectorSize) with 2 in L1. lia.
Qed.

(** The free map has as many clear bits as the files leave. *)
Lemma free_count fs d : fs_ok fs d -> BitSpec.NumClear (bits (map_of (sec d) (mhdr fs))) = free (files (sec d) (dhdr fs)).
Proof.
  intros OK. rewrite (NumClear_used _ (used (sec d) (mhdr fs) (dhdr fs)) (o_used _ _ _ OK)).
  - rewrite bits_length by done. unfold free, FileSysInv.files. rewrite (taken_perm _ (file_of big (sec d) <$> live (dir_of (sec d) (dhdr fs)))).
    + unfold FileSysInv.used. destruct (data_lengths fs d OK) as [L0 L1]. cbn [length]. rewrite !length_app, L0, L1.
      assert (E : Z.of_nat (length (concat (owned (sec d) <$> live (dir_of (sec d) (dhdr fs))))) =
                  taken (file_of big (sec d) <$> live (dir_of (sec d) (dhdr fs)))); [|lia].
      pose proof (o_files _ _ _ OK) as HF. induction (live (dir_of (sec d) (dhdr fs))) as [|e l IH]; [done|].
      destruct (HF e (list_elem_of_here _ _)) as [_ He]. cbn. rewrite length_app.
      unfold taken in IH |- *. cbn. rewrite <- IH by (intros x Hx; apply HF; by apply list_elem_of_further).
      rewrite contents_length by (done || apply (m_dok _ _ _ _ (o_meta _ _ _ OK))).
      pose proof (data_length _ He). unfold blocks. rewrite (h_sectors _ He) in *. lia.
    + apply map_to_list_to_map. rewrite <- list_fmap_compose. exact (o_names _ _ _ OK).
  - intros n. split.
    + intros Hn. pose proof (used_sector big fs d OK n Hn) as [H0 _]. split; [done|]. by apply (o_free _ _ _ OK).
    + intros [H0 Hm]. by apply (o_free _ _ _ OK).
Qed.

(** Sectors that were clear belong to nothing. *)
Lemma takes_fresh fs d l bs' : fs_ok fs d -> takes (bits (map_of (sec d) (mhdr fs))) l bs' ->
  NoDup (l ++ used (sec d) (mhdr fs) (dhdr fs)) /\
  (forall n, n ∈ l -> is_sector n /\ n ∉ used (sec d) (mhdr fs) (dhdr fs)).
Proof.
  intros OK (L & HN & HF & _). rewrite bits_length in HF by done. rewrite Forall_forall in HF.
  assert (HU : forall n, n ∈ l -> is_sector n /\ n ∉ used (sec d) (mhdr fs) (dhdr fs)).
  { intros n Hn. destruct (HF n Hn) as [Hr Hc]. split; [exact Hr|]. intros Hu.
    apply (o_free _ _ _ OK) in Hu; [|lia]. unfold marked in Hu. congruence. }
  split; [|done]. apply NoDup_app. split; [done|]. split; [|apply (o_used _ _ _ OK)]. intros n Hn. by apply HU.
Qed.

(** Outside the two files of the file system and the new file. *)
Lemma used_parts fs (d : D) n : n ∈ used (sec d) (mhdr fs) (dhdr fs) <->
  n = 0 \/ n = 1 \/ n ∈ data (mhdr fs) \/ n ∈ data (dhdr fs) \/
  exists e, e ∈ live (dir_of (sec d) (dhdr fs)) /\ n ∈ owned (sec d) e.
Proof.
  unfold FileSysInv.used. rewrite !elem_of_cons, !elem_of_app.
  assert (E : n ∈ concat (owned (sec d) <$> live (dir_of (sec d) (dhdr fs))) <->
    exists e, e ∈ live (dir_of (sec d) (dhdr fs)) /\ n ∈ owned (sec d) e); [|by rewrite E].
  rewrite list_elem_of_In, in_concat. split.
  - intros (l & Hl & Hn). apply list_elem_of_In in Hl, Hn. apply list_elem_of_fmap in Hl as (e & -> & He). eauto.
  - intros (e & He & Hn). exists (owned (sec d) e). split; apply list_elem_of_In; [by apply list_elem_of_fmap_2|done].
Qed.

(** The file system after a new entry [e], with header [h], was written out. *)
Lemma committed_add fs d d' e h bs' : fs_ok fs d -> meta big d' (mhdr fs) (dhdr fs) ->
  Forall entry_wf (dir_of (sec d') (dhdr fs)) -> live (dir_of (sec d') (dhdr fs)) ≡ₚ e :: live (dir_of (sec d) (dhdr fs)) ->
  key (name e) ∉ names (dir_of (sec d) (dhdr fs)) -> hdr_ok h ->
  brel (map_of (sec d') (mhdr fs)) bs' -> takes (bits (map_of (sec d) (mhdr fs))) (hsector e :: data h) bs' ->
  hdr_at (sec d') (hsector e) = h ->
  (forall m, is_sector m -> m <> hsector e -> m ∉ data (mhdr fs) -> m ∉ data (dhdr fs) -> sec d' m = sec d m) ->
  fs_ok fs d' /\ files (sec d') (dhdr fs) = <[key (name e) := contents (sec d') h]> (files (sec d) (dhdr fs)).
Proof.
  intros OK M' HF HP Hk Hh [HW ->] HT EH HS.
  destruct (takes_fresh fs d _ _ OK HT) as [HN HU].
  assert (HA : forall x, x ∈ live (dir_of (sec d) (dhdr fs)) ->
    hdr_at (sec d') (hsector x) = hdr_at (sec d) (hsector x) /\ owned (sec d') x = owned (sec d) x /\
    file_of big (sec d') x = file_of big (sec d) x).
  { intros x Hx. apply owned_agree. intros n Hn. destruct (owned_apart big fs d OK x n Hx Hn) as (H1 & _ & _ & H4 & H5).
    apply HS; [done| |done|done]. intros ->. destruct (HU (hsector e) (list_elem_of_here _ _)) as [_ HU'].
    apply HU'. apply used_parts. do 4 right. by exists x. }
  assert (EU : used (sec d') (mhdr fs) (dhdr fs) ≡ₚ (hsector e :: data h) ++ used (sec d) (mhdr fs) (dhdr fs)).
  { rewrite (used_add big (sec d) (sec d')); [|exact HP|intros x Hx; by apply HA].
    unfold FileSysInv.owned at 1. by rewrite EH. }
  assert (Hnames : NoDup (names (dir_of (sec d') (dhdr fs)))).
  { unfold names. rewrite HP. cbn. apply NoDup_cons. split; [exact Hk|apply OK]. }
  split.
  - split; [exact M'|exact HF|exact HW| |exact Hnames| |].
    + intros x Hx. rewrite HP in Hx. apply elem_of_cons in Hx as [-> | Hx].
      * rewrite EH. split; [|done]. by apply HU, list_elem_of_here.
      * rewrite (proj1 (HA x Hx)). by apply (o_files _ _ _ OK).
    + rewrite EU. exact HN.
    + intros n Hn. destruct HT as (_ & _ & _ & HM & _). rewrite EU, elem_of_app, HM by done.
      rewrite <- (o_free _ _ _ OK) by done. tauto.
  - rewrite (files_add big (sec d) (sec d') (dhdr fs) e Hnames HP); [by rewrite EH|]. intros x Hx. by apply HA.
Qed.

(** The table with a new entry. *)
Lemma Add_ok t nm s : Forall entry_wf t -> key nm ∉ names t -> is_sector s ->
  if decide (length (live t) < length t)%nat then
    exists e t', Add t nm s = (true, t') /\ length t' = length t /\ Forall entry_wf t' /\
      live t' ≡ₚ e :: live t /\ key (name e) = key nm /\ hsector e = s
  else Add t nm s = (false, t).
Proof.
  intros HF Hk Hs. unfold Add. destruct (FindIndex_spec t nm) as [[-> _] | (j & e & _ & Ej & Eu & Ek)].
  2:{ exfalso. apply Hk. rewrite <- Ek. apply (list_elem_of_fmap_2 (fun e => key (name e))).
      apply live_in. split; [done|by eapply list_elem_of_lookup_2]. }
  rewrite bool_decide_false by (intros ?; done). pose proof (add_loop_spec t nm s) as HA.
  destruct (add_loop t nm s) as [t'|].
  - destruct HA as (t1 & e & t2 & -> & Eu & ->). pose proof (live_full t1 e t2 Eu). rewrite decide_True by done.
    exists (filled e nm s), (t1 ++ filled e nm s :: t2). split; [done|]. split; [by rewrite !length_app|].
    apply Forall_app in HF as [HF1 HF2]. apply Forall_cons in HF2 as [[E1 E2 E3 E4] HF2]. split; [|split; [|split]].
    + apply Forall_app. split; [done|]. apply Forall_cons. split; [|done]. split; try done.
      * cbn. unfold is_sector, NumSectors, SectorsPerTrack, NumTracks, is_i32, int_min, int_max in *. lia.
      * cbn [name filled]. rewrite length_app, strncpy_length, length_drop, E3. done.
    + by apply live_fill.
    + apply filled_key.
    + done.
  - rewrite decide_False by lia. done.
Qed.

(** The end of [Create]: the header, the directory and the free map go to disk. *)
Lemma create_commit fs d d1 e h t' bm' bs' : fs_ok fs d -> same d d1 ->
  length t' = 10%nat -> Forall entry_wf t' -> live t' ≡ₚ e :: live (dir_of (sec d) (dhdr fs)) ->
  key (name e) ∉ names (dir_of (sec d) (dhdr fs)) -> hdr_ok h ->
  brel bm' bs' -> takes (bits (map_of (sec d) (mhdr fs))) (hsector e :: data h) bs' ->
  exists d3 d4 d5, WriteBack big h (hsector e) d1 = Ok d3 /\
    Directory_WriteBack big newchars t' (directoryFile fs) d3 = Ok d4 /\
    Bitmap_WriteBack big newchars bm' (freeMapFile fs) d4 = Ok d5 /\
    fs_ok fs d5 /\ files (sec d5) (dhdr fs) = <[key (name e) := contents (sec d5) h]> (files (sec d) (dhdr fs)).
Proof.
  intros OK [Hd1 S1] Ht HF HP Hk Hh R HT. destruct (takes_fresh fs d _ _ OK HT) as [_ HU].
  pose proof (o_meta _ _ _ OK) as M. destruct (HU (hsector e) (list_elem_of_here _ _)) as [Hs Hsu].
  rewrite used_parts in Hsu. unfold WriteBack.
  destruct (write_law d1 (hsector e) (hdr_bytes big h) Hd1 Hs) as (d3 & E3 & Hd3 & S3).
  { apply hdr_length. by apply hdr_ok_fits. }
  assert (M3 : meta big d3 (mhdr fs) (dhdr fs)).
  { apply (meta_write big d); [done|done|]. intros m Hm Hm'. rewrite S3, decide_False by (done || intros ->; tauto). by apply S1. }
  destruct (write_dir big newchars newchars_length d3 (mhdr fs) (directoryFile fs) t' M3 Ht HF) as (d4 & E4 & M4 & ED4 & _ & S4).
  assert (Hn' : BitmapImpl.numBits bm' = 1024).
  { destruct R as [HW ->]. destruct HT as [HL _]. pose proof (length_bits bm' HW) as E. rewrite HL, bits_length in E by done. done. }
  destruct (write_map big newchars newchars_length d4 (freeMapFile fs) (dhdr fs) bm' M4 (proj1 R) Hn') as (d5 & E5 & M5 & EM5 & ED5 & S5).
  exists d3, d4, d5. split; [exact E3|]. split; [exact E4|]. split; [exact E5|].
  assert (SO : forall m, is_sector m -> m ∉ data (mhdr fs) -> m ∉ data (dhdr fs) -> sec d5 m = sec d3 m).
  { intros m Hm H1 H2. rewrite S5, S4; done. }
  apply (committed_add fs d d5 e h bs' OK M5).
  - rewrite ED5, ED4. exact HF.
  - rewrite ED5, ED4. exact HP.
  - exact Hk.
  - exact Hh.
  - rewrite EM5. exact R.
  - exact HT.
  - unfold FileSysInv.hdr_at. rewrite SO; [|exact Hs|tauto|tauto]. rewrite S3, decide_True by done.
    apply hdr_roundtrip. by apply hdr_ok_fits.
  - intros m Hm Hne H1 H2. rewrite SO by assumption. rewrite S3, decide_False by assumption. by apply S1.
Qed.

Lemma Create_ok fs d nm n : fs_ok fs d -> 0 <= n <= MaxFileSize ->
  let m := files (sec d) (dhdr fs) in
  if decide (m !! key nm = None /\ (size m < 10)%nat /\ blocks n <= free m) then
    exists d' c, Create big newchars newhdr newentries fs nm n d = Ok (true, d') /\ fs_ok fs d' /\
      files (sec d') (dhdr fs) = <[key nm := c]> m /\ Z.of_nat (length c) = n
  else exists d', Create big newchars newhdr newentries fs nm n d = Ok (false, d') /\ same d d'.
Proof.
  intros OK Hn m. unfold Create. destruct (load_dir fs d OK) as (d1 & -> & S1). cbn [mbind res_bind].
  destruct (find_file fs d nm OK) as [[-> EN] | (e & -> & He & Hs & Ek)]; cbn [mbind res_bind].
  2:{ rewrite decide_False; [rewrite bool_decide_true by (destruct Hs; lia); by exists d1|].
      intros [EN _]. unfold m in EN. rewrite (proj2 (files_lookup big fs d OK (key nm) _)) in EN by eauto. done. }
  rewrite (bool_decide_false (-1 <> -1)) by (intros ?; done).
  pose proof (o_meta _ _ _ OK) as M.
  destruct (fetch_map big newchars newchars_length d1 (freeMapFile fs) (dhdr fs)) as (d2 & -> & S2); [by eapply meta_same|].
  rewrite (map_of_ext big (sec d) (sec d1)) by (apply M || apply S1). cbn [mbind res_bind].
  pose proof (same_trans _ _ _ S1 S2) as S12. pose proof (free_count fs d OK) as HC.
  set (bm := map_of (sec d) (mhdr fs)) in *. assert (R : brel bm (bits bm)) by (split; [apply OK|done]).
  pose proof (bits_length fs d OK) as HL. fold bm in HL.
  pose proof (divRoundUp_spec n SectorSize ltac:(lia) ltac:(done)) as HD. unfold SectorSize in HD at 2 4.
  destruct (FindAndSet_take bm _ R) as (s & bm1 & -> & [(-> & -> & Hz) | (bs1 & R1 & H0 & T1)]); cbn [mbind res_bind].
  { rewrite bool_decide_true by done. rewrite decide_False; [by exists d2|]. unfold blocks. intros (_ & _ & Hb). fold m in HC. lia. }
  rewrite bool_decide_false by lia. pose proof T1 as (L1 & _ & F1 & _ & C1).
  assert (Hs : is_sector s). { apply Forall_singleton in F1 as [Hr _]. rewrite HL in Hr. exact Hr. }
  pose proof (proj1 (files_None big fs d (key nm)) EN) as Hk.
  pose proof (Add_ok _ nm s (o_entries _ _ _ OK) Hk Hs) as HA.
  rewrite dir_of_length, <- (files_size big fs d OK) in HA. fold m in HA, HC. case_decide as Hlive.
  2:{ rewrite HA. cbn [negb]. rewrite decide_False; [by exists d2|]. tauto. }
  destruct HA as (e & t' & -> & Lt & HF & HP & Ek & Es). cbn [negb].
  pose proof (Allocate_ok newhdr bm1 bs1 n R1 ltac:(rewrite L1; exact HL) newhdr_length newhdr_ints Hn) as HAl.
  cbn zeta in HAl. case_decide as Hb.
  2:{ destruct HAl as (h & ->). cbn [mbind res_bind negb]. rewrite decide_False; [by exists d2|].
      unfold blocks. intros (_ & _ & Hb'). cbn [length] in C1. lia. }
  destruct HAl as (h & bm2 & bs2 & -> & R2 & Hh & En & T2). cbn [mbind res_bind negb].
  rewrite decide_True by (unfold blocks; cbn [length] in C1; split_and!; [exact EN|exact Hlive|lia]).
  pose proof (takes_app _ _ _ _ _ T1 T2) as T12. cbn [app] in T12. rewrite <- Es in T12.
  destruct (create_commit fs d d2 e h t' bm2 bs2 OK S12 Lt HF HP) as (d3 & d4 & d5 & E3 & E4 & E5 & OK5 & EF);
    [by rewrite Ek|exact Hh|exact R2|exact T12|].
  rewrite Es in E3. rewrite E3. cbn [mbind res_bind]. rewrite E4. cbn [mbind res_bind]. rewrite E5. cbn [mbind res_bind].
  exists d5, (contents (sec d5) h). rewrite EF, Ek. split; [done|]. split; [exact OK5|]. split; [done|].
  rewrite contents_length by (done || apply (m_dok _ _ _ _ (o_meta _ _ _ OK5))). exact En.
Qed.

(** A file too long for a header, for which there would be room on the disk. *)
Lemma Create_overflow fs d nm n : fs_ok fs d -> MaxFileSize < n ->
  let m := files (sec d) (dhdr fs) in
  m !! key nm = None -> (size m < 10)%nat -> blocks n <= free m ->
  Create big newchars newhdr newentries fs nm n d = Undef.
Proof.
  intros OK Hn m EN Hlive Hb. unfold Create. destruct (load_dir fs d OK) as (d1 & -> & S1). cbn [mbind res_bind].
  destruct (find_file fs d nm OK) as [[-> _] | (e & _ & He & _ & Ek)]; cbn [mbind res_bind].
  2:{ unfold m in EN. rewrite (proj2 (files_lookup big fs d OK (key nm) _)) in EN by eauto. done. }
  rewrite (bool_decide_false (-1 <> -1)) by (intros ?; done). pose proof (o_meta _ _ _ OK) as M.
  destruct (fetch_map big newchars newchars_length d1 (freeMapFile fs) (dhdr fs)) as (d2 & -> & S2); [by eapply meta_same|].
  rewrite (map_of_ext big (sec d) (sec d1)) by (apply M || apply S1). cbn [mbind res_bind].
  pose proof (free_count fs d OK) as HC. pose proof (bits_length fs d OK) as HL. fold m in HC. unfold blocks in Hb.
  set (bm := map_of (sec d) (mhdr fs)) in *. assert (R : brel bm (bits bm)) by (split; [apply OK|done]).
  change MaxFileSize with 3840 in Hn. pose proof (divRoundUp_spec n SectorSize ltac:(lia) ltac:(done)) as HD. unfold SectorSize in HD at 2 4.
  destruct (FindAndSet_take bm _ R) as (s & bm1 & -> & [(-> & -> & Hz) | (bs1 & R1 & H0 & T1)]); cbn [mbind res_bind]; [lia|].
  rewrite bool_decide_false by lia. pose proof T1 as (L1 & _ & F1 & _ & C1).
  assert (Hs : is_sector s). { apply Forall_singleton in F1 as [Hr _]. rewrite HL in Hr. exact Hr. }
  pose proof (Add_ok _ nm s (o_entries _ _ _ OK) (proj1 (files_None big fs d (key nm)) EN) Hs) as HA.
  rewrite dir_of_length, <- (files_size big fs d OK) in HA. fold m in HA. rewrite decide_True in HA by exact Hlive.
  destruct HA as (e & t' & -> & _). cbn [negb length] in *.
  by rewrite (Allocate_overflow newhdr bm1 bs1 n R1) by first [done | rewrite L1; exact HL | change MaxFileSize with 3840; lia | lia].
Qed.

(** ** Removing a file *)

(** The file system after the entry [e] was removed and written out. *)
Lemma committed_remove fs d d' e bs' : fs_ok fs d -> meta big d' (mhdr fs) (dhdr fs) ->
  Forall entry_wf (dir_of (sec d') (dhdr fs)) -> live (dir_of (sec d) (dhdr fs)) ≡ₚ e :: live (dir_of (sec d') (dhdr fs)) ->
  brel (map_of (sec d') (mhdr fs)) bs' -> releases (bits (map_of (sec d) (mhdr fs))) (owned (sec d) e) bs' ->
  (forall m, is_sector m -> m ∉ data (mhdr fs) -> m ∉ data (dhdr fs) -> sec d' m = sec d m) ->
  fs_ok fs d' /\ files (sec d') (dhdr fs) = delete (key (name e)) (files (sec d) (dhdr fs)).
Proof.
  intros OK M' HF HP [HW ->] [_ HR] HS.
  assert (Hin : forall x, x ∈ live (dir_of (sec d') (dhdr fs)) -> x ∈ live (dir_of (sec d) (dhdr fs))).
  { intros x Hx. rewrite HP. by apply list_elem_of_further. }
  assert (HA : forall x, x ∈ live (dir_of (sec d') (dhdr fs)) ->
    hdr_at (sec d') (hsector x) = hdr_at (sec d) (hsector x) /\ owned (sec d') x = owned (sec d) x /\
    file_of big (sec d') x = file_of big (sec d) x).
  { intros x Hx. apply owned_agree. intros n Hn.
    destruct (owned_apart big fs d OK x n (Hin x Hx) Hn) as (H1 & _ & _ & H4 & H5). by apply HS. }
  pose proof (used_add big (sec d') (sec d) (mhdr fs) (dhdr fs) e HP ltac:(intros x Hx; symmetry; by apply HA)) as EU.
  pose proof (o_names _ _ _ OK) as Hnames. unfold names in Hnames. rewrite HP in Hnames. cbn in Hnames.
  apply NoDup_cons in Hnames as [Hk Hnames].
  pose proof (o_used _ _ _ OK) as HU. rewrite EU in HU. apply NoDup_app in HU as (_ & HU1 & HU2).
  assert (OK' : fs_ok fs d').
  { split; [exact M'|exact HF|exact HW| |exact Hnames|exact HU2|].
    - intros x Hx. rewrite (proj1 (HA x Hx)). by apply (o_files _ _ _ OK), Hin.
    - intros n Hn. rewrite HR, (o_free _ _ _ OK), EU, elem_of_app by done. split; [tauto|].
      intros Hn'. split; [by right|]. intros Hn2. by apply (HU1 n Hn2). }
  split; [exact OK'|].
  rewrite (files_add big (sec d') (sec d) (dhdr fs) e (o_names _ _ _ OK) HP).
  - rewrite delete_insert_id; [done|]. by apply (files_None big fs d').
  - intros x Hx. symmetry. by apply HA.
Qed.

Lemma releases_app bs l1 bs1 l2 bs2 : releases bs l1 bs1 -> releases bs1 l2 bs2 -> releases bs (l2 ++ l1) bs2.
Proof.
  intros [L1 M1] [L2 M2]. split; [congruence|]. intros n Hn. rewrite M2, M1, elem_of_app by done. tauto.
Qed.

(** Freeing the sectors of a file in the free map. *)
Lemma free_file fs d e : fs_ok fs d -> e ∈ live (dir_of (sec d) (dhdr fs)) ->
  let bm := map_of (sec d) (mhdr fs) in
  exists bm1 bm2 bs2, Deallocate (hdr_at (sec d) (hsector e)) bm = Ok bm1 /\ BitmapImpl.Clear bm1 (hsector e) = Ok bm2 /\
    brel bm2 bs2 /\ Z.of_nat (length bs2) = NumSectors /\ releases (bits bm) (hsector e :: data (hdr_at (sec d) (hsector e))) bs2.
Proof.
  intros OK He bm. destruct (o_files _ _ _ OK e He) as [Hs Hh]. set (h := hdr_at (sec d) (hsector e)) in *.
  assert (R : brel bm (bits bm)) by (split; [apply OK|done]). pose proof (bits_length fs d OK) as HL. fold bm in HL.
  assert (HM : forall n, n ∈ owned (sec d) e -> marked (bits bm) n).
  { intros n Hn. apply (o_free _ _ _ OK); [by apply (owned_apart big fs d OK e n He Hn)|]. apply used_parts. do 4 right. eauto. }
  destruct (Deallocate_ok h bm (bits bm) R Hh HL) as (bm1 & bs1 & E1 & R1 & Rel1).
  { intros n Hn. apply HM. by apply list_elem_of_further. }
  destruct (Clear_release bm1 bs1 (hsector e) R1) as (bm2 & bs2 & E2 & R2 & Rel2).
  { rewrite (proj1 Rel1), HL. exact Hs. }
  exists bm1, bm2, bs2. pose proof (releases_app _ _ _ _ _ Rel1 Rel2) as Rel. split_and!; try done.
  rewrite (proj1 Rel), HL. done.
Qed.

Lemma Remove_file_ok fs d nm : fs_ok fs d ->
  let m := files (sec d) (dhdr fs) in
  match m !! key nm with
  | Some _ => exists d', FileSystem_Remove big newchars newentries fs nm d = Ok (true, d') /\ fs_ok fs d' /\
      files (sec d') (dhdr fs) = delete (key nm) m
  | None => exists d', FileSystem_Remove big newchars newentries fs nm d = Ok (false, d') /\ same d d'
  end.
Proof.
  intros OK m. unfold FileSystem_Remove. destruct (load_dir fs d OK) as (d1 & -> & S1). cbn [mbind res_bind].
  destruct (find_file fs d nm OK) as [[-> EN] | (e & -> & He & Hs & Ek)]; cbn [mbind res_bind].
  { unfold m. rewrite EN. rewrite bool_decide_true by done. by exists d1. }
  unfold m. rewrite (proj2 (files_lookup big fs d OK (key nm) _)) by eauto.
  rewrite bool_decide_false by (destruct Hs; lia). pose proof (o_meta _ _ _ OK) as M.
  destruct (fetch_hdr d1 (hsector e) (proj1 S1) Hs) as (d2 & -> & S2). cbn [mbind res_bind].
  pose proof (same_trans _ _ _ S1 S2) as S12.
  destruct (fetch_map big newchars newchars_length d2 (freeMapFile fs) (dhdr fs)) as (d3 & -> & S3); [by eapply meta_same|].
  rewrite (map_of_ext big (sec d) (sec d2)) by (apply M || apply S12).
  rewrite (hdr_at_ext big (sec d) (sec d1)) by (exact Hs || apply S1). cbn [mbind res_bind].
  pose proof (same_trans _ _ _ S12 S3) as S13. destruct (o_files _ _ _ OK e He) as [_ Hh].
  set (h := hdr_at (sec d) (hsector e)) in *. set (bm := map_of (sec d) (mhdr fs)) in *.
  destruct (free_file fs d e OK He) as (bm1 & bm2 & bs2 & ED & EC & R2 & HL & Rel).
  fold h bm in ED, Rel. rewrite ED.
  cbn [mbind res_bind]. rewrite EC. cbn [mbind res_bind].
  destruct (Remove_spec (dir_of (sec d) (dhdr fs)) nm) as (j & e' & -> & Ej & Eu & Ek').
  { rewrite <- Ek. by apply (list_elem_of_fmap_2 (fun e => key (name e))). }
  cbn [mbind res_bind]. set (t' := <[j := freed e']> (dir_of (sec d) (dhdr fs))).
  assert (e' = e) as ->.
  { apply (name_unique big fs d OK); [|exact He|congruence]. apply live_in. split; [exact Eu|]. by eapply list_elem_of_lookup_2. }
  assert (Ht' : length t' = 10%nat) by (unfold t'; by rewrite length_insert).
  assert (HF' : Forall entry_wf t').
  { pose proof (o_entries _ _ _ OK) as HE. apply Forall_insert; [exact HE|].
    destruct (Forall_lookup_1 _ _ _ _ HE Ej). by split. }
  assert (Hn' : BitmapImpl.numBits bm2 = 1024).
  { destruct R2 as [HW ->]. pose proof (length_bits bm2 HW) as E. rewrite HL in E. done. }
  destruct (write_map big newchars newchars_length d3 (freeMapFile fs) (dhdr fs) bm2) as (d4 & -> & M4 & EM4 & ED4 & S4);
    [by eapply meta_same|apply R2|exact Hn'|]. cbn [mbind res_bind].
  destruct (write_dir big newchars newchars_length d4 (mhdr fs) (directoryFile fs) t' M4 Ht' HF') as (d5 & -> & M5 & ED5 & EM5 & S5).
  cbn [mbind res_bind]. exists d5. split; [done|]. rewrite <- Ek.
  apply (committed_remove fs d d5 e bs2 OK M5).
  - rewrite ED5. exact HF'.
  - rewrite ED5. by apply live_free.
  - rewrite EM5, EM4. exact R2.
  - exact Rel.
  - intros n Hn H1 H2. rewrite S5 by assumption. rewrite S4 by assumption. by apply S13.
Qed.

(** ** Formatting *)

Lemma Mark_take bm bs n : brel bm bs -> 0 <= n -> bs !! Z.to_nat n = Some false ->
  exists bm' bs', BitmapImpl.Mark bm n = Ok bm' /\ brel bm' bs' /\ takes bs [n] bs'.
Proof.
  intros R H0 Hb. pose proof (lookup_lt_Some _ _ _ Hb).
  pose proof (Mark_rel bm bs n R) as HM. unfold BitSpec.Mark in HM.
  rewrite (proj2 (in_range_true bs n)) in HM by lia. cbn in HM. destruct HM as (bm' & E & R').
  exists bm', (<[Z.to_nat n := true]> bs). split_and!; [done|done|].
  pose proof (takes_one bs (Z.to_nat n) Hb) as HT. by rewrite Z2Nat.id in HT.
Qed.

(** The free map of a new disk: the headers of the free map and the directory,
    and their data sectors, are taken. *)
Lemma format_map : exists bm0 bm1 bm2 bm3 bm4 h0 h1 bs4,
  BitmapImpl.newBitmap NumSectors = Ok bm0 /\ BitmapImpl.Mark bm0 FreeMapSector = Ok bm1 /\
  BitmapImpl.Mark bm1 DirectorySector = Ok bm2 /\ Allocate newhdr bm2 FreeMapFileSize = Ok (true, h0, bm3) /\
  Allocate newhdr bm3 DirectoryFileSize = Ok (true, h1, bm4) /\ hdr_ok h0 /\ hdr_ok h1 /\
  numBytes h0 = 128 /\ numBytes h1 = 200 /\ brel bm4 bs4 /\
  takes (replicate (Z.to_nat NumSectors) false) (0 :: 1 :: data h0 ++ data h1) bs4.
Proof.
  set (bs0 := replicate (Z.to_nat NumSectors) false).
  assert (C0 : BitSpec.NumClear bs0 = NumSectors) by apply NumClear_replicate.
  assert (L0 : Z.of_nat (length bs0) = NumSectors) by (unfold bs0; by rewrite length_replicate).
  destruct (newBitmap_spec NumSectors) as (bm0 & E0 & R0 & _); [done|]. fold bs0 in R0.
  destruct (Mark_take bm0 bs0 0 R0) as (bm1 & bs1 & E1 & R1 & T1); [done|done|].
  pose proof T1 as (L1 & _ & _ & M1 & C1). cbn [length] in C1.
  destruct (Mark_take bm1 bs1 1 R1) as (bm2 & bs2 & E2 & R2 & T2); [done| |].
  { destruct (lookup_lt_is_Some_2 bs1 1) as [b Eb]; [rewrite L1; unfold bs0; rewrite length_replicate; by apply Nat.ltb_lt|].
    change (Z.to_nat 1) with 1%nat. destruct b; [|done].
    assert (HM : marked bs1 1) by done. destruct (proj1 (M1 1 ltac:(lia)) HM) as [HM' | HM'].
    - unfold marked, bs0 in HM'. by apply lookup_replicate in HM' as [? _].
    - by apply list_elem_of_singleton in HM'. }
  pose proof (takes_app _ _ _ _ _ T1 T2) as T12. pose proof T2 as (L2 & _ & _ & _ & C2). cbn [length] in C2.
  assert (HN : NumSectors = 1024) by done. clearbody bs0.
  assert (B1 : 0 <= FreeMapFileSize <= MaxFileSize) by (split; by vm_compute).
  assert (B2 : 0 <= DirectoryFileSize <= MaxFileSize) by (split; by vm_compute).
  assert (LL2 : Z.of_nat (length bs2) = NumSectors) by (rewrite L2, L1; exact L0).
  pose proof (Allocate_ok newhdr bm2 bs2 FreeMapFileSize R2 LL2 newhdr_length newhdr_ints B1) as A1.
  change (divRoundUp FreeMapFileSize SectorSize) with 1 in A1. cbn zeta in A1. rewrite decide_True in A1 by lia.
  destruct A1 as (h0 & bm3 & bs3 & E3 & R3 & H0 & N0 & T3). pose proof T3 as (L3 & _ & _ & _ & C3).
  pose proof (data_length h0 H0) as D0. rewrite (h_sectors _ H0), N0 in D0.
  change (divRoundUp FreeMapFileSize SectorSize) with 1 in D0.
  pose proof (Allocate_ok newhdr bm3 bs3 DirectoryFileSize R3 ltac:(by rewrite L3) newhdr_length newhdr_ints B2) as A2.
  change (divRoundUp DirectoryFileSize SectorSize) with 2 in A2. cbn zeta in A2. rewrite decide_True in A2 by lia.
  destruct A2 as (h1 & bm4 & bs4 & E4 & R4 & H1 & N1 & T4).
  exists bm0, bm1, bm2, bm3, bm4, h0, h1, bs4. split_and!; try assumption.
  exact (takes_app _ _ _ _ _ T12 (takes_app _ _ _ _ _ T3 T4)).
Qed.

Lemma format_ok d : dok d -> exists fs d',
  newFileSystem big newchars newhdr newentries true d = Ok (fs, d') /\ fs_ok fs d' /\ files (sec d') (dhdr fs) = ∅.
Proof.
  intros Hd. unfold newFileSystem.
  destruct format_map as (bm0 & bm1 & bm2 & bm3 & bm4 & h0 & h1 & bs4 & -> & E1 & E2 & E3 & E4 & O0 & O1 & N0 & N1 & R & T).
  cbn [mbind res_bind]. rewrite E1. cbn [mbind res_bind]. rewrite E2. cbn [mbind res_bind]. rewrite E3.
  cbn [mbind res_bind ASSERT]. rewrite E4. cbn [mbind res_bind ASSERT]. clear E1 E2 E3 E4.
  pose proof T as (TL & TN & TF & TM & _). destruct sector_01 as [S0 S1]. unfold WriteBack, FreeMapSector, DirectorySector.
  destruct (write_law d 0 (hdr_bytes big h0) Hd S0) as (d1 & -> & Hd1 & W1); [by apply hdr_length, hdr_ok_fits|]. cbn [mbind res_bind].
  destruct (write_law d1 1 (hdr_bytes big h1) Hd1 S1) as (d2 & -> & Hd2 & W2); [by apply hdr_length, hdr_ok_fits|]. cbn [mbind res_bind].
  assert (M2 : meta big d2 h0 h1).
  { split; try assumption; unfold FileSysInv.hdr_at.
    - rewrite W2 by done. rewrite decide_False by done. rewrite W1 by done. rewrite decide_True by done. by apply hdr_roundtrip, hdr_ok_fits.
    - rewrite W2 by done. rewrite decide_True by done. by apply hdr_roundtrip, hdr_ok_fits. }
  unfold mount, newOpenFile.
  destruct (fetch_hdr d2 0 Hd2 S0) as (d3 & E3 & HS3). unfold FreeMapSector, DirectorySector. rewrite E3. cbn [mbind res_bind].
  destruct (fetch_hdr d3 1 (proj1 HS3) S1) as (d4 & E4 & HS4). rewrite E4. cbn [mbind res_bind].
  rewrite (hdr_at_ext big (sec d2) (sec d3)) by (exact S1 || apply HS3). rewrite (m_hdr0 _ _ _ _ M2), (m_hdr1 _ _ _ _ M2).
  pose proof (meta_same big d2 d4 h0 h1 M2 (same_trans _ _ _ HS3 HS4)) as M4. cbn [freeMapFile directoryFile].
  assert (HN : BitmapImpl.numBits bm4 = 1024).
  { destruct R as [HW ->]. pose proof (length_bits bm4 HW) as E. rewrite TL, length_replicate in E. by rewrite <- E. }
  destruct (write_map big newchars newchars_length d4 (mkOpenFile h0 0) h1 bm4 M4 (proj1 R) HN) as (d5 & -> & M5 & EM5 & _ & _).
  cbn [mbind res_bind hdr] in *. destruct newDirectory_ok as (NL & NW & NV).
  destruct (write_dir big newchars newchars_length d5 h0 (mkOpenFile h1 0) _ M5 NL NW) as (d6 & -> & M6 & ED6 & EM6 & _).
  cbn [mbind res_bind hdr] in *. eexists _, d6. split; [reflexivity|].
  split; [split|]; cbn [freeMapFile directoryFile hdr]; rewrite ?ED6, ?EM6, ?EM5.
  - exact M6.
  - exact NW.
  - apply R.
  - rewrite NV. intros e He. destruct (not_elem_of_nil _ He).
  - unfold names. rewrite NV. constructor.
  - unfold FileSysInv.used. rewrite ED6, NV. cbn. rewrite app_nil_r. exact TN.
  - intros n Hn. destruct R as [_ ->]. rewrite TM by done. unfold FileSysInv.used. rewrite ED6, NV. cbn [concat fmap list_fmap].
    rewrite app_nil_r. split; [|by right]. intros [Hm | ?]; [|done]. unfold marked in Hm.
    by apply lookup_replicate in Hm as [? _].
  - unfold FileSysInv.files. rewrite ED6, NV. done.
Qed.

End ops.
