(* ===== verification/FileSysClaims.v ===== *)
(** * Open files and the file system: the theorems *)

From S2P Require Import Prelude Bytes Bitmap BitmapProofs Disk DiskProofs OpenFile OpenFileProofs.
From S2P Require Import FileSys FileSysProofs FileSysInv FileSysOps.

#[local] Abbreviation sec := DiskProofs.sector.

(** ** Open files *)

Inductive file_op : Type :=
| FRead (n : Z) | FWrite (from : list Z) | FReadAt (n pos : Z) | FWriteAt (from : list Z) (pos : Z)
| FSeek (pos : Z) | FLength.

(** Positions and sizes of at most 10^9: their sums are [int]s. *)
Definition file_op_ok (o : file_op) : Prop :=
  match o with
  | FRead n => n <= 1000000000
  | FWrite from => Z.of_nat (length from) <= 1000000000
  | FReadAt n pos => n <= 1000000000 /\ 0 <= pos <= 1000000000
  | FWriteAt from pos => Z.of_nat (length from) <= 1000000000 /\ 0 <= pos <= 1000000000
  | FSeek pos => 0 <= pos <= 1000000000
  | FLength => True
  end.

(** Result and bytes read. *)
Definition do_file_op {D} `{!SectorStore D} (newchars : Z -> list Z) (o : file_op) (s : OpenFile * D)
    : res (Z * list Z * (OpenFile * D)) :=
  let '(f, d) := s in
  match o with
  | FRead n => '(r, bs, f, d) ← Read_ newchars f n d; Ok (r, bs, (f, d))
  | FWrite from => '(r, f, d) ← Write_ newchars f from (Z.of_nat (length from)) d; Ok (r, [], (f, d))
  | FReadAt n pos => '(r, bs, d) ← ReadAt newchars (hdr f) n pos d; Ok (r, bs, (f, d))
  | FWriteAt from pos => '(r, d) ← WriteAt newchars (hdr f) from (Z.of_nat (length from)) pos d; Ok (r, [], (f, d))
  | FSeek pos => Ok (0, [], (Seek f pos, d))
  | FLength => Ok (Length f, [], s)
  end.

(** The same on an array of bytes with a position. *)
Definition array_read (c : list Z) (n pos : Z) : Z * list Z :=
  let bs := take (Z.to_nat n) (drop (Z.to_nat pos) c) in (Z.of_nat (length bs), bs).

Definition array_write (c from : list Z) (pos : Z) : Z * list Z :=
  let w := Z.max 0 (Z.min (Z.of_nat (length from)) (Z.of_nat (length c) - pos)) in
  (w, splice c (Z.to_nat pos) (take (Z.to_nat w) from)).

Definition array_op (o : file_op) (s : list Z * Z) : Z * list Z * (list Z * Z) :=
  let '(c, seek) := s in
  match o with
  | FRead n => let '(r, bs) := array_read c n seek in (r, bs, (c, seek + r))
  | FWrite from => let '(w, c) := array_write c from seek in (w, [], (c, seek + w))
  | FReadAt n pos => let '(r, bs) := array_read c n pos in (r, bs, s)
  | FWriteAt from pos => let '(w, c) := array_write c from pos in (w, [], (c, seek))
  | FSeek pos => (0, [], (c, pos))
  | FLength => (Z.of_nat (length c), [], s)
  end.

Fixpoint run_file_ops {D} `{!SectorStore D} (newchars : Z -> list Z) (ops : list file_op) (s : OpenFile * D)
    : res (list (Z * list Z) * (OpenFile * D)) :=
  match ops with
  | [] => Ok ([], s)
  | o :: ops' => '(r, bs, s) ← do_file_op newchars o s; '(outs, s) ← run_file_ops newchars ops' s; Ok ((r, bs) :: outs, s)
  end.

Fixpoint run_array_ops (ops : list file_op) (s : list Z * Z) : list (Z * list Z) * (list Z * Z) :=
  match ops with
  | [] => ([], s)
  | o :: ops' => let '(r, bs, s) := array_op o s in let '(outs, s) := run_array_ops ops' s in ((r, bs) :: outs, s)
  end.

Section files.
Context {D : Type} `{!SectorStore D} `{!LawfulStore D}.
Context (newchars : Z -> list Z) (newchars_length : forall n, 0 <= n -> length (newchars n) = Z.to_nat n).

(** The file [f] on disk [d] is the array [s]; the other sectors are those of [d0]. *)
Record file_rel (d0 : D) (h : FileHeader) (f : OpenFile) (d : D) (s : list Z * Z) : Prop := mkFileRel {
  r_dok : dok d;
  r_hdr : hdr f = h;
  r_contents : contents (sec d) h = s.1;
  r_seek : seekPosition f = s.2;
  r_range : 0 <= s.2 <= 1000000000;
  r_frame : forall m, is_sector m -> m ∉ data h -> sec d m = sec d0 m }.

Lemma array_read_ok d h n pos : dok d -> hdr_ok h -> n <= 1000000000 -> 0 <= pos <= 1000000000 ->
  exists d', ReadAt newchars h n pos d = Ok ((array_read (contents (sec d) h) n pos).1, (array_read (contents (sec d) h) n pos).2, d') /\
    same d d' /\ (array_read (contents (sec d) h) n pos).1 = within h n pos.
Proof.
  intros Hd H Hn Hp. destruct (ReadAt_ok newchars newchars_length d h n pos Hd H) as (d' & -> & HS & HL); [lia|unfold int_max; lia|].
  exists d'. unfold array_read. cbn [fst snd]. by rewrite HL.
Qed.

Lemma array_write_ok d h from pos : dok d -> hdr_ok h -> Z.of_nat (length from) <= 1000000000 -> 0 <= pos <= 1000000000 ->
  exists d', WriteAt newchars h from (Z.of_nat (length from)) pos d = Ok ((array_write (contents (sec d) h) from pos).1, d') /\
    dok d' /\ contents (sec d') h = (array_write (contents (sec d) h) from pos).2 /\
    (forall m, is_sector m -> m ∉ data h -> sec d' m = sec d m) /\
    (array_write (contents (sec d) h) from pos).1 = within h (Z.of_nat (length from)) pos.
Proof.
  intros Hd H Hn Hp. pose proof (contents_length d h Hd H) as HL.
  destruct (WriteAt_ok newchars newchars_length d h from (Z.of_nat (length from)) pos Hd H) as (d' & -> & Hd' & EC & HO);
    [lia|unfold int_max; lia|lia|].
  exists d'. unfold array_write. rewrite HL. cbn [fst snd]. by split_and!.
Qed.

Lemma file_op_rel d0 h o f d s : hdr_ok h -> file_op_ok o -> file_rel d0 h f d s ->
  exists f' d', do_file_op newchars o (f, d) = Ok ((array_op o s).1, (f', d')) /\ file_rel d0 h f' d' (array_op o s).2.
Proof.
  intros H Ho [Hd Eh EC Es Hr HF]. destruct s as [c k]. cbn [fst snd] in *. subst c k. pose proof (max_size h H) as HM.
  pose proof (contents_length d h Hd H) as HL.
  destruct o as [n|from|n pos|from pos|pos|]; cbn [do_file_op file_op_ok array_op] in *.
  - destruct (array_read_ok d h n (seekPosition f) Hd H Ho Hr) as (d' & E & [Hd' HS] & Ew). unfold Read_. rewrite Eh, E.
    destruct (array_read _ _ _) as [r bs]. cbn [mbind res_bind fst snd] in *.
    eexists _, d'. split; [reflexivity|]. unfold within in Ew. split; cbn [hdr seekPosition fst snd]; try done.
    + by apply contents_ext.
    + apply i32_id. unfold is_i32, int_min, int_max. lia.
    + lia.
    + intros m Hm Hm'. rewrite HS by done. by apply HF.
  - destruct (array_write_ok d h from (seekPosition f) Hd H Ho Hr) as (d' & E & Hd' & EC' & HO & Ew). unfold Write_. rewrite Eh, E.
    destruct (array_write _ _ _) as [w c]. cbn [mbind res_bind fst snd] in *.
    eexists _, d'. split; [reflexivity|]. unfold within in Ew. split; cbn [hdr seekPosition fst snd]; try done.
    + apply i32_id. unfold is_i32, int_min, int_max. lia.
    + lia.
    + intros m Hm Hm'. rewrite HO by done. by apply HF.
  - destruct Ho as [Ho Hp]. destruct (array_read_ok d h n pos Hd H Ho Hp) as (d' & E & [Hd' HS] & Ew). rewrite Eh, E.
    destruct (array_read _ _ _) as [r bs]. cbn [mbind res_bind fst snd] in *. exists f, d'. split; [done|].
    split; cbn [fst snd]; try done; [by apply contents_ext|]. intros m Hm Hm'. rewrite HS by done. by apply HF.
  - destruct Ho as [Ho Hp]. destruct (array_write_ok d h from pos Hd H Ho Hp) as (d' & E & Hd' & EC' & HO & Ew). rewrite Eh, E.
    destruct (array_write _ _ _) as [w c]. cbn [mbind res_bind fst snd] in *. exists f, d'. split; [done|].
    split; cbn [fst snd]; try done. intros m Hm Hm'. rewrite HO by done. by apply HF.
  - eexists _, d. split; [reflexivity|]. by split.
  - exists f, d. unfold Length, FileLength. rewrite Eh, HL. split; [done|]. by split.
Qed.

Lemma run_file_ops_rel d0 h ops f d s : hdr_ok h -> Forall file_op_ok ops -> file_rel d0 h f d s ->
  let '(outs, (c', seek')) := run_array_ops ops s in
  exists d', run_file_ops newchars ops (f, d) = Ok (outs, (mkOpenFile h seek', d')) /\
    dok d' /\ contents (sec d') h = c' /\
    (forall m, is_sector m -> m ∉ data h -> sec d' m = sec d0 m).
Proof.
  intros H HF. revert f d s. induction HF as [|o ops Ho HF IH]; intros f d s HR; cbn [run_file_ops run_array_ops].
  - destruct s as [c k]. destruct HR as [Hd Eh EC Es _ HO]. cbn [fst snd] in *. exists d.
    destruct f as [h' k']. cbn in Eh, Es. by subst.
  - destruct (file_op_rel d0 h o f d s H Ho HR) as (f' & d' & -> & HR').
    destruct (array_op o s) as [[r bs] s'] eqn:Ea. cbn [mbind res_bind fst snd] in *. specialize (IH f' d' s' HR').
    destruct (run_array_ops ops s') as [outs [c' k']]. destruct IH as (d2 & -> & H1 & H2 & H3). by exists d2.
Qed.

(** C17: an open file is an array of bytes with a position.  On any disk of
    sectors and for any file whose header lists different sectors: every sequence
    of reads, writes and seeks, at any alignment, succeeds and returns what it
    returns on the array of the file's bytes; requests are cut off at the end of
    the file; and no other sector of the disk changes. *)
Theorem open_file_is_an_array (d : D) (h : FileHeader) (ops : list file_op) :
  dok d -> hdr_ok h -> Forall file_op_ok ops ->
  let '(outs, (c', seek')) := run_array_ops ops (contents (sec d) h, 0) in
  exists d', run_file_ops newchars ops (mkOpenFile h 0, d) = Ok (outs, (mkOpenFile h seek', d')) /\
    dok d' /\ contents (sec d') h = c' /\
    (forall m, is_sector m -> m ∉ data h -> sec d' m = sec d m).
Proof.
  intros Hd H HF. apply (run_file_ops_rel d h ops (mkOpenFile h 0) d (contents (sec d) h, 0) H HF).
  split; [exact Hd|done|done|done|cbn; lia|done].
Qed.

End files.

(** A file of 300 bytes in sectors 7, 5 and 1000 of an empty disk. *)
Definition demo_store : list (list Z) := replicate 1024 (replicate 128 0).
Definition demo_header : FileHeader := mkHdr 300 3 ([7; 5; 1000] ++ replicate 27 0).
Definition demo_chars (n : Z) : list Z := replicate (Z.to_nat n) 255.
Definition demo_file_ops : list file_op := [FSeek 120; FWrite (replicate 20 1); FRead 2; FReadAt 500 130; FWriteAt [9; 9] 299; FLength].

Lemma demo_chars_length n : 0 <= n -> length (demo_chars n) = Z.to_nat n.
Proof. intros _. apply length_replicate. Qed.

Lemma demo_store_ok : dok demo_store.
Proof. split; [done|]. by apply Forall_replicate. Qed.

Lemma demo_header_ok : hdr_ok demo_header.
Proof.
  split; [by vm_compute|by vm_compute|by vm_compute|by vm_compute| | |].
  - apply Forall_app. split; [|apply Forall_replicate; by split]. by repeat (apply Forall_cons; split; [by split|]).
  - change (data demo_header) with [7; 5; 1000]. by repeat (apply Forall_cons; split; [by split|]).
  - change (data demo_header) with [7; 5; 1000]. apply (bool_decide_unpack (NoDup [7; 5; 1000])). by vm_compute.
Qed.

Lemma open_file_is_an_array_witness :
  (let '(outs, (c', seek')) := run_array_ops demo_file_ops (contents (sec demo_store) demo_header, 0) in
   exists d', run_file_ops demo_chars demo_file_ops (mkOpenFile demo_header 0, demo_store) = Ok (outs, (mkOpenFile demo_header seek', d')) /\
    dok d' /\ contents (sec d') demo_header = c' /\
    (forall m, is_sector m -> m ∉ data demo_header -> sec d' m = sec demo_store m)) /\
  (run_array_ops demo_file_ops (contents (sec demo_store) demo_header, 0)).2.2 = 142.
Proof.
  split; [|by vm_compute].
  apply (open_file_is_an_array demo_chars demo_chars_length demo_store demo_header demo_file_ops
    demo_store_ok demo_header_ok).
  repeat (apply Forall_cons; split; [cbn; first [exact I | lia]|]). by apply Forall_nil.
Defined.

(** ** The file system *)

Inductive fs_op : Type :=
| FsCreate (nm : list Z) (size : Z) | FsRemove (nm : list Z) | FsList | FsMount
| FsRead (nm : list Z) (n pos : Z) | FsWrite (nm : list Z) (from : list Z) (pos : Z).

Inductive fs_out : Type :=
| OutBool (b : bool) | OutNames (l : list (list Z)) | OutNone | OutIO (r : option (Z * list Z)).

Definition fs_op_ok (o : fs_op) : Prop :=
  match o with
  | FsCreate _ n => 0 <= n <= MaxFileSize
  | FsRead _ n pos => n <= 1000000000 /\ 0 <= pos <= 1000000000
  | FsWrite _ from pos => Z.of_nat (length from) <= 1000000000 /\ 0 <= pos <= 1000000000
  | _ => True
  end.

(** The operations; reads and writes open the file by its name, and [FsMount]
    starts the file system again from what is on the disk. *)
Definition do_fs_op {D} `{!SectorStore D} (big : bool) (newchars : Z -> list Z) (newhdr : FileHeader)
    (newentries : list DirectoryEntry) (o : fs_op) (s : FileSystem * D) : res (fs_out * (FileSystem * D)) :=
  let '(fs, d) := s in
  match o with
  | FsCreate nm n => '(b, d) ← Create big newchars newhdr newentries fs nm n d; Ok (OutBool b, (fs, d))
  | FsRemove nm => '(b, d) ← FileSystem_Remove big newchars newentries fs nm d; Ok (OutBool b, (fs, d))
  | FsList => '(l, d) ← FileSystem_List big newchars newentries fs d; Ok (OutNames l, (fs, d))
  | FsMount => '(fs, d) ← newFileSystem big newchars newhdr newentries false d; Ok (OutNone, (fs, d))
  | FsRead nm n pos =>
      '(f, d) ← Open big newchars newentries fs nm d;
      match f with
      | None => Ok (OutIO None, (fs, d))
      | Some f => '(r, bs, d) ← ReadAt newchars (hdr f) n pos d; Ok (OutIO (Some (r, bs)), (fs, d))
      end
  | FsWrite nm from pos =>
      '(f, d) ← Open big newchars newentries fs nm d;
      match f with
      | None => Ok (OutIO None, (fs, d))
      | Some f => '(r, d) ← WriteAt newchars (hdr f) from (Z.of_nat (length from)) pos d; Ok (OutIO (Some (r, [])), (fs, d))
      end
  end.

Fixpoint run_fs_ops {D} `{!SectorStore D} (big : bool) (newchars : Z -> list Z) (newhdr : FileHeader)
    (newentries : list DirectoryEntry) (ops : list fs_op) (s : FileSystem * D) : res (list fs_out * (FileSystem * D)) :=
  match ops with
  | [] => Ok ([], s)
  | o :: ops' =>
      '(out, s) ← do_fs_op big newchars newhdr newentries o s;
      '(outs, s) ← run_fs_ops big newchars newhdr newentries ops' s; Ok (out :: outs, s)
  end.

(** What the operations do to a finite map from names, cut to nine bytes, to
    contents.  The initial contents of a file are not specified. *)
Inductive map_op (m : gmap (list Z) (list Z)) : fs_op -> fs_out -> gmap (list Z) (list Z) -> Prop :=
| map_create nm n c : m !! key nm = None -> (size m < 10)%nat -> blocks n <= free m -> Z.of_nat (length c) = n ->
    map_op m (FsCreate nm n) (OutBool true) (<[key nm := c]> m)
| map_refuse nm n : ~ (m !! key nm = None /\ (size m < 10)%nat /\ blocks n <= free m) ->
    map_op m (FsCreate nm n) (OutBool false) m
| map_remove nm c : m !! key nm = Some c -> map_op m (FsRemove nm) (OutBool true) (delete (key nm) m)
| map_absent nm : m !! key nm = None -> map_op m (FsRemove nm) (OutBool false) m
| map_list l : key <$> l ≡ₚ (map_to_list m).*1 -> map_op m FsList (OutNames l) m
| map_mount : map_op m FsMount OutNone m
| map_read nm n pos c : m !! key nm = Some c -> map_op m (FsRead nm n pos) (OutIO (Some (array_read c n pos))) m
| map_write nm from pos c : m !! key nm = Some c ->
    map_op m (FsWrite nm from pos) (OutIO (Some ((array_write c from pos).1, []))) (<[key nm := (array_write c from pos).2]> m)
| map_no_read nm n pos : m !! key nm = None -> map_op m (FsRead nm n pos) (OutIO None) m
| map_no_write nm from pos : m !! key nm = None -> map_op m (FsWrite nm from pos) (OutIO None) m.

Inductive map_ops : gmap (list Z) (list Z) -> list fs_op -> list fs_out -> gmap (list Z) (list Z) -> Prop :=
| map_nil m : map_ops m [] [] m
| map_cons m1 m2 m3 o ops out outs : map_op m1 o out m2 -> map_ops m2 ops outs m3 -> map_ops m1 (o :: ops) (out :: outs) m3.

(** The free map on disk marks exactly the sectors in use, and no sector is used
    twice. *)
Definition accounted {D} `{!SectorStore D} `{!LawfulStore D} (big : bool) (fs : FileSystem) (d : D) : Prop :=
  let u := used big (sec d) (hdr (freeMapFile fs)) (hdr (directoryFile fs)) in
  NoDup u /\ forall n, is_sector n ->
    BitmapImpl.Test (map_of big (sec d) (hdr (freeMapFile fs))) n = Ok (bool_decide (n ∈ u)).

Section filesystem.
Context {D : Type} `{!SectorStore D} `{!LawfulStore D}.
Context (big : bool) (newchars : Z -> list Z) (newchars_length : forall n, 0 <= n -> length (newchars n) = Z.to_nat n).
Context (newhdr : FileHeader) (newhdr_length : Z.of_nat (length (dataSectors newhdr)) = NumDirect)
  (newhdr_ints : Forall is_i32 (dataSectors newhdr)).
Context (newentries : list DirectoryEntry) (newentries_length : (10 <= length newentries)%nat)
  (newentries_wf : Forall entry_wf newentries).

#[local] Abbreviation the_files fs d := (files big (sec d) (hdr (directoryFile fs))).

Lemma accounted_ok fs d : fs_ok big fs d -> accounted big fs d.
Proof.
  intros OK. split; [apply (o_used _ _ _ OK)|]. intros n Hn. pose proof (o_map _ _ _ OK) as HW.
  rewrite Test_spec by (exact HW || exact Hn). f_equal. symmetry. pose proof (bit_lookup _ n HW Hn) as Hb.
  destruct (bit _ n) eqn:E.
  - apply bool_decide_eq_true. apply (o_free _ _ _ OK); [by destruct Hn|exact Hb].
  - apply bool_decide_eq_false. intros Hu. apply (o_free _ _ _ OK) in Hu; [|by destruct Hn]. unfold marked in Hu. congruence.
Qed.

Lemma list_step fs d : fs_ok big fs d -> exists l d',
  FileSystem_List big newchars newentries fs d = Ok (l, d') /\ same d d' /\ key <$> l ≡ₚ (map_to_list (the_files fs d)).*1.
Proof.
  intros OK. unfold FileSystem_List.
  destruct (load_dir big newchars newchars_length newhdr newentries newentries_length newentries_wf fs d OK) as (d' & -> & HS).
  cbn [mbind res_bind]. eexists _, d'. split; [reflexivity|]. split; [exact HS|]. unfold files, List.
  rewrite map_to_list_to_map by (rewrite <- list_fmap_compose; exact (o_names _ _ _ OK)).
  by rewrite <- !list_fmap_compose.
Qed.

(** Opening a file for a read or a write. *)
Lemma open_step fs d nm : fs_ok big fs d -> exists r d', Open big newchars newentries fs nm d = Ok (r, d') /\ fs_ok big fs d' /\
  the_files fs d' = the_files fs d /\
  match the_files fs d !! key nm with
  | None => r = None
  | Some c => exists e, e ∈ live (dir_of big (sec d') (hdr (directoryFile fs))) /\ key (name e) = key nm /\
      r = Some (mkOpenFile (hdr_at big (sec d') (FileSys.sector e)) 0) /\ contents (sec d') (hdr_at big (sec d') (FileSys.sector e)) = c
  end.
Proof.
  intros OK. destruct (Open_ok big newchars newchars_length newhdr newentries newentries_length newentries_wf fs d nm OK) as (r & d' & E & HS & HM).
  destruct (file_same big fs d d' OK HS) as [OK' EF]. exists r, d'. split; [exact E|]. split; [exact OK'|]. split; [exact EF|].
  destruct (the_files fs d !! key nm) as [c|] eqn:Ec; [|exact HM]. destruct HM as (e & He & Ek & -> & Hc).
  assert (Hs : is_sector (FileSys.sector e)) by (by apply (o_files _ _ _ OK)).
  exists e. rewrite (dir_of_ext big (sec d) (sec d')) by (apply HS || apply (m_ok1 _ _ _ _ (o_meta _ _ _ OK))).
  rewrite (hdr_at_ext big (sec d) (sec d')) by (exact Hs || apply HS). split; [exact He|]. split; [exact Ek|]. split; [done|].
  rewrite <- Hc. apply contents_ext; [by apply (o_files _ _ _ OK)|apply HS].
Qed.

Lemma fs_read_step fs d nm n pos : fs_ok big fs d -> n <= 1000000000 -> 0 <= pos <= 1000000000 ->
  exists out d', do_fs_op big newchars newhdr newentries (FsRead nm n pos) (fs, d) = Ok (out, (fs, d')) /\ fs_ok big fs d' /\
    map_op (the_files fs d) (FsRead nm n pos) out (the_files fs d').
Proof.
  intros OK Hn Hp. cbn [do_fs_op]. destruct (open_step fs d nm OK) as (r & d1 & -> & OK1 & EF & HM). cbn [mbind res_bind].
  destruct (the_files fs d !! key nm) as [c|] eqn:Ec.
  - destruct HM as (e & He & Ek & -> & Hc). cbn [hdr].
    destruct (array_read_ok newchars newchars_length d1 (hdr_at big (sec d1) (FileSys.sector e)) n pos) as (d2 & -> & HS & _);
      [apply (m_dok _ _ _ _ (o_meta _ _ _ OK1))|by apply (o_files _ _ _ OK1)|exact Hn|exact Hp|].
    cbn [mbind res_bind]. destruct (file_same big fs d1 d2 OK1 HS) as [OK2 EF2]. rewrite Hc.
    eexists _, d2. split; [reflexivity|]. split; [exact OK2|]. rewrite EF2, EF. rewrite <- surjective_pairing. by apply map_read.
  - subst r. eexists _, d1. split; [reflexivity|]. split; [exact OK1|]. rewrite EF. by apply map_no_read.
Qed.

Lemma fs_write_step fs d nm from pos : fs_ok big fs d -> Z.of_nat (length from) <= 1000000000 -> 0 <= pos <= 1000000000 ->
  exists out d', do_fs_op big newchars newhdr newentries (FsWrite nm from pos) (fs, d) = Ok (out, (fs, d')) /\ fs_ok big fs d' /\
    map_op (the_files fs d) (FsWrite nm from pos) out (the_files fs d').
Proof.
  intros OK Hn Hp. cbn [do_fs_op]. destruct (open_step fs d nm OK) as (r & d1 & -> & OK1 & EF & HM). cbn [mbind res_bind].
  destruct (the_files fs d !! key nm) as [c|] eqn:Ec.
  - destruct HM as (e & He & Ek & -> & Hc). cbn [hdr]. pose proof (m_dok _ _ _ _ (o_meta _ _ _ OK1)) as Hd1.
    destruct (o_files _ _ _ OK1 e He) as [_ Hh].
    destruct (write_file big newchars newchars_length fs d1 e from (Z.of_nat (length from)) pos OK1 He) as (d2 & -> & OK2 & EF2 & _);
      [lia|unfold int_max; lia|lia|].
    cbn [mbind res_bind]. set (h := hdr_at big (sec d1) (FileSys.sector e)) in *.
    assert (Ew : array_write c from pos = (within h (Z.of_nat (length from)) pos,
      splice c (Z.to_nat pos) (take (Z.to_nat (within h (Z.of_nat (length from)) pos)) from))).
    { unfold array_write, within. rewrite <- Hc, (contents_length d1 h Hd1 Hh). done. }
    eexists _, d2. split; [reflexivity|]. split; [exact OK2|]. rewrite EF2, EF, Ek, Hc.
    pose proof (map_write _ nm from pos c Ec) as HW. rewrite Ew in HW. exact HW.
  - subst r. eexists _, d1. split; [reflexivity|]. split; [exact OK1|]. rewrite EF. by apply map_no_write.
Qed.

Lemma fs_op_step o fs d : fs_ok big fs d -> fs_op_ok o ->
  exists out fs' d', do_fs_op big newchars newhdr newentries o (fs, d) = Ok (out, (fs', d')) /\ fs_ok big fs' d' /\
    map_op (the_files fs d) o out (the_files fs' d').
Proof.
  intros OK Ho. destruct o as [nm n|nm| | |nm n pos|nm from pos]; cbn [fs_op_ok] in Ho.
  - pose proof (Create_ok big newchars newchars_length newhdr newhdr_length newhdr_ints newentries newentries_length newentries_wf
      fs d nm n OK Ho) as HC. cbn zeta in HC. cbn [do_fs_op]. case_decide as E.
    + destruct HC as (d' & c & -> & OK' & EF & Hc). exists (OutBool true), fs, d'. split; [done|]. split; [exact OK'|].
      rewrite EF. destruct E as (E1 & E2 & E3). by apply map_create.
    + destruct HC as (d' & -> & HS). destruct (file_same big fs d d' OK HS) as [OK' EF].
      exists (OutBool false), fs, d'. split; [done|]. split; [exact OK'|]. rewrite EF. by apply map_refuse.
  - pose proof (Remove_file_ok big newchars newchars_length newhdr newentries newentries_length newentries_wf fs d nm OK) as HR.
    cbn zeta in HR. cbn [do_fs_op]. destruct (the_files fs d !! key nm) as [c|] eqn:Ec.
    + destruct HR as (d' & -> & OK' & EF). exists (OutBool true), fs, d'. split; [done|]. split; [exact OK'|].
      rewrite EF. by eapply map_remove.
    + destruct HR as (d' & -> & HS). destruct (file_same big fs d d' OK HS) as [OK' EF].
      exists (OutBool false), fs, d'. split; [done|]. split; [exact OK'|]. rewrite EF. by apply map_absent.
  - destruct (list_step fs d OK) as (l & d' & E & HS & HP). cbn [do_fs_op]. rewrite E.
    destruct (file_same big fs d d' OK HS) as [OK' EF]. exists (OutNames l), fs, d'. split; [done|]. split; [exact OK'|].
    rewrite EF. by apply map_list.
  - destruct (mount_ok big fs d OK) as (d' & E & HS). cbn [do_fs_op newFileSystem]. rewrite E. cbn [mbind res_bind].
    destruct (remount_ok big fs d d' OK HS) as [OK' EF]. eexists OutNone, _, d'. split; [reflexivity|]. split; [exact OK'|].
    rewrite EF. apply map_mount.
  - destruct Ho as [Hn Hp]. destruct (fs_read_step fs d nm n pos OK Hn Hp) as (out & d' & H). by exists out, fs, d'.
  - destruct Ho as [Hn Hp]. destruct (fs_write_step fs d nm from pos OK Hn Hp) as (out & d' & H). by exists out, fs, d'.
Qed.

Lemma fs_ops_steps ops fs d : fs_ok big fs d -> Forall fs_op_ok ops ->
  exists outs fs' d', run_fs_ops big newchars newhdr newentries ops (fs, d) = Ok (outs, (fs', d')) /\ fs_ok big fs' d' /\
    map_ops (the_files fs d) ops outs (the_files fs' d').
Proof.
  intros OK HF. revert fs d OK. induction HF as [|o ops Ho _ IH]; intros fs d OK; cbn [run_fs_ops].
  - exists [], fs, d. split; [done|]. split; [exact OK|]. constructor.
  - destruct (fs_op_step o fs d OK Ho) as (out & fs1 & d1 & -> & OK1 & H1). cbn [mbind res_bind].
    destruct (IH fs1 d1 OK1) as (outs & fs2 & d2 & -> & OK2 & H2). cbn [mbind res_bind].
    exists (out :: outs), fs2, d2. split; [done|]. split; [exact OK2|]. by eapply map_cons.
Qed.

(** C1: the file system is a map from names to contents.  Formatting any disk
    succeeds and gives an empty file system.  From there every sequence of file
    creations, removals, reads, writes, listings and restarts succeeds, whatever
    the uninitialised memory contains, and does what the same operations do to
    a finite map: a file is created exactly when its name is new, the directory
    has a free entry and there are enough free sectors for its header and data;
    reads return what was written; no operation changes another file; and
    everything survives a restart.  At every point no sector is used twice and
    the free map on disk marks exactly the sectors in use. *)
Theorem filesystem_is_a_map (d : D) (ops : list fs_op) : dok d -> Forall fs_op_ok ops ->
  exists fs0 d0 outs fs' d', newFileSystem big newchars newhdr newentries true d = Ok (fs0, d0) /\
    run_fs_ops big newchars newhdr newentries ops (fs0, d0) = Ok (outs, (fs', d')) /\
    map_ops ∅ ops outs (the_files fs' d') /\ accounted big fs' d'.
Proof.
  intros Hd HF.
  destruct (format_ok big newchars newchars_length newhdr newhdr_length newhdr_ints newentries newentries_length newentries_wf d Hd)
    as (fs0 & d0 & E0 & OK0 & EF0).
  destruct (fs_ops_steps ops fs0 d0 OK0 HF) as (outs & fs' & d' & E & OK' & HM). rewrite EF0 in HM.
  exists fs0, d0, outs, fs', d'. split; [exact E0|]. split; [exact E|]. split; [exact HM|]. by apply accounted_ok.
Qed.

End filesystem.

(** A disk with garbage on it, and operations on two files. *)
Definition demo_entry : DirectoryEntry := mkEntry true [1; 2; 3] 77 (replicate 10 42) [4; 5].
Definition demo_fs_ops : list fs_op :=
  [FsCreate [97] 200; FsCreate [97] 5; FsCreate [98; 99] 3840; FsWrite [97] [1; 2; 3] 127; FsMount;
   FsRead [97] 4 126; FsRemove [98; 99]; FsRead [98; 99] 1 0; FsList].

Lemma filesystem_is_a_map_witness :
  exists fs0 d0 outs fs' d',
    newFileSystem false demo_chars demo_header (replicate 10 demo_entry) true demo_store = Ok (fs0, d0) /\
    run_fs_ops false demo_chars demo_header (replicate 10 demo_entry) demo_fs_ops (fs0, d0) = Ok (outs, (fs', d')) /\
    map_ops ∅ demo_fs_ops outs (files false (sec d') (hdr (directoryFile fs'))) /\ accounted false fs' d'.
Proof.
  apply (filesystem_is_a_map false demo_chars demo_chars_length demo_header).
  - done.
  - apply (h_ints _ demo_header_ok).
  - by rewrite length_replicate.
  - apply Forall_replicate. by split.
  - exact demo_store_ok.
  - repeat (apply Forall_cons; split; [cbn; first [exact I | split; by vm_compute | lia]|]). by apply Forall_nil.
Defined.
