(* ===== verification/Network.v ===== *)
(** * machine/network.cc, network/post.cc: the network and the post office

    Each machine of the network is a kernel of its own, with a clock, pending
    interrupts (the model of that component), two network devices, and the post
    office on top of them: a thread, the postal worker, that sorts incoming
    packets into mailboxes, and threads that call [Send] and [Receive].

    A routine is cut where it may block or be preempted; a thread is the list of
    the steps it still has to take, and any thread that is not blocked may take
    its next step.  Here the synchronisation objects are what their component
    promises: a semaphore is its value, a lock is a semaphore and its holder, and a
    mailbox, which is a [SynchList], is a queue. *)

From S2P Require Import Prelude Bytes Lists Sched Interrupt.
Import Interrupt.Interrupt.

Definition NetworkTime : Z := 100.

(** The classes [PacketHeader] and [MailHeader] have the same three fields: two
    addresses and the number of bytes of data that follow. *)
Record Header : Type := mkHeader { to : Z; from : Z; len : Z }.

#[global] Instance Header_eq_dec : EqDecision Header.
Proof. solve_decision. Defined.

Definition HeaderSize : Z := 12.
Definition MaxWireSize : Z := 64.
Definition MaxPacketSize : Z := MaxWireSize - HeaderSize.
Definition MaxMailSize : Z := MaxPacketSize - HeaderSize.

Record Mail : Type := mkMail { pktHdr : Header; mailHdr : Header; data : list Z }.

Record NetworkInput : Type := mkNetworkInput {
  sock : list (list Z); packetAvail : bool; inHdr : Header; inbox : list Z; numPacketsRecvd : Z }.
Record NetworkOutput : Type := mkNetworkOutput { sendBusy : bool; numPacketsSent : Z }.

Record PostOfficeInput : Type := mkPostIn {
  network : NetworkInput; boxes : list (list Mail); numBoxes : Z; messageAvailable : Z }.
Record PostOfficeOutput : Type := mkPostOut {
  networkOut : NetworkOutput; messageSent : Z; sendLock : Z; lockHolder : option Z }.

(** What the interrupt handlers of a machine reach. *)
Record Post : Type := mkPost { hostName : Z; input : PostOfficeInput; output : PostOfficeOutput }.

Section network.
(** [big]: the byte order of the hosts; [newchars n]: the contents of a
    [new char[n]]; [works n]: whether [n] is less than [chanceToWork * 100];
    [inDev] and [outDev]: the addresses of the devices. *)
Context (big : bool) (newchars : Z -> list Z) (works : Z -> bool) (inDev outDev : Z).

(** The memory of a header. *)
Definition header_bytes (h : Header) : list Z :=
  host_bytes big (to h) ++ host_bytes big (from h) ++ host_bytes big (len h).
Definition header_of_bytes (bs : list Z) : Header :=
  mkHeader (host_int big (take 4 bs)) (host_int big (take 4 (drop 4 bs))) (u32 (host_int big (take 4 (drop 8 bs)))).

(** ** The network devices *)

Definition newNetworkInput (i : Interrupt) : res (Interrupt * NetworkInput) :=
  i ← Schedule i inDev NetworkTime NetworkRecvInt;
  Ok (i, mkNetworkInput [] false (mkHeader 0 0 0) (newchars MaxPacketSize) 0).

(** [recvfrom] with room for [MaxWireSize] bytes. *)
Definition ReadFromSocket (packet : list Z) : res (list Z) :=
  let buffer := take (Z.to_nat MaxWireSize) packet in
  _ ← ASSERT (bool_decide (Z.of_nat (length buffer) = MaxWireSize)); Ok buffer.

(** The last component says whether the post office is told of a packet. *)
Definition NetworkInput_CallBack (name : Z) (i : Interrupt) (n : NetworkInput)
    : res (Interrupt * NetworkInput * bool) :=
  i ← Schedule i inDev NetworkTime NetworkRecvInt;
  if bool_decide (len (inHdr n) <> 0) then Ok (i, n, false)
  else
    match sock n with
    | [] => Ok (i, n, false)
    | packet :: rest =>
        buffer ← ReadFromSocket packet;
        let hdr := header_of_bytes buffer in
        _ ← ASSERT (bool_decide (to hdr = name) && bool_decide (len hdr <= MaxPacketSize));
        bs ← mem_read buffer HeaderSize (Z.to_nat (len hdr));
        box ← mem_write (inbox n) 0 bs;
        Ok (i, mkNetworkInput rest (packetAvail n) hdr box (i32 (numPacketsRecvd n + 1)), true)
    end.

(** [dest]: the caller's buffer. *)
Definition NetworkInput_Receive (n : NetworkInput) (dest : list Z) : res (Header * list Z * NetworkInput) :=
  let hdr := inHdr n in
  let n' := mkNetworkInput (sock n) (packetAvail n) (mkHeader (to hdr) (from hdr) 0) (inbox n) (numPacketsRecvd n) in
  if bool_decide (len hdr <> 0) then
    bs ← mem_read (inbox n) 0 (Z.to_nat (len hdr));
    dest ← mem_write dest 0 bs; Ok (hdr, dest, n')
  else Ok (hdr, dest, n').

Definition newNetworkOutput : NetworkOutput := mkNetworkOutput false 0.

Definition NetworkOutput_CallBack (n : NetworkOutput) : NetworkOutput :=
  mkNetworkOutput false (i32 (numPacketsSent n + 1)).

(** [rand]: what [RandomNumber] returns.  The packet for the socket, if it is not
    lost; [sendBusy] is only looked at. *)
Definition NetworkOutput_Send (name rand : Z) (i : Interrupt) (n : NetworkOutput) (hdr : Header) (dat : list Z)
    : res (Interrupt * option (list Z)) :=
  _ ← ASSERT (negb (sendBusy n) && bool_decide (len hdr > 0) && bool_decide (len hdr <= MaxPacketSize)
              && bool_decide (from hdr = name));
  i ← Schedule i outDev NetworkTime NetworkSendInt;
  if negb (works (rand mod 100)) then Ok (i, None)
  else
    buffer ← mem_write (newchars MaxWireSize) 0 (header_bytes hdr);
    bs ← mem_read dat 0 (Z.to_nat (len hdr));
    buffer ← mem_write buffer HeaderSize bs;
    Ok (i, Some buffer).

(** ** Mailboxes *)

Definition newMail (pktH mailH : Header) (msgData : list Z) : res Mail :=
  _ ← ASSERT (bool_decide (len mailH <= MaxMailSize));
  bs ← mem_read msgData 0 (Z.to_nat (len mailH));
  d ← mem_write (newchars MaxMailSize) 0 bs;
  Ok (mkMail pktH mailH d).

Definition Put (box : list Mail) (pktH mailH : Header) (dat : list Z) : res (list Mail) :=
  mail ← newMail pktH mailH dat; Ok (box ++ [mail]).

(** [Get] blocks on an empty box ([None]); [dest] is the caller's buffer. *)
Definition Get (box : list Mail) (dest : list Z) : res (option (Header * Header * list Z * list Mail)) :=
  match box with
  | [] => Ok None
  | mail :: box' =>
      bs ← mem_read (data mail) 0 (Z.to_nat (len (mailHdr mail)));
      dest ← mem_write dest 0 bs;
      Ok (Some (pktHdr mail, mailHdr mail, dest, box'))
  end.

(** ** The post office *)

(** [V] on a semaphore at which the model keeps no queue. *)
Definition V_value (v : Z) : Z := i32 (v + 1).

Definition newPostOfficeInput (i : Interrupt) (nBoxes : Z) : res (Interrupt * PostOfficeInput) :=
  '(i, n) ← newNetworkInput i; Ok (i, mkPostIn n (replicate (Z.to_nat nBoxes) []) nBoxes 0).
Definition newPostOfficeOutput : PostOfficeOutput := mkPostOut newNetworkOutput 0 1 None.

Definition set_network (p : PostOfficeInput) (n : NetworkInput) : PostOfficeInput :=
  mkPostIn n (boxes p) (numBoxes p) (messageAvailable p).
Definition PostOfficeInput_CallBack (p : PostOfficeInput) : PostOfficeInput :=
  mkPostIn (network p) (boxes p) (numBoxes p) (V_value (messageAvailable p)).
Definition PostOfficeOutput_CallBack (p : PostOfficeOutput) : PostOfficeOutput :=
  mkPostOut (networkOut p) (V_value (messageSent p)) (sendLock p) (lockHolder p).

(** The handlers of the two devices, each with the one it calls. *)
#[global] Instance post_devices : Devices Post := {|
  CallBack a i d :=
    if bool_decide (a = inDev) then
      '(i, n, told) ← NetworkInput_CallBack (hostName d) i (network (input d));
      let p := set_network (input d) n in
      Ok (i, mkPost (hostName d) (if (told : bool) then PostOfficeInput_CallBack p else p) (output d))
    else if bool_decide (a = outDev) then
      let p := output d in
      let p := mkPostOut (NetworkOutput_CallBack (networkOut p)) (messageSent p) (sendLock p) (lockHolder p) in
      Ok (i, mkPost (hostName d) (input d) (PostOfficeOutput_CallBack p))
    else Undef;
  DelayedLoad00 d := Ok d |}.

(** The steps of the routines.  [PostalDelivery] is a loop of the first three;
    [SSend] records, for the theorems, what the caller asked to send. *)
Inductive step : Type :=
| DWait (buffer : list Z)
| DReceive (buffer : list Z)
| DPut (pktH mailH : Header) (buffer : list Z)
| RGet (box : Z) (dest : list Z)
| SAcquire
| SSend (m : Mail) (pktH : Header) (buffer : list Z)
| SWait
| SRelease.

(** A machine; [got] records what [Receive] returned, and from which box. *)
Record Host : Type := mkHost {
  intr : Interrupt; post : Post; threads : gmap Z (list step); got : list (Z * Mail) }.

Definition prog (h : Host) (t : Z) : list step := default [] (threads h !! t).
Definition set_prog (h : Host) (t : Z) (p : list step) : Host :=
  mkHost (intr h) (post h) (<[t := p]> (threads h)) (got h).
Definition set_input (h : Host) (p : PostOfficeInput) : Host :=
  mkHost (intr h) (mkPost (hostName (post h)) p (output (post h))) (threads h) (got h).
Definition set_output (h : Host) (p : PostOfficeOutput) : Host :=
  mkHost (intr h) (mkPost (hostName (post h)) (input (post h)) p) (threads h) (got h).
Definition set_intr (h : Host) (i : Interrupt) : Host := mkHost i (post h) (threads h) (got h).

(** The postal worker. *)
Definition worker : Z := 0.

(** A machine after the constructors of the post office, which [Kernel::Initialize]
    has commented out; the postal worker waits for mail. *)
Definition newHost (name nBoxes : Z) : res Host :=
  '(i, p) ← newPostOfficeInput newInterrupt nBoxes;
  Ok (mkHost i (mkPost name p newPostOfficeOutput) {[worker := [DWait (newchars MaxPacketSize)]]} []).

(** The body of [PostalDelivery] between [P] and [Put]. *)
Definition PostalDelivery_receive (p : PostOfficeInput) (buffer : list Z)
    : res (Header * Header * list Z * PostOfficeInput) :=
  '(pktH, buffer, n) ← NetworkInput_Receive (network p) buffer;
  let mailH := header_of_bytes buffer in
  _ ← ASSERT (bool_decide (0 <= to mailH) && bool_decide (to mailH < numBoxes p));
  _ ← ASSERT (bool_decide (len mailH <= MaxMailSize));
  Ok (pktH, mailH, buffer, set_network p n).

Definition PostalDelivery_put (p : PostOfficeInput) (pktH mailH : Header) (buffer : list Z) : res PostOfficeInput :=
  box ← aget (boxes p) (to mailH);
  box ← Put box pktH mailH (drop (Z.to_nat HeaderSize) buffer);
  bs ← aset (boxes p) (to mailH) box;
  Ok (mkPostIn (network p) bs (numBoxes p) (messageAvailable p)).

(** [Receive] up to the call of [Get]. *)
Definition PostOfficeInput_Receive (p : PostOfficeInput) (box : Z) (dest : list Z) : res (list step) :=
  _ ← ASSERT (bool_decide (box >= 0) && bool_decide (box < numBoxes p)); Ok [RGet box dest].

(** [Send] up to the lock. *)
Definition PostOfficeOutput_Send (name : Z) (pktH mailH : Header) (dat : list Z) : res (list step) :=
  _ ← ASSERT (bool_decide (len mailH <= MaxMailSize));
  _ ← ASSERT (bool_decide (0 <= to mailH));
  let pktH := mkHeader (to pktH) name (u32 (len mailH + HeaderSize)) in
  buffer ← mem_write (newchars MaxPacketSize) 0 (header_bytes mailH);
  bs ← mem_read dat 0 (Z.to_nat (len mailH));
  buffer ← mem_write buffer HeaderSize bs;
  Ok [SAcquire; SSend (mkMail pktH mailH bs) pktH buffer; SWait; SRelease].

(** ** The steps of a thread *)

(** What a step leads to: [None] when the thread is blocked or has returned,
    otherwise the machine and perhaps a packet for the network. *)
Definition outcome : Type := res (option (Host * option (Mail * list Z))).

Definition goes_on (h : Host) : outcome := Ok (Some (h, None)).

(** [Get] in [Receive], and what follows. *)
Definition step_get (t : Z) (h : Host) (box : Z) (dest : list Z) (rest : list step) : outcome :=
  let p := input (post h) in
  bx ← aget (boxes p) box;
  r ← Get bx dest;
  match r with
  | None => Ok None
  | Some (pktH, mailH, dest, bx) =>
      bs ← aset (boxes p) box bx;
      _ ← ASSERT (bool_decide (len mailH <= MaxMailSize));
      let h := set_input h (mkPostIn (network p) bs (numBoxes p) (messageAvailable p)) in
      goes_on (mkHost (intr h) (post h) (<[t := rest]> (threads h)) (got h ++ [(box, mkMail pktH mailH dest)]))
  end.

(** One step of thread [t]. *)
Definition thread_step (t rand : Z) (h : Host) : outcome :=
  let p := input (post h) in
  let q := output (post h) in
  match prog h t with
  | [] => Ok None
  | DWait buffer :: rest =>
      if bool_decide (messageAvailable p = 0) then Ok None
      else
        let p := mkPostIn (network p) (boxes p) (numBoxes p) (i32 (messageAvailable p - 1)) in
        goes_on (set_prog (set_input h p) t (DReceive buffer :: rest))
  | DReceive buffer :: rest =>
      '(pktH, mailH, buffer, p) ← PostalDelivery_receive p buffer;
      goes_on (set_prog (set_input h p) t (DPut pktH mailH buffer :: rest))
  | DPut pktH mailH buffer :: rest =>
      p ← PostalDelivery_put p pktH mailH buffer;
      goes_on (set_prog (set_input h p) t (DWait buffer :: rest))
  | RGet box dest :: rest => step_get t h box dest rest
  | SAcquire :: rest =>
      if bool_decide (sendLock q = 0) then Ok None
      else
        let q := mkPostOut (networkOut q) (messageSent q) (i32 (sendLock q - 1)) (Some t) in
        goes_on (set_prog (set_output h q) t rest)
  | SSend m pktH buffer :: rest =>
      '(i, out) ← NetworkOutput_Send (hostName (post h)) rand (intr h) (networkOut q) pktH buffer;
      Ok (Some (set_prog (set_intr h i) t rest, (fun packet => (m, packet)) <$> (out : option (list Z))))
  | SWait :: rest =>
      if bool_decide (messageSent q = 0) then Ok None
      else
        let q := mkPostOut (networkOut q) (i32 (messageSent q - 1)) (sendLock q) (lockHolder q) in
        goes_on (set_prog (set_output h q) t rest)
  | SRelease :: rest =>
      _ ← ASSERT (bool_decide (lockHolder q = Some t));
      let q := mkPostOut (networkOut q) (messageSent q) (V_value (sendLock q)) None in
      goes_on (set_prog (set_output h q) t rest)
  end.

(** ** The network *)

(** The machines by name, and the mail that the network has accepted, in order. *)
Record World : Type := mkWorld { hosts : gmap Z Host; sent : list Mail }.

(** [SendToSocket], where the packet gets through. *)
Definition arrive (packet : list Z) (h : Host) : Host :=
  let n := network (input (post h)) in
  set_input h (set_network (input (post h))
    (mkNetworkInput (sock n ++ [packet]) (packetAvail n) (inHdr n) (inbox n) (numPacketsRecvd n))).

(** The clock is not about to leave the range of [int]. *)
Definition clock_ok (h : Host) : Prop := totalTicks (intr h) <= 2000000000.

Inductive wstep : World -> World -> Prop :=
(** a thread takes a step *)
| w_thread W a h t rand h' :
    hosts W !! a = Some h -> clock_ok h -> thread_step t rand h = Ok (Some (h', None)) ->
    wstep W (mkWorld (<[a := h']> (hosts W)) (sent W))
(** the step sends a packet, and it arrives *)
| w_send W a h t rand h' m packet hd :
    hosts W !! a = Some h -> clock_ok h -> thread_step t rand h = Ok (Some (h', Some (m, packet))) ->
    <[a := h']> (hosts W) !! to (pktHdr m) = Some hd ->
    wstep W (mkWorld (<[to (pktHdr m) := arrive packet hd]> (<[a := h']> (hosts W))) (sent W ++ [m]))
(** the step sends a packet, and [SendToSocket] gives up *)
| w_drop W a h t rand h' m packet :
    hosts W !! a = Some h -> clock_ok h -> thread_step t rand h = Ok (Some (h', Some (m, packet))) ->
    wstep W (mkWorld (<[a := h']> (hosts W)) (sent W))
(** time passes on a machine, and interrupts occur *)
| w_tick W a h i d y :
    hosts W !! a = Some h -> clock_ok h -> OneTick (intr h) (post h) = Ok (i, d, y) ->
    wstep W (mkWorld (<[a := mkHost i d (threads h) (got h)]> (hosts W)) (sent W))
(** all threads of a machine are blocked, the last one in [P] with interrupts off,
    and the clock moves to the next interrupt *)
| w_idle W a h i d :
    hosts W !! a = Some h -> clock_ok h -> (forall t rand, thread_step t rand h = Ok None) ->
    Idle (ChangeLevel (intr h) IntOff) (post h) = Ok (true, i, d) ->
    wstep W (mkWorld (<[a := mkHost i d (threads h) (got h)]> (hosts W)) (sent W))
(** a thread calls [Send] or [Receive]; its buffers are large enough, and there
    is such a box at the destination *)
| w_call_send W a h t pktH mailH dat p :
    hosts W !! a = Some h -> t <> worker -> prog h t = [] ->
    is_i32 (to pktH) -> is_i32 (to mailH) -> is_i32 (from mailH) -> 0 <= len mailH <= Z.of_nat (length dat) ->
    (forall hd, hosts W !! to pktH = Some hd -> to mailH < numBoxes (input (post hd))) ->
    PostOfficeOutput_Send (hostName (post h)) pktH mailH dat = Ok p ->
    wstep W (mkWorld (<[a := set_prog h t p]> (hosts W)) (sent W))
| w_call_receive W a h t box dest p :
    hosts W !! a = Some h -> t <> worker -> prog h t = [] -> (Z.to_nat MaxMailSize <= length dest)%nat ->
    PostOfficeInput_Receive (input (post h)) box dest = Ok p ->
    wstep W (mkWorld (<[a := set_prog h t p]> (hosts W)) (sent W)).

End network.
