(* ===== verification/NetworkProofs.v ===== *)
(** * The network delivers what was sent

    Layout of headers and packets; what the interrupt handlers keep true; the
    invariant of a machine, which every step of a thread and every interrupt
    preserves. *)

From S2P Require Import Prelude Bytes Lists ListProofs Sched Interrupt InterruptProofs Devices Network.
Import Interrupt.Interrupt.

(** ** Layout *)

Section layout.
Context (big : bool).

Record header_ok (h : Header) : Prop := mkHeaderOk { k_to : is_i32 (to h); k_from : is_i32 (from h); k_len : is_u32 (len h) }.

Lemma header_length h : length (header_bytes big h) = 12%nat.
Proof. unfold header_bytes. by rewrite !length_app, !host_bytes_length. Qed.

Lemma header_roundtrip h l : header_ok h -> header_of_bytes big (header_bytes big h ++ l) = h.
Proof.
  intros [Ht Hf Hl]. unfold header_of_bytes, header_bytes. rewrite <- !app_assoc.
  rewrite host_int_app by done. rewrite (drop_host _ _ _ 0), drop_0, host_int_app by done.
  change 8%nat with (4 + (4 + 0))%nat. rewrite !drop_host, drop_0.
  rewrite take_app_length' by (by rewrite host_bytes_length). rewrite host_int_bytes_i32, u32_i32, u32_id by done.
  by destruct h.
Qed.

(** A message that [Send] has checked. *)
Record fits (m : Mail) : Prop := mkFits {
  f_pkt : header_ok (pktHdr m); f_mail : header_ok (mailHdr m);
  f_len : len (mailHdr m) <= MaxMailSize; f_total : len (pktHdr m) = len (mailHdr m) + HeaderSize;
  f_data : Z.of_nat (length (data m)) = len (mailHdr m); f_to : 0 <= to (mailHdr m) }.

(** The bytes of a packet behind its header, and a buffer that starts with them. *)
Definition body (m : Mail) : list Z := header_bytes big (mailHdr m) ++ data m.
Record payload (m : Mail) (buf : list Z) : Prop := mkPayload {
  y_length : Z.of_nat (length buf) = MaxPacketSize; y_take : take (Z.to_nat (len (pktHdr m))) buf = body m }.
Record encodes (m : Mail) (packet : list Z) : Prop := mkEncodes {
  e_length : Z.of_nat (length packet) = MaxWireSize;
  e_take : take (Z.to_nat (HeaderSize + len (pktHdr m))) packet = header_bytes big (pktHdr m) ++ body m }.

Lemma body_length m : fits m -> Z.of_nat (length (body m)) = len (pktHdr m).
Proof. intros [_ _ _ E H _]. unfold body. rewrite length_app, header_length. unfold HeaderSize in E. lia. Qed.

Lemma fits_range m : fits m -> 12 <= len (pktHdr m) <= 52 /\ 0 <= len (mailHdr m) <= 40.
Proof.
  intros [_ [_ _ Hl] Hm E _ _]. unfold is_u32 in Hl. unfold MaxMailSize, MaxPacketSize, MaxWireSize, HeaderSize in *. lia.
Qed.

Lemma payload_split m buf : payload m buf -> exists pad, buf = header_bytes big (mailHdr m) ++ data m ++ pad.
Proof.
  intros [_ H]. exists (drop (Z.to_nat (len (pktHdr m))) buf). rewrite app_assoc. fold (body m). rewrite <- H.
  by rewrite take_drop.
Qed.

Lemma encodes_split m packet : encodes m packet ->
  exists pad, packet = header_bytes big (pktHdr m) ++ body m ++ pad.
Proof.
  intros [_ H]. exists (drop (Z.to_nat (HeaderSize + len (pktHdr m))) packet). rewrite app_assoc, <- H.
  by rewrite take_drop.
Qed.

Lemma payload_header m buf : fits m -> payload m buf -> header_of_bytes big buf = mailHdr m.
Proof. intros Hf [pad ->]%payload_split. apply header_roundtrip, (f_mail _ Hf). Qed.

Lemma encodes_header m packet : fits m -> encodes m packet -> header_of_bytes big packet = pktHdr m.
Proof. intros Hf [pad ->]%encodes_split. apply header_roundtrip, (f_pkt _ Hf). Qed.

(** Copying a body into a buffer. *)
Lemma copy_body m dest : fits m -> Z.of_nat (length dest) = MaxPacketSize ->
  exists dest', mem_write dest 0 (body m) = Ok dest' /\ payload m dest'.
Proof.
  intros Hf Hd. pose proof (body_length m Hf) as HB. pose proof (fits_range m Hf) as [HR _].
  change MaxPacketSize with 52 in *. rewrite mem_write_ok by lia. eexists. split; [reflexivity|].
  change (Z.to_nat 0) with 0%nat. split; [change MaxPacketSize with 52; rewrite length_splice; lia|].
  unfold splice. cbn [take]. rewrite app_nil_l.
  apply take_app_length'. lia.
Qed.

Lemma read_payload m buf : fits m -> payload m buf -> mem_read buf 0 (Z.to_nat (len (pktHdr m))) = Ok (body m).
Proof.
  intros Hf [HL HT]. pose proof (fits_range m Hf) as [HR _]. change MaxPacketSize with 52 in *.
  rewrite mem_read_ok by lia. by rewrite drop_0, HT.
Qed.

Lemma read_packet m packet : fits m -> encodes m packet ->
  mem_read packet HeaderSize (Z.to_nat (len (pktHdr m))) = Ok (body m).
Proof.
  intros Hf HE. pose proof (fits_range m Hf) as [HR _]. pose proof (body_length m Hf) as HB.
  pose proof (e_length _ _ HE) as HL. apply encodes_split in HE as [pad ->].
  change MaxWireSize with 64 in *. unfold HeaderSize in *. rewrite mem_read_ok by lia. f_equal.
  rewrite drop_app_length' by (rewrite header_length; done). apply take_app_length'. lia.
Qed.

(** Reading the data of a message behind its header. *)
Lemma read_data m buf : fits m -> payload m buf ->
  mem_read (drop (Z.to_nat HeaderSize) buf) 0 (Z.to_nat (len (mailHdr m))) = Ok (data m).
Proof.
  intros Hf HP. pose proof (f_data _ Hf) as HD. apply payload_split in HP as [pad ->].
  change (Z.to_nat HeaderSize) with 12%nat. rewrite drop_app_length' by (by rewrite header_length).
  rewrite mem_read_ok by (rewrite ?length_app; lia). rewrite drop_0. f_equal. apply take_app_length'. lia.
Qed.

End layout.

(** ** The interrupt handlers *)

Section handlers.
Context (big : bool) (inDev outDev nBoxes : Z) (devices_differ : inDev <> outDev).

#[local] Existing Instance post_devices.
#[local] Instance devs : Devices Post := post_devices big inDev outDev.

(** Mail for a box of machine [name]. *)
Record mail_for (name : Z) (m : Mail) : Prop := mkMailFor {
  a_fits : fits m; a_to : to (pktHdr m) = name; a_box : to (mailHdr m) < nBoxes }.

(** The packet in the device's buffer, if any, and those in the socket. *)
Record chan (name : Z) (n : NetworkInput) (b : option Mail) (s : list Mail) : Prop := mkChan {
  c_sock : Forall2 (encodes big) s (sock n);
  c_mail : Forall (mail_for name) (option_list b ++ s);
  c_inbox : Z.of_nat (length (inbox n)) = MaxPacketSize;
  c_held : match b with
           | None => len (inHdr n) = 0
           | Some m => inHdr n = pktHdr m /\ payload big m (inbox n)
           end }.

(** Polling takes the next packet from the socket if the buffer is empty, and the
    post office is told exactly then. *)
Lemma poll_ok name i n b s : Forall (fun p => address p <= newest i) (pending i) -> chan name n b s ->
  exists n' b' s', NetworkInput_CallBack big inDev name i n =
      Ok (scheduled i inDev NetworkTime NetworkRecvInt, n', bool_decide (b = None /\ s <> [])) /\
    chan name n' b' s' /\ option_list b' ++ s' = option_list b ++ s /\
    (is_Some b' <-> is_Some b \/ s <> []).
Proof.
  intros HA [HS HM HI HH]. unfold NetworkInput_CallBack. rewrite Schedule_total by done. cbn [mbind res_bind].
  destruct b as [m|].
  - destruct HH as [EH HP]. rewrite EH, bool_decide_true.
    + rewrite bool_decide_false by naive_solver. exists n, (Some m), s. split_and!; try done.
      split; [|intros _; by eexists]. intros _. left. by eexists.
    + inversion HM as [|? ? [Hf _ _] _]; subst. pose proof (fits_range m Hf). lia.
  - rewrite HH, bool_decide_false by lia. destruct (sock n) as [|packet rest] eqn:En.
    + inversion HS; subst. rewrite bool_decide_false by naive_solver. exists n, None, []. split_and!; try done.
      * by split; rewrite ?En.
      * split; [by intros [? ?]|]. by intros [[? ?]|?].
    + inversion HS as [|m ? s' ? He HS']; subst. rewrite bool_decide_true by done.
      inversion HM as [|? ? [Hf Ht Hb] HM']; subst. pose proof (fits_range m Hf) as [HR _]. pose proof (e_length _ _ _ He) as HL.
      unfold ReadFromSocket. rewrite take_ge by lia. rewrite bool_decide_true by done. cbn [ASSERT mbind res_bind].
      rewrite (encodes_header big m packet Hf He). rewrite !bool_decide_true by (done || (change MaxPacketSize with 52; lia)).
      cbn [andb ASSERT mbind res_bind]. rewrite (read_packet big m packet Hf He). cbn [mbind res_bind].
      destruct (copy_body big m (inbox n) Hf HI) as (box & -> & HP). cbn [mbind res_bind].
      eexists _, (Some m), s'. split; [reflexivity|]. split; [|split; [done|]].
      * split; cbn; try done. apply (y_length _ _ _ HP).
      * split; [by right|]. intros _. by eexists.
Qed.

(** What the handlers leave alone. *)
Definition frame (d d' : Post) : Prop :=
  hostName d' = hostName d /\ boxes (input d') = boxes (input d) /\ numBoxes (input d') = numBoxes (input d) /\
  sendLock (output d') = sendLock (output d) /\ lockHolder (output d') = lockHolder (output d).

Definition known_dev (a : Z) : Prop := a = inDev \/ a = outDev.

#[local] Abbreviation intr_ok := (intr_ok known_dev).

(** A machine whose devices hold the mail [ms].  [k]: the worker has been told of
    the packet in the buffer and has not fetched it; [w]: a thread waits for, or may
    go on after, the end of its transmission. *)
Record dev_ok (k w : Z) (ms : list Mail) (i : Interrupt) (d : Post) : Prop := mkDevOk {
  v_intr : intr_ok i;
  v_time : soon NetworkTime i;
  v_poll : count inDev (pending i) = 1;
  v_sent : 0 <= messageSent (output d) /\ messageSent (output d) + count outDev (pending i) = w /\ w <= 1;
  v_busy : sendBusy (networkOut (output d)) = false;
  v_chan : exists b s, chan (hostName d) (network (input d)) b s /\ ms = option_list b ++ s /\
    0 <= messageAvailable (input d) /\ messageAvailable (input d) + k = (if b is Some _ then 1 else 0) /\ 0 <= k }.

Lemma V_value_id v : 0 <= v -> v <= 1 -> V_value v = v + 1.
Proof. intros H1 H2. apply i32_id. unfold is_i32, int_min, int_max. lia. Qed.

(** Each handler returns and preserves the state, once its interrupt is off the list. *)
Lemma handler_ok k w ms i d p l : dev_ok k w ms i d -> pending i = p :: l -> totalTicks i + NetworkTime <= int_max ->
  exists i' d', CallBack (callOnInterrupt p) (log_fired (with_pending i l (newest i)) p) d = Ok (i', d') /\
    (dev_ok k w ms i' d' /\ frame d d') /\ totalTicks i' = totalTicks i /\ due (totalTicks i) (pending i') = due (totalTicks i) l.
Proof.
  intros [HI HT HP (HS0 & HS & Hw) HB HC] Ep HM. pose proof (popped_ok known_dev i p l HI Ep) as HI1.
  pose proof (popped_soon NetworkTime i p l HT Ep) as HT1. pose proof (proj1 HT) as H0.
  assert (Hk : known_dev (callOnInterrupt p)) by (destruct HI as [_ HA]; rewrite Ep in HA; by inversion HA as [|? ? []]).
  set (i1 := log_fired _ p) in *. rewrite Ep in HP, HS. rewrite count_cons in HP, HS.
  cbn [CallBack devs post_devices]. case_bool_decide as Ed.
  - rewrite Ed in HP, HS. rewrite decide_True in HP by done. rewrite decide_False in HS by done.
    destruct HC as (b & s & HC & -> & HA0 & HA & Hkk).
    destruct (poll_ok (hostName d) i1 _ b s (intr_addresses known_dev i1 HI1) HC) as (n' & b' & s' & -> & HC' & Es & Hb).
    cbn [mbind res_bind]. eexists _, _. split; [reflexivity|]. split; [split; [|by case_bool_decide]|].
    2: { split; [done|]. by apply (scheduled_due known_dev i1). }
    assert (HV : V_value (messageAvailable (input d)) = messageAvailable (input d) + 1) by (apply V_value_id; destruct b; lia).
    split; cbn [hostName input output].
    + apply scheduled_ok; [done|by left].
    + by apply scheduled_soon.
    + cbn. rewrite count_insert, count_cons, decide_True by done. cbn. lia.
    + cbn. rewrite count_insert, count_cons, decide_False by done. cbn. lia.
    + done.
    + exists b', s'. split; [by case_bool_decide|]. split; [done|]. case_bool_decide as Hn; cbn.
      * destruct Hn as [-> Hn]. destruct b'; [|by destruct (proj2 Hb (or_intror Hn))]. lia.
      * destruct b; [destruct b'; [lia|]; destruct (proj2 Hb (or_introl (mk_is_Some _ _ eq_refl))); done|].
        destruct b'; [|lia]. destruct (proj1 Hb (mk_is_Some _ _ eq_refl)) as [[? ?]|?]; [done|naive_solver].
  - destruct Hk as [Hk|Hk]; [done|]. rewrite decide_False in HP by done. rewrite decide_True in HS by done. rewrite bool_decide_true by done.
    pose proof (count_nonneg outDev l). eexists _, _. split; [reflexivity|]. split; [split; [|done]|done].
    split; cbn [hostName input output]; try done. cbn. rewrite V_value_id by lia. lia.
Qed.

(** The state does not depend on the status, and the clock may move on. *)
Lemma dev_ok_later k w ms i i' d : pending i' = pending i -> newest i' = newest i -> totalTicks i <= totalTicks i' ->
  dev_ok k w ms i d -> dev_ok k w ms i' d.
Proof.
  intros Ep En Ht [HI HT HP HW HB HC]. split; try done; [by apply (later_ok _ i)|by apply (later_soon _ i)|by rewrite Ep..].
Qed.

Lemma frame_trans d1 d2 d3 : frame d1 d2 -> frame d2 d3 -> frame d1 d3.
Proof. intros (?&?&?&?&?) (?&?&?&?&?). split_and!; congruence. Qed.

(** What the hardware's lemmas need. *)
Lemma dev_preserved k w ms d : preserved NetworkTime (fun i d' => dev_ok k w ms i d' /\ frame d d').
Proof.
  split; [done|intros i d' [[HI HT _ _ _ _] _]; split; [apply HI|exact HT]| | |].
  - intros i d1 p l [HV HF] Ep _ HM. destruct (handler_ok k w ms i d1 p l HV Ep HM) as (i2 & d2 & E & [HV2 HF2] & H).
    exists i2, d2. split; [exact E|]. split; [|exact H]. split; [exact HV2|]. by apply (frame_trans d d1).
  - intros i d1 H. by exists d1.
  - intros i i' d1 Ep En Ht [HV HF]. split; [by apply (dev_ok_later _ _ _ i)|exact HF].
Qed.

(** Time passes: the interrupts that are due occur, and nothing fails. *)
Lemma tick_ok k w ms i d : dev_ok k w ms i d -> totalTicks i <= 2000000000 ->
  exists i' d' y, OneTick i d = Ok (i', d', y) /\ dev_ok k w ms i' d' /\ frame d d'.
Proof. intros HV HM. apply (OneTick_total _ _ (dev_preserved k w ms d)); [by split|done]. Qed.

(** The machine idles until the next poll of the network, at the latest. *)
Lemma idle_ok k w ms i d : dev_ok k w ms i d -> level i = IntOff -> totalTicks i <= 2000000000 ->
  exists i' d', Idle i d = Ok (true, i', d') /\ dev_ok k w ms i' d' /\ frame d d'.
Proof.
  intros HV HL HM. destruct (Idle_total _ _ (dev_preserved k w ms d) i d) as (i' & d' & E & H); [by split|done..|].
  rewrite bool_decide_true in E; [by exists i', d'|]. pose proof (v_poll _ _ _ _ _ HV) as HP. by destruct (pending i).
Qed.

End handlers.
