(* ===== verification/NetworkInv.v ===== *)
(** * The machines of the network under every interleaving

    [host_ok]: what the threads, the devices and the boxes of a machine hold adds
    up to the mail that was accepted for it.  No step fails, and every step and
    every interrupt preserves this. *)

From S2P Require Import Prelude Bytes Lists ListProofs Sched Interrupt InterruptProofs Devices Network NetworkProofs.
Import Interrupt.Interrupt.

(** A message without what is in the buffer behind it. *)
Definition content (m : Mail) : Mail := mkMail (pktHdr m) (mailHdr m) (take (Z.to_nat (len (mailHdr m))) (data m)).

(** What [Receive] has returned from box [b], and what is in the box. *)
Definition received (h : Host) (b : Z) : list Mail := content <$> (filter (fun x => x.1 = b) (got h)).*2.
Definition in_box (h : Host) (b : Z) : list Mail := content <$> default [] (boxes (input (post h)) !! Z.to_nat b).
Definition to_box (b : Z) (l : list Mail) : list Mail := filter (fun m => to (mailHdr m) = b) l.

Lemma to_box_app b l l' : to_box b (l ++ l') = to_box b l ++ to_box b l'.
Proof. apply filter_app. Qed.

Lemma content_fits m : fits m -> content m = m.
Proof.
  intros [_ _ _ _ Hd _]. unfold content. rewrite take_ge by lia. by destruct m.
Qed.

Lemma host_prog_set h t p t' : prog (set_prog h t p) t' = if decide (t = t') then p else prog h t'.
Proof.
  unfold prog. cbn. case_decide; [subst; by rewrite lookup_insert_eq|by rewrite lookup_insert_ne].
Qed.

Section machine.
Context (big : bool) (newchars : Z -> list Z) (works : Z -> bool) (inDev outDev nBoxes : Z) (names : Z -> Prop).
Context (devices_differ : inDev <> outDev) (nBoxes_range : 0 <= nBoxes <= int_max).
Context (newchars_length : forall n, 0 <= n -> length (newchars n) = Z.to_nat n).

#[local] Abbreviation dev_ok := (dev_ok big inDev outDev nBoxes).
#[local] Abbreviation payload := (payload big).

(** A message that machine [name] is sending, in the buffer of [Send]. *)
Record sending (name : Z) (m : Mail) (pktH : Header) (buffer : list Z) : Prop := mkSending {
  g_fits : fits m; g_from : from (pktHdr m) = name; g_hdr : pktH = pktHdr m; g_payload : payload m buffer;
  g_box : names (to (pktHdr m)) -> to (mailHdr m) < nBoxes }.

(** The threads outside the lock, the one inside, and the postal worker, with what
    it has in its hands. *)
Inductive idle_prog (name : Z) : list step -> Prop :=
| ip_nil : idle_prog name []
| ip_get b dest : 0 <= b < nBoxes -> MaxMailSize <= Z.of_nat (length dest) -> idle_prog name [RGet b dest]
| ip_send m pktH buffer : sending name m pktH buffer -> idle_prog name [SAcquire; SSend m pktH buffer; SWait; SRelease].

Inductive holder_prog (name : Z) : Z -> list step -> Prop :=
| hp_send m pktH buffer : sending name m pktH buffer -> holder_prog name 0 [SSend m pktH buffer; SWait; SRelease]
| hp_wait : holder_prog name 1 [SWait; SRelease]
| hp_release : holder_prog name 0 [SRelease].

Inductive worker_prog (name : Z) : Z -> list Mail -> list step -> Prop :=
| wp_wait buffer : Z.of_nat (length buffer) = MaxPacketSize -> worker_prog name 0 [] [DWait buffer]
| wp_receive buffer : Z.of_nat (length buffer) = MaxPacketSize -> worker_prog name 1 [] [DReceive buffer]
| wp_put m buffer : mail_for nBoxes name m -> payload m buffer ->
    worker_prog name 0 [m] [DPut (pktHdr m) (mailHdr m) buffer].

Definition lock_ok (name w : Z) (h : Host) : Prop :=
  match lockHolder (output (post h)) with
  | None => sendLock (output (post h)) = 1 /\ w = 0 /\ forall t, t <> worker -> idle_prog name (prog h t)
  | Some t0 => sendLock (output (post h)) = 0 /\ t0 <> worker /\ holder_prog name w (prog h t0) /\
      forall t, t <> worker -> t <> t0 -> idle_prog name (prog h t)
  end.

(** A piece of mail in a box. *)
Record stored (m : Mail) : Prop := mkStored { s_data : Z.of_nat (length (data m)) = MaxMailSize; s_fits : fits (content m) }.

Record holds (name : Z) (h : Host) (accepted : list Mail) (k w : Z) (hand ms : list Mail) : Prop := mkHolds {
  h_name : hostName (post h) = name;
  h_boxes : Z.of_nat (length (boxes (input (post h)))) = nBoxes;
  h_num : numBoxes (input (post h)) = nBoxes;
  h_stored : Forall (Forall stored) (boxes (input (post h)));
  h_worker : worker_prog name k hand (prog h worker);
  h_lock : lock_ok name w h;
  h_dev : dev_ok k w ms (intr h) (post h);
  h_mail : forall b, 0 <= b < nBoxes -> received h b ++ in_box h b ++ to_box b (hand ++ ms) = to_box b accepted }.

Definition host_ok (name : Z) (h : Host) (accepted : list Mail) : Prop := exists k w hand ms, holds name h accepted k w hand ms.

(** What a step leads to. *)
Definition step_ok (name : Z) (accepted : list Mail) (r : outcome) : Prop :=
  r = Ok None \/
  exists h' out, r = Ok (Some (h', out)) /\ host_ok name h' accepted /\
    match out with
    | None => True
    | Some (m, packet) => (exists pktH buffer, sending name m pktH buffer) /\ encodes big m packet
    end.

Lemma goes_ok name accepted h' k w hand ms : holds name h' accepted k w hand ms -> step_ok name accepted (goes_on h').
Proof. intros H. right. exists h', None. split; [done|]. split; [by exists k, w, hand, ms|done]. Qed.

Lemma i32_pred v : v = 0 \/ v = 1 -> v <> 0 -> i32 (v - 1) = 0.
Proof. intros [-> | ->] H; done. Qed.

Lemma lock_worker name w h h' : lock_ok name w h -> output (post h') = output (post h) ->
  (forall t, t <> worker -> prog h' t = prog h t) -> lock_ok name w h'.
Proof.
  intros HL EO EP. unfold lock_ok in *. rewrite EO. destruct (lockHolder _) as [t0|].
  - destruct HL as (H1 & H2 & H3 & H4). split_and!; try done; [by rewrite EP|]. intros t Ht Hn. rewrite EP by done. by apply H4.
  - destruct HL as (H1 & H2 & H3). split_and!; try done. intros t Ht. rewrite EP by done. by apply H3.
Qed.

(** ** The postal worker *)

Lemma wait_step name accepted h k w hand ms buffer : holds name h accepted k w hand ms ->
  prog h worker = [DWait buffer] -> forall rand, step_ok name accepted (thread_step big newchars works outDev worker rand h).
Proof.
  intros [] E rand. unfold thread_step. rewrite E in *. inversion h_worker0; subst.
  case_bool_decide as Hm; [by left|]. destruct h_dev0 as [HI HT HP HS HB (b & s & HC & -> & H0 & HA & _)].
  eapply (goes_ok _ _ _ 1 w []). split; cbn [intr post hostName input output set_prog set_input]; try done.
  - rewrite host_prog_set, decide_True by done. by apply wp_receive.
  - apply (lock_worker _ _ h); [done|done|]. intros t Ht. by rewrite host_prog_set, decide_False.
  - split; try done. exists b, s. cbn. split_and!; try done; try lia.
    + rewrite i32_pred; [lia|destruct b; lia|done].
    + rewrite i32_pred; [|destruct b; lia|done]. destruct b; lia.
Qed.

Lemma receive_step name accepted h k w hand ms buffer : holds name h accepted k w hand ms ->
  prog h worker = [DReceive buffer] -> forall rand, step_ok name accepted (thread_step big newchars works outDev worker rand h).
Proof.
  intros [] E rand. unfold thread_step. rewrite E in *. inversion h_worker0; subst.
  destruct h_dev0 as [HI HT HP HS HB (b & s & [C1 C2 C3 C4] & -> & H0 & HA & _)]. destruct b as [m|]; [|lia].
  destruct C4 as [EH HPl]. apply Forall_cons in C2 as [Hm C2]. destruct Hm as [Hf Ht Hb].
  pose proof (fits_range m Hf) as [HR HR']. unfold PostalDelivery_receive, NetworkInput_Receive. rewrite EH, bool_decide_true by lia.
  rewrite (read_payload big m _ Hf HPl). cbn [mbind res_bind].
  destruct (copy_body big m buffer Hf) as (buffer' & -> & HPl'); [done|]. cbn [mbind res_bind].
  rewrite (payload_header big m buffer' Hf HPl'), h_num0. rewrite !bool_decide_true; try done.
  2: { apply (f_to _ Hf). } 2: { apply (f_len _ Hf). }
  cbn [andb ASSERT mbind res_bind]. eapply (goes_ok _ _ _ 0 w [m] s).
  split; cbn [intr post hostName input output set_prog set_input set_network]; try done.
  - rewrite host_prog_set, decide_True by done. by apply wp_put.
  - apply (lock_worker _ _ h); [done|done|]. intros t Ht'. by rewrite host_prog_set, decide_False.
  - split; try done. exists None, s. cbn. split_and!; try done; lia.
Qed.

(** Copying data into a larger buffer. *)
Lemma copy_data (dat dest : list Z) : (length dat <= length dest)%nat ->
  exists dest', mem_write dest 0 dat = Ok dest' /\ length dest' = length dest /\ take (length dat) dest' = dat.
Proof.
  intros H. rewrite mem_write_ok by lia. eexists. split; [reflexivity|]. change (Z.to_nat 0) with 0%nat.
  split; [apply length_splice; cbn; lia|]. unfold splice. cbn [take]. rewrite app_nil_l. by apply take_app_length'.
Qed.

Lemma boxes_insert h (bs : list (list Mail)) i bx b : 0 <= i -> 0 <= b -> boxes (input (post h)) = <[Z.to_nat i := bx]> bs ->
  i < Z.of_nat (length bs) -> in_box h b = if decide (i = b) then content <$> bx else content <$> default [] (bs !! Z.to_nat b).
Proof.
  intros Hi Hb E Hl. unfold in_box. rewrite E. case_decide.
  - subst. by rewrite list_lookup_insert_eq by lia.
  - by rewrite list_lookup_insert_ne by lia.
Qed.

Lemma put_step name accepted h k w hand ms pktH mailH buffer : holds name h accepted k w hand ms ->
  prog h worker = [DPut pktH mailH buffer] -> forall rand, step_ok name accepted (thread_step big newchars works outDev worker rand h).
Proof.
  intros [] E rand. unfold thread_step. rewrite E in *. inversion h_worker0 as [| |m ? [Hf Ht Hb] HPl]; subst.
  pose proof (fits_range m Hf) as [_ HR]. unfold PostalDelivery_put.
  destruct (aget_in_range (boxes (input (post h))) (to (mailHdr m))) as [bx Ebx]; [pose proof (f_to _ Hf); lia|].
  rewrite Ebx. apply aget_Ok in Ebx as [H0 Ebx]. cbn [mbind res_bind]. unfold Put, newMail.
  rewrite bool_decide_true by apply (f_len _ Hf). cbn [ASSERT mbind res_bind]. rewrite (read_data big m buffer Hf HPl). cbn [mbind res_bind].
  pose proof (f_data _ Hf) as HD. change MaxMailSize with 40.
  assert (HN : length (newchars 40) = 40%nat) by (apply newchars_length; lia).
  destruct (copy_data (data m) (newchars 40)) as (d' & -> & Hd' & Ed'); [lia|]. cbn [mbind res_bind].
  rewrite aset_in_range by lia. cbn [mbind res_bind].
  assert (EC : content (mkMail (pktHdr m) (mailHdr m) d') = m).
  { unfold content. cbn. rewrite <- HD, Nat2Z.id, Ed'. by destruct m. }
  eapply (goes_ok _ _ _ 0 w [] ms). split; cbn [intr post hostName input output set_prog set_input]; try done.
  - cbn. by rewrite length_insert.
  - cbn. apply Forall_insert; [done|]. apply Forall_app. split; [by apply (Forall_lookup_1 _ _ _ _ h_stored0 Ebx)|].
    apply Forall_singleton. split; [cbn; rewrite Hd', HN; done|by rewrite EC].
  - rewrite host_prog_set, decide_True by done. apply wp_wait, (y_length _ _ _ HPl).
  - apply (lock_worker _ _ h); [done|done|]. intros t Ht'. by rewrite host_prog_set, decide_False.
  - by destruct h_dev0.
  - intros b Hr. rewrite <- (h_mail0 b Hr). rewrite (boxes_insert _ (boxes (input (post h))) (to (mailHdr m)) (bx ++ [mkMail (pktHdr m) (mailHdr m) d']) b)
      by (done || lia). unfold received, in_box. cbn [got set_prog set_input]. f_equal. unfold to_box. cbn [app]. rewrite filter_cons. case_decide.
    + subst b. rewrite Ebx. cbn [default]. rewrite fmap_app. cbn [fmap list_fmap]. rewrite EC. by rewrite <- app_assoc.
    + done.
Qed.

(** ** [Receive] *)

Lemma holder_not_get name w b dest rest : ~ holder_prog name w (RGet b dest :: rest).
Proof. by inversion 1. Qed.

Lemma lock_other name w h h' t p : lock_ok name w h -> t <> worker -> lockHolder (output (post h)) <> Some t ->
  output (post h') = output (post h) -> idle_prog name p -> (forall t', prog h' t' = if decide (t = t') then p else prog h t') -> lock_ok name w h'.
Proof.
  intros HL Ht Hn EO Hp EP. unfold lock_ok in *. rewrite EO. destruct (lockHolder _) as [t0|].
  - destruct HL as (H1 & H2 & H3 & H4). split_and!; try done; [rewrite EP, decide_False by congruence; done|].
    intros t' Ht' Hn'. rewrite EP. case_decide; [done|by apply H4].
  - destruct HL as (H1 & H2 & H3). split_and!; try done. intros t' Ht'. rewrite EP. case_decide; [done|by apply H3].
Qed.

Lemma get_step name accepted h k w hand ms t b dest rest : holds name h accepted k w hand ms -> t <> worker ->
  prog h t = RGet b dest :: rest -> idle_prog name (RGet b dest :: rest) -> lockHolder (output (post h)) <> Some t ->
  forall rand, step_ok name accepted (thread_step big newchars works outDev t rand h).
Proof.
  intros [] Ht E Hi Hn rand. unfold thread_step. rewrite E. inversion Hi; subst. unfold step_get.
  destruct (aget_in_range (boxes (input (post h))) b) as [bx Ebx]; [lia|].
  rewrite Ebx. apply aget_Ok in Ebx as [H0 Ebx]. cbn [mbind res_bind]. destruct bx as [|m bx]; [by left|]. cbn [Get].
  pose proof (Forall_lookup_1 _ _ _ _ h_stored0 Ebx) as Hst. apply Forall_cons in Hst as [[Hd Hf] Hst].
  pose proof (fits_range _ Hf) as [_ HR]. cbn in HR. change MaxMailSize with 40 in *.
  rewrite mem_read_ok by lia. cbn [mbind res_bind]. rewrite drop_0. set (dat := take _ (data m)).
  assert (Hl : length dat = Z.to_nat (len (mailHdr m))) by (subst dat; rewrite length_take; lia).
  destruct (copy_data dat dest) as (dest' & -> & Hd' & Ed'); [lia|]. cbn [mbind res_bind].
  rewrite aset_in_range by lia. cbn [mbind res_bind]. rewrite bool_decide_true by lia. cbn [ASSERT mbind res_bind].
  eapply (goes_ok _ _ _ k w hand ms). split; cbn [intr post hostName input output set_input]; try done.
  - cbn. by rewrite length_insert.
  - cbn. by apply Forall_insert.
  - unfold prog. cbn. by rewrite lookup_insert_ne.
  - apply (lock_other _ _ h _ t []); try done; [constructor|]. intros t'. unfold prog. cbn. case_decide; [subst; by rewrite lookup_insert_eq|by rewrite lookup_insert_ne].
  - by destruct h_dev0.
  - intros c Hr. rewrite <- (h_mail0 c Hr). rewrite (boxes_insert _ (boxes (input (post h))) b bx c) by (done || lia).
    unfold received, in_box. cbn [got set_input post]. rewrite filter_app, fmap_app, fmap_app, <- !app_assoc. f_equal.
    rewrite filter_cons. cbn [fst]. case_decide.
    + subst c. rewrite Ebx. cbn [default]. cbn [fmap list_fmap filter list_filter snd app]. do 2 f_equal.
      unfold content. cbn. by rewrite <- Hl, Ed', Hl.
    + done.
Qed.

(** ** [Send] *)

Lemma acquire_step name accepted h k w hand ms t rest : holds name h accepted k w hand ms -> t <> worker ->
  prog h t = SAcquire :: rest -> idle_prog name (SAcquire :: rest) -> lockHolder (output (post h)) <> Some t ->
  forall rand, step_ok name accepted (thread_step big newchars works outDev t rand h).
Proof.
  intros [] Ht E Hi Hn rand. unfold thread_step. rewrite E. inversion Hi as [| |m pktH buffer Hs]; subst.
  unfold lock_ok in h_lock0. destruct (lockHolder (output (post h))) as [t0|] eqn:EL.
  { destruct h_lock0 as (EV & _). rewrite EV. by left. }
  destruct h_lock0 as (EV & -> & HI). rewrite EV. rewrite bool_decide_false by done.
  eapply (goes_ok _ _ _ k 0 hand ms). split; cbn [intr post hostName input output set_prog set_output]; try done.
  - by rewrite host_prog_set, decide_False.
  - cbn. split_and!; try done; [rewrite host_prog_set, decide_True by done; by apply hp_send|].
    intros t' H1 H2. rewrite host_prog_set, decide_False by done. by apply HI.
  - by destruct h_dev0.
Qed.

Lemma lock_holder name w w' h h' t p : lock_ok name w h -> lockHolder (output (post h)) = Some t ->
  sendLock (output (post h')) = sendLock (output (post h)) -> lockHolder (output (post h')) = Some t ->
  holder_prog name w' p -> (forall t', prog h' t' = if decide (t = t') then p else prog h t') -> lock_ok name w' h'.
Proof.
  intros HL EH ES EH' Hp EP. unfold lock_ok in *. rewrite EH in HL. rewrite EH', ES. destruct HL as (H1 & H2 & H3 & H4).
  split_and!; try done; [by rewrite EP, decide_True|]. intros t' Ht' Hn. rewrite EP, decide_False by done. by apply H4.
Qed.

(** The packet on the wire. *)
Lemma packet_ok m : fits m -> exists b1 b2, mem_write (newchars MaxWireSize) 0 (header_bytes big (pktHdr m)) = Ok b1 /\
  mem_write b1 HeaderSize (body big m) = Ok b2 /\ encodes big m b2.
Proof.
  intros Hf. pose proof (fits_range m Hf) as [HR _]. pose proof (body_length big m Hf) as HB.
  assert (HN : length (newchars MaxWireSize) = 64%nat) by (apply newchars_length; done).
  destruct (copy_data (header_bytes big (pktHdr m)) (newchars MaxWireSize)) as (b1 & E1 & L1 & T1); [rewrite header_length, HN; lia|].
  rewrite header_length in T1. exists b1, (splice b1 12 (body big m)). split; [exact E1|].
  split; [rewrite mem_write_ok by (unfold HeaderSize; lia); done|]. split; [rewrite length_splice by lia; rewrite L1, HN; done|].
  unfold splice, HeaderSize. rewrite T1, app_assoc. apply take_app_length'. rewrite length_app, header_length. lia.
Qed.

Lemma sending_dev k ms i d : dev_ok k 0 ms i d -> dev_ok k 1 ms (scheduled i outDev NetworkTime NetworkSendInt) d.
Proof.
  intros [HI HT HP (HS0 & HS & _) HB HC]. split; try done.
  - apply scheduled_ok; [done|by right].
  - by apply scheduled_soon.
  - cbn. rewrite count_insert, count_cons, decide_False by done. cbn. lia.
  - cbn. rewrite count_insert, count_cons, decide_True by done. cbn. lia.
Qed.

Lemma send_step name accepted h k hand ms t w m pktH buffer rest : holds name h accepted k w hand ms -> t <> worker ->
  prog h t = SSend m pktH buffer :: rest -> holder_prog name w (SSend m pktH buffer :: rest) ->
  lockHolder (output (post h)) = Some t ->
  forall rand, step_ok name accepted (thread_step big newchars works outDev t rand h).
Proof.
  intros [] Ht E Hi Hn rand. unfold thread_step. rewrite E. inversion Hi as [? ? ? Hs| |]; subst. pose proof Hs as [Hf Hfr -> HPl Hbx].
  pose proof (fits_range m Hf) as [HR _]. unfold NetworkOutput_Send. rewrite (v_busy _ _ _ _ _ _ _ _ _ h_dev0).
  change MaxPacketSize with 52. rewrite !bool_decide_true by (done || lia). cbn [negb andb ASSERT mbind res_bind].
  rewrite Schedule_total by (try done; exact (intr_addresses _ _ (v_intr _ _ _ _ _ _ _ _ _ h_dev0))). cbn [mbind res_bind].
  assert (HH : host_ok (hostName (post h)) (set_prog (set_intr h (scheduled (intr h) outDev NetworkTime NetworkSendInt)) t [SWait; SRelease]) accepted).
  { exists k, 1, hand, ms. split; cbn [intr post hostName input output set_prog set_intr]; try done.
    - by rewrite host_prog_set, decide_False.
    - apply (lock_holder _ 0 _ h _ t [SWait; SRelease]); try done; [apply hp_wait|]. intros t'. by rewrite host_prog_set.
    - by apply sending_dev. }
  right. destruct (negb (works (rand mod 100))); cbn [mbind res_bind].
  { eexists _, None. split; [reflexivity|]. by split. }
  destruct (packet_ok m Hf) as (b1 & b2 & -> & E2 & HE). cbn [mbind res_bind]. rewrite (read_payload big m buffer Hf HPl).
  cbn [mbind res_bind]. rewrite E2. cbn [mbind res_bind fmap option_fmap option_map]. eexists _, (Some (m, b2)).
  split; [reflexivity|]. split; [exact HH|]. split; [|done]. by exists (pktHdr m), buffer.
Qed.

Lemma sent_step name accepted h k hand ms t w rest : holds name h accepted k w hand ms -> t <> worker ->
  prog h t = SWait :: rest -> holder_prog name w (SWait :: rest) -> lockHolder (output (post h)) = Some t ->
  forall rand, step_ok name accepted (thread_step big newchars works outDev t rand h).
Proof.
  intros [] Ht E Hi Hn rand. unfold thread_step. rewrite E. inversion Hi; subst. case_bool_decide as Hm; [by left|].
  destruct h_dev0 as [HI HT HP (HS0 & HS & Hw) HB HC]. pose proof (count_nonneg outDev (pending (intr h))).
  eapply (goes_ok _ _ _ k 0 hand ms). split; cbn [intr post hostName input output set_prog set_output]; try done.
  - by rewrite host_prog_set, decide_False.
  - apply (lock_holder _ 1 _ h _ t [SRelease]); try done; [apply hp_release|]. intros t'. by rewrite host_prog_set.
  - split; try done. cbn. rewrite i32_pred by lia. lia.
Qed.

Lemma release_step name accepted h k hand ms t w rest : holds name h accepted k w hand ms -> t <> worker ->
  prog h t = SRelease :: rest -> holder_prog name w (SRelease :: rest) -> lockHolder (output (post h)) = Some t ->
  forall rand, step_ok name accepted (thread_step big newchars works outDev t rand h).
Proof.
  intros [] Ht E Hi Hn rand. unfold thread_step. rewrite E. inversion Hi; subst. rewrite bool_decide_true by done.
  cbn [ASSERT mbind res_bind]. unfold lock_ok in h_lock0. rewrite Hn in h_lock0. destruct h_lock0 as (EV & _ & _ & HI).
  eapply (goes_ok _ _ _ k 0 hand ms). split; cbn [intr post hostName input output set_prog set_output]; try done.
  - by rewrite host_prog_set, decide_False.
  - unfold lock_ok. cbn. rewrite EV. split_and!; try done. intros t' Ht'. rewrite host_prog_set. case_decide; [apply ip_nil|by apply HI].
  - by destruct h_dev0.
Qed.

(** ** Any step of any thread *)

Lemma any_step name accepted h t rand : host_ok name h accepted -> step_ok name accepted (thread_step big newchars works outDev t rand h).
Proof.
  intros (k & w & hand & ms & HH). destruct (decide (t = worker)) as [-> | Ht].
  { pose proof (h_worker _ _ _ _ _ _ _ HH) as HW. inversion HW; subst.
    - by eapply wait_step.
    - by eapply receive_step.
    - by eapply put_step. }
  pose proof (h_lock _ _ _ _ _ _ _ HH) as HL. unfold lock_ok in HL.
  destruct (decide (lockHolder (output (post h)) = Some t)) as [El|El].
  - rewrite El in HL. destruct HL as (_ & _ & Hp & _). inversion Hp as [m pktH buffer Hs Ew Ep|Ew Ep|Ew Ep]; subst w; symmetry in Ep.
    + eapply send_step; [exact HH|done|exact Ep|by constructor|done].
    + eapply sent_step; [exact HH|done|exact Ep|by constructor|done].
    + eapply release_step; [exact HH|done|exact Ep|by constructor|done].
  - assert (Hp : idle_prog name (prog h t)).
    { destruct (lockHolder _); [apply HL; [done|congruence]|by apply HL]. }
    inversion Hp as [Ep|b dest Hb Hd Ep|m pktH buffer Hs Ep]; symmetry in Ep.
    + left. unfold thread_step. by rewrite Ep.
    + eapply get_step; [exact HH|done|exact Ep|by constructor|done].
    + eapply acquire_step; [exact HH|done|exact Ep|by constructor|done].
Qed.

(** ** Calls, interrupts and arriving packets *)

Lemma start_step name accepted h t p : host_ok name h accepted -> t <> worker -> prog h t = [] -> idle_prog name p ->
  host_ok name (set_prog h t p) accepted.
Proof.
  intros (k & w & hand & ms & []) Ht E Hp. exists k, w, hand, ms. split; try done.
  - by rewrite host_prog_set, decide_False.
  - apply (lock_other name w h _ t p); try done; [|intros t'; apply host_prog_set]. intros El. unfold lock_ok in h_lock0.
    rewrite El in h_lock0. destruct h_lock0 as (_ & _ & Hh & _). rewrite E in Hh. by inversion Hh.
Qed.

Lemma call_send name pktH mailH dat p : is_i32 name -> is_i32 (to pktH) -> is_i32 (to mailH) -> is_i32 (from mailH) ->
  0 <= len mailH <= Z.of_nat (length dat) -> (names (to pktH) -> to mailH < nBoxes) ->
  PostOfficeOutput_Send big newchars name pktH mailH dat = Ok p -> idle_prog name p.
Proof.
  intros Hn H1 H2 H3 Hl Hb E. unfold PostOfficeOutput_Send in E.
  apply bind_Ok in E as (? & Hm%ASSERT_Ok%bool_decide_eq_true & E). apply bind_Ok in E as (? & H0%ASSERT_Ok%bool_decide_eq_true & E).
  change MaxMailSize with 40 in Hm.
  set (pk := mkHeader (to pktH) name (u32 (len mailH + HeaderSize))) in *. set (dt := take (Z.to_nat (len mailH)) dat).
  assert (Hd : Z.of_nat (length dt) = len mailH) by (subst dt; rewrite length_take; lia).
  assert (Ek : len pk = len mailH + 12) by (apply u32_id; unfold is_u32, HeaderSize; lia).
  set (m := mkMail pk mailH dt). assert (Hf : fits m).
  { split; [split|split| | | |]; try done; cbn [pktHdr mailHdr data m]; rewrite ?Ek; unfold is_u32; try lia. }
  rewrite mem_read_ok, drop_0 in E by lia. fold dt in E. change MaxPacketSize with 52 in E.
  assert (HN : length (newchars 52) = 52%nat) by (apply newchars_length; lia).
  destruct (copy_data (header_bytes big mailH) (newchars 52)) as (b1 & E1 & L1 & T1); [rewrite header_length, HN; lia|].
  rewrite E1 in E. rewrite header_length in T1. cbn [mbind res_bind] in E.
  rewrite mem_write_ok in E by (unfold HeaderSize; lia). cbn [mbind res_bind] in E. injection E as <-.
  apply ip_send. split; try done. split.
  - rewrite length_splice by (unfold HeaderSize; lia). by rewrite L1, HN.
  - fold m. change (len (pktHdr m)) with (len pk). rewrite Ek. unfold splice, HeaderSize, body. change (Z.to_nat 12) with 12%nat. cbn [mailHdr data m].
    rewrite T1, app_assoc. apply take_app_length'. rewrite length_app, header_length. lia.
Qed.

(** An interrupt that occurs between two steps. *)
Lemma host_frame name accepted h k w hand ms i d : holds name h accepted k w hand ms -> dev_ok k w ms i d -> frame (post h) d ->
  host_ok name (mkHost i d (threads h) (got h)) accepted.
Proof.
  intros [] HV (F1 & F2 & F3 & F4 & F5). exists k, w, hand, ms. split; cbn [post intr]; try congruence; try done.
  - unfold lock_ok in *. cbn [post]. by rewrite F4, F5.
  - intros b Hb. unfold in_box. cbn [post]. rewrite F2. by apply h_mail0.
Qed.

Lemma host_tick name accepted h : host_ok name h accepted -> clock_ok h ->
  exists i d y, @OneTick Post (post_devices big inDev outDev) (intr h) (post h) = Ok (i, d, y) /\
    host_ok name (mkHost i d (threads h) (got h)) accepted.
Proof.
  intros (k & w & hand & ms & HH) Hc. pose proof (h_dev _ _ _ _ _ _ _ HH) as HV.
  destruct (tick_ok big inDev outDev nBoxes devices_differ k w ms _ _ HV Hc) as (i & d & y & E & HV' & HF).
  exists i, d, y. split; [exact E|]. by eapply host_frame.
Qed.

Lemma host_idle name accepted h : host_ok name h accepted -> clock_ok h ->
  exists i d, @Idle Post (post_devices big inDev outDev) (ChangeLevel (intr h) IntOff) (post h) = Ok (true, i, d) /\
    host_ok name (mkHost i d (threads h) (got h)) accepted.
Proof.
  intros (k & w & hand & ms & HH) Hc. pose proof (h_dev _ _ _ _ _ _ _ HH) as HV.
  apply (dev_ok_later _ _ _ _ _ _ _ _ (ChangeLevel (intr h) IntOff)) in HV; [|done..].
  destruct (idle_ok big inDev outDev nBoxes devices_differ k w ms _ _ HV) as (i & d & E & HV' & HF); [done|exact Hc|].
  exists i, d. split; [exact E|]. by eapply host_frame.
Qed.

Lemma host_arrive name accepted h m packet : host_ok name h accepted -> mail_for nBoxes name m -> encodes big m packet ->
  host_ok name (arrive packet h) (accepted ++ [m]).
Proof.
  intros (k & w & hand & ms & []) Hm He. exists k, w, hand, (ms ++ [m]). split; try done.
  - destruct h_dev0 as [HI HT HP HS HB (b & s & [C1 C2 C3 C4] & -> & HA)]. split; try done.
    exists b, (s ++ [m]). rewrite <- app_assoc. split; [|by split]. split; try done.
    + cbn. apply Forall2_app; [done|]. by constructor.
    + rewrite app_assoc. apply Forall_app. cbn. subst name. by split; [|constructor].
  - intros b Hb. rewrite (to_box_app b accepted), <- (h_mail0 b Hb). rewrite (app_assoc hand), (to_box_app b (hand ++ ms)).
    unfold received, in_box, arrive. cbn [got post set_input input boxes set_network]. by rewrite <- !app_assoc.
Qed.

(** The state after the constructors. *)
Lemma newHost_ok name h : is_i32 name -> newHost newchars inDev name nBoxes = Ok h -> host_ok name h [].
Proof.
  intros Hn E. unfold newHost, newPostOfficeInput, newNetworkInput in E. rewrite Schedule_total in E by (constructor || done).
  cbn [mbind res_bind] in E. injection E as <-. exists 0, 0, [], []. split; cbn [post intr hostName input output boxes numBoxes]; try done.
  - rewrite length_replicate. lia.
  - apply Forall_replicate, Forall_nil. done.
  - unfold prog. cbn [threads]. rewrite lookup_singleton_eq. cbn [default]. apply wp_wait. by rewrite newchars_length.
  - split_and!; try done. intros t Ht. unfold prog. cbn [threads]. rewrite lookup_singleton_ne by done. apply ip_nil.
  - split; try done.
    + split; cbn; [by repeat constructor|]. repeat constructor; cbn; try done.
    + cbn. split; [done|]. by repeat constructor.
    + cbn. rewrite count_cons. cbn. by rewrite decide_True.
    + cbn. rewrite count_cons. cbn. by rewrite decide_False.
    + exists None, []. split; [|done]. split; cbn; try done. by rewrite newchars_length.
  - intros b Hb. unfold received, in_box, to_box. cbn. rewrite lookup_replicate_2 by lia. done.
Qed.

(** ** Nobody is stuck *)

(** The postal worker is blocked only when there is no packet for it, and a thread
    that has sent a packet only until the interrupt that it waits for. *)
Lemma never_stuck name accepted h t rand : host_ok name h accepted ->
  thread_step big newchars works outDev t rand h = Ok None ->
  (t = worker -> len (inHdr (network (input (post h)))) = 0) /\
  (lockHolder (output (post h)) = Some t -> 0 < count outDev (pending (intr h))).
Proof.
  intros (k & w & hand & ms & HH) E. destruct HH. pose proof h_dev0 as [_ _ _ (_ & HS & _) _ (b & s & [_ _ _ C4] & _ & _ & HA & _)].
  unfold thread_step in E. split.
  - intros ->. inversion h_worker0 as [buffer Hb Ek Eh Ep|buffer Hb Ek Eh Ep|m buffer Hm Hp Ek Eh Ep]; subst k; rewrite <- Ep in E.
    + case_bool_decide as Hz; [|done]. rewrite Hz in HA. destruct b; [lia|done].
    + by destruct (PostalDelivery_receive _ _ _) as [[[[? ?] ?] ?]| | |].
    + by destruct (PostalDelivery_put _ _ _ _ _).
  - intros El. unfold lock_ok in h_lock0. rewrite El in h_lock0. destruct h_lock0 as (_ & Ht & Hp & _).
    inversion Hp as [m pktH buffer Hs Ew Ep|Ew Ep|Ew Ep]; rewrite <- Ep in E.
    + by destruct (NetworkOutput_Send _ _ _ _ _ _ _ _ _) as [[? ?]| | |].
    + case_bool_decide as Hz; [|done]. lia.
    + rewrite bool_decide_true in E by done. done.
Qed.

Lemma one_packet name accepted h : host_ok name h accepted ->
  count inDev (pending (intr h)) = 1 /\ count outDev (pending (intr h)) <= 1.
Proof.
  intros (k & w & hand & ms & HH). destruct HH. destruct h_dev0 as [_ _ HP (H0 & HS & Hw) _ _]. split; [done|]. lia.
Qed.

End machine.
