(* ===== verification/NetworkClaims.v ===== *)
(** * The network and the post office: the theorem *)

From S2P Require Import Prelude Bytes Lists ListProofs Sched Interrupt InterruptProofs Devices Network NetworkProofs NetworkInv.
Import Interrupt.Interrupt.

(** The mail that the network accepted for box [b] of machine [a], in order. *)
Definition mail_to (a b : Z) (sent : list Mail) : list Mail :=
  to_box b (filter (fun m => to (pktHdr m) = a) sent).

(** No packet is in the machine's socket, in its device or with its postal worker. *)
Definition settled (h : Host) : Prop :=
  sock (network (input (post h))) = [] /\ len (inHdr (network (input (post h)))) = 0 /\
  exists buffer, prog h worker = [DWait buffer].

Section network.
Context (big : bool) (newchars : Z -> list Z) (works : Z -> bool) (inDev outDev nBoxes : Z).
Context (devices_differ : inDev <> outDev) (nBoxes_range : 0 <= nBoxes <= int_max).
Context (newchars_length : forall n, 0 <= n -> length (newchars n) = Z.to_nat n).

(** The start: machines that have run their constructors, nothing sent. *)
Definition started (W : World) : Prop :=
  sent W = [] /\ forall a h, hosts W !! a = Some h -> is_i32 a /\ newHost newchars inDev a nBoxes = Ok h.

#[local] Abbreviation wstep := (wstep big newchars works inDev outDev).
#[local] Abbreviation host_ok := (host_ok big inDev outDev nBoxes).

Definition world_ok (names : Z -> Prop) (W : World) : Prop :=
  (forall a, names a <-> is_Some (hosts W !! a)) /\
  forall a h, hosts W !! a = Some h -> is_i32 a /\ host_ok names a h (filter (fun m => to (pktHdr m) = a) (sent W)).

(** Replacing a machine by one that is all right. *)
Lemma world_insert names W a h h' : world_ok names W -> hosts W !! a = Some h ->
  host_ok names a h' (filter (fun m => to (pktHdr m) = a) (sent W)) -> world_ok names (mkWorld (<[a := h']> (hosts W)) (sent W)).
Proof.
  intros [HN HW] E HH. split; cbn.
  - intros b. rewrite HN. destruct (decide (a = b)) as [<-|Hn]; [rewrite lookup_insert_eq, E; split; by eexists|by rewrite lookup_insert_ne].
  - intros b h2 E2. destruct (decide (a = b)) as [<-|Hn]; [rewrite lookup_insert_eq in E2; injection E2 as <-; split; [by apply (HW a h)|done]|].
    rewrite lookup_insert_ne in E2 by done. by apply HW.
Qed.

(** A packet arrives. *)
Lemma world_arrive names W m packet hd : world_ok names W -> hosts W !! to (pktHdr m) = Some hd ->
  mail_for nBoxes (to (pktHdr m)) m -> encodes big m packet ->
  world_ok names (mkWorld (<[to (pktHdr m) := arrive packet hd]> (hosts W)) (sent W ++ [m])).
Proof.
  intros [HN HW] E Hm He. destruct (HW _ _ E) as [Hi HH]. split; cbn.
  - intros b. rewrite HN. destruct (decide (to (pktHdr m) = b)) as [<-|Hn]; [rewrite lookup_insert_eq, E; split; by eexists|by rewrite lookup_insert_ne].
  - intros b h2 E2. rewrite filter_app, filter_cons. destruct (decide (to (pktHdr m) = b)) as [<-|Hn].
    + rewrite lookup_insert_eq in E2. injection E2 as <-. split; [done|]. by apply host_arrive.
    + rewrite lookup_insert_ne in E2 by done. rewrite app_nil_r. by apply HW.
Qed.

Lemma wstep_ok names W W' : world_ok names W -> wstep W W' -> world_ok names W'.
Proof.
  intros HO HS. destruct HS as [W a h t rand h' E Hc ES|W a h t rand h' m packet hd E Hc ES Ed|W a h t rand h' m packet E Hc ES
    |W a h i d y E Hc ET|W a h i d E Hc HB ET|W a h t pktH mailH dat p E Ht Ep H1 H2 H3 H4 Hb ES|W a h t box dest p E Ht Ep Hd ES];
    pose proof (proj2 HO _ _ E) as [Ha HH].
  - destruct (any_step big newchars works inDev outDev nBoxes names devices_differ newchars_length a _ h t rand HH)
      as [E1|(h1 & out & E1 & H1 & _)]; rewrite ES in E1; [done|]. injection E1 as <- <-. by eapply world_insert.
  - destruct (any_step big newchars works inDev outDev nBoxes names devices_differ newchars_length a _ h t rand HH)
      as [E1|(h1 & out & E1 & H1 & H2)]; rewrite ES in E1; [done|]. injection E1 as <- <-. destruct H2 as [(pk & bf & [Hf _ _ _ Hbx]) He].
    pose proof (world_arrive names (mkWorld (<[a := h']> (hosts W)) (sent W)) m packet hd) as HA. cbn [hosts sent] in HA.
    apply HA; [by eapply world_insert|exact Ed| |exact He].
    split; [done|done|]. apply Hbx. apply (proj1 HO). cbn in Ed.
    destruct (decide (a = to (pktHdr m))) as [<-|Hn]; [by rewrite E|rewrite lookup_insert_ne in Ed by done; by eexists].
  - destruct (any_step big newchars works inDev outDev nBoxes names devices_differ newchars_length a _ h t rand HH)
      as [E1|(h1 & out & E1 & H1 & _)]; rewrite ES in E1; [done|]. injection E1 as <- <-. by eapply world_insert.
  - destruct (host_tick big inDev outDev nBoxes names devices_differ a _ h HH Hc) as (i1 & d1 & y1 & E1 & H1).
    rewrite ET in E1. injection E1 as <- <- <-. by eapply world_insert.
  - destruct (host_idle big inDev outDev nBoxes names devices_differ a _ h HH Hc) as (i1 & d1 & E1 & H1).
    rewrite ET in E1. injection E1 as <- <-. by eapply world_insert.
  - eapply world_insert; [exact HO|exact E|]. apply start_step; [exact HH|exact Ht|exact Ep|].
    assert (En : hostName (post h) = a) by (destruct HH as (? & ? & ? & ? & HH); apply (h_name _ _ _ _ _ _ _ _ _ _ _ _ HH)).
    rewrite En in ES. eapply call_send; [exact newchars_length|exact Ha|exact H1|exact H2|exact H3|exact H4| |exact ES].
    intros Hnm. apply (proj1 HO) in Hnm as [hd Ehd]. pose proof (Hb hd Ehd) as Hlt. destruct (proj2 HO _ _ Ehd) as [_ (? & ? & ? & ? & HD)].
    by rewrite (h_num _ _ _ _ _ _ _ _ _ _ _ _ HD) in Hlt.
  - eapply world_insert; [exact HO|exact E|]. apply start_step; [exact HH|exact Ht|exact Ep|].
    destruct HH as (? & ? & ? & ? & HH). unfold PostOfficeInput_Receive in ES. rewrite (h_num _ _ _ _ _ _ _ _ _ _ _ _ HH) in ES.
    apply bind_Ok in ES as (? & Hr%ASSERT_Ok%andb_true_iff & ES). injection ES as <-.
    destruct Hr as [H1%bool_decide_eq_true H2%bool_decide_eq_true]. apply ip_get; [lia|]. change MaxMailSize with 40 in *. lia.
Qed.

Lemma wsteps_ok names W W' : rtc wstep W W' -> world_ok names W -> world_ok names W'.
Proof. induction 1 as [|W1 W2 W3 HS _ IH]; [done|]. intros H. by apply IH, (wstep_ok names W1). Qed.

Lemma network_started_ok W : started W -> world_ok (fun a => is_Some (hosts W !! a)) W.
Proof.
  intros [ES HS]. split; [done|]. intros a h E. rewrite ES. destruct (HS a h E) as [Ha Hh]. split; [done|].
  by apply (newHost_ok big newchars inDev outDev nBoxes _ devices_differ nBoxes_range newchars_length).
Qed.

(** Nothing is under way on a settled machine. *)
Lemma settled_mail names a h accepted b : host_ok names a h accepted -> 0 <= b < nBoxes ->
  exists rest, received h b ++ in_box h b ++ rest = to_box b accepted /\ (settled h -> rest = []).
Proof.
  intros (k & w & hand & ms & HH) Hb. exists (to_box b (hand ++ ms)). split; [apply (h_mail _ _ _ _ _ _ _ _ _ _ _ _ HH b Hb)|].
  intros (Hs & Hl & buffer & Hp). pose proof (h_worker _ _ _ _ _ _ _ _ _ _ _ _ HH) as HW. rewrite Hp in HW. inversion HW; subst.
  destruct (v_chan _ _ _ _ _ _ _ _ _ (h_dev _ _ _ _ _ _ _ _ _ _ _ _ HH)) as (b0 & s & [C1 C2 _ C4] & -> & _).
  rewrite Hs in C1. inversion C1; subst. destruct b0 as [m|]; [|done]. destruct C4 as [C4 _]. rewrite C4 in Hl.
  inversion C2 as [|? ? [Hf _ _] _]; subst. pose proof (fits_range m Hf). lia.
Qed.

(** C5: the network delivers the mail.  Any number of machines run the post
    office; their threads, the postal workers and the interrupts interleave in any
    way, and any packets are lost.  No step of a thread and no interrupt fails.  For
    every box, what [Receive] has returned and then what is in the box is, in
    order, a prefix of the mail that was sent to that box and not lost, byte for
    byte as it was given to [Send], with the sender's name filled in; it is all of
    it when nothing is under way.  Nobody is stuck: the worker is only blocked while
    no packet is waiting in the device, the network is always polled again, and a
    sending thread is only blocked while the interrupt that ends its one
    transmission is pending. *)
Theorem post_office_delivers (W0 W : World) (a : Z) (h : Host) : started W0 -> rtc wstep W0 W -> hosts W !! a = Some h ->
  (forall t rand, exists r, thread_step big newchars works outDev t rand h = Ok r) /\
  (clock_ok h -> exists r, @OneTick Post (post_devices big inDev outDev) (intr h) (post h) = Ok r) /\
  (forall b, 0 <= b < nBoxes -> exists rest,
     received h b ++ in_box h b ++ rest = mail_to a b (sent W) /\ (settled h -> rest = [])) /\
  (count inDev (pending (intr h)) = 1 /\ count outDev (pending (intr h)) <= 1) /\
  (forall t rand, thread_step big newchars works outDev t rand h = Ok None ->
     (t = worker -> len (inHdr (network (input (post h)))) = 0) /\
     (lockHolder (output (post h)) = Some t -> 0 < count outDev (pending (intr h)))).
Proof.
  intros HS HR E. apply network_started_ok in HS. pose proof (wsteps_ok _ _ _ HR HS) as HO.
  set (names := fun a => is_Some (hosts W0 !! a)) in HO. destruct (proj2 HO a h E) as [_ HH]. split_and!.
  - intros t rand. destruct (any_step big newchars works inDev outDev nBoxes names devices_differ newchars_length a _ h t rand HH)
      as [-> |(h' & out & -> & _)]; by eexists.
  - intros Hc. destruct (host_tick big inDev outDev nBoxes names devices_differ a _ h HH Hc) as (i & d & y & -> & _). by eexists.
  - intros b Hb. by eapply settled_mail.
  - apply (one_packet _ _ _ _ _ _ _ _ HH).
  - apply (one_packet _ _ _ _ _ _ _ _ HH).
  - intros t rand. eapply never_stuck; [exact HH].
Qed.

(** ** Running a schedule *)

Inductive act : Type :=
| AThread (a t rand : Z)
| ATick (a : Z)
| ASend (a t : Z) (pktH mailH : Header) (dat : list Z)
| AReceive (a t box : Z) (dest : list Z).

#[local] Instance decide_is_i32 x : Decision (is_i32 x).
Proof. unfold is_i32. apply _. Defined.
#[local] Instance decide_clock_ok h : Decision (clock_ok h).
Proof. unfold clock_ok. apply _. Defined.

Definition box_exists (W : World) (pktH mailH : Header) : bool :=
  match hosts W !! to pktH with Some hd => bool_decide (to mailH < numBoxes (input (post hd))) | None => true end.

Definition exec1 (c : act) (W : World) : option World :=
  match c with
  | AThread a t rand =>
      h ← hosts W !! a; if decide (clock_ok h) then
      match thread_step big newchars works outDev t rand h with
      | Ok (Some (h', None)) => Some (mkWorld (<[a := h']> (hosts W)) (sent W))
      | Ok (Some (h', Some (m, packet))) =>
          hd ← <[a := h']> (hosts W) !! to (pktHdr m);
          Some (mkWorld (<[to (pktHdr m) := arrive packet hd]> (<[a := h']> (hosts W))) (sent W ++ [m]))
      | _ => None
      end else None
  | ATick a =>
      h ← hosts W !! a; if decide (clock_ok h) then
      match @OneTick Post (post_devices big inDev outDev) (intr h) (post h) with
      | Ok (i, d, _) => Some (mkWorld (<[a := mkHost i d (threads h) (got h)]> (hosts W)) (sent W))
      | _ => None
      end else None
  | ASend a t pktH mailH dat =>
      h ← hosts W !! a; if decide (t = worker) then None else if decide (prog h t = []) then
      if decide (is_i32 (to pktH) /\ is_i32 (to mailH) /\ is_i32 (from mailH) /\ 0 <= len mailH <= Z.of_nat (length dat)) then
      if box_exists W pktH mailH then
      match PostOfficeOutput_Send big newchars (hostName (post h)) pktH mailH dat with
      | Ok p => Some (mkWorld (<[a := set_prog h t p]> (hosts W)) (sent W))
      | _ => None
      end else None else None else None
  | AReceive a t box dest =>
      h ← hosts W !! a; if decide (t = worker) then None else if decide (prog h t = []) then if decide (Z.to_nat MaxMailSize <= length dest)%nat then
      match PostOfficeInput_Receive (input (post h)) box dest with
      | Ok p => Some (mkWorld (<[a := set_prog h t p]> (hosts W)) (sent W))
      | _ => None
      end else None else None
  end.

Fixpoint exec (cs : list act) (W : World) : option World :=
  match cs with [] => Some W | c :: cs' => W' ← exec1 c W; exec cs' W' end.

Lemma exec1_sound c W W' : exec1 c W = Some W' -> wstep W W'.
Proof.
  destruct c as [a t rand|a|a t pktH mailH dat|a t box dest]; cbn [exec1]; intros E;
    apply bind_Some in E as (h & Eh & E); repeat case_decide; try done.
  - destruct (thread_step _ _ _ _ _ _ _) as [[[h' [[m packet]|]]|]| | |] eqn:ES; try done.
    + destruct (_ !! to (pktHdr m)) as [hd|] eqn:Ed; [|done]. injection E as <-. by eapply w_send.
    + injection E as <-. by eapply w_thread.
  - destruct (OneTick _ _) as [[[i d] y]| | |] eqn:ES; try done. injection E as <-. by eapply w_tick.
  - destruct (box_exists W pktH mailH) eqn:HB; [|done].
    destruct (PostOfficeOutput_Send _ _ _ _ _ _) eqn:ES; try done. injection E as <-.
    match goal with H : is_i32 _ /\ _ |- _ => destruct H as (? & ? & ? & ?) end.
    apply (w_call_send _ _ _ _ _ W a h t pktH mailH dat); try done. intros hd Ehd. unfold box_exists in HB. rewrite Ehd in HB. by apply bool_decide_eq_true in HB.
  - destruct (PostOfficeInput_Receive _ _ _) eqn:ES; try done. injection E as <-. by eapply w_call_receive.
Qed.

Lemma exec_sound cs W W' : exec cs W = Some W' -> rtc wstep W W'.
Proof.
  revert W. induction cs as [|c cs IH]; intros W E; cbn in E; [by injection E as <-|].
  apply bind_Some in E as (W1 & E1 & E). eapply rtc_l; [by eapply exec1_sound|by apply IH].
Qed.

End network.

(** Two machines with two boxes each.  Machine 1 sends three bytes to box 1 of
    machine 2; after ten ticks the network is polled, the worker sorts the packet
    into the box, and a thread receives it. *)
Definition demo_chars (n : Z) : list Z := replicate (Z.to_nat n) 170.
Definition demo_works (n : Z) : bool := n <? 90.
Definition no_host : Host :=
  mkHost newInterrupt (mkPost 0 (mkPostIn (mkNetworkInput [] false (mkHeader 0 0 0) [] 0) [] 0 0) newPostOfficeOutput) ∅ [].
Definition demo_host (a : Z) : Host := match newHost demo_chars 100 a 2 with Ok h => h | _ => no_host end.
Definition demo_start : World := mkWorld {[1 := demo_host 1; 2 := demo_host 2]} [].
Definition demo_schedule : list act :=
  [ASend 1 5 (mkHeader 2 0 0) (mkHeader 1 0 3) [104; 105; 33]; AThread 1 5 0; AThread 1 5 0] ++
  replicate 10 (ATick 2) ++ [AThread 2 0 0; AThread 2 0 0; AThread 2 0 0; AReceive 2 7 1 (replicate 40 0); AThread 2 7 0].
Definition demo_world : World := default demo_start (exec false demo_chars demo_works 100 200 demo_schedule demo_start).
Definition demo_mail : Mail := mkMail (mkHeader 2 1 15) (mkHeader 1 0 3) [104; 105; 33].

Lemma demo_network_started : started demo_chars 100 2 demo_start.
Proof.
  split; [done|]. intros a h Eh. unfold demo_start in Eh. cbn [hosts] in Eh.
  apply lookup_insert_Some in Eh as [[<- <-]|[_ Eh]]; [split; [done|vm_compute; reflexivity]|].
  apply lookup_singleton_Some in Eh as [<- <-]. split; [done|vm_compute; reflexivity].
Qed.

Lemma post_office_delivers_witness : exists h, hosts demo_world !! 2 = Some h /\ received h 1 = [demo_mail] /\
  (forall t rand, exists r, thread_step false demo_chars demo_works 200 t rand h = Ok r) /\
  (exists rest, received h 1 ++ in_box h 1 ++ rest = mail_to 2 1 [demo_mail] /\ (settled h -> rest = [])).
Proof.
  destruct (hosts demo_world !! 2) as [h|] eqn:E; [|by vm_compute in E]. exists h. split; [done|].
  assert (ER : (fun h => received h 1) <$> (hosts demo_world !! 2) = Some [demo_mail]) by (vm_compute; reflexivity).
  rewrite E in ER. injection ER as ER. split; [exact ER|].
  destruct (post_office_delivers false demo_chars demo_works 100 200 2 ltac:(done) ltac:(by split)
    (fun n _ => length_replicate _ _) demo_start demo_world 2 h) as (H1 & _ & H2 & _).
  - exact demo_network_started.
  - apply (exec_sound false demo_chars demo_works 100 200 demo_schedule). vm_compute. reflexivity.
  - exact E.
  - split; [exact H1|]. specialize (H2 1 ltac:(lia)).
    assert (ES : sent demo_world = [demo_mail]) by (vm_compute; reflexivity). rewrite ES in H2. exact H2.
Defined.
