(* ===== verification/NetworkTest.v ===== *)
(** * threads/kernel.cc: Kernel::NetworkTest

    Machines 0 and 1 greet each other and acknowledge the greeting, through the
    post office of Network.v.  The main thread of a machine is the point of
    [NetworkTest] it goes on from when the call of [Send] or [Receive] it is in
    returns; the network, the postal workers and the interrupts take the steps of
    Network.v in between. *)

From S2P Require Import Prelude Bytes Text Sched Interrupt Network.
Import Interrupt.Interrupt.

(** "Hello there!" and "Got it!", with their zeros. *)
Definition hello_text : list Z := [72; 101; 108; 108; 111; 32; 116; 104; 101; 114; 101; 33].
Definition ack_text : list Z := [71; 111; 116; 32; 105; 116; 33].
Definition message : list Z := hello_text ++ [0].
Definition ack : list Z := ack_text ++ [0].

(** Where the main thread goes on. *)
Inductive point : Type := SendMessage | ReceiveMessage | SendAck | ReceiveAck | PrintAck | Returned.

#[global] Instance point_eq_dec : EqDecision point.
Proof. solve_decision. Defined.

(** A line that is printed: the text, the machine and the box it came from. *)
Definition line : Type := list Z * Z * Z.

(** [cout << "Got: " << buffer ...] *)
Definition got_line (m : Mail) : res line :=
  text ← c_str (data m); Ok (text, from (pktHdr m), from (mailHdr m)).

(** What the main thread's last [Receive] has stored. *)
Definition last_got (h : Host) : res Mail :=
  match last (got h) with Some (_, m) => Ok m | None => Undef end.

Definition main_thread : Z := 1.

Section test.
Context (big : bool) (newchars : Z -> list Z) (works : Z -> bool) (inDev outDev : Z).
(** [junk]: the fields of the headers that are never set; [buffer]: the array
    [buffer] before anything is stored in it. *)
Context (junk : Z) (buffer : list Z).

(** From one call to the next: the call, where to go on after it, and what is
    printed before it. *)
Definition NetworkTest (pt : point) (h : Host) : res (option (list step) * point * list line) :=
  let name := hostName (post h) in
  match pt with
  | SendMessage =>
      if bool_decide (name = 0) || bool_decide (name = 1) then
        let farHost := if bool_decide (name = 0) then 1 else 0 in
        p ← PostOfficeOutput_Send big newchars name (mkHeader farHost junk junk)
              (mkHeader 0 1 (Z.of_nat (length message))) message;
        Ok (Some p, ReceiveMessage, [])
      else Ok (None, Returned, [])
  | ReceiveMessage => p ← PostOfficeInput_Receive (input (post h)) 0 buffer; Ok (Some p, SendAck, [])
  | SendAck =>
      m ← last_got h; l ← got_line m;
      p ← PostOfficeOutput_Send big newchars name (mkHeader (from (pktHdr m)) junk junk)
            (mkHeader (from (mailHdr m)) 1 (Z.of_nat (length ack))) ack;
      Ok (Some p, ReceiveAck, [l])
  | ReceiveAck => m ← last_got h; p ← PostOfficeInput_Receive (input (post h)) 1 (data m); Ok (Some p, PrintAck, [])
  | PrintAck => m ← last_got h; l ← got_line m; Ok (None, Returned, [l])
  | Returned => Ok (None, Returned, [])
  end.

(** The network, where the main threads are, and what they have printed. *)
Record State : Type := mkState { world : World; points : gmap Z point; printed : gmap Z (list line) }.

Definition printed_by (s : State) (a : Z) : list line := default [] (printed s !! a).

Definition call (h : Host) (p : option (list step)) : Host :=
  match p with Some p => set_prog h main_thread p | None => h end.

(** No thread begins a call. *)
Definition no_call (W W' : World) : Prop :=
  forall a h h' t, hosts W !! a = Some h -> hosts W' !! a = Some h' -> prog h t = [] -> prog h' t = [].

Inductive nstep : State -> State -> Prop :=
| n_network s W' :
    wstep big newchars works inDev outDev (world s) W' -> no_call (world s) W' ->
    nstep s (mkState W' (points s) (printed s))
| n_main s a h pt p pt' out :
    hosts (world s) !! a = Some h -> points s !! a = Some pt -> prog h main_thread = [] -> pt <> Returned ->
    NetworkTest pt h = Ok (p, pt', out) ->
    nstep s (mkState (mkWorld (<[a := call h p]> (hosts (world s))) (sent (world s)))
               (<[a := pt']> (points s)) (<[a := printed_by s a ++ out]> (printed s))).

(** ** The kernel's post offices

    [postOfficeIn] and [postOfficeOut] are pointers of the kernel.  The two lines of
    [Kernel::Initialize] that would set them are commented out, so a kernel as it is
    has none; [test_started] below is a pair of kernels with these two lines. *)
Definition Initialize_offices : option Host := None.

(** The call of [NetworkTest] on the machine [hostName], up to the first call it makes
    of a post office. *)
Definition NetworkTest_call (hostName : Z) (offices : option Host) : res (option (list step) * point * list line) :=
  if bool_decide (hostName = 0) || bool_decide (hostName = 1) then
    match offices with Some h => NetworkTest SendMessage h | None => Undef end
  else Ok (None, Returned, []).

(** Two kernels with the constructors of the post office. *)
Definition test_started (nBoxes : Z) (s : State) : Prop :=
  exists h0 h1, newHost newchars inDev 0 nBoxes = Ok h0 /\ newHost newchars inDev 1 nBoxes = Ok h1 /\
    s = mkState (mkWorld {[0 := h0; 1 := h1]} []) {[0 := SendMessage; 1 := SendMessage]} ∅.

End test.
