(* ===== verification/NetworkTestClaims.v ===== *)
(** * Kernel::NetworkTest: the theorem

    The state of the test is that of the network with the phase of each main thread
    beside it; what a phase implies is kept by every step.  What the machines hear
    comes from the guarantees of the post office. *)

From S2P Require Import Prelude Bytes Text Lists ListProofs Sched Interrupt InterruptProofs Devices Network NetworkProofs NetworkInv NetworkClaims NetworkTest.
Import Interrupt.Interrupt.

(** The messages of machine [a], as they travel. *)
Definition far (a : Z) : Z := 1 - a.
Definition hello_mail (a : Z) : Mail := mkMail (mkHeader (far a) a 25) (mkHeader 0 1 13) message.
Definition ack_mail (a : Z) : Mail := mkMail (mkHeader (far a) a 20) (mkHeader 1 1 8) ack.

(** What machine [a] is to print. *)
Definition lines (a : Z) : list line := [(hello_text, far a, 1); (ack_text, far a, 1)].

Definition machine_name (a : Z) : Prop := a = 0 \/ a = 1.

Lemma far_far a : far (far a) = a.
Proof. unfold far. lia. Qed.
Lemma far_ne a : machine_name a -> far a <> a /\ machine_name (far a).
Proof. unfold machine_name, far. lia. Qed.

Section test.
Context (big : bool) (newchars : Z -> list Z) (works : Z -> bool) (inDev outDev nBoxes : Z).
Context (devices_differ : inDev <> outDev) (nBoxes_range : 2 <= nBoxes <= int_max).
Context (newchars_length : forall n, 0 <= n -> length (newchars n) = Z.to_nat n).
Context (junk : Z) (buffer : list Z) (buffer_length : length buffer = Z.to_nat MaxMailSize).

#[local] Abbreviation wstep := (wstep big newchars works inDev outDev).
#[local] Abbreviation nstep := (nstep big newchars works inDev outDev junk buffer).
#[local] Abbreviation NetworkTest := (NetworkTest big newchars junk buffer).
#[local] Abbreviation world_ok := (world_ok big inDev outDev nBoxes).
#[local] Abbreviation host_ok := (host_ok big inDev outDev nBoxes).

(** ** Calls *)

Definition unsent (m : Mail) (p : list step) : Prop :=
  exists pk bf, p = [SAcquire; SSend m pk bf; SWait; SRelease] \/ p = [SSend m pk bf; SWait; SRelease].
Definition after_send (p : list step) : Prop := p = [SWait; SRelease] \/ p = [SRelease] \/ p = [].

Lemma Send_ok name pktH mailH dat :
  len mailH = Z.of_nat (length dat) -> (length dat <= 40)%nat -> 0 <= to mailH ->
  exists bf, PostOfficeOutput_Send big newchars name pktH mailH dat =
    Ok [SAcquire; SSend (mkMail (mkHeader (to pktH) name (u32 (len mailH + HeaderSize))) mailH dat)
          (mkHeader (to pktH) name (u32 (len mailH + HeaderSize))) bf; SWait; SRelease].
Proof.
  intros HL Hd H0. unfold PostOfficeOutput_Send. change MaxMailSize with 40. change MaxPacketSize with 52.
  assert (HN : length (newchars 52) = 52%nat) by (apply newchars_length; lia).
  unfold ASSERT. rewrite !bool_decide_true by lia. cbn [mbind res_bind].
  destruct (copy_data (header_bytes big mailH) (newchars 52)) as (b1 & E1 & L1 & _); [rewrite header_length, HN; lia|].
  rewrite E1. cbn [mbind res_bind]. rewrite mem_read_ok, drop_0, HL, Nat2Z.id, firstn_all by lia. cbn [mbind res_bind].
  rewrite mem_write_ok by (unfold HeaderSize; lia). cbn [mbind res_bind]. by eexists.
Qed.

(** ** Phases *)

(** [m], in a buffer, is the mail [e]. *)
Definition heard (e m : Mail) : Prop := content m = e /\ (40 <= length (data m))%nat.

Definition perhaps (e : Mail) (l : list Mail) : Prop := l = [] \/ l = [e].

(** The point of a main thread, the steps it has to take, what it has received and
    printed, and what the network has accepted from it for box 0 and box 1. *)
Inductive phase (a : Z) : point -> list step -> list (Z * Mail) -> list line -> list Mail -> list Mail -> Prop :=
| ph_start : phase a SendMessage [] [] [] [] []
| ph_greet p : unsent (hello_mail a) p -> phase a ReceiveMessage p [] [] [] []
| ph_greeted p s : after_send p -> perhaps (hello_mail a) s -> phase a ReceiveMessage p [] [] s []
| ph_listen s : perhaps (hello_mail a) s -> phase a SendAck [RGet 0 buffer] [] [] s []
| ph_heard m s : heard (hello_mail (far a)) m -> perhaps (hello_mail a) s -> phase a SendAck [] [(0, m)] [] s []
| ph_reply m s p : heard (hello_mail (far a)) m -> perhaps (hello_mail a) s -> unsent (ack_mail a) p ->
    phase a ReceiveAck p [(0, m)] (take 1 (lines a)) s []
| ph_replied m s s' p : heard (hello_mail (far a)) m -> perhaps (hello_mail a) s -> perhaps (ack_mail a) s' -> after_send p ->
    phase a ReceiveAck p [(0, m)] (take 1 (lines a)) s s'
| ph_wait m s s' : heard (hello_mail (far a)) m -> perhaps (hello_mail a) s -> perhaps (ack_mail a) s' ->
    phase a PrintAck [RGet 1 (data m)] [(0, m)] (take 1 (lines a)) s s'
| ph_acked m m' s s' : heard (hello_mail (far a)) m -> heard (ack_mail (far a)) m' ->
    perhaps (hello_mail a) s -> perhaps (ack_mail a) s' ->
    phase a PrintAck [] [(0, m); (1, m')] (take 1 (lines a)) s s'
| ph_done m m' s s' : heard (hello_mail (far a)) m -> heard (ack_mail (far a)) m' ->
    perhaps (hello_mail a) s -> perhaps (ack_mail a) s' ->
    phase a Returned [] [(0, m); (1, m')] (lines a) s s'.

Lemma phase_sent a pt p g l s s' : phase a pt p g l s s' -> perhaps (hello_mail a) s /\ perhaps (ack_mail a) s'.
Proof. unfold perhaps. intros H. inversion H; subst; auto. Qed.

Lemma got_line_ok e m text : heard e m -> 0 ∉ text -> data e = text ++ [0] -> len (mailHdr e) = Z.of_nat (length (data e)) ->
  got_line m = Ok (text, from (pktHdr e), from (mailHdr e)).
Proof.
  intros [HC HL] H0 HD Hl. destruct m as [pk mh d]. unfold content in HC. cbn [pktHdr mailHdr data] in *.
  subst e. cbn [pktHdr mailHdr data] in *. unfold got_line. cbn [pktHdr mailHdr data].
  rewrite <- (take_drop (Z.to_nat (len mh)) d), HD, <- app_assoc. cbn [app]. by rewrite c_str_ok.
Qed.

(** A call that the rules of the network allow. *)
Definition allowed (a : Z) (h : Host) (p : list step) : Prop :=
  (exists pk mh dat, to pk = far a /\ is_i32 (to mh) /\ is_i32 (from mh) /\ 0 <= len mh <= Z.of_nat (length dat) /\
     to mh < nBoxes /\ PostOfficeOutput_Send big newchars a pk mh dat = Ok p) \/
  (exists b dest, (Z.to_nat MaxMailSize <= length dest)%nat /\ PostOfficeInput_Receive (input (post h)) b dest = Ok p).

Lemma far_lines a : machine_name a -> (if bool_decide (a = 0) then 1 else 0) = far a.
Proof. unfold far. by intros [-> | ->]. Qed.

Lemma hello_line a m : heard (hello_mail (far a)) m -> got_line m = Ok (hello_text, far a, 1).
Proof. intros H. apply (got_line_ok _ _ hello_text H); [|done..]. by apply (bool_decide_unpack _). Qed.
Lemma ack_line a m : heard (ack_mail (far a)) m -> got_line m = Ok (ack_text, far a, 1).
Proof. intros H. apply (got_line_ok _ _ ack_text H); [|done..]. by apply (bool_decide_unpack _). Qed.

Lemma Receive_ok h b dest : numBoxes (input (post h)) = nBoxes -> 0 <= b <= 1 ->
  PostOfficeInput_Receive (input (post h)) b dest = Ok [RGet b dest].
Proof. intros HN Hb. unfold PostOfficeInput_Receive, ASSERT. by rewrite HN, !bool_decide_true by lia. Qed.

(** The next call of the main thread succeeds, and begins the next phase. *)
Lemma NetworkTest_ok a pt h g l s s' :
  machine_name a -> hostName (post h) = a -> numBoxes (input (post h)) = nBoxes -> got h = g ->
  phase a pt [] g l s s' -> pt <> Returned ->
  exists p pt' out, NetworkTest pt h = Ok (p, pt', out) /\ phase a pt' (default [] p) g (l ++ out) s s' /\
    match p with Some p => allowed a h p | None => True end.
Proof.
  intros Ha En HN Hg HP Hr. unfold NetworkTest, last_got. rewrite En, Hg.
  assert (HS : forall text, perhaps text [] ) by (by left).
  inversion HP as [|p (pk & bf & [E|E])|p s0 Hp Hs|s0 Hs|m s0 Hm Hs|m s0 p Hm Hs (pk & bf & [E|E])|m s0 s1 p Hm Hs Hs' Hp|
    m s0 s1 Hm Hs Hs'|m m' s0 s1 Hm Hm' Hs Hs'|m m' s0 s1 Hm Hm' Hs Hs']; subst; try done.
  - destruct (Send_ok (hostName (post h)) (mkHeader (far (hostName (post h))) junk junk) (mkHeader 0 1 13) message) as [bf E]; [done|cbn; lia|done|].
    rewrite far_lines by done. replace (bool_decide _ || bool_decide _) with true by (by destruct Ha as [-> | ->]).
    change (Z.of_nat (length message)) with 13. rewrite E. cbn [mbind res_bind].
    eexists _, _, _. split; [reflexivity|]. split; [apply ph_greet; eexists _, _; by left|].
    left. eexists _, _, _. split; [|split; [|split; [|split; [|split; [|exact E]]]]]; try done; cbn; lia.
  - rewrite Receive_ok by done. cbn [mbind res_bind]. eexists _, _, _. split; [reflexivity|]. split; [by apply ph_listen|].
    right. exists 0, buffer. split; [lia|by apply Receive_ok].
  - cbn [last mbind res_bind]. rewrite (hello_line _ m Hm). cbn [mbind res_bind].
    destruct Hm as [HC HL]. pose proof (f_equal pktHdr HC) as E1. pose proof (f_equal mailHdr HC) as E2. cbn in E1, E2.
    rewrite E1, E2. cbn [from]. replace (far (far (hostName (post h)))) with (hostName (post h)) by (unfold far; lia).
    destruct (Send_ok (hostName (post h)) (mkHeader (far (hostName (post h))) junk junk) (mkHeader 1 1 8) ack) as [bf E]; [done|cbn; lia|done|].
    change (Z.of_nat (length ack)) with 8. rewrite E. cbn [mbind res_bind].
    eexists _, _, _. split; [reflexivity|]. split; [apply ph_reply; [by split|done|]; eexists _, _; by left|].
    left. eexists _, _, _. split; [|split; [|split; [|split; [|split; [|exact E]]]]]; try done; cbn; lia.
  - cbn [last mbind res_bind]. rewrite Receive_ok by done. cbn [mbind res_bind]. eexists _, _, _. split; [reflexivity|].
    rewrite app_nil_r. split; [by apply ph_wait|]. right. exists 1, (data m). destruct Hm. split; [done|by apply Receive_ok].
  - cbn [last mbind res_bind]. rewrite (ack_line _ m' Hm'). cbn [mbind res_bind].
    eexists _, _, _. split; [reflexivity|]. split; [by apply ph_done|done].
Qed.

(** ** Steps of a machine *)

(** Only the worker and the main thread have something to do. *)
Definition alone (h : Host) : Prop := forall t, t <> worker -> t <> main_thread -> prog h t = [].

Lemma worker_effect a accepted h rand h' out :
  host_ok machine_name a h accepted -> thread_step big newchars works outDev worker rand h = Ok (Some (h', out)) ->
  out = None /\ got h' = got h /\ forall t, t <> worker -> prog h' t = prog h t.
Proof.
  intros (k & w & hand & ms & HH) E. pose proof (h_worker _ _ _ _ _ _ _ _ _ _ _ _ HH) as HW. unfold thread_step in E.
  assert (HP : forall h1 p t, t <> worker -> prog (set_prog h1 worker p) t = prog h1 t)
    by (intros; rewrite host_prog_set; by rewrite decide_False).
  inversion HW as [bf Hb Ek Eh Ep|bf Hb Ek Eh Ep|m bf Hm Hp Ek Eh Ep]; rewrite <- Ep in E.
  - case_bool_decide; [done|]. injection E as <- <-. split_and!; try done. intros t Ht. by rewrite HP.
  - destruct (PostalDelivery_receive _ _ _) as [[[[? ?] ?] ?]| | |]; try done. injection E as <- <-.
    split_and!; try done. intros t Ht. by rewrite HP.
  - destruct (PostalDelivery_put _ _ _ _ _); try done. injection E as <- <-. split_and!; try done. intros t Ht. by rewrite HP.
Qed.

(** The main thread's steps: a message is sent once, and what is received is stored
    behind the rest. *)
Lemma get_effect b dest h rand h' out :
  prog h main_thread = [RGet b dest] -> thread_step big newchars works outDev main_thread rand h = Ok (Some (h', out)) ->
  out = None /\ prog h' main_thread = [] /\ (forall t, t <> main_thread -> prog h' t = prog h t) /\
  exists m, got h' = got h ++ [(b, m)] /\ length (data m) = length dest.
Proof.
  intros Ep E. unfold thread_step in E. rewrite Ep in E. unfold step_get in E.
  apply bind_Ok in E as (bx & _ & E). apply bind_Ok in E as (r & EG & E). destruct r as [[[[pk mh] d] bx']|]; [|done].
  apply bind_Ok in E as (bs & _ & E). apply bind_Ok in E as (u & _ & E). injection E as <- <-.
  split; [done|]. unfold prog. cbn [threads got]. split; [by rewrite lookup_insert_eq|]. split; [by intros t Ht; rewrite lookup_insert_ne|].
  eexists. split; [reflexivity|]. cbn [data]. unfold Get in EG. destruct bx as [|m bx]; [done|].
  apply bind_Ok in EG as (bs1 & _ & EG). apply bind_Ok in EG as (d1 & Ed & EG). injection EG as _ _ <- _. by eapply mem_write_length.
Qed.

Lemma send_effect m h rand h' out :
  unsent m (prog h main_thread) -> thread_step big newchars works outDev main_thread rand h = Ok (Some (h', out)) ->
  got h' = got h /\ (forall t, t <> main_thread -> prog h' t = prog h t) /\
  (out = None /\ unsent m (prog h' main_thread) \/
   (forall m' packet, out = Some (m', packet) -> m' = m) /\ after_send (prog h' main_thread)).
Proof.
  assert (HP : forall h1 p t, t <> main_thread -> prog (set_prog h1 main_thread p) t = prog h1 t)
    by (intros; rewrite host_prog_set; by rewrite decide_False).
  assert (HM : forall h1 p, prog (set_prog h1 main_thread p) main_thread = p)
    by (intros; rewrite host_prog_set; by rewrite decide_True).
  intros (pk & bf & [Ep|Ep]) E; unfold thread_step in E; rewrite Ep in E.
  - case_bool_decide; [done|]. injection E as <- <-. split; [done|]. split; [by intros; rewrite HP|].
    left. split; [done|]. rewrite HM. exists pk, bf. by right.
  - destruct (NetworkOutput_Send _ _ _ _ _ _ _ _ _) as [[i o]| | |]; try done. injection E as <- <-.
    split; [done|]. split; [by intros; rewrite HP|]. right. rewrite HM. split; [|by left].
    intros m' packet. by destruct o; cbn; [intros [= -> ->]|].
Qed.

Lemma sent_effect h rand h' out :
  after_send (prog h main_thread) -> thread_step big newchars works outDev main_thread rand h = Ok (Some (h', out)) ->
  out = None /\ got h' = got h /\ (forall t, t <> main_thread -> prog h' t = prog h t) /\ after_send (prog h' main_thread).
Proof.
  assert (HP : forall h1 p t, t <> main_thread -> prog (set_prog h1 main_thread p) t = prog h1 t)
    by (intros; rewrite host_prog_set; by rewrite decide_False).
  assert (HM : forall h1 p, prog (set_prog h1 main_thread p) main_thread = p)
    by (intros; rewrite host_prog_set; by rewrite decide_True).
  unfold after_send. intros [Ep|[Ep|Ep]] E; unfold thread_step in E; rewrite Ep in E; [| |done].
  - case_bool_decide; [done|]. injection E as <- <-. rewrite HM. split_and!; try done; [by intros; rewrite HP|auto].
  - apply bind_Ok in E as (u & _ & E). injection E as <- <-. rewrite HM. split_and!; try done; [by intros; rewrite HP|auto].
Qed.

Lemma content_received h b m g : (filter (fun x => x.1 = b) (got h)) = [(b, m)] -> forall e r, perhaps e r ->
  received h b `prefix_of` r -> g = length (data m) -> (40 <= g)%nat -> heard e m.
Proof.
  intros EF e r Hr HP -> HL. unfold received in HP. rewrite EF in HP. cbn in HP. split; [|done].
  destruct Hr as [-> | ->]; [by apply prefix_nil_inv in HP|]. destruct HP as [k Ek]. by injection Ek as ->.
Qed.

Lemma main_effect a pt h h' rand out l s s' r0 r1 :
  phase a pt (prog h main_thread) (got h) l s s' ->
  thread_step big newchars works outDev main_thread rand h = Ok (Some (h', out)) ->
  perhaps (hello_mail (far a)) r0 -> perhaps (ack_mail (far a)) r1 ->
  received h' 0 `prefix_of` r0 -> received h' 1 `prefix_of` r1 ->
  (forall t, t <> main_thread -> prog h' t = prog h t) /\
  phase a pt (prog h' main_thread) (got h') l s s' /\
  forall m packet, out = Some (m, packet) ->
    (m = hello_mail a /\ phase a pt (prog h' main_thread) (got h') l (s ++ [m]) s') \/
    (m = ack_mail a /\ phase a pt (prog h' main_thread) (got h') l s (s' ++ [m])).
Proof.
  intros HP E H0 H1 R0 R1. assert (Hno : prog h main_thread <> []) by (intros En; unfold thread_step in E; by rewrite En in E).
  assert (HB : (40 <= length buffer)%nat) by (rewrite buffer_length; change (Z.to_nat MaxMailSize) with 40%nat; lia).
  inversion HP as [Ex Ep Eg|p Hu Ex Ep Eg|p s0 Hp Hs Ex Ep Eg|s0 Hs Ex Ep Eg|m s0 Hm Hs Ex Ep Eg|m s0 p Hm Hs Hu Ex Ep Eg|
    m s0 s1 p Hm Hs Hs' Hp Ex Ep Eg|m s0 s1 Hm Hs Hs' Ex Ep Eg|m m' s0 s1 Hm Hm' Hs Hs' Ex Ep Eg|m m' s0 s1 Hm Hm' Hs Hs' Ex Ep Eg];
    subst pt; try by rewrite <- Ep in Hno.
  - destruct (send_effect _ _ _ _ _ Hu E) as (EG & HO & [[-> Hu']|[Ho Ha]]); rewrite EG, <- Eg; (split; [done|]).
    + split; [by apply ph_greet|done].
    + split; [apply ph_greeted; [done|by left]|]. intros m1 pk1 Em. rewrite (Ho m1 pk1 Em). left. split; [done|].
      apply ph_greeted; [done|by right].
  - destruct (sent_effect _ _ _ _ Hp E) as (-> & EG & HO & Ha). rewrite EG, <- Eg. split; [done|]. split; [by apply ph_greeted|done].
  - destruct (get_effect _ _ _ _ _ _ (eq_sym Ep) E) as (-> & EP & HO & m & EG & HL). rewrite EP, EG, <- Eg. split; [done|]. split; [|done].
    apply ph_heard; [|done]. rewrite <- Eg in EG. by eapply (content_received h' 0 m); [rewrite EG|exact H0|exact R0|done|lia].
  - destruct (send_effect _ _ _ _ _ Hu E) as (EG & HO & [[-> Hu']|[Ho Ha]]); rewrite EG, <- Eg; (split; [done|]).
    + split; [by apply ph_reply|done].
    + split; [apply ph_replied; [done|done|by left|done]|]. intros m1 pk1 Em. rewrite (Ho m1 pk1 Em). right. split; [done|].
      apply ph_replied; [done|done|by right|done].
  - destruct (sent_effect _ _ _ _ Hp E) as (-> & EG & HO & Ha). rewrite EG, <- Eg. split; [done|]. split; [by apply ph_replied|done].
  - destruct (get_effect _ _ _ _ _ _ (eq_sym Ep) E) as (-> & EP & HO & m' & EG & HL). rewrite EP, EG, <- Eg. split; [done|]. split; [|done].
    apply ph_acked; [done| |done..]. rewrite <- Eg in EG. destruct Hm as [_ Hm].
    by eapply (content_received h' 1 m'); [rewrite EG|exact H1|exact R1|done|lia].
Qed.

(** ** The invariant *)

Definition phase_of (s : State) (a : Z) (h : Host) : Prop :=
  exists pt, points s !! a = Some pt /\
    phase a pt (prog h main_thread) (got h) (printed_by s a)
      (mail_to (far a) 0 (sent (world s))) (mail_to (far a) 1 (sent (world s))).

Record test_inv (s : State) : Prop := mkTestInv {
  i_world : world_ok machine_name (world s);
  i_alone : forall a h, hosts (world s) !! a = Some h -> alone h;
  i_phase : forall a h, hosts (world s) !! a = Some h -> phase_of s a h }.

Lemma host_name s a h : test_inv s -> hosts (world s) !! a = Some h -> machine_name a.
Proof. intros I E. apply (proj1 (i_world _ I)). by rewrite E. Qed.

Lemma host_exists s a : test_inv s -> machine_name a -> is_Some (hosts (world s) !! a).
Proof. intros I Ha. by apply (proj1 (i_world _ I)). Qed.

(** What is accepted for a machine comes from the other one. *)
Lemma accepted_mail s a : test_inv s -> machine_name a ->
  perhaps (hello_mail (far a)) (mail_to a 0 (sent (world s))) /\ perhaps (ack_mail (far a)) (mail_to a 1 (sent (world s))).
Proof.
  intros I Ha. destruct (host_exists s (far a) I) as [h Eh]; [by apply far_ne|].
  destruct (i_phase _ I _ _ Eh) as (pt & _ & HP). rewrite far_far in HP. by eapply phase_sent.
Qed.

(** What has been received is part of it. *)
Lemma received_mail W a h b : world_ok machine_name W -> hosts W !! a = Some h -> 0 <= b <= 1 ->
  received h b `prefix_of` mail_to a b (sent W).
Proof.
  intros HW E Hb. destruct (proj2 HW a h E) as [_ HH].
  destruct (settled_mail big inDev outDev nBoxes _ _ _ _ b HH) as (r & Er & _); [lia|].
  unfold mail_to. rewrite <- Er. by apply prefix_app_r.
Qed.

(** A step of a thread of machine [a]. *)
Lemma thread_effect s a pt h t rand h' out l x x' :
  test_inv s -> hosts (world s) !! a = Some h ->
  (forall b, 0 <= b <= 1 -> received h' b `prefix_of` mail_to a b (sent (world s))) ->
  thread_step big newchars works outDev t rand h = Ok (Some (h', out)) ->
  phase a pt (prog h main_thread) (got h) l x x' ->
  alone h' /\ phase a pt (prog h' main_thread) (got h') l x x' /\
  forall m packet, out = Some (m, packet) ->
    (m = hello_mail a /\ phase a pt (prog h' main_thread) (got h') l (x ++ [m]) x') \/
    (m = ack_mail a /\ phase a pt (prog h' main_thread) (got h') l x (x' ++ [m])).
Proof.
  intros I E HR ES HP. pose proof (i_alone _ I _ _ E) as HA. destruct (proj2 (i_world _ I) a h E) as [_ HH].
  destruct (accepted_mail s a I) as [A0 A1]; [by eapply host_name|].
  destruct (decide (t = worker)) as [-> |Hw]; [|destruct (decide (t = main_thread)) as [-> |Hm]].
  - destruct (worker_effect _ _ _ _ _ _ HH ES) as (-> & EG & EO). split; [|by rewrite EG, EO].
    intros t H1 H2. rewrite EO by done. by apply HA.
  - destruct (main_effect a pt h h' rand out l x x' _ _ HP ES A0 A1 (HR 0 ltac:(lia)) (HR 1 ltac:(lia))) as (EO & H).
    split; [|exact H]. intros t H1 H2. rewrite EO by done. by apply HA.
  - unfold thread_step in ES. by rewrite (HA t Hw Hm) in ES.
Qed.

(** Machine [a] is replaced, and perhaps mail from it is accepted. *)
Lemma replace_inv s a h h' W' new pts pr :
  test_inv s -> hosts (world s) !! a = Some h -> world_ok machine_name W' ->
  sent W' = sent (world s) ++ new -> Forall (fun m => to (pktHdr m) = far a) new ->
  (forall b hb, b <> a -> hosts W' !! b = Some hb ->
     exists hb0, hosts (world s) !! b = Some hb0 /\ threads hb = threads hb0 /\ got hb = got hb0) ->
  hosts W' !! a = Some h' -> alone h' ->
  (forall b, b <> a -> pts !! b = points s !! b /\ pr !! b = printed s !! b) ->
  phase_of (mkState W' pts pr) a h' -> test_inv (mkState W' pts pr).
Proof.
  intros I E HW ES HN HO Eh HA HQ HP. pose proof (host_name _ _ _ I E) as Ha. destruct (far_ne a Ha) as [Hf _].
  assert (Hsame : forall b hb, b <> a -> hosts W' !! b = Some hb -> exists hb0,
    hosts (world s) !! b = Some hb0 /\ (forall t, prog hb t = prog hb0 t) /\ got hb = got hb0).
  { intros b hb Hb Ehb. destruct (HO b hb Hb Ehb) as (hb0 & E0 & ET & EG). exists hb0. split_and!; try done.
    intros t. unfold prog. by rewrite ET. }
  split; cbn [world]; [done|..].
  - intros b hb Ehb. destruct (decide (b = a)) as [->|Hb]; [rewrite Eh in Ehb; by injection Ehb as <-|].
    destruct (Hsame b hb Hb Ehb) as (hb0 & E0 & EP & _). intros t H1 H2. rewrite EP. by apply (i_alone _ I b hb0).
  - intros b hb Ehb. destruct (decide (b = a)) as [->|Hb]; [rewrite Eh in Ehb; by injection Ehb as <-|].
    destruct (Hsame b hb Hb Ehb) as (hb0 & E0 & EP & EG). destruct (i_phase _ I b hb0 E0) as (pt & Ept & HPb).
    destruct (HQ b Hb) as [Q1 Q2]. exists pt. cbn [points world]. unfold printed_by. cbn [printed].
    rewrite Q1, Q2, EP, EG. split; [done|]. rewrite ES. unfold mail_to. rewrite !filter_app.
    assert (EN : filter (fun m => to (pktHdr m) = far b) new = []).
    { clear - HN Hb. induction HN as [|m l Em _ IH]; [done|]. rewrite filter_cons, IH, decide_False; [done|].
      rewrite Em. intros Ef. apply Hb. by rewrite <- (far_far a), <- (far_far b), Ef. }
    rewrite EN, !app_nil_r. exact HPb.
Qed.

Lemma mail_to_snoc a b l m : mail_to a b (l ++ [m]) =
  mail_to a b l ++ (if decide (to (pktHdr m) = a) then if decide (to (mailHdr m) = b) then [m] else [] else []).
Proof.
  unfold mail_to. rewrite filter_app, to_box_app. f_equal. rewrite filter_cons. case_decide; [|done].
  unfold to_box. rewrite filter_cons. by case_decide.
Qed.

(** A step that leaves the other machines alone, and the network's mail. *)
Lemma local_inv s a h h' pts pr :
  test_inv s -> hosts (world s) !! a = Some h ->
  let W' := mkWorld (<[a := h']> (hosts (world s))) (sent (world s)) in
  world_ok machine_name W' -> alone h' ->
  (forall b, b <> a -> pts !! b = points s !! b /\ pr !! b = printed s !! b) ->
  phase_of (mkState W' pts pr) a h' -> test_inv (mkState W' pts pr).
Proof.
  intros I E W' HW HA HQ HP. eapply (replace_inv s a h h' W' []); try done.
  - cbn. by rewrite app_nil_r.
  - intros b hb Hb. cbn. rewrite lookup_insert_ne by done. eauto.
  - cbn. by rewrite lookup_insert_eq.
Qed.

(** A message is accepted. *)
Lemma send_inv s a h h' pt m packet hd :
  test_inv s -> hosts (world s) !! a = Some h -> points s !! a = Some pt -> alone h' ->
  <[a := h']> (hosts (world s)) !! to (pktHdr m) = Some hd ->
  let W' := mkWorld (<[to (pktHdr m) := arrive packet hd]> (<[a := h']> (hosts (world s)))) (sent (world s) ++ [m]) in
  world_ok machine_name W' ->
  let s0 := mail_to (far a) 0 (sent (world s)) in
  let s1 := mail_to (far a) 1 (sent (world s)) in
  (m = hello_mail a /\ phase a pt (prog h' main_thread) (got h') (printed_by s a) (s0 ++ [m]) s1) \/
  (m = ack_mail a /\ phase a pt (prog h' main_thread) (got h') (printed_by s a) s0 (s1 ++ [m])) ->
  test_inv (mkState W' (points s) (printed s)).
Proof.
  intros I E Ept HA Ed W' HW s0 s1 HM. destruct (far_ne a (host_name _ _ _ I E)) as [Hf _].
  assert (Hto : to (pktHdr m) = far a) by (by destruct HM as [[-> _]|[-> _]]).
  subst W'. rewrite Hto in *. rewrite lookup_insert_ne in Ed by done.
  eapply (replace_inv s a h h' _ [m]); try done.
  - by repeat constructor.
  - intros b hb Hb. cbn. destruct (decide (b = far a)) as [->|Hb'].
    + rewrite lookup_insert_eq. intros [= <-]. by exists hd.
    + rewrite !lookup_insert_ne by done. eauto.
  - cbn. by rewrite lookup_insert_ne, lookup_insert_eq.
  - exists pt. split; [done|]. cbn [world sent points]. rewrite !mail_to_snoc, Hto, !(decide_True (P := far a = far a)) by done.
    unfold printed_by in *. cbn [printed]. fold s0 s1.
    destruct HM as [[-> H]|[-> H]]; cbn; rewrite app_nil_r; exact H.
Qed.

Lemma Send_not_nil name pktH mailH dat : PostOfficeOutput_Send big newchars name pktH mailH dat <> Ok [].
Proof.
  unfold PostOfficeOutput_Send. intros E. do 5 (apply bind_Ok in E as (? & _ & E)). done.
Qed.

Lemma Receive_not_nil p b dest : PostOfficeInput_Receive p b dest <> Ok [].
Proof. unfold PostOfficeInput_Receive. intros E. by apply bind_Ok in E as (? & _ & E). Qed.

(** A step of the network. *)
Lemma network_inv s W' :
  test_inv s -> wstep (world s) W' -> no_call (world s) W' -> test_inv (mkState W' (points s) (printed s)).
Proof.
  intros I HS HN. assert (HW : world_ok machine_name W') by (eapply wstep_ok; eauto; apply I).
  assert (Hl : forall a h h' pt, hosts (world s) !! a = Some h -> W' = mkWorld (<[a := h']> (hosts (world s))) (sent (world s)) ->
    alone h' -> points s !! a = Some pt -> phase a pt (prog h' main_thread) (got h') (printed_by s a)
      (mail_to (far a) 0 (sent (world s))) (mail_to (far a) 1 (sent (world s))) -> test_inv (mkState W' (points s) (printed s))).
  { intros a h h' pt E -> HA Ept HP. eapply (local_inv s a h h'); try done. by exists pt. }
  assert (HR : forall a h', hosts W' !! a = Some h' -> forall b, 0 <= b <= 1 -> received h' b `prefix_of` mail_to a b (sent W'))
    by (intros; by apply received_mail).
  inversion HS as [W a h t rand h' E Hc ES|W a h t rand h' m packet hd E Hc ES Ed|W a h t rand h' m packet E Hc ES
    |W a h i d y E Hc ET|W a h i d E Hc HB ET|W a h t pktH mailH dat p E Ht Ep H1 H2 H3 H4 Hb ES|W a h t box dest p E Ht Ep Hd ES];
    subst W W'; pose proof (i_alone _ I _ _ E) as HA; destruct (i_phase _ I _ _ E) as (pt & Ept & HP).
  - destruct (thread_effect _ _ _ _ _ _ _ _ _ _ _ I E (HR a h' (lookup_insert_eq _ _ _)) ES HP) as (HA' & HP' & _).
    exact (Hl a h h' pt E eq_refl HA' Ept HP').
  - assert (HW1 : world_ok machine_name (mkWorld (<[a := h']> (hosts (world s))) (sent (world s)))).
    { refine (wstep_ok big newchars works inDev outDev nBoxes devices_differ newchars_length machine_name _ _ (i_world _ I) _).
      by eapply w_drop. }
    destruct (thread_effect _ _ _ _ _ _ _ _ _ _ _ I E
      (fun b => received_mail _ a h' b HW1 (lookup_insert_eq _ _ _)) ES HP) as (HA' & _ & HM).
    apply (send_inv s a h h' pt m packet hd); try done.
    destruct (HM m packet eq_refl) as [[-> H]|[-> H]]; [left|right]; by split.
  - destruct (thread_effect _ _ _ _ _ _ _ _ _ _ _ I E (HR a h' (lookup_insert_eq _ _ _)) ES HP) as (HA' & HP' & _).
    exact (Hl a h h' pt E eq_refl HA' Ept HP').
  - by eapply (Hl a h (mkHost i d (threads h) (got h))).
  - by eapply (Hl a h (mkHost i d (threads h) (got h))).
  - exfalso. pose proof (HN a h (set_prog h t p) t E) as Hp. cbn in Hp. rewrite lookup_insert_eq, host_prog_set, decide_True in Hp by done.
    rewrite (Hp eq_refl Ep) in ES. by eapply Send_not_nil.
  - exfalso. pose proof (HN a h (set_prog h t p) t E) as Hp. cbn in Hp. rewrite lookup_insert_eq, host_prog_set, decide_True in Hp by done.
    rewrite (Hp eq_refl Ep) in ES. by eapply Receive_not_nil.
Qed.

(** The main thread of a machine goes on. *)
Lemma host_facts W a h : world_ok machine_name W -> hosts W !! a = Some h ->
  hostName (post h) = a /\ numBoxes (input (post h)) = nBoxes.
Proof.
  intros HW E. destruct (proj2 HW a h E) as [_ (k & w & hand & ms & HH)].
  split; [apply (h_name _ _ _ _ _ _ _ _ _ _ _ _ HH)|apply (h_num _ _ _ _ _ _ _ _ _ _ _ _ HH)].
Qed.

Lemma allowed_step W a h p : world_ok machine_name W -> hosts W !! a = Some h -> machine_name a ->
  prog h main_thread = [] -> allowed a h p ->
  wstep W (mkWorld (<[a := set_prog h main_thread p]> (hosts W)) (sent W)).
Proof.
  intros HW E Ha Ep [(pk & mh & dat & H1 & H2 & H3 & H4 & H5 & ES)|(b & dest & H1 & ES)].
  - destruct (host_facts W a h HW E) as [En _]. eapply (w_call_send _ _ _ _ _ W a h main_thread pk mh dat); try done.
    + rewrite H1. unfold is_i32, int_min, int_max, far. destruct Ha; lia.
    + intros hd Ehd. by rewrite (proj2 (host_facts W _ hd HW Ehd)).
    + by rewrite En.
  - by eapply w_call_receive.
Qed.

Lemma main_inv s a h pt p pt' out :
  test_inv s -> hosts (world s) !! a = Some h -> points s !! a = Some pt -> prog h main_thread = [] -> pt <> Returned ->
  NetworkTest pt h = Ok (p, pt', out) ->
  test_inv (mkState (mkWorld (<[a := call h p]> (hosts (world s))) (sent (world s)))
    (<[a := pt']> (points s)) (<[a := printed_by s a ++ out]> (printed s))).
Proof.
  intros I E Ept Ep Hr EN. destruct (i_phase _ I _ _ E) as (pt1 & E1 & HP). rewrite Ept in E1. injection E1 as <-.
  pose proof (host_name _ _ _ I E) as Ha. destruct (host_facts _ _ _ (i_world _ I) E) as [Hn HB]. rewrite Ep in HP.
  destruct (NetworkTest_ok a pt h _ _ _ _ Ha Hn HB eq_refl HP Hr) as (p1 & pt1 & out1 & EN1 & HP' & Hc).
  rewrite EN in EN1. injection EN1 as <- <- <-.
  assert (HW : world_ok machine_name (mkWorld (<[a := call h p]> (hosts (world s))) (sent (world s)))).
  { destruct p as [p|]; cbn [call].
    - refine (wstep_ok big newchars works inDev outDev nBoxes devices_differ newchars_length machine_name _ _ (i_world _ I) _).
      by apply allowed_step; try apply I.
    - rewrite insert_id by done. pose proof (i_world _ I) as HW. by destruct (world s). }
  assert (HC : prog (call h p) main_thread = default [] p /\ got (call h p) = got h /\
    forall t, t <> main_thread -> prog (call h p) t = prog h t).
  { destruct p as [p|]; cbn [call default]; [|done]. split_and!; [by rewrite host_prog_set, decide_True|done|].
    intros t Ht. by rewrite host_prog_set, decide_False. }
  destruct HC as (C1 & C2 & C3). eapply (local_inv s a h (call h p)); try done.
  - intros t H1 H2. rewrite C3 by done. by apply (i_alone _ I _ _ E).
  - intros b Hb. by rewrite !lookup_insert_ne.
  - exists pt'. unfold printed_by. cbn [points printed world sent]. rewrite !lookup_insert_eq, C1, C2. split; [done|exact HP'].
Qed.

Lemma nstep_inv s s' : test_inv s -> nstep s s' -> test_inv s'.
Proof. intros I S. destruct S; [by apply network_inv|by eapply main_inv]. Qed.

Lemma nsteps_inv s s' : rtc nstep s s' -> test_inv s -> test_inv s'.
Proof. induction 1; eauto using nstep_inv. Qed.

Lemma start_inv s : test_started newchars inDev nBoxes s -> test_inv s.
Proof.
  intros (h0 & h1 & E0 & E1 & ->).
  assert (HH : forall a h, hosts (mkWorld {[0 := h0; 1 := h1]} []) !! a = Some h ->
    machine_name a /\ newHost newchars inDev a nBoxes = Ok h).
  { intros a h. cbn [hosts]. rewrite lookup_insert_Some, lookup_singleton_Some. unfold machine_name. naive_solver. }
  assert (HD : forall a, machine_name a -> is_Some (hosts (mkWorld {[0 := h0; 1 := h1]} []) !! a)).
  { intros a [-> | ->]; by eexists. }
  assert (HN : forall a h, newHost newchars inDev a nBoxes = Ok h -> got h = [] /\ threads h = {[worker := [DWait (newchars MaxPacketSize)]]}).
  { intros a h. unfold newHost. intros H. apply bind_Ok in H as ([i p] & _ & H). by injection H as <-. }
  split; cbn [world].
  - split; [intros a; split; [apply HD|intros [h Eh]; by eapply HH]|].
    intros a h Eh. destruct (HH a h Eh) as [Ha Eh']. assert (Hi : is_i32 a) by (unfold is_i32, int_min, int_max; destruct Ha; lia).
    split; [done|]. cbn [sent]. apply (newHost_ok big newchars inDev outDev nBoxes _ devices_differ); [lia|done..].
  - intros a h Eh t H1 H2. destruct (HH a h Eh) as [_ Eh']. unfold prog. rewrite (proj2 (HN a h Eh')). by rewrite lookup_singleton_ne.
  - intros a h Eh. destruct (HH a h Eh) as [Ha Eh']. destruct (HN a h Eh') as [EG ET]. exists SendMessage.
    split; [by destruct Ha as [-> | ->]|]. rewrite EG. unfold prog. rewrite ET. apply ph_start.
Qed.

(** A main thread in [Receive] has received nothing from that box before. *)
Lemma listening a pt h p l s s' b dest : phase a pt p (got h) l s s' -> p = [RGet b dest] ->
  0 <= b <= 1 /\ filter (fun x => x.1 = b) (got h) = [].
Proof.
  intros HP Ep. inversion HP as [|p' (? & ? & [E|E])|p' s0 Hp|s0 Hs Ex E Eg|m s0|m s0 p' Hm Hs (? & ? & [E|E])|m s0 s1 p' Hm Hs Hs' Hp|
    m s0 s1 Hm Hs Hs' Ex E Eg|m m' s0 s1|m m' s0 s1]; subst p; try done; try (destruct Hp as [Hp|[Hp|Hp]]; by rewrite Hp in *).
  - injection E as <- _. split; [lia|done].
  - injection E as <- _. split; [lia|done].
Qed.

(** It is blocked only when the box is empty. *)
Lemma get_blocked h b dest rand : prog h main_thread = [RGet b dest] ->
  thread_step big newchars works outDev main_thread rand h = Ok None -> in_box h b = [].
Proof.
  intros Ep E. unfold thread_step in E. rewrite Ep in E. unfold step_get in E.
  apply bind_Ok in E as (bx & EA & E). apply bind_Ok in E as (r & EG & E). destruct r as [[[[pk mh] d] bx']|].
  { apply bind_Ok in E as (bs & _ & E). by apply bind_Ok in E as (u & _ & E). }
  destruct bx as [|m bx]; [|by do 2 (apply bind_Ok in EG as (? & _ & EG))].
  apply aget_Ok in EA as [_ EA]. unfold in_box. by rewrite EA.
Qed.

(** C28: Kernel::NetworkTest on the kernel as it is, and with post offices.
    [Kernel::Initialize] has the construction of the post offices commented out: on
    machine 0 or 1 the test then uses a pointer that was never set, at its first call
    of [Send], and on any other machine it returns at once.  With the constructors of
    the post office on two machines, whatever the network loses and however threads
    and interrupts interleave, each prints the other's greeting and then its
    acknowledgement, in that order and nothing else, all of it when it has returned;
    no step of a thread fails, and the main thread can always go on when its call
    returns.  It waits for a message on a machine with nothing under way only when
    that message was never sent or was lost. *)
Theorem network_test_exchanges :
  (forall name, NetworkTest_call big newchars junk buffer name Initialize_offices =
     if bool_decide (name = 0 \/ name = 1) then Undef else Ok (None, Returned, [])) /\
  (forall s0 s a h, test_started newchars inDev nBoxes s0 -> rtc nstep s0 s -> hosts (world s) !! a = Some h ->
    printed_by s a `prefix_of` lines a /\
    (points s !! a = Some Returned -> printed_by s a = lines a) /\
    (forall t rand, exists r, thread_step big newchars works outDev t rand h = Ok r) /\
    (prog h main_thread = [] -> exists pt r, points s !! a = Some pt /\ NetworkTest pt h = Ok r) /\
    (forall rand b dest, prog h main_thread = [RGet b dest] -> thread_step big newchars works outDev main_thread rand h = Ok None ->
       settled h -> mail_to a b (sent (world s)) = [])).
Proof.
  split.
  { intros name. unfold NetworkTest_call, Initialize_offices. rewrite bool_decide_or. by destruct (_ || _). }
  intros s0 s a h HS HR E. pose proof (nsteps_inv _ _ HR (start_inv _ HS)) as I.
  pose proof (host_name _ _ _ I E) as Ha. destruct (proj2 (i_world _ I) a h E) as [_ HH].
  destruct (i_phase _ I a h E) as (pt & Ept & HP). split_and!.
  - inversion HP; subst; by (apply prefix_nil || by eexists).
  - rewrite Ept. intros [= ->]. by inversion HP.
  - intros t rand. destruct (any_step big newchars works inDev outDev nBoxes _ devices_differ newchars_length a _ h t rand HH)
      as [-> |(h' & out & -> & _)]; by eexists.
  - intros Ep. exists pt. destruct (decide (pt = Returned)) as [-> |Hr]; [by eexists|]. rewrite Ep in HP.
    destruct (host_facts _ _ _ (i_world _ I) E) as [Hn HB].
    destruct (NetworkTest_ok a pt h _ _ _ _ Ha Hn HB eq_refl HP Hr) as (p & pt' & out & -> & _). by eexists.
  - intros rand b dest Ep EB Hst. destruct (listening _ _ _ _ _ _ _ _ _ HP Ep) as [Hb Hg].
    destruct (settled_mail big inDev outDev nBoxes _ _ _ _ b HH) as (r & Er & Hr); [lia|].
    unfold mail_to. rewrite <- Er, (Hr Hst), (get_blocked h b dest rand Ep EB). unfold received. by rewrite Hg.
Qed.

End test.

(** ** A run of the test

    Each machine in turn calls, lets its threads take a step and a tick pass, where
    it can, until both have returned. *)

Inductive turn : Type := TMain (a : Z) | TNet (c : act).

Definition host_calls_nothing (W' : World) (a : Z) (h : Host) : bool :=
  match hosts W' !! a with
  | Some h' => bool_decide (map_Forall (fun t p => prog h t = [] -> p = []) (threads h'))
  | None => true
  end.
Definition calls_nothing (W W' : World) : bool :=
  bool_decide (map_Forall (fun a h => host_calls_nothing W' a h = true) (hosts W)).

Definition demo_buffer : list Z := replicate 40 170.

Definition take_turn (c : turn) (s : State) : option State :=
  match c with
  | TMain a =>
      h ← hosts (world s) !! a; pt ← points s !! a;
      if decide (prog h main_thread = [] /\ pt <> Returned) then
        match NetworkTest false demo_chars 0 demo_buffer pt h with
        | Ok (p, pt', out) => Some (mkState (mkWorld (<[a := call h p]> (hosts (world s))) (sent (world s)))
            (<[a := pt']> (points s)) (<[a := printed_by s a ++ out]> (printed s)))
        | _ => None
        end
      else None
  | TNet c =>
      W' ← exec1 false demo_chars demo_works 100 200 c (world s);
      if calls_nothing (world s) W' then Some (mkState W' (points s) (printed s)) else None
  end.

#[local] Abbreviation demo_nstep := (nstep false demo_chars demo_works 100 200 0 demo_buffer).

Lemma calls_nothing_ok W W' : calls_nothing W W' = true -> no_call W W'.
Proof.
  unfold calls_nothing. rewrite bool_decide_eq_true. intros H a h h' t E E' Ep. specialize (H a h E). cbn in H.
  unfold host_calls_nothing in H. rewrite E', bool_decide_eq_true in H. unfold prog at 1. destruct (threads h' !! t) as [p|] eqn:Et; [|done]. by apply (H t p).
Qed.

Lemma take_turn_ok c s s' : take_turn c s = Some s' -> demo_nstep s s'.
Proof.
  destruct c as [a|c]; cbn [take_turn]; intros E; apply bind_Some in E as (h & Eh & E).
  - apply bind_Some in E as (pt & Ept & E). case_decide as Hd; [|done]. destruct Hd as [H1 H2].
    destruct (NetworkTest _ _ _ _ _ _) as [[[p pt'] out]| | |] eqn:EN; try done. injection E as <-. by eapply n_main.
  - destruct (calls_nothing (world s) h) eqn:EC; [|done]. injection E as <-.
    apply n_network; [by eapply exec1_sound|by apply calls_nothing_ok].
Qed.

Definition turns (cs : list turn) (s : State) : State := foldl (fun s c => default s (take_turn c s)) s cs.

Lemma turns_reach cs s : rtc demo_nstep s (turns cs s).
Proof.
  revert s. induction cs as [|c cs IH]; intros s; [done|]. cbn [turns foldl]. fold (turns cs).
  destruct (take_turn c s) as [s'|] eqn:E; cbn [default]; [|apply IH].
  eapply rtc_l; [by eapply take_turn_ok|apply IH].
Qed.

Definition both_hosts : State :=
  mkState (mkWorld {[0 := match newHost demo_chars 100 0 10 with Ok h => h | _ => no_host end;
                     1 := match newHost demo_chars 100 1 10 with Ok h => h | _ => no_host end]} [])
    {[0 := SendMessage; 1 := SendMessage]} ∅.

Definition round : list turn :=
  a ← [0; 1]; [TMain a; TNet (AThread a 1 0); TNet (AThread a 0 0); TNet (ATick a)].
Definition demo_end : State := turns (concat (replicate 80 round)) both_hosts.

Lemma both_started : test_started demo_chars 100 10 both_hosts.
Proof. eexists _, _. split; [vm_compute; reflexivity|]. split; [vm_compute; reflexivity|]. vm_compute. reflexivity. Qed.

(** Both return; what machine 0 has printed follows. *)
Lemma network_test_exchanges_witness : printed_by demo_end 0 = [(hello_text, 1, 1); (ack_text, 1, 1)].
Proof.
  assert (EH : is_Some (hosts (world demo_end) !! 0)) by (apply (bool_decide_unpack _); vm_compute; exact I).
  destruct EH as [h Eh].
  destruct (network_test_exchanges false demo_chars demo_works 100 200 10 ltac:(done) ltac:(by split)
    (fun n _ => length_replicate _ _) 0 demo_buffer eq_refl) as [_ K].
  destruct (K both_hosts demo_end 0 h both_started (turns_reach _ _) Eh) as (_ & H & _).
  apply H. vm_compute. reflexivity.
Defined.
