(* ===== verification/UserProg.v ===== *)
(** * userprog/addrspace.cc, and the user half of threads/thread.cc and scheduler.cc

    Starting a program (the header of its executable, its address space, its
    registers), the user state that [Scheduler::Run] saves and restores around a
    context switch, and the suspension of a thread to a file.

    [UserSys] is the kernel of the scheduler's model together with the machine and
    the user state of the threads.  The files the kernel creates for itself,
    ["vm%d"] and ["thread%d"], are kept by the number in their name; the first
    belongs to the file view of the machine while its thread runs. *)

From S2P Require Import Prelude Bytes Bitmap Lists Sched Machine Mips.

(** ** Executables (userprog/noff.h) *)

Record Segment : Type := mkSegment { virtualAddr : Z; inFileAddr : Z; size : Z }.
(** The build defines [RDATA]. *)
Record NoffHeader : Type := mkNoff {
  noffMagic : Z; code : Segment; initData : Segment; readonlyData : Segment;
  uninitData : Segment }.

Definition NOFFMAGIC : Z := 0xbadfad.
Definition UserStackSize : Z := 1024.
Definition sizeof_NoffHeader : nat := 52.

(** The [i]-th [int] of a structure in the memory of the host. *)
Definition int_at (big : bool) (bs : list Z) (i : nat) : Z := host_int big (take 4 (drop (4 * i) bs)).
Definition segment_at (big : bool) (bs : list Z) (i : nat) : Segment :=
  mkSegment (int_at big bs i) (int_at big bs (i + 1)) (int_at big bs (i + 2)).
Definition noff_of_bytes (big : bool) (bs : list Z) : NoffHeader :=
  mkNoff (int_at big bs 0) (segment_at big bs 1) (segment_at big bs 4) (segment_at big bs 7)
    (segment_at big bs 10).

(** ** The state *)

(** [space_pt] is NULL in the build with the inverted page table. *)
Record AddrSpace : Type := mkSpace {
  space_pt : option (list TranslationEntry); numPages : Z;
  currentOpenedFile : list Z; currentNoffHeader : NoffHeader }.

(** [machinePT]: the thread whose table the machine's [pt] points at, if it is
    the table of an address space; [spaces]: the [space] of the threads that have
    one.  The machine's [currentNoffHeader] is [machineHeader]. *)
Record UserSys : Type := mkUser {
  kernel : Kernel; machine : Machine; machineHeader : NoffHeader; machinePT : option tptr;
  userRegisters : gmap tptr (list Z); spaces : gmap tptr AddrSpace;
  vmFiles : gmap Z (list Z); threadFiles : gmap Z (list Z) }.

Definition set_kernel (u : UserSys) (k : Kernel) : UserSys :=
  mkUser k (machine u) (machineHeader u) (machinePT u) (userRegisters u) (spaces u) (vmFiles u)
    (threadFiles u).
Definition set_machine (u : UserSys) (m : Machine) : UserSys :=
  mkUser (kernel u) m (machineHeader u) (machinePT u) (userRegisters u) (spaces u) (vmFiles u)
    (threadFiles u).
Definition set_space (u : UserSys) (t : tptr) (s : AddrSpace) : UserSys :=
  mkUser (kernel u) (machine u) (machineHeader u) (machinePT u) (userRegisters u)
    (<[t := s]> (spaces u)) (vmFiles u) (threadFiles u).
Definition set_threadFiles (u : UserSys) (f : gmap Z (list Z)) : UserSys :=
  mkUser (kernel u) (machine u) (machineHeader u) (machinePT u) (userRegisters u) (spaces u)
    (vmFiles u) f.

Definition with_program (m : Machine) (exec : list Z) (codeAddr : Z) : Machine :=
  mkMachine (registers m) (mainMemory m) (tlb m) (pt m) (pageTableSize m) (mmBitmap m)
    (currentTID m) exec codeAddr (vmFile m) (numAddressTranslation m) (numPageFaults m)
    (numTLBMiss m) (Machine.status m).
Definition with_table (m : Machine) (t : option (list TranslationEntry)) (n : Z) : Machine :=
  mkMachine (registers m) (mainMemory m) (tlb m) t n (mmBitmap m)
    (currentTID m) (executable m) (codeInFileAddr m) (vmFile m) (numAddressTranslation m)
    (numPageFaults m) (numTLBMiss m) (Machine.status m).
Definition with_thread (m : Machine) (tid : Z) (f : option (list Z)) : Machine :=
  mkMachine (registers m) (mainMemory m) (tlb m) (pt m) (pageTableSize m) (mmBitmap m)
    tid (executable m) (codeInFileAddr m) f (numAddressTranslation m) (numPageFaults m)
    (numTLBMiss m) (Machine.status m).

(** [t->space->getPT()], to write: the machine may point at the same array. *)
Definition set_table (u : UserSys) (t : tptr) (s : AddrSpace) (x : option (list TranslationEntry))
    : UserSys :=
  let u := set_space u t (mkSpace x (numPages s) (currentOpenedFile s) (currentNoffHeader s)) in
  if bool_decide (machinePT u = Some t) then set_machine u (with_pt (machine u) x) else u.

Definition tid_of (k : Kernel) (t : tptr) : res Z :=
  th ← get_thread (threads k) t; Ok (threadID th).

Section user.
Context (cfg : Config) (typeno : Z).

(** ** Address spaces *)

Definition swap_int (x : Z) : Z := i32 (WordToHost cfg (u32 x)).
Definition swap_segment (s : Segment) : Segment :=
  mkSegment (swap_int (virtualAddr s)) (swap_int (inFileAddr s)) (swap_int (size s)).
Definition SwapHeader (h : NoffHeader) : NoffHeader :=
  mkNoff (swap_int (noffMagic h)) (swap_segment (code h)) (swap_segment (initData h))
    (swap_segment (readonlyData h)) (swap_segment (uninitData h)).

(** Reading the header into a local variable, whose bytes are [junk] at first. *)
Definition read_header (executable : list Z) (junk : list Z) : res NoffHeader :=
  bs ← unix_ReadAt executable sizeof_NoffHeader 0;
  let noffH := noff_of_bytes (HOST_IS_BIG_ENDIAN cfg) (splice junk 0 bs) in
  let noffH :=
    if bool_decide (noffMagic noffH <> NOFFMAGIC) &&
       bool_decide (WordToHost cfg (u32 (noffMagic noffH)) = NOFFMAGIC)
    then SwapHeader noffH else noffH in
  _ ← ASSERT (bool_decide (noffMagic noffH = NOFFMAGIC));
  Ok noffH.

Definition program_size (h : NoffHeader) : Z :=
  i32 (size (code h) + size (readonlyData h) + size (initData h) + size (uninitData h) + UserStackSize).

(** The constructor, in the running thread; [executable] is what [Open] finds.
    [None]: the constructor returns before it sets any field. *)
Definition newAddrSpace (m : Machine) (executable : option (list Z)) (junk : list Z)
    : res (option AddrSpace * Machine) :=
  match executable with
  | None => Ok (None, m)
  | Some executable =>
      noffH ← read_header executable junk;
      let numPages := divRoundUp (program_size noffH) PageSize in
      if USE_RPT cfg then Ok (Some (mkSpace None numPages executable noffH), m)
      else
        let m := with_vmFile m (Some []) in
        if bool_decide (numPages < 0) then Undef
        else
          let pt := replicate (Z.to_nat numPages) reset_entry in
          Ok (Some (mkSpace (Some pt) numPages executable noffH), m)
  end.

(** The pieces [Load] copies into the memory. *)
Definition load_segment (executable : list Z) (mem : list Z) (s : Segment) : res (list Z) :=
  if bool_decide (size s > 0) then
    data ← unix_ReadAt executable (Z.to_nat (size s)) (inFileAddr s);
    mem_write mem (virtualAddr s) data
  else Ok mem.

(** [Load] of the address space [s]; [None] for FALSE. *)
Definition Load (s : AddrSpace) (m : Machine) (executable : option (list Z)) (junk : list Z)
    : res (option (AddrSpace * Machine)) :=
  match executable with
  | None => Ok None
  | Some executable =>
      noffH ← read_header executable junk;
      let numPages := i32 (divRoundUp (u32 (program_size noffH)) PageSize) in
      mem ← foldM (load_segment executable) (mainMemory m) [code noffH; initData noffH; readonlyData noffH];
      Ok (Some (mkSpace (space_pt s) numPages (currentOpenedFile s) (currentNoffHeader s),
                with_memory m mem))
  end.

Definition InitRegisters (s : AddrSpace) (m : Machine) : res Machine :=
  m ← for_loop (Z.to_nat NumTotalRegs) 0 (fun i m => WriteRegister m i 0) m;
  m ← WriteRegister m PCReg 0;
  m ← WriteRegister m NextPCReg 4;
  WriteRegister m StackReg (i32 (numPages s * PageSize - 16)).

(** [SaveState] of the address space [s] of thread [t]. *)
Definition SaveState (u : UserSys) (t : tptr) (s : AddrSpace) : UserSys :=
  let m := machine u in
  set_space u t (mkSpace (if USE_RPT cfg then space_pt s else pt m)
                   (if USE_RPT cfg then numPages s else pageTableSize m)
                   (executable m) (machineHeader u)).

Definition RestoreState (u : UserSys) (t : tptr) (s : AddrSpace) : UserSys :=
  let m := machine u in
  let m := if USE_RPT cfg then m else with_table m (space_pt s) (numPages s) in
  mkUser (kernel u) (with_program m (currentOpenedFile s) (inFileAddr (code (currentNoffHeader s))))
    (currentNoffHeader s) (if USE_RPT cfg then machinePT u else Some t)
    (userRegisters u) (spaces u) (vmFiles u) (threadFiles u).

(** [Execute], up to the loop of [Machine::Run]. *)
Definition Execute (u : UserSys) (s : AddrSpace) : res UserSys :=
  let t := currentThread (kernel u) in
  let u := set_space u t s in
  m ← InitRegisters s (machine u);
  let u := RestoreState (set_machine u m) t s in
  Ok (set_machine u (with_status (machine u) UserMode)).

(** [SimpleUserThread] of threads/main.cc. *)
Definition SimpleUserThread (u : UserSys) (executable : option (list Z)) (junk : list Z)
    : res UserSys :=
  '(s, m) ← newAddrSpace (machine u) executable junk;
  match s with
  | Some s => Execute (set_machine u m) s
  | None => Undef
  end.

(** [AddrSpace::Translate]: the table after it, and the address. *)
Definition AddrSpace_Translate (s : AddrSpace) (vaddr : Z) (isReadWrite : bool)
    : res (ExceptionType * list TranslationEntry * Z) :=
  t ← arr (space_pt s);
  let vpn := vaddr / PageSize in
  let offset := vaddr mod PageSize in
  if bool_decide (vpn >= u32 (numPages s)) then Ok (AddressErrorException, t, 0)
  else
    pte ← aget t vpn;
    if isReadWrite && readOnly pte then Ok (ReadOnlyException, t, 0)
    else
      let pfn := ppn pte in
      if bool_decide (pfn >= NumPhysPages) then Ok (BusErrorException, t, 0)
      else
        t ← aset t vpn (mkEntry (Machine.vpn pte) (tID pte) (ppn pte) (valid pte) (readOnly pte) true
                          (if isReadWrite then true else dirty pte) (FIFOFlag pte) (LRUFlag pte));
        let paddr := u32 (pfn * PageSize + offset) in
        _ ← ASSERT (bool_decide (paddr < MemorySize));
        Ok (NoException, t, paddr).

(** ** Context switches *)

(** An array that nobody has written yet holds anything; zeros stand for it. *)
Definition SaveUserState (u : UserSys) (t : tptr) : res UserSys :=
  regs ← for_loop (Z.to_nat NumTotalRegs) 0 (fun i regs =>
           v ← ReadRegister (machine u) i; aset regs i v)
           (default (replicate (Z.to_nat NumTotalRegs) 0) (userRegisters u !! t));
  Ok (mkUser (kernel u) (machine u) (machineHeader u) (machinePT u)
        (<[t := regs]> (userRegisters u)) (spaces u) (vmFiles u) (threadFiles u)).

Definition RestoreUserState (u : UserSys) (t : tptr) : res UserSys :=
  let regs := default (replicate (Z.to_nat NumTotalRegs) 0) (userRegisters u !! t) in
  m ← for_loop (Z.to_nat NumTotalRegs) 0 (fun i m => v ← aget regs i; WriteRegister m i v)
        (machine u);
  Ok (set_machine u m).

(** The thread that [CheckToBeDestroyed] deletes after the switch. *)
Definition destroyed (k : Kernel) (finishing : bool) : option tptr :=
  if finishing then Some (currentThread k) else toBeDestroyed k.

(** [~Thread] deletes the address space, and [~AddrSpace] the page table. *)
Definition drop_space (u : UserSys) (d : option tptr) : UserSys :=
  match d with
  | None => u
  | Some t =>
      let gone := bool_decide (machinePT u = Some t) in
      mkUser (kernel u) (if gone then with_pt (machine u) None else machine u) (machineHeader u)
        (if gone then None else machinePT u)
        (delete t (userRegisters u)) (delete t (spaces u)) (vmFiles u) (threadFiles u)
  end.

Definition flush_tlb (m : Machine) : Machine :=
  if USE_TLB cfg then
    with_tlb m (match tlb m with Some l => Some (map (fun _ => reset_entry) l) | None => None end)
  else m.

(** What depends on [kernel->currentThread]: its number and its VM file. *)
Definition enter_thread (m : Machine) (vms : gmap Z (list Z)) (tid : Z)
    : Machine * gmap Z (list Z) :=
  let vms := partial_alter (fun _ => vmFile m) (currentTID m) vms in
  (with_thread m tid (vms !! tid), vms).

(** [Scheduler::Run].  The two halves of the routine, the scheduler's and the
    one for user programs, share no state. *)
Definition user_Run (u : UserSys) (nextThread : tptr) (finishing : bool) : res UserSys :=
  let oldThread := currentThread (kernel u) in
  let dead := destroyed (kernel u) finishing in
  let u := set_machine u (flush_tlb (machine u)) in
  u ← match spaces u !! oldThread with
      | Some s => u ← SaveUserState u oldThread; Ok (SaveState u oldThread s)
      | None => Ok u
      end;
  k ← Run (kernel u) nextThread finishing;
  let u := drop_space (set_kernel u k) dead in
  tid ← tid_of k nextThread;
  let '(m, vms) := enter_thread (machine u) (vmFiles u) tid in
  let u := mkUser k m (machineHeader u) (machinePT u) (userRegisters u) (spaces u) vms (threadFiles u) in
  match spaces u !! nextThread with
  | Some s => u ← RestoreUserState u nextThread; Ok (RestoreState u nextThread s)
  | None => Ok u
  end.

End user.

(** ** The routines of thread.cc that switch, over any such [Run] *)

Class Switching (S : Type) : Type := {
  sw_kernel : S -> Kernel;
  sw_set : S -> Kernel -> S;
  sw_Run : S -> tptr -> bool -> res S }.

Section switching.
Context {S : Type} {SW : Switching S} (typeno : Z).

Definition switch_Yield (s : S) : res S :=
  '(next, k) ← FindNextToRun typeno (sw_kernel s);
  match next with
  | None => Ok (sw_set s k)
  | Some n => k ← ReadyToRun typeno k (currentThread k); sw_Run (sw_set s k) n false
  end.

(** The two parts of [Fork]: before the interrupt level is restored, and after. *)
Definition switch_Fork_ready (s : S) (t : tptr) : res S :=
  k ← Fork_ready typeno (sw_kernel s) t; Ok (sw_set s k).

Definition switch_Fork_check (s : S) : res S :=
  let k := sw_kernel s in
  if bool_decide (typeno = 1) then
    front ← getReadyListFront typeno k;
    match front with
    | None => Undef
    | Some f =>
        tf ← get_thread (threads k) f; tc ← get_thread (threads k) (currentThread k);
        if bool_decide (priority tf < priority tc) then switch_Yield s else Ok s
    end
  else Ok s.

(** The loop of [Sleep]: it comes back here after every [Idle]. *)
Definition switch_wake (s : S) (finishing : bool) : res S :=
  '(next, k) ← FindNextToRun typeno (sw_kernel s);
  match next with
  | None => Ok (sw_set s k)
  | Some n => sw_Run (sw_set s k) n finishing
  end.

Definition switch_Sleep (s : S) (finishing : bool) : res S :=
  _ ← ASSERT (bool_decide (level (sw_kernel s) = IntOff));
  k ← blockAThread (sw_kernel s) (currentThread (sw_kernel s));
  switch_wake (sw_set s k) finishing.

End switching.

#[global] Instance kernel_switching : Switching Kernel := {|
  sw_kernel := fun k => k; sw_set := fun _ k => k; sw_Run := Run |}.

#[global] Instance user_switching (cfg : Config) : Switching UserSys := {|
  sw_kernel := kernel; sw_set := set_kernel; sw_Run := user_Run cfg |}.
