(* ===== verification/UserProgProofs.v ===== *)
(** * Context switches are invisible to user programs

    [VSys] is a kernel on which every user program has registers, a page table
    and an executable of its own, which nothing but its own instructions touches.
    [UserSys], with the one machine whose state [Run] saves and restores,
    refines it; both run the same events. *)

From S2P Require Import Prelude Words Bytes Bitmap Lists Sched SchedProofs Machine MachineProofs Mips MipsProofs UserProg.

(** ** The virtual processors *)

Record Vcpu : Type := mkVcpu {
  c_registers : list Z; c_pt : option (list TranslationEntry); c_size : Z; c_exec : list Z;
  c_header : NoffHeader }.

(** The memory, the frame bitmap, the TLB, the counters and, in the build that
    has it, the inverted page table are shared; of [v_machine] only these count. *)
Record VSys : Type := mkV {
  v_kernel : Kernel; v_machine : Machine; v_vmFiles : gmap Z (list Z); v_cpus : gmap tptr Vcpu }.

Section spec.
Context (cfg : Config).

Definition vcpu_of (m : Machine) (h : NoffHeader) : Vcpu :=
  mkVcpu (registers m) (if USE_RPT cfg then None else pt m)
    (if USE_RPT cfg then 0 else pageTableSize m) (executable m) h.

(** The machine as the program of [c] sees it. *)
Definition vload (c : Vcpu) (m : Machine) : Machine :=
  mkMachine (c_registers c) (mainMemory m) (tlb m) (if USE_RPT cfg then pt m else c_pt c)
    (if USE_RPT cfg then pageTableSize m else c_size c) (mmBitmap m) (currentTID m) (c_exec c)
    (inFileAddr (code (c_header c))) (vmFile m) (numAddressTranslation m) (numPageFaults m)
    (numTLBMiss m) (Machine.status m).

(** Program counter 0, the next one 4, and the stack at the end of the space. *)
Definition initial_registers (pages : Z) : list Z :=
  <[29%nat := i32 (pages * PageSize - 16)]> (<[35%nat := 4]> (replicate 40 0)).

Definition v_Run (s : VSys) (nextThread : tptr) (finishing : bool) : res VSys :=
  k ← Run (v_kernel s) nextThread finishing;
  tid ← tid_of k nextThread;
  let '(m, vms) := enter_thread (flush_tlb cfg (v_machine s)) (v_vmFiles s) tid in
  Ok (mkV k m vms (match destroyed (v_kernel s) finishing with
                   | Some d => delete d (v_cpus s) | None => v_cpus s end)).

Definition v_instruction (s : VSys) : res (VSys * bool) :=
  let t := currentThread (v_kernel s) in
  match v_cpus s !! t with
  | None => Undef
  | Some c =>
      o ← OneInstruction cfg (vload c (v_machine s));
      let m := ctl_machine o in
      Ok (mkV (v_kernel s) m (v_vmFiles s) (<[t := vcpu_of m (c_header c)]> (v_cpus s)),
          match o with Halted _ => true | _ => false end)
  end.

Definition v_start (s : VSys) (executable : option (list Z)) (junk : list Z) : res VSys :=
  '(sp, m) ← newAddrSpace cfg (v_machine s) executable junk;
  match sp with
  | None => Undef
  | Some sp =>
      let c := mkVcpu (initial_registers (numPages sp)) (space_pt sp)
                 (if USE_RPT cfg then 0 else numPages sp) (currentOpenedFile sp)
                 (currentNoffHeader sp) in
      Ok (mkV (v_kernel s) (with_status m UserMode) (v_vmFiles s)
            (<[currentThread (v_kernel s) := c]> (v_cpus s)))
  end.

(** One instruction of the running thread, which must have a user program. *)
Definition u_instruction (u : UserSys) : res (UserSys * bool) :=
  match spaces u !! currentThread (kernel u) with
  | None => Undef
  | Some _ =>
      o ← OneInstruction cfg (machine u);
      Ok (set_machine u (ctl_machine o), match o with Halted _ => true | _ => false end)
  end.

End spec.

(** ** Runs *)

Class Users (S : Type) : Type := {
  us_switching :: Switching S;
  us_instruction : S -> res (S * bool);
  us_start : S -> option (list Z) -> list Z -> res S }.

#[global] Instance user_users (cfg : Config) : Users UserSys := {|
  us_switching := user_switching cfg; us_instruction := u_instruction cfg;
  us_start := SimpleUserThread cfg |}.

#[global] Instance spec_users (cfg : Config) : Users VSys := {|
  us_switching := {| sw_kernel := v_kernel;
                     sw_set := fun s k => mkV k (v_machine s) (v_vmFiles s) (v_cpus s);
                     sw_Run := v_Run cfg |};
  us_instruction := v_instruction cfg; us_start := v_start cfg |}.

(** What happens, in the running thread or in an interrupt handler. *)
Inductive event : Type :=
| EvInstruction
| EvStart (executable : option (list Z)) (junk : list Z)
| EvYield
| EvSleep (finishing : bool)
(** [Idle] has returned *)
| EvWake (finishing : bool)
| EvReady (t : tptr)
| EvFork (t : tptr)
(** the end of a [Fork], when its caller goes on *)
| EvForkCheck
| EvNew (t : tptr) (p r : Z)
| EvLevel (l : IntStatus).

Section runs.
Context {S : Type} {US : Users S} (typeno : Z).

(** The flag tells that the machine has halted. *)
Definition user_step (e : event) (s : S) : res (S * bool) :=
  let kernel_op f := k ← f (sw_kernel s); Ok (sw_set s k, false) in
  match e with
  | EvInstruction => us_instruction s
  | EvStart x junk => s ← us_start s x junk; Ok (s, false)
  | EvYield => s ← switch_Yield typeno s; Ok (s, false)
  | EvSleep b => s ← switch_Sleep typeno s b; Ok (s, false)
  | EvWake b => s ← switch_wake typeno s b; Ok (s, false)
  | EvReady t => kernel_op (fun k => ReadyToRun typeno k t)
  | EvFork t => s ← switch_Fork_ready typeno s t; Ok (s, false)
  | EvForkCheck => s ← switch_Fork_check typeno s; Ok (s, false)
  | EvNew t p r => kernel_op (fun k => newThread typeno k t p r)
  | EvLevel l => kernel_op (fun k => Ok (with_level k l))
  end.

Fixpoint user_run (es : list event) (s : S) : res (S * bool) :=
  match es with
  | [] => Ok (s, false)
  | e :: es' => r ← user_step e s; if snd r : bool then Ok r else user_run es' (fst r)
  end.

End runs.

(** ** The refinement relation *)

Section refine.
Context (cfg : Config) (typeno : Z).

Definition saved_cpu (u : UserSys) (t : tptr) : option Vcpu :=
  s ← spaces u !! t;
  Some (mkVcpu (default [] (userRegisters u !! t)) (if USE_RPT cfg then None else space_pt s)
          (if USE_RPT cfg then 0 else numPages s) (currentOpenedFile s) (currentNoffHeader s)).

Definition cpu_of (u : UserSys) (t : tptr) : option Vcpu :=
  if decide (t = currentThread (kernel u)) then
    s ← spaces u !! t; Some (vcpu_of cfg (machine u) (machineHeader u))
  else saved_cpu u t.

(** The saved state of a thread is one it can go on from. *)
Definition saved_ok (u : UserSys) (t : tptr) : Prop :=
  forall s, spaces u !! t = Some s ->
    (exists regs, userRegisters u !! t = Some regs /\ regs_ok regs /\ zero_ok regs) /\
    Forall is_byte (currentOpenedFile s).

Record user_ok (u : UserSys) : Prop := mkUserOk {
  uo_machine : machine_ok (machine u);
  uo_code : is_Some (spaces u !! currentThread (kernel u)) ->
            codeInFileAddr (machine u) = inFileAddr (code (machineHeader u));
  uo_saved : forall t, t <> currentThread (kernel u) -> saved_ok u t;
  uo_vm : map_Forall (fun _ => Forall is_byte) (vmFiles u);
  uo_regs : map_Forall (fun _ r => length r = 40%nat) (userRegisters u);
  uo_rpt : USE_RPT cfg = true -> machinePT u = None }.

(** The parts of the machine that the programs share. *)
Record pub_eq (m m' : Machine) : Prop := mkPub {
  pub_memory : mainMemory m = mainMemory m';
  pub_tlb : tlb m = tlb m';
  pub_bitmap : mmBitmap m = mmBitmap m';
  pub_thread : currentTID m = currentTID m' /\ vmFile m = vmFile m';
  pub_stats : numAddressTranslation m = numAddressTranslation m' /\
              numPageFaults m = numPageFaults m' /\ numTLBMiss m = numTLBMiss m';
  pub_status : Machine.status m = Machine.status m';
  pub_rpt : USE_RPT cfg = true -> pt m = pt m' /\ pageTableSize m = pageTableSize m' }.

Record urel (u : UserSys) (v : VSys) : Prop := mkUrel {
  ur_kernel : kernel u = v_kernel v;
  ur_vm : vmFiles u = v_vmFiles v;
  ur_pub : pub_eq (machine u) (v_machine v);
  ur_cpus : forall t, cpu_of u t = v_cpus v !! t;
  ur_ok : user_ok u }.

#[local] Instance pub_eq_refl : Reflexive pub_eq.
Proof. by intros m. Qed.
#[local] Instance pub_eq_trans : Transitive pub_eq.
Proof.
  intros a b c [A1 A2 A3 A4 A5 A6 A7] [B1 B2 B3 B4 B5 B6 B7].
  split; [congruence..|intuition congruence|intuition congruence|congruence|].
  intros E. destruct (A7 E), (B7 E). split; congruence.
Qed.

Lemma vload_pub c m m' : pub_eq m m' -> vload cfg c m = vload cfg c m'.
Proof.
  intros [E1 E2 E3 [E4 E5] (E6 & E7 & E8) E9 HR]. unfold vload. rewrite E1, E2, E3, E4, E5, E6, E7, E8, E9.
  destruct (USE_RPT cfg); [by destruct HR as [-> ->]|done].
Qed.

Lemma vload_self m h :
  codeInFileAddr m = inFileAddr (code h) -> vload cfg (vcpu_of cfg m h) m = m.
Proof.
  intros E. destruct m; cbn in *. unfold vload, vcpu_of; cbn. rewrite E. by destruct (USE_RPT cfg).
Qed.

(** ** Saving and restoring the registers *)

Lemma save_registers (m : Machine) (l : list Z) :
  length (registers m) = 40%nat -> length l = 40%nat ->
  for_loop (Z.to_nat NumTotalRegs) 0 (fun i l => v ← ReadRegister m i; aset l i v) l = Ok (registers m).
Proof.
  intros Hm Hl.
  destruct (for_loop_ind (fun i (l : list Z) => length l = 40%nat /\ take (Z.to_nat i) l = take (Z.to_nat i) (registers m)) (Z.to_nat NumTotalRegs) 0
      (fun i l => v ← ReadRegister m i; aset l i v) l) as (l' & E & L & T).
  - done.
  - intros i s Hi [L T]. change (Z.of_nat (Z.to_nat NumTotalRegs)) with 40 in Hi.
    destruct (aget_in_range (registers m) i) as [v Ev]; [rewrite Hm; lia|].
    exists (<[Z.to_nat i := v]> s). unfold ReadRegister, getReg.
    rewrite !bool_decide_true by (unfold NumTotalRegs; lia). cbn [andb ASSERT mbind res_bind].
    rewrite Ev. cbn [mbind res_bind]. rewrite aset_in_range by lia. rewrite length_insert.
    split_and!; [done..|]. apply aget_Ok in Ev as [_ Ev].
    replace (Z.to_nat (i + 1)) with (S (Z.to_nat i)) by lia.
    rewrite (take_S_r _ _ v), (take_S_r _ _ v); [|done|by apply list_lookup_insert_eq; lia].
    by rewrite take_insert_ge, T by lia.
  - rewrite E. change (Z.to_nat (0 + Z.of_nat (Z.to_nat NumTotalRegs))) with 40%nat in T.
    f_equal. by rewrite !firstn_all2 in T by lia.
Qed.

Lemma restore_registers (m : Machine) (l : list Z) :
  length (registers m) = 40%nat -> length l = 40%nat ->
  for_loop (Z.to_nat NumTotalRegs) 0 (fun i m => v ← aget l i; WriteRegister m i v) m
    = Ok (with_registers m l).
Proof.
  intros Hm Hl.
  destruct (for_loop_ind (fun i m' => length (registers m') = 40%nat /\ m' = with_registers m (registers m') /\ take (Z.to_nat i) (registers m') = take (Z.to_nat i) l) (Z.to_nat NumTotalRegs) 0
      (fun i m => v ← aget l i; WriteRegister m i v) m) as (m' & E & L & M & T).
  - by destruct m.
  - intros i s Hi (L & M & T). change (Z.of_nat (Z.to_nat NumTotalRegs)) with 40 in Hi.
    destruct (aget_in_range l i) as [v Ev]; [rewrite Hl; lia|]. rewrite Ev. cbn [mbind res_bind].
    exists (with_registers s (<[Z.to_nat i := v]> (registers s))). unfold WriteRegister, setReg.
    rewrite !bool_decide_true by (unfold NumTotalRegs; lia). cbn [andb ASSERT mbind res_bind].
    rewrite aset_in_range by lia. cbn [mbind res_bind registers with_registers]. rewrite length_insert.
    split_and!; [done..|by rewrite M at 1|]. apply aget_Ok in Ev as [_ Ev].
    replace (Z.to_nat (i + 1)) with (S (Z.to_nat i)) by lia.
    rewrite (take_S_r _ _ v), (take_S_r _ _ v); [|done|by apply list_lookup_insert_eq; lia].
    by rewrite take_insert_ge, T by lia.
  - rewrite E. change (Z.to_nat (0 + Z.of_nat (Z.to_nat NumTotalRegs))) with 40%nat in T.
    rewrite M. do 2 f_equal. by rewrite !firstn_all2 in T by lia.
Qed.

(** The registers as [InitRegisters] leaves them. *)
Lemma InitRegisters_eq (s : AddrSpace) (m : Machine) :
  length (registers m) = 40%nat ->
  InitRegisters s m = Ok (with_registers m (initial_registers (numPages s))).
Proof.
  intros Hm. unfold InitRegisters.
  assert (E : for_loop (Z.to_nat NumTotalRegs) 0 (fun i m => WriteRegister m i 0) m
              = Ok (with_registers m (replicate 40 0))).
  { rewrite <- (restore_registers m (replicate 40 0)) by done. reflexivity. }
  rewrite E. reflexivity.
Qed.

Lemma initial_registers_ok pages :
  regs_ok (initial_registers pages) /\ zero_ok (initial_registers pages).
Proof.
  unfold initial_registers. split; [|done].
  assert (Z4 : is_i32 4 /\ is_i32 0) by (unfold is_i32, int_min, int_max; lia). destruct Z4 as [Z4 Z0].
  apply regs_insert; [|apply i32_range|done]. apply regs_insert; [|done|done].
  split; [done|by apply Forall_replicate|]. exists 0. split; [done|unfold NumGPRegs; lia].
Qed.

(** ** The halves of a context switch *)

Lemma cpu_of_ne u t : t <> currentThread (kernel u) -> cpu_of u t = saved_cpu u t.
Proof. intros H. unfold cpu_of. by rewrite decide_False. Qed.

(** Leaving a thread: every user program is then in its saved form. *)
Lemma leave_spec u :
  user_ok u ->
  let old := currentThread (kernel u) in
  exists u1,
    match spaces u !! old with
    | Some s => u ← SaveUserState u old; Ok (SaveState cfg u old s)
    | None => Ok u
    end = Ok u1 /\
    kernel u1 = kernel u /\ machine u1 = machine u /\ vmFiles u1 = vmFiles u /\
    machinePT u1 = machinePT u /\ map_Forall (fun _ r => length r = 40%nat) (userRegisters u1) /\
    forall t, saved_cpu u1 t = cpu_of u t /\ saved_ok u1 t.
Proof.
  intros [[[E1 R1] Z1] Hc Hs Hv HR HP] old. destruct (spaces u !! old) as [s|] eqn:Es.
  2: { exists u. split_and!; try done. intros t. destruct (decide (t = old)) as [->|Ht].
       - unfold cpu_of, saved_cpu, saved_ok. fold old. rewrite decide_True by done. rewrite Es. naive_solver.
       - by rewrite cpu_of_ne by done; split; [|apply Hs]. }
  unfold SaveUserState. rewrite save_registers.
  2: by apply R1.
  2: { destruct (userRegisters u !! old) as [r|] eqn:Er; [by apply HR in Er|done]. }
  cbn [mbind res_bind]. eexists. split; [reflexivity|]. split_and!; try done.
  { cbn. apply map_Forall_insert_2; [apply R1|done]. }
  intros t. unfold saved_cpu, saved_ok, SaveState. cbn. destruct (decide (t = old)) as [->|Ht].
  - rewrite !lookup_insert_eq. cbn. unfold cpu_of. fold old. rewrite decide_True by done. rewrite Es. cbn.
    split; [unfold vcpu_of; by destruct (USE_RPT cfg)|]. intros s' E. injection E as <-. split; [by eexists|apply E1].
  - rewrite !lookup_insert_ne by done. rewrite cpu_of_ne by done. split; [done|]. by apply Hs.
Qed.

(** Coming back to a thread. *)
Lemma resume_spec u s n :
  currentThread (kernel u) = n -> spaces u !! n = Some s -> saved_ok u n ->
  (USE_RPT cfg = true -> machinePT u = None) -> machine_ok (machine u) ->
  exists u', (u ← RestoreUserState u n; Ok (RestoreState cfg u n s)) = Ok u' /\
    kernel u' = kernel u /\ spaces u' = spaces u /\ userRegisters u' = userRegisters u /\
    vmFiles u' = vmFiles u /\ pub_eq (machine u') (machine u) /\ cpu_of u' n = saved_cpu u n /\
    machine_ok (machine u') /\ codeInFileAddr (machine u') = inFileAddr (code (machineHeader u')) /\
    (USE_RPT cfg = true -> machinePT u' = None).
Proof.
  intros Hn Es Hs HP [[E1 R1] Z1]. destruct (Hs _ Es) as ((r & Er & Hr & Hz) & Hx).
  unfold RestoreUserState. rewrite Er. cbn [default id].
  rewrite restore_registers by (apply R1 || apply Hr). cbn [mbind res_bind].
  eexists. split; [reflexivity|]. unfold RestoreState. cbn. split_and!; try done.
  - by split; destruct (USE_RPT cfg).
  - unfold cpu_of, saved_cpu. cbn. rewrite Hn, decide_True by done. rewrite Es, Er. cbn.
    unfold vcpu_of. cbn. by destruct (USE_RPT cfg).
  - destruct E1. destruct (USE_RPT cfg); by split; [split; [split|]|].
  - intros E. rewrite E. by apply HP.
Qed.

Lemma drop_saved u d t :
  saved_cpu (drop_space u d) t = (if decide (d = Some t) then None else saved_cpu u t) /\
  (saved_ok u t -> saved_ok (drop_space u d) t).
Proof.
  unfold saved_cpu, saved_ok, drop_space. destruct d as [d|]; [|done]. cbn. case_decide as E.
  - injection E as ->. rewrite !lookup_delete_eq. cbn. split; [done|]. intros _ s E. discriminate E.
  - assert (d <> t) by congruence. by rewrite !lookup_delete_ne.
Qed.

Lemma drop_machine u d :
  (USE_RPT cfg = true -> machinePT u = None) ->
  pub_eq (machine (drop_space u d)) (machine u) /\
  (machine_ok (machine u) -> machine_ok (machine (drop_space u d))) /\
  (USE_RPT cfg = true -> machinePT (drop_space u d) = None).
Proof.
  intros HP. destruct d as [d|]; [|done]. cbn. case_bool_decide as E; [|done]. split_and!; [|by intros [[[]]]|done].
  split; try done. intros R. rewrite (HP R) in E. done.
Qed.

Lemma enter_pub m m' vms tid :
  pub_eq m m' ->
  pub_eq (enter_thread m vms tid).1 (enter_thread m' vms tid).1 /\
  (enter_thread m vms tid).2 = (enter_thread m' vms tid).2.
Proof.
  intros [E1 E2 E3 [E4 E5] E6 E7 E8]. unfold enter_thread. rewrite E4, E5. split; [|done]. by split.
Qed.

Lemma enter_ok m vms tid :
  machine_ok m -> map_Forall (fun _ => Forall is_byte) vms ->
  machine_ok (enter_thread m vms tid).1 /\
  map_Forall (fun _ => Forall is_byte) (enter_thread m vms tid).2.
Proof.
  intros [[[] R1] Z1] Hv. unfold enter_thread.
  assert (H : map_Forall (fun _ => Forall is_byte) (partial_alter (fun _ => vmFile m) (currentTID m) vms)).
  { intros k f Hf. destruct (decide (k = currentTID m)) as [->|]; [|rewrite lookup_partial_alter_ne in Hf by done; by eapply Hv].
    rewrite lookup_partial_alter_eq in Hf. auto. }
  split; [|done]. split; [split; [split|]|]; try done. cbn. intros f Hf. by eapply H.
Qed.

Lemma flush_pub m m' : pub_eq m m' -> pub_eq (flush_tlb cfg m) (flush_tlb cfg m').
Proof. intros [E1 E2 E3 E4 E5 E6 E7]. unfold flush_tlb. rewrite E2. destruct (USE_TLB cfg); by split. Qed.

Lemma flush_ok u :
  user_ok u -> user_ok (set_machine u (flush_tlb cfg (machine u))) /\
  (forall t, cpu_of (set_machine u (flush_tlb cfg (machine u))) t = cpu_of u t).
Proof.
  intros [[[[] R1] Z1] Hc Hs Hv HR HP]. unfold flush_tlb, cpu_of, vcpu_of. split.
  - destruct (USE_TLB cfg); split; try done; by split.
  - intros t. by destruct (USE_TLB cfg).
Qed.

(** The end of a switch: [u3] is about to resume thread [n]. *)
Lemma finish_switch u3 m' cpus dead n :
  currentThread (kernel u3) = n -> pub_eq (machine u3) m' -> machine_ok (machine u3) ->
  map_Forall (fun _ => Forall is_byte) (vmFiles u3) ->
  map_Forall (fun _ r => length r = 40%nat) (userRegisters u3) ->
  (USE_RPT cfg = true -> machinePT u3 = None) ->
  (forall t, saved_cpu u3 t = if decide (dead = Some t) then None else cpus !! t) ->
  (forall t, saved_ok u3 t) ->
  res_rel urel
    (match spaces u3 !! n with
     | Some s => u ← RestoreUserState u3 n; Ok (RestoreState cfg u n s) | None => Ok u3 end)
    (Ok (mkV (kernel u3) m' (vmFiles u3) (match dead with Some d => delete d cpus | None => cpus end))).
Proof.
  intros Hn HP HM HV HR HT HS HK.
  assert (HS' : forall t, saved_cpu u3 t = (match dead with Some d => delete d cpus | None => cpus end) !! t).
  { intros t. rewrite HS. destruct dead as [d|]; [|done]. case_decide as E.
    - injection E as ->. by rewrite lookup_delete_eq.
    - rewrite lookup_delete_ne; [done|congruence]. }
  cbn [res_rel]. destruct (spaces u3 !! n) as [s|] eqn:Es.
  - destruct (resume_spec u3 s n Hn Es (HK n) HT HM) as (u4 & E4 & K4 & S4 & R4 & V4 & P4 & C4 & M4 & A4 & T4).
    rewrite E4. exists u4. split; [done|].
    assert (W : forall t, t <> n -> saved_cpu u4 t = saved_cpu u3 t /\ saved_ok u4 t).
    { intros t Ht. unfold saved_cpu, saved_ok. rewrite S4, R4. split; [done|]. apply HK. }
    split; [done|done|by transitivity (machine u3)| |].
    + intros t. rewrite <- HS'. destruct (decide (t = n)) as [->|Ht]; [done|].
      rewrite cpu_of_ne by congruence. by apply W.
    + split; [done|done| |by rewrite V4|by rewrite R4|done].
      intros t Ht. apply W. congruence.
  - exists u3. split; [done|]. split; [done|done|done| |].
    + intros t. rewrite <- HS'. destruct (decide (t = n)) as [->|Ht].
      * unfold cpu_of, saved_cpu. rewrite decide_True by done. by rewrite Es.
      * by rewrite cpu_of_ne by congruence.
    + split; try done. rewrite Hn, Es. intros [? [=]].
Qed.

Lemma user_Run_rel u v n fin :
  urel u v -> res_rel urel (user_Run cfg u n fin) (v_Run cfg v n fin).
Proof.
  intros [Ek Ev HP HC HO]. unfold user_Run, v_Run.
  destruct (flush_ok u HO) as [HO0 HC0]. apply flush_pub in HP.
  set (u0 := set_machine u (flush_tlb cfg (machine u))) in *.
  destruct (leave_spec u0 HO0) as (u1 & E1 & K1 & M1 & V1 & P1 & R1 & S1).
  cbv zeta in *. change (currentThread (kernel u)) with (currentThread (kernel u0)). rewrite E1.
  cbn [mbind res_bind]. rewrite K1. change (kernel u0) with (kernel u). rewrite Ek.
  destruct (Run (v_kernel v) n fin) as [k| | |] eqn:ER; cbn [mbind res_bind]; try done.
  apply Run_queues in ER as [_ EC].
  destruct (tid_of k n) as [tid| | |]; cbn [mbind res_bind]; try done.
  set (dead := destroyed (v_kernel v) fin). set (u2 := drop_space (set_kernel u1 k) dead).
  destruct (drop_machine (set_kernel u1 k) dead) as (D1 & D2 & D3).
  { intros E. change (machinePT (set_kernel u1 k)) with (machinePT u1). rewrite P1. by apply HO0. }
  fold u2 in D1, D2, D3. change (machine (set_kernel u1 k)) with (machine u1) in *. rewrite M1 in *.
  assert (V2 : vmFiles u2 = v_vmFiles v).
  { rewrite <- Ev. transitivity (vmFiles u1); [by destruct dead|by rewrite V1]. }
  destruct (enter_pub (machine u2) (flush_tlb cfg (v_machine v)) (vmFiles u2) tid) as [N1 N2].
  { by transitivity (machine u0). }
  destruct (enter_ok (machine u2) (vmFiles u2) tid) as [N3 N4].
  { apply D2, HO0. }
  { rewrite V2, <- Ev. apply HO. }
  rewrite V2 in *. destruct (enter_thread (machine u2) (v_vmFiles v) tid) as [m vms].
  destruct (enter_thread (flush_tlb cfg (v_machine v)) (v_vmFiles v) tid) as [m' vms'].
  cbn [fst snd] in *. subst vms'.
  match goal with |- context [mkUser ?a ?b ?c ?d ?e ?f ?g ?h] => set (u3 := mkUser a b c d e f g h) end.
  apply (finish_switch u3 m' (v_cpus v) dead n); try done.
  - cbn. destruct dead; [|done]. by apply map_Forall_delete.
  - intros t. destruct (S1 t) as [S2 _]. rewrite <- HC, <- HC0, <- S2. apply (drop_saved (set_kernel u1 k)).
  - intros t. apply (drop_saved (set_kernel u1 k)). apply S1.
Qed.

(** ** Every event *)

(** A change of the kernel that does not concern the running thread. *)
Lemma kernel_rel u v k :
  urel u v -> currentThread k = currentThread (v_kernel v) ->
  urel (set_kernel u k) (mkV k (v_machine v) (v_vmFiles v) (v_cpus v)).
Proof.
  intros [Ek Ev HP HC [O1 O2 O3 O4 O5 O6]] Hk. rewrite <- Ek in Hk. split; try done.
  - intros t. rewrite <- HC. unfold cpu_of, saved_cpu. cbn. by rewrite Hk.
  - split; try done; cbn; by rewrite Hk.
Qed.

(** Both sides run the same operation of the kernel. *)
Lemma bind_kernel {A C D} (f : res A) (Q : C -> D -> Prop) (c : A -> res C) (d : A -> res D) :
  (forall a, f = Ok a -> res_rel Q (c a) (d a)) -> res_rel Q (f ≫= c) (f ≫= d).
Proof. destruct f; cbn; auto. Qed.

Definition done_rel (r : UserSys * bool) (s : VSys * bool) : Prop := urel r.1 s.1 /\ r.2 = s.2.

Lemma res_rel_done u v : res_rel urel u v ->
  res_rel done_rel (s ← u; Ok (s, false)) (s ← v; Ok (s, false)).
Proof. intros H. eapply res_rel_bind; [exact H|]. intros y x Hyx. exists (y, false). done. Qed.

Lemma instruction_rel u v :
  urel u v -> res_rel done_rel (u_instruction cfg u) (v_instruction cfg v).
Proof.
  intros [Ek Ev HP HC [O1 O2 O3 O4 O5 O6]]. unfold u_instruction, v_instruction.
  rewrite <- Ek, <- HC. unfold cpu_of at 1. rewrite decide_True by done.
  destruct (spaces u !! currentThread (kernel u)) as [s|] eqn:Es; cbn [mbind option_bind]; [|done].
  rewrite <- (vload_pub _ _ _ HP), vload_self by (apply O2; by eexists).
  apply bind_kernel. intros o Eo. destruct (OneInstruction_inv cfg _ _ Eo (proj1 O1)) as [M1 S1].
  eexists. split; [reflexivity|]. split; [|done]. cbn [fst].
  assert (Ec : codeInFileAddr (ctl_machine o) = codeInFileAddr (machine u)) by (injection S1; congruence).
  split; cbn [kernel set_machine v_kernel vmFiles v_vmFiles machine v_machine]; try done.
  - intros t. destruct (decide (t = currentThread (kernel u))) as [->|Ht].
    + cbn [v_cpus]. rewrite lookup_insert_eq. unfold cpu_of. cbn.
      rewrite decide_True by done. by rewrite Es.
    + cbn [v_cpus]. rewrite lookup_insert_ne by done. rewrite <- HC. unfold cpu_of. cbn.
      by rewrite !decide_False.
  - split; try done. cbn. intros H. by rewrite Ec, O2.
Qed.

(** The header and the machine that the constructor returns. *)
Lemma newAddrSpace_rel m m' x junk r :
  pub_eq m m' -> newAddrSpace cfg m' x junk = Ok r ->
  exists r', newAddrSpace cfg m x junk = Ok r' /\ r'.1 = r.1 /\ pub_eq r'.2 r.2 /\
    registers r'.2 = registers m /\ (machine_ok m -> machine_ok r'.2) /\
    (forall sp, r.1 = Some sp -> exists f, x = Some f /\ currentOpenedFile sp = f /\
       (USE_RPT cfg = true -> space_pt sp = None)).
Proof.
  intros HP. unfold newAddrSpace. destruct x as [f|].
  2: { intros E. inv_res. exists (None, m). done. }
  destruct (read_header cfg f junk) as [h| | |]; cbn [mbind res_bind]; try done.
  destruct (USE_RPT cfg) eqn:ER.
  { intros E. inv_res. eexists. split; [reflexivity|]. split_and!; try done.
    intros sp E. injection E as <-. by exists f. }
  case_bool_decide; [done|]. intros E. inv_res. eexists. split; [reflexivity|]. split_and!; try done.
  - destruct HP as [? ? ? [] ? ? HR]. by split.
  - intros [[[]]]. split; [split; [split|]|]; try done. intros g E. by injection E as <-.
  - intros sp E. injection E as <-. by exists f.
Qed.

Lemma newAddrSpace_fails m m' x junk :
  (forall r, newAddrSpace cfg m' x junk <> Ok r) ->
  match newAddrSpace cfg m' x junk with
  | Ok _ => True | AssertFail => newAddrSpace cfg m x junk = AssertFail
  | Undef => newAddrSpace cfg m x junk = Undef | Diverge => newAddrSpace cfg m x junk = Diverge end.
Proof.
  intros _. unfold newAddrSpace. destruct x as [f|]; [|done].
  destruct (read_header cfg f junk); cbn [mbind res_bind]; try done.
  destruct (USE_RPT cfg); [done|]. by case_bool_decide.
Qed.

Lemma start_rel u v x junk :
  urel u v -> (forall f, x = Some f -> Forall is_byte f) ->
  res_rel urel (SimpleUserThread cfg u x junk) (v_start cfg v x junk).
Proof.
  intros [Ek Ev HP HC [O1 O2 O3 O4 O5 O6]] Hx. unfold SimpleUserThread, v_start.
  pose proof (newAddrSpace_fails (machine u) (v_machine v) x junk) as HF.
  destruct (newAddrSpace cfg (v_machine v) x junk) as [[sp m']| | |] eqn:E; cbn [mbind res_bind];
    try (rewrite HF by (intros ?; congruence); done).
  destruct (newAddrSpace_rel _ _ _ _ _ HP E) as ([sp' m] & E' & Es & P1 & R1 & M1 & F1).
  cbn [fst snd] in *. subst sp'. rewrite E'. cbn [mbind res_bind]. destruct sp as [sp|]; [|done].
  destruct (F1 sp eq_refl) as (f & -> & Ef & HS). specialize (Hx f eq_refl). specialize (M1 O1).
  unfold Execute. cbn [kernel set_machine machine set_space].
  rewrite InitRegisters_eq by apply M1. cbn [mbind res_bind]. cbn [res_rel].
  eexists. split; [reflexivity|]. rewrite Ek.
  destruct (initial_registers_ok (numPages sp)) as [I1 I2].
  split; cbn [v_kernel v_vmFiles v_machine v_cpus].
  - exact Ek.
  - exact Ev.
  - unfold RestoreState. cbn. destruct P1 as [? ? ? ? ? ? HR]. split; try done; cbn.
    + by destruct (USE_RPT cfg).
    + by destruct (USE_RPT cfg).
    + by destruct (USE_RPT cfg).
    + by destruct (USE_RPT cfg).
    + by destruct (USE_RPT cfg).
    + intros E1. rewrite E1. auto.
  - intros t. unfold cpu_of, saved_cpu, RestoreState. cbn. rewrite Ek.
    destruct (decide (t = currentThread (v_kernel v))) as [->|Ht].
    + rewrite !lookup_insert_eq. cbn. unfold vcpu_of. cbn. f_equal. destruct (USE_RPT cfg) eqn:ER; [|done].
      by rewrite HS.
    + rewrite !lookup_insert_ne by done. rewrite <- HC. unfold cpu_of, saved_cpu. rewrite Ek.
      by rewrite decide_False.
  - destruct M1 as [[[]]]. split; cbn.
    + split; [split; [split|]|]; cbn; try (by destruct (USE_RPT cfg)); by rewrite Ef.
    + done.
    + intros t Ht. unfold saved_ok. cbn. rewrite lookup_insert_ne by congruence. by apply O3.
    + done.
    + done.
    + intros E1. rewrite E1. auto.
Qed.

Lemma wake_rel u v fin :
  urel u v -> res_rel urel (switch_wake (SW := user_switching cfg) typeno u fin) (switch_wake (SW := @us_switching _ (spec_users cfg)) typeno v fin).
Proof.
  intros H. unfold switch_wake. cbn [sw_kernel user_switching us_switching spec_users user_users sw_set sw_Run].
  rewrite (ur_kernel _ _ H). apply bind_kernel. intros [next k] E. apply FindNextToRun_current in E.
  pose proof (kernel_rel _ _ _ H E) as HK. destruct next; [by apply user_Run_rel|]. by eexists.
Qed.

Lemma sleep_rel u v fin :
  urel u v -> res_rel urel (switch_Sleep (SW := user_switching cfg) typeno u fin) (switch_Sleep (SW := @us_switching _ (spec_users cfg)) typeno v fin).
Proof.
  intros H. unfold switch_Sleep. cbn [sw_kernel user_switching us_switching spec_users user_users sw_set].
  rewrite (ur_kernel _ _ H). apply bind_kernel. intros _ _. apply bind_kernel. intros k E.
  apply wake_rel. apply kernel_rel; [done|]. by eapply blockAThread_current.
Qed.

Lemma yield_rel u v :
  urel u v -> res_rel urel (switch_Yield (SW := user_switching cfg) typeno u) (switch_Yield (SW := @us_switching _ (spec_users cfg)) typeno v).
Proof.
  intros H. unfold switch_Yield. cbn [sw_kernel user_switching us_switching spec_users user_users sw_set sw_Run].
  rewrite (ur_kernel _ _ H). apply bind_kernel. intros [next k] E. apply FindNextToRun_current in E.
  destruct next as [n|]; [|eexists; split; [done|]; by apply kernel_rel].
  apply bind_kernel. intros k' E'. apply ReadyToRun_current in E'.
  apply user_Run_rel, kernel_rel; [done|congruence].
Qed.

Lemma fork_rel u v t :
  urel u v -> res_rel urel (switch_Fork_ready (SW := user_switching cfg) typeno u t)
    (switch_Fork_ready (SW := @us_switching _ (spec_users cfg)) typeno v t).
Proof.
  intros H. unfold switch_Fork_ready. cbn [sw_kernel user_switching us_switching spec_users user_users sw_set].
  rewrite (ur_kernel _ _ H). apply bind_kernel. intros k E. apply ReadyToRun_current in E.
  eexists. split; [done|]. by apply kernel_rel.
Qed.

Lemma fork_check_rel u v :
  urel u v -> res_rel urel (switch_Fork_check (SW := user_switching cfg) typeno u)
    (switch_Fork_check (SW := @us_switching _ (spec_users cfg)) typeno v).
Proof.
  intros H. unfold switch_Fork_check. cbn [sw_kernel user_switching us_switching spec_users user_users sw_set].
  rewrite (ur_kernel _ _ H). case_bool_decide; [|by eexists].
  apply bind_kernel. intros [f|] _; [|done]. apply bind_kernel. intros tf _. apply bind_kernel. intros tc _.
  case_bool_decide; [by apply yield_rel|by eexists].
Qed.

(** Executables are bytes. *)
Definition event_ok (e : event) : Prop :=
  match e with EvStart (Some f) _ => Forall is_byte f | _ => True end.

Lemma step_rel e u v :
  urel u v -> event_ok e -> res_rel done_rel (user_step (US := user_users cfg) typeno e u) (user_step (US := spec_users cfg) typeno e v).
Proof.
  intros H He. destruct e; cbn [user_step]; try (apply res_rel_done).
  - by apply instruction_rel.
  - apply start_rel; [done|]. by intros f ->.
  - by apply yield_rel.
  - by apply sleep_rel.
  - by apply wake_rel.
  - cbn [sw_kernel user_switching us_switching spec_users user_users sw_set]. rewrite (ur_kernel _ _ H). apply bind_kernel. intros k E. eexists.
    split; [reflexivity|]. split; [|done]. apply kernel_rel; [done|]. by eapply ReadyToRun_current.
  - by apply fork_rel.
  - by apply fork_check_rel.
  - cbn [sw_kernel user_switching us_switching spec_users user_users sw_set]. rewrite (ur_kernel _ _ H). apply bind_kernel. intros k E. eexists.
    split; [reflexivity|]. split; [|done]. apply kernel_rel; [done|]. by eapply newThread_current.
  - cbn [sw_kernel user_switching us_switching spec_users user_users sw_set]. rewrite (ur_kernel _ _ H). eexists.
    split; [reflexivity|]. split; [|done]. by apply kernel_rel.
Qed.

Lemma run_rel es u v :
  urel u v -> Forall event_ok es -> res_rel done_rel (user_run (US := user_users cfg) typeno es u) (user_run (US := spec_users cfg) typeno es v).
Proof.
  intros H He. revert u v H. induction He as [|e es He _ IH]; intros u v H; cbn [user_run].
  - by exists (u, false).
  - eapply res_rel_bind; [by apply step_rel|]. intros r s [H1 H2]. rewrite H2. destruct (s.2) eqn:E2.
    + exists r. split; [done|]. split; [done|]. by rewrite H2, E2.
    + by apply IH.
Qed.

End refine.

(** ** The header of an executable *)

(** The 13 words of the header; in the file they are little-endian. *)
Definition noff_ints (h : NoffHeader) : list Z :=
  let seg s := [virtualAddr s; inFileAddr s; size s] in
  noffMagic h :: seg (code h) ++ seg (initData h) ++ seg (readonlyData h) ++ seg (uninitData h).
Definition noff_bytes (h : NoffHeader) : list Z := concat (map (host_bytes false) (noff_ints h)).

Definition noff_wf (h : NoffHeader) : Prop := noffMagic h = NOFFMAGIC /\ Forall is_i32 (noff_ints h).

Lemma length_noff_bytes h : length (noff_bytes h) = sizeof_NoffHeader.
Proof. unfold noff_bytes. cbn [noff_ints map concat app]. rewrite !length_app, !host_bytes_length. done. Qed.

Lemma noff_bytes_bytes h : Forall is_byte (noff_bytes h).
Proof.
  unfold noff_bytes. apply Forall_concat, Forall_map, Forall_true. intros x. apply le_split_bytes.
Qed.

Lemma int_at_words l rest i x :
  l !! i = Some x -> is_i32 x -> int_at false (concat (map (host_bytes false) l) ++ rest) i = x.
Proof.
  intros Hi Hx. revert i Hi. induction l as [|y l IH]; intros [|i] Hi; try done; cbn [map concat] in *.
  - injection Hi as ->. unfold int_at. rewrite <- app_assoc. by apply host_int_app.
  - unfold int_at in *. rewrite <- app_assoc.
    replace (4 * S i)%nat with (4 + 4 * i)%nat by lia. rewrite drop_host. by apply IH.
Qed.

Lemma noff_of_words h rest :
  noff_wf h -> noff_of_bytes false (noff_bytes h ++ rest) = h.
Proof.
  intros [_ Hf]. unfold noff_of_bytes, segment_at, noff_bytes.
  assert (W : forall i x, noff_ints h !! i = Some x ->
            int_at false (concat (map (host_bytes false) (noff_ints h)) ++ rest) i = x).
  { intros i x Hi. apply int_at_words; [done|]. by eapply Forall_lookup_1. }
  destruct h as [mg [] [] [] []]. f_equal; [by apply W|f_equal; by apply W..].
Qed.

Section header.
Context (cfg : Config).

(** On a big-endian host [WordToHost] recovers a little-endian word. *)
Lemma swap_int_at bs i :
  HOST_IS_BIG_ENDIAN cfg = true -> Forall is_byte bs -> (4 * i + 4 <= length bs)%nat ->
  swap_int cfg (int_at true bs i) = int_at false bs i.
Proof.
  intros HB Hf Hl. unfold swap_int, int_at, host_int. rewrite u32_i32.
  set (w := take 4 (drop (4 * i) bs)).
  assert (Hw : Forall is_byte w) by (by apply Forall_take, Forall_drop).
  assert (Lw : length w = 4%nat) by (unfold w; rewrite length_take, length_drop; lia).
  rewrite u32_id.
  2: { pose proof (le_combine_range (rev w) ltac:(by apply Forall_rev)) as HR. rewrite length_rev, Lw in HR.
       exact HR. }
  pose proof (word_le cfg w Hw Lw) as HL. unfold host_load in HL. rewrite HB in HL. by rewrite HL.
Qed.

Lemma swap_noff bs :
  HOST_IS_BIG_ENDIAN cfg = true -> Forall is_byte bs -> (52 <= length bs)%nat ->
  SwapHeader cfg (noff_of_bytes true bs) = noff_of_bytes false bs.
Proof.
  intros HB Hf Hl. unfold SwapHeader, noff_of_bytes, segment_at, swap_segment.
  cbn [noffMagic code initData readonlyData uninitData virtualAddr inFileAddr size].
  by rewrite !swap_int_at by (done || lia).
Qed.

(** Where the header comes from: the bytes of the file, over those the variable had. *)
Lemma read_header_eq f junk :
  (sizeof_NoffHeader <= length f)%nat ->
  unix_ReadAt f sizeof_NoffHeader 0 = Ok (take sizeof_NoffHeader f) /\
  splice junk 0 (take sizeof_NoffHeader f) = take sizeof_NoffHeader f ++ drop sizeof_NoffHeader junk.
Proof.
  intros Hl. split; [done|]. unfold splice. cbn [take app Nat.add]. change (take 0 junk) with (@nil Z).
  by rewrite firstn_length_le by done.
Qed.

Lemma read_header_ok h rest junk :
  noff_wf h -> Forall is_byte junk -> read_header cfg (noff_bytes h ++ rest) junk = Ok h.
Proof.
  intros H Hj. unfold read_header.
  destruct (read_header_eq (noff_bytes h ++ rest) junk) as [-> ES].
  { rewrite length_app, length_noff_bytes. lia. }
  cbn [mbind res_bind]. rewrite ES. rewrite take_app_length' by (by rewrite length_noff_bytes).
  set (bs := noff_bytes h ++ drop sizeof_NoffHeader junk).
  assert (E0 : noff_of_bytes false bs = h) by (by apply noff_of_words).
  assert (EM : noffMagic h = NOFFMAGIC) by apply H.
  destruct (HOST_IS_BIG_ENDIAN cfg) eqn:HB.
  2: { rewrite E0, EM. rewrite bool_decide_false by (intros ?; done). cbn [andb].
       by rewrite EM, bool_decide_true. }
  assert (E1 : noffMagic (noff_of_bytes true bs) = -1377846784).
  { unfold bs, noff_bytes, noff_ints. rewrite EM. reflexivity. }
  assert (Hb : Forall is_byte bs).
  { apply Forall_app_2; [apply noff_bytes_bytes|by apply Forall_drop]. }
  assert (E2 : SwapHeader cfg (noff_of_bytes true bs) = h).
  { rewrite swap_noff; [done..|]. unfold bs. rewrite length_app, length_noff_bytes.
    unfold sizeof_NoffHeader. lia. }
  assert (E3 : WordToHost cfg (u32 (noffMagic (noff_of_bytes true bs))) = NOFFMAGIC).
  { rewrite E1. unfold WordToHost. by rewrite HB. }
  rewrite E3, E1, E2. rewrite !(bool_decide_true (_ = NOFFMAGIC)) by done.
  by rewrite bool_decide_true by done.
Qed.

(** A file that begins with the magic number in neither byte order. *)
Lemma read_header_bad f junk :
  Forall is_byte f -> Forall is_byte junk -> (sizeof_NoffHeader <= length f)%nat ->
  host_int false (take 4 f) <> NOFFMAGIC -> host_int true (take 4 f) <> NOFFMAGIC ->
  read_header cfg f junk = AssertFail.
Proof.
  intros Hf Hj Hl N1 N2. unfold read_header.
  destruct (read_header_eq f junk Hl) as [-> ES]. cbn [mbind res_bind]. rewrite ES.
  set (bs := take sizeof_NoffHeader f ++ drop sizeof_NoffHeader junk).
  assert (T : take 4 bs = take 4 f).
  { unfold bs. rewrite take_app_le by (rewrite length_take; unfold sizeof_NoffHeader in *; lia).
    by rewrite take_take. }
  assert (E : forall b, noffMagic (noff_of_bytes b bs) <> NOFFMAGIC).
  { intros b. cbn [noff_of_bytes noffMagic]. unfold int_at.
    change (drop (4 * 0) bs) with bs. rewrite T. by destruct b. }
  assert (W : WordToHost cfg (u32 (noffMagic (noff_of_bytes (HOST_IS_BIG_ENDIAN cfg) bs))) <> NOFFMAGIC).
  { destruct (HOST_IS_BIG_ENDIAN cfg) eqn:HB.
    - intros EW. apply (E false). cbn [noff_of_bytes noffMagic].
      rewrite <- (swap_int_at bs 0 HB).
      + unfold swap_int. cbn [noff_of_bytes noffMagic] in EW. by rewrite EW.
      + apply Forall_app_2; [by apply Forall_take|by apply Forall_drop].
      + unfold bs. rewrite length_app, length_take. unfold sizeof_NoffHeader in *. lia.
    - unfold WordToHost. rewrite HB. cbn [noff_of_bytes noffMagic]. unfold int_at, host_int.
      rewrite u32_i32. change (drop (4 * 0) bs) with bs. rewrite T. intros EW. apply N1. unfold host_int.
      rewrite <- i32_u32, EW. done. }
  rewrite (bool_decide_false _ W), andb_false_r. by rewrite bool_decide_false by apply E.
Qed.

End header.
