(* ===== verification/UserProgClaims.v ===== *)
(** * What user programs may rely on: starting, and losing the processor *)

From S2P Require Import Prelude Words Bytes Bitmap Lists Sched SchedProofs Machine MachineProofs Mips MipsProofs VmProofs UserProg UserProgProofs.

(** A system on which no program has started. *)
Definition user_boot (k : Kernel) (m : Machine) (h : NoffHeader) : UserSys :=
  mkUser k m h None ∅ ∅ ∅ ∅.

Lemma user_boot_rel cfg k m h : machine_ok m -> urel cfg (user_boot k m h) (mkV k m ∅ ∅).
Proof.
  intros Hm. split; try done.
  - intros t. unfold cpu_of, saved_cpu. cbn. rewrite !lookup_empty. by case_decide.
  - split; try done. cbn. rewrite lookup_empty. by intros [? ?].
Qed.

(** [r] and [s] have halted or not, and every user program has the same virtual
    processor in both; the machine is that of the program that runs. *)
Definition same_programs (cfg : Config) (r : UserSys * bool) (s : VSys * bool) : Prop :=
  r.2 = s.2 /\ kernel r.1 = v_kernel s.1 /\ vmFiles r.1 = v_vmFiles s.1 /\
  (forall t, cpu_of cfg r.1 t = v_cpus s.1 !! t) /\
  forall c, v_cpus s.1 !! currentThread (kernel r.1) = Some c ->
    machine r.1 = vload cfg c (v_machine s.1).

(** A build with one page table per program, a machine that has just been made,
    and a program whose only instruction puts [imm] into register 5. *)
Definition pt_cfg : Config := mkConfig false false true false false.
Definition new_machine : Machine :=
  mkMachine (replicate 40 0) (replicate (Z.to_nat MemorySize) 0) None None 0
    (BitmapImpl.mkBitmap 128 4 [0; 0; 0; 0]) 0 [] 0 None 0 0 0 SystemMode.
Definition demo_noff : NoffHeader :=
  let none := mkSegment 0 0 0 in mkNoff NOFFMAGIC (mkSegment 0 52 4) none none none.
Definition demo_program (imm : Z) : list Z := noff_bytes demo_noff ++ [imm; 0; 5; 32].
Definition demo_junk : list Z := replicate 52 0.

(** Two such programs, each in a thread of its own. *)
Definition demo_events : list event :=
  [EvStart (Some (demo_program 7)) demo_junk; EvInstruction; EvInstruction;
   EvNew 2%positive 0 0; EvFork 2%positive; EvForkCheck; EvYield;
   EvStart (Some (demo_program 9)) demo_junk; EvInstruction; EvInstruction; EvYield].

Lemma new_machine_ok : machine_ok new_machine.
Proof.
  assert (Z0 : is_i32 0) by (unfold is_i32, int_min, int_max; lia).
  split; [split; [split|split]|]; try done.
  - apply (Forall_replicate is_byte (Z.to_nat MemorySize) 0). unfold is_byte. lia.
  - by apply (Forall_replicate is_i32 40).
  - exists 0. split; [done|unfold NumGPRegs; lia].
Qed.

Lemma demo_program_bytes imm : is_byte imm -> Forall is_byte (demo_program imm).
Proof.
  intros H. apply Forall_app_2; [apply noff_bytes_bytes|]. unfold is_byte in *.
  repeat (constructor; [lia|]). constructor.
Qed.

(** C7: context switches are invisible to user programs.  Whatever the programs,
    the policy and the order of instructions, system calls, switches, forks,
    sleeps and wake-ups, the kernel with one machine whose state [Scheduler::Run]
    saves and restores fails exactly when, and the way, the system in which every
    program has registers, a page table and an executable of its own fails;
    otherwise they halt together, every program has the same registers, page
    table and executable in both, and the machine is, for the program that runs,
    exactly that of its own virtual processor. *)
Theorem context_switches_invisible (cfg : Config) (typeno : Z) (k : Kernel) (m : Machine)
    (h : NoffHeader) (es : list event) :
  machine_ok m -> Forall event_ok es ->
  res_rel (same_programs cfg)
    (user_run (US := user_users cfg) typeno es (user_boot k m h))
    (user_run (US := spec_users cfg) typeno es (mkV k m ∅ ∅)).
Proof.
  intros Hm He. pose proof (run_rel cfg typeno es _ _ (user_boot_rel cfg k m h Hm) He) as H.
  unfold res_rel in *. destruct (user_run typeno es (mkV k m ∅ ∅)) as [s| | |]; try done.
  destruct H as (r & -> & [[Ek Ev HP HC HO] E2]). exists r. split; [done|].
  split_and!; [done..|]. intros c Hc. rewrite <- HC in Hc. unfold cpu_of in Hc.
  rewrite decide_True in Hc by done.
  destruct (spaces r.1 !! currentThread (kernel r.1)) as [sp|] eqn:Es; [|done].
  cbn in Hc. injection Hc as <-. rewrite <- (vload_pub _ _ _ _ HP). symmetry. apply vload_self.
  apply HO. by eexists.
Qed.

(** After the two programs have run, the first is back, with its own register 5. *)
Lemma context_switches_invisible_witness :
  exists r s,
    user_run (US := user_users pt_cfg) 2 demo_events (user_boot (boot 0 3) new_machine demo_noff) = Ok r /\
    user_run (US := spec_users pt_cfg) 2 demo_events (mkV (boot 0 3) new_machine ∅ ∅) = Ok s /\
    same_programs pt_cfg r s /\ currentThread (kernel r.1) = 1%positive /\
    getReg (machine r.1) 5 = Ok 7 /\ (c_registers <$> v_cpus s.1 !! 2%positive) ≫= (.!! 5%nat) = Some 9.
Proof.
  pose proof (context_switches_invisible pt_cfg 2 (boot 0 3) new_machine demo_noff demo_events
    new_machine_ok) as H.
  assert (He : Forall event_ok demo_events).
  { repeat (constructor; [first [exact I|apply demo_program_bytes; unfold is_byte; lia]|]). constructor. }
  specialize (H He). set (S := user_run (US := spec_users pt_cfg) 2 _ _) in *.
  set (R := user_run (US := user_users pt_cfg) 2 _ _) in *.
  assert (ES : match S with
               | Ok s => (c_registers <$> v_cpus s.1 !! 2%positive) ≫= (.!! 5%nat) = Some 9
               | _ => False end) by (vm_compute; reflexivity).
  assert (ER : match R with
               | Ok r => currentThread (kernel r.1) = 1%positive /\ getReg (machine r.1) 5 = Ok 7
               | _ => False end) by (vm_compute; split; reflexivity).
  clearbody R S. destruct S as [s| | |]; [|destruct ES..]. destruct H as (r & -> & H).
  exists r, s. destruct ER as [E1 E2]. split_and!; [reflexivity|reflexivity|exact H|exact E1|exact E2|exact ES].
Defined.

(** ** The start of a program *)

(** A new page table: every access below its end faults, every other is an error. *)
Lemma fresh_Translate cfg m n va sz w :
  USE_RPT cfg = false -> tlb m = None -> pt m = Some (replicate (Z.to_nat n) reset_entry) ->
  pageTableSize m = n -> 0 <= n -> 0 <= va -> aligned va sz = true ->
  Translate cfg m va sz w =
    Ok (if bool_decide (va < n * PageSize) then PageFaultException else AddressErrorException, 0, counted m).
Proof.
  intros HR HT HP HS Hn Hv Ha. unfold Translate. fold (counted m).
  unfold aligned in Ha. apply negb_true_iff in Ha. rewrite Ha. clear Ha.
  assert (ET : tlb (counted m) = None) by done. assert (EP : pt (counted m) = pt m) by done.
  rewrite ET, EP, HP. rewrite (bool_decide_true (None = None)), (bool_decide_false (Some _ = None)) by done.
  cbn [negb orb ASSERT mbind res_bind]. unfold lookup_page, pageTableTranslation.
  rewrite ET, EP, HP, HR. cbn [arr mbind res_bind]. change (pageTableSize (counted m)) with (pageTableSize m).
  rewrite HS. rewrite Z.quot_div_nonneg by done.
  pose proof (Z.div_mod va PageSize ltac:(done)) as D. pose proof (Z.mod_pos_bound va PageSize ltac:(done)).
  assert (0 <= va / PageSize) by (by apply Z.div_pos).
  case_bool_decide as C1; case_bool_decide as C2; try (exfalso; unfold PageSize in *; lia).
  - cbn [mbind res_bind]. by rewrite decide_True.
  - destruct (aget_in_range (replicate (Z.to_nat n) reset_entry) (va / PageSize)) as [e Ee].
    { rewrite length_replicate. lia. }
    rewrite Ee. cbn [mbind res_bind]. apply aget_Ok in Ee as [_ Ee].
    apply lookup_replicate in Ee as [-> _]. cbn [valid negb ppn reset_entry].
    rewrite bool_decide_false by (intros ?; done). cbn [mbind res_bind]. by rewrite decide_True.
Qed.

(** The bytes of the segments, and the pages with the stack. *)
Definition segment_bytes (h : NoffHeader) : Z :=
  size (code h) + size (readonlyData h) + size (initData h) + size (uninitData h).
Definition program_pages (h : NoffHeader) : Z := divRoundUp (segment_bytes h + UserStackSize) PageSize.

Lemma program_pages_spec h :
  0 <= segment_bytes h <= int_max - 2048 ->
  program_size h = segment_bytes h + UserStackSize /\
  segment_bytes h + UserStackSize <= program_pages h * PageSize < segment_bytes h + UserStackSize + PageSize /\
  0 <= program_pages h /\ is_i32 (program_pages h * PageSize - 16).
Proof.
  intros H. unfold program_pages.
  destruct (divRoundUp_spec (segment_bytes h + UserStackSize) PageSize) as [D1 D2];
    [unfold UserStackSize; lia|done|].
  unfold program_size, is_i32, int_min, int_max, UserStackSize, PageSize in *.
  fold (segment_bytes h). rewrite i32_id by (unfold is_i32, int_min, int_max; lia). lia.
Qed.

(** The machine when a program with header [h] starts. *)
Definition started_machine (cfg : Config) (m : Machine) (h : NoffHeader) (f : list Z) : Machine :=
  let n := program_pages h in
  mkMachine (initial_registers n) (mainMemory m) (tlb m)
    (if USE_RPT cfg then pt m else Some (replicate (Z.to_nat n) reset_entry))
    (if USE_RPT cfg then pageTableSize m else n) (mmBitmap m) (currentTID m) f
    (inFileAddr (code h)) (if USE_RPT cfg then vmFile m else Some []) (numAddressTranslation m)
    (numPageFaults m) (numTLBMiss m) UserMode.

Lemma SimpleUserThread_eq cfg u h rest junk :
  machine_ok (machine u) -> noff_wf h -> Forall is_byte junk ->
  0 <= segment_bytes h <= int_max - 2048 ->
  exists u', SimpleUserThread cfg u (Some (noff_bytes h ++ rest)) junk = Ok u' /\
    machine u' = started_machine cfg (machine u) h (noff_bytes h ++ rest) /\
    exists sp, spaces u' !! currentThread (kernel u) = Some sp /\
      currentNoffHeader sp = h /\ numPages sp = program_pages h.
Proof.
  intros Hm Hh Hj Hs. destruct (program_pages_spec h Hs) as (P1 & P2 & P3 & P4).
  unfold SimpleUserThread, newAddrSpace. rewrite read_header_ok by done. cbn [mbind res_bind]. rewrite P1.
  fold (program_pages h).
  assert (L : length (registers (machine u)) = 40%nat) by apply Hm.
  destruct (USE_RPT cfg) eqn:ER; [|rewrite bool_decide_false by lia]; unfold Execute;
    cbn [mbind res_bind]; rewrite InitRegisters_eq by exact L; cbn [mbind res_bind];
    (eexists; split; [reflexivity|]); unfold RestoreState, started_machine; rewrite ER;
    (split; [by destruct (machine u)|]); eexists; (split; [apply lookup_insert_eq|done]).
Qed.

Lemma getReg_initial cfg m h f i :
  is_i32 (program_pages h * PageSize - 16) -> 0 <= i < NumTotalRegs ->
  getReg (started_machine cfg m h f) i =
    Ok (if decide (i = NextPCReg) then 4
        else if decide (i = StackReg) then program_pages h * PageSize - 16 else 0).
Proof.
  intros Hp Hi. unfold getReg, started_machine, initial_registers, NumTotalRegs in *. cbn [registers].
  rewrite i32_id by done. set (v := program_pages h * PageSize - 16).
  pose proof (aget_insert (<[35%nat:=4]> (replicate 40 0)) 29 i v) as E1.
  pose proof (aget_insert (replicate 40 0) 35 i 4) as E2.
  change (Z.to_nat 29) with 29%nat in E1. change (Z.to_nat 35) with 35%nat in E2.
  rewrite length_insert, length_replicate in *. rewrite E1, E2 by lia. unfold NextPCReg, StackReg.
  repeat case_decide; try lia; try done.
  unfold aget. rewrite bool_decide_true by lia. by rewrite lookup_replicate_2 by lia.
Qed.

(** C26: starting a program.  On hosts of both byte orders, from a file with a
    NOFF header in the machine's byte order whose segments fit in an [int], [SimpleUserThread] gives the running
    thread an address space with exactly that header, whose pages hold the
    segments and 1024 bytes of stack, with less than a page to spare; it leaves
    the program at address 0 with the stack pointer 16 bytes below the end of
    the space and all other registers zero, and changes no memory.  In the build
    with a page table per program and without a TLB, the first access to any
    address of the space is a page fault, and any access beyond it an address error
    (neither is so with the inverted table, whose translation checks no bound, or
    with a TLB, where the access is a TLB miss).  A file without the
    magic number fails the assertion. *)
Theorem program_start (cfg : Config) (u : UserSys) (h : NoffHeader) (rest junk : list Z) :
  machine_ok (machine u) -> noff_wf h -> Forall is_byte junk ->
  0 <= segment_bytes h <= int_max - 2048 ->
  let n := program_pages h in
  let f := noff_bytes h ++ rest in
  let t := currentThread (kernel u) in
  (exists u', SimpleUserThread cfg u (Some f) junk = Ok u' /\
    currentNoffHeader <$> spaces u' !! t = Some h /\ numPages <$> spaces u' !! t = Some n /\
    0 <= n * PageSize - (segment_bytes h + 1024) < PageSize /\
    (forall i, 0 <= i < NumTotalRegs -> getReg (machine u') i =
       Ok (if decide (i = NextPCReg) then 4 else if decide (i = StackReg) then n * PageSize - 16 else 0)) /\
    executable (machine u') = f /\ codeInFileAddr (machine u') = inFileAddr (code h) /\
    mainMemory (machine u') = mainMemory (machine u) /\ mmBitmap (machine u') = mmBitmap (machine u) /\
    (USE_RPT cfg = true -> pt (machine u') = pt (machine u)) /\
    (USE_RPT cfg = false -> tlb (machine u) = None -> forall va sz w, 0 <= va -> aligned va sz = true ->
       Translate cfg (machine u') va sz w =
         Ok (if bool_decide (va < n * PageSize) then PageFaultException else AddressErrorException, 0,
             counted (machine u')))) /\
  (forall g, Forall is_byte g -> (sizeof_NoffHeader <= length g)%nat ->
     host_int false (take 4 g) <> NOFFMAGIC -> host_int true (take 4 g) <> NOFFMAGIC ->
     SimpleUserThread cfg u (Some g) junk = AssertFail).
Proof.
  intros Hm Hh Hj Hs. cbn zeta. destruct (program_pages_spec h Hs) as (P1 & P2 & P3 & P4). split.
  2: { intros g Hg Hl N1 N2. unfold SimpleUserThread, newAddrSpace. by rewrite read_header_bad. }
  destruct (SimpleUserThread_eq cfg u h rest junk Hm Hh Hj Hs) as (u' & E & EM & sp & ES & E1 & E2).
  exists u'. split; [exact E|]. rewrite ES, EM. cbn [fmap option_fmap option_map]. rewrite E1, E2.
  unfold UserStackSize in P2.
  split_and!; [done|done|lia|lia|intros i Hi; by apply getReg_initial|done..| |].
  - intros ER. unfold started_machine. by rewrite ER.
  - intros ER HT va sz w Hv Ha. apply fresh_Translate; try done; unfold started_machine; by rewrite ER.
Qed.

Lemma program_start_witness :
  exists u', SimpleUserThread pt_cfg (user_boot (boot 0 3) new_machine demo_noff)
      (Some (demo_program 7)) demo_junk = Ok u' /\
    getReg (machine u') StackReg = Ok 1136 /\
    Translate pt_cfg (machine u') 1148 4 true = Ok (PageFaultException, 0, counted (machine u')) /\
    Translate pt_cfg (machine u') 1152 4 true = Ok (AddressErrorException, 0, counted (machine u')).
Proof.
  destruct (program_start pt_cfg (user_boot (boot 0 3) new_machine demo_noff) demo_noff [7; 0; 5; 32] demo_junk)
    as [(u' & E & _ & _ & _ & R & _ & _ & _ & _ & _ & T) _].
  - exact new_machine_ok.
  - split; [done|]. cbn -[is_i32]. repeat (constructor; [split; discriminate|]). constructor.
  - apply Forall_replicate. unfold is_byte. lia.
  - split; discriminate.
  - exists u'. split; [exact E|]. clear E.
    split; [rewrite R by (split; [discriminate|reflexivity]); reflexivity|].
    split; (rewrite T; [reflexivity|reflexivity|reflexivity|discriminate|reflexivity]).
Defined.
