(* ===== verification/Suspend.v ===== *)
(** * threads/thread.cc, threads/scheduler.cc: suspending a thread to a file

    [suspendAThread] writes the pages of a blocked thread to the file
    ["thread%d"] and frees their frames; [restoreAThread] brings them back.  The
    file holds the number of pages and then each page after its number; a number
    takes four bytes, the first bytes of a character buffer that ["%d"] was
    printed into. *)

From S2P Require Import Prelude Bytes Text Bitmap Lists Sched Machine UserProg.

(** The local variables of the loop of [SaveAThread]. *)
Record Saving : Type := mkSaving {
  s_pt : list TranslationEntry; s_bitmap : BitmapImpl.Bitmap; s_file : list Z; s_buf : list Z;
  s_offset : Z }.

Definition sizeof_int : Z := 4.

(** [f->WriteAt(buf, sizeof(int), offset)] *)
Definition write_number (f buf : list Z) (offset : Z) : res (list Z) :=
  unix_WriteAt f (take 4 buf) offset.

(** One valid entry [e], at index [i]: page [v], in frame [p]. *)
Definition save_page (mem : list Z) (i v p : Z) (e : TranslationEntry) (s : Saving) : res Saving :=
  t ← aset (s_pt s) i (set_valid e false);
  bm ← BitmapImpl.Clear (s_bitmap s) p;
  buf ← sprintf_d (s_buf s) v;
  f ← write_number (s_file s) buf (s_offset s);
  let offset := s_offset s + sizeof_int in
  page ← mem_read mem (p * PageSize) (Z.to_nat PageSize);
  f ← unix_WriteAt f page offset;
  Ok (mkSaving t bm f buf (offset + PageSize)).

(** The number of entries, of the first [n], that [p] holds of. *)
Definition count_entries (p : TranslationEntry -> bool) (t : list TranslationEntry) (n : Z) : res Z :=
  for_loop (Z.to_nat n) 0 (fun i c => e ← aget t i; Ok (if p e then c + 1 else c)) 0.

(** The two passes over the table: counting, then writing. *)
Definition save_pages (t : list TranslationEntry) (n : Z) (bm : BitmapImpl.Bitmap) (f buf : list Z)
    (p : TranslationEntry -> bool) (one : Z -> TranslationEntry -> Saving -> res Saving)
    : res Saving :=
  pageNum ← count_entries p t n;
  buf ← sprintf_d buf pageNum;
  f ← write_number f buf 0;
  for_loop (Z.to_nat n) 0 (fun i s =>
    e ← aget (s_pt s) i; if p e then one i e s else Ok s) (mkSaving t bm f buf sizeof_int).

(** [buf] is the local buffer of 100 characters, with what it holds at first. *)
Definition SaveAThread (cfg : Config) (u : UserSys) (t : tptr) (fname : Z) (buf : list Z)
    : res UserSys :=
  f ← match threadFiles u !! fname with Some f => Ok f | None => AssertFail end;
  let m := machine u in
  if USE_RPT cfg then
    tid ← tid_of (kernel u) t;
    tbl ← arr (pt m);
    s ← save_pages tbl NumPhysPages (mmBitmap m) f buf
          (fun e => bool_decide (tID e = tid) && valid e)
          (fun i e => save_page (mainMemory m) i (vpn e) i e);
    Ok (set_threadFiles (set_machine u (with_pt (with_bitmap m (s_bitmap s)) (Some (s_pt s))))
          (<[fname := s_file s]> (threadFiles u)))
  else
    sp ← match spaces u !! t with Some sp => Ok sp | None => Undef end;
    tbl ← arr (space_pt sp);
    s ← save_pages tbl (numPages sp) (mmBitmap m) f buf valid
          (fun i e => save_page (mainMemory m) i i (ppn e) e);
    let u := set_machine u (with_bitmap m (s_bitmap s)) in
    Ok (set_threadFiles (set_table u t sp (Some (s_pt s))) (<[fname := s_file s]> (threadFiles u))).

(** [loadPageFrame] of a thread [t] that need not be the running one: the table
    and the number are those of [t], the rest is the running thread's. *)
Definition Thread_loadPageFrame (cfg : Config) (u : UserSys) (t : tptr) (v p fileAddr : Z)
    (f : list Z) : res UserSys :=
  let m := machine u in
  tid ← tid_of (kernel u) t;
  if USE_RPT cfg then
    m' ← loadPageFrame cfg (with_thread (with_program m f (codeInFileAddr m)) tid (vmFile m)) v p fileAddr;
    Ok (set_machine u (with_thread (with_program m' (executable m) (codeInFileAddr m))
                         (currentTID m) (vmFile m')))
  else
    sp ← match spaces u !! t with Some sp => Ok sp | None => Undef end;
    m' ← loadPageFrame cfg (with_pt (with_program m f (codeInFileAddr m)) (space_pt sp)) v p fileAddr;
    Ok (set_table (set_machine u (with_pt (with_program m' (executable m) (codeInFileAddr m)) (pt m)))
          t sp (pt m')).

(** [f->ReadAt(buf, sizeof(int), offset); atoi(buf)] *)
Definition read_number (f buf : list Z) (offset : Z) : res (Z * list Z) :=
  bs ← unix_ReadAt f 4 offset;
  let buf := splice buf 0 bs in
  x ← atoi buf; Ok (x, buf).

Definition load_page (cfg : Config) (t : tptr) (f : list Z) (s : UserSys * list Z * Z)
    : res (UserSys * list Z * Z) :=
  let '(u, buf, offset) := s in
  '(v, buf) ← read_number f buf offset;
  let offset := offset + sizeof_int in
  '(frame, m) ← findAvailablePageFrame (machine u);
  frame ← (if bool_decide (frame = -1) then findOneToReplace cfg m (default [] (pt m)) 0
           else Ok frame);
  u ← Thread_loadPageFrame cfg (set_machine u m) t v frame offset f;
  Ok (u, buf, offset + PageSize).

Definition LoadAThread (cfg : Config) (u : UserSys) (t : tptr) (fname : Z) (buf : list Z)
    : res UserSys :=
  f ← match threadFiles u !! fname with Some f => Ok f | None => AssertFail end;
  '(numPages, buf) ← read_number f buf 0;
  '(u, _, _) ← for_loop (Z.to_nat numPages) 0 (fun _ => load_page cfg t f) (u, buf, sizeof_int);
  Ok u.

Definition suspendAThread (cfg : Config) (u : UserSys) (buf : list Z) : res UserSys :=
  let k := kernel u in
  '(t, l) ← Seq.RemoveFront (blockList k);
  tid ← tid_of k t;
  let u := set_threadFiles u (<[tid := []]> (threadFiles u)) in
  s ← Seq.Append t (suspendList k);
  let u := set_kernel u (with_suspendList (with_blockList k l) s) in
  u ← SaveAThread cfg u t tid buf;
  ths ← upd_thread (threads (kernel u)) t (fun th => setStatus th SUSPENDED);
  Ok (set_kernel u (with_threads (kernel u) ths)).

Definition restoreAThread (cfg : Config) (u : UserSys) (buf : list Z) : res UserSys :=
  let k := kernel u in
  '(t, l) ← Seq.RemoveFront (suspendList k);
  tid ← tid_of k t;
  u ← LoadAThread cfg (set_kernel u (with_suspendList k l)) t tid buf;
  let k := kernel u in
  r ← Seq.Append t (readyList (queues k));
  let k := with_queues k (mkQueues r (sortedReadyList (queues k)) (threadArrQueue (queues k))) in
  ths ← upd_thread (threads k) t (fun th => setStatus th READY);
  Ok (set_threadFiles (set_kernel u (with_threads k ths)) (delete tid (threadFiles u))).
