(* ===== verification/SuspendProofs.v ===== *)
(** * Suspended threads come back with their pages

    The format of the file of a suspended thread; what
    [SaveAThread] writes, and what [LoadAThread] makes of it, for the build with a
    page table per address space.  Then what the option -dt, whose routines suspend,
    restore and wake threads, does to the queues of the scheduler in any build. *)

From S2P Require Import Prelude Bytes Text Bitmap BitmapProofs Lists ListProofs Sched SchedProofs SchedClaims Machine MachineProofs VmProofs UserProg Suspend.

(** ** Numbers of four characters *)

(** A number of the file: whatever follows it in the buffer, [atoi] reads it. *)
Definition field (x : Z) (fl : list Z) : Prop :=
  length fl = 4%nat /\ forall tail, atoi (fl ++ tail) = Ok x.

Lemma sprintf_field buf x :
  0 <= x < 1000 -> (4 <= length buf)%nat ->
  exists buf', sprintf_d buf x = Ok buf' /\ length buf' = length buf /\ field x (take 4 buf').
Proof.
  intros Hx Hl. unfold sprintf_d, decimal. rewrite bool_decide_false by lia.
  pose proof (length_digits 10 2 x ltac:(change (10 ^ Z.of_nat 3) with 1000; lia)) as Hd.
  rewrite mem_write_ok by (rewrite ?length_app; cbn [length]; lia).
  eexists. split; [reflexivity|]. split.
  { apply length_splice. rewrite length_app. cbn [length]. lia. }
  split; [rewrite length_take, length_splice; rewrite ?length_app; cbn [length]; lia|].
  intros tail. unfold splice. change (Z.to_nat 0) with 0%nat. change (take 0 buf) with (@nil Z). cbn [app].
  rewrite <- app_assoc. rewrite take_app_ge by lia. rewrite <- app_assoc.
  destruct (4 - length (digits 10 x))%nat as [|k] eqn:Ek; [lia|]. cbn [app take]. rewrite <- (digits_decimal x) by lia. apply atoi_decimal. unfold is_i32, int_min, int_max. lia.
Qed.

(** ** The file *)

(** The pages in the file: the number and the contents of each. *)
Fixpoint pages_in (pages : list (Z * list Z)) (f : list Z) : Prop :=
  match pages with
  | [] => f = []
  | (v, pg) :: pages' =>
      exists fl rest, field v fl /\ length pg = Z.to_nat PageSize /\ f = fl ++ pg ++ rest /\ pages_in pages' rest
  end.

Definition thread_file (pages : list (Z * list Z)) (f : list Z) : Prop :=
  exists fl body, field (Z.of_nat (length pages)) fl /\ f = fl ++ body /\ pages_in pages body.

Lemma pages_in_snoc pages f v pg fl :
  pages_in pages f -> field v fl -> length pg = Z.to_nat PageSize ->
  pages_in (pages ++ [(v, pg)]) (f ++ fl ++ pg).
Proof.
  intros H Hf Hp. revert f H. induction pages as [|[w q] pages IH]; intros f H; cbn [app pages_in] in *.
  - subst f. exists fl, []. rewrite app_nil_r. done.
  - destruct H as (fl1 & rest & F1 & L1 & -> & H). exists fl1, (rest ++ fl ++ pg).
    rewrite <- !app_assoc. split_and!; auto.
Qed.

Lemma unix_append f bs : unix_WriteAt f bs (Z.of_nat (length f)) = Ok (f ++ bs).
Proof.
  unfold unix_WriteAt. rewrite bool_decide_true by lia. cbn [ASSERT mbind res_bind]. rewrite Nat2Z.id.
  rewrite Nat.sub_diag. cbn [replicate]. rewrite app_nil_r, firstn_all, drop_ge by lia. by rewrite app_nil_r.
Qed.

(** ** Writing the pages of a table *)

Definition frame (mem : list Z) (p : Z) : list Z :=
  take (Z.to_nat PageSize) (drop (Z.to_nat (p * PageSize)) mem).

Lemma frame_read mem p :
  length mem = Z.to_nat MemorySize -> 0 <= p < NumPhysPages ->
  mem_read mem (p * PageSize) (Z.to_nat PageSize) = Ok (frame mem p) /\
  length (frame mem p) = Z.to_nat PageSize.
Proof.
  intros Hm Hp. unfold frame, MemorySize, NumPhysPages, PageSize in *.
  split; [apply mem_read_ok; lia|]. rewrite length_take, length_drop. lia.
Qed.

(** The valid pages of a table, from index [i] on. *)
Fixpoint pages_of (mem : list Z) (i : Z) (t : list TranslationEntry) : list (Z * list Z) :=
  match t with
  | [] => []
  | e :: t' => (if valid e then [(i, frame mem (ppn e))] else []) ++ pages_of mem (i + 1) t'
  end.

Definition freed (t : list TranslationEntry) (bs : list bool) : list bool :=
  foldl (fun bs e => if valid e then <[Z.to_nat (ppn e) := false]> bs else bs) bs t.

Definition frames_ok (t : list TranslationEntry) : Prop :=
  Forall (fun e => valid e = true -> 0 <= ppn e < NumPhysPages) t.

Lemma pages_of_app mem i t1 t2 :
  pages_of mem i (t1 ++ t2) = pages_of mem i t1 ++ pages_of mem (i + Z.of_nat (length t1)) t2.
Proof.
  revert i. induction t1 as [|e t1 IH]; intros i; cbn [app pages_of length].
  - by rewrite Z.add_0_r.
  - replace (i + Z.of_nat (S (length t1))) with (i + 1 + Z.of_nat (length t1)) by lia.
    by rewrite IH, app_assoc.
Qed.

Lemma pages_of_In mem i t v pg :
  (v, pg) ∈ pages_of mem i t <->
  exists e, 0 <= v - i /\ t !! Z.to_nat (v - i) = Some e /\ valid e = true /\ pg = frame mem (ppn e).
Proof.
  revert i. induction t as [|e t IH]; intros i; cbn [pages_of].
  { rewrite lookup_nil. split; [intros H; by apply not_elem_of_nil in H|naive_solver]. }
  rewrite elem_of_app, IH. split.
  - intros [H|(e' & Hv & He & V & Hp)].
    + destruct (valid e) eqn:V; [|by apply not_elem_of_nil in H]. apply list_elem_of_singleton in H.
      injection H as -> ->. exists e. rewrite Z.sub_diag. done.
    + exists e'. replace (Z.to_nat (v - i)) with (S (Z.to_nat (v - (i + 1)))) by lia. split; [lia|done].
  - intros (e' & Hv & He & V & Hp). destruct (decide (v = i)) as [->|Hn].
    + rewrite Z.sub_diag in He. injection He as ->. left. rewrite V, Hp. by apply list_elem_of_singleton.
    + right. exists e'. replace (Z.to_nat (v - i)) with (S (Z.to_nat (v - (i + 1)))) in He by lia.
      split; [lia|done].
Qed.

Lemma pages_of_NoDup mem i t : NoDup (pages_of mem i t).*1.
Proof.
  revert i. induction t as [|e t IH]; intros i; cbn [pages_of]; [constructor|].
  rewrite fmap_app. destruct (valid e); cbn [fmap list_fmap app]; [|apply IH]. constructor; [|apply IH].
  intros ([v pg] & Hv & H)%list_elem_of_fmap. cbn in Hv. apply pages_of_In in H as (e' & H & _). lia.
Qed.

Lemma length_pages_of mem i t : (length (pages_of mem i t) <= length t)%nat.
Proof.
  revert i. induction t as [|e t IH]; intros i; cbn [pages_of]; [done|].
  rewrite length_app. specialize (IH (i + 1)). destruct (valid e); cbn [length]; lia.
Qed.

Lemma count_entries_eq mem t n :
  Z.of_nat (length t) = n -> count_entries valid t n = Ok (Z.of_nat (length (pages_of mem 0 t))).
Proof.
  intros Hn. unfold count_entries.
  destruct (for_loop_ind (fun i c => c = Z.of_nat (length (pages_of mem 0 (take (Z.to_nat i) t))))
    (Z.to_nat n) 0 (fun i c => e ← aget t i; Ok (if valid e then c + 1 else c)) 0) as (c & E & ->); [done| |].
  - intros i c Hi ->. destruct (aget_in_range t i) as [e Ee]; [lia|]. rewrite Ee. cbn [mbind res_bind].
    eexists. split; [reflexivity|]. apply aget_Ok in Ee as [_ Ee].
    replace (Z.to_nat (i + 1)) with (S (Z.to_nat i)) by lia. rewrite (take_S_r _ _ _ Ee), pages_of_app, length_app.
    cbn [pages_of]. rewrite app_nil_r. destruct (valid e); cbn [length]; lia.
  - rewrite E. do 3 f_equal. rewrite firstn_all2 by lia. done.
Qed.

Lemma length_freed t bs : length (freed t bs) = length bs.
Proof.
  unfold freed. revert bs. induction t as [|e t IH]; intros bs; cbn [foldl]; [done|].
  rewrite IH. destruct (valid e); [by rewrite length_insert|done].
Qed.

Definition evict (e : TranslationEntry) : TranslationEntry := set_valid e false.

Lemma evict_invalid e : valid e = false -> evict e = e.
Proof. intros H. unfold evict, set_valid. rewrite <- H. by destruct e. Qed.

(** The state of [SaveAThread] after the first [k] entries. *)
Record saving (mem : list Z) (t : list TranslationEntry) (bs : list bool) (fl : list Z) (k : nat)
    (s : Saving) : Prop := mkSv {
  sv_pt : s_pt s = map evict (take k t) ++ drop k t;
  sv_bitmap : brel (s_bitmap s) (freed (take k t) bs);
  sv_file : exists body, s_file s = fl ++ body /\ pages_in (pages_of mem 0 (take k t)) body;
  sv_offset : s_offset s = Z.of_nat (length (s_file s));
  sv_buf : (4 <= length (s_buf s))%nat }.

Lemma save_page_step mem t bs fl k s e :
  saving mem t bs fl k s -> t !! k = Some e -> valid e = true -> length bs = Z.to_nat NumPhysPages ->
  length mem = Z.to_nat MemorySize -> 0 <= ppn e < NumPhysPages -> (k < 1000)%nat ->
  exists s', save_page mem (Z.of_nat k) (Z.of_nat k) (ppn e) e s = Ok s' /\ saving mem t bs fl (S k) s'.
Proof.
  intros [H1 H2 (body & H3 & H3') H4 H5] He V Hb Hm Hp Hk. unfold save_page.
  pose proof (lookup_lt_Some _ _ _ He) as HL.
  assert (LT : length (map evict (take k t)) = k) by (rewrite length_map, length_take; lia).
  rewrite H1, aset_in_range by (rewrite length_app, LT, length_drop; lia). cbn [mbind res_bind].
  destruct (Clear_in (s_bitmap s) _ (ppn e) H2) as (bm' & -> & B').
  { rewrite length_freed, Hb. unfold NumPhysPages in *. lia. }
  destruct (sprintf_field (s_buf s) (Z.of_nat k)) as (buf' & -> & L5 & F5); [lia|done|].
  destruct (frame_read mem (ppn e) Hm Hp) as [EF LF]. unfold write_number. cbn [mbind res_bind].
  rewrite H4, unix_append. cbn [mbind res_bind]. rewrite EF. cbn [mbind res_bind].
  replace (Z.of_nat (length (s_file s)) + sizeof_int) with (Z.of_nat (length (s_file s ++ take 4 buf')))
    by (rewrite length_app; destruct F5 as [-> _]; unfold sizeof_int; lia).
  rewrite unix_append. cbn [mbind res_bind]. eexists. split; [reflexivity|].
  split; cbn [s_pt s_bitmap s_file s_offset s_buf]; rewrite ?(take_S_r _ _ _ He).
  - rewrite Nat2Z.id, (drop_S _ _ _ He), map_app, <- app_assoc. rewrite insert_app_r_alt by lia.
    rewrite LT, Nat.sub_diag. done.
  - unfold freed in *. rewrite foldl_app. cbn [foldl]. by rewrite V.
  - exists (body ++ take 4 buf' ++ frame mem (ppn e)). rewrite H3, <- !app_assoc. split; [done|].
    rewrite pages_of_app, length_take_le by lia. cbn [pages_of]. rewrite V, app_nil_r. by apply pages_in_snoc.
  - rewrite !length_app, LF. destruct F5 as [-> _]. unfold PageSize. lia.
  - lia.
Qed.

Lemma save_skip mem t bs fl k s e :
  saving mem t bs fl k s -> t !! k = Some e -> valid e = false -> saving mem t bs fl (S k) s.
Proof.
  intros [H1 H2 H3 H4 H5] He V. pose proof (lookup_lt_Some _ _ _ He). rewrite (drop_S _ _ _ He) in H1.
  split; rewrite ?(take_S_r _ _ _ He); try done.
  - rewrite H1, map_app, <- app_assoc. cbn [map app]. by rewrite evict_invalid.
  - unfold freed in *. rewrite foldl_app. cbn [foldl]. by rewrite V.
  - rewrite pages_of_app. cbn [pages_of]. rewrite V. cbn [app]. by rewrite app_nil_r.
Qed.

Lemma save_pages_spec mem t bs bm buf n :
  brel bm bs -> length bs = Z.to_nat NumPhysPages -> frames_ok t -> Z.of_nat (length t) = n -> n < 1000 ->
  length mem = Z.to_nat MemorySize -> (4 <= length buf)%nat ->
  exists s, save_pages t n bm [] buf valid (fun i e => save_page mem i i (ppn e) e) = Ok s /\
    s_pt s = map evict t /\ brel (s_bitmap s) (freed t bs) /\ thread_file (pages_of mem 0 t) (s_file s).
Proof.
  intros HB Hb HF Hn Hn1 Hm Hl. unfold save_pages. rewrite (count_entries_eq mem t n Hn). cbn [mbind res_bind].
  pose proof (length_pages_of mem 0 t).
  destruct (sprintf_field buf (Z.of_nat (length (pages_of mem 0 t)))) as (buf' & -> & L5 & F5); [lia|done|].
  cbn [mbind res_bind]. unfold write_number.
  assert (unix_WriteAt [] (take 4 buf') 0 = Ok (take 4 buf')) as -> by apply (unix_append []).
  cbn [mbind res_bind].
  match goal with |- context [for_loop ?a ?b ?c ?d] =>
    destruct (for_loop_ind (fun i s => saving mem t bs (take 4 buf') (Z.to_nat i) s) a b c d) as (s & E & HS) end.
  - change (Z.to_nat 0) with 0%nat. split; cbn; try done; [exists []; by rewrite app_nil_r| |lia].
    by destruct F5 as [-> _].
  - intros i s Hi HS. destruct (aget_in_range t i) as [e Ee]; [lia|]. apply aget_Ok in Ee as [_ Ee].
    assert (Es : aget (s_pt s) i = Ok e).
    { apply aget_Ok. split; [lia|]. rewrite (sv_pt _ _ _ _ _ _ HS).
      rewrite lookup_app_r; rewrite length_map, length_take; [|lia]. rewrite lookup_drop. rewrite <- Ee. f_equal. lia. }
    rewrite Es. cbn [mbind res_bind]. replace (Z.to_nat (i + 1)) with (S (Z.to_nat i)) by lia.
    destruct (valid e) eqn:V.
    + pose proof (save_page_step mem t bs (take 4 buf') (Z.to_nat i) s e HS Ee V Hb Hm) as W.
      rewrite Z2Nat.id in W by lia. apply W; [|lia].
      eapply Forall_lookup_1 in HF; [|exact Ee]. by apply HF.
    + exists s. split; [done|]. by eapply save_skip.
  - exists s. split; [exact E|]. replace (Z.to_nat (0 + Z.of_nat (Z.to_nat n))) with (length t) in HS by lia.
    destruct HS as [H1 H2 (body & H3 & H3') _ _]. rewrite firstn_all in *.
    rewrite drop_ge, app_nil_r in H1 by done. split_and!; [done..|]. by exists (take 4 buf'), body.
Qed.

(** ** Bringing the pages back *)

Lemma frame_write mem p pg mem' :
  mem_write mem (p * PageSize) pg = Ok mem' -> length mem = Z.to_nat MemorySize -> 0 <= p < NumPhysPages ->
  length pg = Z.to_nat PageSize ->
  frame mem' p = pg /\ forall q, 0 <= q -> q <> p -> frame mem' q = frame mem q.
Proof.
  intros E Hm Hp Hl. split.
  - pose proof (mem_read_write _ _ _ _ E) as R. rewrite Hl in R.
    destruct (frame_read mem' p) as [R' _]; [by rewrite (mem_write_length _ _ _ _ E)|done|]. congruence.
  - intros q Hq Hn. apply list_eq. intros i. unfold frame, PageSize in *. destruct (decide (i < 128)%nat).
    + rewrite !lookup_take_lt, !lookup_drop by lia. eapply mem_write_out; [exact E|]. rewrite Hl. lia.
    + by rewrite !lookup_take_ge by lia.
Qed.

Section load.
Context (cfg : Config) (t : tptr) (HR : USE_RPT cfg = false).

(** Thread [t] can take pages into its table [T]; the free frames are the clear
    bits of [bs]. *)
Record ready_for (u : UserSys) (T : list TranslationEntry) (bs : list bool) : Prop := mkReadyFor {
  rf_space : exists sp, spaces u !! t = Some sp /\ space_pt sp = Some T;
  rf_tid : is_Some (threads (kernel u) !! t);
  rf_bits : brel (mmBitmap (machine u)) bs;
  rf_length : length bs = Z.to_nat NumPhysPages;
  rf_mem : length (mainMemory (machine u)) = Z.to_nat MemorySize;
  rf_fifo : FIFO_REPLACE cfg = true -> 0 <= pageTableSize (machine u) <= Z.of_nat (length T);
  rf_clean : Forall (fun e => dirty e = false) T }.

(** What loading pages for [t] leaves alone. *)
Record untouched (u u' : UserSys) : Prop := mkUntouched {
  un_kernel : kernel u' = kernel u;
  un_regs : userRegisters u' = userRegisters u;
  un_files : vmFiles u' = vmFiles u /\ threadFiles u' = threadFiles u;
  un_machine : registers (machine u') = registers (machine u) /\
               executable (machine u') = executable (machine u) /\
               codeInFileAddr (machine u') = codeInFileAddr (machine u);
  un_spaces : forall x, x <> t -> spaces u' !! x = spaces u !! x }.

#[local] Instance untouched_po : PreOrder untouched.
Proof.
  split; [by split|]. intros a b c [A1 A2 [] (? & ? & ?) A5] [B1 B2 [] (? & ? & ?) B5].
  split; [congruence|congruence|split; congruence|split_and!; congruence|].
  intros x Hx. by rewrite B5, A5.
Qed.

(** [loadPageFrame] in the build with a page table per address space. *)
Lemma loadPageFrame_pt m T v p fa pg :
  pt m = Some T -> 0 <= v < Z.of_nat (length T) -> 0 <= p < NumPhysPages -> 0 <= fa ->
  (FIFO_REPLACE cfg = true -> 0 <= pageTableSize m <= Z.of_nat (length T)) ->
  Forall (fun e => dirty e = false) T -> length (mainMemory m) = Z.to_nat MemorySize ->
  take (Z.to_nat PageSize) (drop (Z.to_nat fa) (executable m)) = pg -> length pg = Z.to_nat PageSize ->
  exists e mem', loadPageFrame cfg m v p fa =
      Ok (with_memory (with_pt m (Some (<[Z.to_nat v := e]> T))) mem') /\
    valid e = true /\ ppn e = p /\ dirty e = false /\ mem_write (mainMemory m) (p * PageSize) pg = Ok mem'.
Proof.
  intros Ht Hv Hp Hfa HF HD HM Epg Hl. unfold loadPageFrame. rewrite Ht, HR. cbn [arr mbind res_bind].
  destruct (aget_in_range T v Hv) as [e0 E0]. rewrite E0. cbn [mbind res_bind].
  rewrite aset_in_range by done. cbn [mbind res_bind].
  assert (D0 : dirty e0 = false) by (apply aget_Ok in E0 as [_ E0]; by eapply Forall_lookup_1 in HD).
  set (e1 := mkEntry v (tID e0) p true (readOnly e0) (use e0) (dirty e0) (FIFOFlag e0) (LRUFlag e0)).
  set (T1 := <[Z.to_nat v := e1]> T).
  assert (exists e, (if FIFO_REPLACE cfg then updateFIFOFlag T1 v (pageTableSize m) else Ok T1)
      = Ok (<[Z.to_nat v := e]> T) /\ valid e = true /\ ppn e = p /\ dirty e = false)
    as (e & -> & V & P & D).
  { assert (E1 : aget T1 v = Ok e1) by (unfold T1; rewrite aget_insert by lia; by rewrite decide_True).
    destruct (FIFO_REPLACE cfg); [|by exists e1]. specialize (HF eq_refl).
    destruct (updateFIFOFlag_spec T1 v (pageTableSize m)) as (e & num & Ee & _ & ->);
      [unfold T1; by rewrite length_insert..|].
    rewrite E1 in Ee. injection Ee as <-. unfold T1. rewrite list_insert_insert_eq. by eexists. }
  cbn [mbind res_bind]. rewrite D0. cbn [mbind res_bind executable with_pt mainMemory].
  unfold unix_ReadAt. rewrite bool_decide_true by lia. cbn [ASSERT mbind res_bind]. rewrite Epg.
  rewrite mem_write_ok by (rewrite ?HM, ?Hl; unfold MemorySize, NumPhysPages, PageSize in *; lia).
  cbn [mbind res_bind]. by exists e, (splice (mainMemory m) (Z.to_nat (p * PageSize)) pg).
Qed.

(** Reading a number of the file. *)
Lemma read_field f buf off fl rest x :
  0 <= off -> drop (Z.to_nat off) f = fl ++ rest -> field x fl ->
  exists buf', read_number f buf off = Ok (x, buf').
Proof.
  intros Ho Hd [Hl Ha]. unfold read_number, unix_ReadAt. rewrite bool_decide_true by lia.
  cbn [ASSERT mbind res_bind]. rewrite Hd, take_app_length' by done. unfold splice.
  change (take 0 buf) with (@nil Z). cbn [app]. rewrite Ha. cbn [mbind res_bind]. by eexists.
Qed.

Lemma set_table_spec u sp x :
  kernel (set_table u t sp x) = kernel u /\
  spaces (set_table u t sp x) =
    <[t := mkSpace x (numPages sp) (currentOpenedFile sp) (currentNoffHeader sp)]> (spaces u) /\
  (machine (set_table u t sp x) = machine u \/ machine (set_table u t sp x) = with_pt (machine u) x) /\
  userRegisters (set_table u t sp x) = userRegisters u /\
  vmFiles (set_table u t sp x) = vmFiles u /\ threadFiles (set_table u t sp x) = threadFiles u.
Proof. unfold set_table. case_bool_decide; split_and!; try done; [by right|by left]. Qed.

(** One page of the file. *)
Lemma load_page_spec u T bs f buf off fl pg rest v q :
  ready_for u T bs -> 0 <= off -> drop (Z.to_nat off) f = fl ++ pg ++ rest -> field v fl ->
  length pg = Z.to_nat PageSize -> 0 <= v < Z.of_nat (length T) -> bs !! q = Some false ->
  exists (p : nat) u' buf' e, load_page cfg t f (u, buf, off) = Ok (u', buf', off + 4 + PageSize) /\
    ready_for u' (<[Z.to_nat v := e]> T) (<[p := true]> bs) /\ untouched u u' /\
    bs !! p = Some false /\ valid e = true /\ ppn e = Z.of_nat p /\
    frame (mainMemory (machine u')) (Z.of_nat p) = pg /\
    forall q, 0 <= q -> q <> Z.of_nat p -> frame (mainMemory (machine u')) q = frame (mainMemory (machine u)) q.
Proof.
  intros [(sp & Es & Ep) [th Eth] RB RL RM RF RC] Ho Hd Hf Hl Hv Hq.
  destruct (read_field f buf off fl _ v Ho Hd Hf) as [buf' En]. unfold load_page. rewrite En. cbn [mbind res_bind].
  destruct (BitSpec.first_clear bs) as [p|] eqn:Ec.
  2: { apply first_clear_None in Ec. eapply Forall_lookup_1 in Ec; [|exact Hq]. done. }
  apply first_clear_Some in Ec as [Ec1 Ec2].
  destruct (FindAndSet_at _ _ p RB Ec1 Ec2) as (bm' & EB & RB').
  unfold findAvailablePageFrame. rewrite EB. cbn [mbind res_bind]. rewrite bool_decide_false by lia.
  cbn [mbind res_bind]. apply lookup_lt_Some in Ec1 as Hp. rewrite RL in Hp.
  assert (Hp' : 0 <= Z.of_nat p < NumPhysPages) by (unfold NumPhysPages in *; lia).
  unfold Thread_loadPageFrame. cbn [kernel machine set_machine spaces]. rewrite HR, Es. unfold tid_of, get_thread.
  rewrite Eth. cbn [mbind res_bind].
  match goal with |- context [loadPageFrame cfg ?m v _ ?fa] =>
    destruct (loadPageFrame_pt m T v (Z.of_nat p) fa pg) as (e & mem' & -> & V & P & D & W) end; try done.
  { unfold sizeof_int. lia. }
  { cbn [executable with_pt with_program with_bitmap]. unfold sizeof_int.
    replace (Z.to_nat (off + 4)) with (Z.to_nat off + length fl)%nat by (destruct Hf as [-> _]; lia).
    rewrite <- drop_drop, Hd, drop_app_length, take_app_length' by done. done. }
  cbn [mbind res_bind]. destruct (frame_write _ _ _ _ W RM Hp' Hl) as [F1 F2].
  match goal with |- context [set_table ?a t sp ?b] => set (u1 := a); set (x := b) end.
  destruct (set_table_spec u1 sp x) as (S1 & S2 & S3 & S4 & S5 & S6).
  exists p, (set_table u1 t sp x), buf', e. split; [reflexivity|].
  assert (EM : mainMemory (machine (set_table u1 t sp x)) = mem') by (destruct S3 as [-> | ->]; done).
  rewrite EM. split_and!; try done.
  - split; rewrite ?EM, ?length_insert; try done.
    + eexists. rewrite S2, lookup_insert_eq. done.
    + rewrite S1. by eexists.
    + destruct S3 as [-> | ->]; done.
    + by rewrite (mem_write_length _ _ _ _ W).
    + destruct S3 as [-> | ->]; done.
    + apply Forall_insert; [done|by rewrite D].
  - split; try done.
    + destruct S3 as [-> | ->]; done.
    + intros y Hy. by rewrite S2, lookup_insert_ne.
Qed.

Lemma NumClear_pos bs : 0 < BitSpec.NumClear bs -> exists q, bs !! q = Some false.
Proof.
  intros H. destruct (BitSpec.first_clear bs) as [q|] eqn:E.
  - exists q. by apply first_clear_Some in E as [E _].
  - exfalso. apply first_clear_None in E. revert H. unfold BitSpec.NumClear.
    induction E as [|b bs -> _ IH]; [done|exact IH].
Qed.

(** The pages are in the table [T'], each in a frame of its own that was free;
    the other entries, and the frames that were in use, are as before. *)
Record restored (pages : list (Z * list Z)) (T T' : list TranslationEntry) (bs : list bool)
    (mem mem' : list Z) : Prop := mkRestored {
  rs_pages : forall v pg, (v, pg) ∈ pages -> exists (p : nat) e, T' !! Z.to_nat v = Some e /\ valid e = true /\
    ppn e = Z.of_nat p /\ bs !! p = Some false /\ frame mem' (ppn e) = pg;
  rs_apart : forall v1 v2 e1 e2, v1 ∈ pages.*1 -> v2 ∈ pages.*1 -> T' !! Z.to_nat v1 = Some e1 ->
    T' !! Z.to_nat v2 = Some e2 -> ppn e1 = ppn e2 -> v1 = v2;
  rs_others : forall v, 0 <= v -> v ∉ pages.*1 -> T' !! Z.to_nat v = T !! Z.to_nat v;
  rs_frames : forall p : nat, bs !! p = Some true -> frame mem' (Z.of_nat p) = frame mem (Z.of_nat p) }.

Lemma restored_cons v pg pages T e p T' bs mem mem1 mem2 :
  0 <= v < Z.of_nat (length T) -> v ∉ pages.*1 -> Forall (fun w => 0 <= w) (pages.*1) ->
  bs !! p = Some false -> valid e = true -> ppn e = Z.of_nat p -> frame mem1 (Z.of_nat p) = pg ->
  (forall q, 0 <= q -> q <> Z.of_nat p -> frame mem1 q = frame mem q) ->
  restored pages (<[Z.to_nat v := e]> T) T' (<[p := true]> bs) mem1 mem2 ->
  restored ((v, pg) :: pages) T T' bs mem mem2.
Proof.
  intros Hv Hn Hp Hb V P F1 F2 [R1 R2 R3 R4].
  assert (Ev : T' !! Z.to_nat v = Some e) by (rewrite R3 by (done || lia); apply list_lookup_insert_eq; lia).
  pose proof (lookup_lt_Some _ _ _ Hb) as Lp.
  assert (Bp : <[p := true]> bs !! p = Some true) by (by apply list_lookup_insert_eq).
  assert (A : forall w pg' e', (w, pg') ∈ pages -> T' !! Z.to_nat w = Some e' -> ppn e' <> Z.of_nat p).
  { intros w pg' e' Hw He' Hpp. destruct (R1 _ _ Hw) as (p' & e2 & E2 & _ & P2 & B2 & _).
    assert (e2 = e') as -> by congruence. assert (p' = p) as -> by lia. congruence. }
  split.
  - intros w pg' [[= -> ->]|Hw]%elem_of_cons.
    + exists p, e. split_and!; try done. rewrite P, R4 by done. done.
    + destruct (R1 _ _ Hw) as (p' & e' & E' & V' & P' & B' & F'). exists p', e'. split_and!; try done.
      destruct (decide (p' = p)) as [->|Hpp]; [congruence|]. by rewrite list_lookup_insert_ne in B'.
  - intros v1 v2 e1 e2 H1 H2 E1 E2 EP. cbn [fmap list_fmap] in H1, H2.
    apply elem_of_cons in H1 as [->|H1], H2 as [->|H2]; cbn [fst] in *.
    + done.
    + apply list_elem_of_fmap in H2 as ([w pg'] & -> & H2). exfalso. eapply (A w pg' e2); [done..|]. congruence.
    + apply list_elem_of_fmap in H1 as ([w pg'] & -> & H1). exfalso. eapply (A w pg' e1); [done..|]. congruence.
    + by eapply R2.
  - intros w Hw Hn'. cbn [fmap list_fmap] in Hn'. apply not_elem_of_cons in Hn' as [N1 N2]. cbn [fst] in N1.
    rewrite R3 by done. rewrite list_lookup_insert_ne; [done|lia].
  - intros q Hq. assert (q <> p) by congruence. rewrite R4 by (by rewrite list_lookup_insert_ne).
    apply F2; lia.
Qed.

Lemma load_pages_spec f pages u T bs buf off rest lo :
  ready_for u T bs -> 0 <= off -> drop (Z.to_nat off) f = rest -> pages_in pages rest ->
  NoDup (pages.*1) -> Forall (fun v => 0 <= v < Z.of_nat (length T)) (pages.*1) ->
  Z.of_nat (length pages) <= BitSpec.NumClear bs ->
  exists u' buf' off' T' bs',
    for_loop (length pages) lo (fun _ => load_page cfg t f) (u, buf, off) = Ok (u', buf', off') /\
    ready_for u' T' bs' /\ untouched u u' /\
    restored pages T T' bs (mainMemory (machine u)) (mainMemory (machine u')).
Proof.
  revert u T bs buf off rest lo. induction pages as [|[v pg] pages IH]; intros u T bs buf off rest lo R Ho Hd Hp HN HF HC.
  { exists u, buf, off, T, bs. split_and!; [done..|]. split; try done.
    - intros v pg H. by apply not_elem_of_nil in H.
    - intros v1 v2 e1 e2 H. by apply not_elem_of_nil in H. }
  destruct Hp as (fl & rest' & Hf & Hl & -> & Hp). cbn [fmap list_fmap fst] in HN, HF.
  apply NoDup_cons in HN as [Hv HN]. apply Forall_cons in HF as [Hv0 HF].
  destruct (NumClear_pos bs) as [q Hq]; [cbn [length] in HC; lia|].
  destruct (load_page_spec u T bs f buf off fl pg rest' v q R Ho Hd Hf Hl Hv0 Hq)
    as (p & u1 & buf1 & e & E1 & R1 & U1 & B1 & V1 & P1 & F1 & F2).
  cbn [length for_loop]. rewrite E1. cbn [mbind res_bind].
  destruct (IH u1 _ _ buf1 (off + 4 + PageSize) rest' (lo + 1) R1) as (u2 & buf2 & off2 & T2 & bs2 & E2 & R2 & U2 & S2).
  - unfold PageSize. lia.
  - replace (Z.to_nat (off + 4 + PageSize)) with (Z.to_nat off + length (fl ++ pg))%nat
      by (rewrite length_app, Hl; destruct Hf as [-> _]; unfold PageSize; lia).
    rewrite <- drop_drop, Hd, app_assoc. apply drop_app_length.
  - done.
  - done.
  - by rewrite length_insert.
  - rewrite NumClear_mark by done. cbn [length] in HC. lia.
  - exists u2, buf2, off2, T2, bs2. split; [exact E2|]. split; [done|]. split; [by etransitivity|].
    eapply restored_cons; try done. eapply Forall_impl; [exact HF|]. intros w Hw. apply Hw.
Qed.
End load.

(** ** The scheduler with the option -dt

    [Machine::Run] then wakes, suspends and restores threads between two
    instructions of a user program (machine/mipssim.cc). *)

(** What the four routines that the option calls do to the kernel, on any state of
    the user programs. *)
Inductive dtstep (typeno : Z) : kstate -> kstate -> Prop :=
| dt_kernel s s' : kstep typeno s s' -> dtstep typeno s s'
| dt_awake k k' : awakeAThead k = Ok k' -> dtstep typeno (Runs k) (Runs k')
| dt_suspend cfg u u' buf :
    suspendAThread cfg u buf = Ok u' -> dtstep typeno (Runs (kernel u)) (Runs (kernel u'))
| dt_restore cfg u u' buf :
    restoreAThread cfg u buf = Ok u' -> dtstep typeno (Runs (kernel u)) (Runs (kernel u')).

#[local] Abbreviation status := Sched.status.

Definition kernel_of (s : kstate) : Kernel := match s with Runs k | Idles k _ => k end.
Definition status_of (k : Kernel) (t : tptr) : option ThreadStatus := status <$> threads k !! t.

(** The fifth place: the suspended threads are those of [suspendList]. *)
Definition suspended_ok (k : Kernel) : Prop :=
  NoDup (suspendList k) /\ forall t, status_of k t = Some SUSPENDED <-> t ∈ suspendList k.

(** What leaves the suspended threads alone. *)
Definition calm (k k' : Kernel) : Prop :=
  suspendList k' = suspendList k /\
  forall t, status_of k' t = Some SUSPENDED <-> status_of k t = Some SUSPENDED.

Lemma calm_trans k1 k2 k3 : calm k1 k2 -> calm k2 k3 -> calm k1 k3.
Proof. intros [E1 H1] [E2 H2]. split; [congruence|]. intros t. by rewrite H2, H1. Qed.

Lemma calm_suspended k k' : calm k k' -> suspended_ok k -> suspended_ok k'.
Proof. intros [E H] [N S]. split; [by rewrite E|]. intros t. by rewrite H, S, E. Qed.

Lemma calm_threads k k' : suspendList k' = suspendList k -> threads k' = threads k -> calm k k'.
Proof. intros E T. split; [done|]. intros t. unfold status_of. by rewrite T. Qed.

(** One thread changes its status, and was and is not suspended. *)
Lemma calm_one k k' t : suspendList k' = suspendList k ->
  (forall x, x <> t -> threads k' !! x = threads k !! x) ->
  status_of k t <> Some SUSPENDED -> status_of k' t <> Some SUSPENDED -> calm k k'.
Proof.
  intros E H H1 H2. split; [done|]. intros x. destruct (decide (x = t)) as [->|N]; [done|].
  unfold status_of. by rewrite H.
Qed.

(** ** The operations of the scheduler leave suspended threads alone *)

Lemma ReadyToRun_suspendList typeno k t k' : ReadyToRun typeno k t = Ok k' -> suspendList k' = suspendList k.
Proof. unfold ReadyToRun. intros E. destruct (Seq.IsInList t (blockList k)); inv_res; by destruct a2; inv_res. Qed.

Lemma FindNextToRun_same typeno k o k' :
  FindNextToRun typeno k = Ok (o, k') -> suspendList k' = suspendList k /\ threads k' = threads k.
Proof. unfold FindNextToRun. intros E. inv_res. by destruct a0; inv_res; simplify_eq. Qed.

Lemma Run_suspendList k n fin k' : Run k n fin = Ok k' -> suspendList k' = suspendList k.
Proof.
  unfold Run. intros E. apply bind_Ok in E as (_ & _ & E). apply bind_Ok in E as (k1 & E1 & E).
  assert (suspendList k1 = suspendList k) as <- by (destruct fin; inv_res; done).
  apply bind_Ok in E as (_ & _ & E). apply bind_Ok in E as (ths & _ & E).
  clear E1. rewrite CheckToBeDestroyed_eq in E. destruct (toBeDestroyed _); inv_res; done.
Qed.

Section policy.
Context (typeno : Z) `{!Policy typeno}.

Lemma ReadyToRun_calm k cur lim t th k' :
  inv typeno k cur lim -> threads k !! t = Some th -> status th <> READY -> status th <> SUSPENDED ->
  ReadyToRun typeno k t = Ok k' -> calm k k'.
Proof.
  intros I Et Hr Hs E. destruct (ReadyToRun_inv typeno k cur lim t th I Et Hr) as (k1 & E1 & I1 & R1 & _ & X1 & (th' & T1 & _)).
  rewrite E in E1. injection E1 as <-. apply (calm_one _ _ t); [by eapply ReadyToRun_suspendList|done|..];
    unfold status_of; [rewrite Et|rewrite T1]; cbn; [congruence|].
  assert (status th' = READY) as ->; [|done]. apply (inv_READY _ _ _ _ I1 t th' T1). left. rewrite R1. left.
Qed.

Lemma Run_calm k n fin k' :
  inv typeno k None (Some n) -> (fin = true -> status_of k (currentThread k) = Some BLOCKED) ->
  Run k n fin = Ok k' -> calm k k'.
Proof.
  intros I Hf E. destruct (Run_inv typeno k n fin _ I eq_refl Hf) as (k1 & E1 & I1 & X1 & _).
  rewrite E in E1. injection E1 as <-. split; [by eapply Run_suspendList|]. intros x. unfold status_of.
  destruct (decide (x = n)) as [->|N].
  - destruct (inv_lim _ _ _ _ I n eq_refl) as [_ [nh En]].
    assert (status nh = READY) by (apply (inv_READY _ _ _ _ I n nh En); by right).
    rewrite En. destruct (threads k' !! n) as [nh'|] eqn:En'; cbn; [|split; congruence].
    assert (status nh' = RUNNING) by (by apply (inv_RUNNING _ _ _ _ I1 n nh' En')). split; congruence.
  - rewrite X1 by done. destruct (decide (fin = true /\ x = currentThread k)) as [[D ->]|]; [|done].
    specialize (Hf D). unfold status_of in Hf. rewrite Hf. done.
Qed.

Lemma wake_calm k fin r :
  inv typeno k None None -> (fin = true -> status_of k (currentThread k) = Some BLOCKED) ->
  wake typeno k fin = Ok r -> calm k (slept_kernel r).
Proof.
  intros I Hf E. unfold wake in E.
  destruct (FindNext_inv typeno k None I) as [[_ E1]|(n & k1 & E1 & I1 & _ & C1 & T1 & _)]; rewrite E1 in E; cbn in E.
  - injection E as <-. by apply calm_threads.
  - apply FindNextToRun_same in E1 as [S1 _]. apply bind_Ok in E as (k2 & E2 & E). injection E as <-. cbn.
    eapply calm_trans; [by apply (calm_threads k k1)|]. apply (Run_calm k1 n fin); [done| |done].
    unfold status_of in *. by rewrite C1, T1.
Qed.

Lemma Yield_calm k c k' : inv typeno k (Some c) None -> Yield typeno k = Ok k' -> calm k k'.
Proof.
  intros I E. unfold Yield in E. pose proof (inv_cur _ _ _ _ I c eq_refl) as Ec.
  destruct (FindNext_inv typeno k (Some c) I) as [[_ E1]|(n & k1 & E1 & I1 & _ & C1 & T1 & _)]; rewrite E1 in E; cbn in E.
  { injection E as <-. by apply calm_threads. }
  apply FindNextToRun_same in E1 as [S1 _]. apply bind_Ok in E as (k2 & E2 & E).
  eapply calm_trans; [by apply (calm_threads k k1)|].
  destruct (inv_old _ _ _ _ I1) as [ch Ech]. rewrite C1, Ec in *.
  assert (Hc : status ch = RUNNING) by (by apply (inv_RUNNING _ _ _ _ I1 c)).
  assert (H : status ch <> READY) by congruence. assert (H' : status ch <> SUSPENDED) by congruence.
  pose proof (ReadyToRun_calm k1 _ _ c ch k2 I1 Ech H H' E2) as HC. eapply calm_trans; [exact HC|].
  destruct (ReadyToRun_inv typeno k1 (Some c) (Some n) c ch I1 Ech H) as (k2' & E2' & I2 & _).
  rewrite decide_True in I2 by done. rewrite E2 in E2'. injection E2' as <-. by apply (Run_calm k2 n false).
Qed.

Lemma block_calm k c k' : inv typeno k (Some c) None -> blockAThread k c = Ok k' -> calm k k'.
Proof.
  intros I E. destruct (block_inv typeno k c I) as (k1 & E1 & I1 & _ & S1 & _ & X1). rewrite E in E1. injection E1 as <-.
  pose proof (inv_cur _ _ _ _ I c eq_refl) as Ec. destruct (inv_old _ _ _ _ I) as [ch Ech]. rewrite Ec in Ech.
  assert (Hc : status ch = RUNNING) by (by apply (inv_RUNNING _ _ _ _ I c)).
  apply (calm_one _ _ c); [unfold blockAThread in E; by inv_res|done|unfold status_of; rewrite Ech; cbn; congruence|].
  unfold status_of. by rewrite S1.
Qed.

Lemma Sleep_calm k c fin r : inv typeno k (Some c) None -> Sleep typeno k fin = Ok r -> calm k (slept_kernel r).
Proof.
  intros I E. pose proof (inv_cur _ _ _ _ I c eq_refl) as Ec.
  rewrite Sleep_wake, Ec in E by apply I. apply bind_Ok in E as (k1 & E1 & E2).
  pose proof (block_calm _ _ _ I E1) as HC. eapply calm_trans; [exact HC|].
  destruct (block_inv typeno k c I) as (k1' & E1' & I1 & C1 & S1 & _). rewrite E1 in E1'. injection E1' as <-.
  apply (wake_calm k1 fin); [done| |done]. intros _. unfold status_of. by rewrite C1.
Qed.

Lemma newThread_calm k c t p r k' :
  inv typeno k (Some c) None -> threads k !! t = None -> newThread typeno k t p r = Ok k' -> calm k k'.
Proof.
  intros I Et E. destruct (newThread_inv typeno k c t p r I Et) as [[_ E1]|(k1 & E1 & _ & S1 & X1)]; rewrite E in E1; [done|].
  injection E1 as <-. apply (calm_one _ _ t); [|done|unfold status_of; by rewrite Et|unfold status_of; by rewrite S1].
  unfold newThread in E. destruct (free_slot 0 (threadArray k)); [|done]. by inv_res.
Qed.

Lemma kstep_calm s s' : kstate_ok typeno s -> kstep typeno s s' -> calm (kernel_of s) (kernel_of s').
Proof.
  intros H S. destruct S as [k k' t p0 r0 Ht E|k k' t Ht E|k k' E|k k' E|k k' fin E|k k' fin E|k k' t Ht E|k k' fin t Ht Hne E|k k' fin E];
    cbn in H |- *.
  - by eapply newThread_calm.
  - destruct (threads k !! t) as [th|] eqn:Et; [|done]. cbn in Ht. injection Ht as Ht.
    eapply ReadyToRun_calm; [exact H|exact Et|congruence|congruence|exact E].
  - unfold Fork_check in E. case_bool_decide; [|injection E as <-; by apply calm_threads].
    inv_res. destruct a as [f|]; [|done]. inv_res. case_bool_decide; [by eapply Yield_calm|].
    injection E as <-. by apply calm_threads.
  - by eapply Yield_calm.
  - exact (Sleep_calm _ _ _ _ H E).
  - exact (Sleep_calm _ _ _ _ H E).
  - destruct (threads k !! t) as [th|] eqn:Et; [|done]. cbn in Ht. injection Ht as Ht.
    eapply ReadyToRun_calm; [exact H|exact Et|congruence|congruence|exact E].
  - destruct H as [I _]. destruct (threads k !! t) as [th|] eqn:Et; [|done]. cbn in Ht. injection Ht as Ht.
    eapply ReadyToRun_calm; [exact I|exact Et|congruence|congruence|exact E].
  - destruct H as [I HB]. exact (wake_calm _ _ _ I HB E).
Qed.

Lemma ksteps_suspended s s' :
  kstate_ok typeno s -> suspended_ok (kernel_of s) -> rtc (kstep typeno) s s' -> suspended_ok (kernel_of s').
Proof.
  intros H HS HR. revert H HS. induction HR as [|s1 s2 s3 S _ IH]; intros H HS; [done|].
  apply IH; [by eapply kstep_ok|]. eapply calm_suspended; [by eapply kstep_calm|done].
Qed.

End policy.

(** ** What the option does to the kernel *)

Lemma SaveAThread_kernel cfg u t fname buf u' : SaveAThread cfg u t fname buf = Ok u' -> kernel u' = kernel u.
Proof.
  unfold SaveAThread. intros E. apply bind_Ok in E as (f & _ & E). destruct (USE_RPT cfg).
  - inv_res. done.
  - destruct (spaces u !! t) as [sp|]; [|done]. cbn in E. inv_res. cbn. by rewrite (proj1 (set_table_spec _ _ _ _)).
Qed.

Lemma load_page_kernel cfg t f s s' : load_page cfg t f s = Ok s' -> kernel s'.1.1 = kernel s.1.1.
Proof.
  destruct s as [[u buf] offset]. unfold load_page. intros E. apply bind_Ok in E as ([v b] & _ & E).
  apply bind_Ok in E as ([fr m] & _ & E). apply bind_Ok in E as (fr' & _ & E).
  apply bind_Ok in E as (u1 & E1 & E). injection E as <-. cbn. unfold Thread_loadPageFrame in E1.
  apply bind_Ok in E1 as (tid & _ & E1). destruct (USE_RPT cfg).
  - inv_res. done.
  - destruct (spaces (set_machine u m) !! t) as [sp|]; [|done]. cbn in E1. inv_res. by rewrite (proj1 (set_table_spec _ _ _ _)).
Qed.

Lemma LoadAThread_kernel cfg u t fname buf u' : LoadAThread cfg u t fname buf = Ok u' -> kernel u' = kernel u.
Proof.
  unfold LoadAThread. intros E. apply bind_Ok in E as (f & _ & E). apply bind_Ok in E as ([n b] & _ & E).
  apply bind_Ok in E as ([[u1 b1] o1] & E1 & E). injection E as <-.
  apply (for_loop_inv (fun _ s => kernel s.1.1 = kernel u)) in E1; [done|done|].
  intros i s s' _ H HS. apply load_page_kernel in HS. congruence.
Qed.

Lemma suspend_kernel cfg u u' buf : suspendAThread cfg u buf = Ok u' ->
  exists t l th, blockList (kernel u) = t :: l /\ threads (kernel u) !! t = Some th /\ (t ∉ suspendList (kernel u)) /\
    kernel u' = with_threads (with_suspendList (with_blockList (kernel u) l) (suspendList (kernel u) ++ [t]))
                  (<[t := setStatus th SUSPENDED]> (threads (kernel u))).
Proof.
  unfold suspendAThread. intros E. apply bind_Ok in E as ([t l] & E1 & E). apply bind_Ok in E as (tid & _ & E).
  apply bind_Ok in E as (sl & E2 & E). apply bind_Ok in E as (u1 & E3 & E). apply bind_Ok in E as (ths & E4 & E).
  injection E as <-. apply SaveAThread_kernel in E3. cbn in E3. rewrite E3 in *. cbn [threads with_suspendList with_blockList] in E4.
  unfold upd_thread, get_thread in E4. destruct (threads (kernel u) !! t) as [th|] eqn:Et; [|done]. cbn in E4. injection E4 as <-.
  unfold Seq.Append, Seq.IsInList in E2. apply bind_Ok in E2 as ([] & HA & E2). injection E2 as <-.
  apply ASSERT_Ok, negb_true_iff, bool_decide_eq_false in HA.
  destruct (blockList (kernel u)) as [|b bl]; [done|]. injection E1 as -> ->. by exists t, l, th.
Qed.

Lemma restore_kernel cfg u u' buf : restoreAThread cfg u buf = Ok u' ->
  exists t l th, suspendList (kernel u) = t :: l /\ threads (kernel u) !! t = Some th /\
    (t ∉ readyList (queues (kernel u))) /\
    kernel u' = with_threads (with_queues (with_suspendList (kernel u) l)
        (mkQueues (readyList (queues (kernel u)) ++ [t]) (sortedReadyList (queues (kernel u))) (threadArrQueue (queues (kernel u)))))
      (<[t := setStatus th READY]> (threads (kernel u))).
Proof.
  unfold restoreAThread. intros E. apply bind_Ok in E as ([t l] & E1 & E). apply bind_Ok in E as (tid & _ & E).
  apply bind_Ok in E as (u1 & E3 & E). apply bind_Ok in E as (r & E2 & E). apply bind_Ok in E as (ths & E4 & E).
  injection E as <-. apply LoadAThread_kernel in E3. cbn in E3. rewrite E3 in *. cbn [threads with_queues with_suspendList queues] in *.
  unfold upd_thread, get_thread in E4. destruct (threads (kernel u) !! t) as [th|] eqn:Et; [|done]. cbn in E4. injection E4 as <-.
  unfold Seq.Append, Seq.IsInList in E2. apply bind_Ok in E2 as ([] & HA & E2). injection E2 as <-.
  apply ASSERT_Ok, negb_true_iff, bool_decide_eq_false in HA.
  destruct (suspendList (kernel u)) as [|b bl] eqn:Es; [done|]. injection E1 as -> ->. by exists t, l, th.
Qed.

(** ** With one ready list: policies 0 and 2 *)

Lemma remove1_head (t : tptr) l : t ∉ l -> Seq.Remove t (t :: l) = Ok l.
Proof.
  intros H. unfold Seq.Remove, Seq.IsInList. cbn [Seq.remove1]. rewrite decide_True by done.
  rewrite (bool_decide_true (t ∈ t :: l)) by left. by rewrite bool_decide_false.
Qed.

(** Waking the first blocked thread is making it ready under the FIFO policy. *)
Lemma awake_ready cur k t l th :
  inv 0 k cur None -> blockList k = t :: l -> threads k !! t = Some th -> awakeAThead k = ReadyToRun 0 k t.
Proof.
  intros I Eb Et. pose proof (inv_block _ _ _ _ I) as NB. rewrite Eb in NB. apply NoDup_cons in NB as [Hn _].
  unfold awakeAThead, ReadyToRun. rewrite Eb, (inv_level _ _ _ _ I). unfold Seq.IsInList at 1.
  rewrite !bool_decide_true, remove1_head by first [done|left]. cbn [Seq.RemoveFront mbind res_bind ASSERT].
  cbn [threads with_blockList]. rewrite (upd_thread_Ok _ _ _ _ Et). cbn [mbind res_bind]. unfold enqueue.
  rewrite bool_decide_false, (bool_decide_true (0 = 0)), (bool_decide_false (0 = 2)) by done. cbn [orb mbind res_bind].
  unfold Seq.Append. cbn [queues with_blockList]. by destruct (ASSERT _).
Qed.

Lemma awake_fifo c k k' :
  inv 0 k (Some c) None -> awakeAThead k = Ok k' -> inv 0 k' (Some c) None /\ calm k k'.
Proof.
  intros I E. destruct (blockList k) as [|t l] eqn:Eb; [unfold awakeAThead in E; by rewrite Eb in E|].
  destruct (threads k !! t) as [th|] eqn:Et.
  2:{ unfold awakeAThead, upd_thread, get_thread in E. rewrite Eb in E. cbn in E. by rewrite Et in E. }
  rewrite (awake_ready _ _ _ _ _ I Eb Et) in E.
  assert (HB : status th = JUST_CREATED \/ status th = BLOCKED).
  { destruct (decide (status th = JUST_CREATED)) as [|N]; [by left|right].
    apply (inv_BLOCKED _ _ _ _ I t th Et N). rewrite Eb. left. }
  assert (H1 : status th <> READY) by (destruct HB; congruence).
  assert (H2 : status th <> SUSPENDED) by (destruct HB; congruence).
  assert (H3 : Some c <> Some t).
  { intros Ec. apply (inv_RUNNING _ _ _ _ I t th Et) in Ec. destruct HB; congruence. }
  split; [|exact (ReadyToRun_calm 0 k _ _ t th k' I Et H1 H2 E)].
  destruct (ReadyToRun_inv 0 k (Some c) None t th I Et H1) as (k1 & E1 & I1 & _). rewrite E in E1. injection E1 as <-.
  by rewrite decide_False in I1.
Qed.

Lemma insert_status (ths : gmap tptr Thread) t s x :
  status <$> (<[t := s]> ths) !! x = if decide (x = t) then Some (status s) else status <$> ths !! x.
Proof. case_decide; [subst; by rewrite lookup_insert_eq|by rewrite lookup_insert_ne]. Qed.

Lemma suspend_fifo c cfg u u' buf :
  inv 0 (kernel u) (Some c) None -> suspended_ok (kernel u) -> suspendAThread cfg u buf = Ok u' ->
  inv 0 (kernel u') (Some c) None /\ suspended_ok (kernel u').
Proof.
  intros I [NS HS] E. destruct (suspend_kernel _ _ _ _ E) as (t & l & th & Eb & Et & Hs & ->). clear E.
  pose proof I as [IL IC IO IR IB IA IT IQ IRE IBL IRU ILI ISL ID]. set (k := kernel u) in *.
  assert (HB : status th = JUST_CREATED \/ status th = BLOCKED).
  { destruct (decide (status th = JUST_CREATED)) as [|N]; [by left|right]. apply (IBL t th Et N). rewrite Eb. left. }
  rewrite Eb in IB. apply NoDup_cons in IB as [Hl NL].
  assert (HC : forall x xh, <[t := setStatus th SUSPENDED]> (threads k) !! x = Some xh ->
    (x = t /\ xh = setStatus th SUSPENDED) \/ (x <> t /\ threads k !! x = Some xh)).
  { intros x xh Ex. destruct (decide (x = t)) as [->|]; [left; by simplify_map_eq|right]. by rewrite lookup_insert_ne in Ex. }
  assert (HS2 : forall x, is_Some (threads k !! x) -> is_Some (<[t := setStatus th SUSPENDED]> (threads k) !! x)).
  { intros x Hx. destruct (decide (x = t)) as [->|]; [rewrite lookup_insert_eq; by eexists|by rewrite lookup_insert_ne]. }
  split.
  - split; cbn [threads with_threads with_suspendList with_blockList level currentThread queues blockList threadArray toBeDestroyed];
      try done; auto.
    + intros x xh [[-> ->]|[N Ex]]%HC; cbn; [|by apply IRE]. split; [done|]. intros H. apply (IRE t th Et) in H.
      destruct HB; congruence.
    + intros x xh [[-> ->]|[N Ex]]%HC Hj; cbn; [done|]. rewrite (IBL x xh Ex Hj), Eb, elem_of_cons. naive_solver.
    + intros x xh [[-> ->]|[N Ex]]%HC; cbn; [|by apply IRU]. split; [done|]. intros H. apply (IRU t th Et) in H.
      destruct HB; congruence.
    + intros x xh [[-> ->]|[N Ex]]%HC; [exact (ISL t th Et)|by apply ISL].
  - split; cbn [suspendList with_threads with_suspendList].
    + apply NoDup_app. split_and!; [done| |by apply NoDup_singleton]. by intros x Hx ->%list_elem_of_singleton.
    + intros x. unfold status_of. cbn [threads with_threads]. rewrite insert_status, elem_of_app, list_elem_of_singleton, <- HS.
      unfold status_of. fold k. case_decide; [cbn; naive_solver|naive_solver].
Qed.

Lemma restore_fifo c cfg u u' buf :
  inv 0 (kernel u) (Some c) None -> suspended_ok (kernel u) -> restoreAThread cfg u buf = Ok u' ->
  inv 0 (kernel u') (Some c) None /\ suspended_ok (kernel u').
Proof.
  intros I [NS HS] E. destruct (restore_kernel _ _ _ _ E) as (t & l & th & Es & Et & Hr & Ek). clear E.
  set (k := kernel u) in *. assert (Hst : status th = SUSPENDED).
  { assert (E : status_of k t = Some SUSPENDED) by (apply HS; rewrite Es; left). unfold status_of in E. rewrite Et in E. by injection E. }
  rewrite Es in NS. apply NoDup_cons in NS as [Hl NL].
  assert (Hb : t ∉ blockList k).
  { intros H. apply (inv_BLOCKED _ _ _ _ I t th Et) in H; congruence. }
  assert (I0 : inv 0 (with_suspendList k l) (Some c) None) by (destruct I; by split).
  assert (H1 : status th <> READY) by congruence.
  assert (H3 : Some c <> Some t).
  { intros Ec. apply (inv_RUNNING _ _ _ _ I t th Et) in Ec. congruence. }
  destruct (ReadyToRun_inv 0 _ (Some c) None t th I0 Et H1) as (k1 & E1 & I1 & _).
  rewrite decide_False in I1 by done.
  assert (k1 = kernel u') as ->; [|split; [done|]].
  { unfold ReadyToRun in E1. cbn [level with_suspendList blockList] in E1. rewrite (inv_level _ _ _ _ I) in E1.
    unfold Seq.IsInList in E1. rewrite (bool_decide_true (IntOff = IntOff)), (bool_decide_false (t ∈ blockList k)) in E1 by done.
    cbn [ASSERT mbind res_bind threads with_suspendList] in E1. rewrite (upd_thread_Ok _ _ _ _ Et) in E1.
    cbn [mbind res_bind] in E1. unfold enqueue in E1.
    rewrite bool_decide_false, (bool_decide_true (0 = 0)), (bool_decide_false (0 = 2)) in E1 by done.
    cbn [orb mbind res_bind queues with_suspendList] in E1. rewrite Append_ok in E1 by done. cbn in E1.
    injection E1 as <-. by rewrite Ek. }
  rewrite Ek. split; cbn [suspendList with_threads with_queues with_suspendList]; [done|].
  intros x. unfold status_of. cbn [threads with_threads]. rewrite insert_status. case_decide as D.
  - subst x. cbn. split; [done|]. by intros ?.
  - specialize (HS x). unfold status_of in HS. fold k. rewrite HS, Es, elem_of_cons. naive_solver.
Qed.

(** The two policies have the same invariant. *)
Lemma inv_fifo k cur : inv 2 k cur None <-> inv 0 k cur None.
Proof. split; intros []; by split. Qed.

Lemma dtstep_ok typeno `{!Policy typeno} s s' :
  (forall k cur, inv typeno k cur None <-> inv 0 k cur None) ->
  kstate_ok typeno s -> suspended_ok (kernel_of s) -> dtstep typeno s s' ->
  kstate_ok typeno s' /\ suspended_ok (kernel_of s').
Proof.
  intros HI H HS HD. destruct HD as [s s' S|k k' E|cfg u u' buf E|cfg u u' buf E].
  - split; [by eapply kstep_ok|]. eapply calm_suspended; [by eapply kstep_calm|done].
  - cbn in *. apply HI in H. destruct (awake_fifo _ _ _ H E) as [I HC]. split; [|by eapply calm_suspended].
    apply HI. by rewrite (inv_cur _ _ _ _ I _ eq_refl).
  - cbn in *. apply HI in H. destruct (suspend_fifo _ _ _ _ _ H HS E) as [I HC]. split; [|done].
    apply HI. by rewrite (inv_cur _ _ _ _ I _ eq_refl).
  - cbn in *. apply HI in H. destruct (restore_fifo _ _ _ _ _ H HS E) as [I HC]. split; [|done].
    apply HI. by rewrite (inv_cur _ _ _ _ I _ eq_refl).
Qed.

Lemma dtsteps_ok typeno `{!Policy typeno} s s' :
  (forall k cur, inv typeno k cur None <-> inv 0 k cur None) ->
  kstate_ok typeno s -> suspended_ok (kernel_of s) -> rtc (dtstep typeno) s s' ->
  kstate_ok typeno s' /\ suspended_ok (kernel_of s').
Proof.
  intros HI H HS HR. revert H HS. induction HR as [|s1 s2 s3 S _ IH]; intros H HS; [done|].
  destruct (dtstep_ok typeno s1 s2 HI H HS S). by apply IH.
Qed.

(** Under the policies 1 and 3 the first blocked thread is awoken into a list that
    nobody reads. *)
Lemma awake_lost typeno `{!Policy typeno} k c k' :
  (forall q, ready q = ready_of typeno q) -> typeno = 1 \/ typeno = 3 ->
  inv typeno k (Some c) None -> awakeAThead k = Ok k' -> ~ one_place typeno k' true.
Proof.
  intros HR Ht I E (_ & _ & _ & HP). destruct (blockList k) as [|t l] eqn:Eb; [unfold awakeAThead in E; by rewrite Eb in E|].
  unfold awakeAThead in E. rewrite Eb in E. cbn [Seq.RemoveFront mbind res_bind] in E. inv_res.
  unfold upd_thread, get_thread in Hm. destruct (threads k !! t) as [th|] eqn:Et; [|done]. cbn in Hm. injection Hm as <-.
  destruct (HP t (setStatus th READY)) as [[H _] _]; [cbn; by rewrite lookup_insert_eq|]. specialize (H eq_refl). cbn in H.
  assert (Hin : t ∈ ready (queues k)).
  { rewrite HR. unfold ready_of in *. cbn in H. destruct Ht as [-> | ->]; exact H. }
  assert (HS : status th = READY) by (apply (inv_READY _ _ _ _ I t th Et); by left).
  assert (HB : status th = BLOCKED) by (apply (inv_BLOCKED _ _ _ _ I t th Et); [congruence|rewrite Eb; left]).
  congruence.
Qed.

Lemma boot_suspended p r : suspended_ok (boot p r).
Proof.
  split; [constructor|]. intros t. unfold status_of. cbn. rewrite elem_of_nil. split; [|done].
  destruct (decide (t = 1%positive)) as [->|N]; [by rewrite lookup_singleton_eq|by rewrite lookup_singleton_ne].
Qed.

(** Policies 0 and 2 with the option. *)
Lemma dtsteps_places typeno p r s : typeno = 0 \/ typeno = 2 -> rtc (dtstep typeno) (boot_state p r) s ->
  state_places typeno s /\ suspended_ok (kernel_of s).
Proof.
  intros Ht HS. assert (exists HP : Policy typeno, (forall q, ready q = ready_of typeno q) /\ kstate_ok typeno s /\
    suspended_ok (kernel_of s)) as (HP & HR & H & Hs).
  { destruct Ht as [-> | ->].
    - exists fifo_policy. split; [done|]. apply (dtsteps_ok 0 (boot_state p r)); [done|by apply boot_ok|apply boot_suspended|done].
    - exists rr_policy. split; [done|]. apply (dtsteps_ok 2 (boot_state p r)); [exact inv_fifo|by apply boot_ok|apply boot_suspended|done]. }
  split; [|done]. destruct s as [k|k fin]; cbn in *.
  - apply (inv_one_place typeno k _ HR H). by right.
  - destruct H as [H _]. apply (inv_one_place typeno k _ HR H). by left.
Qed.

Lemma ksteps_suspended_boot typeno p r s :
  0 <= typeno <= 3 -> (typeno = 3 -> -1 <= p <= 4) -> rtc (kstep typeno) (boot_state p r) s ->
  suspended_ok (kernel_of s).
Proof.
  intros Ht Hp. apply (all_policies (fun typeno => rtc (kstep typeno) (boot_state p r) s -> suspended_ok (kernel_of s)) _ Ht).
  intros HP HR HT. apply (ksteps_suspended typeno (boot_state p r) s); [|apply boot_suspended].
  apply boot_ok. by apply HT.
Qed.
