(* ===== verification/SuspendClaims.v ===== *)
(** * Suspending and restoring threads: the theorems *)

From S2P Require Import Prelude Bytes Bitmap BitmapProofs Lists Sched SchedProofs SchedClaims Machine MachineProofs Mips UserProg Suspend SuspendProofs.

(** Thread [t] has a page table [T] whose valid entries name frames; [bs] is the
    map of the frames in use. *)
Record suspendable (u : UserSys) (t : tptr) (T : list TranslationEntry) (bs : list bool) : Prop := mkSuspendable {
  su_space : exists sp, spaces u !! t = Some sp /\ space_pt sp = Some T /\ numPages sp = Z.of_nat (length T);
  su_size : Z.of_nat (length T) < 1000;
  su_frames : frames_ok T;
  su_clean : Forall (fun e => dirty e = false) T;
  su_bits : brel (mmBitmap (machine u)) bs /\ length bs = Z.to_nat NumPhysPages;
  su_mem : length (mainMemory (machine u)) = Z.to_nat MemorySize }.

(** The number of valid entries. *)
Definition valid_pages (T : list TranslationEntry) : Z := Z.of_nat (length (filter (fun e => valid e = true) T)).

Lemma length_pages_valid mem i T : length (pages_of mem i T) = length (filter (fun e => valid e = true) T).
Proof.
  revert i. induction T as [|e T IH]; intros i; cbn [pages_of]; [done|]. rewrite length_app, IH.
  rewrite filter_cons. case_decide as V; [by rewrite V|]. by destruct (valid e).
Qed.

(** Which frames are in use when the pages of [T] have been given back. *)
Lemma freed_lookup T bs (p : nat) :
  frames_ok T -> length bs = Z.to_nat NumPhysPages ->
  freed T bs !! p = Some true <->
  bs !! p = Some true /\ forall e, e ∈ T -> valid e = true -> ppn e <> Z.of_nat p.
Proof.
  intros HF Hl. unfold freed. revert bs Hl. induction T as [|e T IH]; intros bs Hl; cbn [foldl].
  { split; [|by intros [? _]]. intros H. split; [done|]. intros e H'. by apply not_elem_of_nil in H'. }
  apply Forall_cons in HF as [He HF]. rewrite IH; [|done|by destruct (valid e); rewrite ?length_insert].
  destruct (valid e) eqn:V.
  - specialize (He eq_refl). destruct (decide (p = Z.to_nat (ppn e))) as [->|Hp].
    + rewrite list_lookup_insert_eq by (rewrite Hl; unfold NumPhysPages in *; lia). split; [by intros [[=] _]|].
      intros [_ H]. exfalso. apply (H e); [by left|done|lia].
    + rewrite list_lookup_insert_ne by done. split; intros [H1 H2]; (split; [done|]).
      * intros e' [->|H]%elem_of_cons V'; [lia|by apply H2].
      * intros e' H V'. apply H2; [by right|done].
  - split; intros [H1 H2]; (split; [done|]).
    + intros e' [->|H]%elem_of_cons V'; [congruence|by apply H2].
    + intros e' H V'. apply H2; [by right|done].
Qed.

(** The first half: [suspendAThread]. *)
Lemma suspend_spec cfg u t l T bs th buf :
  USE_RPT cfg = false -> suspendable u t T bs ->
  blockList (kernel u) = t :: l -> t ∉ suspendList (kernel u) -> threads (kernel u) !! t = Some th ->
  (4 <= length buf)%nat ->
  exists u1 sp1 f, suspendAThread cfg u buf = Ok u1 /\
    kernel u1 = with_threads (with_suspendList (with_blockList (kernel u) l) (suspendList (kernel u) ++ [t]))
                  (<[t := setStatus th SUSPENDED]> (threads (kernel u))) /\
    spaces u1 !! t = Some sp1 /\ space_pt sp1 = Some (map evict T) /\
    brel (mmBitmap (machine u1)) (freed T bs) /\ mainMemory (machine u1) = mainMemory (machine u) /\
    pageTableSize (machine u1) = pageTableSize (machine u) /\ userRegisters u1 = userRegisters u /\
    threadFiles u1 !! threadID th = Some f /\ thread_file (pages_of (mainMemory (machine u)) 0 T) f.
Proof.
  intros HR [(sp & Es & Ep & En) HS HF HC [HB HL] HM] Hb Hs Ht Hbuf. unfold suspendAThread.
  rewrite Hb. cbn [Seq.RemoveFront mbind res_bind]. unfold tid_of, get_thread. rewrite Ht. cbn [mbind res_bind].
  unfold Seq.Append. unfold Seq.IsInList. rewrite bool_decide_false by done. cbn [negb ASSERT mbind res_bind].
  unfold SaveAThread. cbn [threadFiles set_kernel set_threadFiles machine spaces]. rewrite lookup_insert_eq, HR, Es.
  cbn [mbind res_bind]. rewrite Ep. cbn [arr mbind res_bind].
  destruct (save_pages_spec (mainMemory (machine u)) T bs (mmBitmap (machine u)) buf (numPages sp))
    as (s & -> & S1 & S2 & S3); try done. { lia. }
  cbn [mbind res_bind].
  match goal with |- context [set_table ?a t sp ?b] => set (u0 := a); set (x := b) end.
  destruct (set_table_spec t u0 sp x) as (E1 & E2 & E3 & E4 & E5 & E6).
  cbn [kernel set_threadFiles]. rewrite E1. unfold upd_thread, get_thread.
  change (threads (kernel u0)) with (threads (kernel u)). rewrite Ht. cbn [mbind res_bind].
  eexists _, _, (s_file s). split; [reflexivity|]. cbn [kernel set_kernel spaces set_threadFiles machine userRegisters threadFiles].
  rewrite E2, lookup_insert_eq, lookup_insert_eq. split_and!; try done.
  - cbn [space_pt]. unfold x. by rewrite S1.
  - destruct E3 as [-> | ->]; exact S2.
  - by destruct E3 as [-> | ->].
  - by destruct E3 as [-> | ->].
Qed.

(** Thread [t], with the table [T] and the file [f], is at the front of the
    suspended threads; [bs] is the map of the frames in use. *)
Record resumable (cfg : Config) (u : UserSys) (t : tptr) (th : Thread) (T : list TranslationEntry)
    (f : list Z) (bs : list bool) : Prop := mkResumable {
  re_list : head (suspendList (kernel u)) = Some t;
  re_thread : threads (kernel u) !! t = Some th;
  re_ready : t ∉ readyList (queues (kernel u));
  re_file : threadFiles u !! threadID th = Some f;
  re_space : ready_for cfg t u T bs }.

(** The second half: [restoreAThread]. *)
Lemma restore_spec cfg u t th T f bs pages buf :
  USE_RPT cfg = false -> resumable cfg u t th T f bs -> thread_file pages f ->
  NoDup (pages.*1) -> Forall (fun v => 0 <= v < Z.of_nat (length T)) (pages.*1) ->
  Z.of_nat (length pages) <= BitSpec.NumClear bs ->
  exists u3 sp3 T3 bs3, restoreAThread cfg u buf = Ok u3 /\
    spaces u3 !! t = Some sp3 /\ space_pt sp3 = Some T3 /\ brel (mmBitmap (machine u3)) bs3 /\
    restored pages T T3 bs (mainMemory (machine u)) (mainMemory (machine u3)) /\
    userRegisters u3 = userRegisters u /\ registers (machine u3) = registers (machine u) /\
    readyList (queues (kernel u3)) = readyList (queues (kernel u)) ++ [t] /\
    suspendList (kernel u3) = tail (suspendList (kernel u)) /\
    threads (kernel u3) !! t = Some (setStatus th READY) /\ threadFiles u3 !! threadID th = None.
Proof.
  intros HR [Hs Ht Hr Hf R] (fl & body & F0 & -> & HP) HN HF HC.
  destruct (suspendList (kernel u)) as [|t' l] eqn:El; [done|]. injection Hs as ->.
  unfold restoreAThread. rewrite El. cbn [Seq.RemoveFront mbind res_bind]. unfold tid_of, get_thread.
  rewrite Ht. cbn [mbind res_bind]. unfold LoadAThread. cbn [threadFiles set_kernel]. rewrite Hf. cbn [mbind res_bind].
  destruct (read_field (fl ++ body) buf 0 fl body _ ltac:(lia) eq_refl F0) as [buf1 ->]. cbn [mbind res_bind].
  rewrite Nat2Z.id.
  assert (R' : ready_for cfg t (set_kernel u (with_suspendList (kernel u) l)) T bs) by (destruct R; by split).
  destruct (load_pages_spec cfg t HR (fl ++ body) pages _ T bs buf1 sizeof_int body 0 R')
    as (u2 & buf2 & off2 & T2 & bs2 & -> & R2 & U2 & S2); try done.
  { destruct F0 as [L0 _]. change (Z.to_nat sizeof_int) with 4%nat. rewrite <- L0. apply drop_app_length. }
  cbn [mbind res_bind]. destruct U2 as [U1 U2 [U3 U3'] (U4 & _) U5]. rewrite U1.
  cbn [kernel set_kernel queues with_suspendList]. unfold Seq.Append, Seq.IsInList.
  rewrite bool_decide_false by done. cbn [negb ASSERT mbind res_bind]. unfold upd_thread, get_thread.
  cbn [threads with_queues with_suspendList]. rewrite Ht. cbn [mbind res_bind].
  destruct R2 as [(sp2 & E2 & P2) _ B2 _ _ _ _].
  eexists _, sp2, T2, bs2. split; [reflexivity|].
  cbn [spaces kernel machine userRegisters threadFiles set_kernel set_threadFiles with_threads with_queues with_suspendList queues readyList suspendList threads tail].
  rewrite lookup_insert_eq, lookup_delete_eq. split_and!; try done.
Qed.

(** C15: a suspended thread comes back, in the build with a page table per program
    (without USE_RPT).  The first blocked thread has an address space of fewer than
    1000 pages, none of them dirty (no page ever is).  [suspendAThread] takes it, gives
    back exactly the frames of its resident pages, invalidates its table and changes
    no memory.  From any later state in which the thread's table and its file are as
    they were left, it is the first of the suspended threads and not on [readyList], as
    many frames are free as it had resident pages, and, with FIFO_REPLACE, the table
    of the running program is not larger than its own (see [ready_for]):
    [restoreAThread] succeeds, puts the thread on [readyList], and every page that was
    resident is so again with the same contents, in a frame of its own that was
    free; its other pages are as they were, no frame that was in use is touched, and
    the saved registers are still there.  With fewer free frames [LoadAThread] takes
    frames that are in use. *)
Theorem suspend_restore_roundtrip (cfg : Config) (u : UserSys) (t : tptr) (l : list tptr) (th : Thread)
    (T : list TranslationEntry) (bs : list bool) (buf : list Z) :
  USE_RPT cfg = false -> suspendable u t T bs ->
  blockList (kernel u) = t :: l -> t ∉ suspendList (kernel u) -> threads (kernel u) !! t = Some th ->
  (4 <= length buf)%nat ->
  exists u1 bs1 f, suspendAThread cfg u buf = Ok u1 /\
    blockList (kernel u1) = l /\ suspendList (kernel u1) = suspendList (kernel u) ++ [t] /\
    threads (kernel u1) !! t = Some (setStatus th SUSPENDED) /\ queues (kernel u1) = queues (kernel u) /\
    spaces u1 !! t ≫= space_pt = Some (map evict T) /\
    mainMemory (machine u1) = mainMemory (machine u) /\ pageTableSize (machine u1) = pageTableSize (machine u) /\
    brel (mmBitmap (machine u1)) bs1 /\
    (forall p : nat, bs1 !! p = Some true <->
       bs !! p = Some true /\ forall e, e ∈ T -> valid e = true -> ppn e <> Z.of_nat p) /\
    threadFiles u1 !! threadID th = Some f /\
    forall u2 th2 bs2 buf2, threadID th2 = threadID th -> resumable cfg u2 t th2 (map evict T) f bs2 ->
      valid_pages T <= BitSpec.NumClear bs2 ->
      exists u3 T3, restoreAThread cfg u2 buf2 = Ok u3 /\ spaces u3 !! t ≫= space_pt = Some T3 /\
        readyList (queues (kernel u3)) = readyList (queues (kernel u2)) ++ [t] /\
        userRegisters u3 = userRegisters u2 /\ threadFiles u3 !! threadID th = None /\
        (forall (v : nat) e, T !! v = Some e -> valid e = true -> exists (p : nat) e3, T3 !! v = Some e3 /\
           valid e3 = true /\ ppn e3 = Z.of_nat p /\ bs2 !! p = Some false /\
           frame (mainMemory (machine u3)) (ppn e3) = frame (mainMemory (machine u)) (ppn e)) /\
        (forall (v w : nat) e1 e2, (valid <$> T !! v) = Some true -> (valid <$> T !! w) = Some true ->
           T3 !! v = Some e1 -> T3 !! w = Some e2 -> ppn e1 = ppn e2 -> v = w) /\
        (forall (v : nat) e, T !! v = Some e -> valid e = false -> T3 !! v = Some e) /\
        (forall p : nat, bs2 !! p = Some true ->
           frame (mainMemory (machine u3)) (Z.of_nat p) = frame (mainMemory (machine u2)) (Z.of_nat p)).
Proof.
  intros HR HS Hb Hs Ht Hbuf. set (mem := mainMemory (machine u)). set (pages := pages_of mem 0 T).
  destruct (suspend_spec cfg u t l T bs th buf HR HS Hb Hs Ht Hbuf)
    as (u1 & sp1 & f & E & Ek & Es & Ep & EB & EM & EZ & ER & Ef & HF).
  exists u1, (freed T bs), f. rewrite Ek, Es. cbn. rewrite lookup_insert_eq.
  assert (HP : forall (v : nat) pg, (Z.of_nat v, pg) ∈ pages <->
            exists e, T !! v = Some e /\ valid e = true /\ pg = frame mem (ppn e)).
  { intros v pg. unfold pages. rewrite pages_of_In, Z.sub_0_r, Nat2Z.id. split; [naive_solver|].
    intros (e & H). exists e. split; [lia|done]. }
  assert (HI : forall v, v ∈ pages.*1 -> exists (w : nat) e, v = Z.of_nat w /\ T !! w = Some e /\ valid e = true).
  { intros v ([v' pg] & -> & H)%list_elem_of_fmap. unfold pages in H. apply pages_of_In in H as (e & H0 & H1 & H2 & _).
    exists (Z.to_nat v'), e. rewrite Z.sub_0_r in *. cbn. split; [lia|done]. }
  assert (HJ : forall v : nat, (valid <$> T !! v) = Some true -> Z.of_nat v ∈ pages.*1).
  { intros v Hv. apply fmap_Some in Hv as (e & He & V). apply list_elem_of_fmap.
    exists (Z.of_nat v, frame mem (ppn e)). split; [done|]. apply HP. by exists e. }
  split_and!; try done.
  - intros p. apply freed_lookup; apply HS.
  - intros u2 th2 bs2 buf2 Hid HRe HC.
    destruct (restore_spec cfg u2 t th2 (map evict T) f bs2 pages buf2 HR HRe HF)
      as (u3 & sp3 & T3 & bs3 & E3 & Es3 & Ep3 & B3 & [S1 S2 S3 S4] & U1 & U2 & U3 & U4 & U5 & U6).
    + apply pages_of_NoDup.
    + apply Forall_forall. intros v (w & e & -> & Hw & _)%HI. rewrite length_map.
      apply lookup_lt_Some in Hw. lia.
    + unfold pages. rewrite length_pages_valid. exact HC.
    + exists u3, T3. rewrite Es3, <- Hid. cbn. split_and!; try done.
      * intros v e He V. destruct (S1 (Z.of_nat v) (frame mem (ppn e))) as (p & e3 & E3' & V3 & P3 & B3' & F3).
        { apply HP. by exists e. } rewrite Nat2Z.id in E3'. by exists p, e3.
      * intros v w e1 e2 Hv Hw E1 E2 EP. apply Nat2Z.inj. eapply S2; rewrite ?Nat2Z.id; eauto.
      * intros v e He V. rewrite <- (Nat2Z.id v), S3; [|lia|].
        { rewrite Nat2Z.id, list_lookup_fmap, He. cbn. by rewrite evict_invalid. }
        intros (w & e' & Ew & Hw & V')%HI. apply Nat2Z.inj in Ew as <-. congruence.
Qed.

(** Thread 1, with one page in frame 0, is blocked; thread 2 runs. *)
Definition demo_page : TranslationEntry := mkEntry 0 (-1) 0 true false false false 0 (-1).
Definition demo_suspend : UserSys :=
  let noff := let s := mkSegment 0 0 0 in mkNoff NOFFMAGIC s s s s in
  let m := mkMachine (replicate 40 0) (replicate (Z.to_nat PageSize) 7 ++ replicate (Z.to_nat (127 * PageSize)) 0)
             None None 0 (BitmapImpl.mkBitmap 128 4 [1; 0; 0; 0]) 1 [] 0 None 0 0 0 SystemMode in
  let k := mkKernel {[1%positive := mkThread BLOCKED 0 0 0; 2%positive := mkThread RUNNING 0 0 1]}
             (Some 1%positive :: Some 2%positive :: replicate 126 None) IntOff 2%positive newQueues []
             [1%positive] None in
  mkUser k m noff None ∅ {[1%positive := mkSpace (Some (demo_page :: replicate 8 reset_entry)) 9 [] noff]} ∅ ∅.

Definition demo_bits : list bool := true :: replicate 127 false.

Lemma demo_suspendable :
  suspendable demo_suspend 1%positive (demo_page :: replicate 8 reset_entry) demo_bits.
Proof.
  split.
  - eexists. split; [reflexivity|done].
  - done.
  - constructor; [by intros _|]. by apply Forall_replicate.
  - constructor; [done|]. by apply Forall_replicate.
  - split; [|done]. split; [|vm_compute; reflexivity]. split; [done|]. split_and!; try done.
    repeat (constructor; [unfold is_u32; cbn; lia|]). constructor.
  - vm_compute. reflexivity.
Qed.

Lemma suspend_restore_roundtrip_witness :
  let cfg := mkConfig false false true false false in
  exists u1 u3 T3 e3,
    suspendAThread cfg demo_suspend (replicate 100 65) = Ok u1 /\
    BitSpec.NumClear (bits (mmBitmap (machine u1))) = 128 /\
    restoreAThread cfg u1 (replicate 100 66) = Ok u3 /\ spaces u3 !! 1%positive ≫= space_pt = Some T3 /\
    T3 !! 0%nat = Some e3 /\ valid e3 = true /\
    frame (mainMemory (machine u3)) (ppn e3) = replicate 128 7.
Proof.
  intros cfg.
  destruct (suspend_restore_roundtrip cfg demo_suspend 1%positive [] (mkThread BLOCKED 0 0 0)
    (demo_page :: replicate 8 reset_entry) demo_bits (replicate 100 65))
    as (u1 & bs1 & f & E1 & B1 & L1 & H1 & Q1 & S1 & M1 & Z1 & R1 & F1 & G1 & K).
  - reflexivity.
  - exact demo_suspendable.
  - reflexivity.
  - apply not_elem_of_nil.
  - reflexivity.
  - cbn. lia.
  - assert (A : BitSpec.NumClear (bits (mmBitmap (machine u1))) = 128 /\ length (bits (mmBitmap (machine u1))) = 128%nat).
    { assert (W : match suspendAThread cfg demo_suspend (replicate 100 65) with
                  | Ok u => BitSpec.NumClear (bits (mmBitmap (machine u))) = 128 /\ length (bits (mmBitmap (machine u))) = 128%nat
                  | _ => False end) by (vm_compute; split; reflexivity).
      rewrite E1 in W. exact W. }
    pose proof R1 as [R2 R3]. rewrite <- R3 in A. destruct A as [A1 A2].
    destruct (K u1 (mkThread SUSPENDED 0 0 0) bs1 (replicate 100 66)) as (u3 & T3 & E3 & S3 & _ & _ & _ & P3 & _).
    + reflexivity.
    + split; [by rewrite L1|exact H1|rewrite Q1; apply not_elem_of_nil|exact G1|].
      apply bind_Some in S1 as (sp & Es & S1).
      split; [exists sp; split; [exact Es|exact S1]|rewrite H1; eexists; reflexivity|exact R1|exact A2| | |].
      * rewrite M1. vm_compute. reflexivity.
      * intros _. rewrite Z1. cbn [machine demo_suspend pageTableSize]. lia.
      * repeat (constructor; [reflexivity|]). constructor.
    + rewrite A1. vm_compute. discriminate.
    + destruct (P3 0%nat demo_page eq_refl eq_refl) as (p & e3 & L3 & V3 & _ & _ & F3).
      exists u1, u3, T3, e3. rewrite <- R3. split_and!; [exact E1|exact A1|exact E3|exact S3|exact L3|exact V3|].
      rewrite F3. vm_compute. reflexivity.
Defined.

(** ** Every thread in its place, with the option -dt *)

(** C6: every thread is in exactly one place.  Without the debugging option -dt: in
    every state the kernel can reach from start-up by creating, forking, yielding,
    sleeping, finishing and readying threads, with idle periods, under each of the
    four scheduling policies, no thread is lost, queued twice, or both waiting and
    running, and none is suspended.  With the option, whose routines wake the first
    blocked thread, suspend it to a file (a UNIX file, in the FILESYS_STUB build) and
    restore the first suspended one at any time, the same holds under the FIFO and round-robin policies, the suspended
    threads being those of [suspendList].  It does not under the other two: every
    [awakeAThead] that succeeds there puts the thread on a list that nobody reads.
    Only blocked threads are readied: the option also breaks the rule when a thread
    it has suspended is the next that a semaphore wakes. *)
Theorem scheduler_one_place (typeno p r : Z) (s : kstate) :
  0 <= typeno <= 3 -> (typeno = 3 -> -1 <= p <= 4) ->
  (rtc (kstep typeno) (boot_state p r) s -> state_places typeno s /\ suspended_ok (kernel_of s)) /\
  (typeno = 0 \/ typeno = 2 -> rtc (dtstep typeno) (boot_state p r) s ->
     state_places typeno s /\ suspended_ok (kernel_of s)) /\
  (typeno = 1 \/ typeno = 3 -> forall k k', rtc (kstep typeno) (boot_state p r) (Runs k) ->
     awakeAThead k = Ok k' -> ~ one_place typeno k' true).
Proof.
  intros Ht Hp. split_and!.
  - intros HS. split; [by apply kstep_places with p r|by apply (ksteps_suspended_boot typeno p r)].
  - apply dtsteps_places.
  - intros D k k' HS E. destruct (reachable_inv typeno p r k Ht Hp HS) as (HP & HR & H). by eapply awake_lost.
Qed.

(** Thread 2 blocks itself, and the main thread wakes it. *)
Definition dt_kernel_state : res Kernel :=
  k ← newThread 0 (boot 0 0) 2%positive 0 0; k ← Fork_ready 0 k 2%positive; k ← Yield 0 k;
  s ← Sleep 0 k false; awakeAThead (slept_kernel s).
Definition dt_demo : Kernel := match dt_kernel_state with Ok k => k | _ => boot 0 0 end.

Lemma dt_reachable : rtc (dtstep 0) (boot_state 0 0) (Runs dt_demo).
Proof.
  eapply rtc_l; [eapply dt_kernel, (step_new 0 _ _ 2%positive 0 0); vm_compute; reflexivity|].
  eapply rtc_l; [eapply dt_kernel, (step_fork 0 _ _ 2%positive); vm_compute; reflexivity|].
  eapply rtc_l; [eapply dt_kernel, step_yield; vm_compute; reflexivity|].
  eapply rtc_l; [eapply dt_kernel, (step_sleep 0 _ _ false); vm_compute; reflexivity|].
  eapply rtc_l; [eapply dt_awake; vm_compute; reflexivity|]. apply rtc_refl.
Defined.

Lemma scheduler_one_place_witness :
  readyList (queues dt_demo) = [2%positive] /\ one_place 0 dt_demo true /\
  one_place 3 demo_after true.
Proof.
  split; [vm_compute; reflexivity|]. split.
  - destruct (scheduler_one_place 0 0 0 (Runs dt_demo)) as (_ & H & _); [lia|lia|].
    exact (proj1 (H (or_introl eq_refl) dt_reachable)).
  - destruct (scheduler_one_place 3 0 0 (Runs demo_after)) as (H & _); [lia|lia|]. exact (proj1 (H demo_reachable)).
Defined.
