(* ===== verification/Console.v ===== *)
(** * machine/console.cc, userprog/synchconsole.cc: keyboard and display

    The two console devices, on the clock and the pending interrupts of their
    component, the monitors that make their calls wait, and the routine that echoes
    what is typed, [Kernel::ConsoleTest].

    A routine is cut where it may block or be preempted: a thread is at a point of
    [GetChar] or [PutChar], and any thread that is not blocked may go to its next
    point.  As in the network, a semaphore is its value, and a lock is a semaphore
    and its holder.  The environment types bytes and may close the keyboard, which
    is the end of the file when the input comes from a file. *)

From S2P Require Import Prelude Lists Sched Interrupt.
Import Interrupt.Interrupt.

Definition ConsoleTime : Z := 100.
Definition EOF : Z := -1.

(** A byte as a [char], which is signed on the hosts. *)
Definition to_char (b : Z) : Z := (b + 128) mod 256 - 128.

(** [readFile]: the bytes that have been typed and not been read; [writeFile]: what
    is on the display. *)
Record ConsoleInput : Type := mkConsoleInput { readFile : list Z; closed : bool; incoming : Z }.
Record ConsoleOutput : Type := mkConsoleOutput { writeFile : list Z; putBusy : bool }.

Record SynchConsoleInput : Type := mkSynchIn {
  consoleInput : ConsoleInput; inLock : Z; inHolder : option Z; inWait : Z }.
Record SynchConsoleOutput : Type := mkSynchOut {
  consoleOutput : ConsoleOutput; outLock : Z; outHolder : option Z; outWait : Z }.

(** What the interrupt handlers reach, with two counters of [Statistics]. *)
Record Consoles : Type := mkConsoles {
  synchConsoleIn : SynchConsoleInput; synchConsoleOut : SynchConsoleOutput;
  numConsoleCharsRead : Z; numConsoleCharsWritten : Z }.

Section console.
(** The addresses of the devices. *)
Context (inDev outDev : Z).

(** ** The devices *)

Definition newConsoleInput (i : Interrupt) : res (Interrupt * ConsoleInput) :=
  i ← Schedule i inDev ConsoleTime ConsoleReadInt; Ok (i, mkConsoleInput [] false EOF).

(** A read would not block. *)
Definition PollFile (n : ConsoleInput) : bool := bool_decide (readFile n <> []) || closed n.

(** The last component says whether [callWhenAvail] is called. *)
Definition ConsoleInput_CallBack (i : Interrupt) (n : ConsoleInput) (numRead : Z)
    : res (Interrupt * ConsoleInput * Z * bool) :=
  _ ← ASSERT (bool_decide (incoming n = EOF));
  if negb (PollFile n) then
    i ← Schedule i inDev ConsoleTime ConsoleReadInt; Ok (i, n, numRead, false)
  else
    match readFile n with
    | [] => Ok (i, n, numRead, true)
    | c :: rest => Ok (i, mkConsoleInput rest (closed n) (to_char c), i32 (numRead + 1), true)
    end.

Definition ConsoleInput_GetChar (i : Interrupt) (n : ConsoleInput) : res (Z * Interrupt * ConsoleInput) :=
  let c := incoming n in
  i ← (if bool_decide (incoming n <> EOF) then Schedule i inDev ConsoleTime ConsoleReadInt else Ok i);
  Ok (c, i, mkConsoleInput (readFile n) (closed n) EOF).

Definition newConsoleOutput : ConsoleOutput := mkConsoleOutput [] false.

Definition ConsoleOutput_CallBack (n : ConsoleOutput) (numWritten : Z) : ConsoleOutput * Z :=
  (mkConsoleOutput (writeFile n) false, i32 (numWritten + 1)).

Definition ConsoleOutput_PutChar (i : Interrupt) (n : ConsoleOutput) (c : Z) : res (Interrupt * ConsoleOutput) :=
  _ ← ASSERT (bool_decide (putBusy n = false));
  i ← Schedule i outDev ConsoleTime ConsoleWriteInt;
  Ok (i, mkConsoleOutput (writeFile n ++ [c]) true).

(** ** The monitors *)

Definition newSynchConsoleInput (i : Interrupt) : res (Interrupt * SynchConsoleInput) :=
  '(i, n) ← newConsoleInput i; Ok (i, mkSynchIn n 1 None 0).
Definition newSynchConsoleOutput : SynchConsoleOutput := mkSynchOut newConsoleOutput 1 None 0.

Definition SynchConsoleInput_CallBack (p : SynchConsoleInput) : SynchConsoleInput :=
  mkSynchIn (consoleInput p) (inLock p) (inHolder p) (i32 (inWait p + 1)).
Definition SynchConsoleOutput_CallBack (q : SynchConsoleOutput) : SynchConsoleOutput :=
  mkSynchOut (consoleOutput q) (outLock q) (outHolder q) (i32 (outWait q + 1)).

(** The handlers of the two devices, each with the one it calls. *)
#[global] Instance console_devices : Devices Consoles := {|
  CallBack a i d :=
    let p := synchConsoleIn d in
    let q := synchConsoleOut d in
    if bool_decide (a = inDev) then
      '(i, n, nr, told) ← ConsoleInput_CallBack i (consoleInput p) (numConsoleCharsRead d);
      let p := mkSynchIn n (inLock p) (inHolder p) (inWait p) in
      Ok (i, mkConsoles (if (told : bool) then SynchConsoleInput_CallBack p else p) q nr (numConsoleCharsWritten d))
    else if bool_decide (a = outDev) then
      let '(n, nw) := ConsoleOutput_CallBack (consoleOutput q) (numConsoleCharsWritten d) in
      let q := mkSynchOut n (outLock q) (outHolder q) (outWait q) in
      Ok (i, mkConsoles p (SynchConsoleOutput_CallBack q) (numConsoleCharsRead d) nw)
    else Undef;
  DelayedLoad00 d := Ok d |}.

(** ** Threads *)

(** Before which call a thread is: in [SynchConsoleInput::GetChar], in
    [SynchConsoleOutput::PutChar], or in neither. *)
Inductive point : Type :=
  Returned | GAcquire | GWait | GGet | GRelease | PAcquire | PPut | PWait | PRelease.

#[global] Instance point_eq_dec : EqDecision point.
Proof. solve_decision. Defined.

(** [ch]: the local variable or the argument; [testing]: the caller is [ConsoleTest]. *)
Record Caller : Type := mkCaller { at_ : point; ch : Z; testing : bool }.

(** What is recorded for the theorems: [GetChar] returns a character to a thread,
    a thread calls [PutChar], the device writes the character. *)
Inductive event : Type :=
| Got (t c : Z)
| Asked (t c : Z)
| Shown (t c : Z).

(** A machine; [typed] and [log] record what has happened. *)
Record Station : Type := mkStation {
  intr : Interrupt; consoles : Consoles; threads : gmap Z Caller; typed : list Z; log : list event }.

Definition caller (C : Station) (t : Z) : Caller := default (mkCaller Returned 0 false) (threads C !! t).

Definition set_in (d : Consoles) (p : SynchConsoleInput) : Consoles :=
  mkConsoles p (synchConsoleOut d) (numConsoleCharsRead d) (numConsoleCharsWritten d).
Definition set_out (d : Consoles) (q : SynchConsoleOutput) : Consoles :=
  mkConsoles (synchConsoleIn d) q (numConsoleCharsRead d) (numConsoleCharsWritten d).

(** Caller [t] has gone on, with the devices [i] and [d], and something happened. *)
Definition goes_to (C : Station) (t : Z) (th : Caller) (i : Interrupt) (d : Consoles) (es : list event)
    : res (option Station) :=
  Ok (Some (mkStation i d (<[t := th]> (threads C)) (typed C) (log C ++ es))).

Definition at_point (th : Caller) (p : point) : Caller := mkCaller p (ch th) (testing th).

(** What follows [GetChar] and [PutChar]: the loop of [ConsoleTest], or nothing. *)
Definition after_GetChar (t : Z) (th : Caller) : Caller * list event :=
  if testing th then
    if bool_decide (ch th <> EOF) then (at_point th PAcquire, [Asked t (ch th)])
    else (mkCaller Returned (ch th) false, [])
  else (at_point th Returned, []).
Definition after_PutChar (th : Caller) : Caller :=
  if testing th then at_point th GAcquire else at_point th Returned.

(** One step of thread [t] in [GetChar]; [None]: it is blocked. *)
Definition GetChar_step (t : Z) (C : Station) : res (option Station) :=
  let th := caller C t in
  let d := consoles C in
  let p := synchConsoleIn d in
  match at_ th with
  | GAcquire =>
      if bool_decide (inLock p = 0) then Ok None
      else goes_to C t (at_point th GWait) (intr C)
             (set_in d (mkSynchIn (consoleInput p) (i32 (inLock p - 1)) (Some t) (inWait p))) []
  | GWait =>
      if bool_decide (inWait p = 0) then Ok None
      else goes_to C t (at_point th GGet) (intr C)
             (set_in d (mkSynchIn (consoleInput p) (inLock p) (inHolder p) (i32 (inWait p - 1)))) []
  | GGet =>
      '(c, i, n) ← ConsoleInput_GetChar (intr C) (consoleInput p);
      goes_to C t (mkCaller GRelease c (testing th)) i
        (set_in d (mkSynchIn n (inLock p) (inHolder p) (inWait p))) [Got t c]
  | GRelease =>
      _ ← ASSERT (bool_decide (inHolder p = Some t));
      let '(th, es) := after_GetChar t th in
      goes_to C t th (intr C) (set_in d (mkSynchIn (consoleInput p) (i32 (inLock p + 1)) None (inWait p))) es
  | _ => Ok None
  end.

(** The same in [PutChar]. *)
Definition PutChar_step (t : Z) (C : Station) : res (option Station) :=
  let th := caller C t in
  let d := consoles C in
  let q := synchConsoleOut d in
  match at_ th with
  | PAcquire =>
      if bool_decide (outLock q = 0) then Ok None
      else goes_to C t (at_point th PPut) (intr C)
             (set_out d (mkSynchOut (consoleOutput q) (i32 (outLock q - 1)) (Some t) (outWait q))) []
  | PPut =>
      '(i, n) ← ConsoleOutput_PutChar (intr C) (consoleOutput q) (ch th);
      goes_to C t (at_point th PWait) i
        (set_out d (mkSynchOut n (outLock q) (outHolder q) (outWait q))) [Shown t (ch th)]
  | PWait =>
      if bool_decide (outWait q = 0) then Ok None
      else goes_to C t (at_point th PRelease) (intr C)
             (set_out d (mkSynchOut (consoleOutput q) (outLock q) (outHolder q) (i32 (outWait q - 1)))) []
  | PRelease =>
      _ ← ASSERT (bool_decide (outHolder q = Some t));
      goes_to C t (after_PutChar th) (intr C)
        (set_out d (mkSynchOut (consoleOutput q) (i32 (outLock q + 1)) None (outWait q))) []
  | _ => Ok None
  end.

Definition caller_step (t : Z) (C : Station) : res (option Station) :=
  match at_ (caller C t) with
  | Returned => Ok None
  | GAcquire | GWait | GGet | GRelease => GetChar_step t C
  | PAcquire | PPut | PWait | PRelease => PutChar_step t C
  end.

(** The state after the constructors, with no thread in a routine. *)
Definition newStation : res Station :=
  '(i, p) ← newSynchConsoleInput newInterrupt;
  Ok (mkStation i (mkConsoles p newSynchConsoleOutput 0 0) ∅ [] []).

(** ** The system *)

(** What a thread outside the routines may call. *)
Inductive call : Type := CGet | CPut (c : Z) | CTest.

Definition begin (t : Z) (c : call) (C : Station) : Station :=
  match c with
  | CGet => mkStation (intr C) (consoles C) (<[t := mkCaller GAcquire 0 false]> (threads C)) (typed C) (log C)
  | CPut c => mkStation (intr C) (consoles C) (<[t := mkCaller PAcquire c false]> (threads C)) (typed C) (log C ++ [Asked t c])
  | CTest => mkStation (intr C) (consoles C) (<[t := mkCaller GAcquire 0 true]> (threads C)) (typed C) (log C)
  end.

Definition keyboard (C : Station) : ConsoleInput := consoleInput (synchConsoleIn (consoles C)).

(** A byte is typed, or the keyboard is closed. *)
Definition type_byte (b : Z) (C : Station) : Station :=
  let p := synchConsoleIn (consoles C) in
  let n := consoleInput p in
  mkStation (intr C)
    (set_in (consoles C) (mkSynchIn (mkConsoleInput (readFile n ++ [b]) (closed n) (incoming n)) (inLock p) (inHolder p) (inWait p)))
    (threads C) (typed C ++ [b]) (log C).
Definition close_keyboard (C : Station) : Station :=
  let p := synchConsoleIn (consoles C) in
  let n := consoleInput p in
  mkStation (intr C)
    (set_in (consoles C) (mkSynchIn (mkConsoleInput (readFile n) true (incoming n)) (inLock p) (inHolder p) (inWait p)))
    (threads C) (typed C) (log C).

(** The clock is not about to leave the range of [int]. *)
Definition clock_ok (C : Station) : Prop := totalTicks (intr C) <= 2000000000.

(** [calls]: which thread may call what. *)
Inductive cstep (calls : Z -> call -> Prop) : Station -> Station -> Prop :=
| c_thread C t C' : clock_ok C -> caller_step t C = Ok (Some C') -> cstep calls C C'
(** time passes, and interrupts occur *)
| c_tick C i d y : clock_ok C -> OneTick (intr C) (consoles C) = Ok (i, d, y) ->
    cstep calls C (mkStation i d (threads C) (typed C) (log C))
(** all threads are blocked, the last one in [P] with interrupts off, and the clock
    moves to the next interrupt *)
| c_idle C i d : clock_ok C -> (forall t, caller_step t C = Ok None) ->
    Idle (ChangeLevel (intr C) IntOff) (consoles C) = Ok (true, i, d) ->
    cstep calls C (mkStation i d (threads C) (typed C) (log C))
| c_call C t c : calls t c -> at_ (caller C t) = Returned -> cstep calls C (begin t c C)
| c_type C b : closed (keyboard C) = false -> cstep calls C (type_byte b C)
| c_close C : cstep calls C (close_keyboard C).

End console.
