(* ===== verification/ConsoleProofs.v ===== *)
(** * Nothing that is typed is lost, and the display shows what was put

    [console_ok]: what the devices, the monitors and the threads hold, and the
    character streams.  No step fails, and every step and every interrupt preserves
    it. *)

From S2P Require Import Prelude Lists ListProofs Sched Interrupt InterruptProofs Devices Console.
Import Interrupt.Interrupt.

(** What [GetChar] can return, over time, when the bytes [l] are typed: it stops
    at a character that looks like the end of the file, and at the end of the file. *)
Fixpoint stream (closed : bool) (l : list Z) : list Z :=
  match l with
  | [] => if closed then [EOF] else []
  | b :: l' => to_char b :: (if bool_decide (to_char b = EOF) then [] else stream closed l')
  end.

Definition clean (l : list Z) : Prop := Forall (fun c => c <> EOF) l.

Lemma stream_app closed l k : clean (to_char <$> l) -> stream closed (l ++ k) = (to_char <$> l) ++ stream closed k.
Proof.
  induction l as [|b l IH]; intros H; [done|]. apply Forall_cons in H as [Hb H]. cbn. rewrite bool_decide_false by done. by rewrite IH.
Qed.

(** Once the end has been seen, nothing changes it. *)
Lemma stream_end closed l s k : s ++ [EOF] = stream closed l ->
  (closed = false -> stream closed (l ++ k) = s ++ [EOF]) /\ stream true l = s ++ [EOF].
Proof.
  revert s. induction l as [|b l IH]; intros s E; cbn in E.
  - destruct closed; [|by destruct s]. by split.
  - cbn. case_bool_decide as Hb.
    + rewrite Hb in *. by split.
    + destruct s as [|c s]; [by injection E as E|]. injection E as -> E. destruct (IH s E) as [H1 H2]. split.
      * intros Hc. by rewrite H1.
      * by rewrite H2.
Qed.

(** The characters that [GetChar] has returned, in order; what a thread wanted to
    have on the display, and what has been written. *)
Definition got (l : list event) : list Z := omap (fun e => match e with Got _ c => Some c | _ => None end) l.
Definition asked_by (t : Z) (l : list event) : list Z :=
  omap (fun e => match e with Asked t' c => if decide (t' = t) then Some c else None | _ => None end) l.
Definition shown (l : list event) : list Z := omap (fun e => match e with Shown _ c => Some c | _ => None end) l.
Definition shown_by (t : Z) (l : list event) : list Z :=
  omap (fun e => match e with Shown t' c => if decide (t' = t) then Some c else None | _ => None end) l.

(** The keyboard: [cnt] interrupts of the device are pending, and [w] says that a
    thread may take a character: that the device is polled, a character is there,
    the end of the file has been reached but not been returned, or it has. *)
Inductive feed (n : ConsoleInput) (bytes returned : list Z) : Z -> Z -> Prop :=
| f_poll read : bytes = read ++ readFile n -> clean returned -> returned = to_char <$> read -> incoming n = EOF ->
    feed n bytes returned 1 0
| f_char read : bytes = read ++ readFile n -> clean (returned ++ [incoming n]) -> returned ++ [incoming n] = to_char <$> read ->
    feed n bytes returned 0 1
| f_end : clean returned -> returned ++ [EOF] = stream (closed n) bytes -> incoming n = EOF -> feed n bytes returned 0 1
| f_over s : clean s -> returned = s ++ [EOF] -> returned = stream (closed n) bytes -> incoming n = EOF ->
    feed n bytes returned 0 0.

Lemma feed_range n bytes returned cnt w : feed n bytes returned cnt w -> 0 <= cnt /\ 0 <= w /\ cnt + w <= 1.
Proof. inversion 1; lia. Qed.

Lemma feed_stream n bytes returned cnt w : feed n bytes returned cnt w -> returned `prefix_of` stream (closed n) bytes.
Proof.
  destruct 1 as [read -> H -> _|read -> H E|H E _|s _ -> E _].
  - rewrite stream_app by done. by apply prefix_app_r.
  - rewrite stream_app by by rewrite <- E. rewrite <- E, <- app_assoc. by apply prefix_app_r.
  - rewrite <- E. by apply prefix_app_r.
  - by rewrite E.
Qed.

Lemma clean_EOF l : clean l -> EOF ∉ l.
Proof. intros H Hin. unfold clean in H. rewrite Forall_forall in H. by apply (H EOF). Qed.

(** The end has been returned: nothing more will be. *)
Lemma feed_over n bytes returned cnt w : feed n bytes returned cnt w -> EOF ∈ returned ->
  exists s, clean s /\ returned = s ++ [EOF] /\ returned = stream (closed n) bytes.
Proof.
  intros HF Hin. destruct HF as [read _ HC _ _|read _ [HC _]%Forall_app _|HC _ _|s HC E1 E2 _].
  1-3: by apply clean_EOF in HC. by exists s.
Qed.

(** The keyboard is polled: nothing to read, a character, or the end. *)
Lemma feed_poll inDev i n bytes returned nr : Forall (fun p => address p <= newest i) (pending i) -> feed n bytes returned 1 0 ->
  (ConsoleInput_CallBack inDev i n nr = Ok (scheduled i inDev ConsoleTime ConsoleReadInt, n, nr, false)) \/
  (exists n' nr', ConsoleInput_CallBack inDev i n nr = Ok (i, n', nr', true) /\ feed n' bytes returned 0 1 /\ closed n' = closed n).
Proof.
  intros HA HF. inversion HF as [read -> HC -> HI| | |]. unfold ConsoleInput_CallBack. rewrite bool_decide_true by done. cbn [ASSERT mbind res_bind].
  unfold PollFile. destruct n as [l c k]; cbn [readFile closed incoming] in *. subst k. destruct l as [|b l].
  - rewrite bool_decide_false by naive_solver. destruct c; cbn [orb negb].
    + right. eexists _, _. split; [reflexivity|]. split; [|done]. apply f_end; [done| |done]. cbn. by rewrite app_nil_r, <- (app_nil_r read), stream_app, app_nil_r.
    + left. rewrite Schedule_total by done. done.
  - rewrite bool_decide_true by done. cbn [orb negb]. right. eexists _, _. split; [reflexivity|]. split; [|done].
    destruct (decide (to_char b = EOF)) as [Hb|Hb].
    + apply f_end; [done| |done]. cbn. rewrite stream_app by done. cbn. by rewrite Hb.
    + apply (f_char _ _ _ (read ++ [b])); cbn; [by rewrite <- app_assoc| |by rewrite fmap_app].
      apply Forall_app. split; [done|by constructor].
Qed.

(** [GetChar] of the device. *)
Lemma feed_get inDev i n bytes returned : Forall (fun p => address p <= newest i) (pending i) -> feed n bytes returned 0 1 ->
  exists i' n', ConsoleInput_GetChar inDev i n = Ok (incoming n, i', n') /\ closed n' = closed n /\
    ((i' = i /\ feed n' bytes (returned ++ [incoming n]) 0 0) \/
     (i' = scheduled i inDev ConsoleTime ConsoleReadInt /\ feed n' bytes (returned ++ [incoming n]) 1 0)).
Proof.
  intros HA HF. unfold ConsoleInput_GetChar. inversion HF as [|read -> HC E|HC E HI|]; subst.
  - pose proof HC as [_ Hi]%Forall_app. inversion Hi; subst. rewrite bool_decide_true by done. rewrite Schedule_total by done.
    cbn [mbind res_bind]. eexists _, _. split; [reflexivity|]. split; [done|]. right. split; [done|]. by apply (f_poll _ _ _ read).
  - rewrite bool_decide_false by naive_solver. cbn [mbind res_bind]. eexists _, _. split; [reflexivity|]. split; [done|]. left.
    split; [done|]. rewrite HI. by apply (f_over _ _ _ returned).
Qed.

(** A byte is typed; the keyboard is closed. *)
Lemma feed_type n bytes returned cnt w b : closed n = false -> feed n bytes returned cnt w ->
  feed (mkConsoleInput (readFile n ++ [b]) (closed n) (incoming n)) (bytes ++ [b]) returned cnt w.
Proof.
  intros Hc HF. destruct HF as [read -> HC -> HI|read -> HC E|HC E HI|s HC -> E HI].
  - apply (f_poll _ _ _ read); try done. by rewrite <- app_assoc.
  - apply (f_char _ _ _ read); try done. by rewrite <- app_assoc.
  - apply f_end; try done. cbn [closed]. symmetry. by apply (stream_end _ _ _ [b] E).
  - apply (f_over _ _ _ s); try done. cbn [closed]. symmetry. by apply (stream_end _ _ _ [b] E).
Qed.

Lemma feed_close n bytes returned cnt w : feed n bytes returned cnt w ->
  feed (mkConsoleInput (readFile n) true (incoming n)) bytes returned cnt w.
Proof.
  intros HF. destruct HF as [read -> HC -> HI|read -> HC E|HC E HI|s HC -> E HI].
  - by apply (f_poll _ _ _ read).
  - by apply (f_char _ _ _ read).
  - apply f_end; try done. cbn [closed]. symmetry. by apply (stream_end _ _ _ [] E).
  - apply (f_over _ _ _ s); try done. cbn [closed]. symmetry. by apply (stream_end _ _ _ [] E).
Qed.

Section handlers.
Context (inDev outDev : Z) (devices_differ : inDev <> outDev).

#[local] Existing Instance console_devices.
#[local] Instance devs : Devices Consoles := console_devices inDev outDev.

Definition known_console (a : Z) : Prop := a = inDev \/ a = outDev.
#[local] Abbreviation intr_ok := (intr_ok known_console).

(** The devices.  [g]: a thread is between [P] and the [GetChar] of the device; [w]:
    one is between the [PutChar] of the device and the return of [P]. *)
Record io_ok (g w : Z) (bytes returned : list Z) (i : Interrupt) (d : Consoles) : Prop := mkIoOk {
  o_intr : intr_ok i;
  o_soon : soon ConsoleTime i;
  o_feed : feed (consoleInput (synchConsoleIn d)) bytes returned (count inDev (pending i)) (inWait (synchConsoleIn d) + g);
  o_in : 0 <= inWait (synchConsoleIn d) /\ 0 <= g;
  o_out : outWait (synchConsoleOut d) + count outDev (pending i) = w /\ 0 <= outWait (synchConsoleOut d) /\ w <= 1;
  o_busy : putBusy (consoleOutput (synchConsoleOut d)) = bool_decide (count outDev (pending i) = 1) }.

(** What the handlers leave alone. *)
Definition io_frame (d d' : Consoles) : Prop :=
  inLock (synchConsoleIn d') = inLock (synchConsoleIn d) /\ inHolder (synchConsoleIn d') = inHolder (synchConsoleIn d) /\
  outLock (synchConsoleOut d') = outLock (synchConsoleOut d) /\ outHolder (synchConsoleOut d') = outHolder (synchConsoleOut d) /\
  closed (consoleInput (synchConsoleIn d')) = closed (consoleInput (synchConsoleIn d)) /\
  writeFile (consoleOutput (synchConsoleOut d')) = writeFile (consoleOutput (synchConsoleOut d)).

Lemma io_frame_trans d1 d2 d3 : io_frame d1 d2 -> io_frame d2 d3 -> io_frame d1 d3.
Proof. intros (?&?&?&?&?&?) (?&?&?&?&?&?). split_and!; congruence. Qed.

Lemma V_small v : 0 <= v -> v <= 1 -> i32 (v + 1) = v + 1.
Proof. intros H1 H2. apply i32_id. unfold is_i32, int_min, int_max. lia. Qed.

(** Each handler returns and preserves the state, once its interrupt is off the list. *)
Lemma console_handler g w bytes returned i d p l :
  io_ok g w bytes returned i d -> pending i = p :: l -> totalTicks i + ConsoleTime <= int_max ->
  exists i' d', CallBack (callOnInterrupt p) (log_fired (with_pending i l (newest i)) p) d = Ok (i', d') /\
    (io_ok g w bytes returned i' d' /\ io_frame d d') /\ totalTicks i' = totalTicks i /\ due (totalTicks i) (pending i') = due (totalTicks i) l.
Proof.
  intros [HI HS HF [Hw Hg] (HO & HO0 & HO1) HB] Ep HM. pose proof (popped_ok known_console i p l HI Ep) as HI1.
  pose proof (popped_soon ConsoleTime i p l HS Ep) as HS1. pose proof (proj1 HS) as H0.
  assert (Hk : known_console (callOnInterrupt p)) by (destruct HI as [_ HA]; rewrite Ep in HA; by inversion HA as [|? ? []]).
  set (i1 := log_fired _ p) in *. rewrite Ep in HF, HO, HB. rewrite !count_cons in HF. rewrite count_cons in HO, HB.
  pose proof (count_nonneg inDev l) as Hcin. pose proof (count_nonneg outDev l) as Hcout.
  cbn [CallBack devs console_devices]. destruct (decide (callOnInterrupt p = inDev)) as [Ed|Ed].
  - rewrite (bool_decide_true (callOnInterrupt p = inDev)) by done. rewrite decide_False in HO, HB by congruence.
    pose proof (feed_range _ _ _ _ _ HF) as HR. assert (E0 : count inDev l = 0) by lia. assert (Ew : inWait (synchConsoleIn d) = 0) by lia.
    assert (Eg : g = 0) by lia. rewrite E0, Ew, Eg in HF.
    destruct (feed_poll inDev i1 _ _ _ (numConsoleCharsRead d) (intr_addresses known_console i1 HI1) HF) as [E|(n' & nr' & E & HF' & Hc)];
      rewrite E; cbn [mbind res_bind]; eexists _, _; (split; [reflexivity|]).
    + split; [split; [|done]|split; [done|by apply (scheduled_due known_console i1)]]. split; cbn [synchConsoleIn synchConsoleOut].
      * apply scheduled_ok; [done|by left].
      * by apply scheduled_soon.
      * cbn. rewrite count_insert, count_cons, decide_True by done. cbn. by rewrite E0, Ew, Eg.
      * done.
      * cbn. rewrite count_insert, count_cons, decide_False by done. done.
      * cbn. rewrite count_insert, count_cons, decide_False by done. done.
    + split; [split; [|done]|done]. split; cbn [synchConsoleIn synchConsoleOut SynchConsoleInput_CallBack]; try done.
      * cbn. by rewrite E0, Ew, Eg.
      * cbn. by rewrite Ew.
  - rewrite (bool_decide_false (callOnInterrupt p = inDev)) by done. destruct Hk as [Hk|Hk]; [done|]. rewrite decide_True in HO, HB by done. rewrite bool_decide_true by done.
    cbn [ConsoleOutput_CallBack]. eexists _, _. split; [reflexivity|]. split; [split; [|done]|done].
    assert (E0 : count outDev l = 0) by lia. split; cbn [synchConsoleIn synchConsoleOut SynchConsoleOutput_CallBack]; try done.
    + cbn -[count]. rewrite V_small by lia. lia.
    + cbn -[count]. by rewrite E0.
Qed.

(** What the hardware's lemmas need. *)
Lemma io_later g w bytes returned i i' d : pending i' = pending i -> newest i' = newest i -> totalTicks i <= totalTicks i' ->
  io_ok g w bytes returned i d -> io_ok g w bytes returned i' d.
Proof. intros Ep En Ht []. split; try done; [by apply (later_ok _ i)|by apply (later_soon _ i)|by rewrite Ep..]. Qed.

Lemma console_preserved g w bytes returned d :
  preserved ConsoleTime (fun i d' => io_ok g w bytes returned i d' /\ io_frame d d').
Proof.
  split; [done|intros i d' [[HI HT _ _ _ _] _]; split; [apply HI|exact HT]| | |].
  - intros i d1 p l [HV HF] Ep _ HM. destruct (console_handler g w bytes returned i d1 p l HV Ep HM) as (i2 & d2 & E & [HV2 HF2] & H).
    exists i2, d2. split; [exact E|]. split; [|exact H]. split; [exact HV2|]. by apply (io_frame_trans d d1).
  - intros i d1 H. by exists d1.
  - intros i i' d1 Ep En Ht [HV HF]. split; [by apply (io_later _ _ _ _ i)|exact HF].
Qed.

End handlers.
