(* ===== verification/ConsoleInv.v ===== *)
(** * Every step of the console

    The invariant of the threads, the monitors and the devices, and that every
    step preserves it. *)

From S2P Require Import Prelude Lists ListProofs Sched Interrupt InterruptProofs Devices Console ConsoleProofs.
Import Interrupt.Interrupt.

(** The points inside the two locks, and before the character is written. *)
Definition in_get (p : point) : bool := match p with GWait | GGet | GRelease => true | _ => false end.
Definition in_put (p : point) : bool := match p with PPut | PWait | PRelease => true | _ => false end.
Definition unshown (th : Caller) : list Z := match at_ th with PAcquire | PPut => [ch th] | _ => [] end.

Definition holder (p : point) (inside : point -> bool) (t : Z) : option Z := if inside p then Some t else None.
Definition free (h : option Z) : Z := match h with Some _ => 0 | None => 1 end.

(** Where the holder of a lock is. *)
Definition phase (C : Station) (h : option Z) : point := match h with Some t => at_ (caller C t) | None => Returned end.
Definition flag (p q : point) : Z := if decide (p = q) then 1 else 0.

Lemma caller_insert i d ths l es t th t' :
  caller (mkStation i d (<[t := th]> ths) l es) t' = if decide (t = t') then th else default (mkCaller Returned 0 false) (ths !! t').
Proof.
  unfold caller. cbn. case_decide; [subst; by rewrite lookup_insert_eq|by rewrite lookup_insert_ne].
Qed.

Lemma got_app l k : got (l ++ k) = got l ++ got k.
Proof. apply omap_app. Qed.
Lemma shown_app l k : shown (l ++ k) = shown l ++ shown k.
Proof. apply omap_app. Qed.
Lemma shown_by_app t l k : shown_by t (l ++ k) = shown_by t l ++ shown_by t k.
Proof. apply omap_app. Qed.
Lemma asked_by_app t l k : asked_by t (l ++ k) = asked_by t l ++ asked_by t k.
Proof. apply omap_app. Qed.
Section station.
Context (inDev outDev : Z) (devices_differ : inDev <> outDev).

#[local] Abbreviation io_ok := (io_ok inDev outDev).

Record console_ok (C : Station) : Prop := mkConsoleOk {
  k_in_lock : inLock (synchConsoleIn (consoles C)) = free (inHolder (synchConsoleIn (consoles C)));
  k_in : forall t, in_get (at_ (caller C t)) = true <-> inHolder (synchConsoleIn (consoles C)) = Some t;
  k_out_lock : outLock (synchConsoleOut (consoles C)) = free (outHolder (synchConsoleOut (consoles C)));
  k_out : forall t, in_put (at_ (caller C t)) = true <-> outHolder (synchConsoleOut (consoles C)) = Some t;
  k_io : io_ok (flag (phase C (inHolder (synchConsoleIn (consoles C)))) GGet)
    (flag (phase C (outHolder (synchConsoleOut (consoles C)))) PWait) (typed C) (got (log C)) (intr C) (consoles C);
  k_shown : writeFile (consoleOutput (synchConsoleOut (consoles C))) = shown (log C);
  k_asked : forall t, shown_by t (log C) ++ unshown (caller C t) = asked_by t (log C) }.

Definition runs (r : res (option Station)) : Prop := r = Ok None \/ exists C', r = Ok (Some C') /\ console_ok C'.

(** The holder of a lock is the thread inside it, after a step of [t] as before. *)
Lemma inside_step (inside : point -> bool) (C : Station) (h : option Z) t th i d l es :
  (forall t', inside (at_ (caller C t')) = true <-> h = Some t') -> h = None \/ h = Some t ->
  forall t', inside (at_ (caller (mkStation i d (<[t := th]> (threads C)) l es) t')) = true <-> holder (at_ th) inside t = Some t'.
Proof.
  intros HC Hh t'. rewrite caller_insert. unfold holder. case_decide as Ht.
  - subst t'. destruct (inside (at_ th)); split; congruence.
  - fold (caller C t'). rewrite HC. destruct Hh as [-> | ->], (inside (at_ th)); split; congruence.
Qed.

(** A thread that is not in the other monitor leaves it alone. *)
Lemma outside_step (inside : point -> bool) (C : Station) (h : option Z) t th i d l es :
  (forall t', inside (at_ (caller C t')) = true <-> h = Some t') -> inside (at_ (caller C t)) = false -> inside (at_ th) = false ->
  (forall t', inside (at_ (caller (mkStation i d (<[t := th]> (threads C)) l es) t')) = true <-> h = Some t') /\
  phase (mkStation i d (<[t := th]> (threads C)) l es) h = phase C h.
Proof.
  intros HC H1 H2. split.
  - intros t'. rewrite caller_insert. case_decide as Ht; [|apply HC]. subst t'. rewrite H2, <- HC, H1. done.
  - unfold phase. destruct h as [t'|]; [|done]. rewrite caller_insert. case_decide as Ht; [|done]. subst t'.
    pose proof (proj2 (HC t) eq_refl). congruence.
Qed.

Lemma phase_step inside t th i d ths l es :
  forall q, inside q = true -> q <> Returned -> flag (phase (mkStation i d (<[t := th]> ths) l es) (holder (at_ th) inside t)) q = flag (at_ th) q.
Proof.
  intros q Hq Hn. unfold holder. destruct (inside (at_ th)) eqn:E; cbn [phase].
  - by rewrite caller_insert, decide_True.
  - unfold flag. rewrite (decide_False (P := Returned = q)) by congruence. by rewrite decide_False by congruence.
Qed.

(** A step of [t] in [GetChar]. *)
Lemma get_moves C t th i p es : console_ok C -> in_put (at_ (caller C t)) = false -> unshown (caller C t) = [] ->
  inHolder (synchConsoleIn (consoles C)) = None \/ inHolder (synchConsoleIn (consoles C)) = Some t ->
  in_put (at_ th) = false -> inHolder p = holder (at_ th) in_get t -> inLock p = free (inHolder p) ->
  io_ok (flag (at_ th) GGet) (flag (phase C (outHolder (synchConsoleOut (consoles C)))) PWait) (typed C) (got (log C ++ es)) i
    (set_in (consoles C) p) ->
  shown es = [] -> (forall t', shown_by t' es = []) -> (forall t', asked_by t' es = if decide (t = t') then unshown th else []) ->
  runs (goes_to C t th i (set_in (consoles C) p) es).
Proof.
  intros [] Hp Hu Hh Hp' EH EL HV E1 E2 E3. right. eexists. split; [reflexivity|].
  destruct (outside_step in_put C _ t th i (set_in (consoles C) p) (typed C) (log C ++ es) k_out0 Hp Hp') as [HO EO].
  split; cbn [consoles set_in synchConsoleIn synchConsoleOut intr typed log]; try done.
  - rewrite EH. by eapply inside_step.
  - rewrite EH, phase_step, EO by done. exact HV.
  - by rewrite shown_app, E1, app_nil_r.
  - intros t'. rewrite shown_by_app, E2, app_nil_r, asked_by_app, E3, <- k_asked0, caller_insert. case_decide as Ht.
    + subst t'. by rewrite Hu, app_nil_r.
    + by rewrite app_nil_r.
Qed.

(** A step of [t] in [PutChar]. *)
Lemma put_moves C t th i q es : console_ok C -> in_get (at_ (caller C t)) = false ->
  outHolder (synchConsoleOut (consoles C)) = None \/ outHolder (synchConsoleOut (consoles C)) = Some t ->
  in_get (at_ th) = false -> outHolder q = holder (at_ th) in_put t -> outLock q = free (outHolder q) ->
  io_ok (flag (phase C (inHolder (synchConsoleIn (consoles C)))) GGet) (flag (at_ th) PWait) (typed C) (got (log C ++ es)) i
    (set_out (consoles C) q) ->
  writeFile (consoleOutput q) = shown (log C ++ es) ->
  (forall t', asked_by t' es = []) ->
  (forall t', shown_by t' es ++ (if decide (t = t') then unshown th else []) = if decide (t = t') then unshown (caller C t) else []) ->
  runs (goes_to C t th i (set_out (consoles C) q) es).
Proof.
  intros [] Hg Hh Hg' EH EL HV E1 E2 E3. right. eexists. split; [reflexivity|].
  destruct (outside_step in_get C _ t th i (set_out (consoles C) q) (typed C) (log C ++ es) k_in0 Hg Hg') as [HO EO].
  split; cbn [consoles set_out synchConsoleIn synchConsoleOut intr typed log]; try done.
  - rewrite EH. by eapply inside_step.
  - rewrite EO, EH, phase_step by done. exact HV.
  - intros t'. rewrite shown_by_app, asked_by_app, E2, app_nil_r, <- k_asked0, caller_insert, <- app_assoc. f_equal.
    specialize (E3 t'). case_decide as Ht; [by subst t'|]. apply app_eq_nil in E3 as [-> _]. done.
Qed.

Lemma i32_one : i32 (1 - 1) = 0.
Proof. done. Qed.

(** ** [GetChar] *)

Lemma char_get_ok C t : console_ok C -> runs (GetChar_step inDev t C).
Proof.
  intros HC. pose proof HC as []. pose proof (k_in0 t) as Hin. unfold GetChar_step. destruct (at_ (caller C t)) eqn:Ep; try by left.
  all: set (p := synchConsoleIn (consoles C)) in *; set (d := consoles C) in *.
  all: assert (Hu : unshown (caller C t) = []) by (unfold unshown; by rewrite Ep).
  all: assert (Hput : in_put (at_ (caller C t)) = false) by by rewrite Ep.
  - (* GAcquire *)
    case_bool_decide as Hl; [by left|]. destruct (inHolder p) as [t0|] eqn:EH; [by rewrite k_in_lock0 in Hl|].
    apply get_moves; [exact HC|exact Hput|exact Hu|by left|done|cbn; by rewrite ?EH|cbn; by rewrite ?k_in_lock0, ?EH| |done|done|intros t'; cbn; by case_decide].
    destruct k_io0 as [H1 H2 H3 H4 H5 H6]. split; try done. by rewrite got_app, app_nil_r.
  - (* GWait *)
    assert (EH : inHolder p = Some t) by by apply Hin. case_bool_decide as Hl; [by left|].
    apply get_moves; [exact HC|exact Hput|exact Hu|by right|done|cbn; by rewrite ?EH|cbn; by rewrite ?k_in_lock0, ?EH| |done|intros t'; done|intros t'; cbn; by destruct (decide (t = t'))].
    rewrite EH in k_io0. cbn [phase] in k_io0. rewrite Ep in k_io0. destruct k_io0 as [H1 H2 H3 [H4 _] H5 H6].
    change (flag GWait GGet) with 0 in H3. fold p in H3, H4.
    pose proof (feed_range _ _ _ _ _ H3) as HR. assert (E1 : inWait p = 1) by lia.
    rewrite got_app, app_nil_r. split; try done; cbn [synchConsoleIn set_in inWait consoleInput]; rewrite ?E1; cbn.
    + by rewrite E1 in H3.
    + done.
  - (* GGet *)
    assert (EH : inHolder p = Some t) by by apply Hin.
    rewrite EH in k_io0. cbn [phase] in k_io0. rewrite Ep in k_io0. destruct k_io0 as [H1 H2 H3 [H4 _] (H5 & H6 & H7) H8].
    change (flag GGet GGet) with 1 in H3. fold p in H3, H4.
    pose proof (feed_range _ _ _ _ _ H3) as HR. assert (E1 : inWait p = 0) by lia.
    assert (E0 : count inDev (pending (intr C)) = 0) by lia. rewrite E1, E0 in H3.
    destruct (feed_get inDev _ _ _ _ (intr_addresses _ _ H1) H3) as (i' & n' & E & Hc & HF). rewrite E. cbn [mbind res_bind].
    apply get_moves; [exact HC|exact Hput|exact Hu|by right|done|cbn; by rewrite ?EH|cbn; by rewrite ?k_in_lock0, ?EH| |done|intros t'; done|intros t'; cbn; by destruct (decide (t = t'))].
    rewrite got_app. cbn [got omap list_omap at_]. fold p.
    destruct HF as [[-> HF]|[-> HF]]; split; cbn [synchConsoleIn set_in set_out synchConsoleOut inWait consoleInput]; try done.
    + by rewrite E0, E1.
    + by apply scheduled_ok; [|left].
    + by apply scheduled_soon.
    + cbn -[count]. by rewrite count_insert, count_cons, decide_True, E0, E1.
    + cbn -[count]. by rewrite count_insert, count_cons, decide_False.
    + cbn -[count]. by rewrite count_insert, count_cons, decide_False.
  - (* GRelease *)
    assert (EH : inHolder p = Some t) by by apply Hin. rewrite bool_decide_true by done. cbn [ASSERT mbind res_bind].
    rewrite EH in k_io0. cbn [phase] in k_io0. rewrite Ep in k_io0.
    assert (HF : forall th es, at_ th = PAcquire \/ at_ th = Returned -> es = match at_ th with PAcquire => [Asked t (ch th)] | _ => [] end ->
      runs (goes_to C t th (intr C) (set_in d (mkSynchIn (consoleInput p) (i32 (inLock p + 1)) None (inWait p))) es)).
    { intros th es Hth Ees. assert (Eg : got es = []) by (rewrite Ees; by destruct (at_ th)).
      apply get_moves; [exact HC|exact Hput|exact Hu|by right| | | | |rewrite Ees; by destruct (at_ th)..|].
      - by destruct Hth as [-> | ->].
      - unfold holder. by destruct Hth as [-> | ->].
      - cbn. by rewrite k_in_lock0, EH.
      - rewrite got_app, Eg, app_nil_r. destruct k_io0. by split; try done; destruct Hth as [-> | ->].
      - intros t'. unfold unshown. rewrite Ees. destruct Hth as [-> | ->]; cbn; by destruct (decide (t = t')). }
    unfold after_GetChar. destruct (testing (caller C t)); [|apply HF; [by right|done]].
    case_bool_decide; apply HF; try done; [by left|by right].
Qed.

(** ** [PutChar] *)

Lemma char_put_ok C t : console_ok C -> runs (PutChar_step outDev t C).
Proof.
  intros HC. pose proof HC as []. pose proof (k_out0 t) as Hin. unfold PutChar_step. destruct (at_ (caller C t)) eqn:Ep; try by left.
  all: set (q := synchConsoleOut (consoles C)) in *; set (d := consoles C) in *.
  all: assert (Hget : in_get (at_ (caller C t)) = false) by by rewrite Ep.
  - (* PAcquire *)
    case_bool_decide as Hl; [by left|]. destruct (outHolder q) as [t0|] eqn:EH; [by rewrite k_out_lock0 in Hl|].
    apply put_moves; [exact HC|exact Hget|by left|done|cbn; by rewrite ?EH|cbn; by rewrite ?k_out_lock0, ?EH| |by rewrite shown_app, app_nil_r|done|intros t'; cbn; unfold unshown; rewrite Ep; by destruct (decide (t = t'))].
    destruct k_io0 as [H1 H2 H3 H4 H5 H6]. split; try done. by rewrite got_app, app_nil_r.
  - (* PPut *)
    assert (EH : outHolder q = Some t) by by apply Hin.
    rewrite EH in k_io0. cbn [phase] in k_io0. rewrite Ep in k_io0. destruct k_io0 as [H1 H2 H3 H4 (H5 & H6 & H7) H8].
    pose proof (count_nonneg outDev (pending (intr C))) as Hn. change (flag PPut PWait) with 0 in *. fold q in H5, H6.
    assert (E0 : count outDev (pending (intr C)) = 0) by lia. assert (E1 : outWait q = 0) by lia.
    unfold ConsoleOutput_PutChar. fold q in H8. rewrite H8, E0. cbn [ASSERT mbind res_bind].
    rewrite Schedule_total by (try done; exact (intr_addresses _ _ H1)). cbn [mbind res_bind].
    apply put_moves; [exact HC|exact Hget|by right|done|cbn; by rewrite ?EH|cbn; by rewrite ?k_out_lock0, ?EH| |cbn; by rewrite shown_app, k_shown0|done|intros t'; cbn; unfold unshown; rewrite Ep; by destruct (decide (t = t'))].
    rewrite got_app. cbn [got omap list_omap]. rewrite app_nil_r.
    split; cbn [synchConsoleOut set_in set_out synchConsoleIn outWait consoleOutput putBusy]; try done.
    + by apply scheduled_ok; [|right].
    + by apply scheduled_soon.
    + cbn -[count]. by rewrite count_insert, count_cons, decide_False.
    + cbn -[count]. rewrite count_insert, count_cons, decide_True, E0, E1 by done. done.
    + cbn -[count]. by rewrite count_insert, count_cons, decide_True, E0.
  - (* PWait *)
    assert (EH : outHolder q = Some t) by by apply Hin. case_bool_decide as Hl; [by left|].
    apply put_moves; [exact HC|exact Hget|by right|done|cbn; by rewrite ?EH|cbn; by rewrite ?k_out_lock0, ?EH| |by rewrite shown_app, app_nil_r|done|intros t'; cbn; unfold unshown; rewrite Ep; by destruct (decide (t = t'))].
    rewrite EH in k_io0. cbn [phase] in k_io0. rewrite Ep in k_io0. destruct k_io0 as [H1 H2 H3 H4 (H5 & H6 & H7) H8].
    pose proof (count_nonneg outDev (pending (intr C))) as Hn. change (flag PWait PWait) with 1 in *. fold q in H5, H6.
    assert (E1 : outWait q = 1) by lia. rewrite got_app, app_nil_r.
    split; try done; cbn [synchConsoleOut set_out outWait at_ at_point]. rewrite E1. change (flag PRelease PWait) with 0. change (i32 (1 - 1)) with 0. lia.
  - (* PRelease *)
    assert (EH : outHolder q = Some t) by by apply Hin. rewrite bool_decide_true by done. cbn [ASSERT mbind res_bind].
    rewrite EH in k_io0. cbn [phase] in k_io0. rewrite Ep in k_io0.
    assert (Hth : at_ (after_PutChar (caller C t)) = GAcquire \/ at_ (after_PutChar (caller C t)) = Returned)
      by (unfold after_PutChar; case_match; [by left|by right]).
    set (th := after_PutChar (caller C t)) in *. apply put_moves; [exact HC|exact Hget|by right| | | | | |done|].
    + by destruct Hth as [-> | ->].
    + unfold holder. by destruct Hth as [-> | ->].
    + cbn. by rewrite k_out_lock0, EH.
    + rewrite got_app, app_nil_r. destruct k_io0. by split; try done; destruct Hth as [-> | ->].
    + by rewrite shown_app, app_nil_r.
    + intros t'. cbn. unfold unshown. rewrite Ep. destruct Hth as [-> | ->]; by destruct (decide (t = t')).
Qed.

Lemma caller_step_ok C t : console_ok C -> runs (caller_step inDev outDev t C).
Proof. intros HC. unfold caller_step. destruct (at_ (caller C t)); try (by apply char_get_ok); try (by apply char_put_ok). by left. Qed.

(** ** Interrupts, calls and the environment *)

(** An interrupt that occurs between two steps. *)
Lemma station_frame C g w i d : console_ok C ->
  g = flag (phase C (inHolder (synchConsoleIn (consoles C)))) GGet -> w = flag (phase C (outHolder (synchConsoleOut (consoles C)))) PWait ->
  io_ok g w (typed C) (got (log C)) i d -> io_frame (consoles C) d -> console_ok (mkStation i d (threads C) (typed C) (log C)).
Proof.
  intros [] -> -> HV (F1 & F2 & F3 & F4 & _ & F6). split; cbn [consoles intr typed log]; rewrite ?F1, ?F2, ?F3, ?F4, ?F6; done.
Qed.

#[local] Abbreviation tick := (@OneTick Consoles (console_devices inDev outDev)).
#[local] Abbreviation idle := (@Idle Consoles (console_devices inDev outDev)).

Lemma station_tick C : console_ok C -> clock_ok C ->
  exists i d y, tick (intr C) (consoles C) = Ok (i, d, y) /\ console_ok (mkStation i d (threads C) (typed C) (log C)).
Proof.
  intros HC Hc. pose proof (k_io _ HC) as HV.
  destruct (OneTick_total _ _ (console_preserved inDev outDev devices_differ _ _ _ _ (consoles C)) _ _ (conj HV (conj eq_refl (conj eq_refl
    (conj eq_refl (conj eq_refl (conj eq_refl eq_refl)))))) Hc) as (i & d & y & E & HV' & HF).
  exists i, d, y. split; [exact E|]. by eapply station_frame.
Qed.

Lemma station_idle C : console_ok C -> clock_ok C ->
  exists i d, idle (ChangeLevel (intr C) IntOff) (consoles C) = Ok (bool_decide (pending (intr C) <> []), i, d) /\
    console_ok (mkStation i d (threads C) (typed C) (log C)).
Proof.
  intros HC Hc. pose proof (k_io _ HC) as HV. apply (io_later inDev outDev _ _ _ _ _ (ChangeLevel (intr C) IntOff)) in HV; [|done..].
  destruct (Idle_total _ _ (console_preserved inDev outDev devices_differ _ _ _ _ (consoles C)) _ _ (conj HV (conj eq_refl (conj eq_refl
    (conj eq_refl (conj eq_refl (conj eq_refl eq_refl))))))) as (i & d & E & HV' & HF); [done|exact Hc|].
  exists i, d. split; [exact E|]. by eapply station_frame.
Qed.

(** A thread that was in no routine is at the start of one. *)
Lemma begin_ok C t th es : console_ok C -> at_ (caller C t) = Returned -> at_ th = GAcquire \/ at_ th = PAcquire ->
  es = (if decide (at_ th = PAcquire) then [Asked t (ch th)] else []) ->
  console_ok (mkStation (intr C) (consoles C) (<[t := th]> (threads C)) (typed C) (log C ++ es)).
Proof.
  intros [] Ep Hth Ees.
  destruct (outside_step in_get C _ t th (intr C) (consoles C) (typed C) (log C ++ es) k_in0) as [H1 E1]; [by rewrite Ep|by destruct Hth as [-> | ->]|].
  destruct (outside_step in_put C _ t th (intr C) (consoles C) (typed C) (log C ++ es) k_out0) as [H2 E2]; [by rewrite Ep|by destruct Hth as [-> | ->]|].
  assert (Eg : got es = [] /\ shown es = [] /\ forall t', shown_by t' es = []) by (rewrite Ees; by destruct (decide _)).
  destruct Eg as (Eg & Es & Eb). split; cbn [consoles intr typed log]; try done.
  - rewrite E1, E2, got_app, Eg, app_nil_r. done.
  - by rewrite shown_app, Es, app_nil_r.
  - intros t'. rewrite shown_by_app, Eb, app_nil_r, asked_by_app, <- k_asked0, caller_insert.
    destruct (decide (t = t')) as [<-|Ht].
    + unfold unshown at 2. rewrite Ep, app_nil_r. unfold unshown. rewrite Ees. f_equal. destruct Hth as [Hth|Hth]; rewrite Hth; [done|].
      rewrite decide_True by done. cbn. by rewrite decide_True.
    + rewrite Ees. fold (caller C t'). destruct (decide _); cbn; rewrite ?decide_False by done; by rewrite app_nil_r.
Qed.

Lemma start_ok C t c : console_ok C -> at_ (caller C t) = Returned -> console_ok (begin t c C).
Proof.
  intros HC Ep. destruct c as [|c|]; cbn [begin].
  - rewrite <- (app_nil_r (log C)). apply begin_ok; [done|done|by left|done].
  - apply begin_ok; [done|done|by right|done].
  - rewrite <- (app_nil_r (log C)). apply begin_ok; [done|done|by left|done].
Qed.

Lemma type_ok C b : console_ok C -> closed (keyboard C) = false -> console_ok (type_byte b C).
Proof.
  intros [] Hc. split; try done. destruct k_io0 as [H1 H2 H3 H4 H5 H6]. split; try done. exact (feed_type _ _ _ _ _ b Hc H3).
Qed.

Lemma close_ok C : console_ok C -> console_ok (close_keyboard C).
Proof.
  intros []. split; try done. destruct k_io0 as [H1 H2 H3 H4 H5 H6]. split; try done. exact (feed_close _ _ _ _ _ H3).
Qed.

Lemma cstep_ok calls C C' : console_ok C -> cstep inDev outDev calls C C' -> console_ok C'.
Proof.
  intros HC HS. destruct HS as [C t C' Hc E|C i d y Hc E|C i d Hc HB E|C t c Hcl Ep|C b Hk|C].
  - destruct (caller_step_ok C t HC) as [E'|(C1 & E' & H1)]; rewrite E in E'; [done|]. by injection E' as <-.
  - destruct (station_tick C HC Hc) as (i1 & d1 & y1 & E1 & H1). rewrite E in E1. by injection E1 as <- <- <-.
  - destruct (station_idle C HC Hc) as (i1 & d1 & E1 & H1). rewrite E in E1. by injection E1 as _ <- <-.
  - by apply start_ok.
  - by apply type_ok.
  - by apply close_ok.
Qed.

Lemma csteps_ok calls C C' : rtc (cstep inDev outDev calls) C C' -> console_ok C -> console_ok C'.
Proof. induction 1 as [|C1 C2 C3 HS _ IH]; [done|]. intros H. by apply IH, (cstep_ok calls C1). Qed.

Lemma newStation_ok C : newStation inDev = Ok C -> console_ok C.
Proof.
  unfold newStation, newSynchConsoleInput, newConsoleInput. rewrite Schedule_total by (constructor || done). cbn [mbind res_bind]. intros [= <-].
  split; cbn [consoles]; try done. split.
  - apply scheduled_ok; [by split; constructor|by left].
  - apply scheduled_soon; [by split|done].
  - cbn -[count]. rewrite count_cons, decide_True by done. exact (f_poll (mkConsoleInput [] false EOF) [] [] [] eq_refl (Forall_nil_2 _) eq_refl eq_refl).
  - done.
  - cbn -[count]. by rewrite count_cons, decide_False.
  - cbn -[count]. by rewrite count_cons, decide_False.
Qed.

(** ** Why a thread is blocked *)

Lemma blocked_on C t : console_ok C -> caller_step inDev outDev t C = Ok None ->
  match at_ (caller C t) with
  | GAcquire => exists t', inHolder (synchConsoleIn (consoles C)) = Some t'
  | GWait => count inDev (pending (intr C)) = 1 \/ exists s, got (log C) = s ++ [EOF]
  | PAcquire => exists t', outHolder (synchConsoleOut (consoles C)) = Some t'
  | PWait => count outDev (pending (intr C)) = 1
  | Returned => True
  | _ => False
  end.
Proof.
  intros HC E. pose proof HC as []. pose proof (k_in0 t) as Hin. pose proof (k_out0 t) as Hout.
  unfold caller_step, GetChar_step, PutChar_step in E. destruct (at_ (caller C t)) eqn:Ep; try done.
  - case_bool_decide as Hl; [|done]. rewrite k_in_lock0 in Hl. destruct (inHolder _) as [t'|]; [by exists t'|done].
  - case_bool_decide as Hl; [|done]. rewrite (proj1 Hin) in k_io0 by done. cbn [phase] in k_io0. rewrite Ep in k_io0.
    destruct k_io0 as [_ _ H3 _ _ _]. rewrite Hl in H3. inversion H3; [by left|right; by eexists].
  - by destruct (ConsoleInput_GetChar _ _ _) as [[[? ?] ?]| | |].
  - case_bool_decide; [|done]. cbn [ASSERT mbind res_bind] in E. by destruct (after_GetChar _ _).
  - case_bool_decide as Hl; [|done]. rewrite k_out_lock0 in Hl. destruct (outHolder _) as [t'|]; [by exists t'|done].
  - by destruct (ConsoleOutput_PutChar _ _ _ _) as [[? ?]| | |].
  - case_bool_decide as Hl; [|done]. rewrite (proj1 Hout) in k_io0 by done. cbn [phase] in k_io0. rewrite Ep in k_io0.
    destruct k_io0 as [_ _ _ _ (H5 & _) _]. change (flag PWait PWait) with 1 in H5. lia.
  - case_bool_decide; [|done]. done.
Qed.

End station.
