(* ===== verification/ConsoleClaims.v ===== *)
(** * The console: the theorems *)

From S2P Require Import Prelude Lists ListProofs Sched Interrupt InterruptProofs Devices Console ConsoleProofs ConsoleInv.
Import Interrupt.Interrupt.

(** What is on the display. *)
Definition display (C : Station) : list Z := writeFile (consoleOutput (synchConsoleOut (consoles C))).



Section console.
Context (inDev outDev : Z) (devices_differ : inDev <> outDev).

#[local] Abbreviation cstep := (cstep inDev outDev).
#[local] Abbreviation caller_step := (caller_step inDev outDev).
#[local] Abbreviation tick := (@OneTick Consoles (console_devices inDev outDev)).

(** C13: the console serves its threads.  Any threads call [GetChar] and [PutChar] and run
    [ConsoleTest], while bytes are typed, the keyboard is closed and interrupts occur, in
    any order.  No step of a thread and no interrupt fails: the assertions of the
    devices and of the locks hold.  What the calls of [GetChar] have returned, all
    together, is a prefix of the characters that were typed: none is lost,
    repeated or invented, and the stream ends with the end of the file or with the
    first character that looks like it.  Each thread's characters are on the
    display in the order of its calls, all but the one that it is writing.  A
    thread is only blocked while another one is in the same routine, or until an
    interrupt that is pending, or because the end of the input has been returned
    before. *)
Theorem console_serves (calls : Z -> call -> Prop) (C0 C : Station) : newStation inDev = Ok C0 -> rtc (cstep calls) C0 C ->
  (forall t, exists r, caller_step t C = Ok r) /\
  (clock_ok C -> exists r, tick (intr C) (consoles C) = Ok r) /\
  got (log C) `prefix_of` stream (closed (keyboard C)) (typed C) /\
  display C = shown (log C) /\
  (forall t, shown_by t (log C) ++ unshown (caller C t) = asked_by t (log C)) /\
  (forall t, caller_step t C = Ok None ->
     match at_ (caller C t) with
     | Returned => True
     | GAcquire => exists t', inHolder (synchConsoleIn (consoles C)) = Some t'
     | GWait => count inDev (pending (intr C)) = 1 \/ exists s, got (log C) = s ++ [EOF]
     | PAcquire => exists t', outHolder (synchConsoleOut (consoles C)) = Some t'
     | PWait => count outDev (pending (intr C)) = 1
     | _ => False
     end).
Proof.
  intros E HR. assert (HC : console_ok inDev outDev C) by (by apply (csteps_ok inDev outDev devices_differ _ _ _ HR), newStation_ok).
  split_and!.
  - intros t. destruct (caller_step_ok inDev outDev devices_differ C t HC) as [-> |(C' & -> & _)]; by eexists.
  - intros Hc. destruct (station_tick inDev outDev devices_differ C HC Hc) as (i & d & y & -> & _). by eexists.
  - exact (feed_stream _ _ _ _ _ (o_feed _ _ _ _ _ _ _ _ (k_io _ _ _ HC))).
  - exact (k_shown _ _ _ HC).
  - exact (k_asked _ _ _ HC).
  - intros t Ht. pose proof (blocked_on inDev outDev C t HC Ht) as H. by destruct (at_ (caller C t)).
Qed.

(** ** The echo *)

Section echo.
Context (t : Z).












End echo.

(** ** Running a schedule *)

Inductive act : Type := AThread (t : Z) | ATick | ACall (t : Z) (c : call) | AType (b : Z) | AClose.

#[local] Instance decide_clock_ok C : Decision (clock_ok C).
Proof. unfold clock_ok. apply _. Defined.

Definition exec1 (a : act) (C : Station) : option Station :=
  match a with
  | AThread t => if decide (clock_ok C) then match caller_step t C with Ok r => r | _ => None end else None
  | ATick =>
      if decide (clock_ok C) then
        match tick (intr C) (consoles C) with Ok (i, d, _) => Some (mkStation i d (threads C) (typed C) (log C)) | _ => None end
      else None
  | ACall t c => if decide (at_ (caller C t) = Returned) then Some (begin t c C) else None
  | AType b => if closed (keyboard C) then None else Some (type_byte b C)
  | AClose => Some (close_keyboard C)
  end.

Fixpoint exec (l : list act) (C : Station) : option Station :=
  match l with [] => Some C | a :: l' => C' ← exec1 a C; exec l' C' end.

Definition allowed (calls : Z -> call -> Prop) (a : act) : Prop := match a with ACall t c => calls t c | _ => True end.

Lemma console_exec1_sound calls a C C' : allowed calls a -> exec1 a C = Some C' -> cstep calls C C'.
Proof.
  destruct a as [t| |t c|b|]; cbn [exec1 allowed]; intros Ha E.
  - case_decide; [|done]. destruct (caller_step t C) as [r| | |] eqn:Et; try done. subst r. by eapply c_thread.
  - case_decide; [|done]. destruct (OneTick _ _) as [[[i d] y]| | |] eqn:Et; try done. injection E as <-. by eapply c_tick.
  - case_decide; [|done]. injection E as <-. by apply c_call.
  - destruct (closed (keyboard C)) eqn:Ek; [done|]. injection E as <-. by apply c_type.
  - injection E as <-. apply c_close.
Qed.

Lemma console_exec_sound calls l C C' : Forall (allowed calls) l -> exec l C = Some C' -> rtc (cstep calls) C C'.
Proof.
  intros Hl. revert C. induction Hl as [|a l Ha _ IH]; intros C E; cbn in E; [by injection E as <-|].
  apply bind_Some in E as (C1 & E1 & E). eapply rtc_l; [by eapply console_exec1_sound|by apply IH].
Qed.

End console.

(** Two characters are typed, the keyboard is closed, and the echo is run to its end;
    two threads use the console at the same time. *)
Definition steps_of (t : Z) (n : nat) : list act := replicate n (AThread t).
Definition ten_ticks : list act := replicate 10 ATick.
Definition shared_schedule : list act :=
  [ACall 1 CGet; ACall 2 (CPut 65); AThread 1; AThread 2; AThread 2; AType 255; AType 104; ACall 3 (CPut 66)] ++ ten_ticks ++
  steps_of 1 3 ++ steps_of 2 2 ++ steps_of 3 2.

Definition demo_station : Station :=
  match newStation 100 with Ok C => C | _ => mkStation newInterrupt (mkConsoles (mkSynchIn (mkConsoleInput [] false 0) 0 None 0) newSynchConsoleOutput 0 0) ∅ [] [] end.
Definition shared_end : Station := default demo_station (exec 100 200 shared_schedule demo_station).

Lemma console_serves_witness :
  got (log shared_end) = [EOF] /\ display shared_end = [65; 66] /\
  (forall t, exists r, caller_step 100 200 t shared_end = Ok r) /\ got (log shared_end) `prefix_of` stream false [255; 104] /\
  (caller_step 100 200 3 shared_end = Ok None /\ count 200 (pending (intr shared_end)) = 1).
Proof.
  split; [vm_compute; reflexivity|]. split; [vm_compute; reflexivity|].
  destruct (console_serves 100 200 ltac:(done) (fun _ _ => True) demo_station shared_end) as (H1 & _ & H3 & _ & _ & H6).
  - vm_compute. reflexivity.
  - apply (console_exec_sound 100 200 _ shared_schedule).
    + apply Forall_true. by intros [].
    + vm_compute. reflexivity.
  - assert (Hb : caller_step 100 200 3 shared_end = Ok None) by (vm_compute; reflexivity).
    split; [exact H1|]. split; [|split; [exact Hb|]].
    + assert (E : stream (closed (keyboard shared_end)) (typed shared_end) = stream false [255; 104]) by (vm_compute; reflexivity).
      rewrite <- E. exact H3.
    + specialize (H6 3 Hb). assert (Ep : at_ (caller shared_end 3) = PWait) by (vm_compute; reflexivity). rewrite Ep in H6. exact H6.
Defined.

