(* ===== verification/Switch.v ===== *)
(** * Context switches: threads/switch.s and threads/switch.h for the x86, and the
      stacks of threads/thread.cc

    The part of the host's processor that the assembly uses: eight registers, the
    program counter and a memory of words at addresses divisible by four.  [SWITCH]
    and [ThreadRoot] are the lists of their instructions.

    The host runs the threads of the kernel on its one processor; they take turns by
    calls of [SWITCH].  The specification gives every thread registers and a program
    counter of its own, and a switch only changes which thread is running.  The events
    are the same for both: C++ code at work, creation and deletion of threads, the check
    of the fence post, and calls of [SWITCH]. *)

From S2P Require Import Prelude.

(** ** The host's processor *)

Inductive reg := EAX | EBX | ECX | EDX | ESI | EDI | EBP | ESP.
#[global] Instance reg_eq_dec : EqDecision reg.
Proof. solve_decision. Defined.

Record Regs := mkRegs { eax : Z; ebx : Z; ecx : Z; edx : Z; esi : Z; edi : Z; ebp : Z; esp : Z }.

Definition get (x : reg) (r : Regs) : Z :=
  match x with EAX => eax r | EBX => ebx r | ECX => ecx r | EDX => edx r | ESI => esi r | EDI => edi r | EBP => ebp r | ESP => esp r end.

Definition set (x : reg) (v : Z) (r : Regs) : Regs :=
  let '(mkRegs a b c d s t u w) := r in
  match x with
  | EAX => mkRegs v b c d s t u w | EBX => mkRegs a v c d s t u w | ECX => mkRegs a b v d s t u w | EDX => mkRegs a b c v s t u w
  | ESI => mkRegs a b c d v t u w | EDI => mkRegs a b c d s v u w | EBP => mkRegs a b c d s t v w | ESP => mkRegs a b c d s t u v
  end.

Definition memory := Z -> Z.
Definition write (a v : Z) (m : memory) : memory := fun x => if decide (x = a) then v else m x.

Record cpu := mkCpu { regs : Regs; eip : Z; mem : memory }.

(** [%reg], [offset(%reg)] and the word of a label. *)
Inductive operand := Reg (x : reg) | Off (offset : Z) (x : reg) | Var (label : Z).

Inductive instr := movl (src dst : operand) | pushl (x : reg) | popl (x : reg) | call (x : reg) | ret.

Definition load (o : operand) (s : cpu) : Z :=
  match o with
  | Reg x => get x (regs s)
  | Off k x => mem s (u32 (get x (regs s) + k))
  | Var a => mem s a
  end.

Definition store (o : operand) (v : Z) (s : cpu) : cpu :=
  match o with
  | Reg x => mkCpu (set x v (regs s)) (eip s) (mem s)
  | Off k x => mkCpu (regs s) (eip s) (write (u32 (get x (regs s) + k)) v (mem s))
  | Var a => mkCpu (regs s) (eip s) (write a v (mem s))
  end.

Definition jump (a : Z) (s : cpu) : cpu := mkCpu (regs s) a (mem s).
Definition push (v : Z) (s : cpu) : cpu :=
  let sp := u32 (esp (regs s) - 4) in mkCpu (set ESP sp (regs s)) (eip s) (write sp v (mem s)).
Definition pop (s : cpu) : Z * cpu :=
  (mem s (esp (regs s)), mkCpu (set ESP (u32 (esp (regs s) + 4)) (regs s)) (eip s) (mem s)).

(** One instruction, [next] being the address of the one behind it. *)
Definition exec (i : instr) (next : Z) (s : cpu) : cpu :=
  match i with
  | movl a b => jump next (store b (load a s) s)
  | pushl x => jump next (push (get x (regs s)) s)
  | popl x => let '(v, s) := pop s in jump next (store (Reg x) v s)
  | call x => jump (get x (regs s)) (push next s)
  | ret => let '(v, s) := pop s in jump v s
  end.

(** ** switch.h: where the registers are in a Thread object *)

Definition _ESP : Z := 0.
Definition _EAX : Z := 4.
Definition _EBX : Z := 8.
Definition _ECX : Z := 12.
Definition _EDX : Z := 16.
Definition _EBP : Z := 20.
Definition _ESI : Z := 24.
Definition _EDI : Z := 28.
Definition _PC : Z := 32.

Definition PCState : Z := _PC / 4 - 1.
Definition InitialPCState : Z := _ESI / 4 - 1.
Definition InitialArgState : Z := _EDX / 4 - 1.
Definition WhenDonePCState : Z := _EDI / 4 - 1.
Definition StartupPCState : Z := _ECX / 4 - 1.

Definition InitialPC : reg := ESI.
Definition InitialArg : reg := EDX.
Definition WhenDonePC : reg := EDI.
Definition StartupPC : reg := ECX.

(** The members of Thread used here: [stackTop] comes first, then [machineState],
    then [stack]. *)
Definition MachineStateSize : Z := 75.
Definition stackTop (t : Z) : Z := t.
Definition machineState (t i : Z) : Z := t + 4 + 4 * i.
Definition stack (t : Z) : Z := machineState t MachineStateSize.

Definition StackSize : Z := 8 * 1024.
Definition STACK_FENCEPOST : Z := 0xdedbeef.

(** ** switch.s *)

Section assembly.
(** The addresses of the labels, and the length of each instruction. *)
Context (_eax_save ThreadRoot SWITCH : Z) (size : instr -> Z).

Definition ThreadRoot_code : list instr := [
  pushl EBP;
  movl (Reg ESP) (Reg EBP);
  pushl InitialArg;
  call StartupPC;
  call InitialPC;
  call WhenDonePC;
  (* not reached *)
  movl (Reg EBP) (Reg ESP);
  popl EBP;
  ret ].

Definition SWITCH_code : list instr := [
  movl (Reg EAX) (Var _eax_save);
  movl (Off 4 ESP) (Reg EAX);
  movl (Reg EBX) (Off _EBX EAX);
  movl (Reg ECX) (Off _ECX EAX);
  movl (Reg EDX) (Off _EDX EAX);
  movl (Reg ESI) (Off _ESI EAX);
  movl (Reg EDI) (Off _EDI EAX);
  movl (Reg EBP) (Off _EBP EAX);
  movl (Reg ESP) (Off _ESP EAX);
  movl (Var _eax_save) (Reg EBX);
  movl (Reg EBX) (Off _EAX EAX);
  movl (Off 0 ESP) (Reg EBX);
  movl (Reg EBX) (Off _PC EAX);
  movl (Off 8 ESP) (Reg EAX);
  movl (Off _EAX EAX) (Reg EBX);
  movl (Reg EBX) (Var _eax_save);
  movl (Off _EBX EAX) (Reg EBX);
  movl (Off _ECX EAX) (Reg ECX);
  movl (Off _EDX EAX) (Reg EDX);
  movl (Off _ESI EAX) (Reg ESI);
  movl (Off _EDI EAX) (Reg EDI);
  movl (Off _EBP EAX) (Reg EBP);
  movl (Off _ESP EAX) (Reg ESP);
  movl (Off _PC EAX) (Reg EAX);
  movl (Reg EAX) (Off 4 ESP);
  movl (Var _eax_save) (Reg EAX);
  ret ].

(** The instruction at an address of a routine that starts at [base], if there is one. *)
Fixpoint fetch (code : list instr) (base pc : Z) : option instr :=
  match code with
  | [] => None
  | i :: code => if decide (pc = base) then Some i else fetch code (base + size i) pc
  end.

(** The processor in one of the two routines; it leaves them by a call or a return. *)
Definition step (s : cpu) : option cpu :=
  i ← match fetch ThreadRoot_code ThreadRoot (eip s) with
      | Some i => Some i
      | None => fetch SWITCH_code SWITCH (eip s)
      end;
  Some (exec i (eip s + size i) s).

(** Straight-line code, for [n] instructions. *)
Fixpoint steps (n : nat) (s : cpu) : option cpu :=
  match n with
  | O => Some s
  | S n => s ← step s; steps n s
  end.

(** ** thread.cc *)

(** [Thread::StackAllocate]: [AllocBoundedArray] returned [stk]; [ThreadBegin] and
    [ThreadFinish] are the addresses of the functions of that name. *)
Definition StackAllocate (ThreadBegin ThreadFinish t stk func arg : Z) (m : memory) : memory :=
  let m := write (stack t) stk m in
  let m := write (stackTop t) (stk + 4 * (StackSize - 4)) m in
  let m := write (stackTop t) (m (stackTop t) - 4) m in
  let m := write (m (stackTop t)) ThreadRoot m in
  let m := write stk STACK_FENCEPOST m in
  let m := write (machineState t PCState) ThreadRoot m in
  let m := write (machineState t StartupPCState) ThreadBegin m in
  let m := write (machineState t InitialPCState) func m in
  let m := write (machineState t InitialArgState) arg m in
  write (machineState t WhenDonePCState) ThreadFinish m.

(** [Thread::CheckOverflow] *)
Definition CheckOverflow (t : Z) (m : memory) : res () :=
  if bool_decide (m (stack t) <> 0) then ASSERT (bool_decide (m (m (stack t)) = STACK_FENCEPOST)) else Ok ().
End assembly.

(** ** Threads on one processor, and on a processor each *)

(** Where [SWITCH] keeps the registers of a thread. *)
Definition save_area (t x : Z) : Prop := t <= x < t + 36.

Section threads.
Context (_eax_save ThreadRoot SWITCH : Z) (size : instr -> Z) (ThreadBegin ThreadFinish : Z).

(** ** Events

    [Compute f]: compiled code of the running thread, up to the first instruction of
    [SWITCH] when it calls it.  [Delete t junk]: what is left in the memory of a deleted
    thread is indeterminate. *)
Inductive event :=
| Compute (f : cpu -> cpu)
| CheckStack
| Fork (t stk func arg : Z)
| Delete (t : Z) (junk : memory)
| Switch (next : Z).

(** ** The host *)

Record host := mkHost { current : Z; proc : cpu }.

Definition set_mem (m : memory) (s : cpu) : cpu := mkCpu (regs s) (eip s) m.

Definition in_range (lo hi x : Z) : Prop := lo <= x < hi.

(** The memory of a deleted thread: its object up to its stack pointer, and its stack. *)
Definition scrap (t lo hi : Z) (junk m : memory) : memory :=
  fun x => if decide (t <= x < t + 36) then junk x else if decide (lo <= x < hi) then junk x else m x.

Definition run (e : event) (h : host) : res host :=
  match e with
  | Compute f => Ok (mkHost (current h) (f (proc h)))
  | CheckStack => CheckOverflow (current h) (mem (proc h)) ≫= fun _ => Ok h
  | Fork t stk func arg =>
      Ok (mkHost (current h) (set_mem (StackAllocate ThreadRoot ThreadBegin ThreadFinish t stk func arg (mem (proc h))) (proc h)))
  | Delete t junk =>
      let stk := mem (proc h) (stack t) in
      Ok (mkHost (current h) (set_mem (scrap t stk (stk + 4 * StackSize) junk (mem (proc h))) (proc h)))
  | Switch next =>
      match steps _eax_save ThreadRoot SWITCH size 27 (proc h) with
      | Some p => Ok (mkHost next p)
      | None => Undef
      end
  end.

Fixpoint runs (es : list event) (h : host) : res host :=
  match es with
  | [] => Ok h
  | e :: es => run e h ≫= runs es
  end.

(** ** The specification *)

(** A thread with its registers, its program counter and the bounds of its stack. *)
Record context := mkContext { c_regs : Regs; c_eip : Z; c_lo : Z; c_hi : Z }.
Record world := mkWorld { running : Z; threads : gmap Z context; amem : memory }.

Definition processor (w : world) (c : context) : cpu := mkCpu (c_regs c) (c_eip c) (amem w).

(** The words that compiled code of the running thread has nothing to do with: the
    save areas, the variable of [SWITCH], and the return address and first argument of
    the calls of [SWITCH] that the other threads are in. *)
Definition hidden (w : world) (x : Z) : Prop :=
  x = _eax_save \/ exists t c, threads w !! t = Some c /\
    (save_area t x \/ t <> running w /\ (x = esp (c_regs c) - 4 \/ x = esp (c_regs c))).

Definition agree (H : Z -> Prop) (m m' : memory) : Prop := forall x, ~ H x -> m x = m' x.

(** Code that, run with the registers [r] at [pc], neither reads nor writes the words [H]. *)
Record local (H : Z -> Prop) (r : Regs) (pc : Z) (f : cpu -> cpu) : Prop := mkLocal {
  l_reads m m' : agree H m m' ->
    regs (f (mkCpu r pc m)) = regs (f (mkCpu r pc m')) /\ eip (f (mkCpu r pc m)) = eip (f (mkCpu r pc m')) /\
    agree H (mem (f (mkCpu r pc m))) (mem (f (mkCpu r pc m')));
  l_writes m x : H x -> mem (f (mkCpu r pc m)) x = m x }.

Definition apart (a a' b b' : Z) : Prop := a' <= b \/ b' <= a.

(** Where the objects of a thread are. *)
Record placed (t lo hi : Z) : Prop := mkPlaced {
  p_object : 0 < t /\ t + 308 <= 4294967296 /\ t mod 4 = 0;
  p_stack : 0 < lo /\ lo < hi /\ hi <= 4294967296 /\ lo mod 4 = 0 /\ hi mod 4 = 0;
  p_apart : apart t (t + 308) lo hi;
  p_var : ~ in_range t (t + 308) _eax_save /\ ~ in_range lo hi _eax_save }.

Record separate (t lo hi u lo' hi' : Z) : Prop := mkSeparate {
  s_objects : apart t (t + 308) u (u + 308);
  s_stacks : apart lo hi lo' hi';
  s_left : apart t (t + 308) lo' hi';
  s_right : apart u (u + 308) lo hi }.

Definition new_sp (stk : Z) : Z := stk + 4 * (StackSize - 4).

Definition new_regs (ThreadBegin ThreadFinish : Z) (m : memory) (t stk func arg : Z) : Regs :=
  mkRegs (m (t + _EAX)) (m (t + _EBX)) ThreadBegin arg func ThreadFinish (m (t + _EBP)) (new_sp stk).

Definition resumed (c : context) (pc : Z) : context :=
  mkContext (set ESP (esp (c_regs c) + 4) (c_regs c)) pc (c_lo c) (c_hi c).

Inductive astep (w : world) : event -> world -> Prop :=
| a_compute f c : threads w !! running w = Some c -> local (hidden w) (c_regs c) (c_eip c) f ->
    let s := f (processor w c) in
    astep w (Compute f) (mkWorld (running w) (<[running w := mkContext (regs s) (eip s) (c_lo c) (c_hi c)]> (threads w)) (mem s))
| a_check : (amem w (stack (running w)) <> 0 -> ~ hidden w (amem w (stack (running w)))) ->
    CheckOverflow (running w) (amem w) = Ok () ->
    astep w CheckStack w
| a_fork t stk func arg : threads w !! t = None -> placed t stk (stk + 4 * StackSize) ->
    (forall u c, threads w !! u = Some c -> separate t stk (stk + 4 * StackSize) u (c_lo c) (c_hi c)) ->
    astep w (Fork t stk func arg)
      (mkWorld (running w)
        (<[t := mkContext (new_regs ThreadBegin ThreadFinish (amem w) t stk func arg) ThreadRoot stk (stk + 4 * StackSize)]> (threads w))
        (write (new_sp stk) ThreadRoot (StackAllocate ThreadRoot ThreadBegin ThreadFinish t stk func arg (amem w))))
| a_delete t c junk : threads w !! t = Some c -> t <> running w -> amem w (stack t) = c_lo c -> c_hi c = c_lo c + 4 * StackSize ->
    astep w (Delete t junk) (mkWorld (running w) (delete t (threads w)) (scrap t (c_lo c) (c_hi c) junk (amem w)))
| a_switch t c c' : threads w !! running w = Some c -> threads w !! t = Some c' -> t <> running w ->
    c_eip c = SWITCH ->
    let sp := esp (c_regs c) in
    c_lo c <= sp -> sp + 12 <= c_hi c -> sp mod 4 = 0 ->
    amem w (sp + 4) = running w -> amem w (sp + 8) = t ->
    astep w (Switch t) (mkWorld t (<[running w := resumed c (amem w sp)]> (threads w)) (write (sp + 4) (amem w sp) (amem w))).

Inductive asteps : world -> list event -> world -> Prop :=
| as_nil w : asteps w [] w
| as_cons w e w' es w'' : astep w e w' -> asteps w' es w'' -> asteps w (e :: es) w''.

(** A kernel that has just started: the main thread alone. *)
Definition boot (t : Z) (c : context) (m : memory) : world := mkWorld t {[t := c]} m.
Definition boot_host (t : Z) (c : context) (m : memory) : host := mkHost t (mkCpu (c_regs c) (c_eip c) m).

(** What the running thread sees of the host is what the specification says. *)
Definition looks_like (w : world) (h : host) : Prop :=
  exists c, threads w !! running w = Some c /\ current h = running w /\
    regs (proc h) = c_regs c /\ eip (proc h) = c_eip c /\ agree (hidden w) (mem (proc h)) (amem w).
End threads.
