(* ===== verification/SwitchProofs.v ===== *)
(** * Context switches: what the assembly does *)

From S2P Require Import Prelude Switch.

(** ** Memories *)

Lemma write_eq a v m : write a v m a = v.
Proof. unfold write. by rewrite decide_True. Qed.
Lemma write_ne a b v m : b <> a -> write a v m b = m b.
Proof. intros. unfold write. by rewrite decide_False. Qed.

(** Reads of what was written, and past what was written elsewhere. *)
Ltac reads := repeat match goal with
  | |- context [write ?a ?v ?m ?a] => rewrite (write_eq a v m)
  | |- context [write ?a ?v ?m ?b] => rewrite (write_ne a b v m) by lia
  end.
(** Addresses that do not wrap around. *)
Ltac words := repeat match goal with |- context [u32 ?x] => rewrite (u32_id x) by (unfold is_u32; lia) end.

Section assembly.
Context (_eax_save ThreadRoot SWITCH : Z) (size : instr -> Z).
Context (size_pos : forall i, 0 < size i).

(** ** Straight-line code *)

Fixpoint total (l : list instr) : Z := match l with [] => 0 | i :: l => size i + total l end.

Lemma size_nonneg l : 0 <= total l.
Proof. induction l as [|i l IH]; cbn; [lia|]. specialize (size_pos i). lia. Qed.

Lemma size_app l l' : total (l ++ l') = total l + total l'.
Proof. induction l; cbn; lia. Qed.

Context (apart : ThreadRoot + total ThreadRoot_code <= SWITCH).

Lemma fetch_beyond l base pc : base + total l <= pc -> fetch size l base pc = None.
Proof.
  revert base. induction l as [|i l IH]; intros base H; cbn in *; [done|].
  pose proof (size_pos i). pose proof (size_nonneg l). rewrite decide_False by lia. apply IH. lia.
Qed.

Lemma fetch_at l i l' base : fetch size (l ++ i :: l') base (base + total l) = Some i.
Proof.
  revert base. induction l as [|j l IH]; intros base; cbn; [by rewrite Z.add_0_r, decide_True|].
  pose proof (size_pos j). pose proof (size_nonneg l). rewrite decide_False by lia. rewrite Z.add_assoc. apply IH.
Qed.

#[local] Abbreviation step := (step _eax_save ThreadRoot SWITCH size).
#[local] Abbreviation steps := (steps _eax_save ThreadRoot SWITCH size).

(** The instruction behind [l] in one of the routines. *)
Lemma step_root l i l' s : ThreadRoot_code = l ++ i :: l' -> eip s = ThreadRoot + total l ->
  step s = Some (exec i (ThreadRoot + total l + size i) s).
Proof. intros E H. unfold Switch.step. by rewrite E, H, fetch_at. Qed.

Lemma step_switch l i l' s : SWITCH_code _eax_save = l ++ i :: l' -> eip s = SWITCH + total l ->
  step s = Some (exec i (SWITCH + total l + size i) s).
Proof.
  intros E H. unfold Switch.step. pose proof (size_nonneg l). by rewrite fetch_beyond, E, H, fetch_at by lia.
Qed.

Lemma steps_S n s : steps (S n) s = step s ≫= steps n.
Proof. done. Qed.

Definition is_movl (i : instr) : Prop := match i with movl _ _ => True | _ => False end.

Fixpoint exec_all (l : list instr) (s : cpu) : cpu :=
  match l with [] => s | i :: l => exec_all l (exec i (eip s + size i) s) end.

Lemma steps_movl l l' i rest s :
  SWITCH_code _eax_save = l ++ l' ++ i :: rest -> Forall is_movl l' -> eip s = SWITCH + total l ->
  steps (length l') s = Some (exec_all l' s) /\ eip (exec_all l' s) = SWITCH + total (l ++ l').
Proof.
  revert l s. induction l' as [|j l' IH]; intros l s HC HF HE; [by rewrite app_nil_r|].
  cbn [length exec_all]. rewrite steps_S. apply Forall_cons_1 in HF as [Hj HF]. rewrite (step_switch l j (l' ++ i :: rest)) by done. cbn [mbind option_bind].
  destruct (IH (l ++ [j]) (exec j (SWITCH + total l + size j) s)) as [E1 E2].
  - by rewrite HC, <- app_assoc.
  - done.
  - destruct j; [|done..]. cbn. rewrite size_app. cbn. lia.
  - by rewrite HE, E1, E2, <- app_assoc.
Qed.

Lemma steps_add a b s : steps (a + b) s = s ← steps a s; steps b s.
Proof. revert s. induction a as [|a IH]; intros s; [done|]. rewrite Nat.add_succ_l, !steps_S. destruct (step s) as [s'|]; [apply IH|done]. Qed.

(** ** SWITCH *)

(** The memory when the registers [r] of [t] are saved, to be resumed at [pc]. *)
Definition saved (t : Z) (r : Regs) (pc : Z) (m : memory) : memory :=
  write (t + _PC) pc (write (t + _EAX) (eax r) (write (t + _ESP) (esp r) (write (t + _EBP) (ebp r) (write (t + _EDI) (edi r)
  (write (t + _ESI) (esi r) (write (t + _EDX) (edx r) (write (t + _ECX) (ecx r) (write (t + _EBX) (ebx r) (write _eax_save (eax r) m))))))))).

Lemma saved_other t r pc m x : ~ save_area t x -> x <> _eax_save -> saved t r pc m x = m x.
Proof. unfold saved, save_area, _PC, _EAX, _ESP, _EBP, _EDI, _ESI, _EDX, _ECX, _EBX. intros. by reads. Qed.

(** A frame of a call of [SWITCH]. *)
Record frame (r : Regs) (m : memory) (t1 t2 : Z) : Prop := mkFrame {
  f_esp : 0 <= esp r /\ esp r + 12 <= 4294967296;
  f_t1 : m (esp r + 4) = t1; f_t2 : m (esp r + 8) = t2;
  f_var : _eax_save <> esp r /\ _eax_save <> esp r + 4 /\ _eax_save <> esp r + 8 }.

Record object (r : Regs) (t : Z) : Prop := mkObject {
  o_range : 0 <= t /\ t + 36 <= 4294967296;
  o_var : ~ save_area t _eax_save;
  o_esp : ~ save_area t (esp r) /\ ~ save_area t (esp r + 8) }.

Definition save_code : list instr := take 13 (SWITCH_code _eax_save).
Definition restore_code : list instr := take 13 (drop 13 (SWITCH_code _eax_save)).

Lemma save_exec r pc m t1 t2 : frame r m t1 t2 -> object r t1 ->
  exists pc', exec_all save_code (mkCpu r pc m) =
    mkCpu (mkRegs t1 (m (esp r)) (ecx r) (edx r) (esi r) (edi r) (ebp r) (esp r)) pc' (saved t1 r (m (esp r)) m).
Proof.
  intros [Hr H1 H2 Hv] [Ht Hs He]. unfold save_area in *. destruct r as [a b c d s1 s2 s3 sp]. cbn [Switch.esp] in *.
  eexists. unfold save_code. cbn [take SWITCH_code exec_all exec load store jump Switch.eip regs mem Switch.get Switch.set Switch.eax Switch.ebx Switch.ecx Switch.edx Switch.esi Switch.edi Switch.ebp Switch.esp].
  words. reads. rewrite H1. unfold _ESP, _EAX, _EBX, _ECX, _EDX, _EBP, _ESI, _EDI, _PC. words. reads.
  unfold jump. rewrite (Z.add_0_r sp). reflexivity.
Qed.

Lemma restore_exec r pc m t1 t2 : frame r m t1 t2 -> object r t2 ->
  0 <= m (t2 + _ESP) -> m (t2 + _ESP) + 8 <= 4294967296 ->
  m (t2 + _ESP) + 4 <> _eax_save ->
  exists pc', exec_all restore_code (mkCpu r pc m) =
    mkCpu (mkRegs (m (t2 + _EAX)) (m (t2 + _EBX)) (m (t2 + _ECX)) (m (t2 + _EDX)) (m (t2 + _ESI)) (m (t2 + _EDI)) (m (t2 + _EBP)) (m (t2 + _ESP))) pc'
      (write (m (t2 + _ESP) + 4) (m (t2 + _PC)) (write _eax_save (m (t2 + _EAX)) m)).
Proof.
  intros [Hr H1 H2 Hv] [Ht Hs He] Hlo Hhi Hne. unfold save_area in *. destruct r as [a b c d s1 s2 s3 sp]. cbn [Switch.esp] in *.
  eexists. unfold restore_code. cbn [take drop SWITCH_code exec_all exec load store jump Switch.eip regs mem Switch.get Switch.set Switch.eax Switch.ebx Switch.ecx Switch.edx Switch.esi Switch.edi Switch.ebp Switch.esp].
  words. reads. rewrite H2. unfold _ESP, _EAX, _EBX, _ECX, _EDX, _EBP, _ESI, _EDI, _PC in *. words. reads. words. reads.
  unfold jump. reflexivity.
Qed.
End assembly.
