(* ===== verification/SwitchClaims.v ===== *)
(** * Context switches: the theorems *)

From S2P Require Import Prelude Switch SwitchProofs.

Section threads.
Context (_eax_save ThreadRoot SWITCH : Z) (size : instr -> Z) (ThreadBegin ThreadFinish : Z).
Context (size_pos : forall i, 0 < size i) (text : ThreadRoot + total size ThreadRoot_code <= SWITCH).

#[local] Abbreviation hidden := (hidden _eax_save).
#[local] Abbreviation run := (run _eax_save ThreadRoot SWITCH size ThreadBegin ThreadFinish).
#[local] Abbreviation runs := (runs _eax_save ThreadRoot SWITCH size ThreadBegin ThreadFinish).
#[local] Abbreviation astep := (astep _eax_save ThreadRoot SWITCH ThreadBegin ThreadFinish).
#[local] Abbreviation asteps := (asteps _eax_save ThreadRoot SWITCH ThreadBegin ThreadFinish).
#[local] Abbreviation placed := (placed _eax_save).

(** ** Invariants of the specification *)

Record suspended (c : context) (m : memory) : Prop := mkSuspended {
  su_low : c_lo c <= esp (c_regs c) - 4; su_high : esp (c_regs c) + 4 <= c_hi c;
  su_return : m (esp (c_regs c) - 4) = c_eip c; su_argument : m (esp (c_regs c)) = c_eip c }.

Record valid (w : world) : Prop := mkValid {
  v_running : is_Some (threads w !! running w);
  v_placed t c : threads w !! t = Some c -> placed t (c_lo c) (c_hi c);
  v_separate t u c c' : threads w !! t = Some c -> threads w !! u = Some c' -> t <> u ->
    separate t (c_lo c) (c_hi c) u (c_lo c') (c_hi c');
  v_suspended t c : threads w !! t = Some c -> t <> running w -> suspended c (amem w) }.

(** The save area of a thread that is in [SWITCH]. *)
Record kept (t : Z) (c : context) (m : memory) : Prop := mkKept {
  k_eax : m (t + _EAX) = eax (c_regs c); k_ebx : m (t + _EBX) = ebx (c_regs c); k_ecx : m (t + _ECX) = ecx (c_regs c);
  k_edx : m (t + _EDX) = edx (c_regs c); k_esi : m (t + _ESI) = esi (c_regs c); k_edi : m (t + _EDI) = edi (c_regs c);
  k_ebp : m (t + _EBP) = ebp (c_regs c); k_esp : m (t + _ESP) = esp (c_regs c) - 4; k_pc : m (t + _PC) = c_eip c;
  k_return : m (esp (c_regs c) - 4) = c_eip c }.

Record rel (w : world) (h : host) : Prop := mkRel {
  r_sees : looks_like _eax_save w h;
  r_kept t c : threads w !! t = Some c -> t <> running w -> kept t c (mem (proc h)) }.

Lemma kept_ext t c m m' : kept t c m ->
  (forall x, save_area t x \/ x = esp (c_regs c) - 4 -> m' x = m x) -> kept t c m'.
Proof.
  intros [] H. split; rewrite H; try done; try (by right); left; unfold save_area, _EAX, _EBX, _ECX, _EDX, _ESI, _EDI, _EBP, _ESP, _PC; lia.
Qed.

(** Arithmetic on the places of threads. *)
Ltac places := repeat match goal with
  | H : placed _ _ _ |- _ => destruct H as [? ? ? ?]
  | H : separate _ _ _ _ _ _ |- _ => destruct H as [? ? ? ?]
  | H : suspended _ _ |- _ => destruct H as [? ? ? ?] end;
  unfold in_range, apart, save_area in *.

Lemma hidden_kept w t c : threads w !! t = Some c -> t <> running w ->
  forall x, save_area t x \/ x = esp (c_regs c) - 4 -> hidden w x.
Proof. intros Ht Hn x [H|H]; right; exists t, c; (split; [done|]); [by left|right; split; [done|by left]]. Qed.

(** What is visible: the stack of the running thread, and the members of a thread
    behind its save area. *)
Lemma stack_visible w c x : valid w -> threads w !! running w = Some c -> c_lo c <= x < c_hi c -> ~ hidden w x.
Proof.
  intros V Hc Hx [->|(t & c' & Ht & [Ha|[Hn He]])].
  - pose proof (v_placed w V _ _ Hc). places. lia.
  - destruct (decide (t = running w)) as [->|Hn].
    + simplify_eq. pose proof (v_placed w V _ _ Hc). places. lia.
    + pose proof (v_separate w V _ _ _ _ Ht Hc Hn). places. lia.
  - pose proof (v_separate w V _ _ _ _ Ht Hc Hn). pose proof (v_suspended w V _ _ Ht Hn). places. lia.
Qed.

Lemma member_visible w t c x : valid w -> threads w !! t = Some c -> t + 36 <= x < t + 308 -> ~ hidden w x.
Proof.
  intros V Hc Hx [->|(u & c' & Hu & Ha)].
  - pose proof (v_placed w V _ _ Hc). places. lia.
  - pose proof (v_placed w V _ _ Hc). destruct (decide (u = t)) as [->|Hn].
    + simplify_eq. destruct Ha as [Ha|[Hn He]]; [places; lia|]. pose proof (v_suspended w V _ _ Hc Hn). places. lia.
    + pose proof (v_separate w V _ _ _ _ Hu Hc Hn). destruct Ha as [Ha|[Hr He]]; [places; lia|].
      pose proof (v_suspended w V _ _ Hu Hr). places. lia.
Qed.

(** The words a suspended thread is kept in belong to no other thread. *)
Lemma kept_far w u d v e x : valid w -> threads w !! u = Some d -> threads w !! v = Some e -> u <> v -> u <> running w ->
  save_area u x \/ x = esp (c_regs d) - 4 -> ~ save_area v x /\ ~ in_range (c_lo e) (c_hi e) x /\ x <> _eax_save.
Proof.
  intros V Hu Hv Hne Hr Hx. pose proof (v_separate w V _ _ _ _ Hu Hv Hne). pose proof (v_suspended w V _ _ Hu Hr). pose proof (v_placed w V _ _ Hu).
  clear V Hu Hv. places. destruct Hx; lia.
Qed.

Lemma stack_member t : stack t = t + 304.
Proof. unfold stack, machineState, MachineStateSize. lia. Qed.

(** ** Compiled code, and the check of the fence post *)

Lemma hidden_compute w c c' m : threads w !! running w = Some c ->
  forall x, hidden (mkWorld (running w) (<[running w := c']> (threads w)) m) x <-> hidden w x.
Proof.
  intros Hc x. unfold Switch.hidden. cbn. apply or_iff_compat_l. split; intros (t & d & Ht & H).
  - apply lookup_insert_Some in Ht as [[<- <-]|[Hn Ht]]; [|by eauto].
    exists (running w), c. split; [done|]. destruct H as [H|[H _]]; [by left|done].
  - destruct (decide (t = running w)) as [->|Hn].
    + exists (running w), c'. rewrite lookup_insert_eq. split; [done|]. destruct H as [H|[H _]]; [by left|done].
    + exists t, d. rewrite lookup_insert_ne by done. done.
Qed.

Lemma agree_iff (H H' : Z -> Prop) m m' : (forall x, H' x <-> H x) -> agree H m m' -> agree H' m m'.
Proof. intros E A x Hx. apply A. by rewrite <- E. Qed.

Lemma compute_ok w h f c : valid w -> rel w h -> threads w !! running w = Some c -> local (hidden w) (c_regs c) (c_eip c) f ->
  let s := f (processor w c) in
  let w' := mkWorld (running w) (<[running w := mkContext (regs s) (eip s) (c_lo c) (c_hi c)]> (threads w)) (mem s) in
  let h' := mkHost (current h) (f (proc h)) in
  valid w' /\ rel w' h'.
Proof.
  intros V [(c0 & E & Hcur & Hr & He & Ha) K] Hc [L1 L2] s w' h'. assert (c0 = c) as -> by congruence. clear E. split.
  - split; cbn.
    + by rewrite lookup_insert_eq.
    + intros t d [[<- <-]|[Hn Ht]]%lookup_insert_Some; [exact (v_placed w V _ _ Hc)|exact (v_placed w V _ _ Ht)].
    + intros t u d d' [[<- <-]|[Hn Ht]]%lookup_insert_Some [[<- <-]|[Hn' Hu]]%lookup_insert_Some Hne; cbn; [done|exact (v_separate w V _ _ _ _ Hc Hu Hne)|exact (v_separate w V _ _ _ _ Ht Hc Hne)|by apply (v_separate w V _ _ _ _ Ht Hu Hne)].
    + intros t d [[<- <-]|[Hn Ht]]%lookup_insert_Some Hne; [done|]. destruct (v_suspended w V t d Ht Hne) as [? ? R A].
      unfold s, processor. split; [done|done| |]; rewrite L2; try done; right; exists t, d; (split; [done|]); right; (split; [done|]); [by left|by right].
  - destruct h as [cur [r pc m]]. cbn in *. subst. destruct (L1 m (amem w) Ha) as (E1 & E2 & E3). split.
    + eexists. cbn. rewrite lookup_insert_eq. split; [done|]. split; [done|]. split; [done|]. split; [done|].
      by apply (agree_iff (hidden w)); [apply hidden_compute with c|].
    + cbn. intros t d [[<- <-]|[Hn Ht]]%lookup_insert_Some Hne; [done|]. apply (kept_ext _ _ m); [by apply K|].
      intros x Hx. apply L2. by eapply hidden_kept.
Qed.

Lemma check_stack_ok w h : valid w -> rel w h ->
  (amem w (stack (running w)) <> 0 -> ~ hidden w (amem w (stack (running w)))) -> CheckOverflow (running w) (amem w) = Ok () ->
  run CheckStack h = Ok h.
Proof.
  intros V [(c & Hc & Hcur & _ & _ & Ha) _] Hv HO. unfold Switch.run. rewrite Hcur.
  assert (E : mem (proc h) (stack (running w)) = amem w (stack (running w))).
  { apply Ha, (member_visible w (running w) c); [done|done|]. rewrite stack_member. lia. }
  assert (CheckOverflow (running w) (mem (proc h)) = CheckOverflow (running w) (amem w)) as ->; [|by rewrite HO].
  unfold CheckOverflow. rewrite E. destruct (bool_decide (amem w (stack (running w)) <> 0)) eqn:B; [|done].
  apply bool_decide_eq_true in B. by rewrite (Ha _ (Hv B)).
Qed.

(** ** Creation *)

Lemma stack_allocate_eq t stk func arg m :
  StackAllocate ThreadRoot ThreadBegin ThreadFinish t stk func arg m =
  write (t + 28) ThreadFinish (write (t + 16) arg (write (t + 24) func (write (t + 12) ThreadBegin (write (t + 32) ThreadRoot
  (write stk STACK_FENCEPOST (write (new_sp stk - 4) ThreadRoot (write t (new_sp stk - 4) (write t (new_sp stk) (write (t + 304) stk m))))))))).
Proof.
  unfold StackAllocate. rewrite stack_member. unfold stackTop, machineState. rewrite !write_eq.
  change PCState with 7. change StartupPCState with 2. change InitialPCState with 5. change InitialArgState with 3. change WhenDonePCState with 6.
  replace (t + 4 + 4 * 6) with (t + 28) by lia. replace (t + 4 + 4 * 3) with (t + 16) by lia. replace (t + 4 + 4 * 5) with (t + 24) by lia.
  replace (t + 4 + 4 * 2) with (t + 12) by lia. by replace (t + 4 + 4 * 7) with (t + 32) by lia.
Qed.

Lemma agree_write H a v m m' : agree H m m' -> agree H (write a v m) (write a v m').
Proof. intros A x Hx. unfold write. case_decide; [done|by apply A]. Qed.

Lemma agree_weaken (H H' : Z -> Prop) m m' : (forall x, H x -> H' x) -> agree H m m' -> agree H' m m'.
Proof. intros E A x Hx. apply A. auto. Qed.

Lemma agree_hidden_write (H : Z -> Prop) a v m m' : H a -> agree H m m' -> agree H m (write a v m').
Proof. intros Ha A x Hx. rewrite write_ne by (by intros ->). by apply A. Qed.

Lemma stack_allocate_agree H t stk func arg m m' : agree H m m' ->
  agree H (StackAllocate ThreadRoot ThreadBegin ThreadFinish t stk func arg m) (StackAllocate ThreadRoot ThreadBegin ThreadFinish t stk func arg m').
Proof. intros A. rewrite !stack_allocate_eq. by repeat apply agree_write. Qed.

(** Nothing but the object and the stack is written. *)
Lemma stack_allocate_other t stk func arg m x : apart t (t + 308) x (x + 1) -> apart stk (stk + 4 * StackSize) x (x + 1) ->
  StackAllocate ThreadRoot ThreadBegin ThreadFinish t stk func arg m x = m x.
Proof. unfold apart, StackSize. intros. rewrite stack_allocate_eq. unfold new_sp, StackSize. by reads. Qed.

Lemma stack_allocate_kept t stk func arg m m0 : placed t stk (stk + 4 * StackSize) ->
  m0 (t + _EAX) = m (t + _EAX) -> m0 (t + _EBX) = m (t + _EBX) -> m0 (t + _EBP) = m (t + _EBP) ->
  kept t (mkContext (new_regs ThreadBegin ThreadFinish m0 t stk func arg) ThreadRoot stk (stk + 4 * StackSize))
    (StackAllocate ThreadRoot ThreadBegin ThreadFinish t stk func arg m).
Proof.
  intros [? ? ? ?] E1 E2 E3. unfold apart, in_range, StackSize in *. rewrite stack_allocate_eq.
  split; cbn; rewrite ?E1, ?E2, ?E3; unfold _EAX, _EBX, _ECX, _EDX, _ESI, _EDI, _EBP, _ESP, _PC, new_sp, StackSize;
    rewrite ?Z.add_0_r; by reads.
Qed.

Lemma fork_ok w h t stk func arg : valid w -> rel w h -> threads w !! t = None -> placed t stk (stk + 4 * StackSize) ->
  (forall u c, threads w !! u = Some c -> separate t stk (stk + 4 * StackSize) u (c_lo c) (c_hi c)) ->
  let w' := mkWorld (running w)
        (<[t := mkContext (new_regs ThreadBegin ThreadFinish (amem w) t stk func arg) ThreadRoot stk (stk + 4 * StackSize)]> (threads w))
        (write (new_sp stk) ThreadRoot (StackAllocate ThreadRoot ThreadBegin ThreadFinish t stk func arg (amem w))) in
  exists h', run (Fork t stk func arg) h = Ok h' /\ valid w' /\ rel w' h'.
Proof.
  intros V [(c & Hc & Hcur & Hr & He & Ha) K] Ht P Sep w'. eexists. split; [reflexivity|].
  assert (Hne : t <> running w) by (intros ->; congruence).
  assert (Hh : forall x, hidden w x -> hidden w' x).
  { intros x [->|(u & d & Hu & H)]; [by left|]. right. exists u, d. cbn. rewrite lookup_insert_ne by congruence. done. }
  assert (New : forall x, apart t (t + 308) x (x + 1) -> apart stk (stk + 4 * StackSize) x (x + 1) -> amem w' x = amem w x).
  { intros x H1 H2. cbn. rewrite write_ne by (unfold new_sp, apart, StackSize in *; lia). by apply stack_allocate_other. }
  assert (Vis : forall x, save_area t x -> ~ hidden w x).
  { intros x Hx [->|(u & d & Hu & H)]; [places; lia|]. pose proof (Sep u d Hu). destruct H as [H|[Hn H]]; [places; lia|].
    pose proof (v_suspended w V u d Hu Hn). places. lia. }
  split; split; cbn.
  - rewrite lookup_insert_ne by done. apply V.
  - intros u d [[<- <-]|[Hn Hu]]%lookup_insert_Some; [done|exact (v_placed w V _ _ Hu)].
  - intros u v d d' [[<- <-]|[Hn Hu]]%lookup_insert_Some [[<- <-]|[Hn' Hv]]%lookup_insert_Some Huv; [done|by apply Sep| |exact (v_separate w V _ _ _ _ Hu Hv Huv)].
    destruct (Sep u d Hu). unfold apart in *. split; unfold apart; cbn; lia.
  - intros u d [[<- <-]|[Hn Hu]]%lookup_insert_Some Hu'.
    + destruct P as [? ? ? ?]. unfold apart, in_range in *. split; cbn; rewrite ?stack_allocate_eq; unfold new_sp, StackSize in *; try lia; by reads.
    + change (suspended d (amem w')). destruct (v_suspended w V u d Hu Hu'). pose proof (Sep u d Hu). places. split; try done; rewrite (New _); try done; unfold apart; lia.
  - eexists. cbn. rewrite lookup_insert_ne by done. split; [done|]. split; [done|]. split; [done|]. split; [done|].
    apply agree_hidden_write.
    + right. exists t. eexists. cbn. rewrite lookup_insert_eq. split; [done|]. right. split; [done|]. by right.
    + apply stack_allocate_agree. by apply (agree_weaken (hidden w)).
  - intros u d [[<- <-]|[Hn Hu]]%lookup_insert_Some Hu'.
    + apply stack_allocate_kept; [done|..]; symmetry; apply Ha, Vis; unfold save_area, _EAX, _EBX, _EBP; lia.
    + apply (kept_ext _ _ (mem (proc h))); [by apply K|]. intros x Hx. apply stack_allocate_other;
        pose proof (Sep u d Hu); pose proof (v_suspended w V u d Hu Hu'); places; lia.
Qed.

(** ** Deletion *)

Lemma scrap_other t lo hi junk m x : ~ save_area t x -> ~ in_range lo hi x -> scrap t lo hi junk m x = m x.
Proof. unfold save_area, in_range, scrap. intros. by rewrite !decide_False by done. Qed.

Lemma scrap_agree (H H' : Z -> Prop) t lo hi junk m m' : (forall x, H x -> H' x \/ save_area t x \/ in_range lo hi x) ->
  agree H m m' -> agree H' (scrap t lo hi junk m) (scrap t lo hi junk m').
Proof.
  intros E A x Hx. unfold scrap. case_decide as H1; [done|]. case_decide as H2; [done|]. apply A. intros HH. by destruct (E x HH) as [?|[?|?]].
Qed.

Lemma delete_ok w h t c junk : valid w -> rel w h -> threads w !! t = Some c -> t <> running w ->
  amem w (stack t) = c_lo c -> c_hi c = c_lo c + 4 * StackSize ->
  let w' := mkWorld (running w) (delete t (threads w)) (scrap t (c_lo c) (c_hi c) junk (amem w)) in
  exists h', run (Delete t junk) h = Ok h' /\ valid w' /\ rel w' h'.
Proof.
  intros V [(c0 & Hc & Hcur & Hr & He & Ha) K] Ht Hne Hlo Hhi w'. eexists. split; [reflexivity|].
  assert (E : mem (proc h) (stack t) = c_lo c).
  { rewrite <- Hlo. apply Ha, (member_visible w t c); [done|done|]. rewrite stack_member. lia. }
  pose proof (v_suspended w V t c Ht Hne) as HS.
  split; split; cbn; rewrite ?E, <- ?Hhi.
  - rewrite lookup_delete_ne by done. apply V.
  - intros u d [Hn Hu]%lookup_delete_Some. exact (v_placed w V _ _ Hu).
  - intros u v d d' [Hn Hu]%lookup_delete_Some [Hn' Hv]%lookup_delete_Some Huv. exact (v_separate w V _ _ _ _ Hu Hv Huv).
  - intros u d [Hn Hu]%lookup_delete_Some Hu'. destruct (v_suspended w V u d Hu Hu').
    pose proof (v_separate w V _ _ _ _ Hu Ht (not_eq_sym Hn)). places. split; try done; rewrite scrap_other; unfold save_area, in_range; try done; lia.
  - exists c0. cbn. rewrite lookup_delete_ne by done. split; [done|]. split; [done|]. split; [done|]. split; [done|].
    apply (scrap_agree (hidden w)); [|done]. intros x [->|(u & d & Hu & H)]; [by left; left|].
    destruct (decide (u = t)) as [->|Hn].
    + right. assert (d = c) as -> by congruence. destruct H as [H|[_ H]]; [by left|]. right. places. lia.
    + left. right. exists u, d. cbn. by rewrite lookup_delete_ne by done.
  - intros u d [Hn Hu]%lookup_delete_Some Hu'. apply (kept_ext _ _ (mem (proc h))); [by apply K|]. intros x Hx.
    pose proof (v_suspended w V u d Hu Hu'). pose proof (v_separate w V _ _ _ _ Hu Ht (not_eq_sym Hn)).
    apply scrap_other; places; lia.
Qed.

(** ** SWITCH *)

(** All of [SWITCH]: the caller is saved, the registers of the other thread are
    loaded, and [ret] takes the address it left on its stack. *)
Lemma switch_exec s t1 t2 c2 : eip s = SWITCH -> frame _eax_save (regs s) (mem s) t1 t2 ->
  object _eax_save (regs s) t1 -> object _eax_save (regs s) t2 -> apart t1 (t1 + 36) t2 (t2 + 36) ->
  kept t2 c2 (mem s) ->
  4 <= esp (c_regs c2) -> esp (c_regs c2) + 4 <= 4294967296 ->
  _eax_save <> esp (c_regs c2) -> _eax_save <> esp (c_regs c2) - 4 -> ~ save_area t1 (esp (c_regs c2) - 4) ->
  steps _eax_save ThreadRoot SWITCH size 27 s =
    Some (mkCpu (c_regs c2) (c_eip c2)
      (write (esp (c_regs c2)) (c_eip c2) (write _eax_save (eax (c_regs c2)) (saved _eax_save t1 (regs s) (mem s (esp (regs s))) (mem s))))).
Proof.
  intros He HF HO1 HO2 Hap HK Hlo Hhi Hv1 Hv2 Hsa.
  change 27%nat with (length (save_code _eax_save) + (length (restore_code _eax_save) + 1))%nat. rewrite steps_add.
  destruct (steps_movl _eax_save ThreadRoot SWITCH size size_pos text [] (save_code _eax_save) (movl (Off 8 ESP) (Reg EAX)) (drop 14 (SWITCH_code _eax_save)) s)
    as [-> E1]; [done|by repeat constructor|by rewrite He; cbn; lia|]. cbn [mbind option_bind]. rewrite steps_add.
  destruct (steps_movl _eax_save ThreadRoot SWITCH size size_pos text (save_code _eax_save) (restore_code _eax_save) ret []
    (exec_all size (save_code _eax_save) s)) as [-> E2]; [done|by repeat constructor|done|]. cbn [mbind option_bind].
  rewrite steps_S, (step_switch _eax_save ThreadRoot SWITCH size size_pos text (save_code _eax_save ++ restore_code _eax_save) ret []) by done.
  cbn [mbind option_bind steps]. destruct s as [r pc m]. cbn [eip regs mem] in *.
  destruct (save_exec _eax_save size r pc m t1 t2 HF HO1) as [pc1 ->].
  set (m1 := saved _eax_save t1 r (m (esp r)) m).
  assert (HK1 : kept t2 c2 m1).
  { apply (kept_ext _ _ m); [done|]. intros x Hx. apply saved_other; destruct HO2; places; destruct Hx; subst; lia. }
  assert (HF1 : frame _eax_save (mkRegs t1 (m (esp r)) (ecx r) (edx r) (esi r) (edi r) (ebp r) (esp r)) m1 t1 t2).
  { destruct HF as [? ? ? ?], HO1 as [? ? ?]. split; cbn; try done; unfold m1; rewrite saved_other; try done; places; lia. }
  destruct (restore_exec _eax_save size _ pc1 m1 t1 t2 HF1) as [pc2 ->].
  - destruct HO2. by split.
  - rewrite (k_esp _ _ _ HK1). lia.
  - rewrite (k_esp _ _ _ HK1). lia.
  - rewrite (k_esp _ _ _ HK1). lia.
  - destruct HK1 as [K1 K2 K3 K4 K5 K6 K7 K8 K9 K10]. unfold exec, pop, jump. cbn [regs mem eip esp set Switch.eax].
    rewrite K1, K2, K3, K4, K5, K6, K7, K8, K9. rewrite write_ne, write_ne, K10 by lia.
    words. replace (esp (c_regs c2) - 4 + 4) with (esp (c_regs c2)) by lia. by destruct (c_regs c2).
Qed.

Lemma kept_saved t c pc m : ~ save_area t _eax_save -> ~ save_area t (esp (c_regs c)) -> m (esp (c_regs c)) = pc ->
  _eax_save <> esp (c_regs c) -> kept t (resumed c pc) (saved _eax_save t (c_regs c) pc m).
Proof.
  intros H1 H2 Hm Hv. unfold save_area in *. destruct c as [[a b c d e f g sp] ? ? ?]. cbn in *.
  split; unfold saved; cbn; rewrite ?Z.add_simpl_r; unfold _EAX, _EBX, _ECX, _EDX, _ESI, _EDI, _EBP, _ESP, _PC;
    try lia; rewrite ?(Z.add_0_r t); reads; done || lia.
Qed.

(** The world after a switch: the caller has returned from [SWITCH], and waits. *)
Definition switched (w : world) (t : Z) (c : context) : world :=
  let sp := esp (c_regs c) in mkWorld t (<[running w := resumed c (amem w sp)]> (threads w)) (write (sp + 4) (amem w sp) (amem w)).

Lemma esp_resumed c pc : esp (c_regs (resumed c pc)) = esp (c_regs c) + 4.
Proof. by destruct c as [[] ? ? ?]. Qed.

Lemma switch_valid w t c c' : valid w -> threads w !! running w = Some c -> threads w !! t = Some c' -> t <> running w ->
  c_lo c <= esp (c_regs c) -> esp (c_regs c) + 12 <= c_hi c -> valid (switched w t c).
Proof.
  intros V Hc Ht Hne Hlo Hhi. split; cbn.
  - rewrite lookup_insert_ne by done. by eexists.
  - intros u d [[<- <-]|[Hn Hu]]%lookup_insert_Some; [exact (v_placed w V _ _ Hc)|exact (v_placed w V _ _ Hu)].
  - intros u v d d' [[<- <-]|[Hn Hu]]%lookup_insert_Some [[<- <-]|[Hn' Hv]]%lookup_insert_Some Huv; [done| | |exact (v_separate w V _ _ _ _ Hu Hv Huv)].
    + exact (v_separate w V _ _ _ _ Hc Hv Huv).
    + exact (v_separate w V _ _ _ _ Hu Hc Huv).
  - intros u d [[<- <-]|[Hn Hu]]%lookup_insert_Some Hu'.
    + split; rewrite ?esp_resumed, ?Z.add_simpl_r; cbn; try lia; by reads.
    + pose proof (v_suspended w V u d Hu (not_eq_sym Hn)) as Su. pose proof (v_separate w V _ _ _ _ Hu Hc (not_eq_sym Hn)) as Sep.
      assert (esp (c_regs d) - 4 <> esp (c_regs c) + 4 /\ esp (c_regs d) <> esp (c_regs c) + 4) as [N1 N2] by (clear - Su Sep Hlo Hhi; places; lia).
      destruct Su as [? ? R A]. split; [done|done|rewrite write_ne by done; exact R|rewrite write_ne by done; exact A].
Qed.

(** What a switch hides are the save area of the caller and the two words of its
    call; what it shows, those of the call that returns. *)
Lemma hidden_switched w t c c' x : threads w !! running w = Some c -> threads w !! t = Some c' -> t <> running w ->
  ~ hidden (switched w t c) x ->
  (x <> _eax_save /\ ~ save_area (running w) x /\ x <> esp (c_regs c) + 4) /\
  (x = esp (c_regs c') \/ x = esp (c_regs c') - 4 \/ ~ hidden w x).
Proof.
  intros Hc Ht Hne Hx. split.
  - split; [|split]; intros H; apply Hx; [by left|right..]; exists (running w), (resumed c (amem w (esp (c_regs c)))); cbn [switched threads running];
      (split; [by rewrite lookup_insert_eq|]); [by left|right]. split; [done|]. right. by rewrite esp_resumed.
  - destruct (decide (x = esp (c_regs c'))); [by left|]. destruct (decide (x = esp (c_regs c') - 4)); [by right; left|].
    right. right. intros [?|(u & d & Hu & H)]; apply Hx; [by left|]. right. destruct (decide (u = running w)) as [->|Hn].
    { assert (d = c) as -> by congruence. eexists _, _. cbn. rewrite lookup_insert_eq. split; [done|]. destruct H as [H|[H _]]; [by left|done]. }
    exists u, d. cbn. rewrite lookup_insert_ne by done. split; [done|]. destruct H as [H|[_ H]]; [by left|].
    destruct (decide (u = t)) as [->|Hn']; [|by right]. assert (d = c') as -> by congruence. by destruct H.
Qed.

(** The memory of the host after [SWITCH]. *)
Definition switched_memory (cur : Z) (r : Regs) (pc : Z) (c' : context) (m : memory) : memory :=
  write (esp (c_regs c')) (c_eip c') (write _eax_save (eax (c_regs c')) (saved _eax_save cur r pc m)).

Lemma switch_agree w t c c' m : valid w -> threads w !! running w = Some c -> threads w !! t = Some c' -> t <> running w ->
  kept t c' m -> agree (hidden w) m (amem w) ->
  agree (hidden (switched w t c)) (switched_memory (running w) (c_regs c) (amem w (esp (c_regs c))) c' m) (amem (switched w t c)).
Proof.
  intros V Hc Ht Hne K Ha x Hx. destruct (v_suspended w V t c' Ht Hne) as [_ _ Sr Sa].
  destruct (hidden_switched w t c c' x Hc Ht Hne Hx) as [(H1 & H2 & H3) HV]. cbn. rewrite (write_ne (esp (c_regs c) + 4)) by done. unfold switched_memory.
  destruct (decide (x = esp (c_regs c'))) as [->|N1]; [by rewrite write_eq|]. rewrite write_ne, write_ne, saved_other by done.
  destruct HV as [?|[->|HV]]; [done| |by apply Ha]. by rewrite (k_return _ _ _ K).
Qed.

Lemma switch_kept w t c c' m u d : valid w -> threads w !! running w = Some c -> threads w !! t = Some c' -> t <> running w ->
  c_lo c <= esp (c_regs c) -> esp (c_regs c) + 12 <= c_hi c -> m (esp (c_regs c)) = amem w (esp (c_regs c)) ->
  (forall u d, threads w !! u = Some d -> u <> running w -> kept u d m) ->
  threads (switched w t c) !! u = Some d -> u <> t ->
  kept u d (switched_memory (running w) (c_regs c) (amem w (esp (c_regs c))) c' m).
Proof.
  intros V Hc Ht Hne Hlo Hhi Hm K Hu Hu'. pose proof (v_suspended w V t c' Ht Hne) as St. unfold switched_memory.
  cbn in Hu. apply lookup_insert_Some in Hu as [[<- <-]|[Hn Hu]].
  - pose proof (v_placed w V _ _ Hc). pose proof (v_separate w V _ _ _ _ Ht Hc Hne). clear V K.
    assert (HK : kept (running w) (resumed c (amem w (esp (c_regs c)))) (saved _eax_save (running w) (c_regs c) (amem w (esp (c_regs c))) m)).
    { apply kept_saved; [places; lia..|done|places; lia]. }
    apply (kept_ext _ _ _ _ HK). intros x Hx. rewrite esp_resumed in Hx. rewrite !write_ne; [done|..]; clear HK; places; lia.
  - apply (kept_ext _ _ m); [exact (K u d Hu (not_eq_sym Hn))|]. intros x Hx.
    destruct (kept_far w u d (running w) c x) as (F1 & F2 & F3); [done|done|done|exact (not_eq_sym Hn)|exact (not_eq_sym Hn)|done|].
    destruct (kept_far w u d t c' x) as (_ & F4 & _); [done|done|done|exact Hu'|exact (not_eq_sym Hn)|done|].
    unfold in_range in F4. rewrite !write_ne, saved_other; [done|done|done|done|]. destruct St. lia.
Qed.

Lemma switch_ok w h t c c' : valid w -> rel w h -> threads w !! running w = Some c -> threads w !! t = Some c' -> t <> running w ->
  c_eip c = SWITCH -> c_lo c <= esp (c_regs c) -> esp (c_regs c) + 12 <= c_hi c ->
  amem w (esp (c_regs c) + 4) = running w -> amem w (esp (c_regs c) + 8) = t ->
  exists h', run (Switch t) h = Ok h' /\ valid (switched w t c) /\ rel (switched w t c) h'.
Proof.
  intros V [(c0 & Hc0 & Hcur & Hr & He & Ha) K] Hc Ht Hne Hpc Hlo Hhi H4 H8. assert (c0 = c) as -> by congruence. clear Hc0.
  pose proof (v_placed w V _ _ Hc) as Pc. pose proof (v_placed w V _ _ Ht) as Pt.
  pose proof (v_separate w V _ _ _ _ Ht Hc Hne) as St. pose proof (v_suspended w V _ _ Ht Hne) as Ht'.
  assert (Own : forall x, c_lo c <= x < c_hi c -> mem (proc h) x = amem w x) by (intros x Hx; by apply Ha, (stack_visible w c)).
  assert (Efr : frame _eax_save (c_regs c) (mem (proc h)) (running w) t).
  { split; [|by rewrite Own by lia|by rewrite Own by lia|]; clear Own; places; lia. }
  destruct h as [cur [r pc m]]. cbn [current proc regs eip mem] in *. subst cur r pc.
  exists (mkHost t (mkCpu (c_regs c') (c_eip c') (switched_memory (running w) (c_regs c) (amem w (esp (c_regs c))) c' m))). split; [|split].
  - unfold Switch.run. cbn [proc]. rewrite (switch_exec (mkCpu (c_regs c) (c_eip c) m) (running w) t c');
      cbn [regs eip mem]; [by rewrite Own by lia|done|done|..|by apply K| | | | |]; clear K Own Efr Ha; try split; places; lia.
  - by apply (switch_valid w t c c').
  - split; [|intros u d Hu Hu'; apply (switch_kept w t c c'); try done; apply Own; lia].
    exists c'. cbn. rewrite lookup_insert_ne by done. split; [done|]. split; [done|]. split; [done|]. split; [done|].
    apply (switch_agree w t c c'); try done. by apply K.
Qed.

(** ** Every event *)

Lemma event_ok w e w' h : astep w e w' -> valid w -> rel w h -> exists h', run e h = Ok h' /\ valid w' /\ rel w' h'.
Proof.
  intros HS V R. destruct HS.
  - eexists. split; [reflexivity|]. by apply compute_ok.
  - exists h. split; [by apply (check_stack_ok w)|done].
  - by apply fork_ok.
  - by apply delete_ok.
  - by apply (switch_ok w h t c c').
Qed.

Lemma events_ok w es w' h : asteps w es w' -> valid w -> rel w h -> exists h', runs es h = Ok h' /\ valid w' /\ rel w' h'.
Proof.
  intros HS. revert h. induction HS as [|w e w1 es w2 HE HS IH]; intros h V R; [by exists h|].
  destruct (event_ok w e w1 h HE V R) as (h1 & E1 & V1 & R1). destruct (IH h1 V1 R1) as (h2 & E2 & V2 & R2).
  exists h2. cbn. rewrite E1. by split.
Qed.

Lemma boot_valid t c m : placed t (c_lo c) (c_hi c) -> valid (boot t c m) /\ rel (boot t c m) (boot_host t c m).
Proof.
  intros P. split; split; cbn.
  - by rewrite lookup_singleton_eq.
  - by intros u d [<- <-]%lookup_singleton_Some.
  - intros u v d d' [<- <-]%lookup_singleton_Some [<- <-]%lookup_singleton_Some. done.
  - by intros u d [<- <-]%lookup_singleton_Some.
  - exists c. cbn. rewrite lookup_singleton_eq. repeat split; done.
  - by intros u d [<- <-]%lookup_singleton_Some.
Qed.

(** C8: threads that take turns on the host's one processor by calling SWITCH cannot
    tell it from a processor each: every sequence of events that the threads can
    perform with registers of their own (running compiled code, checking the fence
    post, creating and deleting threads, switching) the host performs without failure,
    all 27 instructions of each SWITCH included, and in the end the running thread has
    the registers, the program counter and the memory that it would have had alone. *)
Theorem switch_is_invisible t c m es w : placed t (c_lo c) (c_hi c) -> asteps (boot t c m) es w ->
  exists h, runs es (boot_host t c m) = Ok h /\ looks_like _eax_save w h.
Proof.
  intros P HS. destruct (boot_valid t c m P) as [V R]. destruct (events_ok _ _ _ _ HS V R) as (h & E & _ & [L _]). by exists h.
Qed.

(** ** The first steps of a thread *)

(** A function with [n] arguments has returned, by the calling convention of the
    i386; [hi] is the end of the stack. *)
Record returned (n hi : Z) (s s' : cpu) : Prop := mkReturned {
  re_eip : eip s' = mem s (esp (regs s)); re_esp : esp (regs s') = esp (regs s) + 4;
  re_ebx : ebx (regs s') = ebx (regs s); re_esi : esi (regs s') = esi (regs s);
  re_edi : edi (regs s') = edi (regs s); re_ebp : ebp (regs s') = ebp (regs s);
  re_stack x : esp (regs s) + 4 + 4 * n <= x < hi -> mem s' x = mem s x }.

#[local] Abbreviation step := (step _eax_save ThreadRoot SWITCH size).

(** The instruction [n] of [ThreadRoot]. *)
Definition root_label (n : nat) : Z := ThreadRoot + total size (take n ThreadRoot_code).

Lemma step_label n i s : ThreadRoot_code !! n = Some i -> eip s = root_label n -> step s = Some (exec i (root_label (S n)) s).
Proof.
  intros Hi He. rewrite (step_root _eax_save ThreadRoot SWITCH size size_pos (take n ThreadRoot_code) i (drop (S n) ThreadRoot_code)); [|by rewrite take_drop_middle|done].
  unfold root_label. rewrite (take_S_r _ _ _ Hi), size_app. cbn. do 2 f_equal. lia.
Qed.

(** Up to the call of [ThreadBegin]: the argument is on the stack. *)
Lemma root_enter r m : 16 <= esp r <= 4294967296 ->
  steps _eax_save ThreadRoot SWITCH size 4 (mkCpu r ThreadRoot m) =
  Some (mkCpu (mkRegs (eax r) (ebx r) (ecx r) (edx r) (esi r) (edi r) (esp r - 4) (esp r - 12)) (ecx r)
    (write (esp r - 12) (root_label 4) (write (esp r - 8) (edx r) (write (esp r - 4) (ebp r) m)))).
Proof.
  intros Hr. destruct r as [a b c d e f g sp]. cbn [esp] in Hr. rewrite !steps_S.
  rewrite (step_label 0 (pushl EBP)); [|done|cbn; unfold root_label; cbn; lia]. cbn [mbind option_bind]. rewrite steps_S.
  rewrite (step_label 1 (movl (Reg ESP) (Reg EBP))) by done. cbn [mbind option_bind]. rewrite steps_S.
  rewrite (step_label 2 (pushl EDX)) by done. cbn [mbind option_bind]. rewrite steps_S.
  rewrite (step_label 3 (call ECX)) by done.
  unfold exec, push, jump, store, load. cbn [regs mem eip Switch.get Switch.set Switch.esp Switch.edx Switch.ebp Switch.ecx Switch.eax Switch.ebx Switch.esi Switch.edi mbind option_bind].
  words. replace (sp - 4 - 4) with (sp - 8) by lia. words. replace (sp - 8 - 4) with (sp - 12) by lia. reflexivity.
Qed.

Lemma root_call n x s : ThreadRoot_code !! n = Some (call x) -> eip s = root_label n -> 4 <= esp (regs s) <= 4294967296 ->
  step s = Some (mkCpu (set ESP (esp (regs s) - 4) (regs s)) (get x (regs s)) (write (esp (regs s) - 4) (root_label (S n)) (mem s))).
Proof. intros Hx He Hr. rewrite (step_label n (call x)) by done. unfold exec, push, jump. words. done. Qed.

(** What is to come does not give the processor to [t], and does not delete it. *)
Definition leaves (t : Z) (e : event) : Prop :=
  match e with Switch u | Delete u _ => u <> t | _ => True end.

Lemma asteps_app w es es' w' : asteps w (es ++ es') w' -> exists w1, asteps w es w1 /\ asteps w1 es' w'.
Proof.
  revert w. induction es as [|e es IH]; intros w HS; cbn in HS; [exists w; split; [constructor|done]|].
  inversion HS as [|? ? w1 ? ? HE HS1]; subst. destruct (IH _ HS1) as (w2 & H1 & H2). exists w2. split; [|done]. by econstructor.
Qed.

(** A thread that does not run keeps its registers. *)
Lemma waits w es w' t c : asteps w es w' -> Forall (leaves t) es -> threads w !! t = Some c -> running w <> t ->
  threads w' !! t = Some c /\ running w' <> t.
Proof.
  induction 1 as [|w e w1 es w2 HE HS IH]; intros HF Ht Hr; [done|]. apply Forall_cons_1 in HF as [He HF].
  assert (threads w1 !! t = Some c /\ running w1 <> t) as [? ?]; [|by apply IH].
  clear IH HS. inversion HE; subst; cbn in *; try done; split; try done.
  - by rewrite lookup_insert_ne.
  - rewrite lookup_insert_ne; [done|]. intros ->. congruence.
  - by rewrite lookup_delete_ne.
  - by rewrite lookup_insert_ne.
Qed.

(** The registers that [t] has at the end of such a run are those of a new thread. *)
Lemma fresh_thread t0 c0 m es1 t stk func arg es2 w : placed t0 (c_lo c0) (c_hi c0) ->
  asteps (boot t0 c0 m) (es1 ++ Fork t stk func arg :: es2 ++ [Switch t]) w -> Forall (leaves t) es2 ->
  placed t stk (stk + 4 * StackSize) /\ running w = t /\ exists m1,
  threads w !! t = Some (mkContext (new_regs ThreadBegin ThreadFinish m1 t stk func arg) ThreadRoot stk (stk + 4 * StackSize)).
Proof.
  intros P HS HF. apply asteps_app in HS as (w1 & S1 & S2). destruct (boot_valid t0 c0 m P) as [V R].
  destruct (events_ok _ _ _ _ S1 V R) as (h1 & _ & V1 & _).
  inversion S2 as [|? ? w2 ? ? HE S3]; subst. apply asteps_app in S3 as (w3 & S3 & S4).
  inversion HE as [| |? ? ? ? Ht HP| |]; subst. split; [done|].
  destruct (waits _ _ _ t (mkContext (new_regs ThreadBegin ThreadFinish (amem w1) t stk func arg) ThreadRoot stk (stk + 4 * StackSize)) S3 HF)
    as [H3 N3].
  - cbn. by rewrite lookup_insert_eq.
  - cbn. intros E. destruct (v_running _ V1) as [d Hd]. congruence.
  - inversion S4 as [|? ? w4 ? ? HE4 S5]; subst. inversion S5; subst. inversion HE4; subst. cbn. split; [done|].
    exists (amem w1). by rewrite lookup_insert_ne.
Qed.

(** C25: a forked thread does what Fork promises.  From a kernel that has just started,
    whatever the threads do until a thread is forked, and afterwards until the first
    SWITCH to it: the host performs that SWITCH and, after four instructions of
    ThreadRoot, is in ThreadBegin, on the stack that StackAllocate laid out; when
    ThreadBegin returns, the next instruction enters the function that was forked,
    with its argument in the place of the first argument; and when that returns,
    ThreadFinish. *)
Theorem new_thread_runs t0 c0 m es1 t stk func arg es2 w : placed t0 (c_lo c0) (c_hi c0) ->
  asteps (boot t0 c0 m) (es1 ++ Fork t stk func arg :: es2 ++ [Switch t]) w -> Forall (leaves t) es2 ->
  exists h, runs (es1 ++ Fork t stk func arg :: es2 ++ [Switch t]) (boot_host t0 c0 m) = Ok h /\ current h = t /\
  exists s1, steps _eax_save ThreadRoot SWITCH size 4 (proc h) = Some s1 /\ eip s1 = ThreadBegin /\
  forall s2, returned 0 (stk + 4 * StackSize) s1 s2 ->
  exists s3, step s2 = Some s3 /\ eip s3 = func /\ mem s3 (esp (regs s3) + 4) = arg /\
  forall s4, returned 1 (stk + 4 * StackSize) s3 s4 ->
  exists s5, step s4 = Some s5 /\ eip s5 = ThreadFinish /\ stk < esp (regs s5) < stk + 4 * StackSize.
Proof.
  intros P0 HS HF. destruct (fresh_thread _ _ _ _ _ _ _ _ _ _ P0 HS HF) as (P & Hr & m1 & Ht).
  destruct (boot_valid t0 c0 m P0) as [V R]. destruct (events_ok _ _ _ _ HS V R) as (h & Eh & _ & [(c & Hc & Hcur & ER & EP & _) _]).
  rewrite Hr in Hc, Hcur. rewrite Ht in Hc. injection Hc as <-. exists h. split; [done|]. split; [done|].
  destruct h as [cur [r pc m0]]. cbn [proc regs eip c_regs c_eip] in *. subst r pc. clear HS HF Eh Ht.
  destruct P as [_ ? _ _]. unfold new_regs, new_sp, StackSize in *. rewrite root_enter by (cbn; lia). cbn [esp ecx edx ebp eax ebx esi edi].
  eexists. split; [done|]. split; [done|]. intros s2 [I2 P2 _ SI2 DI2 _ M2]. cbn [regs eip mem esp ebx esi edi ebp] in *.
  set (top := stk + 4 * (8 * 1024 - 4)) in *. assert (8 <= top /\ top + 8 <= 4294967296 /\ top < stk + 4 * (8 * 1024) /\ stk + 100 < top) as (? & ? & ? & ?) by (unfold top; lia).
  replace (top - 12 + 4) with (top - 8) in * by lia.
  rewrite write_eq in I2. rewrite (root_call 4 ESI) by (done || lia). eexists. split; [done|].
  assert (EA : mem s2 (esp (regs s2)) = arg) by (rewrite P2, M2 by lia; by reads).
  destruct s2 as [[a b c d e f g sp] pc m2]. cbn [regs eip mem esp ebx esi edi ebp set get] in *. split; [done|]. split; [rewrite write_ne by lia; by replace (sp - 4 + 4) with sp by lia|].
  intros s4 [I4 P4 _ SI4 DI4 _ _]. cbn [regs eip mem esp ebx esi edi ebp] in *. rewrite write_eq in I4. rewrite (root_call 5 EDI) by (done || lia).
  eexists. split; [done|]. destruct s4 as [[a' b' c' d' e' f' g' sp'] pc' m']. cbn [regs eip mem esp ebx esi edi ebp set get] in *. split; [congruence|lia].
Qed.
End threads.

(** ** A main thread that forks another and gives it the processor *)

Definition main_context : context := mkContext (mkRegs 1 2 3 4 5 6 7 32000) 5000 16384 32768.
Definition zeros : memory := fun _ => 0.
Definition two_bytes (i : instr) : Z := 2.

Lemma two_bytes_pos i : 0 < two_bytes i.
Proof. done. Qed.
Lemma text_fits : 1000 + total two_bytes ThreadRoot_code <= 2000.
Proof. by vm_compute. Qed.

(** The call of [SWITCH] with the two threads as arguments. *)
Definition calls_switch (s : cpu) : cpu :=
  mkCpu (set ESP 31000 (regs s)) 2000 (write 31000 5100 (write 31004 4096 (write 31008 8192 (mem s)))).

Definition forks_and_switches : list event := [Fork 8192 65536 7000 5; Compute calls_switch; Switch 8192].

Lemma forked_placed : placed 64 4096 16384 32768 /\ placed 64 8192 65536 (65536 + 4 * StackSize) /\
  separate 8192 65536 (65536 + 4 * StackSize) 4096 16384 32768.
Proof. unfold StackSize. split_and!; split; unfold apart, in_range; split_and?; try done; lia. Qed.

Lemma fork_step : exists w, astep 64 1000 2000 3000 3100 (boot 4096 main_context zeros) (Fork 8192 65536 7000 5) w /\
  running w = 4096 /\ threads w !! 4096 = Some main_context /\
  threads w !! 8192 = Some (mkContext (new_regs 3000 3100 zeros 8192 65536 7000 5) 1000 65536 (65536 + 4 * StackSize)).
Proof.
  destruct forked_placed as (_ & P & S). eexists. split; [apply a_fork; [done|done|]|done].
  intros u c. cbn. by intros [<- <-]%lookup_singleton_Some.
Qed.

Lemma calls_switch_local w : running w = 4096 -> threads w !! 4096 = Some main_context ->
  threads w !! 8192 = Some (mkContext (new_regs 3000 3100 zeros 8192 65536 7000 5) 1000 65536 (65536 + 4 * StackSize)) ->
  (forall u c, threads w !! u = Some c -> u = 4096 \/ u = 8192) ->
  local (hidden 64 w) (c_regs main_context) (c_eip main_context) calls_switch.
Proof.
  intros Hr H1 H2 Hu. split.
  - intros m m' A. split; [done|]. split; [done|]. by repeat apply agree_write.
  - intros m x Hx. cbn. assert (x <> 31000 /\ x <> 31004 /\ x <> 31008) as (N1 & N2 & N3); [|by reads].
    destruct Hx as [->|(u & c & Hc & H)]; [lia|]. rewrite Hr in H. destruct (Hu u c Hc) as [-> | ->]; simplify_eq;
      cbn in H; unfold save_area, new_sp, StackSize in H; lia.
Qed.

Lemma forks_and_switches_steps : exists w,
  asteps 64 1000 2000 3000 3100 (boot 4096 main_context zeros) forks_and_switches w /\ running w = 8192.
Proof.
  destruct fork_step as (w1 & S1 & Hr & H1 & H2). eexists. split.
  - eapply as_cons; [exact S1|]. eapply as_cons.
    + apply (a_compute _ _ _ _ _ _ calls_switch main_context); [by rewrite Hr|]. apply calls_switch_local; try done.
      inversion S1; subst. intros u c. cbn. intros [[<- _]|[_ [<- _]%lookup_singleton_Some]]%lookup_insert_Some; [by right|by left].
    + eapply as_cons; [|apply as_nil]. eapply (a_switch _ _ _ _ _ _ 8192); cbn [threads running amem].
      * by rewrite Hr, lookup_insert_eq.
      * rewrite lookup_insert_ne by lia. exact H2.
      * lia.
      * done.
      * done.
      * done.
      * done.
      * by rewrite Hr.
      * done.
  - done.
Qed.

Lemma switch_is_invisible_witness : exists w,
  asteps 64 1000 2000 3000 3100 (boot 4096 main_context zeros) forks_and_switches w /\ running w = 8192 /\
  exists h, runs 64 1000 2000 two_bytes 3000 3100 forks_and_switches (boot_host 4096 main_context zeros) = Ok h /\ looks_like 64 w h.
Proof.
  destruct forks_and_switches_steps as (w & HS & Hw). exists w. split; [done|]. split; [done|].
  apply (switch_is_invisible 64 1000 2000 two_bytes 3000 3100 two_bytes_pos text_fits 4096 main_context zeros forks_and_switches w);
    [apply forked_placed|exact HS].
Defined.

Lemma new_thread_runs_witness :
  exists h, runs 64 1000 2000 two_bytes 3000 3100 forks_and_switches (boot_host 4096 main_context zeros) = Ok h /\ current h = 8192 /\
  exists s1, steps 64 1000 2000 two_bytes 4 (proc h) = Some s1 /\ eip s1 = 3000.
Proof.
  destruct forks_and_switches_steps as (w & HS & _).
  destruct (new_thread_runs 64 1000 2000 two_bytes 3000 3100 two_bytes_pos text_fits 4096 main_context zeros [] 8192 65536 7000 5
    [Compute calls_switch] w) as (h & E & Hc & s1 & E1 & H1 & _).
  - apply forked_placed.
  - exact HS.
  - constructor; [exact I|constructor].
  - exists h. split; [exact E|]. split; [exact Hc|]. exists s1. split; [exact E1|exact H1].
Defined.
