(* ===== verification/SyncTest.v ===== *)
(** * threads/kernel.cc: the synchronisation programs

    [Kernel::SyncTest] runs producers and consumers on an array, threads that meet
    at a barrier, and readers and writers.  Threads interleave at the calls of
    semaphores, locks and conditions; between two calls a thread takes one step.
    The objects are what their component promises: a semaphore is its value, a lock
    its holder, a condition the threads that wait and have not been signalled.  The
    numbers of threads and rounds, macros in the source, are parameters. *)

From S2P Require Import Prelude.

(** The loops that start threads. *)
Definition fork_all {T} (n : Z) (thread : Z -> T) : list T := (fun i => thread (Z.of_nat i)) <$> seq 0 (Z.to_nat n).

(** ** Producers and consumers *)

Module ProducerConsumer.

Definition MAX_PRODUCE_ARRAY_NUM : Z := 50.
Definition PRODUCER_NUM : Z := 1.
Definition CONSUMER_NUM : Z := 2.
Definition PRODUCE_TIMES : Z := 50.
Definition CONSUME_TIMES : Z := 25.

Inductive role : Type := Producer | Consumer.

(** The next call in the body of the loop of [Produce] or [Consume]. *)
Inductive point : Type := CallP | CallAcquire | Body | CallRelease | CallV | Done.

#[global] Instance role_eq_dec : EqDecision role.
Proof. solve_decision. Defined.
#[global] Instance point_eq_dec : EqDecision point.
Proof. solve_decision. Defined.

(** [i] is the loop variable. *)
Record Thread : Type := mkThread { kind : role; which : Z; pc : point; i : Z }.

(** The globals, and what has been produced and consumed: by whom, and which item. *)
Record State : Type := mkState {
  isFull : Z; isEmpty : Z; produceArrayLock : option nat; high : Z; low : Z; produceArray : list Z;
  threads : list Thread; produced : list (Z * Z); consumed : list (Z * Z) }.

Section programs.
(** [times]: the bound of the loop. *)
Context (times : role -> Z).

Definition loop (th : Thread) (n : Z) : Thread :=
  mkThread (kind th) (which th) (if bool_decide (n < times (kind th)) then CallP else Done) n.
Definition goto (th : Thread) (p : point) : Thread := mkThread (kind th) (which th) p (i th).

Definition set_thread (s : State) (t : nat) (th : Thread) : State :=
  mkState (isFull s) (isEmpty s) (produceArrayLock s) (high s) (low s) (produceArray s) (<[t := th]> (threads s))
    (produced s) (consumed s).
Definition set_sems (s : State) (f e : Z) : State :=
  mkState f e (produceArrayLock s) (high s) (low s) (produceArray s) (threads s) (produced s) (consumed s).
Definition set_lock (s : State) (l : option nat) : State :=
  mkState (isFull s) (isEmpty s) l (high s) (low s) (produceArray s) (threads s) (produced s) (consumed s).

(** What is done with the lock held. *)
Definition Produce_body (s : State) (th : Thread) : res State :=
  a ← aset (produceArray s) (high s) (i th);
  Ok (mkState (isFull s) (isEmpty s) (produceArrayLock s) (i32 (high s + 1)) (low s) a (threads s)
        (produced s ++ [(which th, i th)]) (consumed s)).
Definition Consume_body (s : State) (th : Thread) : res State :=
  let l := i32 (low s + 1) in
  x ← aget (produceArray s) l;
  Ok (mkState (isFull s) (isEmpty s) (produceArrayLock s) (high s) l (produceArray s) (threads s)
        (produced s) (consumed s ++ [(which th, x)])).

(** One step of [Produce] or [Consume] in thread [t]; [None]: blocked, or it has
    returned. *)
Definition step (t : nat) (s : State) : res (option State) :=
  match threads s !! t with
  | None => Ok None
  | Some th =>
      match pc th with
      | CallP =>
          match kind th with
          | Producer =>
              if bool_decide (isEmpty s = 0) then Ok None
              else Ok (Some (set_thread (set_sems s (isFull s) (i32 (isEmpty s - 1))) t (goto th CallAcquire)))
          | Consumer =>
              if bool_decide (isFull s = 0) then Ok None
              else Ok (Some (set_thread (set_sems s (i32 (isFull s - 1)) (isEmpty s)) t (goto th CallAcquire)))
          end
      | CallAcquire =>
          match produceArrayLock s with
          | Some _ => Ok None
          | None => Ok (Some (set_thread (set_lock s (Some t)) t (goto th Body)))
          end
      | Body =>
          s ← (match kind th with Producer => Produce_body s th | Consumer => Consume_body s th end);
          Ok (Some (set_thread s t (goto th CallRelease)))
      | CallRelease =>
          _ ← ASSERT (bool_decide (produceArrayLock s = Some t));
          Ok (Some (set_thread (set_lock s None) t (goto th CallV)))
      | CallV =>
          match kind th with
          | Producer => Ok (Some (set_thread (set_sems s (i32 (isFull s + 1)) (isEmpty s)) t (loop th (i th + 1))))
          | Consumer => Ok (Some (set_thread (set_sems s (isFull s) (i32 (isEmpty s + 1))) t (loop th (i th + 1))))
          end
      | Done => Ok None
      end
  end.

(** [MyProducerConsumer1] up to the loop that waits for the threads. *)
Definition MyProducerConsumer1 (size producers consumers : Z) : State :=
  mkState 0 size None 0 (-1) (replicate (Z.to_nat size) (-1))
    (fork_all producers (fun w => loop (mkThread Producer w CallP 0) 0) ++
     fork_all consumers (fun w => loop (mkThread Consumer w CallP 0) 0)) [] [].

(** Some thread takes a step. *)
Definition tstep (s s' : State) : Prop := exists t, step t s = Ok (Some s').

End programs.

(** The macros of the source. *)
Definition source_times (r : role) : Z := match r with Producer => PRODUCE_TIMES | Consumer => CONSUME_TIMES end.

End ProducerConsumer.

(** ** A barrier *)

Module BarrierTest.

Definition TEST_THREAD_NUM : Z := 5.
Definition BARRIER_NUM : Z := 5.

(** [testBarrier]; [InWait]: in [Condition::Wait] until it is signalled, [Relock]:
    before the [Acquire] at the end of it. *)
Inductive point : Type := CallAcquire | Before | CallBarrier | InWait | Relock | After | CallRelease | Done.

#[global] Instance point_eq_dec : EqDecision point.
Proof. solve_decision. Defined.

(** [output]: what the threads have printed, 1 before the barrier and 2 after it. *)
Record State : Type := mkState {
  barrierMutex : option nat; barrierNum : Z; waiting : list nat; threads : list point; output : list (nat * Z) }.

Definition goto (s : State) (t : nat) (p : point) : State :=
  mkState (barrierMutex s) (barrierNum s) (waiting s) (<[t := p]> (threads s)) (output s).
Definition set_lock (s : State) (l : option nat) : State :=
  mkState l (barrierNum s) (waiting s) (threads s) (output s).
Definition print (s : State) (t : nat) (x : Z) : State :=
  mkState (barrierMutex s) (barrierNum s) (waiting s) (threads s) (output s ++ [(t, x)]).

(** [Condition::Barrier]: the last thread wakes the others, which are then about to
    take the lock again; the others wait and give up the lock. *)
Definition Barrier (s : State) (t : nat) : res State :=
  let n := i32 (barrierNum s + 1) in
  let held := bool_decide (barrierMutex s = Some t) in
  if bool_decide (n = BARRIER_NUM) then
    _ ← ASSERT (bool_decide (waiting s = []) || held);
    Ok (goto (mkState (barrierMutex s) n [] (foldr (fun w l => <[w := Relock]> l) (threads s) (waiting s)) (output s)) t After)
  else
    _ ← ASSERT held;
    Ok (goto (mkState None n (waiting s ++ [t]) (threads s) (output s)) t InWait).

Definition step (t : nat) (s : State) : res (option State) :=
  match threads s !! t with
  | None => Ok None
  | Some CallAcquire =>
      match barrierMutex s with Some _ => Ok None | None => Ok (Some (goto (set_lock s (Some t)) t Before)) end
  | Some Before => Ok (Some (goto (print s t 1) t CallBarrier))
  | Some CallBarrier => s ← Barrier s t; Ok (Some s)
  | Some InWait => Ok None
  | Some Relock =>
      match barrierMutex s with Some _ => Ok None | None => Ok (Some (goto (set_lock s (Some t)) t After)) end
  | Some After => Ok (Some (goto (print s t 2) t CallRelease))
  | Some CallRelease =>
      _ ← ASSERT (bool_decide (barrierMutex s = Some t)); Ok (Some (goto (set_lock s None) t Done))
  | Some Done => Ok None
  end.

(** [MyBarrier] up to the loop that waits for the threads. *)
Definition MyBarrier (n : Z) : State := mkState None 0 [] (fork_all n (fun _ => CallAcquire)) [].

Definition tstep (s s' : State) : Prop := exists t, step t s = Ok (Some s').

End BarrierTest.

(** ** Readers and writers *)

Module ReaderWriter.

Definition READER_NUM : Z := 5.
Definition WRITER_NUM : Z := 3.
Definition READ_CONTENT_SIZE : Z := 100.

(** The points of [MyReader] and then of [MyWriter]. *)
Inductive point : Type :=
| RAcquire | REnter | RAcquireW | RRelease | RRead | RAcquire2 | RLeave | RReleaseW | RRelease2
| WAcquire | WWrite | WRelease
| Done.

#[global] Instance point_eq_dec : EqDecision point.
Proof. solve_decision. Defined.

Record Thread : Type := mkThread { which : Z; pc : point; i : Z }.

(** [reads] records what readers have read: the position and the value. *)
Record State : Type := mkState {
  wLock : option nat; rwMutex : option nat; readerCount : Z; readContent : list Z; threads : list Thread; reads : list (Z * Z) }.

Definition goto (s : State) (t : nat) (th : Thread) (p : point) : State :=
  mkState (wLock s) (rwMutex s) (readerCount s) (readContent s) (<[t := mkThread (which th) p (i th)]> (threads s)) (reads s).
(** The end of the loop body; [p]: its start. *)
Definition next (s : State) (t : nat) (th : Thread) (p : point) : State :=
  let n := i th + 1 in
  mkState (wLock s) (rwMutex s) (readerCount s) (readContent s)
    (<[t := mkThread (which th) (if bool_decide (n < which th + 10) then p else Done) n]> (threads s)) (reads s).
Definition set_w (s : State) (l : option nat) : State :=
  mkState l (rwMutex s) (readerCount s) (readContent s) (threads s) (reads s).
Definition set_rw (s : State) (l : option nat) : State :=
  mkState (wLock s) l (readerCount s) (readContent s) (threads s) (reads s).
Definition set_count (s : State) (n : Z) : State :=
  mkState (wLock s) (rwMutex s) n (readContent s) (threads s) (reads s).

(** [Lock::Acquire] and [Lock::Release] on one of the locks. *)
Definition acquire (l : option nat) (s : State) : res (option State) := match l with Some _ => Ok None | None => Ok (Some s) end.
Definition release (l : option nat) (t : nat) (s : State) : res (option State) :=
  _ ← ASSERT (bool_decide (l = Some t)); Ok (Some s).

Definition MyReader (t : nat) (th : Thread) (s : State) : res (option State) :=
  match pc th with
  | RAcquire => acquire (rwMutex s) (goto (set_rw s (Some t)) t th REnter)
  | REnter =>
      let s := set_count s (i32 (readerCount s + 1)) in
      Ok (Some (goto s t th (if bool_decide (readerCount s = 1) then RAcquireW else RRelease)))
  | RAcquireW => acquire (wLock s) (goto (set_w s (Some t)) t th RRelease)
  | RRelease => release (rwMutex s) t (goto (set_rw s None) t th RRead)
  | RRead =>
      x ← aget (readContent s) (i th);
      Ok (Some (goto (mkState (wLock s) (rwMutex s) (readerCount s) (readContent s) (threads s) (reads s ++ [(i th, x)])) t th RAcquire2))
  | RAcquire2 => acquire (rwMutex s) (goto (set_rw s (Some t)) t th RLeave)
  | RLeave =>
      let s := set_count s (i32 (readerCount s - 1)) in
      Ok (Some (goto s t th (if bool_decide (readerCount s = 0) then RReleaseW else RRelease2)))
  | RReleaseW => release (wLock s) t (goto (set_w s None) t th RRelease2)
  | RRelease2 => release (rwMutex s) t (next (set_rw s None) t th RAcquire)
  | _ => Ok None
  end.

Definition MyWriter (t : nat) (th : Thread) (s : State) : res (option State) :=
  match pc th with
  | WAcquire => acquire (wLock s) (goto (set_w s (Some t)) t th WWrite)
  | WWrite =>
      _ ← aget (readContent s) (i th);
      a ← aset (readContent s) (i th) (i32 (i th * 2 + 1));
      Ok (Some (goto (mkState (wLock s) (rwMutex s) (readerCount s) a (threads s) (reads s)) t th WRelease))
  | WRelease => release (wLock s) t (next (set_w s None) t th WAcquire)
  | _ => Ok None
  end.

Definition step (t : nat) (s : State) : res (option State) :=
  match threads s !! t with
  | None => Ok None
  | Some th =>
      match pc th with
      | WAcquire | WWrite | WRelease => MyWriter t th s
      | _ => MyReader t th s
      end
  end.

(** [MyReaderWriter] up to the loop that waits for the threads. *)
Definition MyReaderWriter (readers writers : Z) : State :=
  mkState None None 0 (fork_all READ_CONTENT_SIZE (fun k => k + 1))
    (fork_all readers (fun w => mkThread w RAcquire w) ++ fork_all writers (fun w => mkThread w WAcquire w)) [].

Definition tstep (s s' : State) : Prop := exists t, step t s = Ok (Some s').

End ReaderWriter.
