(* ===== verification/SyncTestProofs.v ===== *)
(** * Producers and consumers: nothing is lost, nobody is stuck

    Counting: tokens of the semaphores, items of the array and steps that are left
    are sums over the threads. *)

From S2P Require Import Prelude SyncTest.

(** The sum of [f] over a list. *)
Fixpoint total {A} (f : A -> Z) (l : list A) : Z := match l with [] => 0 | x :: l' => f x + total f l' end.

Lemma total_app {A} (f : A -> Z) l k : total f (l ++ k) = total f l + total f k.
Proof. induction l as [|x l IH]; cbn; lia. Qed.

Lemma total_insert {A} (f : A -> Z) l (t : nat) x y : l !! t = Some x -> total f (<[t := y]> l) = total f l - f x + f y.
Proof.
  revert t. induction l as [|z l IH]; intros t E; [done|]. destruct t as [|t]; cbn in *.
  - injection E as ->. lia.
  - rewrite IH by done. lia.
Qed.

Lemma total_le {A} (f g : A -> Z) l : Forall (fun x => f x <= g x) l -> total f l <= total g l.
Proof. induction 1; cbn; lia. Qed.

Lemma total_lt {A} (f g : A -> Z) l (t : nat) x : l !! t = Some x -> f x < g x -> Forall (fun x => f x <= g x) l -> total f l < total g l.
Proof.
  intros E Hx HF. revert t E. induction HF as [|y l Hy HF IH]; intros t E; [done|]. destruct t as [|t]; cbn in *.
  - injection E as ->. pose proof (total_le f g l HF). lia.
  - specialize (IH t E). lia.
Qed.

Lemma total_nonneg {A} (f : A -> Z) l : Forall (fun x => 0 <= f x) l -> 0 <= total f l.
Proof. induction 1; cbn; lia. Qed.

Lemma total_member {A} (f : A -> Z) l (t : nat) x : l !! t = Some x -> Forall (fun x => 0 <= f x) l -> f x <= total f l.
Proof.
  intros E HF. revert t E. induction HF as [|y l Hy HF IH]; intros t E; [done|]. destruct t as [|t]; cbn in *.
  - injection E as ->. pose proof (total_nonneg f l HF). lia.
  - specialize (IH t E). lia.
Qed.

Lemma total_eq {A} (f g : A -> Z) l : Forall (fun x => f x = g x) l -> total f l = total g l.
Proof. induction 1; cbn; lia. Qed.

Lemma total_const {A} (f : A -> Z) c l : Forall (fun x => f x = c) l -> total f l = c * Z.of_nat (length l).
Proof. induction 1; cbn -[Z.of_nat]; lia. Qed.

Lemma fork_all_length {T} n (f : Z -> T) : length (fork_all n f) = Z.to_nat n.
Proof. unfold fork_all. by rewrite length_fmap, length_seq. Qed.

Lemma fork_all_Forall {T} n (f : Z -> T) (P : T -> Prop) : (forall k, 0 <= k < n -> P (f k)) -> Forall P (fork_all n f).
Proof.
  intros H. apply Forall_fmap, Forall_forall. intros k Hk%elem_of_seq. apply H. lia.
Qed.

(** Who is where after thread [t] has moved to [y]. *)
Lemma exists_insert {A} (P : A -> Prop) l (t t' : nat) y : (t < length l)%nat ->
  (exists x, <[t := y]> l !! t' = Some x /\ P x) <-> if decide (t' = t) then P y else exists x, l !! t' = Some x /\ P x.
Proof.
  intros Ht. case_decide as E; [subst t'; rewrite list_lookup_insert_eq by done|by rewrite list_lookup_insert_ne].
  split; [by intros (? & [= <-] & ?)|intros ?; by exists y].
Qed.

(** [x] is an [int]. *)
Ltac int_range := unfold is_i32, int_min, int_max; lia.

Module PCProofs.
Import ProducerConsumer.

Section proofs.
Context (size producers consumers : Z) (times : role -> Z).
Context (times_nonneg : forall r, 0 <= times r) (producers_nonneg : 0 <= producers) (consumers_nonneg : 0 <= consumers).
Context (size_range : 0 < size <= 1000000000).
(** All items fit in the array, and as many are consumed as are produced. *)
Context (fits : producers * times Producer <= size) (balanced : producers * times Producer = consumers * times Consumer).

(** A thread inside the semaphores; an item that it has put and not signalled, or
    may take; the items that it has put or taken; the steps that it has left. *)
Definition inside (th : Thread) : Z := match pc th with CallP | Done => 0 | _ => 1 end.
Definition carries (th : Thread) : Z :=
  match kind th, pc th with
  | Producer, (CallRelease | CallV) | Consumer, (CallAcquire | Body) => 1
  | _, _ => 0
  end.
Definition moved (th : Thread) : Z := i th + match pc th with CallRelease | CallV => 1 | _ => 0 end.
Definition put (th : Thread) : Z := match kind th with Producer => moved th | Consumer => 0 end.
Definition taken (th : Thread) : Z := match kind th with Consumer => moved th | Producer => 0 end.
Definition steps_left (th : Thread) : Z :=
  5 * (times (kind th) - i th) - match pc th with CallP | Done => 0 | CallAcquire => 1 | Body => 2 | CallRelease => 3 | CallV => 4 end.

Definition in_section (p : point) : Prop := p = Body \/ p = CallRelease.

(** The loop variable is in its range. *)
Definition thread_ok (th : Thread) : Prop :=
  0 <= i th <= times (kind th) /\ (pc th = Done <-> i th = times (kind th)).

Definition quota (th : Thread) : Z := match kind th with Producer => times Producer | Consumer => 0 end.
Definition demand (th : Thread) : Z := match kind th with Consumer => times Consumer | Producer => 0 end.

(** Nothing but the threads' positions: sums and the lock. *)
Record pc_ok (s : State) : Prop := mkPcOk {
  p_full : 0 <= isFull s;
  p_empty : 0 <= isEmpty s;
  p_threads : Forall thread_ok (threads s);
  p_quota : total quota (threads s) = producers * times Producer;
  p_demand : total demand (threads s) = consumers * times Consumer;
  p_tokens : isEmpty s + isFull s + total inside (threads s) = size;
  p_items : high s - (low s + 1) = isFull s + total carries (threads s);
  p_high : high s = total put (threads s);
  p_low : low s + 1 = total taken (threads s);
  p_lock : forall t, (exists th, threads s !! t = Some th /\ in_section (pc th)) <-> produceArrayLock s = Some t;
  p_length : Z.of_nat (length (produceArray s)) = size;
  p_produced : take (Z.to_nat (high s)) (produceArray s) = (produced s).*2;
  p_consumed : (consumed s).*2 = take (Z.to_nat (low s + 1)) (produced s).*2 }.

Lemma nonneg_sums s : pc_ok s -> 0 <= total inside (threads s) /\ 0 <= total carries (threads s) /\ 0 <= total put (threads s) /\ 0 <= total taken (threads s).
Proof.
  intros []. split_and!; apply total_nonneg; eapply Forall_impl; try exact p_threads0; intros [[] w [] n] [[H _] _]; unfold put, taken, moved; cbn in *; lia.
Qed.

Lemma put_quota s : pc_ok s -> Forall (fun th => put th <= quota th) (threads s) /\ Forall (fun th => taken th <= demand th) (threads s).
Proof.
  intros []. split; eapply Forall_impl; try exact p_threads0; intros [[] w p n] [[H0 H1] H2]; unfold put, taken, quota, demand, moved in *; cbn in *;
    try lia; destruct p; try lia; (destruct (decide (n = times Producer)) as [E|E] || idtac); try lia;
    try (destruct (decide (n = times Consumer)) as [E'|E']; [apply H2 in E'; done|lia]); try (apply H2 in E; done).
Qed.

(** A step of one thread. *)
Lemma pc_moves s t th th' f e l h lo a pr co : pc_ok s -> threads s !! t = Some th -> thread_ok th' -> kind th' = kind th ->
  0 <= f -> 0 <= e -> e + f + inside th' = isEmpty s + isFull s + inside th ->
  h - lo - f - carries th' = high s - low s - isFull s - carries th ->
  h - put th' = high s - put th -> lo - taken th' = low s - taken th ->
  (in_section (pc th') <-> l = Some t) -> (forall t', t' <> t -> l = Some t' <-> produceArrayLock s = Some t') ->
  Z.of_nat (length a) = size -> take (Z.to_nat h) a = pr.*2 -> co.*2 = take (Z.to_nat (lo + 1)) pr.*2 ->
  pc_ok (mkState f e l h lo a (<[t := th']> (threads s)) pr co).
Proof.
  intros [] Et Hth Ek Hf He Hi Hc Hp Ht Hl Hl' Ha Hpr Hco.
  assert (Eq : quota th' = quota th /\ demand th' = demand th) by (unfold quota, demand; by rewrite Ek).
  split; cbn [isFull isEmpty produceArrayLock high low produceArray threads produced consumed]; rewrite ?(total_insert _ _ _ _ th' Et); try done; try lia.
  - by apply Forall_insert.
  - intros t'. destruct (decide (t' = t)) as [->|Hn].
    + rewrite list_lookup_insert_eq by (by eapply lookup_lt_Some). rewrite <- Hl. split; [by intros (? & [= <-] & ?)|intros ?; by exists th'].
    + rewrite list_lookup_insert_ne by done. by rewrite p_lock0, Hl'.
Qed.

Lemma small s : pc_ok s -> isEmpty s + isFull s <= size /\ -1 <= low s < high s /\ high s <= size.
Proof.
  intros HC. pose proof (nonneg_sums s HC) as (H1 & H2 & H3 & H4). pose proof (put_quota s HC) as [HQ _].
  pose proof (total_le _ _ _ HQ) as HL. destruct HC. lia.
Qed.

Lemma take_snoc (l : list Z) (n : Z) x : 0 <= n < Z.of_nat (length l) -> take (Z.to_nat (n + 1)) (<[Z.to_nat n := x]> l) = take (Z.to_nat n) l ++ [x].
Proof.
  intros Hn. replace (Z.to_nat (n + 1)) with (S (Z.to_nat n)) by lia. rewrite (take_S_r _ _ x) by (apply list_lookup_insert_eq; lia).
  by rewrite take_insert_ge by lia.
Qed.

Lemma take_next (l : list Z) (n : Z) x : 0 <= n -> l !! Z.to_nat n = Some x -> take (Z.to_nat (n + 1)) l = take (Z.to_nat n) l ++ [x].
Proof. intros Hn E. replace (Z.to_nat (n + 1)) with (S (Z.to_nat n)) by lia. by apply take_S_r. Qed.

Lemma loop_ok th : thread_ok th -> pc th = CallV -> thread_ok (loop times th (i th + 1)).
Proof.
  intros [H1 H2] Hp. assert (i th <> times (kind th)) by (intros E; apply H2 in E; congruence).
  unfold loop. split; cbn; [lia|]. case_bool_decide; split; try done; lia.
Qed.

Lemma goto_ok th p : thread_ok th -> pc th <> Done -> p <> Done -> thread_ok (goto th p).
Proof. intros [H1 H2] Hp Hq. split; [exact H1|]. cbn. rewrite <- H2. naive_solver. Qed.

(** The changes that a step makes to the sums. *)
Ltac unfold_sums Ep Ek :=
  unfold set_thread, set_sems, set_lock, inside, carries, put, taken, moved, in_section, goto, loop in *; cbn in *;
  rewrite ?Ep, ?Ek, ?i32_id in * by int_range; cbn in *.

(** What a step leads to. *)
Definition runs (r : res (option State)) : Prop := r = Ok None \/ exists s', r = Ok (Some s') /\ pc_ok s'.

Lemma pc_step_runs t s : pc_ok s -> runs (step times t s).
Proof.
  intros HC. unfold step. destruct (threads s !! t) as [th|] eqn:Et; [|by left].
  pose proof (small s HC) as (HS1 & HS2 & HS3). pose proof HC as []. pose proof (Forall_lookup_1 _ _ _ _ p_threads0 Et) as Hth.
  pose proof Hth as [Hi Hd]. assert (HD : pc th <> Done -> i th < times (kind th)) by (intros Hn; destruct (decide (i th = times (kind th))) as [E|E]; [by apply Hd in E|lia]).
  assert (HL : in_section (pc th) <-> produceArrayLock s = Some t).
  { rewrite <- p_lock0, Et. split; [intros ?; by exists th|by intros (? & [= <-] & ?)]. }
  destruct (pc th) eqn:Ep.
  - assert (Ho : thread_ok (goto th CallAcquire)) by (apply goto_ok; congruence).
    destruct (kind th) eqn:Ek; (case_bool_decide as Hz; [by left|]); right; (eexists; split; [reflexivity|]);
      (apply (pc_moves s t th); [exact HC|exact Et|exact Ho|done|unfold_sums Ep Ek..]); try done; try lia.
    all: rewrite <- HL; naive_solver.
  - destruct (produceArrayLock s) as [t0|] eqn:El; [by left|]. assert (Ho : thread_ok (goto th Body)) by (apply goto_ok; congruence).
    right. eexists. split; [reflexivity|]. apply (pc_moves s t th); [exact HC|exact Et|exact Ho|done|unfold_sums Ep Ep..]; try done; try lia.
    + naive_solver.
    + rewrite El. naive_solver.
  - assert (Ho : thread_ok (goto th CallRelease)) by (apply goto_ok; congruence). specialize (HD ltac:(done)).
    destruct (kind th) eqn:Ek.
    + pose proof (put_quota s HC) as [HQ _]. assert (Hlt : high s < size).
      { rewrite p_high0. eapply Z.lt_le_trans; [apply (total_lt put quota _ t th Et); [|exact HQ]|lia].
        unfold put, quota, moved. rewrite Ek, Ep. lia. }
      unfold Produce_body. rewrite aset_in_range by lia. cbn [mbind res_bind]. right. eexists. split; [reflexivity|].
      apply (pc_moves s t th); [exact HC|exact Et|exact Ho|done|unfold_sums Ep Ek..]; try done; try lia.
      * rewrite <- HL. naive_solver.
      * by rewrite length_insert.
      * rewrite take_snoc by lia. by rewrite p_produced0, fmap_app.
      * rewrite fmap_app, take_app_le; [done|]. rewrite <- p_produced0, length_take. lia.
    + assert (Hc : carries th = 1) by (unfold carries; by rewrite Ek, Ep).
      assert (Hlt : low s + 1 < high s).
      { assert (1 <= total carries (threads s)); [|lia]. rewrite <- Hc. apply (total_member carries _ t th Et).
        eapply Forall_impl; [exact p_threads0|]. intros [[] w [] m] _; cbn; lia. }
      unfold Consume_body. rewrite i32_id by int_range. destruct (aget_in_range (produceArray s) (low s + 1)) as [x Ex]; [lia|].
      rewrite Ex. cbn [mbind res_bind]. apply aget_Ok in Ex as [_ Ex]. right. eexists. split; [reflexivity|].
      apply (pc_moves s t th); [exact HC|exact Et|exact Ho|done|unfold_sums Ep Ek..]; try done; try lia.
      * rewrite <- HL. naive_solver.
      * rewrite fmap_app. cbn. rewrite (take_next _ _ x); [by rewrite p_consumed0|lia|].
        rewrite <- p_produced0, lookup_take_lt by lia. exact Ex.
  - assert (Ho : thread_ok (goto th CallV)) by (apply goto_ok; congruence).
    rewrite bool_decide_true by (apply HL; by right). cbn [ASSERT mbind res_bind]. right. eexists. split; [reflexivity|].
    apply (pc_moves s t th); [exact HC|exact Et|exact Ho|done|unfold_sums Ep Ep..]; try done; try lia.
    + naive_solver.
    + intros t' Hn. destruct HL as [HL _]. rewrite HL by (by right). naive_solver.
  - pose proof (loop_ok th Hth Ep) as Ho. specialize (HD ltac:(done)).
    destruct (kind th) eqn:Ek; right; (eexists; split; [reflexivity|]);
      (apply (pc_moves s t th); [exact HC|exact Et|exact Ho|done|unfold_sums Ep Ek..]); try done; try lia; try (case_bool_decide; lia).
    all: rewrite <- HL; case_bool_decide; naive_solver.
  - by left.
Qed.

Lemma pc_steps s s' : rtc (tstep times) s s' -> pc_ok s -> pc_ok s'.
Proof.
  induction 1 as [|s1 s2 s3 [t Et] _ IH]; [done|]. intros H1. apply IH.
  destruct (pc_step_runs t s1 H1) as [E|(s2' & E & H2)]; rewrite Et in E; [done|]. by injection E as <-.
Qed.

(** Every step uses up one of the steps that are left. *)
Lemma step_left t s s' : pc_ok s -> step times t s = Ok (Some s') ->
  total steps_left (threads s') = total steps_left (threads s) - 1.
Proof.
  intros HC E. unfold step in E. destruct (threads s !! t) as [th|] eqn:Et; [|done].
  pose proof (Forall_lookup_1 _ _ _ _ (p_threads _ HC) Et) as [Hi Hd].
  assert (HX : forall th', steps_left th' = steps_left th - 1 -> threads s' = <[t := th']> (threads s) ->
    total steps_left (threads s') = total steps_left (threads s) - 1).
  { intros th' Hl ->. rewrite (total_insert _ _ _ _ th' Et). lia. }
  assert (HG : forall p q, pc th = p -> steps_left (goto th q) = steps_left (goto th p) - 1 -> threads s' = <[t := goto th q]> (threads s) ->
    total steps_left (threads s') = total steps_left (threads s) - 1).
  { intros p q Hp Hl. apply HX. rewrite Hl. unfold steps_left. cbn. by rewrite Hp. }
  destruct (pc th) eqn:Ep; [..|done].
  - destruct (kind th) eqn:Ek; (case_bool_decide; [done|]); injection E as <-; apply (HG _ CallAcquire eq_refl); try done;
      unfold steps_left; cbn; lia.
  - destruct (produceArrayLock s); [done|]. injection E as <-. apply (HG _ Body eq_refl); [unfold steps_left; cbn; lia|done].
  - apply bind_Ok in E as (s1 & E1 & E). injection E as <-. apply (HG _ CallRelease eq_refl); [unfold steps_left; cbn; lia|]. cbn. f_equal.
    destruct (kind th); unfold Produce_body, Consume_body in E1; apply bind_Ok in E1 as (? & _ & E1); by injection E1 as <-.
  - apply bind_Ok in E as (? & _ & E). injection E as <-. apply (HG _ CallV eq_refl); [unfold steps_left; cbn; lia|done].
  - assert (i th < times (kind th)) by (destruct (decide (i th = times (kind th))) as [Ei|Ei]; [by apply Hd in Ei|lia]).
    apply (HX (loop times th (i th + 1))); [unfold steps_left, loop; cbn; rewrite Ep; case_bool_decide; lia|].
    destruct (kind th); by injection E as <-.
Qed.

(** When nobody can go on, everybody has returned. *)
Lemma nobody_stuck s : pc_ok s -> (forall t, step times t s = Ok None) -> Forall (fun th => pc th = Done) (threads s).
Proof.
  intros HC HB. pose proof HC as []. pose proof (put_quota s HC) as [HQ HT].
  assert (Hfree : produceArrayLock s = None).
  { destruct (produceArrayLock s) as [t|] eqn:El; [|done]. pose proof (proj2 (p_lock0 t) eq_refl) as (th & Et & Hin). specialize (HB t).
    destruct (pc_step_runs t s HC) as [_|(s' & E & _)]; [|congruence]. unfold step in HB. rewrite Et in HB.
    destruct Hin as [Hp|Hp]; rewrite Hp in HB.
    - apply bind_Ok in HB as (? & _ & HB). done.
    - rewrite El, bool_decide_true in HB by done. done. }
  assert (Hidle : forall t th, threads s !! t = Some th -> pc th = Done \/
    (pc th = CallP /\ match kind th with Producer => isEmpty s = 0 | Consumer => isFull s = 0 end)).
  { intros t th Et. specialize (HB t). unfold step in HB. rewrite Et in HB. destruct (pc th) eqn:Ep; try (by left).
    - right. split; [done|]. destruct (kind th); by case_bool_decide.
    - by rewrite Hfree in HB.
    - apply bind_Ok in HB as (? & _ & HB). done.
    - apply bind_Ok in HB as (? & _ & HB). done.
    - by destruct (kind th). }
  assert (HF : Forall (fun th => pc th = Done \/ (pc th = CallP /\ match kind th with Producer => isEmpty s = 0 | Consumer => isFull s = 0 end)) (threads s)).
  { apply Forall_lookup_2. exact Hidle. }
  assert (E0 : total inside (threads s) = 0 /\ total carries (threads s) = 0).
  { split; (rewrite (total_const _ 0); [lia|]); (eapply Forall_impl; [exact HF|]); intros [[] w p n]; unfold inside, carries; cbn;
      intros [->|[-> _]]; done. }
  destruct E0 as [E1 E2]. apply Forall_lookup_2. intros t th Et. destruct (Hidle t th Et) as [Hd|[Hp Hk]]; [done|exfalso].
  pose proof (Forall_lookup_1 _ _ _ _ p_threads0 Et) as [Hi Hd].
  assert (Hlt : i th < times (kind th)) by (destruct (decide (i th = times (kind th))) as [Ei|Ei]; [apply Hd in Ei; congruence|lia]).
  destruct (kind th) eqn:Ek.
  - assert (total put (threads s) < total quota (threads s)).
    { apply (total_lt put quota _ t th Et); [|exact HQ]. unfold put, quota, moved. rewrite Ek, Hp. lia. }
    assert (total taken (threads s) = total demand (threads s)); [|lia].
    apply total_eq. eapply Forall_impl; [apply Forall_and; split; [exact HF|exact p_threads0]|].
    intros [[] w p n] [Hx [Hy Hz]]; unfold taken, demand, moved in *; cbn in *; [done|]. destruct Hx as [->|[-> Hx]]; [|lia].
    rewrite (proj1 Hz eq_refl). lia.
  - assert (total taken (threads s) < total demand (threads s)).
    { apply (total_lt taken demand _ t th Et); [|exact HT]. unfold taken, demand, moved. rewrite Ek, Hp. lia. }
    assert (total put (threads s) = total quota (threads s)); [|lia].
    apply total_eq. eapply Forall_impl; [apply Forall_and; split; [exact HF|exact p_threads0]|].
    intros [[] w p n] [Hx [Hy Hz]]; unfold put, quota, moved in *; cbn in *; [|done]. destruct Hx as [->|[-> Hx]]; [|lia].
    rewrite (proj1 Hz eq_refl). lia.
Qed.

(** When everybody has returned, everything has been consumed. *)
Lemma all_consumed s : pc_ok s -> Forall (fun th => pc th = Done) (threads s) ->
  Z.of_nat (length (produced s)) = producers * times Producer /\ (consumed s).*2 = (produced s).*2.
Proof.
  intros HC HD. pose proof (small s HC) as HS. destruct HC.
  assert (HF : Forall (fun th => thread_ok th /\ pc th = Done) (threads s)) by (by apply Forall_and).
  assert (E1 : total put (threads s) = total quota (threads s)).
  { apply total_eq. eapply Forall_impl; [exact HF|]. intros [[] w p n] [[Hy Hz] Hx]; unfold put, quota, moved in *; cbn in *; [|done].
    subst p. rewrite (proj1 Hz eq_refl). lia. }
  assert (E2 : total taken (threads s) = total demand (threads s)).
  { apply total_eq. eapply Forall_impl; [exact HF|]. intros [[] w p n] [[Hy Hz] Hx]; unfold taken, demand, moved in *; cbn in *; [done|].
    subst p. rewrite (proj1 Hz eq_refl). lia. }
  assert (EL : Z.of_nat (length (produced s)) = high s).
  { rewrite <- (length_fmap snd), <- p_produced0, length_take. lia. }
  split; [lia|]. rewrite p_consumed0. apply take_ge. rewrite length_fmap. lia.
Qed.

Lemma pc_start : pc_ok (MyProducerConsumer1 times size producers consumers).
Proof.
  set (ths := threads (MyProducerConsumer1 times size producers consumers)).
  assert (HT : forall r w, thread_ok (loop times (mkThread r w CallP 0) 0)).
  { intros r w. specialize (times_nonneg r). split; cbn; [lia|]. case_bool_decide; split; try done; lia. }
  assert (HF : Forall (fun th => thread_ok th /\ i th = 0 /\ (pc th = CallP \/ pc th = Done)) ths).
  { apply Forall_app. split; apply fork_all_Forall; intros k _; (split; [apply HT|]); cbn; (split; [done|]); case_bool_decide; tauto. }
  assert (H0 : forall f : Thread -> Z, (forall th, i th = 0 -> pc th = CallP \/ pc th = Done -> f th = 0) -> total f ths = 0).
  { intros f Hf. rewrite (total_const _ 0); [lia|]. eapply Forall_impl; [exact HF|]. intros th (_ & H1 & H2). by apply Hf. }
  assert (HS : forall f p c, (forall w, f (loop times (mkThread Producer w CallP 0) 0) = p) -> (forall w, f (loop times (mkThread Consumer w CallP 0) 0) = c) ->
    total f ths = p * producers + c * consumers).
  { intros f p c Hp Hc. subst ths. cbn [threads MyProducerConsumer1]. rewrite total_app, (total_const f p), (total_const f c), !fork_all_length, !Z2Nat.id; [done|done|done|..].
    - by apply fork_all_Forall.
    - by apply fork_all_Forall. }
  split; fold ths; cbn [isFull isEmpty high low produceArray produced consumed produceArrayLock MyProducerConsumer1].
  - done.
  - lia.
  - eapply Forall_impl; [exact HF|]. tauto.
  - rewrite (HS _ (times Producer) 0); [lia|done|done].
  - rewrite (HS _ 0 (times Consumer)); [lia|done|done].
  - rewrite H0; [lia|]. unfold inside. by intros th _ [-> | ->].
  - rewrite H0; [lia|]. unfold carries. intros th _ [-> | ->]; by destruct (kind th).
  - rewrite H0; [lia|]. unfold put, moved. intros th -> [-> | ->]; by destruct (kind th).
  - rewrite H0; [lia|]. unfold taken, moved. intros th -> [-> | ->]; by destruct (kind th).
  - intros t. split; [|done]. intros (th & Et & Hin). pose proof (Forall_lookup_1 _ _ _ _ HF Et) as (_ & _ & H). unfold in_section in Hin.
    destruct Hin as [Hin|Hin]; rewrite Hin in H; naive_solver.
  - rewrite length_replicate. lia.
  - done.
  - done.
Qed.

Lemma start_left : total steps_left (threads (MyProducerConsumer1 times size producers consumers)) = 10 * (producers * times Producer).
Proof.
  cbn [threads MyProducerConsumer1]. rewrite total_app, (total_const _ (5 * times Producer)), (total_const _ (5 * times Consumer)), !fork_all_length, !Z2Nat.id; [lia|done|done|..].
  - apply fork_all_Forall. intros k _. specialize (times_nonneg Consumer). unfold steps_left. cbn. case_bool_decide; lia.
  - apply fork_all_Forall. intros k _. specialize (times_nonneg Producer). unfold steps_left. cbn. case_bool_decide; lia.
Qed.

(** Each producer has produced 0, 1, 2 and so on. *)
Definition items_of (w : Z) (l : list (Z * Z)) : list Z := (filter (fun x => x.1 = w) l).*2.

Record log_ok (s : State) : Prop := mkLogOk {
  g_which : forall t t' th th', threads s !! t = Some th -> threads s !! t' = Some th' ->
    kind th = Producer -> kind th' = Producer -> which th = which th' -> t = t';
  g_order : forall t th, threads s !! t = Some th -> kind th = Producer -> items_of (which th) (produced s) = seqZ 0 (moved th) }.

Lemma log_moves s t th th' f e l h lo a pr co : log_ok s -> threads s !! t = Some th -> kind th' = kind th -> which th' = which th ->
  (kind th = Producer -> items_of (which th) pr = seqZ 0 (moved th')) -> (forall w, w <> which th \/ kind th = Consumer -> items_of w pr = items_of w (produced s)) ->
  log_ok (mkState f e l h lo a (<[t := th']> (threads s)) pr co).
Proof.
  intros [HW HO] Et Ek Ew H1 H2. assert (Hlt : (t < length (threads s))%nat) by (by eapply lookup_lt_Some).
  assert (HL : forall t1 th1, <[t := th']> (threads s) !! t1 = Some th1 -> exists th0, threads s !! t1 = Some th0 /\ kind th0 = kind th1 /\
    which th0 = which th1 /\ (t1 = t -> th1 = th') /\ (t1 <> t -> th1 = th0)).
  { intros t1 th1. destruct (decide (t1 = t)) as [->|Hn].
    - rewrite list_lookup_insert_eq by done. intros [= <-]. exists th. split_and!; done.
    - rewrite list_lookup_insert_ne by done. intros E. exists th1. split_and!; done. }
  split; cbn [threads produced].
  - intros t1 t2 th1 th2 E1 E2 K1 K2 Hw. destruct (HL t1 th1 E1) as (x1 & X1 & Y1 & Z1 & _), (HL t2 th2 E2) as (x2 & X2 & Y2 & Z2 & _).
    apply (HW t1 t2 x1 x2); congruence.
  - intros t1 th1 E1 K1. destruct (HL t1 th1 E1) as (x1 & X1 & Y1 & Z1 & A1 & B1). destruct (decide (t1 = t)) as [->|Hn].
    + rewrite A1 by done. rewrite Ew. apply H1. rewrite Et in X1. injection X1 as <-. congruence.
    + rewrite B1 by done. rewrite H2; [by apply (HO t1); [|congruence]|].
      destruct (decide (which x1 = which th)) as [Hw|Hw]; [|by left]. right. destruct (kind th) eqn:Kt; [|done].
      exfalso. apply Hn. apply (HW t1 t x1 th); congruence.
Qed.

Lemma items_snoc w l x : items_of w (l ++ [x]) = items_of w l ++ (if decide (x.1 = w) then [x.2] else []).
Proof. unfold items_of. rewrite filter_app, fmap_app, filter_cons. by case_decide. Qed.

Lemma log_step t s s' : pc_ok s -> log_ok s -> step times t s = Ok (Some s') -> log_ok s'.
Proof.
  intros HC HG E. unfold step in E. destruct (threads s !! t) as [th|] eqn:Et; [|done]. pose proof HG as [_ HO]. specialize (HO t th Et).
  pose proof (Forall_lookup_1 _ _ _ _ (p_threads _ HC) Et) as [[Hi _] _].
  destruct (pc th) eqn:Ep; [..|done].
  - destruct (kind th) eqn:Ek; (case_bool_decide; [done|]); injection E as <-; apply (log_moves s t th); try done; intros Hk; try congruence; cbn [produced set_sems set_lock]; rewrite HO by done;
      unfold moved; cbn; by rewrite Ep.
  - destruct (produceArrayLock s); [done|]. injection E as <-. apply (log_moves s t th); try done. intros Ek. cbn [produced set_sems set_lock]. rewrite HO by done.
    unfold moved; cbn; by rewrite Ep.
  - destruct (kind th) eqn:Ek.
    + apply bind_Ok in E as (s1 & E1 & E). injection E as <-. apply bind_Ok in E1 as (a & _ & E1). injection E1 as <-.
      apply (log_moves s t th); try done.
      * intros _. cbn [produced]. rewrite items_snoc, HO, decide_True by done. unfold moved. rewrite Ep. cbn [snd fst goto i pc].
        rewrite Z.add_0_r, seqZ_app by lia. by rewrite (seqZ_cons _ 1) by lia.
      * intros w [Hw|Hw]; [|congruence]. cbn [produced]. rewrite items_snoc, decide_False by (cbn; congruence). by rewrite app_nil_r.
    + apply bind_Ok in E as (s1 & E1 & E). injection E as <-. apply bind_Ok in E1 as (a & _ & E1). injection E1 as <-.
      apply (log_moves s t th); try done. intros Hk. congruence.
  - apply bind_Ok in E as (u & _ & E). injection E as <-. apply (log_moves s t th); try done. intros Ek. cbn [produced set_sems set_lock]. rewrite HO by done.
    unfold moved; cbn; by rewrite Ep.
  - assert (Hm : moved (loop times th (i th + 1)) = moved th).
    { unfold moved, loop. rewrite Ep. cbn. case_bool_decide; lia. }
    destruct (kind th) eqn:Ek; injection E as <-; apply (log_moves s t th); try done; intros Hk; try congruence; cbn [produced set_sems set_lock]; by rewrite HO, Hm.
Qed.

Lemma log_start : log_ok (MyProducerConsumer1 times size producers consumers).
Proof.
  assert (HT : forall t th, threads (MyProducerConsumer1 times size producers consumers) !! t = Some th -> kind th = Producer ->
    which th = Z.of_nat t /\ moved th = 0).
  { intros t th E Hk. cbn in E. apply lookup_app_Some in E as [E|[_ E]]; unfold fork_all in E;
      apply list_lookup_fmap_Some in E as (k & -> & [-> _]%lookup_seq); [|done].
    split; [done|]. unfold moved. cbn. by case_bool_decide. }
  split.
  - intros t t' th th' E1 E2 K1 K2 Hw. destruct (HT t th E1 K1) as [H1 _], (HT t' th' E2 K2) as [H2 _]. lia.
  - intros t th E K. destruct (HT t th E K) as [_ ->]. done.
Qed.

End proofs.
End PCProofs.
