(* ===== verification/SyncTestLocks.v ===== *)
(** * The barrier, and readers and writers *)

From S2P Require Import Prelude SyncTest SyncTestProofs.

Module RWProofs.
Import ReaderWriter.

Section proofs.
Context (readers writers : Z) (readers_range : 0 <= readers <= 90) (writers_range : 0 <= writers <= 90).

(** Threads below [R] are readers. *)
#[local] Abbreviation R := (Z.to_nat readers).

Definition reader_point (p : point) : Prop :=
  match p with WAcquire | WWrite | WRelease => False | _ => True end.
Definition writer_point (p : point) : Prop :=
  match p with WAcquire | WWrite | WRelease | Done => True | _ => False end.

(** Inside [rwMutex]; counted as a reader; relying on [wLock]; inside [wLock]. *)
Definition in_mutex (p : point) : Prop :=
  match p with REnter | RAcquireW | RRelease | RLeave | RReleaseW | RRelease2 => True | _ => False end.
Definition counted (th : Thread) : Z :=
  match pc th with RAcquireW | RRelease | RRead | RAcquire2 | RLeave => 1 | _ => 0 end.
Definition relies (p : point) : Prop :=
  match p with RRelease | RRead | RAcquire2 | RLeave | RReleaseW => True | _ => False end.
Definition writing (p : point) : Prop := match p with WWrite | WRelease => True | _ => False end.

Definition thread_ok (t : nat) (th : Thread) : Prop :=
  (if decide (t < R)%nat then reader_point (pc th) else writer_point (pc th)) /\
  0 <= which th < 90 /\ (pc th <> Done -> which th <= i th < which th + 10).

(** What a position may hold: what it held at the start or what a writer puts there. *)
Definition value_of (k x : Z) : Prop := x = k + 1 \/ x = k * 2 + 1.

Record rw_ok (s : State) : Prop := mkRwOk {
  r_number : Z.of_nat (length (threads s)) = readers + writers;
  r_threads : forall t th, threads s !! t = Some th -> thread_ok t th;
  r_mutex : forall t, (exists th, threads s !! t = Some th /\ in_mutex (pc th)) <-> rwMutex s = Some t;
  r_count : readerCount s = total counted (threads s);
  r_readers : forall t th, threads s !! t = Some th -> relies (pc th) -> exists t', (t' < R)%nat /\ wLock s = Some t';
  r_writers : forall t, (exists th, threads s !! t = Some th /\ writing (pc th)) <-> (R <= t)%nat /\ wLock s = Some t;
  r_last : forall t th, threads s !! t = Some th -> pc th = RReleaseW -> readerCount s = 0;
  r_length : Z.of_nat (length (readContent s)) = READ_CONTENT_SIZE;
  r_content : forall k x, readContent s !! k = Some x -> value_of (Z.of_nat k) x;
  r_reads : Forall (fun r => value_of r.1 r.2) (reads s) }.

Lemma counted_nonneg l : Forall (fun th => 0 <= counted th) l.
Proof. apply Forall_forall. intros th _. unfold counted. destruct (pc th); lia. Qed.

Lemma count_bound s : rw_ok s -> 0 <= readerCount s <= 180.
Proof.
  intros []. rewrite r_count0. split; [apply total_nonneg, counted_nonneg|].
  assert (H : total counted (threads s) <= total (fun _ => 1) (threads s)).
  { apply total_le, Forall_forall. intros th _. unfold counted. destruct (pc th); lia. }
  rewrite (total_const (fun _ => 1) 1) in H by (by apply Forall_forall). lia.
Qed.

(** A step of thread [t]: [w] and [m] are the locks after it, [n] is the count. *)
Lemma rw_moves s t th th' w m n a rs : rw_ok s -> threads s !! t = Some th -> thread_ok t th' ->
  (in_mutex (pc th') <-> m = Some t) -> (forall t', t' <> t -> m = Some t' <-> rwMutex s = Some t') ->
  n - counted th' = readerCount s - counted th -> (n = readerCount s \/ in_mutex (pc th)) -> (pc th' = RReleaseW -> n = 0) ->
  (relies (pc th') -> exists t', (t' < R)%nat /\ w = Some t') ->
  (forall t' th0, t' <> t -> threads s !! t' = Some th0 -> relies (pc th0) -> exists t', (t' < R)%nat /\ w = Some t') ->
  (writing (pc th') <-> (R <= t)%nat /\ w = Some t) ->
  (forall t', t' <> t -> (R <= t')%nat -> w = Some t' <-> wLock s = Some t') ->
  Z.of_nat (length a) = READ_CONTENT_SIZE -> (forall k x, a !! k = Some x -> value_of (Z.of_nat k) x) ->
  Forall (fun r => value_of r.1 r.2) rs ->
  rw_ok (mkState w m n a (<[t := th']> (threads s)) rs).
Proof.
  intros [] Et Hth Hm Hm' Hn Hn' Hl Hr Hr' Hw Hw' Ha Hc Hrs. assert (Hlt : (t < length (threads s))%nat) by (by eapply lookup_lt_Some).
  split; cbn [wLock rwMutex readerCount readContent threads reads]; try done.
  - by rewrite length_insert.
  - intros t' th0. destruct (decide (t' = t)) as [->|Hd]; [rewrite list_lookup_insert_eq by done; by intros [= <-]|].
    rewrite list_lookup_insert_ne by done. apply r_threads0.
  - intros t'. rewrite (exists_insert (fun th0 => in_mutex (pc th0))) by done. case_decide as E; [by subst t'|]. by rewrite r_mutex0, Hm'.
  - rewrite (total_insert _ _ _ _ th' Et). lia.
  - intros t' th0. destruct (decide (t' = t)) as [->|Hd]; [rewrite list_lookup_insert_eq by done; intros [= <-]; exact Hr|].
    rewrite list_lookup_insert_ne by done. by apply Hr'.
  - intros t'. rewrite (exists_insert (fun th0 => writing (pc th0))) by done. case_decide as E; [by subst t'|]. rewrite r_writers0. split; intros [H1 H2]; (split; [done|]); by apply Hw'.
  - intros t' th0. destruct (decide (t' = t)) as [->|Hd]; [rewrite list_lookup_insert_eq by done; intros [= <-]; exact Hl|].
    rewrite list_lookup_insert_ne by done. intros E Hp. destruct Hn' as [-> |Hn']; [by eapply r_last0|].
    assert (E1 : rwMutex s = Some t) by (apply r_mutex0; by exists th). assert (E2 : rwMutex s = Some t') by (apply r_mutex0; exists th0; by rewrite Hp).
    congruence.
Qed.

(** A step of [t] that only moves it, inside or outside of [rwMutex]. *)
Lemma rw_goto s t th p m : rw_ok s -> threads s !! t = Some th -> thread_ok t th -> pc th <> Done -> p <> Done ->
  (if decide (t < R)%nat then reader_point p else writer_point p) ->
  (in_mutex p <-> m = Some t) -> (forall t', t' <> t -> m = Some t' <-> rwMutex s = Some t') ->
  counted (mkThread (which th) p (i th)) = counted th -> p <> RReleaseW -> (relies p -> relies (pc th)) -> (writing p <-> writing (pc th)) ->
  rw_ok (goto (set_rw s m) t th p).
Proof.
  intros HC Et [H1 [H2 H3]] Hd Hp Hk Hm Hm' Hc Hl Hr Hw. pose proof HC as []. unfold goto, set_rw. cbn.
  apply (rw_moves s t th); try done; try lia; cbn.
  - split; [done|]. split; [done|]. intros _. by apply H3.
  - intros Hx. apply (r_readers0 t th Et). by apply Hr.
  - intros t' th0 _. apply r_readers0.
  - rewrite Hw, <- r_writers0. split; [intros ?; by exists th|]. intros (th0 & E0 & ?). rewrite Et in E0. by injection E0 as <-.
Qed.

Lemma others_out s t th t' th0 : rw_ok s -> threads s !! t = Some th -> in_mutex (pc th) -> t' <> t -> threads s !! t' = Some th0 -> ~ in_mutex (pc th0).
Proof.
  intros [] E1 H1 Hn E2 H2. assert (rwMutex s = Some t) by (apply r_mutex0; by exists th).
  assert (rwMutex s = Some t') by (apply r_mutex0; by exists th0). congruence.
Qed.

Lemma total_positive {A} (f : A -> Z) l : 0 < total f l -> exists t x, l !! t = Some x /\ 0 < f x.
Proof.
  induction l as [|x l IH]; cbn; [lia|]. intros H. destruct (decide (0 < f x)); [by exists 0%nat, x|].
  destruct IH as (t & y & E & Hy); [lia|]. by exists (S t), y.
Qed.

(** Somebody else is counted while [t] is inside [rwMutex]: then somebody relies on [wLock]. *)
Lemma others_rely s t th : rw_ok s -> threads s !! t = Some th -> in_mutex (pc th) -> counted th < readerCount s ->
  exists t', (t' < R)%nat /\ wLock s = Some t'.
Proof.
  intros HC Et Hin Hlt. pose proof HC as []. rewrite r_count0 in Hlt.
  destruct (total_positive counted (<[t := mkThread 0 Done 0]> (threads s))) as (t' & th0 & E & Hp).
  { rewrite (total_insert _ _ _ _ _ Et). change (counted (mkThread 0 Done 0)) with 0. lia. }
  destruct (decide (t' = t)) as [->|Hn].
  - rewrite list_lookup_insert_eq in E by (by eapply lookup_lt_Some). by injection E as <-.
  - rewrite list_lookup_insert_ne in E by done. pose proof (others_out s t th t' th0 HC Et Hin Hn E) as Ho.
    apply (r_readers0 t' th0 E). unfold counted in Hp. by destruct (pc th0).
Qed.

(** What a step leads to: one step fails, that of a reader that leaves last and has
    not taken [wLock] itself. *)
Definition runs (s : State) (t : nat) (r : res (option State)) : Prop :=
  r = Ok None \/ (exists s', r = Ok (Some s') /\ rw_ok s') \/
  (r = AssertFail /\ (exists th, threads s !! t = Some th /\ pc th = RReleaseW) /\ exists t', t' <> t /\ (t' < R)%nat /\ wLock s = Some t').

Lemma next_ok t th p : thread_ok t th -> pc th <> Done -> p <> Done ->
  (if decide (t < R)%nat then reader_point p else writer_point p) ->
  thread_ok t (mkThread (which th) (if bool_decide (i th + 1 < which th + 10) then p else Done) (i th + 1)).
Proof.
  intros [H1 [H2 H3]] Hd Hp Hk. specialize (H3 Hd). split; cbn; [|split; [done|]].
  - case_bool_decide; [done|]. by case_decide.
  - case_bool_decide; [lia|done].
Qed.

Lemma reader_step t th s : rw_ok s -> threads s !! t = Some th -> (t < R)%nat -> runs s t (MyReader t th s).
Proof.
  intros HC Et Hk. pose proof HC as []. pose proof (r_threads0 t th Et) as Hth. pose proof (count_bound s HC) as HN.
  pose proof Hth as (Hp & Hw & Hi). rewrite decide_True in Hp by done.
  assert (HM : in_mutex (pc th) -> rwMutex s = Some t) by (intros H; apply r_mutex0; by exists th).
  unfold MyReader, acquire, release. destruct (pc th) eqn:Ep; try done; try (by left).
  - (* RAcquire *)
    destruct (rwMutex s) as [t0|] eqn:Em; [by left|]. right; left. eexists. split; [reflexivity|].
    apply rw_goto; rewrite ?Ep; try done; [by rewrite decide_True|intros t' Hn; rewrite Em; naive_solver|by unfold counted; rewrite Ep].
  - (* REnter *)
    right; left. eexists. split; [reflexivity|]. unfold goto, set_count. cbn. rewrite i32_id by int_range.
    assert (Hp' : forall p, p = RAcquireW \/ p = RRelease -> (p = RRelease -> exists t', (t' < R)%nat /\ wLock s = Some t') ->
      rw_ok (mkState (wLock s) (rwMutex s) (readerCount s + 1) (readContent s) (<[t:=mkThread (which th) p (i th)]> (threads s)) (reads s))).
    { intros p Hq Hr. apply (rw_moves s t th); try done; cbn.
      - split; [rewrite decide_True by done; by destruct Hq as [-> | ->]|]. split; [done|]. intros _. by apply Hi.
      - rewrite HM by done. by destruct Hq as [-> | ->].
      - unfold counted. rewrite Ep. destruct Hq as [-> | ->]; cbn; lia.
      - right. by rewrite Ep.
      - by destruct Hq as [-> | ->].
      - destruct Hq as [-> | ->]; [done|]. by intros _; apply Hr.
      - intros t' th0 _. apply r_readers0.
      - split; [by destruct Hq as [-> | ->]|]. lia. }
    case_bool_decide as Hc; apply Hp'; [by left|done|by right|]. intros _. apply (others_rely s t th HC Et); [by rewrite Ep|].
    unfold counted. rewrite Ep. lia.
  - (* RAcquireW *)
    destruct (wLock s) as [t0|] eqn:Ew; [by left|]. right; left. eexists. split; [reflexivity|]. unfold goto, set_w. cbn.
    apply (rw_moves s t th); try done; try lia; cbn.
    + split; [by rewrite decide_True|]. split; [done|]. intros _. by apply Hi.
    + unfold counted. rewrite Ep. cbn. lia.
    + intros _. by exists t.
    + intros t' th0 _ _ _. by exists t.
    + split; [done|]. intros [? _]. lia.
    + intros t' Hn Hr. rewrite Ew. split; [intros [= ->]; lia|done].
  - (* RRelease *)
    rewrite bool_decide_true by (by apply HM). cbn [ASSERT mbind res_bind]. right; left. eexists. split; [reflexivity|].
    apply rw_goto; rewrite ?Ep; try done; [by rewrite decide_True| |by unfold counted; rewrite Ep].
    intros t' Hn. rewrite HM by done. naive_solver.
  - (* RRead *)
    destruct (aget_in_range (readContent s) (i th)) as [x Ex]; [unfold READ_CONTENT_SIZE in *; specialize (Hi ltac:(done)); lia|].
    rewrite Ex. cbn [mbind res_bind]. apply aget_Ok in Ex as [H0 Ex]. right; left. eexists. split; [reflexivity|]. unfold goto. cbn.
    apply (rw_moves s t th); try done; try lia; cbn.
    + split; [by rewrite decide_True|]. split; [done|]. intros _. by apply Hi.
    + rewrite <- r_mutex0. split; [done|]. intros (th0 & E0 & H1). rewrite Et in E0. injection E0 as <-. by rewrite Ep in H1.
    + unfold counted. rewrite Ep. cbn. lia.
    + intros _. apply (r_readers0 t th Et). by rewrite Ep.
    + intros t' th0 _. apply r_readers0.
    + split; [done|]. intros [? _]. lia.
    + apply Forall_app. split; [done|]. constructor; [|done]. cbn. specialize (r_content0 _ _ Ex). by rewrite Z2Nat.id in r_content0.
  - (* RAcquire2 *)
    destruct (rwMutex s) as [t0|] eqn:Em; [by left|]. right; left. eexists. split; [reflexivity|].
    apply rw_goto; rewrite ?Ep; try done; [by rewrite decide_True|intros t' Hn; rewrite Em; naive_solver|by unfold counted; rewrite Ep].
  - (* RLeave *)
    right; left. eexists. split; [reflexivity|]. unfold goto, set_count. cbn.
    assert (H1 : 1 <= readerCount s).
    { rewrite r_count0. assert (Hc : counted th = 1) by (unfold counted; by rewrite Ep). rewrite <- Hc.
      apply (total_member counted _ t th Et), counted_nonneg. }
    rewrite i32_id by int_range.
    apply (rw_moves s t th); try done; cbn; try (by case_bool_decide).
    + split; [rewrite decide_True by done; by case_bool_decide|]. split; [done|]. intros _. by apply Hi.
    + unfold counted. rewrite Ep. case_bool_decide; cbn; lia.
    + right. by rewrite Ep.
    + intros _. apply (r_readers0 t th Et). by rewrite Ep.
    + intros t' th0 _. apply r_readers0.
    + split; [by case_bool_decide|]. lia.
  - (* RReleaseW *)
    pose proof (r_readers0 t th Et) as Hr. rewrite Ep in Hr. destruct (Hr ltac:(done)) as (t' & Ht' & Ew).
    destruct (decide (t' = t)) as [->|Hn].
    + rewrite bool_decide_true by done. cbn [ASSERT mbind res_bind]. right; left. eexists. split; [reflexivity|]. unfold goto, set_w. cbn.
      pose proof (r_last0 t th Et Ep) as H0. apply (rw_moves s t th); try done; try lia; cbn.
      * split; [by rewrite decide_True|]. split; [done|]. intros _. by apply Hi.
      * unfold counted. rewrite Ep. cbn. lia.
      * intros t2 th0 Hn2 E2 Hr2. exfalso. pose proof (others_out s t th t2 th0 HC Et ltac:(by rewrite Ep) Hn2 E2) as Ho.
        assert (Hc : counted th0 = 1) by (unfold counted; by destruct (pc th0)).
        pose proof (total_member counted _ t2 th0 E2 (counted_nonneg _)). lia.
      * split; [done|]. by intros [_ ?].
      * intros t2 Hn2 Hr2. rewrite Ew. naive_solver.
    + rewrite bool_decide_false by congruence. right; right. split; [done|]. split; [by exists th|]. by exists t'.
  - (* RRelease2 *)
    rewrite bool_decide_true by (by apply HM). cbn [ASSERT mbind res_bind]. right; left. eexists. split; [reflexivity|].
    unfold next, set_rw. cbn. pose proof (next_ok t th RAcquire Hth ltac:(by rewrite Ep) ltac:(done)) as Ho. rewrite decide_True in Ho by done.
    apply (rw_moves s t th); try done; try lia; cbn; try (by case_bool_decide).
    + by apply Ho.
    + intros t' Hn. rewrite HM by done. naive_solver.
    + unfold counted. rewrite Ep. cbn. case_bool_decide; lia.
    + intros t' th0 _. apply r_readers0.
    + split; [by case_bool_decide|]. lia.
Qed.

Lemma writer_step t th s : rw_ok s -> threads s !! t = Some th -> (R <= t)%nat -> runs s t (MyWriter t th s).
Proof.
  intros HC Et Hk. pose proof HC as []. pose proof (r_threads0 t th Et) as Hth. pose proof Hth as (Hp & Hw & Hi).
  rewrite decide_False in Hp by lia.
  assert (HW : writing (pc th) -> wLock s = Some t) by (intros H; apply (r_writers0 t); by exists th).
  assert (HM : rwMutex s <> Some t).
  { intros Em. apply r_mutex0 in Em as (th0 & E0 & Hin). rewrite Et in E0. injection E0 as <-. by destruct (pc th). }
  assert (HR : forall t' th0, threads s !! t' = Some th0 -> relies (pc th0) -> wLock s <> Some t /\ wLock s <> None).
  { intros t' th0 E0 H0. destruct (r_readers0 t' th0 E0 H0) as (t2 & H2 & E2). rewrite E2. split; [|done]. intros [= ->]. lia. }
  unfold MyWriter, acquire, release. destruct (pc th) eqn:Ep; try done; try (by left).
  - (* WAcquire *)
    destruct (wLock s) as [t0|] eqn:Ew; [by left|]. right; left. eexists. split; [reflexivity|]. unfold goto, set_w. cbn.
    apply (rw_moves s t th); try done; try lia; cbn.
    + split; [by rewrite decide_False by lia|]. split; [done|]. intros _. by apply Hi.
    + unfold counted. rewrite Ep. cbn. lia.
    + intros t' th0 _ E0 H0. by destruct (HR t' th0 E0 H0) as [_ ?].
    + intros t' Hn Hr. rewrite Ew. naive_solver.
  - (* WWrite *)
    specialize (Hi ltac:(done)). destruct (aget_in_range (readContent s) (i th)) as [x ->]; [unfold READ_CONTENT_SIZE in *; lia|].
    cbn [mbind res_bind]. rewrite aset_in_range by (unfold READ_CONTENT_SIZE in *; lia). cbn [mbind res_bind]. right; left. eexists. split; [reflexivity|].
    unfold goto. cbn. rewrite i32_id by int_range. apply (rw_moves s t th); try done; try lia; cbn.
    + split; [by rewrite decide_False by lia|]. done.
    + unfold counted. rewrite Ep. cbn. lia.
    + intros t' th0 _. apply r_readers0.
    + split; [intros _; split; [lia|by apply HW]|done].
    + by rewrite length_insert.
    + intros k y Ey. apply list_lookup_insert_Some in Ey as [(<- & <- & _)|[_ Ey]]; [|by apply r_content0]. right. rewrite Z2Nat.id by lia. lia.
  - (* WRelease *)
    rewrite HW by done. rewrite bool_decide_true by done. cbn [ASSERT mbind res_bind]. right; left. eexists. split; [reflexivity|].
    unfold next, set_w. cbn. pose proof (next_ok t th WAcquire Hth ltac:(by rewrite Ep) ltac:(done)) as Ho. rewrite decide_False in Ho by lia.
    specialize (Ho I). apply (rw_moves s t th); try done; try lia; cbn; try (by case_bool_decide).
    + unfold counted. rewrite Ep. cbn. case_bool_decide; lia.
    + intros t' th0 _ E0 H0. destruct (HR t' th0 E0 H0) as [H1 _]. by rewrite HW in H1.
    + split; [by case_bool_decide|]. by intros [_ ?].
    + intros t' Hn Hr. rewrite HW by done. naive_solver.
Qed.

Lemma rw_step_runs t s : rw_ok s -> runs s t (step t s).
Proof.
  intros HC. unfold step. destruct (threads s !! t) as [th|] eqn:Et; [|by left]. pose proof (r_threads s HC t th Et) as (Hp & _).
  case_decide as Hk.
  - pose proof (reader_step t th s HC Et Hk) as H. by destruct (pc th).
  - pose proof (writer_step t th s HC Et ltac:(lia)) as H. unfold MyReader. destruct (pc th); try done. by left.
Qed.

Lemma rw_steps s s' : rtc tstep s s' -> rw_ok s -> rw_ok s'.
Proof.
  induction 1 as [|s1 s2 s3 [t Et] _ IH]; [done|]. intros H1. apply IH.
  destruct (rw_step_runs t s1 H1) as [E|[(s2' & E & H2)|(E & _)]]; rewrite Et in E; [done| |done]. by injection E as <-.
Qed.

Lemma rw_start : rw_ok (MyReaderWriter readers writers).
Proof.
  assert (HT : forall t th, threads (MyReaderWriter readers writers) !! t = Some th ->
    thread_ok t th /\ (pc th = RAcquire \/ pc th = WAcquire)).
  { intros t th E. cbn in E. apply lookup_app_Some in E as [E|[Hl E]].
    - pose proof (lookup_lt_Some _ _ _ E) as Hlt. rewrite fork_all_length in Hlt. unfold fork_all in E.
      apply list_lookup_fmap_Some in E as (k & -> & E%lookup_seq). split; [|by left]. split; [by rewrite decide_True|]. cbn. split; [lia|]. intros _. lia.
    - rewrite fork_all_length in Hl. pose proof (lookup_lt_Some _ _ _ E) as Hlt. rewrite !fork_all_length in *. unfold fork_all in E.
      apply list_lookup_fmap_Some in E as (k & -> & E%lookup_seq). split; [|by right]. split; [by rewrite decide_False by lia|]. cbn. split; [lia|]. intros _. lia. }
  split; cbn [wLock rwMutex readerCount readContent threads reads MyReaderWriter] in *; try done.
  - rewrite length_app, !fork_all_length. lia.
  - intros t th E. by apply HT.
  - intros t. split; [|done]. intros (th & E & Hin). destruct (HT t th E) as [_ [Hp|Hp]]; by rewrite Hp in Hin.
  - rewrite (total_const _ 0); [done|]. apply Forall_lookup_2. intros t th E. unfold counted. destruct (HT t th E) as [_ [-> | ->]]; done.
  - intros t th E Hr. destruct (HT t th E) as [_ [Hp|Hp]]; by rewrite Hp in Hr.
  - intros t. split; [|by intros [_ ?]]. intros (th & E & Hin). destruct (HT t th E) as [_ [Hp|Hp]]; by rewrite Hp in Hin.
  - intros k x E. unfold fork_all in E. apply list_lookup_fmap_Some in E as (m & -> & [-> _]%lookup_seq). left. lia.
Qed.

End proofs.
End RWProofs.

Module BarrierProofs.
Import BarrierTest.

Definition arrived (p : point) : Z := match p with CallAcquire | Before | CallBarrier => 0 | _ => 1 end.
Definition in_lock (p : point) : Prop := match p with Before | CallBarrier | After | CallRelease => True | _ => False end.
Definition said_one (p : point) : Prop := match p with CallAcquire | Before => False | _ => True end.
Definition said_two (p : point) : Prop := match p with CallRelease | Done => True | _ => False end.
Definition released (p : point) : Prop := match p with Relock | After | CallRelease | Done => True | _ => False end.

Definition lines (a b : list nat) : list (nat * Z) := ((fun t => (t, 1)) <$> a) ++ ((fun t => (t, 2)) <$> b).

(** Before and after the last thread has arrived. *)
Definition phase (s : State) : Prop :=
  (barrierNum s < BARRIER_NUM /\ (forall t p, threads s !! t = Some p -> ~ released p) /\
   NoDup (waiting s) /\ forall t, t ∈ waiting s <-> threads s !! t = Some InWait) \/
  (waiting s = [] /\ forall t p, threads s !! t = Some p -> released p).

Record barrier_ok (s : State) : Prop := mkBarrierOk {
  b_number : length (threads s) = 5%nat;
  b_lock : forall t, (exists p, threads s !! t = Some p /\ in_lock p) <-> barrierMutex s = Some t;
  b_count : barrierNum s = total arrived (threads s);
  b_phase : phase s;
  b_output : exists a b, output s = lines a b /\ NoDup a /\ NoDup b /\
    (forall t, (exists p, threads s !! t = Some p /\ said_one p) <-> t ∈ a) /\
    (forall t, (exists p, threads s !! t = Some p /\ said_two p) <-> t ∈ b) }.

Lemma arrived_bound s : length (threads s) = 5%nat -> 0 <= total arrived (threads s) <= 5 /\
  (forall t p, threads s !! t = Some p -> arrived p = 0 -> total arrived (threads s) <= 4).
Proof.
  intros HL. assert (H01 : forall p, 0 <= arrived p <= 1) by (intros []; cbn; lia).
  assert (E1 : total (fun _ : point => 1) (threads s) = 5) by (rewrite (total_const _ 1); [lia|by apply Forall_forall]).
  split; [split|].
  - apply total_nonneg, Forall_forall. intros p _. apply H01.
  - rewrite <- E1. apply total_le, Forall_forall. intros p _. apply H01.
  - intros t p E Hp. assert (total arrived (threads s) < total (fun _ => 1) (threads s)); [|lia].
    apply (total_lt _ _ _ t p E); [lia|]. apply Forall_forall. intros q _. apply H01.
Qed.

(** A step that is not the call of [Barrier]. *)
Lemma barrier_moves s t p p' m a b : barrier_ok s -> threads s !! t = Some p -> arrived p' = arrived p -> (released p' <-> released p) ->
  p <> InWait -> p' <> InWait -> (in_lock p' <-> m = Some t) -> (forall t', t' <> t -> m = Some t' <-> barrierMutex s = Some t') ->
  NoDup a -> NoDup b ->
  (forall t', (if decide (t' = t) then said_one p' else exists q, threads s !! t' = Some q /\ said_one q) <-> t' ∈ a) ->
  (forall t', (if decide (t' = t) then said_two p' else exists q, threads s !! t' = Some q /\ said_two q) <-> t' ∈ b) ->
  barrier_ok (mkState m (barrierNum s) (waiting s) (<[t := p']> (threads s)) (lines a b)).
Proof.
  intros [] Et Ha Hr Hw Hw' Hm Hm' Na Nb H1 H2. assert (Hlt : (t < length (threads s))%nat) by (by eapply lookup_lt_Some).
  split; cbn [barrierMutex barrierNum waiting threads output]; try done.
  - by rewrite length_insert.
  - intros t'. rewrite exists_insert by done. case_decide as E; [by subst t'|]. by rewrite b_lock0, Hm'.
  - rewrite (total_insert _ _ _ _ p' Et). lia.
  - destruct b_phase0 as [(HP1 & HP2 & HP3 & HP4)|(HP1 & HP2)]; [left|right]; cbn [barrierNum waiting threads].
    + split; [done|]. split; [|split; [done|]].
      * intros t' q. destruct (decide (t' = t)) as [->|Hn]; [rewrite list_lookup_insert_eq by done; intros [= <-]; rewrite Hr; by eapply HP2|].
        rewrite list_lookup_insert_ne by done. by apply HP2.
      * intros t'. rewrite HP4. destruct (decide (t' = t)) as [->|Hn]; [rewrite list_lookup_insert_eq by done; naive_solver|by rewrite list_lookup_insert_ne].
    + split; [done|]. intros t' q. destruct (decide (t' = t)) as [->|Hn]; [rewrite list_lookup_insert_eq by done; intros [= <-]; rewrite Hr; by eapply HP2|].
      rewrite list_lookup_insert_ne by done. by apply HP2.
  - exists a, b. split; [done|]. split; [done|]. split; [done|]. split; intros t'; rewrite exists_insert by done; [apply H1|apply H2].
Qed.

Lemma wake_lookup (ws : list nat) (l : list point) t :
  foldr (fun w l => <[w := Relock]> l) l ws !! t = if decide (t ∈ ws) then (fun _ => Relock) <$> (l !! t) else l !! t.
Proof.
  induction ws as [|w ws IH]; cbn [foldr]; [by rewrite decide_False by apply not_elem_of_nil|].
  destruct (decide (t = w)) as [->|Hn].
  - rewrite decide_True by apply list_elem_of_here. destruct (decide (w < length l)%nat) as [Hl|Hl].
    + destruct (lookup_lt_is_Some_2 l w Hl) as [p Ep]. rewrite list_lookup_insert_eq; [by rewrite Ep|].
      clear IH. induction ws as [|x ws IHw]; cbn; [done|by rewrite length_insert].
    + rewrite (lookup_ge_None_2 l w) by lia. apply lookup_ge_None_2. rewrite length_insert. clear IH.
      induction ws as [|x ws IHw]; cbn; [lia|by rewrite length_insert].
  - rewrite list_lookup_insert_ne, IH by done. destruct (decide (t ∈ ws)) as [H|H].
    + by rewrite decide_True by by apply list_elem_of_further.
    + rewrite decide_False; [done|]. by intros [?|?]%elem_of_cons.
Qed.

Lemma wake_length (ws : list nat) (l : list point) : length (foldr (fun w l => <[w := Relock]> l) l ws) = length l.
Proof. induction ws as [|w ws IH]; cbn; [done|by rewrite length_insert]. Qed.

(** [Barrier], called with the lock held. *)
Lemma Barrier_ok s t : barrier_ok s -> threads s !! t = Some CallBarrier -> exists s', Barrier s t = Ok s' /\ barrier_ok s'.
Proof.
  intros HC Et. pose proof HC as []. pose proof (arrived_bound s b_number0) as [[H0 _] Hb]. specialize (Hb t CallBarrier Et eq_refl).
  assert (Hlt : (t < length (threads s))%nat) by (by eapply lookup_lt_Some).
  assert (Em : barrierMutex s = Some t) by (apply b_lock0; by exists CallBarrier).
  destruct b_phase0 as [(HP1 & HP2 & HP3 & HP4)|(_ & HP)]; [|by specialize (HP t CallBarrier Et)].
  destruct b_output0 as (a & b & Eo & Na & Nb & Ha & Hbb). unfold Barrier. rewrite i32_id by int_range. rewrite (bool_decide_true _ Em).
  case_bool_decide as Hn.
  - rewrite orb_true_r. cbn [ASSERT mbind res_bind]. eexists. split; [reflexivity|]. unfold goto. cbn.
    set (ths := foldr _ _ _).
    assert (HL : forall t' p, <[t := After]> ths !! t' = Some p -> (t' = t /\ p = After) \/ (t' <> t /\ p = Relock)).
    { intros t' p. destruct (decide (t' = t)) as [->|Hd].
      - rewrite list_lookup_insert_eq by (subst ths; by rewrite wake_length). intros [= <-]. by left.
      - rewrite list_lookup_insert_ne by done. subst ths. rewrite wake_lookup. intros E. right. split; [done|]. case_decide as Hin.
        + destruct (threads s !! t'); [by injection E as <-|done].
        + exfalso. assert (Hp : arrived p = 1).
          { destruct (decide (arrived p = 0)) as [Hz|Hz]; [|destruct p; cbn in *; done]. exfalso.
            assert (total arrived (<[t := InWait]> (threads s)) <= 4).
            { refine (proj2 (arrived_bound (mkState None 0 [] (<[t := InWait]> (threads s)) []) _) t' p _ Hz); cbn [threads]; [by rewrite length_insert|by rewrite list_lookup_insert_ne]. }
            rewrite (total_insert _ _ _ _ _ Et) in H. cbn in H. unfold BARRIER_NUM in Hn. lia. }
          specialize (HP2 t' p E). rewrite HP4 in Hin. destruct p; cbn in *; try done; lia. }
    assert (HE : forall P : point -> Prop, P After -> P Relock -> forall t', (exists p, <[t := After]> ths !! t' = Some p /\ P p) <-> (t' < 5)%nat).
    { intros P P1 P2 t'. split.
      - intros (p & E & _). apply lookup_lt_Some in E. rewrite length_insert in E. subst ths. rewrite wake_length in E. lia.
      - intros Hl. destruct (lookup_lt_is_Some_2 (<[t := After]> ths) t') as [p Ep]; [rewrite length_insert; subst ths; rewrite wake_length; lia|].
        exists p. split; [done|]. by destruct (HL t' p Ep) as [[_ ->]|[_ ->]]. }
    split; cbn [barrierMutex barrierNum waiting threads output].
    + rewrite length_insert. subst ths. by rewrite wake_length.
    + intros t'. rewrite Em. split.
      * intros (p & Ep & Hp). by destruct (HL t' p Ep) as [[-> _]|[_ ->]].
      * intros [= ->]. exists After. split; [|done]. apply list_lookup_insert_eq. subst ths. by rewrite wake_length.
    + rewrite (total_const _ 1); [rewrite length_insert; subst ths; rewrite wake_length; unfold BARRIER_NUM in Hn; lia|].
      apply Forall_lookup_2. intros t' p E. by destruct (HL t' p E) as [[_ ->]|[_ ->]].
    + right. split; [done|]. intros t' p E. by destruct (HL t' p E) as [[_ ->]|[_ ->]].
    + exists a, b. split; [done|]. split; [done|]. split; [done|]. split; intros t'.
      * rewrite (HE said_one) by done. rewrite <- Ha. split; [|intros (p & E & _); apply lookup_lt_Some in E; lia].
        intros Hl. destruct (lookup_lt_is_Some_2 (threads s) t') as [p Ep]; [lia|]. exists p. split; [done|].
        destruct (decide (t' = t)) as [->|Hd]; [rewrite Et in Ep; by injection Ep as <-|].
        pose proof (proj2 (HE (fun _ => True) I I t') Hl) as (q & Eq & _). destruct (HL t' q Eq) as [[? _]|[_ ->]]; [done|].
        rewrite list_lookup_insert_ne in Eq by done. subst ths. rewrite wake_lookup, Ep in Eq. case_decide as Hin; [|by injection Eq as ->].
        apply HP4 in Hin. rewrite Ep in Hin. by injection Hin as ->.
      * rewrite <- Hbb. split.
        -- intros (p & E & Hp). by destruct (HL t' p E) as [[_ ->]|[_ ->]].
        -- intros (p & E & Hp). specialize (HP2 t' p E). by destruct p.
  - cbn [ASSERT mbind res_bind]. eexists. split; [reflexivity|]. unfold goto. cbn. unfold BARRIER_NUM in *.
    split; cbn [barrierMutex barrierNum waiting threads output].
    + by rewrite length_insert.
    + intros t'. rewrite exists_insert by done. case_decide as E; [done|]. rewrite b_lock0, Em. naive_solver.
    + rewrite (total_insert _ _ _ _ _ Et). cbn. lia.
    + left. split; [cbn; unfold BARRIER_NUM; lia|]. split; [|split].
      * intros t' p. cbn. destruct (decide (t' = t)) as [->|Hd]; [rewrite list_lookup_insert_eq by done; intros [= <-]; cbn; tauto|].
        rewrite list_lookup_insert_ne by done. apply HP2.
      * apply NoDup_app. split; [done|]. split; [|apply NoDup_singleton]. intros x Hx ->%list_elem_of_singleton.
        apply HP4 in Hx. congruence.
      * intros t'. cbn. rewrite elem_of_app, list_elem_of_singleton, HP4. destruct (decide (t' = t)) as [->|Hd].
        -- rewrite list_lookup_insert_eq by done. naive_solver.
        -- rewrite list_lookup_insert_ne by done. naive_solver.
    + exists a, b. split; [done|]. split; [done|]. split; [done|]. split; intros t'; rewrite exists_insert by done.
      * rewrite <- Ha. case_decide; [subst t'|done]. split; [intros _; by exists CallBarrier|done].
      * rewrite <- Hbb. case_decide; [subst t'|done]. split; [done|]. rewrite Et. by intros (? & [= <-] & ?).
Qed.

Definition runs (r : res (option State)) : Prop := r = Ok None \/ exists s', r = Ok (Some s') /\ barrier_ok s'.

Lemma said_other (P : point -> Prop) (s : State) t p (a : list nat) : threads s !! t = Some p ->
  (forall t', (exists q, threads s !! t' = Some q /\ P q) <-> t' ∈ a) ->
  forall p', (P p' <-> P p) -> forall t', (if decide (t' = t) then P p' else exists q, threads s !! t' = Some q /\ P q) <-> t' ∈ a.
Proof.
  intros Et H p' Hp t'. case_decide as E; [|apply H]. subst t'. rewrite <- H, Hp. split; [intros ?; by exists p|].
  intros (q & Eq & ?). rewrite Et in Eq. by injection Eq as <-.
Qed.

Lemma said_now (P : point -> Prop) (s : State) t p (a : list nat) : threads s !! t = Some p ->
  (forall t', (exists q, threads s !! t' = Some q /\ P q) <-> t' ∈ a) ->
  forall p', ~ P p -> P p' -> (t ∉ a) /\
    forall t', (if decide (t' = t) then P p' else exists q, threads s !! t' = Some q /\ P q) <-> t' ∈ a ++ [t].
Proof.
  intros Et H p' Hp Hp'. assert (Hn : t ∉ a).
  { rewrite <- H. intros (q & Eq & ?). rewrite Et in Eq. by injection Eq as <-. }
  split; [done|]. intros t'. rewrite elem_of_app, list_elem_of_singleton. case_decide as E; [subst t'; tauto|]. rewrite H. tauto.
Qed.

Lemma NoDup_snoc (a : list nat) t : NoDup a -> t ∉ a -> NoDup (a ++ [t]).
Proof. intros Ha Ht. apply NoDup_app. split; [done|]. split; [by intros x Hx ->%list_elem_of_singleton|apply NoDup_singleton]. Qed.

Lemma barrier_step_runs t s : barrier_ok s -> runs (step t s).
Proof.
  intros HC. unfold step. destruct (threads s !! t) as [p|] eqn:Et; [|by left]. pose proof HC as [_ HL _ HP (a & b & Eo & Na & Nb & Ha & Hb)].
  assert (HM : in_lock p -> barrierMutex s = Some t) by (intros H; apply HL; by exists p).
  pose proof (said_other said_one s t p a Et Ha) as H1. pose proof (said_other said_two s t p b Et Hb) as H2.
  destruct p; try (by left).
  - destruct (barrierMutex s) as [t0|] eqn:Em; [by left|]. right. eexists. split; [reflexivity|]. unfold goto, set_lock. cbn. rewrite Eo.
    apply (barrier_moves s t CallAcquire); try done; [intros t' Hn; rewrite Em; naive_solver|by apply H1|by apply H2].
  - right. eexists. split; [reflexivity|]. unfold goto, print. cbn. rewrite Eo.
    assert (Eb : b = []).
    { destruct b as [|x b]; [done|]. exfalso. destruct (proj2 (Hb x) (list_elem_of_here _ _)) as (q & Eq & Hq).
      destruct HP as [(_ & HP & _)|(_ & HP)]; [specialize (HP x q Eq); by destruct q|by specialize (HP t Before Et)]. }
    subst b. destruct (said_now said_one s t Before a Et Ha CallBarrier) as [Hn H3]; [tauto|done|].
    replace (lines a [] ++ [(t, 1)]) with (lines (a ++ [t]) []) by (unfold lines; by rewrite fmap_app, !app_nil_r).
    apply (barrier_moves s t Before); try done; [by apply NoDup_snoc|by apply H2].
  - destruct (Barrier_ok s t HC Et) as (s' & -> & H'). right. by exists s'.
  - destruct (barrierMutex s) as [t0|] eqn:Em; [by left|]. right. eexists. split; [reflexivity|]. unfold goto, set_lock. cbn. rewrite Eo.
    apply (barrier_moves s t Relock); try done; [intros t' Hn; rewrite Em; naive_solver|by apply H1|by apply H2].
  - right. eexists. split; [reflexivity|]. unfold goto, print. cbn. rewrite Eo.
    destruct (said_now said_two s t After b Et Hb CallRelease) as [Hn H3]; [tauto|done|].
    replace (lines a b ++ [(t, 2)]) with (lines a (b ++ [t])) by (unfold lines; by rewrite fmap_app, app_assoc).
    apply (barrier_moves s t After); try done; [by apply NoDup_snoc|by apply H1].
  - rewrite bool_decide_true by (by apply HM). cbn [ASSERT mbind res_bind]. right. eexists. split; [reflexivity|].
    unfold goto, set_lock. cbn. rewrite Eo. apply (barrier_moves s t CallRelease); try done; [|by apply H1|by apply H2].
    intros t' Hn. rewrite HM by done. naive_solver.
Qed.

Lemma barrier_steps s s' : rtc tstep s s' -> barrier_ok s -> barrier_ok s'.
Proof.
  induction 1 as [|s1 s2 s3 [t Et] _ IH]; [done|]. intros H1. apply IH.
  destruct (barrier_step_runs t s1 H1) as [E|(s2' & E & H2)]; rewrite Et in E; [done|]. by injection E as <-.
Qed.

Lemma barrier_start : barrier_ok (MyBarrier TEST_THREAD_NUM).
Proof.
  assert (HT : forall t p, threads (MyBarrier TEST_THREAD_NUM) !! t = Some p -> p = CallAcquire).
  { intros t p E. cbn in E. by repeat (destruct t as [|t]; [by injection E as <-|]). }
  split.
  - done.
  - intros t. split; [|done]. intros (p & E & Hp). apply HT in E as ->. done.
  - done.
  - left. split; [done|]. split; [intros t p E; apply HT in E as ->; cbn; tauto|]. split; [constructor|].
    intros t. split; [by intros ?%elem_of_nil|]. intros E. by apply HT in E.
  - exists [], []. split; [done|]. split; [constructor|]. split; [constructor|].
    split; intros t; (split; [|by intros ?%elem_of_nil]); intros (p & E & Hp); by apply HT in E as ->.
Qed.

(** When nobody can go on, everybody has returned. *)
Lemma nobody_waits s : barrier_ok s -> (forall t, step t s = Ok None) -> Forall (fun p => p = Done) (threads s).
Proof.
  intros HC HB. pose proof HC as [HN HL HK HP _].
  assert (Hm : barrierMutex s = None).
  { destruct (barrierMutex s) as [t|] eqn:Em; [|done]. pose proof (proj2 (HL t) eq_refl) as (p & Et & Hin). specialize (HB t). unfold step in HB.
    rewrite Et in HB. destruct p; try done.
    - by destruct (Barrier_ok s t HC Et) as (s' & E & _); rewrite E in HB.
    - by rewrite Em, bool_decide_true in HB. }
  assert (HD : forall t p, threads s !! t = Some p -> p = InWait \/ p = Done).
  { intros t p Et. specialize (HB t). unfold step in HB. rewrite Et, ?Hm in HB. destruct p; try (by left); try (by right); try done.
    by destruct (Barrier_ok s t HC Et) as (s' & E & _); rewrite E in HB. }
  apply Forall_lookup_2. intros t p Et. destruct (HD t p Et) as [->|]; [exfalso|done].
  destruct HP as [(HP1 & HP2 & _)|(_ & HP)]; [|by specialize (HP t InWait Et)].
  rewrite (total_const _ 1) in HK; [unfold BARRIER_NUM in HP1; lia|]. apply Forall_lookup_2. intros t' p' E. by destruct (HD t' p' E) as [-> | ->].
Qed.

(** The steps that are left, at most. *)
Definition ahead (p : point) : Z :=
  match p with CallAcquire => 6 | Before => 5 | CallBarrier => 4 | InWait | Relock => 3 | After => 2 | CallRelease => 1 | Done => 0 end.

Lemma step_ahead t s s' : barrier_ok s -> step t s = Ok (Some s') -> total ahead (threads s') < total ahead (threads s).
Proof.
  intros HC E. unfold step in E. destruct (threads s !! t) as [p|] eqn:Et; [|done].
  assert (HX : forall p', ahead p' < ahead p -> threads s' = <[t := p']> (threads s) -> total ahead (threads s') < total ahead (threads s)).
  { intros p' Hl ->. rewrite (total_insert _ _ _ _ p' Et). lia. }
  destruct p; try done.
  - destruct (barrierMutex s); [done|]. injection E as <-. by apply (HX Before).
  - injection E as <-. by apply (HX CallBarrier).
  - unfold Barrier in E. case_bool_decide.
    + apply bind_Ok in E as (s1 & E1 & E). injection E as <-. apply bind_Ok in E1 as (u & _ & E1). injection E1 as <-. cbn [goto threads].
      pose proof HC as [_ _ _ HP _].
      assert (HW : forall ws, (forall w, w ∈ ws -> threads s !! w = Some InWait) ->
        total ahead (foldr (fun w l => <[w := Relock]> l) (threads s) ws) = total ahead (threads s) /\
        foldr (fun w l => <[w := Relock]> l) (threads s) ws !! t = Some CallBarrier).
      { induction ws as [|w ws IH]; intros Hw; [done|]. cbn [foldr]. destruct IH as [E1 E2]; [intros x Hx; apply Hw; by right|].
        assert (Ew : threads s !! w = Some InWait) by (apply Hw; left).
        assert (Hn : w <> t) by (intros ->; congruence). rewrite list_lookup_insert_ne by done. split; [|exact E2].
        rewrite <- E1. pose proof (wake_lookup ws (threads s) w) as EL. rewrite Ew in EL. cbn in EL.
        destruct (decide (w ∈ ws)); rewrite (total_insert _ _ _ _ Relock EL); cbn; lia. }
      destruct (HW (waiting s)) as [E1 E2].
      { intros w Hw. destruct HP as [(_ & _ & _ & HP)|(HP & _)]; [by apply HP|]. rewrite HP in Hw. by apply elem_of_nil in Hw. }
      rewrite (total_insert _ _ _ _ After E2), E1. cbn. lia.
    + apply bind_Ok in E as (s1 & E1 & E). injection E as <-. apply bind_Ok in E1 as (u & _ & E1). injection E1 as <-. by apply (HX InWait).
  - destruct (barrierMutex s); [done|]. injection E as <-. by apply (HX After).
  - injection E as <-. by apply (HX CallRelease).
  - apply bind_Ok in E as (u & _ & E). injection E as <-. by apply (HX Done).
Qed.

End BarrierProofs.
