(* ===== verification/SyncTestClaims.v ===== *)
(** * The synchronisation programs: the theorems *)

From S2P Require Import Prelude SyncTest SyncTestProofs SyncTestLocks.

(** ** Producers and consumers *)

Section producers_consumers.
Import ProducerConsumer PCProofs.

(** C30: producers and consumers.  For any numbers of threads and rounds for which the items fit
    in the array and as many are consumed as are produced, as for the numbers of
    the source, and whatever the order of the steps: no step fails, so that no
    thread writes or reads outside the array or gives back a lock that it does
    not hold; each producer's items are produced in order; what has been consumed
    is, in order, a prefix of what has been produced; no run is longer than ten
    steps per item, and when no thread can go on, everything has been produced
    and consumed, each item once. *)
Theorem producers_consumers (size producers consumers : Z) (times : role -> Z) (n : nat) (s : State) :
  (forall r, 0 <= times r) -> 0 <= producers -> 0 <= consumers -> 0 < size <= 1000000000 ->
  producers * times Producer <= size -> producers * times Producer = consumers * times Consumer ->
  nsteps (tstep times) n (MyProducerConsumer1 times size producers consumers) s ->
  (forall t, exists r, step times t s = Ok r) /\
  (forall t th, threads s !! t = Some th -> kind th = Producer -> items_of (which th) (produced s) = seqZ 0 (moved th)) /\
  (consumed s).*2 `prefix_of` (produced s).*2 /\
  Z.of_nat n <= 10 * (producers * times Producer) /\
  ((forall t, step times t s = Ok None) ->
     Z.of_nat n = 10 * (producers * times Producer) /\ Z.of_nat (length (produced s)) = producers * times Producer /\
     (consumed s).*2 = (produced s).*2).
Proof.
  intros HT HP HK HS HF HB HR.
  pose proof (pc_start size producers consumers times HT HP HK HS) as H0.
  set (ok := pc_ok size producers consumers times) in *.
  assert (HI : forall n s0, nsteps (tstep times) n s0 s -> ok s0 -> log_ok s0 ->
    ok s /\ log_ok s /\ total (steps_left times) (threads s) = total (steps_left times) (threads s0) - Z.of_nat n).
  { clear n HR. induction n as [|n IH]; intros s0 HR H1 H2; inversion HR as [|? ? s1 ? [t Et] HR']; subst; [by split_and!; [| |lia]|].
    destruct (pc_step_runs size producers consumers times HS HF t s0 H1) as [E|(s' & E & H1')]; rewrite Et in E; [done|]. injection E as <-.
    destruct (IH s1 HR' H1' (log_step size producers consumers times t s0 s1 H1 H2 Et)) as (X1 & X2 & X3). split_and!; [done|done|].
    rewrite X3, (step_left size producers consumers times t s0 s1 H1 Et). lia. }
  destruct (HI n _ HR H0 (log_start size producers consumers times)) as (H1 & H2 & H3). rewrite (start_left _ _ _ _ HT HP HK HB) in H3.
  assert (HN : Forall (fun th => 0 <= steps_left times th) (threads s)).
  { eapply Forall_impl; [apply (p_threads _ _ _ _ _ H1)|]. intros [k w p i] [[Hi1 Hi2] Hd]. unfold steps_left. cbn in *.
    destruct p; try lia; destruct (decide (i = times k)) as [E|E]; try lia; by apply Hd in E. }
  split_and!.
  - intros t. destruct (pc_step_runs size producers consumers times HS HF t s H1) as [-> |(s' & -> & _)]; by eexists.
  - exact (g_order _ H2).
  - rewrite (p_consumed _ _ _ _ _ H1). apply prefix_take.
  - pose proof (total_nonneg _ _ HN). lia.
  - intros HD. pose proof (nobody_stuck size producers consumers times HS HF HB s H1 HD) as HA.
    pose proof (all_consumed size producers consumers times HS HF HB s H1 HA) as [X1 X2]. split_and!; [|done|done].
    rewrite (total_const _ 0) in H3; [lia|]. pose proof (p_threads _ _ _ _ _ H1) as HP'.
    eapply Forall_impl; [apply Forall_and; split; [exact HA|exact HP']|]. intros [k w p i] [Hp [_ Hd]]. unfold steps_left. cbn in *. subst p.
    rewrite (proj1 Hd eq_refl). lia.
Qed.

(** Round robin, as long as somebody can go on. *)
Fixpoint round_robin (fuel : nat) (t : nat) (n : nat) (s : State) : nat * State :=
  match fuel with
  | O => (n, s)
  | S fuel' =>
      match step source_times t s with
      | Ok (Some s') => round_robin fuel' ((t + 1) mod 3) (S n) s'
      | _ => round_robin fuel' ((t + 1) mod 3) n s
      end
  end.

Lemma round_robin_steps fuel t n s0 s : nsteps (tstep source_times) n s0 s ->
  nsteps (tstep source_times) (round_robin fuel t n s).1 s0 (round_robin fuel t n s).2.
Proof.
  revert t n s. induction fuel as [|fuel IH]; intros t n s H; cbn [round_robin]; [done|].
  destruct (step source_times t s) as [[s'|]| | |] eqn:E; try by apply IH. apply IH.
  eapply nsteps_r; [exact H|]. by exists t.
Qed.

Definition source_start : State := MyProducerConsumer1 source_times MAX_PRODUCE_ARRAY_NUM PRODUCER_NUM CONSUMER_NUM.
Definition source_end : nat * State := round_robin 2000 0 0 source_start.

Lemma producers_consumers_witness :
  (consumed source_end.2).*2 `prefix_of` (produced source_end.2).*2 /\ (consumed source_end.2).*2 = seqZ 0 50 /\
  length (consumed source_end.2) = 50%nat.
Proof.
  split; [|split; [vm_compute; reflexivity|vm_compute; reflexivity]].
  destruct (producers_consumers MAX_PRODUCE_ARRAY_NUM PRODUCER_NUM CONSUMER_NUM source_times source_end.1 source_end.2) as (_ & _ & H & _).
  - intros [|]; vm_compute; discriminate.
  - vm_compute. discriminate.
  - vm_compute. discriminate.
  - split; vm_compute; [reflexivity|discriminate].
  - vm_compute. discriminate.
  - vm_compute. reflexivity.
  - apply round_robin_steps. apply nsteps_O.
  - exact H.
Defined.

End producers_consumers.

(** ** The barrier *)

Section barrier.
Import BarrierTest BarrierProofs.

(** C31: nobody passes the barrier alone.  The threads of [MyBarrier] take their steps in any
    order.  No step fails; what is printed is first one line by each thread before
    the barrier, and no line after it until all five have printed theirs; no run
    is longer than thirty steps, and when no thread can go on, all of them have
    printed both lines. *)
Theorem barrier_meets (n : nat) (s : State) : nsteps tstep n (MyBarrier TEST_THREAD_NUM) s ->
  (forall t, exists r, step t s = Ok r) /\
  (exists a b, output s = lines a b /\ NoDup a /\ NoDup b /\ (b <> [] -> a ≡ₚ seq 0 5) /\
     ((forall t, step t s = Ok None) -> a ≡ₚ seq 0 5 /\ b ≡ₚ seq 0 5)) /\
  Z.of_nat n <= 30.
Proof.
  intros HR.
  assert (HI : forall n s0, nsteps tstep n s0 s -> barrier_ok s0 -> barrier_ok s /\ Z.of_nat n + total ahead (threads s) <= total ahead (threads s0)).
  { clear n HR. induction n as [|n IH]; intros s0 HR H1; inversion HR as [|? ? s1 ? [t Et] HR']; subst; [by split; [|lia]|].
    destruct (barrier_step_runs t s0 H1) as [E|(s' & E & H1')]; rewrite Et in E; [done|]. injection E as <-.
    destruct (IH s1 HR' H1') as [X1 X2]. split; [done|]. pose proof (step_ahead t s0 s1 H1 Et). lia. }
  destruct (HI n _ HR barrier_start) as [H1 H2]. pose proof H1 as [HN _ _ HP (a & b & Eo & Na & Nb & Ha & Hb)].
  assert (Hin : forall t p, threads s !! t = Some p -> t ∈ seq 0 5).
  { intros t p E. apply elem_of_seq. apply lookup_lt_Some in E. lia. }
  assert (Hall : forall (P : point -> Prop) c, NoDup c -> (forall t, (exists p, threads s !! t = Some p /\ P p) <-> t ∈ c) ->
    Forall P (threads s) -> c ≡ₚ seq 0 5).
  { intros P c Nc Hc HF. apply NoDup_Permutation; [done|apply NoDup_seq|]. intros t. rewrite <- Hc. split.
    - intros (p & E & _). by eapply Hin.
    - intros Ht%elem_of_seq. destruct (lookup_lt_is_Some_2 (threads s) t) as [p E]; [lia|]. exists p. split; [done|].
      by apply (Forall_lookup_1 _ _ _ _ HF E). }
  split_and!.
  - intros t. destruct (barrier_step_runs t s H1) as [-> |(s' & -> & _)]; by eexists.
  - exists a, b. split; [done|]. split; [done|]. split; [done|]. split.
    + intros Hne. apply (Hall said_one a Na Ha). destruct b as [|t b]; [done|]. destruct (proj2 (Hb t) (list_elem_of_here _ _)) as (p & E & Hp).
      destruct HP as [(_ & HP & _)|(_ & HP)]; [specialize (HP t p E); by destruct p|]. apply Forall_lookup_2. intros t' p' E'.
      specialize (HP t' p' E'). by destruct p'.
    + intros HD. pose proof (nobody_waits s H1 HD) as HF.
      split; [apply (Hall said_one a Na Ha)|apply (Hall said_two b Nb Hb)]; (eapply Forall_impl; [exact HF|]); by intros p ->.
  - assert (HZ : 0 <= total ahead (threads s)) by (apply total_nonneg, Forall_forall; intros [] _; cbn; lia).
    change (total ahead (threads (MyBarrier TEST_THREAD_NUM))) with 30 in H2. lia.
Qed.

(** The threads in turn. *)
Fixpoint barrier_run (ts : list nat) (n : nat) (s : State) : nat * State :=
  match ts with
  | [] => (n, s)
  | t :: ts' => match step t s with Ok (Some s') => barrier_run ts' (S n) s' | _ => barrier_run ts' n s end
  end.

Lemma barrier_run_steps ts n s0 s : nsteps tstep n s0 s -> nsteps tstep (barrier_run ts n s).1 s0 (barrier_run ts n s).2.
Proof.
  revert n s. induction ts as [|t ts IH]; intros n s H; cbn [barrier_run]; [done|].
  destruct (step t s) as [[s'|]| | |] eqn:E; try by apply IH. apply IH. eapply nsteps_r; [exact H|]. by exists t.
Qed.

Definition barrier_end : nat * State := barrier_run (concat (replicate 40 (seq 0 5))) 0 (MyBarrier TEST_THREAD_NUM).

Lemma barrier_meets_witness : (forall t, exists r, step t barrier_end.2 = Ok r) /\
  output barrier_end.2 = lines [0; 1; 2; 3; 4]%nat [4; 0; 1; 2; 3]%nat.
Proof.
  split; [|vm_compute; reflexivity]. destruct (barrier_meets barrier_end.1 barrier_end.2) as (H & _); [|exact H].
  apply barrier_run_steps. apply nsteps_O.
Defined.

End barrier.

(** ** Readers and writers *)

Section readers_writers.
Import ReaderWriter RWProofs.

(** A schedule, as the threads that take the steps. *)
Fixpoint rw_run (ts : list nat) (s : State) : option State :=
  match ts with
  | [] => Some s
  | t :: ts' => match step t s with Ok (Some s') => rw_run ts' s' | _ => None end
  end.

Lemma rw_run_steps ts s s' : rw_run ts s = Some s' -> rtc tstep s s'.
Proof.
  revert s. induction ts as [|t ts IH]; intros s E; cbn in E; [by injection E as <-|].
  destruct (step t s) as [[s1|]| | |] eqn:E1; try done. eapply rtc_l; [by exists t|]. by apply IH.
Qed.

(** The first reader goes in, the second follows, and leaves last. *)
Definition overlap : list nat := [0; 0; 0; 0; 1; 1; 1; 0; 0; 0; 0; 1; 1; 1]%nat.

(** C29: readers and writers exclude each other, until an assertion fails.  In every state that the
    threads of [MyReaderWriter] reach, no writer writes while a reader reads, at
    most one writer writes, accesses stay inside the array, and whatever has been
    read is the first value of its position or the one that writers put there.
    The only step that can fail is the last reader's [Release] of [wLock], and it
    fails exactly when another reader has acquired it, since a lock must be
    released by the thread that holds it; this happens. *)
Theorem readers_writers :
  (forall s, rtc tstep (MyReaderWriter READER_NUM WRITER_NUM) s ->
     (forall t t' th th', threads s !! t = Some th -> threads s !! t' = Some th' -> pc th' = WWrite ->
        pc th <> RRead /\ (pc th = WWrite -> t = t')) /\
     Forall (fun r => r.2 = r.1 + 1 \/ r.2 = r.1 * 2 + 1) (reads s) /\
     forall t, (exists r, step t s = Ok r) \/
       (step t s = AssertFail /\ (exists th, threads s !! t = Some th /\ pc th = RReleaseW) /\
        exists t', t' <> t /\ (t' < 5)%nat /\ wLock s = Some t')) /\
  (exists s t, rtc tstep (MyReaderWriter READER_NUM WRITER_NUM) s /\ step t s = AssertFail).
Proof.
  assert (Hr : 0 <= READER_NUM <= 90) by (unfold READER_NUM; lia). assert (Hw : 0 <= WRITER_NUM <= 90) by (unfold WRITER_NUM; lia).
  split.
  - intros s HR. pose proof (rw_steps READER_NUM WRITER_NUM Hr Hw _ _ HR (rw_start READER_NUM WRITER_NUM Hr Hw)) as HC. pose proof HC as [].
    split_and!.
    + assert (HW : forall t th, threads s !! t = Some th -> pc th = WWrite -> (5 <= t)%nat /\ wLock s = Some t).
      { intros t th E Hp. apply (r_writers0 t). exists th. by rewrite Hp. }
      intros t t' th th' E E' Hp. destruct (HW t' th' E' Hp) as [Hl El]. split.
      * intros Hq. destruct (r_readers0 t th E) as (t2 & H2 & E2); [by rewrite Hq|]. rewrite El in E2. injection E2 as <-.
        change (Z.to_nat READER_NUM) with 5%nat in H2. lia.
      * intros Hq. destruct (HW t th E Hq) as [_ E2]. congruence.
    + exact r_reads0.
    + intros t. destruct (rw_step_runs READER_NUM WRITER_NUM Hr Hw t s HC) as [-> |[(s' & -> & _)|(E & Hp & Ht)]]; [left; by eexists|left; by eexists|].
      right. split; [done|]. by split.
  - destruct (rw_run overlap (MyReaderWriter READER_NUM WRITER_NUM)) as [s|] eqn:E; [|by vm_compute in E].
    exists s, 1%nat. split; [by apply (rw_run_steps overlap)|]. vm_compute in E. injection E as <-. vm_compute. reflexivity.
Qed.

End readers_writers.
