(* ===== verification/Debugger.v ===== *)
(** * machine/machine.cc, lib/debug.cc: the debugger of user programs

    [Machine::Run] calls [Debugger] after an instruction when the machine is being
    single-stepped and the time to run until has come.  The commands are read from
    [cin], whose state matters: [cin.get(buf, n)] that stores nothing sets the
    failbit, and a stream that is not good gives nothing any more. *)

From S2P Require Import Prelude Bytes Text.

(** ** [cin] *)

(** The characters still to come, and whether eofbit and failbit are clear. *)
Record Stream : Type := mkStream { chars : list Z; good : bool }.

Definition newline : Z := 10.

(** The characters up to a newline or the end, at most [n]. *)
Fixpoint take_line (n : nat) (l : list Z) : list Z * list Z :=
  match n, l with
  | S n', c :: l' =>
      if bool_decide (c = newline) then ([], l) else let '(line, rest) := take_line n' l' in (c :: line, rest)
  | _, _ => ([], l)
  end.

(** [cin.get(buf, n)]: what is stored before the zero.  The stream is good afterwards
    unless nothing was stored or the end of the input was met. *)
Definition get_line (n : nat) (s : Stream) : list Z * Stream :=
  if good s then
    let '(line, rest) := take_line (n - 1) (chars s) in
    let eof := bool_decide (length line < n - 1)%nat && bool_decide (rest = []) in
    (line, mkStream rest (negb (bool_decide (line = []) || eof)))
  else ([], s).

(** [cin.get()], its result dropped. *)
Definition get_char (s : Stream) : Stream :=
  if good s then match chars s with _ :: l => mkStream l true | [] => mkStream [] false end else s.

(** [sscanf(buf, "%d", &num)]: the number, if there is one. *)
Definition starts_digit (bs : list Z) : bool :=
  match bs with c :: _ => bool_decide (48 <= c <= 57) | [] => false end.
Fixpoint is_number (bs : list Z) : bool :=
  match bs with
  | c :: bs' =>
      if bool_decide (c = 32) || bool_decide (9 <= c <= 13) then is_number bs'
      else if bool_decide (c = 45) || bool_decide (c = 43) then starts_digit bs' else starts_digit bs
  | [] => false
  end.
Definition sscanf_d (buf : list Z) : res (option Z) :=
  if is_number buf then x ← atoi buf; Ok (Some x) else Ok None.

(** ** [Machine::Debugger] *)

(** [Dump]: what [DumpState] prints. *)
Inductive output : Type := Dump | Prompt (time : Z) | Help | Unknown (line : list Z).

Record Debug : Type := mkDebug { singleStep : bool; runUntilTime : Z; cin : Stream; out : list output }.

Definition print (o : output) (s : Debug) : Debug := mkDebug (singleStep s) (runUntilTime s) (cin s) (out s ++ [o]).
Definition set_cin (c : Stream) (s : Debug) : Debug := mkDebug (singleStep s) (runUntilTime s) c (out s).
Definition set_runUntil (t : Z) (s : Debug) : Debug := mkDebug (singleStep s) t (cin s) (out s).
Definition set_singleStep (b : bool) (s : Debug) : Debug := mkDebug b (runUntilTime s) (cin s) (out s).

Definition char_c : Z := 99.
Definition char_help : Z := 63.
Definition bufsize : nat := 80.

(** What a line does, and whether that is all. *)
Definition command (line : list Z) (s : Debug) : res (Debug * bool) :=
  buf ← c_str (line ++ [0]);
  num ← sscanf_d (buf ++ [0]);
  Ok (match num with
      | Some n => (set_runUntil n s, true)
      | None =>
          let s := set_runUntil 0 s in
          match buf with
          | [] => (s, true)
          | c :: _ =>
              if bool_decide (c = char_c) then (set_singleStep false s, true)
              else if bool_decide (c = char_help) then (print Help s, false)
              else (print (Unknown buf) s, false)
          end
      end).

(** The loop; every turn that is not the last takes a character. *)
Fixpoint debugger_loop (fuel : nat) (now : Z) (s : Debug) : res Debug :=
  match fuel with
  | O => Diverge
  | S fuel' =>
      let s := print (Prompt now) s in
      let '(line, c) := get_line bufsize (cin s) in
      '(s, done) ← command line (set_cin c s);
      let s := set_cin (get_char (cin s)) s in
      if (done : bool) then Ok s else debugger_loop fuel' now s
  end.

(** [now]: [totalTicks]. *)
Definition Debugger (now : Z) (s : Debug) : res Debug :=
  debugger_loop (S (length (chars (cin s)))) now (print Dump s).

(** The call in [Machine::Run], after an instruction that ends at time [now]. *)
Definition after_instruction (now : Z) (s : Debug) : res Debug :=
  if singleStep s && bool_decide (runUntilTime s <= now) then Debugger now s else Ok s.

(** Instructions that end at the given times. *)
Definition Run (times : list Z) (s : Debug) : res Debug := foldM (fun s now => after_instruction now s) s times.

(** [Machine::Machine(debug)]; it leaves [runUntilTime] as the memory was. *)
Definition newDebug (debug : bool) (junk : Z) (input : list Z) : Debug := mkDebug debug junk (mkStream input true) [].

(** ** [Debug::IsEnabled] *)

(** [strchr(s, c) != 0] *)
Definition strchr (s : list Z) (c : Z) : bool := bool_decide (c ∈ s) || bool_decide (c = 0).
Definition dbgAll : Z := 43.
Definition IsEnabled (enableFlags : option (list Z)) (flag : Z) : bool :=
  match enableFlags with
  | Some flags => strchr flags flag || strchr flags dbgAll
  | None => false
  end.
