(* ===== verification/DebuggerClaims.v ===== *)
(** * The debugger of user programs: what its commands do, the theorem *)

From S2P Require Import Prelude Bytes Text Debugger.

(** ** Lines *)

(** A line that fits into the buffer, with its newline behind it. *)
Record line_ok (l : list Z) : Prop := mkLineOk {
  l_newline : newline ∉ l; l_zero : 0 ∉ l; l_length : (length l < bufsize)%nat }.
Definition with_newline (l : list Z) : list Z := l ++ [newline].

Lemma take_line_ok n l rest : newline ∉ l -> (length l <= n)%nat -> take_line n (l ++ newline :: rest) = (l, newline :: rest).
Proof.
  revert n. induction l as [|c l IH]; intros n Hn Hl; cbn [app].
  - destruct n; cbn [take_line]; [done|]. by rewrite bool_decide_true.
  - destruct n as [|n]; [cbn in Hl; lia|]. cbn [take_line]. apply not_elem_of_cons in Hn as [H1 H2].
    rewrite bool_decide_false by congruence. rewrite IH; [done|done|cbn in Hl; lia].
Qed.

Lemma get_line_ok l rest : line_ok l -> l <> [] ->
  get_line bufsize (mkStream (l ++ newline :: rest) true) = (l, mkStream (newline :: rest) true).
Proof.
  intros [H1 _ H3] Hl. unfold get_line, bufsize in *. cbn [good chars]. rewrite take_line_ok by (done || lia).
  rewrite (bool_decide_false (l = [])) by done. by rewrite (bool_decide_false (newline :: rest = [])), andb_false_r.
Qed.

(** An empty line is not read, and nothing is any more. *)
Lemma get_line_empty rest :
  get_line bufsize (mkStream (newline :: rest) true) = ([], mkStream (newline :: rest) false).
Proof. done. Qed.

Lemma take_line_length n l line rest : take_line n l = (line, rest) -> length l = (length line + length rest)%nat.
Proof.
  revert l line rest. induction n as [|n IH]; intros [|c l] line rest; cbn [take_line]; try (intros [= <- <-]; done).
  case_bool_decide; [by intros [= <- <-]|]. destruct (take_line n l) as [line' rest'] eqn:E. intros [= <- <-]. cbn. by rewrite (IH l line' rest').
Qed.

(** ** Commands *)

Definition answer (l : list Z) : output := if bool_decide (head l = Some char_help) then Help else Unknown l.

(** A line that is no command. *)
Record chatter (l : list Z) : Prop := mkChatter {
  k_line : line_ok l; k_some : l <> []; k_number : is_number (l ++ [0]) = false; k_c : head l <> Some char_c }.

Lemma command_chatter l s : chatter l -> command l s = Ok (print (answer l) (set_runUntil 0 s), false).
Proof.
  intros [[_ H0 _] Hs Hn Hc]. unfold command, sscanf_d. rewrite c_str_ok by done. cbn [mbind res_bind]. rewrite Hn. cbn [mbind res_bind].
  destruct l as [|c l]; [done|]. cbn in Hc. rewrite bool_decide_false by congruence. unfold answer. cbn [head].
  destruct (decide (c = char_help)) as [->|Hh]; [by rewrite !bool_decide_true|]. by rewrite !bool_decide_false by congruence.
Qed.

Lemma c_not_number l : is_number (char_c :: l) = false.
Proof. done. Qed.

Lemma command_c l s : 0 ∉ l -> command (char_c :: l) s = Ok (set_singleStep false (set_runUntil 0 s), true).
Proof.
  intros H0. unfold command, sscanf_d. rewrite c_str_ok by (by apply not_elem_of_cons). cbn [mbind res_bind app]. by rewrite c_not_number.
Qed.

Lemma command_empty s : command [] s = Ok (set_runUntil 0 s, true).
Proof. done. Qed.

Lemma decimal_line n : is_i32 n -> line_ok (decimal n) /\ decimal n <> [] /\ is_number (decimal n ++ [0]) = true.
Proof.
  intros Hn. assert (HD : forall x, Forall is_digit (digits 10 x)) by apply digits_are.
  assert (HN : forall x c, ~ is_digit c -> c ∉ digits 10 x).
  { intros x c Hc Hin. pose proof (HD x) as HF. rewrite Forall_forall in HF. by apply Hc, HF. }
  assert (HL : forall x, 0 <= x < 10000000000 -> (length (digits 10 x) <= 10)%nat) by (intros; by apply length_digits).
  unfold is_i32, int_min, int_max in Hn. unfold is_digit in HN. unfold decimal. case_bool_decide.
  - split; [|split; [done|]].
    + split; [apply not_elem_of_cons; split; [done|]; apply HN; cbv; intuition congruence..|].
      cbn [length]. specialize (HL (- n) ltac:(lia)). unfold bufsize. lia.
    + destruct (digits_nonempty 9 (- n)) as (d & ds & -> & Hd). unfold is_digit in Hd. change (bool_decide (48 <= d <= 57) = true). by apply bool_decide_true.
  - split; [|split].
    + split; [apply HN; unfold newline; lia|apply HN; lia|]. specialize (HL n ltac:(lia)). unfold bufsize. lia.
    + destruct (digits_nonempty 9 n) as (d & ds & -> & Hd). done.
    + destruct (digits_nonempty 9 n) as (d & ds & -> & Hd). unfold is_digit in Hd. cbn [app is_number starts_digit].
      rewrite !bool_decide_false by lia. by apply bool_decide_true.
Qed.

Lemma command_number n s : is_i32 n -> command (decimal n) s = Ok (set_runUntil n s, true).
Proof.
  intros Hn. destruct (decimal_line n Hn) as ([_ H0 _] & _ & HN). unfold command, sscanf_d.
  rewrite c_str_ok by done. cbn [mbind res_bind]. rewrite HN, atoi_decimal by done. done.
Qed.

(** ** Turns of the loop *)

Lemma turn_chatter fuel now b t o l rest : chatter l ->
  debugger_loop (S fuel) now (mkDebug b t (mkStream (with_newline l ++ rest) true) o) =
  debugger_loop fuel now (mkDebug b 0 (mkStream rest true) (o ++ [Prompt now; answer l])).
Proof.
  intros Hl. cbn [debugger_loop print cin singleStep runUntilTime out]. unfold with_newline. rewrite <- app_assoc. cbn [app].
  rewrite get_line_ok by apply Hl. rewrite command_chatter by done. cbn [mbind res_bind].
  unfold print, set_runUntil, set_cin. cbn [cin singleStep runUntilTime out]. rewrite <- app_assoc. reflexivity.
Qed.

Definition chatter_output (now : Z) (ls : list (list Z)) : list output := concat ((fun l => [Prompt now; answer l]) <$> ls).

Lemma turns_chatter ls fuel now b t o rest : Forall chatter ls -> (length ls < fuel)%nat ->
  exists fuel' t', debugger_loop fuel now (mkDebug b t (mkStream (concat (with_newline <$> ls) ++ rest) true) o) =
    debugger_loop (S fuel') now (mkDebug b t' (mkStream rest true) (o ++ chatter_output now ls)).
Proof.
  intros HF. revert fuel t o. induction HF as [|l ls Hl _ IH]; intros fuel t o Hf; (destruct fuel as [|fuel]; [cbn in Hf; lia|]).
  - exists fuel, t. cbn. by rewrite app_nil_r.
  - cbn [fmap list_fmap concat]. rewrite <- app_assoc, turn_chatter by done.
    destruct (IH fuel 0 (o ++ [Prompt now; answer l])) as (f & t' & ->); [cbn in Hf; lia|].
    exists f, t'. by rewrite <- app_assoc.
Qed.

(** The last line. *)
Lemma turn_last fuel now b t o l rest s' : line_ok l -> l <> [] ->
  command l (mkDebug b t (mkStream (newline :: rest) true) (o ++ [Prompt now])) = Ok (s', true) -> cin s' = mkStream (newline :: rest) true ->
  debugger_loop (S fuel) now (mkDebug b t (mkStream (with_newline l ++ rest) true) o) = Ok (set_cin (mkStream rest true) s').
Proof.
  intros Hl Hs HC Hc. cbn [debugger_loop print cin singleStep runUntilTime out]. unfold with_newline. rewrite <- app_assoc. cbn [app].
  rewrite get_line_ok by done. cbv beta iota delta [print set_cin singleStep runUntilTime out].
  change (mkDebug b t _ _) with (mkDebug b t (mkStream (newline :: rest) true) (o ++ [Prompt now])). rewrite HC. cbn [mbind res_bind]. by rewrite Hc.
Qed.

Lemma turn_empty fuel now b t o rest g : (g = false \/ head rest = Some newline) ->
  debugger_loop (S fuel) now (mkDebug b t (mkStream rest g) o) = Ok (mkDebug b 0 (mkStream rest false) (o ++ [Prompt now])).
Proof.
  intros H. cbn [debugger_loop print cin singleStep runUntilTime out].
  assert (E : get_line bufsize (mkStream rest g) = ([], mkStream rest false)).
  { destruct g; [|done]. destruct H as [H|H]; [done|]. destruct rest as [|c rest]; [done|]. injection H as ->. apply get_line_empty. }
  rewrite E. reflexivity.
Qed.

(** ** [Debugger] comes back, whatever is typed *)

Lemma c_str_returns l : c_str l <> Diverge.
Proof. induction l as [|c l IH]; cbn; [done|]. case_bool_decide; [done|]. by destruct (c_str l). Qed.

Lemma atoi_digits_returns l a : atoi_digits a l <> Diverge.
Proof. revert a. induction l as [|c l IH]; intros a; cbn; [done|]. by case_bool_decide. Qed.

Lemma atoi_returns l : atoi l <> Diverge.
Proof.
  assert (HS : forall l, atoi_sign l <> Diverge).
  { intros l'. unfold atoi_sign. repeat (case_match; try apply atoi_digits_returns).
    match goal with |- context [atoi_digits 0 ?x] => pose proof (atoi_digits_returns x 0); by destruct (atoi_digits 0 x) end. }
  assert (HT : atoi_text l <> Diverge) by (induction l; cbn [atoi_text]; [done|destruct (_ || _); [done|apply HS]]).
  unfold atoi. destruct (atoi_text l); cbn; try done. by case_bool_decide.
Qed.

(** A command returns; when it is not the last, the line is not empty. *)
Lemma command_returns line s : command line s <> Diverge /\
  forall s' d, command line s = Ok (s', d) -> cin s' = cin s /\ (d = false -> line <> []).
Proof.
  unfold command, sscanf_d. destruct (c_str (line ++ [0])) as [buf| | |] eqn:EB; try by pose proof (c_str_returns (line ++ [0])).
  cbn [mbind res_bind]. destruct (is_number (buf ++ [0])); cbn [mbind res_bind].
  - pose proof (atoi_returns (buf ++ [0])). destruct (atoi (buf ++ [0])); cbn; try done. split; [done|]. by intros s' d [= <- <-].
  - split; [done|]. intros s' d. destruct buf as [|x buf]; [by intros [= <- <-]|].
    assert (Hl : line <> []) by (intros ->; by injection EB). repeat case_bool_decide; by intros [= <- <-].
Qed.

Lemma loop_returns fuel now s : (length (chars (cin s)) < fuel)%nat -> debugger_loop fuel now s <> Diverge.
Proof.
  revert s. induction fuel as [|fuel IH]; intros s Hf; [lia|]. cbn [debugger_loop print cin].
  destruct (get_line bufsize (cin s)) as [line c] eqn:EG.
  destruct (command_returns line (set_cin c (print (Prompt now) s))) as [H1 H2].
  destruct (command line _) as [[s' d]| | |]; cbn [mbind res_bind]; try done.
  destruct (H2 s' d eq_refl) as [Ec Hd]. destruct d; [done|]. apply IH. cbn [cin set_cin]. rewrite Ec. cbn [cin set_cin].
  specialize (Hd eq_refl). unfold get_line in EG. destruct (good (cin s)) eqn:Eg; [|by injection EG as <- <-].
  destruct (take_line _ _) as [ln rs] eqn:ET. injection EG as <- <-. apply take_line_length in ET.
  destruct ln; [done|]. cbn in ET. unfold get_char. cbn [good chars]. destruct (negb _); [destruct rs; cbn in *; lia|cbn; lia].
Qed.

(** ** Single-stepping *)

Lemma Run_cons now later s : Run (now :: later) s = (s' ← after_instruction now s; Run later s').
Proof. done. Qed.

Lemma Run_app ts ts' s : Run (ts ++ ts') s = (s' ← Run ts s; Run ts' s').
Proof.
  revert s. induction ts as [|t ts IH]; intros s; [done|]. cbn [app]. rewrite !Run_cons.
  destruct (after_instruction t s); cbn [mbind res_bind]; [apply IH|done..].
Qed.

(** Nothing happens before the time to run until, and without single-stepping. *)
Lemma Run_quiet ts s : (singleStep s = true -> Forall (fun t => t < runUntilTime s) ts) -> Run ts s = Ok s.
Proof.
  induction ts as [|t ts IH]; intros H; [done|]. rewrite Run_cons. unfold after_instruction.
  destruct (singleStep s); cbn [andb].
  - specialize (H eq_refl). apply Forall_cons in H as [Ht H]. rewrite bool_decide_false by lia. cbn [mbind res_bind]. by apply IH.
  - cbn [mbind res_bind]. apply IH. done.
Qed.

(** On a stream that is not good every instruction is followed by a prompt. *)
Lemma Run_deaf ts rest o : Forall (fun t => 0 <= t) ts ->
  Run ts (mkDebug true 0 (mkStream rest false) o) =
  Ok (mkDebug true 0 (mkStream rest false) (o ++ concat ((fun t => [Dump; Prompt t]) <$> ts))).
Proof.
  intros H. revert o. induction H as [|t ts Ht _ IH]; intros o; [by rewrite app_nil_r|].
  rewrite Run_cons. unfold after_instruction. cbn [singleStep runUntilTime andb]. rewrite bool_decide_true by done.
  unfold Debugger. cbn [cin chars]. unfold print at 1. cbn [singleStep runUntilTime cin out]. rewrite turn_empty by (by left).
  cbn [mbind res_bind]. rewrite IH. cbn [fmap list_fmap concat]. by rewrite <- !app_assoc.
Qed.

(** The state before a dialogue that begins with lines that are no commands. *)
Definition dialogue (t : Z) (o : list output) (ls : list (list Z)) (rest : list Z) : Debug :=
  mkDebug true t (mkStream (concat (with_newline <$> ls) ++ rest) true) o.
Definition spoken (now : Z) (ls : list (list Z)) : list output := Dump :: chatter_output now ls ++ [Prompt now].

Lemma Debugger_dialogue now t o ls rest : Forall chatter ls -> exists fuel t',
  Debugger now (dialogue t o ls rest) =
  debugger_loop (S fuel) now (mkDebug true t' (mkStream rest true) (o ++ Dump :: chatter_output now ls)).
Proof.
  intros HF. unfold Debugger, dialogue. cbn [cin chars]. unfold print. cbn [singleStep runUntilTime cin out].
  destruct (turns_chatter ls (S (length (concat (with_newline <$> ls) ++ rest))) now true t (o ++ [Dump]) rest HF) as (f & t' & E).
  - rewrite length_app. enough (length ls <= length (concat (with_newline <$> ls)))%nat by lia.
    clear. induction ls as [|l ls IH]; cbn; [lia|]. unfold with_newline at 1. rewrite !length_app. cbn. lia.
  - exists f, t'. rewrite E. by rewrite <- app_assoc.
Qed.

Lemma Run_first now later t o ls rest s : t <= now -> Debugger now (dialogue t o ls rest) = Ok s ->
  Run (now :: later) (dialogue t o ls rest) = Run later s.
Proof.
  intros Ht E. rewrite Run_cons. unfold after_instruction. change (singleStep (dialogue t o ls rest)) with true.
  change (runUntilTime (dialogue t o ls rest)) with t. by rewrite bool_decide_true, E.
Qed.

(** C39: the debugger of user programs does what its help says, but for one command.
    After any lines that are no commands, a number lets the program run, without a
    prompt, until an instruction ends at that time or later; [c] lets it run for
    good.  The empty line, which is to execute one instruction, stops the reading
    for ever: every later instruction is followed by a prompt to which nothing is
    read, so that neither a number nor [c] can be given any more.  Whatever is
    typed, the debugger comes back. *)
Theorem debugger_commands (now t : Z) (later : list Z) (o : list output) (ls : list (list Z)) (rest : list Z) :
  Forall chatter ls -> t <= now -> 0 <= now -> Forall (fun u => 0 <= u) later ->
  (forall n, is_i32 n -> Forall (fun u => u < n) later ->
     let s := mkDebug true n (mkStream rest true) (o ++ spoken now ls) in
     Run (now :: later) (dialogue t o ls (with_newline (decimal n) ++ rest)) = Ok s /\
     forall next, n <= next ->
       Run (now :: later ++ [next]) (dialogue t o ls (with_newline (decimal n) ++ rest)) = Debugger next s) /\
  (forall l, line_ok (char_c :: l) ->
     Run (now :: later) (dialogue t o ls (with_newline (char_c :: l) ++ rest)) =
     Ok (mkDebug false 0 (mkStream rest true) (o ++ spoken now ls))) /\
  Run (now :: later) (dialogue t o ls (with_newline [] ++ rest)) =
    Ok (mkDebug true 0 (mkStream (newline :: rest) false)
          (o ++ spoken now ls ++ concat ((fun u => [Dump; Prompt u]) <$> later))) /\
  (forall s, Debugger now s <> Diverge).
Proof.
  intros HF Ht H0 HL. split_and!.
  - intros n Hn Hlt s.
    destruct (Debugger_dialogue now t o ls (with_newline (decimal n) ++ rest) HF) as (f & t' & E).
    destruct (decimal_line n Hn) as (HD & Hs & _). rewrite (turn_last _ _ _ _ _ _ _ _ HD Hs (command_number _ _ Hn) eq_refl) in E.
    assert (ES : Debugger now (dialogue t o ls (with_newline (decimal n) ++ rest)) = Ok s).
    { rewrite E. unfold s, spoken. cbn. by rewrite <- !app_assoc. }
    assert (ER : Run (now :: later) (dialogue t o ls (with_newline (decimal n) ++ rest)) = Ok s).
    { rewrite (Run_first _ _ _ _ _ _ s) by done. by apply Run_quiet. }
    split; [exact ER|]. intros next Hx. rewrite (Run_app (now :: later) [next]), ER. cbn [mbind res_bind].
    rewrite Run_cons. unfold after_instruction, s. cbn [singleStep runUntilTime andb]. rewrite bool_decide_true by done.
    by destruct (Debugger next _).
  - intros l Hl. destruct (Debugger_dialogue now t o ls (with_newline (char_c :: l) ++ rest) HF) as (f & t' & E).
    rewrite (turn_last f now true t' (o ++ Dump :: chatter_output now ls) (char_c :: l) rest _ Hl ltac:(done)
      (command_c l _ ltac:(destruct Hl as [_ H _]; apply not_elem_of_cons in H as [_ H]; exact H)) eq_refl) in E.
    rewrite (Run_first _ _ _ _ _ _ _ Ht E), Run_quiet by done. unfold spoken. cbn. by rewrite <- !app_assoc.
  - destruct (Debugger_dialogue now t o ls (with_newline [] ++ rest) HF) as (f & t' & E).
    rewrite turn_empty in E by (by right). rewrite (Run_first _ _ _ _ _ _ _ Ht E), Run_deaf by done.
    unfold spoken. cbn [app]. by rewrite <- !app_assoc.
  - intros s. apply loop_returns. cbn. lia.
Qed.

(** "?", "go" and then 25, at time 7: the next prompt is the one at time 31. *)
Lemma debugger_commands_witness :
  Run [7; 8; 24; 31] (mkDebug true 0 (mkStream [63; 10; 103; 111; 10; 50; 53; 10; 99; 10] true) []) =
  Ok (mkDebug false 0 (mkStream [] true) [Dump; Prompt 7; Help; Prompt 7; Unknown [103; 111]; Prompt 7; Dump; Prompt 31]).
Proof.
  destruct (debugger_commands 7 0 [8; 24] [] [[63]; [103; 111]] [99; 10]) as (H & _).
  - repeat constructor; try (apply (bool_decide_unpack _); vm_compute; exact I); cbn; try lia; done.
  - lia.
  - lia.
  - repeat constructor; lia.
  - destruct (H 25) as [_ H1]; [unfold is_i32, int_min, int_max; lia|repeat constructor; lia|].
    exact (H1 31 ltac:(lia)).
Defined.
