(* ===== verification/CommandLine.v ===== *)
(** * The command line: [main] (threads/main.cc) and [Kernel::Kernel] (threads/kernel.cc)

    Both go through the same arguments, each looking for its own options and
    stepping over the rest; [main] then runs the tests and the actions that were
    asked for.  The options of the file system are compiled in without
    [FILESYS_STUB]. *)

From Stdlib Require Strings.Ascii Strings.String.
From S2P Require Import Prelude Bytes Text.
Import Strings.String.StringSyntax.

(** An argument, a C string: its bytes, none of them zero, without the zero behind it. *)
Definition arg : Type := list Z.

Definition str (s : String.string) : arg := (fun c => Z.of_N (Ascii.N_of_ascii c)) <$> String.list_ascii_of_string s.
Arguments str s%_string_scope.

(** [strcmp(a, s) == 0] *)
Definition streq (a : arg) (s : String.string) : bool := bool_decide (a = str s).
Arguments streq a s%_string_scope.

(** [atoi(a)] *)
Definition number (a : arg) : res Z := atoi (a ++ [0]).

(** What is printed while the options are read. *)
Inductive message : Type := Copyright | Interactive | Usage.

(** ** [main] *)

(** The locals of [main] and the globals it sets. *)
Record MainOptions : Type := mkMain {
  debugArg : arg; userProgName : option arg; threadTestFlag : bool; consoleTestFlag : bool;
  networkTestFlag : bool; syncTestFlag : Z; copyUnixFileName : option arg; copyNachosFileName : option arg;
  printFileName : option arg; removeFileName : option arg; dirListFlag : bool; dumpFlag : bool; typeno : Z;
  debugThreadStatusChanging : bool; messages : list message }.

Definition set_debugArg (x : arg) (o : MainOptions) : MainOptions :=
  mkMain x (userProgName o) (threadTestFlag o) (consoleTestFlag o) (networkTestFlag o) (syncTestFlag o)
    (copyUnixFileName o) (copyNachosFileName o) (printFileName o) (removeFileName o) (dirListFlag o)
    (dumpFlag o) (typeno o) (debugThreadStatusChanging o) (messages o).
Definition set_userProgName (x : option arg) (o : MainOptions) : MainOptions :=
  mkMain (debugArg o) x (threadTestFlag o) (consoleTestFlag o) (networkTestFlag o) (syncTestFlag o)
    (copyUnixFileName o) (copyNachosFileName o) (printFileName o) (removeFileName o) (dirListFlag o)
    (dumpFlag o) (typeno o) (debugThreadStatusChanging o) (messages o).
Definition set_threadTestFlag (x : bool) (o : MainOptions) : MainOptions :=
  mkMain (debugArg o) (userProgName o) x (consoleTestFlag o) (networkTestFlag o) (syncTestFlag o)
    (copyUnixFileName o) (copyNachosFileName o) (printFileName o) (removeFileName o) (dirListFlag o)
    (dumpFlag o) (typeno o) (debugThreadStatusChanging o) (messages o).
Definition set_consoleTestFlag (x : bool) (o : MainOptions) : MainOptions :=
  mkMain (debugArg o) (userProgName o) (threadTestFlag o) x (networkTestFlag o) (syncTestFlag o)
    (copyUnixFileName o) (copyNachosFileName o) (printFileName o) (removeFileName o) (dirListFlag o)
    (dumpFlag o) (typeno o) (debugThreadStatusChanging o) (messages o).
Definition set_networkTestFlag (x : bool) (o : MainOptions) : MainOptions :=
  mkMain (debugArg o) (userProgName o) (threadTestFlag o) (consoleTestFlag o) x (syncTestFlag o)
    (copyUnixFileName o) (copyNachosFileName o) (printFileName o) (removeFileName o) (dirListFlag o)
    (dumpFlag o) (typeno o) (debugThreadStatusChanging o) (messages o).
Definition set_syncTestFlag (x : Z) (o : MainOptions) : MainOptions :=
  mkMain (debugArg o) (userProgName o) (threadTestFlag o) (consoleTestFlag o) (networkTestFlag o) x
    (copyUnixFileName o) (copyNachosFileName o) (printFileName o) (removeFileName o) (dirListFlag o)
    (dumpFlag o) (typeno o) (debugThreadStatusChanging o) (messages o).
Definition set_printFileName (x : option arg) (o : MainOptions) : MainOptions :=
  mkMain (debugArg o) (userProgName o) (threadTestFlag o) (consoleTestFlag o) (networkTestFlag o)
    (syncTestFlag o) (copyUnixFileName o) (copyNachosFileName o) x (removeFileName o) (dirListFlag o)
    (dumpFlag o) (typeno o) (debugThreadStatusChanging o) (messages o).
Definition set_removeFileName (x : option arg) (o : MainOptions) : MainOptions :=
  mkMain (debugArg o) (userProgName o) (threadTestFlag o) (consoleTestFlag o) (networkTestFlag o)
    (syncTestFlag o) (copyUnixFileName o) (copyNachosFileName o) (printFileName o) x (dirListFlag o)
    (dumpFlag o) (typeno o) (debugThreadStatusChanging o) (messages o).
Definition set_dirListFlag (x : bool) (o : MainOptions) : MainOptions :=
  mkMain (debugArg o) (userProgName o) (threadTestFlag o) (consoleTestFlag o) (networkTestFlag o)
    (syncTestFlag o) (copyUnixFileName o) (copyNachosFileName o) (printFileName o) (removeFileName o) x
    (dumpFlag o) (typeno o) (debugThreadStatusChanging o) (messages o).
Definition set_dumpFlag (x : bool) (o : MainOptions) : MainOptions :=
  mkMain (debugArg o) (userProgName o) (threadTestFlag o) (consoleTestFlag o) (networkTestFlag o)
    (syncTestFlag o) (copyUnixFileName o) (copyNachosFileName o) (printFileName o) (removeFileName o)
    (dirListFlag o) x (typeno o) (debugThreadStatusChanging o) (messages o).
Definition set_typeno (x : Z) (o : MainOptions) : MainOptions :=
  mkMain (debugArg o) (userProgName o) (threadTestFlag o) (consoleTestFlag o) (networkTestFlag o)
    (syncTestFlag o) (copyUnixFileName o) (copyNachosFileName o) (printFileName o) (removeFileName o)
    (dirListFlag o) (dumpFlag o) x (debugThreadStatusChanging o) (messages o).
Definition set_debugThreadStatusChanging (x : bool) (o : MainOptions) : MainOptions :=
  mkMain (debugArg o) (userProgName o) (threadTestFlag o) (consoleTestFlag o) (networkTestFlag o)
    (syncTestFlag o) (copyUnixFileName o) (copyNachosFileName o) (printFileName o) (removeFileName o)
    (dirListFlag o) (dumpFlag o) (typeno o) x (messages o).
Definition set_messages (x : list message) (o : MainOptions) : MainOptions :=
  mkMain (debugArg o) (userProgName o) (threadTestFlag o) (consoleTestFlag o) (networkTestFlag o)
    (syncTestFlag o) (copyUnixFileName o) (copyNachosFileName o) (printFileName o) (removeFileName o)
    (dirListFlag o) (dumpFlag o) (typeno o) (debugThreadStatusChanging o) x.
Definition set_copy (u n : arg) (o : MainOptions) : MainOptions :=
  mkMain (debugArg o) (userProgName o) (threadTestFlag o) (consoleTestFlag o) (networkTestFlag o)
    (syncTestFlag o) (Some u) (Some n) (printFileName o) (removeFileName o) (dirListFlag o) (dumpFlag o)
    (typeno o) (debugThreadStatusChanging o) (messages o).
Definition say (x : message) (o : MainOptions) : MainOptions := set_messages (messages o ++ [x]) o.

Definition main_start : MainOptions :=
  mkMain [] None false false false (-1) None None None None false false 2 false [].

(** The loop of [main] over [argv[i]], ..., [argv[argc - 1]]. *)
Fixpoint main_loop (stub : bool) (args : list arg) (o : MainOptions) : res MainOptions :=
  match args with
  | [] => Ok o
  | a :: rest =>
      if streq a "-d" then
        match rest with [] => AssertFail | v :: rest => main_loop stub rest (set_debugArg v o) end
      else if streq a "-z" then main_loop stub rest (say Copyright o)
      else if streq a "-x" then
        match rest with
        | [] => AssertFail
        | v :: rest =>
            let o := set_userProgName (Some v) o in
            match rest with
            | dt :: rest' =>
                if streq dt "-dt" then main_loop stub rest' (set_debugThreadStatusChanging true o)
                else main_loop stub rest o
            | [] => Ok o
            end
        end
      else if streq a "-K" then
        match rest with
        | [] => AssertFail
        | v :: rest => x ← number v; main_loop stub rest (set_typeno x (set_threadTestFlag true o))
        end
      else if streq a "-C" then main_loop stub rest (set_consoleTestFlag true (say Interactive o))
      else if streq a "-N" then main_loop stub rest (set_networkTestFlag true o)
      else if negb stub && streq a "-cp" then
        match rest with u :: n :: rest => main_loop stub rest (set_copy u n o) | _ => AssertFail end
      else if negb stub && streq a "-p" then
        match rest with [] => AssertFail | v :: rest => main_loop stub rest (set_printFileName (Some v) o) end
      else if negb stub && streq a "-r" then
        match rest with [] => AssertFail | v :: rest => main_loop stub rest (set_removeFileName (Some v) o) end
      else if negb stub && streq a "-l" then main_loop stub rest (set_dirListFlag true o)
      else if negb stub && streq a "-D" then main_loop stub rest (set_dumpFlag true o)
      else if streq a "-u" then main_loop stub rest (say Usage o)
      else if streq a "-st" then
        match rest with
        | [] => AssertFail
        | v :: rest => x ← number v; main_loop stub rest (set_syncTestFlag x o)
        end
      else main_loop stub rest o
  end.

(** What [main] does after the kernel has been built: calls of the tests, actions
    on the file system, and the three threads that run the program. *)
Inductive action : Type :=
| ThreadSelfTest | ConsoleTest | NetworkTest | SyncTest (type : Z)
| RemoveFile (name : arg) | CopyFile (from to : arg) | Dump | ListFiles | PrintFile (name : arg)
| ForkUserThread (thread program : arg) | Halt.

(** [if (flag) action] *)
Definition on_flag (b : bool) (a : action) : list action := if b then [a] else [].
Definition on_name {A} (x : option A) (f : A -> action) : list action := match x with Some v => [f v] | None => [] end.

Definition main_actions (stub : bool) (o : MainOptions) : list action :=
  on_flag (threadTestFlag o) ThreadSelfTest ++ on_flag (consoleTestFlag o) ConsoleTest ++
  on_flag (networkTestFlag o) NetworkTest ++ on_flag (negb (bool_decide (syncTestFlag o = -1))) (SyncTest (syncTestFlag o)) ++
  (if stub then [] else
     on_name (removeFileName o) RemoveFile ++
     match copyUnixFileName o, copyNachosFileName o with Some u, Some n => [CopyFile u n] | _, _ => [] end ++
     on_flag (dumpFlag o) Dump ++ on_flag (dirListFlag o) ListFiles ++ on_name (printFileName o) PrintFile) ++
  match userProgName o with
  | Some p => (fun t => ForkUserThread t p) <$> [str "Thread 1"; str "Thread 2"; str "Thread 3"]
  | None => []
  end ++ [Halt].

(** ** [Kernel::Kernel] *)

Section kernel.
(** [atof] of the C library, and what it makes numbers of. *)
Context {R : Type} (one : R) (atof : arg -> R).

(** The fields of the kernel that the options set; [seed]: what [RandomInit] was given. *)
Record KernelOptions : Type := mkKernelOptions {
  randomSlice : bool; seed : option Z; debugUserProg : bool; consoleIn : option arg; consoleOut : option arg;
  formatFlag : bool; reliability : R; hostName : Z; usages : list message }.

Definition set_randomSlice (x : bool) (o : KernelOptions) : KernelOptions :=
  mkKernelOptions x (seed o) (debugUserProg o) (consoleIn o) (consoleOut o) (formatFlag o) (reliability o)
    (hostName o) (usages o).
Definition set_seed (x : option Z) (o : KernelOptions) : KernelOptions :=
  mkKernelOptions (randomSlice o) x (debugUserProg o) (consoleIn o) (consoleOut o) (formatFlag o)
    (reliability o) (hostName o) (usages o).
Definition set_debugUserProg (x : bool) (o : KernelOptions) : KernelOptions :=
  mkKernelOptions (randomSlice o) (seed o) x (consoleIn o) (consoleOut o) (formatFlag o) (reliability o)
    (hostName o) (usages o).
Definition set_consoleIn (x : option arg) (o : KernelOptions) : KernelOptions :=
  mkKernelOptions (randomSlice o) (seed o) (debugUserProg o) x (consoleOut o) (formatFlag o) (reliability o)
    (hostName o) (usages o).
Definition set_consoleOut (x : option arg) (o : KernelOptions) : KernelOptions :=
  mkKernelOptions (randomSlice o) (seed o) (debugUserProg o) (consoleIn o) x (formatFlag o) (reliability o)
    (hostName o) (usages o).
Definition set_formatFlag (x : bool) (o : KernelOptions) : KernelOptions :=
  mkKernelOptions (randomSlice o) (seed o) (debugUserProg o) (consoleIn o) (consoleOut o) x (reliability o)
    (hostName o) (usages o).
Definition set_reliability (x : R) (o : KernelOptions) : KernelOptions :=
  mkKernelOptions (randomSlice o) (seed o) (debugUserProg o) (consoleIn o) (consoleOut o) (formatFlag o) x
    (hostName o) (usages o).
Definition set_hostName (x : Z) (o : KernelOptions) : KernelOptions :=
  mkKernelOptions (randomSlice o) (seed o) (debugUserProg o) (consoleIn o) (consoleOut o) (formatFlag o)
    (reliability o) x (usages o).
Definition set_usages (x : list message) (o : KernelOptions) : KernelOptions :=
  mkKernelOptions (randomSlice o) (seed o) (debugUserProg o) (consoleIn o) (consoleOut o) (formatFlag o)
    (reliability o) (hostName o) x.

Definition kernel_start : KernelOptions := mkKernelOptions false None false None None false one 0 [].

(** The loop of the constructor over [argv[i]], ..., [argv[argc - 1]]. *)
Fixpoint kernel_loop (stub : bool) (args : list arg) (o : KernelOptions) : res KernelOptions :=
  match args with
  | [] => Ok o
  | a :: rest =>
      if streq a "-rs" then
        match rest with
        | [] => AssertFail
        | v :: rest => x ← number v; kernel_loop stub rest (set_randomSlice true (set_seed (Some (u32 x)) o))
        end
      else if streq a "-s" then kernel_loop stub rest (set_debugUserProg true o)
      else if streq a "-ci" then
        match rest with [] => AssertFail | v :: rest => kernel_loop stub rest (set_consoleIn (Some v) o) end
      else if streq a "-co" then
        match rest with [] => AssertFail | v :: rest => kernel_loop stub rest (set_consoleOut (Some v) o) end
      else if negb stub && streq a "-f" then kernel_loop stub rest (set_formatFlag true o)
      else if streq a "-n" then
        match rest with [] => AssertFail | v :: rest => kernel_loop stub rest (set_reliability (atof v) o) end
      else if streq a "-m" then
        match rest with
        | [] => AssertFail
        | v :: rest => x ← number v; kernel_loop stub rest (set_hostName x o)
        end
      else if streq a "-u" then kernel_loop stub rest (set_usages (usages o ++ [Usage]) o)
      else kernel_loop stub rest o
  end.

(** The options of [main] and of the kernel, [argv[0]] being the command. *)
Definition command_line (stub : bool) (argv : list arg) : res (MainOptions * KernelOptions) :=
  o ← main_loop stub (tail argv) main_start;
  k ← kernel_loop stub (tail argv) kernel_start;
  Ok (o, k).

End kernel.
