(* ===== verification/CommandLineProofs.v ===== *)
(** * The command line: options written out and read back *)

From Stdlib Require Strings.Ascii Strings.String.
From S2P Require Import Prelude Bytes Text CommandLine.
Import Strings.String.StringSyntax.

(** The options with their arguments. *)
Inductive group : Type :=
| GDebug (flags : arg) | GCopyright | GRun (program : arg) (dt : bool) | GThreadTest (type : Z) | GConsole | GNetwork
| GCopy (unix nachos : arg) | GPrint (name : arg) | GRemove (name : arg) | GList | GDump | GSync (type : Z)
| GRandom (n : Z) | GStep | GIn (file : arg) | GOut (file : arg) | GFormat | GReliability (x : arg) | GHost (n : Z)
| GUsage.

(** The arguments on the command line. *)
Definition render (g : group) : list arg :=
  match g with
  | GDebug v => [str "-d"; v] | GCopyright => [str "-z"]
  | GRun p dt => [str "-x"; p] ++ (if dt then [str "-dt"] else [])
  | GThreadTest n => [str "-K"; decimal n] | GConsole => [str "-C"] | GNetwork => [str "-N"]
  | GCopy u n => [str "-cp"; u; n] | GPrint n => [str "-p"; n] | GRemove n => [str "-r"; n]
  | GList => [str "-l"] | GDump => [str "-D"] | GSync n => [str "-st"; decimal n]
  | GRandom n => [str "-rs"; decimal n] | GStep => [str "-s"] | GIn f => [str "-ci"; f] | GOut f => [str "-co"; f]
  | GFormat => [str "-f"] | GReliability x => [str "-n"; x] | GHost n => [str "-m"; decimal n] | GUsage => [str "-u"]
  end.

(** The flags that each of the two loops looks for. *)
Definition main_flags (stub : bool) : list arg :=
  [str "-d"; str "-z"; str "-x"; str "-K"; str "-C"; str "-N"; str "-u"; str "-st"] ++
  (if stub then [] else [str "-cp"; str "-p"; str "-r"; str "-l"; str "-D"]).
Definition kernel_flags (stub : bool) : list arg :=
  [str "-rs"; str "-s"; str "-ci"; str "-co"; str "-n"; str "-m"; str "-u"] ++ (if stub then [] else [str "-f"]).

(** An argument of one loop's option is not an option of the other loop; numbers
    are [int]s; options of the file system are there. *)
Definition group_ok (stub : bool) (g : group) : Prop :=
  match g with
  | GDebug v | GRun v _ => v ∉ kernel_flags stub
  | GThreadTest n | GSync n | GRandom n | GHost n => is_i32 n
  | GCopy u n => stub = false /\ (u ∉ kernel_flags stub) /\ n ∉ kernel_flags stub
  | GPrint n | GRemove n => stub = false /\ n ∉ kernel_flags stub
  | GList | GDump | GFormat => stub = false
  | GIn v | GOut v | GReliability v => v ∉ main_flags stub
  | _ => True
  end.

(** ** The last of the values given, if there is one *)

Definition given {A} (f : group -> option A) (gs : list group) : option A := last (omap f gs).
Definition present (f : group -> bool) (gs : list group) : bool := existsb f gs.

Lemma given_snoc {A} (f : group -> option A) gs g :
  given f (gs ++ [g]) = match f g with Some x => Some x | None => given f gs end.
Proof. unfold given. rewrite omap_app. cbn. destruct (f g); [apply last_snoc|by rewrite app_nil_r]. Qed.
Lemma present_snoc f gs g : present f (gs ++ [g]) = f g || present f gs.
Proof. unfold present. rewrite existsb_app. cbn. by rewrite orb_false_r, orb_comm. Qed.

(** What the options mean for [main] and for the kernel. *)
Definition copied (gs : list group) : option (arg * arg) :=
  given (fun g => match g with GCopy u n => Some (u, n) | _ => None end) gs.
Definition main_of (gs : list group) : MainOptions :=
  mkMain
    (default [] (given (fun g => match g with GDebug v => Some v | _ => None end) gs))
    (given (fun g => match g with GRun p _ => Some p | _ => None end) gs)
    (present (fun g => match g with GThreadTest _ => true | _ => false end) gs)
    (present (fun g => match g with GConsole => true | _ => false end) gs)
    (present (fun g => match g with GNetwork => true | _ => false end) gs)
    (default (-1) (given (fun g => match g with GSync n => Some n | _ => None end) gs))
    (fst <$> copied gs) (snd <$> copied gs)
    (given (fun g => match g with GPrint n => Some n | _ => None end) gs)
    (given (fun g => match g with GRemove n => Some n | _ => None end) gs)
    (present (fun g => match g with GList => true | _ => false end) gs)
    (present (fun g => match g with GDump => true | _ => false end) gs)
    (default 2 (given (fun g => match g with GThreadTest n => Some n | _ => None end) gs))
    (present (fun g => match g with GRun _ dt => dt | _ => false end) gs)
    (omap (fun g => match g with GCopyright => Some Copyright | GConsole => Some Interactive | GUsage => Some Usage | _ => None end) gs).

Section kernel.
Context {R : Type} (one : R) (atof : arg -> R).

Definition kernel_of (gs : list group) : KernelOptions :=
  mkKernelOptions
    (present (fun g => match g with GRandom _ => true | _ => false end) gs)
    (given (fun g => match g with GRandom n => Some (u32 n) | _ => None end) gs)
    (present (fun g => match g with GStep => true | _ => false end) gs)
    (given (fun g => match g with GIn f => Some f | _ => None end) gs)
    (given (fun g => match g with GOut f => Some f | _ => None end) gs)
    (present (fun g => match g with GFormat => true | _ => false end) gs)
    (default one (given (fun g => match g with GReliability x => Some (atof x) | _ => None end) gs))
    (default 0 (given (fun g => match g with GHost n => Some n | _ => None end) gs))
    (omap (fun g => match g with GUsage => Some Usage | _ => None end) gs).

(** ** Reading one option *)

Lemma number_decimal n : is_i32 n -> number (decimal n) = Ok n.
Proof. apply (atoi_decimal n []). Qed.

(** The text of a number is not a flag: a flag has a letter behind the dash. *)
Lemma decimal_second n : exists d, is_digit d /\ (head (decimal n) = Some d \/ nth_error (decimal n) 1 = Some d).
Proof.
  unfold decimal. case_bool_decide.
  - destruct (digits_nonempty 9 (- n)) as (d & ds & -> & Hd). exists d. split; [done|]. by right.
  - destruct (digits_nonempty 9 n) as (d & ds & -> & Hd). exists d. split; [done|]. by left.
Qed.

Lemma decimal_plain n stub : (decimal n ∉ main_flags stub) /\ decimal n ∉ kernel_flags stub.
Proof.
  destruct (decimal_second n) as (d & Hd & H). unfold is_digit in Hd.
  assert (HF : forall l, Forall (fun a => exists c r, a = 45 :: c :: r /\ 57 < c) l -> decimal n ∉ l).
  { intros l HF Hin. rewrite Forall_forall in HF. destruct (HF _ Hin) as (c & r & E & Hc). rewrite E in H.
    destruct H as [H|H]; injection H as H; lia. }
  split; apply HF; destruct stub; repeat (apply Forall_cons; split; [eexists _, _; split; [vm_compute; reflexivity|lia]|]); apply Forall_nil; done.
Qed.

(** Closed comparisons are evaluated. *)
Ltac eval_streq :=
  repeat match goal with
  | |- context [streq (str ?a) ?b] =>
      let v := eval vm_compute in (streq (str a) b) in change (streq (str a) b) with v
  end; cbn [negb andb].

Lemma streq_other v (l : list arg) s : v ∉ l -> bool_decide (str s ∈ l) = true -> streq v s = false.
Proof. intros Hv Hs%bool_decide_eq_true. unfold streq. apply bool_decide_eq_false. by intros ->. Qed.

(** A loop steps over what it does not look for. *)
Lemma main_skip stub v rest o : v ∉ main_flags stub -> main_loop stub (v :: rest) o = main_loop stub rest o.
Proof. intros Hv. cbn [main_loop]. by destruct stub; cbn [negb andb]; rewrite !(streq_other v _ _ Hv) by (vm_compute; reflexivity). Qed.

Lemma kernel_skip stub v rest o : v ∉ kernel_flags stub -> kernel_loop atof stub (v :: rest) o = kernel_loop atof stub rest o.
Proof. intros Hv. cbn [kernel_loop]. by destruct stub; cbn [negb andb]; rewrite !(streq_other v _ _ Hv) by (vm_compute; reflexivity). Qed.

(** What [main] does with one option, and the kernel. *)
Definition main_apply (o : MainOptions) (g : group) : MainOptions :=
  match g with
  | GDebug v => set_debugArg v o | GCopyright => say Copyright o
  | GRun p dt => (if dt then set_debugThreadStatusChanging true else id) (set_userProgName (Some p) o)
  | GThreadTest n => set_typeno n (set_threadTestFlag true o) | GConsole => set_consoleTestFlag true (say Interactive o)
  | GNetwork => set_networkTestFlag true o | GCopy u n => set_copy u n o | GPrint n => set_printFileName (Some n) o
  | GRemove n => set_removeFileName (Some n) o | GList => set_dirListFlag true o | GDump => set_dumpFlag true o
  | GSync n => set_syncTestFlag n o | GUsage => say Usage o
  | _ => o
  end.
Definition kernel_apply (o : KernelOptions) (g : group) : KernelOptions :=
  match g with
  | GRandom n => set_randomSlice true (set_seed (Some (u32 n)) o) | GStep => set_debugUserProg true o
  | GIn f => set_consoleIn (Some f) o | GOut f => set_consoleOut (Some f) o | GFormat => set_formatFlag true o
  | GReliability x => set_reliability (atof x) o | GHost n => set_hostName n o | GUsage => set_usages (usages o ++ [Usage]) o
  | _ => o
  end.

(** A flag of one loop that is none of the other. *)
Lemma not_flag s (l : list arg) : bool_decide (str s ∉ l) = true -> str s ∉ l.
Proof. by intros ?%bool_decide_eq_true. Qed.

Ltac skip_args :=
  repeat first
    [ rewrite main_skip by first [assumption | apply decimal_plain | apply not_flag; vm_compute; reflexivity]
    | rewrite kernel_skip by first [assumption | apply decimal_plain | apply not_flag; vm_compute; reflexivity] ].

(** The rest of the command line does not begin with [-dt]. *)
Definition no_dt (rest : list arg) : Prop := match rest with a :: _ => streq a "-dt" = false | [] => True end.

Lemma main_group stub g rest o : group_ok stub g -> no_dt rest ->
  main_loop stub (render g ++ rest) o = main_loop stub rest (main_apply o g).
Proof.
  intros Hg Hr. destruct stub, g; cbn [group_ok] in Hg; destruct_and?; try done; cbn [render app main_apply]; skip_args; try reflexivity;
    cbn [main_loop]; eval_streq; rewrite ?number_decimal by assumption; try reflexivity.
  all: destruct dt; cbn [app]; eval_streq; [reflexivity|]; destruct rest as [|a rest]; [reflexivity|]; cbn in Hr; by rewrite Hr.
Qed.

Lemma kernel_group stub g rest o : group_ok stub g ->
  kernel_loop atof stub (render g ++ rest) o = kernel_loop atof stub rest (kernel_apply o g).
Proof.
  intros Hg. destruct stub, g; try destruct dt; cbn [group_ok] in Hg; destruct_and?; try done; cbn [render app kernel_apply]; skip_args;
    try reflexivity; cbn [kernel_loop]; eval_streq; rewrite ?number_decimal by assumption; reflexivity.
Qed.

(** ** Reading all of them *)

Lemma no_dt_render gs rest : no_dt rest -> no_dt (concat (render <$> gs) ++ rest).
Proof. intros Hr. destruct gs as [|g gs]; [done|]. by destruct g. Qed.

Lemma main_groups stub gs rest o : Forall (group_ok stub) gs -> no_dt rest ->
  main_loop stub (concat (render <$> gs) ++ rest) o = main_loop stub rest (fold_left main_apply gs o).
Proof.
  intros HF Hr. revert o. induction HF as [|g gs Hg _ IH]; intros o; [done|]. cbn [fmap list_fmap concat fold_left].
  rewrite <- app_assoc, main_group; [apply IH|exact Hg|by apply no_dt_render].
Qed.

Lemma kernel_groups stub gs rest o : Forall (group_ok stub) gs ->
  kernel_loop atof stub (concat (render <$> gs) ++ rest) o = kernel_loop atof stub rest (fold_left kernel_apply gs o).
Proof.
  intros HF. revert o. induction HF as [|g gs Hg _ IH]; intros o; [done|]. cbn [fmap list_fmap concat fold_left].
  rewrite <- app_assoc, kernel_group by exact Hg. apply IH.
Qed.

Lemma main_fold gs : fold_left main_apply gs main_start = main_of gs.
Proof.
  induction gs as [|g gs IH] using rev_ind; [done|]. rewrite fold_left_app. cbn [fold_left]. rewrite IH.
  unfold main_of, copied. rewrite !given_snoc, !present_snoc, omap_app.
  destruct g; cbn; rewrite ?app_nil_r; try reflexivity. by destruct dt.
Qed.

Lemma kernel_fold gs : fold_left kernel_apply gs (kernel_start one) = kernel_of gs.
Proof.
  induction gs as [|g gs IH] using rev_ind; [done|]. rewrite fold_left_app. cbn [fold_left]. rewrite IH.
  unfold kernel_of. rewrite !given_snoc, !present_snoc, omap_app. by destruct g; cbn; rewrite ?app_nil_r.
Qed.

(** ** Options whose arguments are missing *)

(** How many arguments an option asserts, itself included. *)
Definition needed (g : group) : nat :=
  match g with
  | GCopy _ _ => 3
  | GDebug _ | GRun _ _ | GThreadTest _ | GPrint _ | GRemove _ | GSync _ | GRandom _ | GIn _ | GOut _ | GReliability _ | GHost _ => 2
  | _ => 1
  end.

Lemma truncated stub g k o ko : group_ok stub g -> (0 < k < needed g)%nat ->
  main_loop stub (take k (render g)) o = AssertFail \/
  (exists o', main_loop stub (take k (render g)) o = Ok o') /\ kernel_loop atof stub (take k (render g)) ko = AssertFail.
Proof.
  intros Hg Hk. destruct stub, g; cbn [group_ok needed] in *; destruct_and?; try done; try lia;
    destruct k as [|[|[|k]]]; try lia; cbn [take render app]; skip_args;
    first [by left; cbn [main_loop]; eval_streq | right; split; [by eexists|]; cbn [kernel_loop]; eval_streq; reflexivity].
Qed.

End kernel.
