(* ===== verification/HostSyscalls.v ===== *)
(** * The system calls on the host: shell/nachos_syscall.c

    The shell can also be linked with functions that hand the system calls of Nachos
    to UNIX.  UNIX is the interface [Unix]; what POSIX says of it is in
    [HostSyscallsClaims]. *)

From Stdlib Require Strings.String.
From S2P Require Import Prelude Text CommandLine.
Import Strings.String.StringSyntax.

(** ** The calls of UNIX, on a state [W] of the host *)

(** What a child process of [vfork] calls, in this order. *)
Inductive child_call := Execl (path : list Z) (argv : list (list Z)) | ExitChild (status : Z).

Class Unix (W : Type) : Type := {
  unix_open : list Z -> Z -> W -> Z * W;              (* path, flags *)
  unix_close : Z -> W -> Z * W;
  unix_write : Z -> list Z -> Z -> W -> Z * W;        (* descriptor, buffer, count *)
  unix_read : Z -> Z -> W -> Z * list Z * W;          (* the bytes that were stored *)
  unix_lseek : Z -> Z -> Z -> W -> Z * W;             (* descriptor, offset, whence *)
  unix_remove : list Z -> W -> Z * W;
  unix_unlink : list Z -> W -> Z * W;
  unix_vfork : list child_call -> W -> Z * W;         (* as the parent sees it *)
  unix_waitpid : Z -> W -> Z * W;                     (* no status asked for *)
  unix_getpid : W -> Z;
  unix_exit : Z -> W -> W }.

(** The constants of the headers of Linux. *)
Definition O_RDONLY : Z := 0.
Definition O_WRONLY : Z := 1.
Definition O_RDWR : Z := 2.
Definition O_CREAT : Z := 64.
Definition O_TRUNC : Z := 512.
Definition O_APPEND : Z := 1024.
Definition SEEK_SET : Z := 0.
Definition EPERM : Z := 1.
Definition EXIT_FAILURE : Z := 1.

(** ** nachos_syscall.h and nachos_syscall.c *)

Definition RO : Z := 1.
Definition RW : Z := 2.
Definition APPEND : Z := 3.
Definition SHELL : list Z := str "/bin/sh".

Section syscalls.
Context {W : Type} `{!Unix W}.

Definition Exit (status : Z) (w : W) : W := unix_exit status w.
Definition Halt (w : W) : W := Exit 0 w.

(** [int Add(int op1, int op2)]; a sum that is no [int] is undefined. *)
Definition Add (op1 op2 : Z) : res Z :=
  if bool_decide (int_min <= op1 + op2 <= int_max) then Ok (op1 + op2) else Undef.

(** A [SpaceId] is unsigned. *)
Definition Exec (exec_name : list Z) (w : W) : Z * W :=
  let '(child, w) := unix_vfork [Execl SHELL [SHELL; str "-c"; exec_name]; ExitChild EXIT_FAILURE] w in
  if bool_decide (child < 0) then (EPERM, w) else (u32 child, w).

Definition Join (id : Z) (w : W) : Z * W := unix_waitpid (i32 id) w.

Definition Create (name : list Z) (w : W) : Z * W :=
  let '(fd, w) := unix_open name (Z.lor (Z.lor O_TRUNC O_CREAT) O_WRONLY) w in
  if bool_decide (fd > 0) then let '(_, w) := unix_close fd w in (1, w) else (fd, w).

Definition Remove (name : list Z) (w : W) : Z * W := unix_remove name w.

(** The [switch] of [Open]. *)
Definition open_mode (mode : Z) : option Z :=
  if bool_decide (mode = RO) then Some O_RDONLY
  else if bool_decide (mode = RW) then Some O_RDWR
  else if bool_decide (mode = APPEND) then Some O_APPEND
  else None.

Definition Open (name : list Z) (mode : Z) (w : W) : Z * W :=
  match open_mode mode with
  | Some pmode => unix_open name pmode w
  | None => (-1, w)
  end.

Definition Write (buffer : list Z) (size id : Z) (w : W) : Z * W := unix_write id buffer size w.
Definition Read (size id : Z) (w : W) : Z * list Z * W := unix_read id size w.
Definition Seek (position id : Z) (w : W) : Z * W := unix_lseek id SEEK_SET position w.
Definition Delete (name : list Z) (w : W) : Z * W := unix_unlink name w.
Definition Close (id : Z) (w : W) : Z * W := unix_close id w.

Definition getSpaceID (w : W) : Z := u32 (unix_getpid w).
Definition getThreadID (w : W) : Z := u32 (unix_getpid w).
End syscalls.
