(* ===== verification/HostSyscallsClaims.v ===== *)
(** * The system calls on the host: the theorem

    What POSIX promises for the calls that the file uses is the class [Posix], on a
    view of the host's state: names and files, the table of descriptors and the
    children of the process. *)

From Stdlib Require Strings.String.
From S2P Require Import Prelude Text CommandLine HostSyscalls.
Import Strings.String.StringSyntax.

(** ** What POSIX says *)

(** An open file: which, for what, and where. *)
Record Desc := mkDesc { d_file : Z; d_access : Z; d_append : bool; d_pos : nat }.

Definition access_of (flags : Z) : Z := Z.land flags 3.
Definition has_creat (flags : Z) : bool := Z.testbit flags 6.
Definition has_trunc (flags : Z) : bool := Z.testbit flags 9.
Definition has_append (flags : Z) : bool := Z.testbit flags 10.

(** The bytes [bs] at a position of a file that is at least as long. *)
Definition splice (data : list Z) (pos : nat) (bs : list Z) : list Z := take pos data ++ bs ++ drop (pos + length bs) data.

Definition set_pos (p : nat) (d : Desc) : Desc := mkDesc (d_file d) (d_access d) (d_append d) p.

(** What [lseek] counts from: [SEEK_SET], [SEEK_CUR] or [SEEK_END]. *)
Definition seek_base (whence : Z) (pos len : nat) : option Z :=
  if bool_decide (whence = 0) then Some 0
  else if bool_decide (whence = 1) then Some (Z.of_nat pos)
  else if bool_decide (whence = 2) then Some (Z.of_nat len)
  else None.

Section posix.
Context {W : Type} `{!Unix W}.

(** [names]: the number of the file with a name; [data]: what the files hold. *)
Record View := mkView { names : gmap (list Z) Z; data : gmap Z (list Z); descs : gmap Z Desc; children : gmap Z (list child_call) }.

Definition set_descs (v : View) (t : gmap Z Desc) : View := mkView (names v) (data v) t (children v).
Definition set_children (v : View) (c : gmap Z (list child_call)) : View := mkView (names v) (data v) (descs v) c.

(** The file that [open] opens, and what it holds then. *)
Definition opens (v : View) (p : list Z) (flags : Z) (i : Z) (bs : list Z) : Prop :=
  (names v !! p = Some i /\ bs = if has_trunc flags then [] else default [] (data v !! i)) \/
  (names v !! p = None /\ has_creat flags = true /\ data v !! i = None /\ bs = []).

Definition removed (v : View) (p : list Z) (r : Z) (v' : View) : Prop :=
  (r = -1 /\ v' = v) \/
  (is_Some (names v !! p) /\ r = 0 /\ v' = mkView (delete p (names v)) (data v) (descs v) (children v)).

(** Calls fail with -1 and change nothing, or do what they are for; reads and writes
    may transfer less than they are asked for.  Positions are within files here. *)
Class Posix (view : W -> View) : Prop := {
  posix_open p flags w : let '(fd, w') := unix_open p flags w in
    (has_trunc flags = true -> access_of flags <> O_RDONLY) ->
    (fd = -1 /\ view w' = view w) \/
    (0 <= fd /\ descs (view w) !! fd = None /\ (forall k, 0 <= k < fd -> is_Some (descs (view w) !! k)) /\
     exists i bs, opens (view w) p flags i bs /\
     view w' = mkView (<[p := i]> (names (view w))) (<[i := bs]> (data (view w)))
       (<[fd := mkDesc i (access_of flags) (has_append flags) 0]> (descs (view w))) (children (view w)));
  posix_close fd w : let '(r, w') := unix_close fd w in
    if decide (is_Some (descs (view w) !! fd))
    then r = 0 /\ view w' = set_descs (view w) (delete fd (descs (view w)))
    else r = -1 /\ view w' = view w;
  posix_write fd d old bs n w : descs (view w) !! fd = Some d -> data (view w) !! d_file d = Some old ->
    (d_pos d <= length old)%nat -> 0 <= n <= Z.of_nat (length bs) ->
    let '(r, w') := unix_write fd bs n w in
    (r = -1 /\ view w' = view w) \/
    (d_access d <> O_RDONLY /\ 0 <= r <= n /\
     let at_ := if d_append d then length old else d_pos d in
     let put := take (Z.to_nat r) bs in
     view w' = mkView (names (view w)) (<[d_file d := splice old at_ put]> (data (view w)))
       (<[fd := set_pos (at_ + length put) d]> (descs (view w))) (children (view w)));
  posix_read fd d old n w : descs (view w) !! fd = Some d -> data (view w) !! d_file d = Some old ->
    (d_pos d <= length old)%nat -> 0 <= n ->
    let '(r, got, w') := unix_read fd n w in
    (r = -1 /\ got = [] /\ view w' = view w) \/
    (d_access d <> O_WRONLY /\ 0 <= r <= n /\ got = take (Z.to_nat r) (drop (d_pos d) old) /\ length got = Z.to_nat r /\
     view w' = set_descs (view w) (<[fd := set_pos (d_pos d + Z.to_nat r) d]> (descs (view w))));
  posix_lseek fd d old offset whence w : descs (view w) !! fd = Some d -> data (view w) !! d_file d = Some old ->
    let '(r, w') := unix_lseek fd offset whence w in
    match seek_base whence (d_pos d) (length old) with
    | Some base =>
        if decide (0 <= base + offset)
        then r = base + offset /\ view w' = set_descs (view w) (<[fd := set_pos (Z.to_nat (base + offset)) d]> (descs (view w)))
        else r = -1 /\ view w' = view w
    | None => r = -1 /\ view w' = view w
    end;
  posix_unlink p w : let '(r, w') := unix_unlink p w in removed (view w) p r (view w');
  posix_remove p w : let '(r, w') := unix_remove p w in removed (view w) p r (view w');
  posix_vfork c w : let '(pid, w') := unix_vfork c w in
    (pid = -1 /\ view w' = view w) \/
    (0 < pid <= int_max /\ children (view w) !! pid = None /\ view w' = set_children (view w) (<[pid := c]> (children (view w))));
  posix_waitpid pid w : let '(r, w') := unix_waitpid pid w in
    match children (view w) !! pid with
    | Some _ => r = pid /\ view w' = set_children (view w) (delete pid (children (view w)))
    | None => 0 < pid -> r = -1 /\ view w' = view w
    end }.

Context (view : W -> View) `{!Posix view}.

(** ** Files *)

Definition Create_does name w : Prop := let '(r, w') := Create name w in
  (r = -1 /\ view w' = view w) \/
  exists i, data (view w') = <[i := []]> (data (view w)) /\ names (view w') = <[name := i]> (names (view w)) /\
    children (view w') = children (view w) /\
    ((r = 1 /\ descs (view w') = descs (view w)) \/
     (r = 0 /\ descs (view w) !! 0 = None /\ descs (view w') = <[0 := mkDesc i O_WRONLY false 0]> (descs (view w)))).

Lemma create_ok name w : Create_does name w.
Proof.
  unfold Create_does.
  unfold Create. pose proof (posix_open name (Z.lor (Z.lor O_TRUNC O_CREAT) O_WRONLY) w) as HO.
  destruct (unix_open name _ w) as [fd w1]. destruct (HO ltac:(done)) as [[-> E]|(Hp & Hn & Hk & i & bs & HB & E)]; [by left|].
  assert (bs = []) as -> by (destruct HB as [[_ ->]|(_ & _ & _ & ->)]; done).
  case_bool_decide as Hf.
  - pose proof (posix_close fd w1) as HC. destruct (unix_close fd w1) as [r w2]. right. exists i. rewrite E in HC. cbn in HC.
    rewrite decide_True in HC by (rewrite lookup_insert_eq; by eexists). destruct HC as [_ ->]. cbn.
    split; [done|]. split; [done|]. split; [done|]. left. split; [done|]. by rewrite delete_insert_id.
  - right. exists i. rewrite E. cbn. assert (fd = 0) as -> by lia. split; [done|]. split; [done|]. split; [done|]. by right.
Qed.

Definition Open_does name mode w : Prop := let '(r, w') := Open name mode w in
  (r = -1 /\ view w' = view w) \/
  (exists i d, names (view w) !! name = Some i /\ d_file d = i /\ d_pos d = 0%nat /\ descs (view w) !! r = None /\
    descs (view w') = <[r := d]> (descs (view w)) /\ names (view w') = names (view w) /\
    data (view w') = <[i := default [] (data (view w) !! i)]> (data (view w)) /\
    ((mode = RO /\ d_access d = O_RDONLY /\ d_append d = false) \/ (mode = RW /\ d_access d = O_RDWR /\ d_append d = false) \/
     (mode = APPEND /\ d_access d = O_RDONLY /\ d_append d = true))).

Lemma open_ok name mode w : Open_does name mode w.
Proof.
  unfold Open_does.
  unfold Open, open_mode.
  assert (H : forall f, has_trunc f = false -> has_creat f = false -> let '(r, w') := unix_open name f w in
    (r = -1 /\ view w' = view w) \/ (exists i, names (view w) !! name = Some i /\ descs (view w) !! r = None /\
      descs (view w') = <[r := mkDesc i (access_of f) (has_append f) 0]> (descs (view w)) /\ names (view w') = names (view w) /\
      data (view w') = <[i := default [] (data (view w) !! i)]> (data (view w)))).
  { intros f Ht Hc. pose proof (posix_open name f w) as HO. destruct (unix_open name f w) as [fd w1].
    destruct HO as [?|(Hp & Hn & Hk & i & bs & HB & E)]; [by rewrite Ht|by left|]. right. exists i.
    destruct HB as [[HN ->]|(_ & HX & _)]; [|by rewrite Hc in HX]. rewrite Ht in E. rewrite E. cbn. by rewrite (insert_id (names (view w))). }
  case_bool_decide as H1; [|case_bool_decide as H2; [|case_bool_decide as H3; [|by left]]].
  - specialize (H O_RDONLY eq_refl eq_refl). destruct (unix_open name O_RDONLY w) as [r w'].
    destruct H as [?|(i & ? & ? & ? & ? & ?)]; [by left|]. right. exists i, (mkDesc i (access_of O_RDONLY) (has_append O_RDONLY) 0). split_and!; try done. by left.
  - specialize (H O_RDWR eq_refl eq_refl). destruct (unix_open name O_RDWR w) as [r w'].
    destruct H as [?|(i & ? & ? & ? & ? & ?)]; [by left|]. right. exists i, (mkDesc i (access_of O_RDWR) (has_append O_RDWR) 0). split_and!; try done. by right; left.
  - specialize (H O_APPEND eq_refl eq_refl). destruct (unix_open name O_APPEND w) as [r w'].
    destruct H as [?|(i & ? & ? & ? & ? & ?)]; [by left|]. right. exists i, (mkDesc i (access_of O_APPEND) (has_append O_APPEND) 0). split_and!; try done. by right; right.
Qed.

(** A descriptor of a regular file, at a position in it. *)
Record opened (w : W) (id : Z) (d : Desc) (old : list Z) : Prop := mkOpened {
  o_desc : descs (view w) !! id = Some d; o_data : data (view w) !! d_file d = Some old; o_pos : (d_pos d <= length old)%nat }.

(** [Seek] hands the position over as [whence], and 0 as the offset. *)
Definition Seek_does position id d old w : Prop := opened w id d old ->
  let '(r, w') := Seek position id w in
  let to p := set_descs (view w) (<[id := set_pos p d]> (descs (view w))) in
  (position = 0 -> r = 0 /\ view w' = to 0%nat) /\
  (position = 1 -> r = Z.of_nat (d_pos d) /\ view w' = to (d_pos d)) /\
  (position = 2 -> r = Z.of_nat (length old) /\ view w' = to (length old)) /\
  (~ 0 <= position <= 2 -> r = -1 /\ view w' = view w).

Lemma seek_ok position id d old w : Seek_does position id d old w.
Proof.
  unfold Seek_does.
  intros [H1 H2 _]. unfold Seek, SEEK_SET. pose proof (posix_lseek id d old 0 position w H1 H2) as HS.
  destruct (unix_lseek id 0 position w) as [r w']. unfold seek_base in HS. split_and!; intros Hp; try subst position.
  - exact HS.
  - rewrite (bool_decide_false (1 = 0)), (bool_decide_true (1 = 1)) in HS by done. rewrite Z.add_0_r, Nat2Z.id, decide_True in HS by lia. exact HS.
  - rewrite (bool_decide_false (2 = 0)), (bool_decide_false (2 = 1)), (bool_decide_true (2 = 2)) in HS by done. rewrite Z.add_0_r, Nat2Z.id, decide_True in HS by lia. exact HS.
  - rewrite !bool_decide_false in HS by lia. exact HS.
Qed.

Definition Append_fails bs n id d old w : Prop := opened w id d old -> d_access d = O_RDONLY -> 0 <= n <= Z.of_nat (length bs) ->
  let '(r, w') := Write bs n id w in r = -1 /\ view w' = view w.

Lemma write_append bs n id d old w : Append_fails bs n id d old w.
Proof.
  unfold Append_fails.
  intros [H1 H2 H3] HA Hn. unfold Write. pose proof (posix_write id d old bs n w H1 H2 H3 Hn) as HW.
  destruct (unix_write id bs n w) as [r w']. by destruct HW as [?|[? _]].
Qed.

(** What is written at the start of a file is read back. *)
Definition Reads_back bs n id d old w : Prop := opened w id d old -> d_access d = O_RDWR -> d_append d = false -> d_pos d = 0%nat ->
  0 <= n <= Z.of_nat (length bs) ->
  let '(k, w1) := Write bs n id w in 0 <= k ->
  data (view w1) !! d_file d = Some (take (Z.to_nat k) bs ++ drop (Z.to_nat k) old) /\
  let '(p, w2) := Seek 0 id w1 in p = 0 /\
  forall m, 0 <= m -> let '(r, got, w3) := Read m id w2 in 0 <= r <= k -> got = take (Z.to_nat r) bs.

Lemma write_read bs n id d old w : Reads_back bs n id d old w.
Proof.
  unfold Reads_back.
  intros [H1 H2 H3] HA HP H0 Hn. unfold Write. pose proof (posix_write id d old bs n w H1 H2 H3 Hn) as HW.
  destruct (unix_write id bs n w) as [k w1]. intros Hk. destruct HW as [[-> _]|(_ & Hk' & HV)]; [lia|].
  rewrite HP, H0 in HV. cbn [Nat.add] in HV. unfold splice in HV. cbn [take app] in HV.
  assert (Hl : length (take (Z.to_nat k) bs) = Z.to_nat k) by (rewrite length_take; lia). rewrite Hl in HV. cbn [Nat.add] in HV.
  set (new := take (Z.to_nat k) bs ++ drop (Z.to_nat k) old) in *.
  assert (O1 : opened w1 id (set_pos (Z.to_nat k) d) new).
  { split; [rewrite HV; apply lookup_insert_eq|rewrite HV; apply lookup_insert_eq|]. cbn. unfold new. rewrite length_app, Hl. lia. }
  split; [by apply O1|]. pose proof (seek_ok 0 id _ new w1 O1) as HS. cbv zeta in HS. destruct (Seek 0 id w1) as [p w2]. destruct HS as [HS _].
  destruct (HS eq_refl) as [-> HV2]. split; [done|]. intros m Hm. unfold Read.
  assert (O2 : opened w2 id (set_pos 0 (set_pos (Z.to_nat k) d)) new).
  { destruct O1 as [_ O1 _]. split; [rewrite HV2; apply lookup_insert_eq|rewrite HV2; exact O1|cbn; lia]. }
  destruct O2 as [Q1 Q2 Q3]. pose proof (posix_read id _ new m w2 Q1 Q2 Q3 Hm) as HR. destruct (unix_read id m w2) as [[r got] w3].
  intros Hr. destruct HR as [[-> _]|(_ & _ & -> & _)]; [lia|]. change (drop _ new) with new. unfold new. rewrite take_app_le by lia.
  rewrite take_take. f_equal. lia.
Qed.

Definition Close_does id w : Prop := let '(r, w') := Close id w in
  (r = 0 /\ view w' = set_descs (view w) (delete id (descs (view w))) /\ is_Some (descs (view w) !! id)) \/
  (r = -1 /\ view w' = view w /\ descs (view w) !! id = None).

Lemma host_close_ok id w : Close_does id w.
Proof.
  unfold Close_does.
  unfold Close. pose proof (posix_close id w) as HC. destruct (unix_close id w) as [r w'].
  destruct (decide _) as [Hs|Hn] in HC; [left|right]; destruct HC; split_and!; try done. by apply eq_None_not_Some.
Qed.

(** ** Programs *)

Definition runs_command (command : list Z) : list child_call :=
  [Execl SHELL [SHELL; str "-c"; command]; ExitChild EXIT_FAILURE].

Definition Exec_does command w : Prop := let '(id, w') := Exec command w in
  (id = EPERM /\ view w' = view w) \/
  (0 < id <= int_max /\ children (view w) !! id = None /\
   view w' = set_children (view w) (<[id := runs_command command]> (children (view w))) /\
   let '(status, w'') := Join id w' in status = id /\ view w'' = view w).

Lemma exec_ok command w : Exec_does command w.
Proof.
  unfold Exec_does.
  unfold Exec. pose proof (posix_vfork (runs_command command) w) as HV. fold (runs_command command).
  destruct (unix_vfork (runs_command command) w) as [pid w']. destruct HV as [[-> E]|(Hp & Hn & E)]; [by left|].
  rewrite bool_decide_false by lia. assert (u32 pid = pid) as -> by (apply u32_id; unfold is_u32, int_max in *; lia).
  right. split_and!; try done; try lia. unfold Join.
  assert (i32 pid = pid) as -> by (apply i32_id; unfold is_i32, int_min, int_max in *; lia).
  pose proof (posix_waitpid pid w') as HW. destruct (unix_waitpid pid w') as [r w'']. rewrite E in HW. cbn in HW. rewrite lookup_insert_eq in HW.
  destruct HW as [-> ->]. split; [done|]. unfold set_children. cbn. rewrite delete_insert_id by done. by destruct (view w).
Qed.

(** C38: what the system calls of the shell do on a UNIX that keeps what POSIX promises.
    Create makes an empty file and leaves no descriptor open, unless descriptor 0 is free,
    when it leaves that open and returns 0; Open never creates a file, and opens one for
    appending so that it can only be read: every Write to it fails; what is written at
    the start of a file for reading and writing is read back; Seek with position 0, 1 or
    2 goes to the start, nowhere, or to the end, and fails with any other; Close returns
    0 or -1, never 1; Exec runs the command with the shell of UNIX, and Join waits for
    it and returns its identifier, not its status. *)
Theorem host_syscalls_do w :
  (forall name, Create_does name w) /\
  (forall name mode, Open_does name mode w) /\
  (forall bs n id d old, Reads_back bs n id d old w) /\
  (forall bs n id d old, Append_fails bs n id d old w) /\
  (forall position id d old, Seek_does position id d old w) /\
  (forall id, Close_does id w) /\
  (forall command, Exec_does command w).
Proof.
  split_and!; intros; [apply create_ok|apply open_ok|apply write_read|apply write_append|apply seek_ok|apply host_close_ok|apply exec_ok].
Qed.
End posix.
Arguments Posix W {_} view.

(** ** A small UNIX: four descriptors and one child *)

Definition small_fd (t : gmap Z Desc) : option Z :=
  if decide (t !! 0 = None) then Some 0 else if decide (t !! 1 = None) then Some 1
  else if decide (t !! 2 = None) then Some 2 else if decide (t !! 3 = None) then Some 3 else None.

Definition small_open (p : list Z) (flags : Z) (v : View) : Z * View :=
  match small_fd (descs v), (match names v !! p with Some i => Some i | None => if has_creat flags then Some (fresh (dom (data v))) else None end) with
  | Some fd, Some i =>
      let bs := match names v !! p with Some i => if has_trunc flags then [] else default [] (data v !! i) | None => [] end in
      (fd, mkView (<[p := i]> (names v)) (<[i := bs]> (data v)) (<[fd := mkDesc i (access_of flags) (has_append flags) 0]> (descs v)) (children v))
  | _, _ => (-1, v)
  end.

Definition small_at (v : View) (fd : Z) : option (Desc * list Z) :=
  d ← descs v !! fd; old ← data v !! d_file d; Some (d, old).

Definition small_write (fd : Z) (bs : list Z) (n : Z) (v : View) : Z * View :=
  match small_at v fd with
  | Some (d, old) =>
      if decide (d_access d = O_RDONLY) then (-1, v) else
      let at_ := if d_append d then length old else d_pos d in
      let put := take (Z.to_nat n) bs in
      (n, mkView (names v) (<[d_file d := splice old at_ put]> (data v)) (<[fd := set_pos (at_ + length put) d]> (descs v)) (children v))
  | None => (-1, v)
  end.

Definition small_read (fd n : Z) (v : View) : Z * list Z * View :=
  match small_at v fd with
  | Some (d, old) =>
      if decide (d_access d = O_WRONLY) then (-1, [], v) else
      let got := take (Z.to_nat n) (drop (d_pos d) old) in
      (Z.of_nat (length got), got, set_descs v (<[fd := set_pos (d_pos d + length got) d]> (descs v)))
  | None => (-1, [], v)
  end.

Definition small_lseek (fd offset whence : Z) (v : View) : Z * View :=
  match small_at v fd with
  | Some (d, old) =>
      match seek_base whence (d_pos d) (length old) with
      | Some base => if decide (0 <= base + offset) then (base + offset, set_descs v (<[fd := set_pos (Z.to_nat (base + offset)) d]> (descs v))) else (-1, v)
      | None => (-1, v)
      end
  | None => (-1, v)
  end.

Definition small_remove (p : list Z) (v : View) : Z * View :=
  match names v !! p with Some _ => (0, mkView (delete p (names v)) (data v) (descs v) (children v)) | None => (-1, v) end.

#[local] Instance small_unix : Unix View := {
  unix_open := small_open;
  unix_close fd v := match descs v !! fd with Some _ => (0, set_descs v (delete fd (descs v))) | None => (-1, v) end;
  unix_write := small_write; unix_read := small_read; unix_lseek := small_lseek;
  unix_remove := small_remove; unix_unlink := small_remove;
  unix_vfork c v := match children v !! 2 with Some _ => (-1, v) | None => (2, set_children v (<[2 := c]> (children v))) end;
  unix_waitpid pid v := match children v !! pid with Some _ => (pid, set_children v (delete pid (children v))) | None => (-1, v) end;
  unix_getpid v := 1; unix_exit status v := v }.

Lemma small_fd_ok t fd : small_fd t = Some fd -> 0 <= fd /\ t !! fd = None /\ (forall k, 0 <= k < fd -> is_Some (t !! k)).
Proof.
  unfold small_fd. intros H.
  case_decide as H0; [injection H as <-; split_and!; [done|done|lia]|]. apply not_eq_None_Some in H0.
  case_decide as H1; [injection H as <-; split_and!; [done|done|intros k Hk; by replace k with 0 by lia]|]. apply not_eq_None_Some in H1.
  assert (forall k, 0 <= k < 2 -> is_Some (t !! k)) as L2.
  { intros k Hk. destruct (decide (k = 0)) as [->|]; [done|by replace k with 1 by lia]. }
  case_decide as H2; [by injection H as <-|]. apply not_eq_None_Some in H2.
  case_decide as H3; [injection H as <-|done]. split_and!; [done|done|]. intros k Hk.
  destruct (decide (k = 2)) as [->|]; [done|]. apply L2. lia.
Qed.

#[local] Instance small_posix : Posix View id.
Proof.
  split; cbn [unix_open unix_close unix_write unix_read unix_lseek unix_remove unix_unlink unix_vfork unix_waitpid small_unix].
  - intros p flags v. unfold small_open. destruct (small_fd (descs v)) as [fd|] eqn:Hf; [|by left].
    destruct (names v !! p) as [i|] eqn:Hp; [|destruct (has_creat flags) eqn:Hc; [|by left]]; right;
      (split_and!; [by eapply small_fd_ok|by eapply small_fd_ok|by eapply small_fd_ok|]); eexists _, _; (split; [|done]); [by left|right].
    split_and!; try done. apply not_elem_of_dom, is_fresh.
  - intros fd v. unfold id. destruct (descs v !! fd) eqn:Hd; [rewrite decide_True by (by eexists)|rewrite decide_False by (intros [? ?]; congruence)]; done.
  - intros fd d old bs n v Hd Ho Hp Hn. unfold small_write, small_at. cbn in Hd, Ho. rewrite Hd. cbn. rewrite Ho. cbn.
    case_decide as Ha; [by left|]. right. split_and!; try done; lia.
  - intros fd d old n v Hd Ho Hp Hn. unfold small_read, small_at. cbn in Hd, Ho. rewrite Hd. cbn. rewrite Ho. cbn.
    case_decide as Ha; [by left|]. right. rewrite length_take. split_and!; [done|lia|lia| |by rewrite Nat2Z.id|].
    + rewrite Nat2Z.id. destruct (Nat.le_ge_cases (Z.to_nat n) (length (drop (d_pos d) old))) as [HL|HL]; [by rewrite Nat.min_l|].
      by rewrite Nat.min_r, !take_ge by lia.
    + by rewrite Nat2Z.id.
  - intros fd d old offset whence v Hd Ho. unfold small_lseek, small_at. cbn in Hd, Ho. rewrite Hd. cbn. rewrite Ho. cbn.
    destruct (seek_base whence (d_pos d) (length old)); [|done]. by case_decide.
  - intros p v. unfold small_remove, removed. destruct (names v !! p) eqn:Hp; [right|by left]. split_and!; try done.
  - intros p v. unfold small_remove, removed. destruct (names v !! p) eqn:Hp; [right|by left]. split_and!; try done.
  - intros c v. destruct (children v !! 2) eqn:Hc; [by left|]. right. split_and!; try done; unfold int_max; lia.
  - intros pid v. cbn. by destruct (children v !! pid).
Qed.

(** A process with its terminal at the descriptors 0, 1 and 2. *)
Definition terminal : Desc := mkDesc 100 O_RDWR false 0.
Definition small_start : View := mkView {[str "tty" := 100]} {[100 := []]} (<[0 := terminal]> (<[1 := terminal]> {[2 := terminal]})) ∅.

(** Create, open and write a file; seek to 5. *)
Definition small_session : Z * Z * Z * Z :=
  let '(a, v) := Create (str "log") small_start in
  let '(b, v) := Open (str "log") RW v in
  let '(c, v) := Write (str "hello, world") 12 b v in
  let '(d, _) := Seek 5 b v in (a, b, c, d).

Lemma host_syscalls_do_witness : small_session = (1, 3, 12, -1) /\ Create_does id (str "log") small_start /\ Exec_does id (str "ls") small_start.
Proof.
  destruct (host_syscalls_do id small_start) as (H1 & _ & _ & _ & _ & _ & H7).
  split; [vm_compute; reflexivity|]. split; [apply H1|apply H7].
Defined.
