(* ===== verification/MainFiles.v ===== *)
(** * Files copied in, printed and dumped (threads/main.cc, [Print] of filesys/)

    The actions on the file system that the command line can ask for.  [Copy] reads
    a UNIX file through lib/sysdep.cc; a read returns some of what is left, as UNIX
    does. *)

From S2P Require Import Prelude Bytes Bitmap Disk OpenFile FileSys CommandLine.

(** ** UNIX files (lib/sysdep.cc) *)

(** A file descriptor. *)
Record UnixFd : Type := mkFd { fd_contents : list Z; fd_offset : Z }.

Section unix.
(** The files that can be opened for reading and writing, and how many bytes the
    [k]-th read returns when it is asked for [n] and [left] are there. *)
Context (unix : arg -> option (list Z)) (amount : nat -> Z -> Z -> Z).

Definition OpenForReadWrite (name : arg) (crashOnError : bool) : res (option UnixFd) :=
  match unix name with
  | Some c => Ok (Some (mkFd c 0))
  | None => _ ← ASSERT (negb crashOnError); Ok None
  end.

Definition Lseek (fd : UnixFd) (offset whence : Z) : res UnixFd :=
  let pos :=
    if bool_decide (whence = 0) then offset
    else if bool_decide (whence = 1) then fd_offset fd + offset
    else if bool_decide (whence = 2) then Z.of_nat (length (fd_contents fd)) + offset else -1 in
  _ ← ASSERT (bool_decide (pos >= 0)); Ok (mkFd (fd_contents fd) pos).

Definition Tell (fd : UnixFd) : Z := i32 (fd_offset fd).

(** The bytes go to the start of the buffer. *)
Definition ReadPartial (k : nat) (fd : UnixFd) (buffer : list Z) (nBytes : Z) : res (Z * list Z * UnixFd) :=
  let r := amount k nBytes (Z.of_nat (length (fd_contents fd)) - fd_offset fd) in
  buffer ← mem_write buffer 0 (take (Z.to_nat r) (drop (Z.to_nat (fd_offset fd)) (fd_contents fd)));
  Ok (r, buffer, mkFd (fd_contents fd) (fd_offset fd + r)).

End unix.

(** ** [Copy] and [Print] *)

Definition TransferSize : Z := 128.

(** What goes wrong is printed. *)
Inductive complaint : Type := CannotOpenInput (from : arg) | CannotCreateOutput (to : arg) | CannotOpen (name : arg).

(** What the dump prints: a header with its size, its blocks and the text of the
    contents, the sectors in use, the entries of the directory. *)
Inductive item : Type :=
| HeaderItem (size : Z) (blocks : list Z) (text : list Z) | SetItem (bits : list Z) | EntryItem (name : list Z) (sector : Z).

Section files.
Context {D : Type} `{!SectorStore D}.
Context (big : bool) (newchars : Z -> list Z) (newhdr : FileHeader) (newentries : list DirectoryEntry).
Context (unix : arg -> option (list Z)) (amount : nat -> Z -> Z -> Z).

(** [while ((amountRead = ReadPartial(...)) > 0) openFile->Write(...)] *)
Fixpoint copy_loop (fuel k : nat) (fd : UnixFd) (buffer : list Z) (openFile : OpenFile) (d : D) : res (OpenFile * D) :=
  match fuel with
  | O => Diverge
  | S fuel' =>
      '(amountRead, buffer, fd) ← ReadPartial amount k fd buffer TransferSize;
      if bool_decide (amountRead > 0) then
        '(_, openFile, d) ← Write_ newchars openFile buffer amountRead d;
        copy_loop fuel' (S k) fd buffer openFile d
      else Ok (openFile, d)
  end.

Definition Copy (fs : FileSystem) (from to : arg) (d : D) : res (list complaint * D) :=
  fd ← OpenForReadWrite unix from false;
  match fd with
  | None => Ok ([CannotOpenInput from], d)
  | Some fd =>
      fd ← Lseek fd 0 2;
      let fileLength := Tell fd in
      fd ← Lseek fd 0 0;
      '(created, d) ← Create big newchars newhdr newentries fs to fileLength d;
      if negb created then Ok ([CannotCreateOutput to], d)
      else
        '(openFile, d) ← Open big newchars newentries fs to d;
        match openFile with
        | None => AssertFail
        | Some openFile =>
            '(_, d) ← copy_loop (S (length (fd_contents fd))) 0 fd (newchars TransferSize) openFile d;
            Ok ([], d)
        end
  end.

(** [while ((amountRead = openFile->Read(...)) > 0)], and what has been printed. *)
Fixpoint print_file_loop (fuel : nat) (buffer : list Z) (openFile : OpenFile) (out : list Z) (d : D)
    : res (list Z * OpenFile * D) :=
  match fuel with
  | O => Diverge
  | S fuel' =>
      '(amountRead, bs, openFile, d) ← Read_ newchars openFile TransferSize d;
      buffer ← mem_write buffer 0 bs;
      if bool_decide (amountRead > 0) then
        printed ← mem_read buffer 0 (Z.to_nat amountRead);
        print_file_loop fuel' buffer openFile (out ++ printed) d
      else Ok (out, openFile, d)
  end.

Definition Print (fs : FileSystem) (name : arg) (d : D) : res ((complaint + list Z) * D) :=
  '(openFile, d) ← Open big newchars newentries fs name d;
  match openFile with
  | None => Ok (inl (CannotOpen name), d)
  | Some openFile =>
      '(out, _, d) ← print_file_loop (S (Z.to_nat (Length openFile))) (newchars TransferSize) openFile [] d;
      Ok (inr out, d)
  end.
(** ** [Print] of headers, directories and the file system *)

(** A byte as [FileHeader::Print] shows it: itself, or ["\\%x"]. *)
Definition hex_digit (x : Z) : Z := if bool_decide (x < 10) then 48 + x else 87 + x.
Definition show_byte (b : Z) : list Z :=
  if bool_decide (32 <= b <= 126) then [b]
  else 92 :: (if bool_decide (b < 16) then [hex_digit b] else [hex_digit (b / 16); hex_digit (b mod 16)]).

(** The loop over the sectors, with the counter [k] of the bytes shown. *)
Definition FileHeader_Print (h : FileHeader) (d : D) : res (item * D) :=
  blocks ← for_loop (Z.to_nat (numSectors h)) 0 (fun i blocks => s ← aget (dataSectors h) i; Ok (blocks ++ [s])) [];
  '(text, _, d) ← for_loop (Z.to_nat (numSectors h)) 0 (fun i '(text, k, d) =>
    s ← aget (dataSectors h) i;
    '(data, d) ← ReadSector s d;
    let shown := take (Z.to_nat (numBytes h - k)) data in
    Ok (text ++ concat (show_byte <$> shown), k + Z.of_nat (length shown), d)) ([], 0, d);
  Ok (HeaderItem (numBytes h) blocks text, d).

(** [%s] of a name: up to its zero, which has to be in the array. *)
Fixpoint print_name (nm : list Z) : res (list Z) :=
  match nm with [] => Undef | c :: nm' => if bool_decide (c = 0) then Ok [] else r ← print_name nm'; Ok (c :: r) end.

Fixpoint Directory_Print (t : Directory) (d : D) : res (list item * D) :=
  match t with
  | [] => Ok ([], d)
  | e :: t' =>
      if inUse e then
        nm ← print_name (name e);
        '(h, d) ← FetchFrom big (sector e) d;
        '(x, d) ← FileHeader_Print h d;
        '(xs, d) ← Directory_Print t' d; Ok (EntryItem nm (sector e) :: x :: xs, d)
      else Directory_Print t' d
  end.

Definition FileSystem_Print (fs : FileSystem) (d : D) : res (list item * D) :=
  '(freeMap, d) ← newPersistentBitmap big newchars (freeMapFile fs) NumSectors d;
  '(bitHdr, d) ← FetchFrom big FreeMapSector d;
  '(x, d) ← FileHeader_Print bitHdr d;
  '(dirHdr, d) ← FetchFrom big DirectorySector d;
  '(y, d) ← FileHeader_Print dirHdr d;
  bits ← BitmapImpl.Print freeMap;
  '(directory, d) ← Directory_FetchFrom big newchars (newDirectory newentries NumDirEntries) (directoryFile fs) d;
  '(zs, d) ← Directory_Print directory d;
  Ok (x :: y :: SetItem bits :: zs, d).

(** ** The actions of [main] on the file system *)

Inductive output : Type :=
| Complaint (c : complaint) | FileText (bs : list Z) | FileNames (l : list (list Z)) | Dumped (l : list item).

Definition file_action (fs : FileSystem) (a : action) (d : D) : res (list output * D) :=
  match a with
  | RemoveFile name => '(_, d) ← FileSystem_Remove big newchars newentries fs name d; Ok ([], d)
  | CopyFile from to => '(l, d) ← Copy fs from to d; Ok (List.map Complaint l, d)
  | Dump => '(l, d) ← FileSystem_Print fs d; Ok ([Dumped l], d)
  | ListFiles => '(l, d) ← FileSystem_List big newchars newentries fs d; Ok ([FileNames l], d)
  | PrintFile name => '(r, d) ← Print fs name d; Ok ([match r with inl c => Complaint c | inr bs => FileText bs end], d)
  | _ => Ok ([], d)
  end.

Fixpoint file_actions (fs : FileSystem) (l : list action) (d : D) : res (list output * D) :=
  match l with
  | [] => Ok ([], d)
  | a :: l' => '(o, d) ← file_action fs a d; '(os, d) ← file_actions fs l' d; Ok (o ++ os, d)
  end.

(** A run of [nachos] as far as the file system is concerned: the command line, the
    file system of [Kernel::Initialize], and the actions of [main]. *)
Definition nachos {R} (one : R) (atof : arg -> R) (argv : list arg) (d : D) : res (list output * D) :=
  '(o, k) ← command_line one atof false argv;
  '(fs, d) ← newFileSystem big newchars newhdr newentries (formatFlag k) d;
  file_actions fs (main_actions false o) d.

End files.
