(* ===== verification/MainProofs.v ===== *)
(** * Copying a UNIX file in and printing it *)

From S2P Require Import Prelude Bytes Bitmap BitmapProofs Disk DiskProofs OpenFile OpenFileProofs.
From S2P Require Import FileSys FileSysProofs FileSysInv FileSysOps CommandLine MainFiles.

#[local] Abbreviation sec := DiskProofs.sector.
#[local] Abbreviation hsector := FileSys.sector.

(** What UNIX promises of [read] on a file: it returns something when something is
    left, and never more than that or than asked. *)
Definition reads_some (amount : nat -> Z -> Z -> Z) : Prop :=
  forall k n left, 0 < n -> 0 <= left -> 0 <= amount k n left <= Z.min n left /\ (0 < left -> 0 < amount k n left).

Section ops.
Context {D : Type} `{!SectorStore D} `{!LawfulStore D}.
Context (big : bool) (newchars : Z -> list Z) (newchars_length : forall n, 0 <= n -> length (newchars n) = Z.to_nat n).
Context (newhdr : FileHeader) (newhdr_length : Z.of_nat (length (dataSectors newhdr)) = NumDirect)
  (newhdr_ints : Forall is_i32 (dataSectors newhdr)).
Context (newentries : list DirectoryEntry) (newentries_length : (10 <= length newentries)%nat)
  (newentries_wf : Forall entry_wf newentries).
Context (unix : arg -> option (list Z)) (amount : nat -> Z -> Z -> Z) (amount_ok : reads_some amount).

#[local] Abbreviation the_files fs d := (files big (sec d) (hdr (directoryFile fs))).
#[local] Abbreviation the_dir fs d := (dir_of big (sec d) (hdr (directoryFile fs))).

(** ** Reading UNIX files *)

Lemma ReadPartial_ok k c off buffer : 0 <= off <= Z.of_nat (length c) -> length buffer = 128%nat ->
  let r := amount k TransferSize (Z.of_nat (length c) - off) in
  exists buffer', ReadPartial amount k (mkFd c off) buffer TransferSize = Ok (r, buffer', mkFd c (off + r)) /\
    length buffer' = 128%nat /\ 0 <= r <= 128 /\ off + r <= Z.of_nat (length c) /\ (r = 0 -> off = Z.of_nat (length c)) /\
    take (Z.to_nat r) buffer' = take (Z.to_nat r) (drop (Z.to_nat off) c).
Proof.
  intros Ho HL r. destruct (amount_ok k TransferSize (Z.of_nat (length c) - off) ltac:(done) ltac:(lia)) as [Hr Hp]. fold r in Hr, Hp.
  unfold TransferSize in Hr. set (bs := take (Z.to_nat r) (drop (Z.to_nat off) c)).
  assert (Lb : length bs = Z.to_nat r) by (unfold bs; rewrite length_take, length_drop; lia).
  unfold ReadPartial. cbn [fd_contents fd_offset]. fold r. fold bs. rewrite mem_write_ok by lia. cbn [mbind res_bind].
  eexists. split; [reflexivity|]. split; [rewrite length_splice; lia|]. split; [lia|]. split; [lia|]. split; [lia|].
  change (Z.to_nat 0) with 0%nat.
  unfold splice. rewrite take_0. cbn [app].
  rewrite take_app_le by lia. by rewrite take_ge by lia.
Qed.

Lemma Lseek_end c p : Lseek (mkFd c p) 0 2 = Ok (mkFd c (Z.of_nat (length c))).
Proof.
  unfold Lseek. rewrite (bool_decide_false (2 = 0)), (bool_decide_false (2 = 1)), (bool_decide_true (2 = 2)) by lia.
  cbn [fd_contents]. rewrite Z.add_0_r. by rewrite bool_decide_true by lia.
Qed.
Lemma Lseek_start c p : Lseek (mkFd c p) 0 0 = Ok (mkFd c 0).
Proof. done. Qed.

(** ** Copying *)

(** [f] is the open file of entry [e], at [off]. *)
Record opened (d : D) (e : DirectoryEntry) (f : OpenFile) (off : Z) : Prop := mkOpened {
  op_hdr : hdr f = hdr_at big (sec d) (hsector e);
  op_seek : seekPosition f = off }.

Lemma splice_prefix (C c : list Z) (off r : Z) (bs : list Z) :
  0 <= off -> 0 <= r -> off + r <= Z.of_nat (length c) -> length C = length c ->
  take (Z.to_nat off) C = take (Z.to_nat off) c -> bs = take (Z.to_nat r) (drop (Z.to_nat off) c) ->
  take (Z.to_nat (off + r)) (splice C (Z.to_nat off) bs) = take (Z.to_nat (off + r)) c /\
  length (splice C (Z.to_nat off) bs) = length c.
Proof.
  intros Ho Hr Hl HL HP ->. assert (Lb : length (take (Z.to_nat r) (drop (Z.to_nat off) c)) = Z.to_nat r)
    by (rewrite length_take, length_drop; lia).
  split; [|rewrite length_splice; lia]. unfold splice. rewrite HP, app_assoc, take_app_le by (rewrite length_app, length_take; lia).
  rewrite take_ge by (rewrite length_app, length_take; lia).
  rewrite Z2Nat.inj_add, Nat.add_comm by lia. rewrite Nat.add_comm. by rewrite take_take_drop.
Qed.

Lemma copy_loop_ok fs fuel k c off buffer f d e :
  fs_ok big fs d -> e ∈ live (the_dir fs d) -> opened d e f off -> 0 <= off <= Z.of_nat (length c) -> length buffer = 128%nat ->
  length (contents (sec d) (hdr_at big (sec d) (hsector e))) = length c ->
  take (Z.to_nat off) (contents (sec d) (hdr_at big (sec d) (hsector e))) = take (Z.to_nat off) c ->
  (length c - Z.to_nat off < fuel)%nat ->
  exists f' d', copy_loop newchars amount fuel k (mkFd c off) buffer f d = Ok (f', d') /\ fs_ok big fs d' /\
    the_files fs d' = <[key (name e) := c]> (the_files fs d).
Proof.
  revert k off buffer f d. induction fuel as [|fuel IH]; intros k off buffer f d OK He HO Ho Lb LC HP Hf; [lia|].
  cbn [copy_loop]. destruct (ReadPartial_ok k c off buffer Ho Lb) as (buffer' & -> & Lb' & Hr & Hl & Hz & Hb).
  set (r := amount k TransferSize (Z.of_nat (length c) - off)) in *. cbn [mbind res_bind].
  pose proof (m_dok _ _ _ _ (o_meta _ _ _ OK)) as Hd. destruct (o_files _ _ _ OK e He) as [Hs Hh].
  set (h := hdr_at big (sec d) (hsector e)) in *. pose proof (contents_length d h Hd Hh) as HN. pose proof (max_size h Hh) as HM.
  case_bool_decide as E.
  - destruct HO as [Eh Es]. unfold Write_. rewrite Eh, Es. fold h.
    destruct (write_file big newchars newchars_length fs d e buffer' r off OK He) as (d1 & EW & OK1 & EF & ED & EH & EC);
      [lia|unfold int_max; lia|lia|]. fold h in EF, EC, EH, EW. rewrite EW.
    assert (Ew : within h r off = r) by (unfold within; lia). rewrite Ew, Hb in *. cbn [mbind res_bind].
    destruct (splice_prefix (contents (sec d) h) c off r _ ltac:(lia) ltac:(lia) ltac:(lia) LC HP eq_refl) as [HP1 LC1].
    destruct (IH (S k) (off + r) buffer' (mkOpenFile h (i32 (off + r))) d1) as (f2 & d2 & E2 & OK2 & EF2).
    + exact OK1.
    + by rewrite ED.
    + split; [by rewrite EH|]. cbn [seekPosition]. apply i32_id. unfold is_i32, int_min, int_max. lia.
    + lia.
    + exact Lb'.
    + by rewrite EH, EC.
    + by rewrite EH, EC.
    + lia.
    + exists f2, d2. split; [exact E2|]. split; [exact OK2|]. by rewrite EF2, EF, insert_insert_eq.
  - assert (Eo : off = Z.of_nat (length c)) by (apply Hz; lia). exists f, d. split; [done|]. split; [exact OK|].
    symmetry. apply insert_id. apply (files_lookup big fs d OK). exists e. split; [exact He|]. split; [done|]. fold h.
    rewrite Eo, Nat2Z.id, (take_ge c) in HP by lia. rewrite <- HP. symmetry. apply take_ge. lia.
Qed.

(** What [Copy] does to the files. *)
Lemma Copy_ok fs d from to c : fs_ok big fs d -> unix from = Some c -> Z.of_nat (length c) <= int_max ->
  let m := the_files fs d in
  if decide (m !! key to = None /\ (size m < 10)%nat /\ blocks (Z.of_nat (length c)) <= free m) then
    if decide (Z.of_nat (length c) <= MaxFileSize) then
      exists d', Copy big newchars newhdr newentries unix amount fs from to d = Ok ([], d') /\ fs_ok big fs d' /\
        the_files fs d' = <[key to := c]> m
    else Copy big newchars newhdr newentries unix amount fs from to d = Undef
  else Z.of_nat (length c) <= MaxFileSize ->
    exists d', Copy big newchars newhdr newentries unix amount fs from to d = Ok ([CannotCreateOutput to], d') /\ same d d'.
Proof.
  intros OK Eu Hc m. unfold Copy, OpenForReadWrite. rewrite Eu. cbn [mbind res_bind]. rewrite Lseek_end. cbn [mbind res_bind].
  rewrite Lseek_start. unfold Tell. cbn [mbind res_bind fd_contents fd_offset]. rewrite i32_id by (unfold is_i32, int_min; lia).
  case_decide as E; [destruct E as (E1 & E2 & E3); case_decide as E4|intros E4].
  - pose proof (Create_ok big newchars newchars_length newhdr newhdr_length newhdr_ints newentries newentries_length newentries_wf
      fs d to (Z.of_nat (length c)) OK ltac:(lia)) as HC. cbn zeta in HC. rewrite decide_True in HC by (split; [exact E1|split; [exact E2|exact E3]]).
    destruct HC as (d1 & c0 & -> & OK1 & EF & Lc0). cbn [mbind res_bind negb].
    destruct (Open_ok big newchars newchars_length newhdr newentries newentries_length newentries_wf fs d1 to OK1) as (r & d2 & -> & HS & HM).
    rewrite EF, lookup_insert_eq in HM. destruct HM as (e & He & Ek & -> & Hc0). cbn [mbind res_bind].
    destruct (file_same big fs d1 d2 OK1 HS) as [OK2 EF2]. pose proof (o_meta _ _ _ OK1) as M1.
    assert (Hs : is_sector (hsector e)) by (by apply (o_files _ _ _ OK1)).
    assert (EH : hdr_at big (sec d2) (hsector e) = hdr_at big (sec d1) (hsector e)) by (apply hdr_at_ext; [apply HS|done]).
    assert (EC : contents (sec d2) (hdr_at big (sec d2) (hsector e)) = c0).
    { rewrite EH, <- Hc0. apply contents_ext; [by apply (o_files _ _ _ OK1)|apply HS]. }
    destruct (copy_loop_ok fs (S (length c)) 0 c 0 (newchars TransferSize) (mkOpenFile (hdr_at big (sec d1) (hsector e)) 0) d2 e)
      as (f3 & d3 & -> & OK3 & EF3).
    + exact OK2.
    + rewrite (dir_of_ext big (sec d1) (sec d2)) by (apply HS || apply (m_ok1 _ _ _ _ M1)). exact He.
    + split; [by rewrite EH|done].
    + lia.
    + rewrite newchars_length by done. done.
    + rewrite EC. lia.
    + done.
    + lia.
    + cbn [mbind res_bind]. exists d3. split; [done|]. split; [exact OK3|]. by rewrite EF3, EF2, EF, Ek, insert_insert_eq.
  - by rewrite (Create_overflow big newchars newchars_length newhdr newhdr_length newhdr_ints newentries newentries_length newentries_wf
      fs d to _ OK) by (done || lia).
  - pose proof (Create_ok big newchars newchars_length newhdr newhdr_length newhdr_ints newentries newentries_length newentries_wf
      fs d to (Z.of_nat (length c)) OK ltac:(lia)) as HC. cbn zeta in HC. rewrite decide_False in HC by done.
    destruct HC as (d1 & -> & HS). by exists d1.
Qed.

(** ** Printing *)

Lemma print_loop_ok fuel d h buffer off out : dok d -> hdr_ok h -> 0 <= off <= numBytes h -> length buffer = 128%nat ->
  (Z.to_nat (numBytes h) - Z.to_nat off < fuel)%nat ->
  exists f' d', print_file_loop newchars fuel buffer (mkOpenFile h off) out d =
    Ok (out ++ drop (Z.to_nat off) (contents (sec d) h), f', d') /\ same d d'.
Proof.
  revert d buffer off out. induction fuel as [|fuel IH]; intros d buffer off out Hd Hh Ho Lb Hf; [lia|].
  cbn [print_file_loop]. unfold Read_. cbn [hdr seekPosition]. pose proof (max_size h Hh) as HM.
  destruct (ReadAt_ok newchars newchars_length d h TransferSize off Hd Hh ltac:(lia) ltac:(unfold TransferSize, int_max; lia))
    as (d1 & -> & HS & HL).
  set (C := contents (sec d) h) in *. set (bs := take (Z.to_nat TransferSize) (drop (Z.to_nat off) C)) in *.
  assert (HB : (length bs <= 128)%nat) by (unfold bs; rewrite length_take; change (Z.to_nat TransferSize) with 128%nat; lia).
  cbn [mbind res_bind]. rewrite mem_write_ok by lia. cbn [mbind res_bind].
  pose proof (contents_length d h Hd Hh) as HN. fold C in HN.
  unfold within in *. unfold TransferSize in HL. set (r := Z.max 0 (Z.min TransferSize (numBytes h - off))) in *.
  assert (Er : r = Z.max 0 (Z.min 128 (numBytes h - off))) by done.
  assert (Ls : length (splice buffer (Z.to_nat 0) bs) = 128%nat) by (rewrite length_splice; change (Z.to_nat 0) with 0%nat; lia).
  case_bool_decide as E.
  - rewrite mem_read_ok by lia. cbn [mbind res_bind].
    rewrite i32_id by (unfold is_i32, int_min, int_max; lia).
    assert (Eb : take (Z.to_nat r) (drop (Z.to_nat 0) (splice buffer (Z.to_nat 0) bs)) = bs).
    { change (Z.to_nat 0) with 0%nat. unfold splice. rewrite take_0, drop_0. cbn [app].
      rewrite take_app_le by lia. apply take_ge. lia. }
    rewrite Eb. destruct (IH d1 (splice buffer (Z.to_nat 0) bs) (off + r) (out ++ bs)) as (f' & d' & -> & HS'); [apply HS|done|lia|exact Ls|lia|].
    exists f', d'. split; [|by eapply same_trans]. rewrite (contents_ext (sec d) (sec d1)) by (done || apply HS). fold C.
    do 3 f_equal. rewrite <- app_assoc. f_equal. rewrite Z2Nat.inj_add, <- drop_drop by lia.
    rewrite <- (take_drop (Z.to_nat TransferSize) (drop (Z.to_nat off) C)) at 2. fold bs. f_equal.
    destruct (decide (r = 128)) as [->|Hr]; [done|]. rewrite !drop_ge; [done|rewrite length_drop; unfold TransferSize; lia|rewrite length_drop; lia].
  - exists (mkOpenFile h (i32 (off + r))), d1. split; [|done]. rewrite (drop_ge C) by lia. by rewrite app_nil_r.
Qed.

Lemma Print_ok fs d nm : fs_ok big fs d -> exists d',
  Print big newchars newentries fs nm d =
    Ok (match the_files fs d !! key nm with Some c => inr c | None => inl (CannotOpen nm) end, d') /\ same d d'.
Proof.
  intros OK. unfold Print.
  destruct (Open_ok big newchars newchars_length newhdr newentries newentries_length newentries_wf fs d nm OK) as (r & d1 & -> & HS & HM).
  cbn [mbind res_bind]. destruct (the_files fs d !! key nm) as [c|] eqn:E; [|subst r; by exists d1].
  destruct HM as (e & He & Ek & -> & Hc). destruct (o_files _ _ _ OK e He) as [Hs Hh].
  set (h := hdr_at big (sec d) (hsector e)) in *. pose proof (h_bytes _ Hh) as Hb.
  destruct (print_loop_ok (S (Z.to_nat (Length (mkOpenFile h 0)))) d1 h (newchars TransferSize) 0 []) as (f' & d2 & -> & HS2).
  - apply HS.
  - exact Hh.
  - lia.
  - by rewrite newchars_length.
  - unfold Length, FileLength. cbn [hdr]. lia.
  - cbn [mbind res_bind app]. exists d2. split; [|by eapply same_trans]. rewrite drop_0, (contents_ext (sec d) (sec d1)) by (done || apply HS).
    by rewrite Hc.
Qed.

End ops.
