(* ===== verification/MainClaims.v ===== *)
(** * The command line, and files copied in and out: the theorems *)

From Stdlib Require Strings.Ascii Strings.String.
From S2P Require Import Prelude Bytes Text Bitmap Disk DiskProofs OpenFile OpenFileProofs FileSys FileSysProofs.
From S2P Require Import FileSysInv FileSysOps FileSysClaims CommandLine CommandLineProofs MainFiles MainProofs.
Import Strings.String.StringSyntax.

(** C35: the two loops over the command line read what was meant.  For any sequence of
    options, in any order and number, whose numbers are [int]s and whose other
    arguments are not options of the other loop, [main] and [Kernel::Kernel] both
    get through, each with the last value given for each of its own options and
    the default for the others, whatever the options of the other one are; and
    when the command line ends before the last argument of an option, one of the
    two stops with a failed assertion. *)
Theorem command_line_read {R : Type} (one : R) (atof : arg -> R) (stub : bool) (command : arg) (gs : list group) :
  Forall (group_ok stub) gs ->
  command_line one atof stub (command :: concat (render <$> gs)) = Ok (main_of gs, kernel_of one atof gs) /\
  forall g k, group_ok stub g -> (0 < k < needed g)%nat ->
    command_line one atof stub (command :: concat (render <$> gs) ++ take k (render g)) = AssertFail.
Proof.
  intros HF. unfold command_line. cbn [tail]. split.
  - rewrite <- (app_nil_r (concat _)), (main_groups stub gs [] _ HF) by done. cbn [main_loop mbind res_bind].
    rewrite (kernel_groups atof stub gs [] _ HF). cbn [kernel_loop mbind res_bind]. by rewrite main_fold, kernel_fold.
  - intros g k Hg Hk. rewrite main_groups; [|exact HF|by destruct g, k as [|[|[|k]]]].
    destruct (truncated atof stub g k (fold_left main_apply gs main_start) (fold_left (kernel_apply atof) gs (kernel_start one)) Hg Hk)
      as [-> |[[o ->] E]]; [done|]. cbn [mbind res_bind]. by rewrite kernel_groups, E.
Qed.

Definition demo_line : list group :=
  [GRun (str "shell") true; GRandom (-7); GCopy (str "a.txt") (str "b"); GThreadTest 1; GHost 3; GHost 1; GPrint (str "b")].

Lemma command_line_read_witness :
  command_line [] id false (str "nachos" :: concat (render <$> demo_line)) = Ok (main_of demo_line, kernel_of [] id demo_line) /\
  main_actions false (main_of demo_line) =
    [ThreadSelfTest; CopyFile (str "a.txt") (str "b"); PrintFile (str "b"); ForkUserThread (str "Thread 1") (str "shell");
     ForkUserThread (str "Thread 2") (str "shell"); ForkUserThread (str "Thread 3") (str "shell"); Halt].
Proof.
  split; [|reflexivity]. apply command_line_read.
  repeat (apply Forall_cons; split); try apply Forall_nil; cbn [group_ok];
    repeat first [apply not_flag; vm_compute; reflexivity | unfold is_i32, int_min, int_max; lia | reflexivity | split].
Defined.

(** ** Copying files in *)

Section files.
Context {D : Type} `{!SectorStore D} `{!LawfulStore D}.
Context (big : bool) (newchars : Z -> list Z) (newchars_length : forall n, 0 <= n -> length (newchars n) = Z.to_nat n).
Context (newhdr : FileHeader) (newhdr_length : Z.of_nat (length (dataSectors newhdr)) = NumDirect)
  (newhdr_ints : Forall is_i32 (dataSectors newhdr)).
Context (newentries : list DirectoryEntry) (newentries_length : (10 <= length newentries)%nat)
  (newentries_wf : Forall entry_wf newentries).
Context (unix : arg -> option (list Z)) (amount : nat -> Z -> Z -> Z) (amount_ok : reads_some amount).
Context {R : Type} (one : R) (atof : arg -> R).

#[local] Abbreviation the_files fs d := (files big (DiskProofs.sector d) (hdr (directoryFile fs))).
#[local] Abbreviation run argv d := (nachos big newchars newhdr newentries unix amount one atof argv d).

(** What [nachos -p nm] prints when the files are [m]. *)
Definition printed (m : gmap (list Z) (list Z)) (nm : arg) : list output :=
  [match m !! key nm with Some c => FileText c | None => Complaint (CannotOpen nm) end].

(** The actions of a run without formatting, on the file system found on disk. *)
Lemma run_actions fs d gs : fs_ok big fs d -> Forall (group_ok false) gs ->
  present (fun g => match g with GFormat => true | _ => false end) gs = false ->
  exists fs' d', fs_ok big fs' d' /\ the_files fs' d' = the_files fs d /\
    run (str "nachos" :: concat (render <$> gs)) d =
      file_actions big newchars newhdr newentries unix amount fs' (main_actions false (main_of gs)) d'.
Proof.
  intros OK Hg Hf. destruct (mount_ok big fs d OK) as (d' & E & HS). destruct (remount_ok big fs d d' OK HS) as [OK' EF].
  eexists _, d'. split; [exact OK'|]. split; [exact EF|]. unfold nachos, command_line. cbn [tail].
  rewrite <- (app_nil_r (concat _)), (main_groups false gs [] _ Hg) by done. cbn [main_loop mbind res_bind].
  rewrite (kernel_groups atof false gs [] _ Hg). cbn [kernel_loop mbind res_bind]. rewrite main_fold, kernel_fold.
  cbn [formatFlag kernel_of]. rewrite Hf. cbn [newFileSystem]. by rewrite E.
Qed.

(** [nachos -p nm] *)
Lemma run_print fs d nm : fs_ok big fs d -> nm ∉ kernel_flags false ->
  exists d', run [str "nachos"; str "-p"; nm] d = Ok (printed (the_files fs d) nm, d').
Proof.
  intros OK Hn. destruct (run_actions fs d [GPrint nm] OK) as (fs' & d1 & OK1 & EF & E); [by repeat constructor|done|].
  change (main_actions false (main_of [GPrint nm])) with [PrintFile nm; Halt] in E.
  change (concat (render <$> [GPrint nm])) with [str "-p"; nm] in E.
  destruct (Print_ok big newchars newchars_length newhdr newentries newentries_length newentries_wf fs' d1 nm OK1) as (d2 & EP & _).
  exists d2. rewrite E. cbn [file_actions file_action]. rewrite EP, EF. cbn [mbind res_bind app]. unfold printed.
  by destruct (the_files fs d !! key nm).
Qed.

(** [nachos -cp from to] *)
Lemma run_copy fs d from to : fs_ok big fs d -> from ∉ kernel_flags false -> to ∉ kernel_flags false ->
  exists fs' d', fs_ok big fs' d' /\ the_files fs' d' = the_files fs d /\
    run [str "nachos"; str "-cp"; from; to] d =
      ('(l, d) ← Copy big newchars newhdr newentries unix amount fs' from to d'; Ok (List.map Complaint l, d)).
Proof.
  intros OK Hf Ht. destruct (run_actions fs d [GCopy from to] OK) as (fs' & d1 & OK1 & EF & E); [by repeat constructor|done|].
  change (main_actions false (main_of [GCopy from to])) with [CopyFile from to; Halt] in E.
  change (concat (render <$> [GCopy from to])) with [str "-cp"; from; to] in E.
  exists fs', d1. split; [exact OK1|]. split; [exact EF|]. rewrite E. cbn [file_actions file_action].
  destruct (Copy _ _ _ _ _ _ fs' from to d1) as [[l d2]| | |]; [|done..]. cbn [mbind res_bind]. by rewrite app_nil_r.
Qed.

(** C12: a UNIX file that is copied in is printed unchanged by a later run.  Take any disk
    that was formatted and then used in any way, with the files [m].  When the
    name is new, the directory has room and there are enough free sectors,
    [nachos -cp from to] copies the file without a complaint, however many bytes
    each read of UNIX returns, and a later [nachos -p] prints exactly its
    contents, and every other file as before; but a file of more than 3840
    bytes is written behind the array of the header.  When one of the conditions
    does not hold, or there is no UNIX file, the run says so and changes no file. *)
Theorem copied_files_print (d : D) (ops : list fs_op) (from to : arg) :
  dok d -> Forall fs_op_ok ops -> from ∉ kernel_flags false -> to ∉ kernel_flags false ->
  exists fs0 d0 outs fs1 d1 m,
    newFileSystem big newchars newhdr newentries true d = Ok (fs0, d0) /\
    run_fs_ops big newchars newhdr newentries ops (fs0, d0) = Ok (outs, (fs1, d1)) /\ map_ops ∅ ops outs m /\
    let prints m' d2 := forall nm, nm ∉ kernel_flags false -> exists d3, run [str "nachos"; str "-p"; nm] d2 = Ok (printed m' nm, d3) in
    let room c := m !! key to = None /\ (size m < 10)%nat /\ blocks (Z.of_nat (length c)) <= free m in
    match unix from with
    | None => exists d2, run [str "nachos"; str "-cp"; from; to] d1 = Ok ([Complaint (CannotOpenInput from)], d2) /\ prints m d2
    | Some c =>
        (room c -> Z.of_nat (length c) <= MaxFileSize ->
           exists d2, run [str "nachos"; str "-cp"; from; to] d1 = Ok ([], d2) /\ prints (<[key to := c]> m) d2) /\
        (room c -> MaxFileSize < Z.of_nat (length c) <= int_max -> run [str "nachos"; str "-cp"; from; to] d1 = Undef) /\
        (~ room c -> Z.of_nat (length c) <= MaxFileSize ->
           exists d2, run [str "nachos"; str "-cp"; from; to] d1 = Ok ([Complaint (CannotCreateOutput to)], d2) /\ prints m d2)
    end.
Proof.
  intros Hd HF Hfr Hto.
  destruct (format_ok big newchars newchars_length newhdr newhdr_length newhdr_ints newentries newentries_length newentries_wf d Hd)
    as (fs0 & d0 & E0 & OK0 & EF0).
  destruct (fs_ops_steps big newchars newchars_length newhdr newhdr_length newhdr_ints newentries newentries_length newentries_wf
    ops fs0 d0 OK0 HF) as (outs & fs1 & d1 & E & OK1 & HM). rewrite EF0 in HM.
  exists fs0, d0, outs, fs1, d1, (the_files fs1 d1). split; [exact E0|]. split; [exact E|]. split; [exact HM|]. cbn zeta.
  destruct (run_copy fs1 d1 from to OK1 Hfr Hto) as (fs2 & d2 & OK2 & EF2 & ->).
  destruct (unix from) as [c|] eqn:Eu.
  - pose proof (Copy_ok big newchars newchars_length newhdr newhdr_length newhdr_ints newentries newentries_length newentries_wf
      unix amount amount_ok fs2 d2 from to c OK2 Eu) as HC. cbn zeta in HC. rewrite EF2 in HC.
    assert (HX : Z.of_nat (length c) <= MaxFileSize -> Z.of_nat (length c) <= int_max)
      by (change MaxFileSize with 3840; unfold int_max; lia).
    split_and!.
    + intros HR Hl. specialize (HC (HX Hl)).
      rewrite !decide_True in HC by (exact HR || exact Hl). destruct HC as (d3 & -> & OK3 & EF3). exists d3. split; [done|].
      intros nm Hn. rewrite <- EF3. by apply run_print.
    + intros HR [Hl Hm]. specialize (HC Hm). rewrite decide_True in HC by exact HR. rewrite decide_False in HC by lia. rewrite HC. reflexivity.
    + intros HR Hl. specialize (HC (HX Hl)).
      rewrite decide_False in HC by done. destruct (HC Hl) as (d3 & -> & HS). exists d3. split; [done|].
      destruct (file_same big fs2 d2 d3 OK2 HS) as [OK3 EF3]. intros nm Hn. rewrite <- EF2, <- EF3. by apply run_print.
  - unfold Copy, OpenForReadWrite. rewrite Eu. cbn [ASSERT negb mbind res_bind List.map]. exists d2. split; [done|].
    intros nm Hn. rewrite <- EF2. by apply run_print.
Qed.

End files.

(** A text of 200 bytes; UNIX returns at most 100 at a time. *)
Definition demo_unix (name : arg) : option (list Z) := if streq name "a.txt" then Some (replicate 150 65 ++ replicate 50 66) else None.
Definition demo_amount (k : nat) (n left : Z) : Z := Z.min (Z.min n left) 100.

#[local] Abbreviation demo_run argv d :=
  (nachos false demo_chars demo_header (replicate 10 demo_entry) demo_unix demo_amount [] id argv d).

Lemma copied_files_print_witness : exists d1 d2 d3 : list (list Z),
  demo_run [str "nachos"; str "-cp"; str "a.txt"; str "b"] d1 = Ok ([], d2) /\
  demo_run [str "nachos"; str "-p"; str "b"] d2 = Ok ([FileText (replicate 150 65 ++ replicate 50 66)], d3).
Proof.
  assert (Hplain : forall s, bool_decide (str s ∉ kernel_flags false) = true -> str s ∉ kernel_flags false) by (intros s; apply not_flag).
  destruct (copied_files_print false demo_chars demo_chars_length demo_header eq_refl (h_ints _ demo_header_ok) (replicate 10 demo_entry)
    ltac:(by rewrite length_replicate) ltac:(apply Forall_replicate; by split) demo_unix demo_amount)
    with (one := @nil Z) (atof := @id arg) (d := demo_store) (ops := @nil fs_op) (from := str "a.txt") (to := str "b")
    as (fs0 & d0 & outs & fs1 & d1 & m & _ & _ & HM & H).
  - intros k n left Hn Hl. unfold demo_amount. lia.
  - exact demo_store_ok.
  - by constructor.
  - apply Hplain. vm_compute. reflexivity.
  - apply Hplain. vm_compute. reflexivity.
  - inversion HM. subst m. change (demo_unix (str "a.txt")) with (Some (replicate 150 65 ++ replicate 50 66)) in H. cbn zeta in H.
    destruct H as (H & _). destruct H as (d2 & E & H).
    + split; [done|]. split; [by vm_compute; repeat constructor|by vm_compute].
    + by vm_compute.
    + destruct (H (str "b")) as (d3 & E3); [apply Hplain; vm_compute; reflexivity|]. exists d1, d2, d3. split; [exact E|].
      exact E3.
Defined.
