(* ===== verification/LibTest.v ===== *)
(** * lib/libtest.cc: the self test of the library *)

From Stdlib Require Strings.String.
From S2P Require Import Prelude Bytes Text Bitmap Lists ListProofs Hash CommandLine.
Import Strings.String.StringSyntax.

Definition IntCompare (x y : Z) : Z := if bool_decide (x < y) then -1 else if bool_decide (x = y) then 0 else 1.

Definition HashInt (key : Z) : Z := u32 key.

(** [atoi] of the strings of the test, which are all numbers. *)
Definition HashKey (s : arg) : Z := match number s with Ok x => x | _ => 0 end.

Definition listTestVector : list Z := [9; 5; 7].
Definition hashTestVector : list arg :=
  [str "0"; str "1"; str "2"; str "3"; str "4"; str "5"; str "6"; str "7"; str "8"; str "9"; str "10"; str "11"; str "12";
   str "13"; str "14"].

Definition LibSelfTest : res () :=
  map ← BitmapImpl.newBitmap 200;
  _ ← BitmapImpl.SelfTest map;
  '(h, _) ← LinkedList.SelfTest LinkedList.Append ∅ LinkedList.newList listTestVector;
  _ ← LinkedList.SortedSelfTest IntCompare h LinkedList.newList listTestVector;
  _ ← Hash.SelfTest HashKey HashInt newHashTable hashTestVector;
  Ok ().

(** The self test of the library passes. *)
Example lib_self_test : LibSelfTest = Ok ().
Proof. vm_compute. reflexivity. Qed.
