(* ===== verification/TestPrograms.v ===== *)
(** * test/sort.c, test/matmult.c, shell/shell.c: user programs

    The programs that come with the system, at the level of their C source; a
    program ends with the argument of [Exit].  The sizes of the arrays, macros in
    the source, are parameters.  shell/shell.c runs on the host, on the calls of
    HostSyscalls.v; test/shell.c is not modelled, since the kernel knows none of the
    system calls it makes ([ExceptionHandler] fails an assertion at its first [Write]). *)

From Stdlib Require Strings.String.
From S2P Require Import Prelude Text CommandLine.
Import Strings.String.StringSyntax.

(** ** test/sort.c *)

Module SortProgram.

Definition SIZE : Z := 1024.

(** [if (A[j] > A[j + 1])] and the exchange. *)
Definition exchange (j : Z) (A : list Z) : res (list Z) :=
  x ← aget A j;
  y ← aget A (j + 1);
  if bool_decide (x > y) then
    A ← aset A j y;
    aset A (j + 1) x
  else Ok A.

Definition pass (size : Z) (A : list Z) : res (list Z) := for_loop (Z.to_nat (size - 1)) 0 exchange A.

Definition sort (size : Z) (A : list Z) : res (list Z) := for_loop (Z.to_nat size) 0 (fun _ A => pass size A) A.

(** The loop that looks for an element out of place. *)
Fixpoint check (n : nat) (i : Z) (A : list Z) : res Z :=
  match n with
  | O => Ok 0
  | S n' => x ← aget A i; if bool_decide (x <> i) then Ok 1 else check n' (i + 1) A
  end.

(** [main]: the argument of [Exit]. *)
Definition main (size : Z) : res Z :=
  A ← for_loop (Z.to_nat size) 0 (fun i A => aset A i (i32 (size - 1 - i))) (replicate (Z.to_nat size) 0);
  A ← sort size A;
  check (Z.to_nat size) 0 A.

End SortProgram.

(** ** test/matmult.c *)

Module MatrixProgram.

Definition Dim : Z := 5.

Abbreviation matrix := (list (list Z)).

Definition get (A : matrix) (i j : Z) : res Z := r ← aget A i; aget r j.
Definition set (A : matrix) (i j x : Z) : res matrix := r ← aget A i; r ← aset r j x; aset A i r.

(** The arrays before the program runs. *)
Definition zeros (dim : Z) : matrix := replicate (Z.to_nat dim) (replicate (Z.to_nat dim) 0).

(** [C[i][j] += A[i][k] * B[k][j]] *)
Definition accumulate (A B : matrix) (i j k : Z) (C : matrix) : res matrix :=
  a ← get A i k; b ← get B k j; c ← get C i j; set C i j (i32 (c + i32 (a * b))).

Definition multiply (dim : Z) (A B C : matrix) : res matrix :=
  for_loop (Z.to_nat dim) 0 (fun i C =>
    for_loop (Z.to_nat dim) 0 (fun j C =>
      for_loop (Z.to_nat dim) 0 (fun k C => accumulate A B i j k C) C) C) C.

Definition init (dim : Z) : res (matrix * matrix * matrix) :=
  for_loop (Z.to_nat dim) 0 (fun i s =>
    for_loop (Z.to_nat dim) 0 (fun j '(A, B, C) =>
      A ← set A i j i; B ← set B i j j; C ← set C i j 0; Ok (A, B, C)) s)
    (zeros dim, zeros dim, zeros dim).

(** [main]: the argument of [Exit]. *)
Definition main (dim : Z) : res Z :=
  '(A, B, C) ← init dim;
  C ← multiply dim A B C;
  get C (dim - 1) (dim - 1).

End MatrixProgram.

(** ** shell/shell.c *)

Module ShellProgram.

Definition BufferSize : Z := 60.
Definition newline : Z := 10.

(** What the shell asks the system for. *)
Inductive event : Type := Banner | Prompt | Exec (command : list Z) | Join (newProc : Z) | Halt.

(** [Read(&buffer[i], 1, input)]; at the end of the input nothing is stored. *)
Definition Read (buffer : list Z) (i : Z) (input : list Z) : res (list Z * list Z) :=
  match input with [] => Ok (buffer, []) | c :: input' => buffer ← aset buffer i c; Ok (buffer, input') end.

(** [do Read(&buffer[i], 1, input); while (buffer[i++] != '\n')]: [i] after it. *)
Fixpoint read_line (fuel : nat) (i : Z) (buffer input : list Z) : res (Z * list Z * list Z) :=
  match fuel with
  | O => Diverge
  | S fuel' =>
      '(buffer, input) ← Read buffer i input;
      c ← aget buffer i;
      if bool_decide (c <> newline) then read_line fuel' (i + 1) buffer input else Ok (i + 1, buffer, input)
  end.

(** [strncmp(a, "exit", 4) == 0] *)
Definition is_exit (a : list Z) : bool := bool_decide (take 4 a = str "exit").

Section shell.
(** [exec k]: the id that the [k]-th [Exec] returns. *)
Context (exec : nat -> Z).

Record State : Type := mkState { buffer : list Z; input : list Z; started : nat; events : list event; halted : bool }.

Definition log (s : State) (l : list event) : State := mkState (buffer s) (input s) (started s) (events s ++ l) (halted s).

(** The end of the body of [while (1)], with the line in the buffer. *)
Definition run_line (i : Z) (s : State) : res State :=
  if bool_decide (i > 0) then
    command ← c_str (buffer s);
    Ok (mkState (buffer s) (input s) (S (started s)) (events s ++ [Exec command; Join (exec (started s))]) false)
  else Ok s.

(** The body of [while (1)]. *)
Definition body (s : State) : res State :=
  let s := log s [Prompt] in
  '(i, b, inp) ← read_line (S (Z.to_nat BufferSize)) 0 (buffer s) (input s);
  let i := i - 1 in
  b ← aset b i 0;
  let s := mkState b inp (started s) (events s) false in
  line ← c_str b;
  if is_exit line then Ok (mkState b inp (started s) (events s ++ [Halt]) true) else run_line i s.

(** [n] turns of [while (1)]; [Halt] does not return. *)
Fixpoint turns (n : nat) (s : State) : res State :=
  match n with
  | O => Ok s
  | S n' => if halted s then Ok s else s ← body s; turns n' s
  end.

Definition start (buf inp : list Z) : State := mkState buf inp 0 [Banner] false.

End shell.

End ShellProgram.
