(* ===== verification/TestProgramsProofs.v ===== *)
(** * The user programs: sorting, matrices and lines of text *)

From stdpp Require Import sorting.
From S2P Require Import Prelude Text CommandLine TestPrograms.

(** ** Bubble sort *)

Module SortProofs.
Import SortProgram.

(** A pass over [x :: l] as a function. *)
Fixpoint bubble (x : Z) (l : list Z) : list Z :=
  match l with [] => [x] | y :: l' => Z.min x y :: bubble (Z.max x y) l' end.

Lemma exchange_at pre x y l :
  exchange (Z.of_nat (length pre)) (pre ++ x :: y :: l) = Ok (pre ++ Z.min x y :: Z.max x y :: l).
Proof.
  assert (E0 : forall a b, aget (pre ++ a :: b) (Z.of_nat (length pre)) = Ok a).
  { intros a b. apply aget_lookup. by apply list_lookup_middle. }
  assert (E1 : forall a b c, aget (pre ++ a :: b :: c) (Z.of_nat (length pre) + 1) = Ok b).
  { intros a b c. rewrite <- (Nat2Z.inj_add _ 1). apply aget_lookup. rewrite lookup_app_r by lia.
    by replace (length pre + 1 - length pre)%nat with 1%nat by lia. }
  unfold exchange. rewrite E0. cbn [mbind res_bind]. rewrite E1. cbn [mbind res_bind]. case_bool_decide as H.
  - rewrite Z.min_r, Z.max_l by lia. rewrite aset_in_range by (rewrite length_app; cbn [length]; lia). cbn [mbind res_bind].
    rewrite Nat2Z.id, insert_app_r_alt, Nat.sub_diag by lia. cbn [insert list_insert].
    rewrite aset_in_range by (rewrite length_app; cbn [length]; lia).
    rewrite insert_app_r_alt by lia. by replace (Z.to_nat (Z.of_nat (length pre) + 1) - length pre)%nat with 1%nat by lia.
  - by rewrite Z.min_l, Z.max_r by lia.
Qed.

Lemma pass_loop pre x l : for_loop (length l) (Z.of_nat (length pre)) exchange (pre ++ x :: l) = Ok (pre ++ bubble x l).
Proof.
  revert pre x. induction l as [|y l IH]; intros pre x; cbn [length for_loop bubble]; [done|].
  rewrite exchange_at. cbn [mbind res_bind]. specialize (IH (pre ++ [Z.min x y]) (Z.max x y)).
  rewrite length_app, <- !app_assoc in IH. cbn [length app] in IH. rewrite Nat2Z.inj_add in IH. exact IH.
Qed.

Lemma pass_ok x l : pass (Z.of_nat (length (x :: l))) (x :: l) = Ok (bubble x l).
Proof. unfold pass. cbn [length]. replace (Z.to_nat _) with (length l) by lia. apply (pass_loop [] x l). Qed.

Lemma bubble_perm x l : bubble x l ≡ₚ x :: l.
Proof.
  revert x. induction l as [|y l IH]; intros x; cbn [bubble]; [done|]. rewrite IH.
  destruct (Z.le_ge_cases x y) as [H|H]; [by rewrite Z.min_l, Z.max_r by lia|]. rewrite Z.min_r, Z.max_l by lia. apply Permutation_swap.
Qed.

(** The largest element ends up behind the others. *)
Lemma bubble_last x l : exists B m, bubble x l = B ++ [m] /\ Forall (fun b => b <= m) B /\ x <= m.
Proof.
  revert x. induction l as [|y l IH]; intros x; cbn [bubble]; [by exists [], x; split_and!|].
  destruct (IH (Z.max x y)) as (B & m & -> & HB & Hm). exists (Z.min x y :: B), m. split_and!; [done| |lia]. constructor; [lia|done].
Qed.

Lemma bubble_sorted x C : Forall (Z.le x) C -> StronglySorted Z.le C -> bubble x C = x :: C.
Proof.
  intros HF HS. revert x HF. induction HS as [|y C HS IH Hy]; intros x HF; cbn [bubble]; [done|]. apply Forall_cons in HF as [Hx _].
  rewrite Z.min_l, Z.max_r by lia. by rewrite IH.
Qed.

Lemma bubble_app x l C : Forall (fun b => Forall (Z.le b) C) (x :: l) -> StronglySorted Z.le C -> bubble x (l ++ C) = bubble x l ++ C.
Proof.
  intros HF HS. revert x HF. induction l as [|y l IH]; intros x HF; apply Forall_cons in HF as [Hx HF]; cbn [app bubble].
  - by apply bubble_sorted.
  - apply Forall_cons in HF as [Hy HF]. rewrite IH; [done|]. constructor; [|done]. by destruct (Z.max_spec x y) as [[_ ->]|[_ ->]].
Qed.

(** After [k] passes the last [k] elements are in place. *)
Definition sorted_tail (k : nat) (A0 A : list Z) : Prop :=
  A ≡ₚ A0 /\ exists B C, A = B ++ C /\ StronglySorted Z.le C /\ Forall (fun b => Forall (Z.le b) C) B /\
    (length C = k \/ B = []).

Lemma pass_step k A0 A : sorted_tail k A0 A ->
  exists A', pass (Z.of_nat (length A)) A = Ok A' /\ sorted_tail (S k) A0 A' /\ length A' = length A.
Proof.
  intros (HP & B & C & -> & HS & HF & HL). destruct B as [|x l].
  - cbn [app] in *. destruct C as [|c C]; [exists []; split; [done|]; split; [|done]; split; [done|]; exists [], []; by split_and!; [| | |right]|].
    rewrite pass_ok. apply StronglySorted_inv in HS as [HS Hc]. exists (c :: C). rewrite bubble_sorted by done. split; [done|]. split; [|done].
    split; [done|]. exists [], (c :: C). split_and!; [done|by constructor|done|by right].
  - cbn [app]. rewrite pass_ok. exists (bubble x (l ++ C)). split; [done|].
    assert (HPb : bubble x (l ++ C) ≡ₚ x :: l ++ C) by apply bubble_perm. split; [|by rewrite HPb].
    split; [by rewrite HPb|]. rewrite bubble_app by done. destruct (bubble_last x l) as (B & m & E & HB & Hm).
    pose proof (bubble_perm x l) as HP2. rewrite E in HP2 |- *. exists B, (m :: C).
    assert (HF2 : Forall (fun b => Forall (Z.le b) C) (B ++ [m])) by (rewrite HP2; exact HF).
    apply Forall_app in HF2 as [HF2 HFm]. rewrite Forall_singleton in HFm. split_and!.
    + by rewrite <- app_assoc.
    + by constructor.
    + apply Forall_forall. intros b Hb. rewrite Forall_forall in HB, HF2. constructor; [by apply HB|by apply HF2].
    + destruct HL as [HL|HL]; [|done]. left. cbn. lia.
Qed.

Lemma sort_ok A : exists A', sort (Z.of_nat (length A)) A = Ok A' /\ A' ≡ₚ A /\ StronglySorted Z.le A'.
Proof.
  unfold sort.
  destruct (for_loop_ind (fun i A' => sorted_tail (Z.to_nat i) A A' /\ length A' = length A) (Z.to_nat (Z.of_nat (length A))) 0
    (fun _ A' => pass (Z.of_nat (length A)) A') A) as (A' & E & (HP & B & C & -> & HS & HF & HL) & HN).
  - split; [|done]. split; [done|]. exists A, []. split_and!; [by rewrite app_nil_r|constructor| |by left].
    apply Forall_forall. intros b _. constructor.
  - intros i A' Hi [HT HN]. destruct (pass_step _ _ _ HT) as (A2 & E & HT2 & HN2). rewrite HN in E. exists A2. split; [exact E|].
    replace (Z.to_nat (i + 1)) with (S (Z.to_nat i)) by lia. split; [done|congruence].
  - exists (B ++ C). split; [exact E|]. split; [exact HP|]. destruct HL as [HL| ->]; [|done].
    rewrite length_app in HN. destruct B; [done|cbn in HN; lia].
Qed.

Lemma check_ok n i A : 0 <= i -> (forall k, i <= k < i + Z.of_nat n -> A !! Z.to_nat k = Some k) -> check n i A = Ok 0.
Proof.
  revert i. induction n as [|n IH]; intros i Hi HA; cbn [check]; [done|].
  rewrite (proj2 (aget_Ok A i i)) by (split; [done|apply HA; lia]). cbn [mbind res_bind]. rewrite bool_decide_false by (intros ?; done).
  apply IH; [lia|]. intros k Hk. apply HA. lia.
Qed.

(** The array in reverse order. *)
Definition reversed (size : Z) : list Z := (fun i => size - 1 - i) <$> seqZ 0 size.

Lemma sort_init_ok size : 0 <= size <= int_max ->
  for_loop (Z.to_nat size) 0 (fun i A => aset A i (i32 (size - 1 - i))) (replicate (Z.to_nat size) 0) = Ok (reversed size).
Proof.
  intros Hs. destruct (for_loop_ind (fun i A => length A = Z.to_nat size /\ forall k, 0 <= k < i -> A !! Z.to_nat k = Some (size - 1 - k))
    (Z.to_nat size) 0 (fun i A => aset A i (i32 (size - 1 - i))) (replicate (Z.to_nat size) 0)) as (A & E & HL & HA).
  - split; [apply length_replicate|lia].
  - intros i A Hi [HL HA]. rewrite aset_in_range by lia. eexists. split; [reflexivity|]. rewrite length_insert. split; [done|].
    intros k Hk. destruct (decide (k = i)) as [->|Hne].
    + rewrite list_lookup_insert_eq by lia. rewrite i32_id; [done|]. unfold is_i32, int_min, int_max in *. lia.
    + rewrite list_lookup_insert_ne by lia. apply HA. lia.
  - rewrite E. f_equal. apply list_eq. intros j. unfold reversed. rewrite list_lookup_fmap. destruct (decide (j < Z.to_nat size)%nat) as [Hj|Hj].
    + rewrite lookup_seqZ_lt by lia. cbn. specialize (HA (Z.of_nat j) ltac:(lia)). rewrite Nat2Z.id in HA. by rewrite HA.
    + rewrite lookup_seqZ_ge by lia. cbn. apply lookup_ge_None. lia.
Qed.

Lemma reversed_perm size : reversed size ≡ₚ seqZ 0 size.
Proof.
  apply NoDup_Permutation.
  - unfold reversed. apply NoDup_fmap; [|apply NoDup_seqZ]. intros x y. lia.
  - apply NoDup_seqZ.
  - intros x. unfold reversed. rewrite list_elem_of_fmap, elem_of_seqZ. setoid_rewrite elem_of_seqZ. split; [intros (y & -> & Hy); lia|].
    intros Hx. exists (size - 1 - x). lia.
Qed.

Lemma seqZ_sorted m n : StronglySorted Z.le (seqZ m n).
Proof.
  destruct (Z.le_gt_cases 0 n) as [Hn|Hn]; [|rewrite seqZ_nil by lia; constructor].
  revert m. pattern n. apply natlike_ind; [|clear n Hn|done].
  - intros m. rewrite seqZ_nil by lia. constructor.
  - intros n Hn IH m. rewrite seqZ_cons by lia. rewrite Z.pred_succ. constructor; [apply IH|].
    apply Forall_forall. intros x Hx%elem_of_seqZ. lia.
Qed.

Lemma sort_main_ok size : 0 <= size <= int_max -> main size = Ok 0.
Proof.
  intros Hs. unfold main. rewrite sort_init_ok by done. cbn [mbind res_bind].
  assert (HL : Z.of_nat (length (reversed size)) = size) by (unfold reversed; rewrite length_fmap, length_seqZ; lia).
  destruct (sort_ok (reversed size)) as (A & E & HP & HS). rewrite HL in E. rewrite E. cbn [mbind res_bind].
  assert (EA : A = seqZ 0 size) by (apply (StronglySorted_unique Z.le); [done|apply seqZ_sorted|by rewrite HP, reversed_perm]).
  subst A. apply check_ok; [done|]. intros k Hk. rewrite lookup_seqZ_lt by lia. f_equal. lia.
Qed.

End SortProofs.

(** ** Matrices *)

Module MatrixProofs.
Import MatrixProgram.

(** [A] is the square matrix with the entries [f]. *)
Definition entries_are (dim : Z) (A : matrix) (f : Z -> Z -> Z) : Prop :=
  Z.of_nat (length A) = dim /\ forall i, 0 <= i < dim -> exists r, A !! Z.to_nat i = Some r /\ Z.of_nat (length r) = dim /\
    forall j, 0 <= j < dim -> r !! Z.to_nat j = Some (f i j).

Definition update (f : Z -> Z -> Z) (i j x : Z) : Z -> Z -> Z :=
  fun i' j' => if decide (i' = i /\ j' = j) then x else f i' j'.

Lemma entries_ext dim A f g : (forall i j, 0 <= i < dim -> 0 <= j < dim -> g i j = f i j) -> entries_are dim A f -> entries_are dim A g.
Proof.
  intros HE [HL HA]. split; [done|]. intros i Hi. destruct (HA i Hi) as (r & Er & Lr & Hr). exists r. split; [done|]. split; [done|].
  intros j Hj. by rewrite Hr, HE.
Qed.

Lemma get_ok dim A f i j : entries_are dim A f -> 0 <= i < dim -> 0 <= j < dim -> get A i j = Ok (f i j).
Proof.
  intros [HL HA] Hi Hj. destruct (HA i Hi) as (r & Er & Lr & Hr). unfold get.
  rewrite (proj2 (aget_Ok A i r)) by (split; [lia|done]). cbn [mbind res_bind]. apply aget_Ok. split; [lia|by apply Hr].
Qed.

Lemma set_ok dim A f i j x : entries_are dim A f -> 0 <= i < dim -> 0 <= j < dim ->
  exists A', set A i j x = Ok A' /\ entries_are dim A' (update f i j x).
Proof.
  intros [HL HA] Hi Hj. destruct (HA i Hi) as (r & Er & Lr & Hr). unfold set.
  rewrite (proj2 (aget_Ok A i r)) by (split; [lia|done]). cbn [mbind res_bind].
  rewrite aset_in_range by lia. cbn [mbind res_bind]. rewrite aset_in_range by lia. eexists. split; [reflexivity|].
  split; [by rewrite length_insert|]. intros i' Hi'. unfold update. destruct (decide (i' = i)) as [->|Hne].
  - exists (<[Z.to_nat j := x]> r). rewrite list_lookup_insert_eq by lia. split; [done|]. rewrite length_insert. split; [done|].
    intros j' Hj'. case_decide as E.
    + destruct E as [_ ->]. apply list_lookup_insert_eq. lia.
    + rewrite list_lookup_insert_ne by lia. by apply Hr.
  - rewrite list_lookup_insert_ne by lia. destruct (HA i' Hi') as (r' & Er' & Lr' & Hr'). exists r'. split; [done|]. split; [done|].
    intros j' Hj'. rewrite Hr' by done. rewrite decide_False by naive_solver. done.
Qed.

(** The sum of [f 0], ..., [f (n - 1)]. *)
Fixpoint sum (n : nat) (f : Z -> Z) : Z := match n with O => 0 | S n' => sum n' f + f (Z.of_nat n') end.

Lemma sum_ext n f g : (forall k, 0 <= k < Z.of_nat n -> f k = g k) -> sum n f = sum n g.
Proof. induction n as [|n IH]; intros H; cbn [sum]; [done|]. rewrite IH, H by (intros; try apply H; lia). done. Qed.

Lemma sum_const n x : sum n (fun _ => x) = Z.of_nat n * x.
Proof. induction n as [|n IH]; cbn [sum]; [done|]. rewrite IH. lia. Qed.

Section multiply.
Context (dim : Z) (A B : matrix) (a b : Z -> Z -> Z).
Context (HA : entries_are dim A a) (HB : entries_are dim B b).

Definition product (i j : Z) : Z := sum (Z.to_nat dim) (fun k => a i k * b k j).

Lemma accumulate_loop i j C c : 0 <= i < dim -> 0 <= j < dim -> entries_are dim C c -> is_i32 (c i j) ->
  exists C', for_loop (Z.to_nat dim) 0 (fun k C => accumulate A B i j k C) C = Ok C' /\
    entries_are dim C' (update c i j (i32 (c i j + product i j))).
Proof.
  intros Hi Hj HC Hc.
  destruct (for_loop_ind (fun k C' => entries_are dim C' (update c i j (i32 (c i j + sum (Z.to_nat k) (fun k => a i k * b k j)))))
    (Z.to_nat dim) 0 (fun k C => accumulate A B i j k C) C) as (C' & E & HC').
  - eapply entries_ext; [|exact HC]. intros i' j' _ _. unfold update. case_decide as E; [|done]. destruct E as [-> ->].
    cbn [sum Z.to_nat]. rewrite Z.add_0_r, i32_id by done. done.
  - intros k C' Hk HC'. unfold accumulate. rewrite (get_ok dim A a i k HA), (get_ok dim B b k j HB) by lia. cbn [mbind res_bind].
    rewrite (get_ok dim C' _ i j HC') by done. cbn [mbind res_bind]. set (s := sum (Z.to_nat k) _) in *.
    destruct (set_ok dim C' _ i j (i32 (update c i j (i32 (c i j + s)) i j + i32 (a i k * b k j))) HC' Hi Hj) as (C2 & -> & HC2).
    exists C2. split; [done|]. eapply entries_ext; [|exact HC2]. intros i' j' _ _. unfold update.
    destruct (decide (i' = i /\ j' = j)) as [E|E]; [|done]. rewrite decide_True by done.
    replace (Z.to_nat (k + 1)) with (S (Z.to_nat k)) by lia. cbn [sum]. fold s. rewrite Z2Nat.id by lia.
    rewrite Z.add_assoc. generalize (c i j + s) (a i k * b k j). intros x y. unfold i32. zlia.
  - exists C'. split; [exact E|]. by rewrite Z.add_0_l, Nat2Z.id in HC'.
Qed.

Lemma row_loop i C c : 0 <= i < dim -> entries_are dim C c -> (forall j, 0 <= j < dim -> is_i32 (c i j)) ->
  exists C', for_loop (Z.to_nat dim) 0 (fun j C => for_loop (Z.to_nat dim) 0 (fun k C => accumulate A B i j k C) C) C = Ok C' /\
    entries_are dim C' (fun i' j' => if decide (i' = i) then i32 (c i j' + product i j') else c i' j').
Proof.
  intros Hi HC Hc.
  destruct (for_loop_ind (fun j C' => entries_are dim C' (fun i' j' => if decide (i' = i /\ j' < j) then i32 (c i j' + product i j') else c i' j'))
    (Z.to_nat dim) 0 (fun j C => for_loop (Z.to_nat dim) 0 (fun k C => accumulate A B i j k C) C) C) as (C' & E & HC').
  - eapply entries_ext; [|exact HC]. intros i' j' _ Hj'. cbn. rewrite decide_False by lia. done.
  - intros j C' Hj HC'. destruct (accumulate_loop i j C' _ Hi ltac:(lia) HC') as (C2 & -> & HC2).
    { rewrite decide_False by lia. apply Hc. lia. }
    exists C2. split; [done|]. eapply entries_ext; [|exact HC2]. intros i' j' _ _. unfold update. cbn.
    rewrite (decide_False (P := i = i /\ j < j)) by lia.
    destruct (decide (i' = i /\ j' < j + 1)) as [E|E]; destruct (decide (i' = i /\ j' = j)) as [F|F]; try lia.
    + by destruct F as [-> ->].
    + rewrite decide_True by lia. done.
    + rewrite decide_False by lia. done.
  - exists C'. split; [exact E|]. eapply entries_ext; [|exact HC']. intros i' j' Hi' Hj'. cbn.
    destruct (decide (i' = i)) as [->|F]; [rewrite decide_True by lia|rewrite decide_False by lia]; done.
Qed.

(** The loops compute the product, added to what is there, in [int]s. *)
Lemma multiply_ok C c : entries_are dim C c -> (forall i j, 0 <= i < dim -> 0 <= j < dim -> is_i32 (c i j)) ->
  exists C', multiply dim A B C = Ok C' /\ entries_are dim C' (fun i j => i32 (c i j + product i j)).
Proof.
  intros HC Hc. unfold multiply.
  destruct (for_loop_ind (fun i C' => entries_are dim C' (fun i' j' => if decide (i' < i) then i32 (c i' j' + product i' j') else c i' j'))
    (Z.to_nat dim) 0 (fun i C => for_loop (Z.to_nat dim) 0 (fun j C =>
       for_loop (Z.to_nat dim) 0 (fun k C => accumulate A B i j k C) C) C) C) as (C' & E & HC').
  - eapply entries_ext; [|exact HC]. intros i' j' Hi' _. cbn. rewrite decide_False by lia. done.
  - intros i C' Hi HC'. destruct (row_loop i C' _ ltac:(lia) HC') as (C2 & -> & HC2).
    { intros j Hj. cbn. rewrite decide_False by lia. apply Hc; lia. }
    exists C2. split; [done|]. eapply entries_ext; [|exact HC2]. intros i' j' _ _. cbn. rewrite (decide_False (P := i < i)) by lia.
    destruct (decide (i' = i)) as [->|F]; [rewrite decide_True by lia; done|].
    destruct (decide (i' < i + 1)); [rewrite decide_True by lia|rewrite decide_False by lia]; done.
  - exists C'. split; [exact E|]. eapply entries_ext; [|exact HC']. intros i' j' Hi' _. cbn. rewrite decide_True by lia. done.
Qed.

End multiply.

(** A matrix whose entries before [(i, j)] are those of [g], the others zero. *)
Definition filled (g : Z -> Z -> Z) (i j : Z) : Z -> Z -> Z :=
  fun i' j' => if decide (i' < i \/ i' = i /\ j' < j) then g i' j' else 0.

Lemma fill_step dim M g i j : entries_are dim M (filled g i j) -> 0 <= i < dim -> 0 <= j < dim ->
  exists M', set M i j (g i j) = Ok M' /\ entries_are dim M' (filled g i (j + 1)).
Proof.
  intros HM Hi Hj. destruct (set_ok dim M _ i j (g i j) HM Hi Hj) as (M' & -> & HM'). exists M'. split; [done|].
  eapply entries_ext; [|exact HM']. intros i' j' _ _. unfold update, filled.
  destruct (decide (i' = i /\ j' = j)) as [[-> ->]|E]; [rewrite decide_True by lia; done|].
  destruct (decide (i' < i \/ i' = i /\ j' < j)); [rewrite decide_True by lia|rewrite decide_False by lia]; done.
Qed.

Lemma filled_row dim M g i : entries_are dim M (filled g i dim) -> entries_are dim M (filled g (i + 1) 0).
Proof.
  apply entries_ext. intros i' j' _ Hj. unfold filled.
  destruct (decide (i' < i \/ i' = i /\ j' < dim)); [rewrite decide_True by lia|rewrite decide_False by lia]; done.
Qed.

Lemma zeros_filled dim g : 0 <= dim -> entries_are dim (zeros dim) (filled g 0 0).
Proof.
  intros Hd. split; [unfold zeros; rewrite length_replicate; lia|]. intros i Hi. exists (replicate (Z.to_nat dim) 0).
  split; [apply lookup_replicate_2; lia|]. split; [rewrite length_replicate; lia|]. intros j Hj. unfold filled.
  rewrite decide_False by lia. apply lookup_replicate_2. lia.
Qed.

Lemma filled_all dim M g : entries_are dim M (filled g dim 0) -> entries_are dim M g.
Proof. apply entries_ext. intros i j Hi Hj. unfold filled. by rewrite decide_True by lia. Qed.

Definition part (dim i j : Z) (s : matrix * matrix * matrix) : Prop :=
  entries_are dim s.1.1 (filled (fun i _ => i) i j) /\ entries_are dim s.1.2 (filled (fun _ j => j) i j) /\
  entries_are dim s.2 (filled (fun _ _ => 0) i j).

Lemma matrix_init_ok dim : 0 <= dim -> exists A B C, init dim = Ok (A, B, C) /\ entries_are dim A (fun i _ => i) /\
  entries_are dim B (fun _ j => j) /\ entries_are dim C (fun _ _ => 0).
Proof.
  intros Hd. unfold init. edestruct (for_loop_ind (fun i s => part dim i 0 s)) as ([[A B] C] & E & HA & HB & HC).
  3:{ exists A, B, C. split; [exact E|]. rewrite Z.add_0_l, Z2Nat.id in HA, HB, HC by done. by split_and!; apply filled_all. }
  - split_and!; by apply zeros_filled.
  - intros i s Hi Hs. edestruct (for_loop_ind (fun j s => part dim i j s)) as (s' & E & HA & HB & HC).
    3:{ exists s'. split; [exact E|]. rewrite Z.add_0_l, Z2Nat.id in HA, HB, HC by done. by split_and!; apply filled_row. }
    + exact Hs.
    + intros j [[A B] C] Hj (HA & HB & HC). cbn [fst snd] in *.
      destruct (fill_step _ _ _ i j HA) as (A' & -> & HA'); [lia..|]. cbn [mbind res_bind].
      destruct (fill_step _ _ _ i j HB) as (B' & -> & HB'); [lia..|]. cbn [mbind res_bind].
      destruct (fill_step _ _ _ i j HC) as (C' & -> & HC'); [lia..|]. cbn [mbind res_bind]. by exists (A', B', C').
Qed.

Lemma matrix_main_ok dim : 0 < dim -> dim * (dim - 1) * (dim - 1) <= int_max -> main dim = Ok (dim * (dim - 1) * (dim - 1)).
Proof.
  intros Hd Hm. unfold main. destruct (matrix_init_ok dim) as (A & B & C & -> & HA & HB & HC); [lia|]. cbn [mbind res_bind].
  destruct (multiply_ok dim A B _ _ HA HB C _ HC) as (C' & -> & HC'); [intros i j _ _; cbn; unfold is_i32, int_min, int_max; lia|].
  cbn [mbind res_bind]. rewrite (get_ok dim C' _ (dim - 1) (dim - 1) HC') by lia. f_equal. cbn.
  unfold product. rewrite sum_const, Z2Nat.id by lia. rewrite Z.mul_assoc. apply i32_id. unfold is_i32, int_min in *. nia.
Qed.

End MatrixProofs.

(** ** Lines of text *)

Module ShellProofs.
Import ShellProgram.

(** [line] and a byte put into the buffer at [i]. *)
Definition put (buf : list Z) (i : nat) (l : list Z) : list Z := take i buf ++ l ++ drop (i + length l) buf.

Lemma put_nil buf i : put buf i [] = buf.
Proof. unfold put. cbn [app length]. rewrite Nat.add_0_r. apply take_drop. Qed.

Lemma put_cons buf i c l : (i < length buf)%nat -> put (<[i := c]> buf) (S i) l = put buf i (c :: l).
Proof.
  intros Hi. unfold put. rewrite (take_S_r _ _ c) by (by apply list_lookup_insert_eq). rewrite take_insert_ge by lia.
  cbn [length]. rewrite <- app_assoc. rewrite drop_insert_lt by lia. cbn [app]. do 3 f_equal. by rewrite <- Nat.add_succ_comm.
Qed.

Lemma put_length buf i l : (i + length l <= length buf)%nat -> length (put buf i l) = length buf.
Proof. intros H. unfold put. rewrite !length_app, length_take, length_drop. lia. Qed.

Lemma read_line_ok fuel i buf line rest : (length line < fuel)%nat -> (i + length line < length buf)%nat -> newline ∉ line ->
  read_line fuel (Z.of_nat i) buf (line ++ newline :: rest) =
    Ok (Z.of_nat i + Z.of_nat (length line) + 1, put buf i (line ++ [newline]), rest).
Proof.
  revert i buf line. induction fuel as [|fuel IH]; intros i buf line Hf Hl Hn; [lia|]. cbn [read_line].
  assert (E : forall c, aset buf (Z.of_nat i) c = Ok (<[i := c]> buf)) by (intros c; rewrite aset_in_range by lia; by rewrite Nat2Z.id).
  assert (EG : forall c, aget (<[i := c]> buf) (Z.of_nat i) = Ok c) by (intros c; apply aget_lookup, list_lookup_insert_eq; lia).
  destruct line as [|c line]; cbn [app Read length] in *; rewrite E; cbn [mbind res_bind]; rewrite EG; cbn [mbind res_bind].
  - rewrite bool_decide_false by (intros ?; done). rewrite <- put_cons, put_nil by lia. do 3 f_equal. lia.
  - apply not_elem_of_cons in Hn as [Hc Hn]. rewrite bool_decide_true by congruence.
    replace (Z.of_nat i + 1) with (Z.of_nat (S i)) by lia. rewrite IH; [|lia|rewrite length_insert; lia|done].
    rewrite put_cons by lia. do 3 f_equal. lia.
Qed.

(** A line that does not fit, or that the end of the input cuts off. *)
Lemma read_line_over fuel i buf inp : (length buf - i < fuel)%nat -> (i <= length buf)%nat ->
  newline ∉ take (length buf - i) inp -> newline ∉ drop i buf -> read_line fuel (Z.of_nat i) buf inp = Undef.
Proof.
  revert i buf inp. induction fuel as [|fuel IH]; intros i buf inp Hf Hi Hn Hb; [lia|]. cbn [read_line].
  destruct (decide (i = length buf)) as [->|Hne].
  { assert (EG : aget buf (Z.of_nat (length buf)) = Undef).
    { unfold aget. rewrite bool_decide_true by lia. by rewrite Nat2Z.id, lookup_ge_None_2 by lia. }
    destruct inp as [|c inp]; cbn [Read mbind res_bind]; [by rewrite EG|]. unfold aset. by rewrite bool_decide_false by lia. }
  destruct (lookup_lt_is_Some_2 buf i) as [x Ex]; [lia|]. rewrite (drop_S _ x) in Hb by done. apply not_elem_of_cons in Hb as [Hx Hb].
  destruct inp as [|c inp]; cbn [Read mbind res_bind].
  - rewrite (aget_lookup _ _ x) by done. cbn [mbind res_bind]. rewrite bool_decide_true by congruence.
    replace (Z.of_nat i + 1) with (Z.of_nat (S i)) by lia. apply IH; [lia|lia| |done]. rewrite take_nil. apply not_elem_of_nil.
  - rewrite aset_in_range by lia. cbn [mbind res_bind]. rewrite Nat2Z.id, (aget_lookup _ _ c) by (apply list_lookup_insert_eq; lia).
    destruct (length buf - i)%nat as [|n] eqn:En; [lia|]. cbn [take] in Hn. apply not_elem_of_cons in Hn as [Hc Hn].
    cbn [mbind res_bind]. rewrite bool_decide_true by congruence. replace (Z.of_nat i + 1) with (Z.of_nat (S i)) by lia.
    apply IH; rewrite ?length_insert; [lia|lia| |].
    + by replace (length buf - S i)%nat with n by lia.
    + by rewrite drop_insert_lt by lia.
Qed.

(** A line of the input. *)
Record line_ok (l : list Z) : Prop := mkLineOk { l_newline : newline ∉ l; l_zero : 0 ∉ l; l_length : (length l < Z.to_nat BufferSize)%nat }.

Section shell.
Context (exec : nat -> Z).

(** What a line asks for, when [k] programs have been started. *)
Definition line_events (k : nat) (l : list Z) : list event :=
  Prompt :: (if is_exit l then [Halt] else match l with [] => [] | _ => [Exec l; Join (exec k)] end).
Definition line_halts (l : list Z) : bool := is_exit l.
Definition line_starts (k : nat) (l : list Z) : nat := if line_halts l then k else match l with [] => k | _ => S k end.

Lemma body_line s l rest : length (buffer s) = Z.to_nat BufferSize -> newline ∉ buffer s -> line_ok l -> input s = l ++ newline :: rest ->
  exists b, body exec s = Ok (mkState b rest (line_starts (started s) l) (events s ++ line_events (started s) l) (line_halts l)) /\
    length b = Z.to_nat BufferSize /\ newline ∉ b.
Proof.
  intros HL HN [Hn Hz Hl] Ei. unfold body. cbn [log buffer input started events halted]. rewrite Ei.
  pose proof (read_line_ok (S (Z.to_nat BufferSize)) 0 (buffer s) l rest ltac:(lia) ltac:(lia) Hn) as ER.
  change (Z.of_nat 0) with 0 in ER. rewrite ER. cbn [mbind res_bind].
  replace (0 + Z.of_nat (length l) + 1 - 1) with (Z.of_nat (length l)) by lia.
  rewrite aset_in_range by (rewrite put_length; rewrite ?length_app; cbn [length]; lia). cbn [mbind res_bind]. rewrite Nat2Z.id.
  set (tl := drop (0 + length (l ++ [newline])) (buffer s)).
  assert (EB : <[length l := 0]> (put (buffer s) 0 (l ++ [newline])) = l ++ 0 :: tl).
  { unfold put. rewrite take_0. cbn [app]. fold tl. rewrite <- app_assoc, insert_app_r_alt, Nat.sub_diag by lia. done. }
  rewrite EB. exists (l ++ 0 :: tl). split; [|split].
  - unfold line_starts, line_halts, line_events, run_line. cbn [buffer input started events halted]. rewrite !c_str_ok by done.
    cbn [mbind res_bind]. destruct (is_exit l); [by rewrite <- app_assoc|].
    destruct l as [|c l]; [by rewrite bool_decide_false by (cbn; lia)|].
    rewrite bool_decide_true by (cbn [length]; lia). cbn [mbind res_bind]. by rewrite <- app_assoc.
  - rewrite <- EB, length_insert, put_length; [done|rewrite length_app; cbn [length]; lia].
  - rewrite not_elem_of_app, not_elem_of_cons. split; [done|]. split; [done|]. intros Ht. apply HN.
    unfold tl in Ht. apply list_elem_of_lookup in Ht as [k Ek]. rewrite lookup_drop in Ek. by eapply list_elem_of_lookup_2.
Qed.

(** What the lines ask for, up to the first that stops the shell. *)
Fixpoint lines_events (k : nat) (ls : list (list Z)) : list event :=
  match ls with
  | [] => []
  | l :: ls' => line_events k l ++ (if line_halts l then [] else lines_events (line_starts k l) ls')
  end.

Definition text (ls : list (list Z)) : list Z := concat ((fun l => l ++ [newline]) <$> ls).

Lemma turns_lines ls s rest : length (buffer s) = Z.to_nat BufferSize -> newline ∉ buffer s -> Forall line_ok ls ->
  input s = text ls ++ rest -> halted s = false ->
  exists s', turns exec (length ls) s = Ok s' /\ events s' = events s ++ lines_events (started s) ls /\
    halted s' = existsb line_halts ls /\ length (buffer s') = Z.to_nat BufferSize /\ (newline ∉ buffer s') /\
    (halted s' = false -> input s' = rest).
Proof.
  intros HL HN HF. revert s HL HN. induction HF as [|l ls Hl _ IH]; intros s HL HN Ei Eh; cbn [length turns].
  { exists s. cbn [text fmap list_fmap concat app] in Ei. rewrite Eh. by split_and!; [|rewrite app_nil_r|..]. }
  rewrite Eh. unfold text in Ei. cbn [fmap list_fmap concat] in Ei. rewrite <- !app_assoc in Ei. cbn [app] in Ei. fold (text ls) in Ei.
  destruct (body_line s l (text ls ++ rest) HL HN Hl Ei) as (b & -> & Lb & Nb). cbn [mbind res_bind existsb lines_events].
  destruct (line_halts l) eqn:Eb.
  - eexists. split; [destruct ls; cbn [length turns halted]; reflexivity|]. cbn [events halted buffer input orb].
    rewrite app_nil_r. by split_and!.
  - destruct (IH (mkState b (text ls ++ rest) (line_starts (started s) l) (events s ++ line_events (started s) l) false))
      as (s' & E & Ev & Hh & Ls & Ns & Es); [done|done|done|done|]. exists s'. split; [exact E|]. rewrite Ev. cbn [events started orb].
    rewrite <- app_assoc. by split_and!.
Qed.

Lemma body_over s : length (buffer s) = Z.to_nat BufferSize -> newline ∉ buffer s ->
  newline ∉ take (Z.to_nat BufferSize) (input s) -> body exec s = Undef.
Proof.
  intros HL HN Hi. unfold body. cbn [log buffer input].
  pose proof (read_line_over (S (Z.to_nat BufferSize)) 0 (buffer s) (input s)) as H. change (Z.of_nat 0) with 0 in H.
  rewrite Nat.sub_0_r, drop_0, HL in H. by rewrite H by (done || lia).
Qed.

End shell.

End ShellProofs.
