(* ===== verification/TestProgramsClaims.v ===== *)
(** * The user programs: the theorems *)

From Stdlib Require Strings.String.
From S2P Require Import Prelude Text CommandLine TestPrograms TestProgramsProofs.
Import Strings.String.StringSyntax.

(** C40: the programs that stress the memory compute what they mean to.  The loops of test/sort.c
    bring any array in ascending order, with no access outside it, so that the
    program, which fills the array in descending order, exits with 0; those of
    test/matmult.c compute, for any two square matrices of [int]s, the sums of
    products, wrapped around, so that the program exits with 80. *)
Theorem test_programs_compute :
  (forall A, exists A', SortProgram.sort (Z.of_nat (length A)) A = Ok A' /\ A' ≡ₚ A /\ StronglySorted Z.le A') /\
  SortProgram.main SortProgram.SIZE = Ok 0 /\
  (forall dim A B a b, MatrixProofs.entries_are dim A a -> MatrixProofs.entries_are dim B b ->
     exists C, MatrixProgram.multiply dim A B (MatrixProgram.zeros dim) = Ok C /\
       forall i j, 0 <= i < dim -> 0 <= j < dim ->
         MatrixProgram.get C i j = Ok (i32 (MatrixProofs.sum (Z.to_nat dim) (fun k => a i k * b k j)))) /\
  MatrixProgram.main MatrixProgram.Dim = Ok 80.
Proof.
  split_and!.
  - apply SortProofs.sort_ok.
  - apply SortProofs.sort_main_ok. unfold SortProgram.SIZE, int_max. lia.
  - intros dim A B a b HA HB.
    assert (HZ : MatrixProofs.entries_are dim (MatrixProgram.zeros dim) (fun _ _ => 0)).
    { eapply MatrixProofs.entries_ext; [|apply (MatrixProofs.zeros_filled dim (fun _ _ => 0)); destruct HA; lia].
      intros i j _ _. unfold MatrixProofs.filled. by case_decide. }
    destruct (MatrixProofs.multiply_ok dim A B a b HA HB _ _ HZ) as (C & E & HC); [intros; unfold is_i32, int_min, int_max; lia|].
    exists C. split; [exact E|]. intros i j Hi Hj. by rewrite (MatrixProofs.get_ok dim C _ i j HC).
  - apply (MatrixProofs.matrix_main_ok 5); [lia|unfold int_max; lia].
Qed.

Section shell.
Import ShellProgram ShellProofs.

(** C37: shell/shell.c runs the lines it reads.  Given lines that fit in its buffer of
    sixty characters, it prompts for each line, starts a program for each line that
    is not empty, with exactly that line as the command, and waits for the program
    before it goes on; it stops at the first line that begins with [exit].  When
    what follows does not have a newline among its first sixty characters, or is the
    end of the input, the next turn of the loop runs over the end of the buffer.  The
    buffer is not initialised: it is assumed not to hold a newline by chance, which
    would end a line at the end of the input. *)
Theorem shell_runs_lines (exec : nat -> Z) (buf : list Z) (ls : list (list Z)) (rest : list Z) :
  length buf = Z.to_nat BufferSize -> newline ∉ buf -> Forall line_ok ls ->
  exists s, turns exec (length ls) (start buf (text ls ++ rest)) = Ok s /\
    events s = Banner :: lines_events exec 0 ls /\
    halted s = existsb line_halts ls /\
    (halted s = false -> input s = rest /\ (newline ∉ take (Z.to_nat BufferSize) rest -> body exec s = Undef)).
Proof.
  intros HL HN HF. destruct (turns_lines exec ls (start buf (text ls ++ rest)) rest HL HN HF eq_refl eq_refl)
    as (s & E & Ev & Hh & Ls & Ns & Ei). exists s. split_and!; [done|exact Ev|done|]. intros Eh. specialize (Ei Eh). split; [done|].
  intros Hr. apply body_over; [done|done|by rewrite Ei].
Qed.

Definition demo_lines : list (list Z) := [str "sort"; str ""; str "exit"].

Lemma shell_runs_lines_witness :
  exists s, turns (fun k => 100 + Z.of_nat k) (length demo_lines)
      (start (replicate 60 7) (text demo_lines ++ str "more")) = Ok s /\
    events s = [Banner; Prompt; Exec (str "sort"); Join 100; Prompt; Prompt; Halt].
Proof.
  destruct (shell_runs_lines (fun k => 100 + Z.of_nat k) (replicate 60 7) demo_lines (str "more")) as (s & E & Ev & _).
  - reflexivity.
  - intros Hin%elem_of_replicate. destruct Hin as [Hin _]. discriminate Hin.
  - repeat (apply Forall_cons; split); try apply Forall_nil; split;
      first [apply (bool_decide_unpack (_ ∉ _)); vm_compute; exact I | vm_compute; repeat constructor].
  - exists s. split; [exact E|]. rewrite Ev. vm_compute. reflexivity.
Defined.

End shell.
